(* ===== verification/_CoqProject ===== *)
-Q . S2P
Prelude.v
Word.v
Effect.v
Ivory.v
DispatchCodes.v
State.v
Machine.v
VMem.v
MemAccess.v
VMCoproc.v
ListOps.v
ArrayOps.v
Alu.v
Bindings.v
Decode.v
Traps.v
Exceptions.v
ListInstr.v
Arith.v
Fields.v
ArrayInstr.v
Calls.v
Frames.v
ObjectInstr.v
RegisterInstr.v
Sequencer.v
Init.v
Invariant.v
Preservation.v
Preservation2.v
Preservation3.v
Preservation4.v
Run.v
Sample.v
ArithSpec.v
CycleSpec.v
ListSpec.v
SystemSpec.v
FrameSpec.v
VMSpec.v
StartSpec.v
Queues.v
QueueSpec.v
QueueSystem.v
QueueProgress.v
LifeState.v
Signals.v
MessageChannels.v
Polling.v
Disks.v
SignalSpec.v
ChannelSpec.v
DiskSpec.v
PageState.v
PageTable.v
PageSpec.v
PageMemory.v
PageScan.v
PageInvariant.v
PageScanSpec.v
WorldState.v
WorldFile.v
WorldMerge.v
WorldLoad.v
WorldSave.v
WorldMergeSpec.v
WorldRepaveSpec.v
WorldFileSpec.v
ChaosState.v
ChaosCore.v
ChaosNcp.v
ChaosSeq.v
ChaosInv.v
ChaosOps.v
ChaosStream.v
ChaosDeliver.v
ChaosSender.v
FrontEnd.v
FrontSafe.v
FrontDeliver.v
