(* ===== verification/Prelude.v ===== *)
(** * A verification library for the Open Genera virtual Lisp machine

    The repository holds several emulators of the Ivory processor and the host programs that
    serve the Lisp system running on them. This library models the parts with a logic of their
    own, in C, and proves what makes each correct:

    - the C emulator (src/c-emulator): the whole instruction set, its memory and its traps;
    - Life Support (src/life-support): the queues, signals, channels and disks through which
      the guest talks to the host;
    - the memory system of the assembly and stub emulators (src/emulator/memory.c): page
      attributes, hardware protections, faults, and the collector's scans;
    - world files (src/src/world_tools.c): their format, their load maps, and saving one;
    - the Chaosnet daemon (src/chaosd): the network control program of chaos-core.c, and the
      stream front end of chaos-stream.c.

    ** How the parts interact

    The guest is the emulator's machine state. The sequencer fetches decoded instructions from
    the instruction cache (filled by dispatch.c), which work on the stack cache, which scrolls
    over the paged memory; a memory cycle, an exception or a signal leaves an instruction by
    longjmp and enters the trap code. Life Support shares an area of the guest's memory with
    it: the guest puts commands on queues and sends signals; a handler per signal runs on a
    host thread, takes the commands and puts the answers on other queues; a polling thread
    rouses the handlers and runs resets. The memory system of the other emulators keeps, for
    each page, the attributes Lisp sets through the coprocessor and the hardware protection
    that makes the host fault when a word must not be touched yet. A world file fills that
    memory at startup and is written from it. The Chaosnet daemon is a program of its own: it
    takes frames from the network and calls from its users, keeps a table of connections with
    a ring of packets for each direction, and emits frames. Its users are clients of a Unix
    socket, whose bytes the front end moves to and from the connections.

    ** Files

    Shared: Prelude (lists as C arrays, tactics), Word (machine words and bit fields), Effect
    (the monad of C effects, bounded loops, preservation of invariants).

    The C emulator.
    - Ivory: ivory.h; tagged words, the control register, array headers, the ALU control word.
    - State: emulator.h, memory.h; the processor, the sequencer's locals, the instruction
      cache, the coprocessor registers. DispatchCodes: dispatch.h.
    - Machine: the macros of emulator.c on the stack, operands and traps; the Environment.
    - VMem, VMCoproc: memory.c; the page table, block operations, commands.
    - MemAccess: stack-cache access, scrolling and the typed memory cycles of emulator.c.
    - ListOps, ArrayOps, Alu, Bindings, Exceptions: routines instructions share.
    - ListInstr, Arith, Fields, ArrayInstr, Calls, Frames, ObjectInstr, RegisterInstr: one
      definition per case of the switch of InstructionSequencer.
    - Decode: dispatch.c. Traps: traps.c. Init: initialization.c.
    - Sequencer: the switch, its labels, the setjmp handler; a step function and a relation.
    - Invariant, Preservation to Preservation4: every operation keeps the type invariant.
      Run, Sample: symbolic execution lemmas, and a concrete machine for witnesses.
    - SystemSpec, CycleSpec, ListSpec, ArithSpec, FrameSpec, VMSpec, StartSpec: the
      theorems.

    Life Support.
    - Queues: queues.c, each routine as the sequence of its accesses to the shared indices.
      QueueSpec, QueueSystem, QueueProgress: the ring as a list, and its interleavings.
    - LifeState: embed.h. Signals, MessageChannels, Polling, Disks: the files of these names.
      SignalSpec, ChannelSpec, DiskSpec: the theorems.

    The memory system of the assembly and stub emulators.
    - PageState: the state. PageTable: attributes, protections, creation, the fault handler.
    - PageMemory: words and blocks. PageScan: flips, searches, scans, VMCommand.
    - PageSpec, PageInvariant, PageScanSpec: the theorems.

    World files (world_tools.c).
    - WorldState: worlds, load maps, the files and descriptors of the host. WorldFile: pages,
      words, opening, headers, writing. WorldMerge: load maps of a world and its parents.
    - WorldLoad: into memory. WorldSave: from memory, and the tools on whole worlds.
    - WorldMergeSpec, WorldRepaveSpec, WorldFileSpec: the theorems.

    The Chaosnet daemon.
    - ChaosState: chaos-core.h. ChaosCore: addresses and sending. ChaosNcp: closing and
      acknowledging, the user's calls, what a frame does, the timer.
    - ChaosSeq, ChaosInv, ChaosOps: packet numbers, the invariant, and that every operation
      keeps it. ChaosStream, ChaosDeliver: what a user reads. ChaosSender: what is sent.
    - FrontEnd: chaos-stream.c and the main loop. FrontSafe: its buffers, and that every turn
      ends. FrontDeliver: what a client's socket gets.

    Definitions keep the names of the C functions and macros; the comment on each gives its
    file and lines. An operation is a value of the monad [M S]: a function from a state to an
    outcome and a state.

    ** What the theorems show

    - Invariants: [SystemSpec.system_invariant] (every reachable state of the emulator has the
      widths and sizes its types promise), [PageInvariant.memory_lockstep] (hardware protection
      and page attributes agree in every reachable state of the memory system),
      [ChaosOps.chaos_core_safe] (the rings and packet numbers of every connection are
      consistent in every reachable state of the Chaosnet core, and no input stops it).
    - Refinement: memory behind the stack cache is one array of words and reads follow the
      forwarding chain (CycleSpec); cdr-coded cells are lists (ListSpec); the ring of a queue
      is a bounded list under every interleaving (QueueSystem); a Chaosnet connection is a
      reliable, ordered stream over a network that is neither (ChaosDeliver), what it sends is
      its user's bytes in numbered packets (ChaosSender), and the front end writes the stream
      to the client's socket (FrontDeliver).
    - World files: a merged load map loads what the child's does and elsewhere what the
      parent's does (WorldMergeSpec); a header that was written is read back (WorldFileSpec);
      repaving spares every word that existed (WorldRepaveSpec).
    - Function and bounds: arithmetic is exact or takes the exception (ArithSpec);
      calls and returns are inverse (FrameSpec); startup enters the right function
      (StartSpec); page creation (VMSpec); scans and faults (PageScanSpec, PageSpec); disk
      transfers stay within the partition and answer in order (DiskSpec).
    - Liveness and termination: no lost wakeup of a consumer (QueueProgress), polling rouses
      every handler (SignalSpec), reads end (CycleSpec), and the loops that do not.
    - Safety: no client and no frame makes the daemon leave a buffer or stop (FrontSafe).
    - Behaviour the code does not intend is proved as such where it can be stated: the page
      copies of StackCacheScrollUp, the wakeup a multi-element put can lose, the reset that
      locks a mutex twice.

    ** Decisions

    - C integers are [Z] at their width: [u32], [s32] and the like wrap. Signed overflow, which
      the build makes wrap, wraps; a shift by 32 or more, a subscript out of bounds and a null
      dereference are the outcome [Undefined], from which nothing follows.
    - longjmp, exit and vpunt are outcomes that keep the state reached.
    - A loop of the C code that is not structural is [loop fuel]: it ends with [OutOfFuel] when
      the bound is too small. The theorems that a result is reached state how much is enough:
      more than the length of the forwarding chain for a memory cycle, more than 1024 groups
      for the scan of a page, twelve turns for an access that faults (the handler gives up at
      the eleventh), twice the child's entries and the parent's and one for a merge. The bounds
      of the Chaosnet core, a turn per packet number, are enough in every state of its
      invariant. [loop_fuel] is a field of the Environment, so no theorem fixes it.
    - The Environment holds what the host decides: whether mmap and munmap succeed, the clock.
      The file system of Disks is a function from the calls made so far to the next answer.
      The class Host of world files says which system calls succeed; what files, descriptors
      and directories hold is part of the state. The frames that the Chaosnet core gives to
      its callback are a list in its state. The class Sockets answers the calls of the front
      end, given the calls before; SocketLaws is what is documented of it.
    - A packet number tells packets apart only if none is older or newer than half the
      numbers; the theorems about delivery suppose it of the data packets that arrive for the
      connection, and that they are the peer's. Any other frame may arrive.
    - The interleavings of queue routines are sequentially consistent; a section under a lock
      is atomic, and locking a lock the thread holds is [Undefined].
    - The emulator's memory raises its page fault through [memory_vma], as the handler does.
    - PageState is the variant for macOS, where the pages of DataSpace are protected.

    ** Not modelled

    The generated emulators (src/stub, src/alpha-emulator, src/g5-emulator, x86-64) and the Lisp
    programs that generate them: no C program of their own. Consoles, the cold-load window,
    network interfaces and the remote display: window-system and packet input and output.
    Printing and the tracing of debug builds. Attaching disk channels and the allocation of the
    communications area; the fault handlers of systems other than macOS. The network
    interface of the Chaosnet daemon, its command line, its listening socket and its trace. *)

From stdpp Require Export base tactics numbers list option gmap.
From Stdlib Require Export ZArith Lia Bool.

#[global] Open Scope Z_scope.

(** ** Scope, hint databases and tactics *)

Declare Scope vlm_scope.
Delimit Scope vlm_scope with vlm.

(** [vlm_range]: facts [0 <= x < 2^n] of machine words.
    [vlm_run]: symbolic execution of the effect monad.
    [vlm_inv]: preservation of state invariants by monadic code. *)
Create Rewrite HintDb vlm_run.
Create HintDb vlm_range.
Create HintDb vlm_inv.

(** Close an equation between integers by comparing all bits. *)
Ltac bits_ext i Hi := apply Z.bits_inj'; intros i Hi.

(** Case analysis on every boolean comparison of integers in the goal. *)
Ltac zcase :=
  repeat match goal with
  | |- context [?a =? ?b] => destruct (Z.eqb_spec a b)
  | |- context [?a <? ?b] => destruct (Z.ltb_spec a b)
  | |- context [?a <=? ?b] => destruct (Z.leb_spec a b)
  end.

Ltac zcase_in H :=
  repeat match type of H with
  | context [?a =? ?b] => destruct (Z.eqb_spec a b)
  | context [?a <? ?b] => destruct (Z.ltb_spec a b)
  | context [?a <=? ?b] => destruct (Z.leb_spec a b)
  end.

(** ** Lists indexed by C array subscripts *)

(** [nth_Z l i] is the array element [l[i]]; [None] when the subscript is out of
    bounds (undefined behaviour in C). *)
Definition nth_Z {A} (l : list A) (i : Z) : option A :=
  if 0 <=? i then l !! Z.to_nat i else None.

(** [upd_Z l i x] is the assignment [l[i] = x]. *)
Definition upd_Z {A} (l : list A) (i : Z) (x : A) : list A :=
  if 0 <=? i then <[Z.to_nat i := x]> l else l.

Definition in_bounds {A} (l : list A) (i : Z) : bool :=
  (0 <=? i) && (i <? Z.of_nat (length l)).

Section arrays.
Context {A : Type}.
Implicit Types (l : list A) (i j : Z) (x : A).

Lemma in_bounds_spec l i : in_bounds l i = true <-> 0 <= i < Z.of_nat (length l).
Proof. unfold in_bounds. rewrite andb_true_iff, Z.leb_le, Z.ltb_lt. lia. Qed.

Lemma nth_Z_is_Some l i : is_Some (nth_Z l i) <-> in_bounds l i = true.
Proof.
  rewrite in_bounds_spec. unfold nth_Z. destruct (Z.leb_spec 0 i).
  - rewrite lookup_lt_is_Some. lia.
  - split; [intros [? ?]; done | lia].
Qed.

Lemma nth_Z_bounds l i x : nth_Z l i = Some x -> 0 <= i < Z.of_nat (length l).
Proof. intros H. apply in_bounds_spec, nth_Z_is_Some. eauto. Qed.

Lemma nth_Z_None l i : nth_Z l i = None <-> in_bounds l i = false.
Proof.
  destruct (nth_Z l i) eqn:E, (in_bounds l i) eqn:B; try done.
  - assert (in_bounds l i = true) by (apply nth_Z_is_Some; eauto). congruence.
  - apply nth_Z_is_Some in B as [? ?]. congruence.
Qed.

Lemma upd_Z_length l i x : length (upd_Z l i x) = length l.
Proof. unfold upd_Z. case_match; [apply length_insert | done]. Qed.

Lemma in_bounds_upd l i j x : in_bounds (upd_Z l i x) j = in_bounds l j.
Proof. unfold in_bounds. by rewrite upd_Z_length. Qed.

Lemma nth_upd_eq l i x : 0 <= i < Z.of_nat (length l) -> nth_Z (upd_Z l i x) i = Some x.
Proof.
  intros H. unfold nth_Z, upd_Z. destruct (Z.leb_spec 0 i); [|lia].
  apply list_lookup_insert_eq. lia.
Qed.

Lemma nth_upd_ne l i j x : i <> j -> nth_Z (upd_Z l i x) j = nth_Z l j.
Proof.
  intros H. unfold nth_Z, upd_Z.
  destruct (Z.leb_spec 0 j), (Z.leb_spec 0 i); try done.
  apply list_lookup_insert_ne. lia.
Qed.

Lemma nth_upd l i j x :
  nth_Z (upd_Z l i x) j =
  if (i =? j) && in_bounds l i then Some x else nth_Z l j.
Proof.
  destruct (Z.eqb_spec i j) as [->|Hne]; simpl; [|by apply nth_upd_ne].
  destruct (in_bounds l j) eqn:B.
  - apply nth_upd_eq. by apply in_bounds_spec.
  - transitivity (@None A); [apply nth_Z_None; by rewrite in_bounds_upd|].
    symmetry. by apply nth_Z_None.
Qed.

Lemma upd_Z_comm l i j x y : i <> j -> upd_Z (upd_Z l i x) j y = upd_Z (upd_Z l j y) i x.
Proof.
  intros H. unfold upd_Z. destruct (Z.leb_spec 0 i), (Z.leb_spec 0 j); try done.
  apply list_insert_insert_ne. lia.
Qed.

Lemma upd_Z_twice l i x y : upd_Z (upd_Z l i x) i y = upd_Z l i y.
Proof. unfold upd_Z. case_match; [|done]. apply list_insert_insert_eq. Qed.

Lemma upd_Z_same l i x : nth_Z l i = Some x -> upd_Z l i x = l.
Proof. unfold nth_Z, upd_Z. case_match; [|done]. apply list_insert_id. Qed.

Lemma Forall_upd_Z (P : A -> Prop) l i x : Forall P l -> P x -> Forall P (upd_Z l i x).
Proof. intros. unfold upd_Z. case_match; [by apply Forall_insert | done]. Qed.

Lemma Forall_nth_Z (P : A -> Prop) l i x : Forall P l -> nth_Z l i = Some x -> P x.
Proof. unfold nth_Z. intros HF H. case_match; [|done]. by eapply Forall_lookup_1. Qed.
End arrays.
