(* ===== verification/Word.v ===== *)
(** Machine integers of the C emulator: the 32-bit [int] and [unsigned int], the
    8-bit tag, the [ldb]/[dpb] macros of c-emulator/emulator.h, and the bit-level
    lemmas about them that the rest of the library uses. *)

From S2P Require Export Prelude.

(** ** Widths *)

(** The value a C [unsigned int] (the typedef [Integer]) holds after an assignment. *)
Definition u32 (z : Z) : Z := z mod 2 ^ 32.

(** The value a C [int] holds after an assignment (two's complement). *)
Definition s32 (z : Z) : Z :=
  if u32 z <? 2 ^ 31 then u32 z else u32 z - 2 ^ 32.

(** The value an [unsigned char] (the typedefs [Byte] and [Tag]) holds. *)
Definition u8 (z : Z) : Z := z mod 2 ^ 8.

Definition is_u32 (z : Z) : Prop := 0 <= z < 2 ^ 32.
Definition is_s32 (z : Z) : Prop := - 2 ^ 31 <= z < 2 ^ 31.
Definition is_u8 (z : Z) : Prop := 0 <= z < 2 ^ 8.

(** [fits_s32 z]: an exact result [z] is representable as an [int]. *)
Definition fits_s32 (z : Z) : bool := (- 2 ^ 31 <=? z) && (z <? 2 ^ 31).

Lemma u32_range z : is_u32 (u32 z).
Proof. apply Z.mod_pos_bound. lia. Qed.

Lemma u8_range z : is_u8 (u8 z).
Proof. apply Z.mod_pos_bound. lia. Qed.

Lemma u32_small z : is_u32 z -> u32 z = z.
Proof. intros H. by apply Z.mod_small. Qed.

Lemma u8_small z : is_u8 z -> u8 z = z.
Proof. intros H. by apply Z.mod_small. Qed.

Lemma u32_idem z : u32 (u32 z) = u32 z.
Proof. apply u32_small, u32_range. Qed.

Lemma u8_u32 z : is_u32 (u8 z).
Proof. pose proof (u8_range z). unfold is_u8, is_u32 in *. lia. Qed.

Lemma u32_mod_spec z : exists q, u32 z = z - 2 ^ 32 * q /\ is_u32 (u32 z).
Proof.
  exists (z / 2 ^ 32). split; [|apply u32_range].
  unfold u32. rewrite Z.mod_eq; lia.
Qed.

Lemma s32_range z : is_s32 (s32 z).
Proof.
  pose proof (u32_range z). unfold s32, is_s32, is_u32 in *.
  destruct (Z.ltb_spec (u32 z) (2 ^ 31)); lia.
Qed.

Lemma s32_small z : is_s32 z -> s32 z = z.
Proof.
  intros H. destruct (u32_mod_spec z) as (q & E & R).
  unfold s32, is_s32, is_u32 in *. destruct (Z.ltb_spec (u32 z) (2 ^ 31)); lia.
Qed.

Lemma u32_s32 z : u32 (s32 z) = u32 z.
Proof.
  unfold s32. destruct (Z.ltb_spec (u32 z) (2 ^ 31)); [apply u32_idem|].
  unfold u32. rewrite Zminus_mod, Z.mod_mod, Z_mod_same_full, Z.sub_0_r, Z.mod_mod; lia.
Qed.

Lemma s32_u32 z : s32 (u32 z) = s32 z.
Proof. unfold s32. by rewrite u32_idem. Qed.

Lemma u32_add_l a b : u32 (u32 a + b) = u32 (a + b).
Proof. unfold u32. by rewrite Zplus_mod_idemp_l. Qed.
Lemma u32_add_r a b : u32 (a + u32 b) = u32 (a + b).
Proof. unfold u32. by rewrite Zplus_mod_idemp_r. Qed.
Lemma u32_sub_l a b : u32 (u32 a - b) = u32 (a - b).
Proof. unfold u32. by rewrite Zminus_mod_idemp_l. Qed.
Lemma u32_sub_r a b : u32 (a - u32 b) = u32 (a - b).
Proof. unfold u32. by rewrite Zminus_mod_idemp_r. Qed.

Lemma fits_s32_spec z : fits_s32 z = true <-> is_s32 z.
Proof. unfold fits_s32, is_s32. rewrite andb_true_iff, Z.leb_le, Z.ltb_lt. done. Qed.

(** The wrap-around overflow test of [ADD]: the wrapped sum moves in the direction
    of the addend exactly when the exact sum fits. *)
Lemma add_overflow_test a b :
  is_s32 a -> is_s32 b ->
  Bool.eqb (a <=? s32 (a + b)) (0 <=? b) = fits_s32 (a + b).
Proof.
  intros Ha Hb. destruct (u32_mod_spec (a + b)) as (q & E & R).
  unfold s32, fits_s32, is_s32, is_u32 in *. rewrite E in *.
  assert (q = -1 \/ q = 0) by lia.
  destruct (Z.ltb_spec (a + b - 2 ^ 32 * q) (2 ^ 31)); zcase; simpl; lia.
Qed.

(** The overflow test of [SUB]. *)
Lemma sub_overflow_test a b :
  is_s32 a -> is_s32 b ->
  Bool.eqb (s32 (a - b) <=? a) (0 <=? b) = fits_s32 (a - b).
Proof.
  intros Ha Hb. destruct (u32_mod_spec (a - b)) as (q & E & R).
  unfold s32, fits_s32, is_s32, is_u32 in *. rewrite E in *.
  assert (q = -1 \/ q = 0 \/ q = 1) by lia.
  destruct (Z.ltb_spec (a - b - 2 ^ 32 * q) (2 ^ 31)); zcase; simpl; lia.
Qed.

(** ** Bits *)

Lemma u32_testbit z i : 0 <= i -> Z.testbit (u32 z) i = (i <? 32) && Z.testbit z i.
Proof.
  intros Hi. unfold u32. rewrite <- Z.land_ones, Z.land_spec by lia.
  destruct (Z.ltb_spec i 32).
  - rewrite Z.ones_spec_low by lia. by rewrite andb_true_r.
  - rewrite Z.ones_spec_high by lia. by rewrite andb_false_r.
Qed.

Lemma u8_testbit z i : 0 <= i -> Z.testbit (u8 z) i = (i <? 8) && Z.testbit z i.
Proof.
  intros Hi. unfold u8. rewrite <- Z.land_ones, Z.land_spec by lia.
  destruct (Z.ltb_spec i 8).
  - rewrite Z.ones_spec_low by lia. by rewrite andb_true_r.
  - rewrite Z.ones_spec_high by lia. by rewrite andb_false_r.
Qed.

Lemma testbit_above z n i : 0 <= z < 2 ^ n -> 0 <= n <= i -> Z.testbit z i = false.
Proof.
  intros Hz Hi. destruct (Z.eq_dec z 0) as [->|]; [apply Z.bits_0|].
  apply Z.bits_above_log2; [lia|].
  apply Z.log2_lt_pow2; [lia|].
  pose proof (Z.pow_le_mono_r 2 n i). lia.
Qed.

Lemma range_of_testbit z n :
  0 <= n -> 0 <= z -> (forall i, n <= i -> Z.testbit z i = false) -> z < 2 ^ n.
Proof.
  intros Hn Hz Hb. assert (Z.land z (Z.ones n) = z) as E.
  { bits_ext i Hi. rewrite Z.land_spec. destruct (Z.ltb_spec i n).
    - rewrite Z.ones_spec_low by lia. apply andb_true_r.
    - rewrite Hb by lia. done. }
  rewrite Z.land_ones in E by lia. rewrite <- E. apply Z.mod_pos_bound. lia.
Qed.

(** ** The ldb and dpb macros *)

(** [mask ss] is [((1 << (ss)) - 1)]. *)
Definition mask (ss : Z) : Z := Z.shiftl 1 ss - 1.

(** #define ldb(ss,pp,source) *)
Definition ldb (ss pp source : Z) : Z := Z.land (Z.shiftr source pp) (mask ss).

(** #define dpb(field,ss,pp,background), as the [Integer] it is stored into *)
Definition dpb (field ss pp background : Z) : Z :=
  u32 (Z.lor (Z.shiftl (Z.land field (mask ss)) pp)
             (Z.land background (Z.lnot (Z.shiftl (mask ss) pp)))).

(** #define ceiling(n,d): C integer division truncates toward zero *)
Definition ceiling (n d : Z) : Z := Z.quot (n + (d - 1)) d.

(** #define SignExtend8(i) / SignExtend10(i), with WORD_BIT = 32 *)
Definition SignExtend8 (i : Z) : Z := Z.quot (s32 (Z.shiftl (u32 i) 24)) 16777216.
Definition SignExtend10 (i : Z) : Z := Z.quot (s32 (Z.shiftl (u32 i) 22)) 4194304.

Lemma mask_testbit ss i : 0 <= ss -> 0 <= i -> Z.testbit (mask ss) i = (i <? ss).
Proof.
  intros Hs Hi. unfold mask. rewrite Z.shiftl_1_l.
  replace (2 ^ ss - 1) with (Z.ones ss) by (rewrite Z.ones_equiv; lia).
  destruct (Z.ltb_spec i ss); [apply Z.ones_spec_low | apply Z.ones_spec_high]; lia.
Qed.

Lemma ldb_testbit ss pp z i :
  0 <= ss -> 0 <= pp -> 0 <= i ->
  Z.testbit (ldb ss pp z) i = (i <? ss) && Z.testbit z (i + pp).
Proof.
  intros. unfold ldb.
  by rewrite Z.land_spec, Z.shiftr_spec, mask_testbit, andb_comm by lia.
Qed.

Lemma dpb_testbit f ss pp bg i :
  0 <= ss -> 0 <= pp -> 0 <= i ->
  Z.testbit (dpb f ss pp bg) i =
  (i <? 32) && (if (pp <=? i) && (i <? pp + ss) then Z.testbit f (i - pp)
                else Z.testbit bg i).
Proof.
  intros Hs Hp Hi. unfold dpb. rewrite u32_testbit by lia. f_equal.
  rewrite Z.lor_spec, Z.land_spec, Z.lnot_spec by lia.
  rewrite !Z.shiftl_spec by lia.
  destruct (Z.leb_spec pp i); simpl.
  - rewrite Z.land_spec, mask_testbit by lia.
    destruct (Z.ltb_spec i (pp + ss)), (Z.ltb_spec (i - pp) ss); try lia; simpl.
    + by rewrite ?andb_true_r, ?andb_false_r, ?orb_false_r.
    + by rewrite ?andb_false_r, ?andb_true_r.
  - rewrite !(Z.testbit_neg_r _ (i - pp)) by lia. by destruct (Z.testbit bg i).
Qed.

Lemma ldb_0_testbit_ext ss pp a b :
  0 <= ss -> 0 <= pp ->
  (forall i, pp <= i < pp + ss -> Z.testbit a i = Z.testbit b i) ->
  ldb ss pp a = ldb ss pp b.
Proof.
  intros Hs Hp H. bits_ext i Hi. rewrite !ldb_testbit by lia.
  destruct (Z.ltb_spec i ss); simpl; [apply H; lia | done].
Qed.

Lemma ldb_range ss pp z : 0 <= ss -> 0 <= ldb ss pp z < 2 ^ ss.
Proof.
  intros Hs. unfold ldb, mask. rewrite Z.shiftl_1_l.
  replace (2 ^ ss - 1) with (Z.ones ss) by (rewrite Z.ones_equiv; lia).
  rewrite Z.land_ones by lia. apply Z.mod_pos_bound. lia.
Qed.

Lemma ldb_mod ss z : 0 <= ss -> ldb ss 0 z = z mod 2 ^ ss.
Proof.
  intros Hs. unfold ldb, mask. rewrite Z.shiftl_1_l, Z.shiftr_0_r.
  replace (2 ^ ss - 1) with (Z.ones ss) by (rewrite Z.ones_equiv; lia).
  by rewrite Z.land_ones.
Qed.

Lemma dpb_range f ss pp bg : is_u32 (dpb f ss pp bg).
Proof. apply u32_range. Qed.

(** Reading back a deposited field gives the deposited value, reduced to its width. *)
Lemma ldb_dpb_same f ss pp bg :
  0 <= ss -> 0 <= pp -> pp + ss <= 32 ->
  ldb ss pp (dpb f ss pp bg) = f mod 2 ^ ss.
Proof.
  intros Hs Hp H. rewrite <- (ldb_mod ss f) by lia. bits_ext i Hi.
  rewrite !ldb_testbit, dpb_testbit by lia.
  destruct (Z.ltb_spec i ss); simpl; [|done].
  destruct (Z.ltb_spec (i + pp) 32), (Z.leb_spec pp (i + pp)),
    (Z.ltb_spec (i + pp) (pp + ss)); try lia; simpl. f_equal. lia.
Qed.

(** A deposit leaves every disjoint field alone. *)
Lemma ldb_dpb_disjoint f ss pp bg ss' pp' :
  0 <= ss -> 0 <= pp -> 0 <= ss' -> 0 <= pp' -> pp' + ss' <= 32 ->
  pp' + ss' <= pp \/ pp + ss <= pp' ->
  ldb ss' pp' (dpb f ss pp bg) = ldb ss' pp' bg.
Proof.
  intros. apply ldb_0_testbit_ext; [lia..|]. intros i Hi.
  rewrite dpb_testbit by lia.
  destruct (Z.ltb_spec i 32), (Z.leb_spec pp i), (Z.ltb_spec i (pp + ss)); try lia; done.
Qed.

(** Depositing the field already there changes nothing. *)
Lemma dpb_ldb_id ss pp bg :
  0 <= ss -> 0 <= pp -> is_u32 bg -> dpb (ldb ss pp bg) ss pp bg = bg.
Proof.
  intros Hs Hp Hb. bits_ext i Hi. rewrite dpb_testbit by lia.
  destruct (Z.ltb_spec i 32); simpl.
  - destruct (Z.leb_spec pp i), (Z.ltb_spec i (pp + ss)); simpl; try done.
    rewrite ldb_testbit by lia. destruct (Z.ltb_spec (i - pp) ss); [|lia].
    simpl. f_equal. lia.
  - symmetry. apply (testbit_above _ 32); [exact Hb | lia].
Qed.

(** The n-bit two's complement reading of the low [n] bits of [z]. *)
Definition signed_field (n z : Z) : Z :=
  if z mod 2 ^ n <? 2 ^ (n - 1) then z mod 2 ^ n else z mod 2 ^ n - 2 ^ n.

Lemma sign_extend_shift n z :
  0 < n <= 32 ->
  Z.quot (s32 (Z.shiftl (u32 z) (32 - n))) (2 ^ (32 - n)) = signed_field n z.
Proof.
  intros Hn. rewrite Z.shiftl_mul_pow2 by lia.
  assert (0 < 2 ^ (32 - n)) by (apply Z.pow_pos_nonneg; lia).
  assert (0 < 2 ^ n) by (apply Z.pow_pos_nonneg; lia).
  assert (2 ^ 32 = 2 ^ n * 2 ^ (32 - n)) as E32
    by (rewrite <- Z.pow_add_r by lia; f_equal; lia).
  assert (2 ^ 31 = 2 ^ (n - 1) * 2 ^ (32 - n)) as E31
    by (rewrite <- Z.pow_add_r by lia; f_equal; lia).
  assert (u32 (u32 z * 2 ^ (32 - n)) = (z mod 2 ^ n) * 2 ^ (32 - n)) as E.
  { unfold u32. rewrite Zmult_mod_idemp_l, E32. rewrite Z.mul_mod_distr_r; lia. }
  unfold s32, signed_field. rewrite E, E31, E32.
  pose proof (Z.mod_pos_bound z (2 ^ n)).
  destruct (Z.ltb_spec (z mod 2 ^ n * 2 ^ (32 - n)) (2 ^ (n - 1) * 2 ^ (32 - n))),
    (Z.ltb_spec (z mod 2 ^ n) (2 ^ (n - 1))); try nia.
  - apply Z.quot_mul. lia.
  - rewrite <- Z.mul_sub_distr_r. apply Z.quot_mul. lia.
Qed.

Lemma SignExtend8_spec z : SignExtend8 z = signed_field 8 z.
Proof.
  unfold SignExtend8. change 24 with (32 - 8). change 16777216 with (2 ^ (32 - 8)).
  apply sign_extend_shift. lia.
Qed.

Lemma SignExtend10_spec z : SignExtend10 z = signed_field 10 z.
Proof.
  unfold SignExtend10. change 22 with (32 - 10). change 4194304 with (2 ^ (32 - 10)).
  apply sign_extend_shift. lia.
Qed.

#[export] Hint Resolve u32_range u8_range s32_range u8_u32 dpb_range : vlm_range.
