(* ===== verification/Effect.v ===== *)
(** The effect monad of the emulator: a state, the C outcomes that leave a function
    other than by returning (longjmp, exit, undefined behaviour, a loop that did not
    finish within its fuel), bounded loops, and preservation of state invariants. *)

From S2P Require Export Prelude.

(** How a piece of C code ends. *)
Inductive outcome (A : Type) : Type :=
| Ok (a : A)               (* returns [a] *)
| LongJmp (vector : Z)     (* longjmp(trap_environment, vector) *)
| Exited (code : Z)        (* exit(code) *)
| Undefined                (* undefined behaviour of C: bad subscript, bad shift, ... *)
| OutOfFuel.               (* a loop ran longer than the bound given to the model *)

Arguments Ok {A} a.
Arguments LongJmp {A} vector.
Arguments Exited {A} code.
Arguments Undefined {A}.
Arguments OutOfFuel {A}.

Definition M (S A : Type) : Type := S -> outcome A * S.

Section monad.
Context {S : Type}.

Definition ret {A} (a : A) : M S A := fun s => (Ok a, s).

Definition bind {A B} (m : M S A) (k : A -> M S B) : M S B := fun s =>
  match m s with
  | (Ok a, s') => k a s'
  | (LongJmp v, s') => (LongJmp v, s')
  | (Exited c, s') => (Exited c, s')
  | (Undefined, s') => (Undefined, s')
  | (OutOfFuel, s') => (OutOfFuel, s')
  end.

Definition longjmp {A} (vector : Z) : M S A := fun s => (LongJmp vector, s).
Definition c_exit {A} (code : Z) : M S A := fun s => (Exited code, s).
Definition undefined {A} : M S A := fun s => (Undefined, s).
Definition out_of_fuel {A} : M S A := fun s => (OutOfFuel, s).

Definition gets {A} (f : S -> A) : M S A := fun s => (Ok (f s), s).
Definition modify (f : S -> S) : M S unit := fun s => (Ok tt, f s).

(** An array access: [None] is a subscript out of bounds. *)
Definition of_option {A} (o : option A) : M S A :=
  match o with Some a => ret a | None => undefined end.

Definition when (b : bool) (m : M S unit) : M S unit := if b then m else ret tt.

(** [loop fuel body a]: run [body] until it returns [inr]. *)
Fixpoint loop {A B} (fuel : nat) (body : A -> M S (A + B)) (a : A) : M S B :=
  match fuel with
  | O => out_of_fuel
  | Datatypes.S n =>
      bind (body a) (fun r => match r with
                              | inl a' => loop n body a'
                              | inr b => ret b
                              end)
  end.
End monad.

Notation "x <- m ;; k" := (bind m (fun x => k))
  (at level 100, m at next level, k at level 200, right associativity) : vlm_scope.
Notation "' p <- m ;; k" := (bind m (fun x => match x with p => k end))
  (at level 20, p pattern, m at level 99, k at level 200) : vlm_scope.
Notation "m ;; k" := (bind m (fun _ => k))
  (at level 100, k at level 200, right associativity) : vlm_scope.
#[local] Open Scope vlm_scope.

(** ** Symbolic execution *)

Section run.
Context {S : Type}.
Implicit Types (s : S).

Lemma bind_Ok {A B} (m : M S A) (k : A -> M S B) s a s' :
  m s = (Ok a, s') -> bind m k s = k a s'.
Proof. intros E. unfold bind. by rewrite E. Qed.

Lemma bind_LongJmp {A B} (m : M S A) (k : A -> M S B) s v s' :
  m s = (LongJmp v, s') -> bind m k s = (LongJmp v, s').
Proof. intros E. unfold bind. by rewrite E. Qed.

Lemma run_ret {A} (a : A) s : ret a s = (Ok a, s).
Proof. done. Qed.
Lemma run_bind_ret {A B} (a : A) (k : A -> M S B) s : bind (ret a) k s = k a s.
Proof. done. Qed.
Lemma run_bind_gets {A B} (f : S -> A) (k : A -> M S B) s :
  bind (gets f) k s = k (f s) s.
Proof. done. Qed.
Lemma run_bind_modify {B} (f : S -> S) (k : unit -> M S B) s :
  bind (modify f) k s = k tt (f s).
Proof. done. Qed.
Lemma run_bind_longjmp {A B} v (k : A -> M S B) s :
  bind (longjmp v) k s = (LongJmp v, s).
Proof. done. Qed.
Lemma run_bind_assoc {A B C} (m : M S A) (k : A -> M S B) (h : B -> M S C) s :
  bind (bind m k) h s = bind m (fun a => bind (k a) h) s.
Proof. unfold bind. by destruct (m s) as [[]?]. Qed.
Lemma run_bind_if {A B} (b : bool) (m1 m2 : M S A) (k : A -> M S B) s :
  bind (if b then m1 else m2) k s = if b then bind m1 k s else bind m2 k s.
Proof. by destruct b. Qed.
Lemma run_bind_option {A B} (a : A) (o : option A) (k : A -> M S B) s :
  o = Some a -> bind (of_option o) k s = k a s.
Proof. by intros ->. Qed.

Lemma bind_inv_Ok {A B} (m : M S A) (k : A -> M S B) s b s' :
  bind m k s = (Ok b, s') -> exists a s1, m s = (Ok a, s1) /\ k a s1 = (Ok b, s').
Proof. unfold bind. destruct (m s) as [[]?]; naive_solver. Qed.

(** A loop that finishes gives the same result with any larger fuel. *)
Lemma loop_mono {A B} (body : A -> M S (A + B)) n n' a s :
  (n <= n')%nat -> (loop n body a s).1 <> OutOfFuel ->
  loop n' body a s = loop n body a s.
Proof.
  revert n' a s. induction n as [|n IH]; intros n' a s Hn H; [done|].
  destruct n' as [|n']; [lia|]. simpl in *. unfold bind in *.
  destruct (body a s) as [[[a'|b]| | | |] s1]; try done.
  apply IH; [lia | done].
Qed.
End run.

#[global] Hint Rewrite @run_ret @run_bind_ret @run_bind_gets @run_bind_modify
  @run_bind_longjmp @run_bind_assoc @run_bind_if : vlm_run.

(** ** Invariants *)

(** [preserves I m]: whatever way [m] ends, [I] still holds if it held before. *)
Definition preserves {S A} (I : S -> Prop) (m : M S A) : Prop :=
  forall s, I s -> I (m s).2.

(** [returns I m Q]: [preserves], and [Q] holds of every returned value. *)
Definition returns {S A} (I : S -> Prop) (m : M S A) (Q : A -> Prop) : Prop :=
  forall s, I s -> I (m s).2 /\ (forall a, (m s).1 = Ok a -> Q a).

Section invariants.
Context {S : Type} (I : S -> Prop).

Lemma returns_bind {A B} (m : M S A) (k : A -> M S B) Q R :
  returns I m Q -> (forall a, Q a -> returns I (k a) R) -> returns I (bind m k) R.
Proof.
  intros Hm Hk s Hs. unfold bind. destruct (Hm s Hs) as [H1 H2].
  destruct (m s) as [[a| | | |] s']; simpl in *; try by split.
  apply Hk; [by apply H2 | done].
Qed.

Lemma returns_ret {A} (a : A) (Q : A -> Prop) : Q a -> returns I (ret a) Q.
Proof. intros H s Hs. split; [done|]. simpl. by intros a' [= ->]. Qed.

Lemma returns_gets {A} (f : S -> A) (Q : A -> Prop) :
  (forall s, I s -> Q (f s)) -> returns I (gets f) Q.
Proof. intros H s Hs. split; [done|]. simpl. intros a' [= <-]. auto. Qed.

Lemma returns_modify (f : S -> S) (Q : unit -> Prop) :
  (forall s, I s -> I (f s)) -> Q tt -> returns I (modify f) Q.
Proof. intros H Hq s Hs. split; [by apply H|]. by intros []. Qed.

Lemma returns_longjmp {A} v (Q : A -> Prop) : returns I (longjmp v) Q.
Proof. intros s Hs. by split. Qed.
Lemma returns_exit {A} c (Q : A -> Prop) : returns I (c_exit c) Q.
Proof. intros s Hs. by split. Qed.
Lemma returns_undefined {A} (Q : A -> Prop) : returns I undefined Q.
Proof. intros s Hs. by split. Qed.
Lemma returns_out_of_fuel {A} (Q : A -> Prop) : returns I out_of_fuel Q.
Proof. intros s Hs. by split. Qed.

Lemma returns_of_option {A} (o : option A) (Q : A -> Prop) :
  (forall a, o = Some a -> Q a) -> returns I (of_option o) Q.
Proof. destruct o; intros H; [apply returns_ret; auto | apply returns_undefined]. Qed.

Lemma returns_if {A} (b : bool) (m1 m2 : M S A) Q :
  returns I m1 Q -> returns I m2 Q -> returns I (if b then m1 else m2) Q.
Proof. by destruct b. Qed.

Lemma returns_when b (m : M S unit) (Q : unit -> Prop) :
  returns I m Q -> Q tt -> returns I (when b m) Q.
Proof. intros. destruct b; [done | by apply returns_ret]. Qed.

Lemma returns_weaken {A} (m : M S A) (Q R : A -> Prop) :
  returns I m Q -> (forall a, Q a -> R a) -> returns I m R.
Proof. intros H HQ s Hs. destruct (H s Hs). split; eauto. Qed.

Lemma returns_loop {A B} fuel (body : A -> M S (A + B)) a (P : A -> Prop) Q :
  (forall a, P a -> returns I (body a) (fun r => match r with inl a' => P a' | inr b => Q b end)) ->
  P a -> returns I (loop fuel body a) Q.
Proof.
  intros Hb. revert a. induction fuel as [|n IH]; intros a Ha; [apply returns_out_of_fuel|].
  simpl. eapply returns_bind; [by apply Hb|]. intros [a'|b] H; [by apply IH | by apply returns_ret].
Qed.

Lemma returns_preserves {A} (m : M S A) Q : returns I m Q -> preserves I m.
Proof. intros H s Hs. by destruct (H s Hs). Qed.

Lemma preserves_returns {A} (m : M S A) : preserves I m -> returns I m (fun _ => True).
Proof. intros H s Hs. split; [by apply H | done]. Qed.
End invariants.
