(* ===== verification/Ivory.v ===== *)
(** The Ivory architecture (c-emulator/ivory.h): tagged objects, data types, cdr
    codes, the control register, array headers, the ALU control word, trap vectors
    and internal register numbers; and the algebra of these encodings. *)

From S2P Require Export Word.

(** Data types (the low six bits of a tag). *)
Definition TypeNull : Z := 0. (* c-emulator/ivory.h:16 *)
Definition TypeMonitorForward : Z := 1. (* c-emulator/ivory.h:17 *)
Definition TypeHeaderP : Z := 2. (* c-emulator/ivory.h:18 *)
Definition TypeHeaderI : Z := 3. (* c-emulator/ivory.h:19 *)
Definition TypeExternalValueCellPointer : Z := 4. (* c-emulator/ivory.h:20 *)
Definition TypeOneQForward : Z := 5. (* c-emulator/ivory.h:21 *)
Definition TypeHeaderForward : Z := 6. (* c-emulator/ivory.h:22 *)
Definition TypeElementForward : Z := 7. (* c-emulator/ivory.h:23 *)
Definition TypeFixnum : Z := 8. (* c-emulator/ivory.h:25 *)
Definition TypeSmallRatio : Z := 9. (* c-emulator/ivory.h:26 *)
Definition TypeSingleFloat : Z := 10. (* c-emulator/ivory.h:27 *)
Definition TypeDoubleFloat : Z := 11. (* c-emulator/ivory.h:28 *)
Definition TypeBignum : Z := 12. (* c-emulator/ivory.h:29 *)
Definition TypeBigRatio : Z := 13. (* c-emulator/ivory.h:30 *)
Definition TypeComplex : Z := 14. (* c-emulator/ivory.h:31 *)
Definition TypeSpareNumber : Z := 15. (* c-emulator/ivory.h:32 *)
Definition TypeInstance : Z := 16. (* c-emulator/ivory.h:34 *)
Definition TypeListInstance : Z := 17. (* c-emulator/ivory.h:35 *)
Definition TypeArrayInstance : Z := 18. (* c-emulator/ivory.h:36 *)
Definition TypeStringInstance : Z := 19. (* c-emulator/ivory.h:37 *)
Definition TypeNIL : Z := 20. (* c-emulator/ivory.h:39 *)
Definition TypeList : Z := 21. (* c-emulator/ivory.h:40 *)
Definition TypeArray : Z := 22. (* c-emulator/ivory.h:41 *)
Definition TypeString : Z := 23. (* c-emulator/ivory.h:42 *)
Definition TypeSymbol : Z := 24. (* c-emulator/ivory.h:43 *)
Definition TypeLocative : Z := 25. (* c-emulator/ivory.h:44 *)
Definition TypeLexicalClosure : Z := 26. (* c-emulator/ivory.h:45 *)
Definition TypeDynamicClosure : Z := 27. (* c-emulator/ivory.h:46 *)
Definition TypeCompiledFunction : Z := 28. (* c-emulator/ivory.h:47 *)
Definition TypeGenericFunction : Z := 29. (* c-emulator/ivory.h:48 *)
Definition TypeSparePointer1 : Z := 30. (* c-emulator/ivory.h:49 *)
Definition TypeSparePointer2 : Z := 31. (* c-emulator/ivory.h:50 *)
Definition TypePhysicalAddress : Z := 32. (* c-emulator/ivory.h:51 *)
Definition TypeSpareImmediate1 : Z := 33. (* c-emulator/ivory.h:52 *)
Definition TypeBoundLocation : Z := 34. (* c-emulator/ivory.h:53 *)
Definition TypeCharacter : Z := 35. (* c-emulator/ivory.h:54 *)
Definition TypeLogicVariable : Z := 36. (* c-emulator/ivory.h:55 *)
Definition TypeGCForward : Z := 37. (* c-emulator/ivory.h:56 *)
Definition TypeEvenPC : Z := 38. (* c-emulator/ivory.h:57 *)
Definition TypeOddPC : Z := 39. (* c-emulator/ivory.h:58 *)
Definition TypeCallCompiledEven : Z := 40. (* c-emulator/ivory.h:60 *)
Definition TypeCallCompiledOdd : Z := 41. (* c-emulator/ivory.h:61 *)
Definition TypeCallIndirect : Z := 42. (* c-emulator/ivory.h:62 *)
Definition TypeCallGeneric : Z := 43. (* c-emulator/ivory.h:63 *)
Definition TypeCallCompiledEvenPrefetch : Z := 44. (* c-emulator/ivory.h:64 *)
Definition TypeCallCompiledOddPrefetch : Z := 45. (* c-emulator/ivory.h:65 *)
Definition TypeCallIndirectPrefetch : Z := 46. (* c-emulator/ivory.h:66 *)
Definition TypeCallGenericPrefetch : Z := 47. (* c-emulator/ivory.h:67 *)
Definition TypePackedInstruction60 : Z := 48. (* c-emulator/ivory.h:69 *)
Definition TypePackedInstruction61 : Z := 49. (* c-emulator/ivory.h:69 *)
Definition TypePackedInstruction62 : Z := 50. (* c-emulator/ivory.h:69 *)
Definition TypePackedInstruction63 : Z := 51. (* c-emulator/ivory.h:70 *)
Definition TypePackedInstruction64 : Z := 52. (* c-emulator/ivory.h:70 *)
Definition TypePackedInstruction65 : Z := 53. (* c-emulator/ivory.h:70 *)
Definition TypePackedInstruction66 : Z := 54. (* c-emulator/ivory.h:71 *)
Definition TypePackedInstruction67 : Z := 55. (* c-emulator/ivory.h:71 *)
Definition TypePackedInstruction70 : Z := 56. (* c-emulator/ivory.h:71 *)
Definition TypePackedInstruction71 : Z := 57. (* c-emulator/ivory.h:72 *)
Definition TypePackedInstruction72 : Z := 58. (* c-emulator/ivory.h:72 *)
Definition TypePackedInstruction73 : Z := 59. (* c-emulator/ivory.h:72 *)
Definition TypePackedInstruction74 : Z := 60. (* c-emulator/ivory.h:73 *)
Definition TypePackedInstruction75 : Z := 61. (* c-emulator/ivory.h:73 *)
Definition TypePackedInstruction76 : Z := 62. (* c-emulator/ivory.h:73 *)
Definition TypePackedInstruction77 : Z := 63. (* c-emulator/ivory.h:74 *)

(** Cdr codes (the two bits above the type). *)
Definition CdrNext : Z := 0. (* c-emulator/ivory.h:79 *)
Definition CdrNil : Z := 1. (* c-emulator/ivory.h:80 *)
Definition CdrNormal : Z := 2. (* c-emulator/ivory.h:81 *)

(** Array element types. *)
Definition ArrayElementTypeFixnum : Z := 0. (* c-emulator/ivory.h:115 *)
Definition ArrayElementTypeCharacter : Z := 1. (* c-emulator/ivory.h:116 *)
Definition ArrayElementTypeBoolean : Z := 2. (* c-emulator/ivory.h:117 *)
Definition ArrayElementTypeObject : Z := 3. (* c-emulator/ivory.h:118 *)

(** Value dispositions of a call. *)
Definition ValueDispositionEffect : Z := 0. (* c-emulator/ivory.h:168 *)
Definition ValueDispositionValue : Z := 1. (* c-emulator/ivory.h:169 *)
Definition ValueDispositionReturn : Z := 2. (* c-emulator/ivory.h:170 *)
Definition ValueDispositionMultiple : Z := 3. (* c-emulator/ivory.h:171 *)

(** Trap modes. *)
Definition TrapModeEmulator : Z := 0. (* c-emulator/ivory.h:385 *)
Definition TrapModeExtraStack : Z := 1. (* c-emulator/ivory.h:386 *)
Definition TrapModeIO : Z := 2. (* c-emulator/ivory.h:387 *)
Definition TrapModeFEP : Z := 3. (* c-emulator/ivory.h:388 *)

(** Internal register numbers. *)
Definition InternalRegisterEA : Z := 0. (* c-emulator/ivory.h:434 *)
Definition InternalRegisterFP : Z := 1. (* c-emulator/ivory.h:435 *)
Definition InternalRegisterLP : Z := 2. (* c-emulator/ivory.h:436 *)
Definition InternalRegisterSP : Z := 3. (* c-emulator/ivory.h:437 *)
Definition InternalRegisterMacroSP : Z := 4. (* c-emulator/ivory.h:438 *)
Definition InternalRegisterStackCacheLowerBound : Z := 5. (* c-emulator/ivory.h:439 *)
Definition InternalRegisterBAR0 : Z := 6. (* c-emulator/ivory.h:440 *)
Definition InternalRegisterBAR1 : Z := 134. (* c-emulator/ivory.h:441 *)
Definition InternalRegisterBAR2 : Z := 262. (* c-emulator/ivory.h:442 *)
Definition InternalRegisterBAR3 : Z := 390. (* c-emulator/ivory.h:443 *)
Definition InternalRegisterPHTHash0 : Z := 7. (* c-emulator/ivory.h:444 *)
Definition InternalRegisterPHTHash1 : Z := 135. (* c-emulator/ivory.h:445 *)
Definition InternalRegisterPHTHash2 : Z := 263. (* c-emulator/ivory.h:446 *)
Definition InternalRegisterPHTHash3 : Z := 391. (* c-emulator/ivory.h:447 *)
Definition InternalRegisterEPC : Z := 8. (* c-emulator/ivory.h:448 *)
Definition InternalRegisterDPC : Z := 9. (* c-emulator/ivory.h:449 *)
Definition InternalRegisterContinuation : Z := 10. (* c-emulator/ivory.h:450 *)
Definition InternalRegisterAluAndRotateControl : Z := 11. (* c-emulator/ivory.h:451 *)
Definition InternalRegisterControlRegister : Z := 12. (* c-emulator/ivory.h:452 *)
Definition InternalRegisterCRArgumentSize : Z := 13. (* c-emulator/ivory.h:453 *)
Definition InternalRegisterEphemeralOldspaceRegister : Z := 14. (* c-emulator/ivory.h:454 *)
Definition InternalRegisterZoneOldspaceRegister : Z := 15. (* c-emulator/ivory.h:455 *)
Definition InternalRegisterChipRevision : Z := 16. (* c-emulator/ivory.h:456 *)
Definition InternalRegisterFPCoprocessorPresent : Z := 17. (* c-emulator/ivory.h:457 *)
Definition InternalRegisterPreemptRegister : Z := 19. (* c-emulator/ivory.h:458 *)
Definition InternalRegisterIcacheControl : Z := 20. (* c-emulator/ivory.h:459 *)
Definition InternalRegisterPrefetcherControl : Z := 21. (* c-emulator/ivory.h:460 *)
Definition InternalRegisterMapCacheControl : Z := 22. (* c-emulator/ivory.h:461 *)
Definition InternalRegisterMemoryControl : Z := 23. (* c-emulator/ivory.h:462 *)
Definition InternalRegisterECCLog : Z := 24. (* c-emulator/ivory.h:463 *)
Definition InternalRegisterECCLogAddress : Z := 25. (* c-emulator/ivory.h:464 *)
Definition InternalRegisterInvalidateMap0 : Z := 26. (* c-emulator/ivory.h:465 *)
Definition InternalRegisterInvalidateMap1 : Z := 154. (* c-emulator/ivory.h:466 *)
Definition InternalRegisterInvalidateMap2 : Z := 282. (* c-emulator/ivory.h:467 *)
Definition InternalRegisterInvalidateMap3 : Z := 410. (* c-emulator/ivory.h:468 *)
Definition InternalRegisterLoadMap0 : Z := 27. (* c-emulator/ivory.h:469 *)
Definition InternalRegisterLoadMap1 : Z := 155. (* c-emulator/ivory.h:470 *)
Definition InternalRegisterLoadMap2 : Z := 283. (* c-emulator/ivory.h:471 *)
Definition InternalRegisterLoadMap3 : Z := 411. (* c-emulator/ivory.h:472 *)
Definition InternalRegisterStackCacheOverflowLimit : Z := 28. (* c-emulator/ivory.h:473 *)
Definition InternalRegisterUcodeROMContents : Z := 29. (* c-emulator/ivory.h:474 *)
Definition InternalRegisterAddressMask : Z := 31. (* c-emulator/ivory.h:475 *)
Definition InternalRegisterEntryMaximumArguments : Z := 32. (* c-emulator/ivory.h:476 *)
Definition InternalRegisterLexicalVariable : Z := 33. (* c-emulator/ivory.h:477 *)
Definition InternalRegisterInstruction : Z := 34. (* c-emulator/ivory.h:478 *)
Definition InternalRegisterMemoryData : Z := 36. (* c-emulator/ivory.h:479 *)
Definition InternalRegisterDataPins : Z := 37. (* c-emulator/ivory.h:480 *)
Definition InternalRegisterExtensionRegister : Z := 38. (* c-emulator/ivory.h:481 *)
Definition InternalRegisterMicrosecondClock : Z := 39. (* c-emulator/ivory.h:482 *)
Definition InternalRegisterArrayHeaderLength : Z := 40. (* c-emulator/ivory.h:483 *)
Definition InternalRegisterLoadBAR0 : Z := 42. (* c-emulator/ivory.h:484 *)
Definition InternalRegisterLoadBAR1 : Z := 170. (* c-emulator/ivory.h:485 *)
Definition InternalRegisterLoadBAR2 : Z := 298. (* c-emulator/ivory.h:486 *)
Definition InternalRegisterLoadBAR3 : Z := 426. (* c-emulator/ivory.h:487 *)
Definition InternalRegisterTOS : Z := 512. (* c-emulator/ivory.h:488 *)
Definition InternalRegisterEventCount : Z := 513. (* c-emulator/ivory.h:489 *)
Definition InternalRegisterBindingStackPointer : Z := 514. (* c-emulator/ivory.h:490 *)
Definition InternalRegisterCatchBlockList : Z := 515. (* c-emulator/ivory.h:491 *)
Definition InternalRegisterControlStackLimit : Z := 516. (* c-emulator/ivory.h:492 *)
Definition InternalRegisterControlStackExtraLimit : Z := 517. (* c-emulator/ivory.h:493 *)
Definition InternalRegisterBindingStackLimit : Z := 518. (* c-emulator/ivory.h:494 *)
Definition InternalRegisterPHTBase : Z := 519. (* c-emulator/ivory.h:495 *)
Definition InternalRegisterPHTMask : Z := 520. (* c-emulator/ivory.h:496 *)
Definition InternalRegisterCountMapReloads : Z := 521. (* c-emulator/ivory.h:497 *)
Definition InternalRegisterListCacheArea : Z := 522. (* c-emulator/ivory.h:498 *)
Definition InternalRegisterListCacheAddress : Z := 523. (* c-emulator/ivory.h:499 *)
Definition InternalRegisterListCacheLength : Z := 524. (* c-emulator/ivory.h:500 *)
Definition InternalRegisterStructureCacheArea : Z := 525. (* c-emulator/ivory.h:501 *)
Definition InternalRegisterStructureCacheAddress : Z := 526. (* c-emulator/ivory.h:502 *)
Definition InternalRegisterStructureCacheLength : Z := 527. (* c-emulator/ivory.h:503 *)
Definition InternalRegisterDynamicBindingCacheBase : Z := 528. (* c-emulator/ivory.h:504 *)
Definition InternalRegisterDynamicBindingCacheMask : Z := 529. (* c-emulator/ivory.h:505 *)
Definition InternalRegisterChoicePointer : Z := 530. (* c-emulator/ivory.h:506 *)
Definition InternalRegisterStructureStackChoicePointer : Z := 531. (* c-emulator/ivory.h:507 *)
Definition InternalRegisterFEPModeTrapVectorAddress : Z := 532. (* c-emulator/ivory.h:508 *)
Definition InternalRegisterMappingTableCache : Z := 534. (* c-emulator/ivory.h:509 *)
Definition InternalRegisterMappingTableLength : Z := 535. (* c-emulator/ivory.h:510 *)
Definition InternalRegisterStackFrameMaximumSize : Z := 536. (* c-emulator/ivory.h:511 *)
Definition InternalRegisterStackCacheDumpQuantum : Z := 537. (* c-emulator/ivory.h:512 *)
Definition InternalRegisterConstantNIL : Z := 544. (* c-emulator/ivory.h:513 *)
Definition InternalRegisterConstantT : Z := 545. (* c-emulator/ivory.h:514 *)

(** Coprocessor registers. *)
Definition CoprocessorRegisterMicrosecondClock : Z := 514. (* c-emulator/ivory.h:519 *)

(** Trap vectors. *)
Definition ArithmeticInstructionExceptionVector : Z := 0. (* c-emulator/ivory.h:526 *)
Definition InstructionExceptionVector : Z := 2048. (* c-emulator/ivory.h:527 *)
Definition InterpreterFunctionVector : Z := 2304. (* c-emulator/ivory.h:528 *)
Definition GenericDispatchVector : Z := 2560. (* c-emulator/ivory.h:529 *)
Definition ErrorTrapVector : Z := 2624. (* c-emulator/ivory.h:531 *)
Definition ResetTrapVector : Z := 2625. (* c-emulator/ivory.h:532 *)
Definition PullApplyArgsTrapVector : Z := 2626. (* c-emulator/ivory.h:533 *)
Definition StackOverflowTrapVector : Z := 2627. (* c-emulator/ivory.h:534 *)
Definition TraceTrapVector : Z := 2628. (* c-emulator/ivory.h:535 *)
Definition PreemptRequestTrapVector : Z := 2629. (* c-emulator/ivory.h:536 *)
Definition TransportTrapVector : Z := 2630. (* c-emulator/ivory.h:537 *)
Definition FepModeTrapVector : Z := 2631. (* c-emulator/ivory.h:538 *)
Definition LowPrioritySequenceBreakTrapVector : Z := 2632. (* c-emulator/ivory.h:540 *)
Definition HighPrioritySequenceBreakTrapVector : Z := 2633. (* c-emulator/ivory.h:541 *)
Definition MonitorTrapVector : Z := 2634. (* c-emulator/ivory.h:542 *)
Definition GenericDispatchTrapVector : Z := 2636. (* c-emulator/ivory.h:544 *)
Definition MessageDispatchTrapVector : Z := 2638. (* c-emulator/ivory.h:546 *)
Definition PageNotResidentTrapVector : Z := 2640. (* c-emulator/ivory.h:549 *)
Definition PageFaultRequestTrapVector : Z := 2641. (* c-emulator/ivory.h:550 *)
Definition PageWriteFaultTrapVector : Z := 2642. (* c-emulator/ivory.h:551 *)
Definition UncorrectableMemoryErrorTrapVector : Z := 2643. (* c-emulator/ivory.h:552 *)
Definition MemoryBusErrorTrapVector : Z := 2644. (* c-emulator/ivory.h:553 *)
Definition DBCacheMissTrapVector : Z := 2645. (* c-emulator/ivory.h:554 *)
Definition DBUnwindFrameTrapVector : Z := 2646. (* c-emulator/ivory.h:555 *)
Definition DBUnwindCatchTrapVector : Z := 2647. (* c-emulator/ivory.h:556 *)

(** ALU boolean functions. *)
Definition BooleClear : Z := 0. (* c-emulator/ivory.h:581 *)
Definition BooleAnd : Z := 1. (* c-emulator/ivory.h:582 *)
Definition BooleAndC1 : Z := 2. (* c-emulator/ivory.h:583 *)
Definition Boole2 : Z := 3. (* c-emulator/ivory.h:584 *)
Definition BooleAndC2 : Z := 4. (* c-emulator/ivory.h:585 *)
Definition Boole1 : Z := 5. (* c-emulator/ivory.h:586 *)
Definition BooleXor : Z := 6. (* c-emulator/ivory.h:587 *)
Definition BooleIor : Z := 7. (* c-emulator/ivory.h:588 *)
Definition BooleNor : Z := 8. (* c-emulator/ivory.h:589 *)
Definition BooleEquiv : Z := 9. (* c-emulator/ivory.h:590 *)
Definition BooleC1 : Z := 10. (* c-emulator/ivory.h:591 *)
Definition BooleOrC1 : Z := 11. (* c-emulator/ivory.h:592 *)
Definition BooleC2 : Z := 12. (* c-emulator/ivory.h:593 *)
Definition BooleOrC2 : Z := 13. (* c-emulator/ivory.h:594 *)
Definition BooleNand : Z := 14. (* c-emulator/ivory.h:595 *)
Definition BooleSet : Z := 15. (* c-emulator/ivory.h:596 *)

(** ALU byte backgrounds. *)
Definition ALUByteBackgroundOp1 : Z := 0. (* c-emulator/ivory.h:601 *)
Definition ALUByteBackgroundRotateLatch : Z := 1. (* c-emulator/ivory.h:602 *)
Definition ALUByteBackgroundZero : Z := 2. (* c-emulator/ivory.h:603 *)

(** ALU byte functions. *)
Definition ALUByteFunctionDpb : Z := 0. (* c-emulator/ivory.h:608 *)
Definition ALUByteFunctionLdb : Z := 1. (* c-emulator/ivory.h:609 *)

(** ALU second operand of the adder. *)
Definition ALUAdderOp2Op2 : Z := 0. (* c-emulator/ivory.h:614 *)
Definition ALUAdderOp2Zero : Z := 1. (* c-emulator/ivory.h:615 *)
Definition ALUAdderOp2Invert : Z := 2. (* c-emulator/ivory.h:616 *)
Definition ALUAdderOp2MinusOne : Z := 3. (* c-emulator/ivory.h:617 *)

(** ALU conditions. *)
Definition ConditionSignedLessThanOrEqual : Z := 0. (* c-emulator/ivory.h:622 *)
Definition ConditionSignedLessThan : Z := 1. (* c-emulator/ivory.h:623 *)
Definition ConditionNegative : Z := 2. (* c-emulator/ivory.h:624 *)
Definition ConditionSignedOverflow : Z := 3. (* c-emulator/ivory.h:625 *)
Definition ConditionUnsignedLessThanOrEqual : Z := 4. (* c-emulator/ivory.h:626 *)
Definition ConditionUnsignedLessThan : Z := 5. (* c-emulator/ivory.h:627 *)
Definition ConditionZero : Z := 6. (* c-emulator/ivory.h:628 *)
Definition ConditionHigh25Zero : Z := 7. (* c-emulator/ivory.h:629 *)
Definition ConditionEq : Z := 8. (* c-emulator/ivory.h:630 *)
Definition ConditionOp1Ephemeralp : Z := 9. (* c-emulator/ivory.h:631 *)
Definition ConditionOp1TypeAcceptable : Z := 10. (* c-emulator/ivory.h:632 *)
Definition ConditionOp1TypeCondition : Z := 11. (* c-emulator/ivory.h:633 *)
Definition ConditionResultTypeNil : Z := 12. (* c-emulator/ivory.h:634 *)
Definition ConditionOp2Fixnum : Z := 13. (* c-emulator/ivory.h:635 *)
Definition ConditionFalse : Z := 14. (* c-emulator/ivory.h:636 *)
Definition ConditionResultCdrLow : Z := 15. (* c-emulator/ivory.h:637 *)
Definition ConditionCleanupBitsSet : Z := 16. (* c-emulator/ivory.h:638 *)
Definition ConditionAddressInStackCache : Z := 17. (* c-emulator/ivory.h:639 *)
Definition ConditionPendingSequenceBreakEnabled : Z := 18. (* c-emulator/ivory.h:640 *)
Definition ConditionExtraStackMode : Z := 19. (* c-emulator/ivory.h:641 *)
Definition ConditionFepMode : Z := 20. (* c-emulator/ivory.h:642 *)
Definition ConditionFpCoprocessorPresent : Z := 21. (* c-emulator/ivory.h:643 *)
Definition ConditionOp1Oldspacep : Z := 22. (* c-emulator/ivory.h:644 *)
Definition ConditionStackCacheOverflow : Z := 23. (* c-emulator/ivory.h:645 *)
Definition ConditionOrLogicVariable : Z := 24. (* c-emulator/ivory.h:646 *)
(** ** Tagged objects *)

(** The C union [LispObj] for LONG_BIT = 64: a 32-bit tag and a 32-bit datum.  [DATA]
    is the view [DATA.u]; [DATAs] the view [DATA.s]. *)
(* c-emulator/emulator.h:31-51 LispObj *)
Record LispObj := MkObj { TAG : Z; DATA : Z }.

#[export] Instance LispObj_eq_dec : EqDecision LispObj.
Proof. solve_decision. Defined.

Definition DATAs (o : LispObj) : Z := s32 (DATA o). (* c-emulator/emulator.h:41 s *)

(** The assignments [o.TAG = t; o.DATA = d] truncate to the width of the members. *)
Definition obj (t d : Z) : LispObj := MkObj (u32 t) (u32 d).
Definition set_TAG (t : Z) (o : LispObj) : LispObj := MkObj (u32 t) (DATA o).
Definition set_DATA (d : Z) (o : LispObj) : LispObj := MkObj (TAG o) (u32 d).

Definition wf_obj (o : LispObj) : Prop := is_u32 (TAG o) /\ is_u32 (DATA o).

Definition TagTypeMask : Z := 63. (* c-emulator/ivory.h:84 *)
Definition TagCdrMask : Z := 192. (* c-emulator/ivory.h:85 *)
Definition TagType (tag : Z) : Z := Z.land tag TagTypeMask. (* c-emulator/ivory.h:86 *)
Definition TagCdr (tag : Z) : Z := Z.shiftr tag 6. (* c-emulator/ivory.h:87 *)
Definition SetTagCdr (tag cdr : Z) : Z := Z.lor tag (Z.shiftl cdr 6). (* c-emulator/ivory.h:88 *)
Definition MergeCdr (cdr type : Z) : Z := (* c-emulator/ivory.h:89 *)
  Z.lor (Z.land cdr TagCdrMask) (Z.land type TagTypeMask).
Definition TypeEqualP (tag1 tag2 : Z) : bool := (* c-emulator/ivory.h:90 *)
  Z.land (Z.lxor tag1 tag2) TagTypeMask =? 0.
Definition TypeFixnumP (tag : Z) : bool := TypeEqualP tag TypeFixnum. (* c-emulator/ivory.h:91 *)
Definition TypeNumericP (tag : Z) : bool := Z.land tag 56 =? 8. (* c-emulator/ivory.h:92 *)
Definition TypeArrayP (tag : Z) : bool := (* c-emulator/ivory.h:93 *)
  Z.land tag 62 =? Z.land TypeArray 62.
Definition TypeSpareP (tag : Z) : bool := (* c-emulator/ivory.h:94 *)
  (Z.land tag 62 =? Z.land TypeSparePointer1 62)
  || (Z.land tag TagTypeMask =? TypeSpareImmediate1)
  || (Z.land tag TagTypeMask =? TypeSpareNumber).
Definition PackedInstructionP (tag : Z) : bool := Z.land tag 48 =? 48. (* c-emulator/ivory.h:95 *)
Definition BinaryTypeFixnumP (tag1 tag2 : Z) : bool := (* c-emulator/ivory.h:96 *)
  Z.land (Z.lor (Z.lxor tag1 TypeFixnum) (Z.lxor tag2 TypeFixnum)) TagTypeMask =? 0.
Definition BinaryTypeNumericP (tag1 tag2 : Z) : bool := (* c-emulator/ivory.h:97 *)
  (Z.land tag1 56 =? 8) && (Z.land tag2 56 =? 8).

(** [(dest).whole = (source).whole & (~ObjectCdrMask.whole)]: the two cdr-code bits
    are cleared, the rest of the 64-bit object is copied. *)
Definition StoreCdrNext (source : LispObj) : LispObj := (* c-emulator/ivory.h:99-101 *)
  MkObj (Z.ldiff (TAG source) TagCdrMask) (DATA source).

(** [(((a).whole^(b).whole)&(~ObjectCdrMask.whole))==0] *)
Definition ObjectEqP (a b : LispObj) : bool := (* c-emulator/ivory.h:102 *)
  (Z.ldiff (Z.lxor (TAG a) (TAG b)) TagCdrMask =? 0) && (DATA a =? DATA b).

Definition AddressNIL : Z := 0xf8041200. (* c-emulator/ivory.h:10 *)
Definition AddressT : Z := 0xf8041208. (* c-emulator/ivory.h:11 *)
Definition ObjectT : LispObj := MkObj TypeSymbol AddressT. (* c-emulator/memory.c:15 *)
Definition ObjectNIL : LispObj := MkObj TypeNIL AddressNIL. (* c-emulator/memory.c:16 *)

(** ** Arrays *)

Definition ArrayHeaderTag : Z := Z.lor 64 TypeHeaderI. (* c-emulator/ivory.h:111 *)
Definition ArrayLongPrefixP (a : Z) : bool := negb (Z.land a (Z.shiftl 1 23) =? 0). (* c-emulator/ivory.h:121 *)
Definition ArrayShortLength (a : Z) : Z := ldb 15 0 a. (* c-emulator/ivory.h:122 *)
Definition ArrayBytePacking (a : Z) : Z := ldb 3 27 a. (* c-emulator/ivory.h:123 *)
Definition ArrayElementType (a : Z) : Z := ldb 2 30 a. (* c-emulator/ivory.h:124 *)
Definition ArrayLeaderLength (a : Z) : Z := ldb 8 15 a. (* c-emulator/ivory.h:125 *)
Definition ArrayRegisterByteOffset (r : Z) : Z := ldb 5 22 r. (* c-emulator/ivory.h:127 *)
Definition ArrayRegisterEventCount (r : Z) : Z := ldb 22 0 r. (* c-emulator/ivory.h:128 *)
Definition SetArrayRegisterEventCount (c r : Z) : Z := dpb (ldb 22 0 c) 27 0 r. (* c-emulator/ivory.h:130 *)

Definition BytePackingSize (b : Z) : Z := Z.shiftr 32 b. (* c-emulator/ivory.h:132 *)
Definition BytePackingRotation (b i : Z) : Z := (* c-emulator/ivory.h:133 *)
  Z.shiftl (Z.land (Z.lnot (Z.shiftl (-1) b)) i) (5 - b).

(** The byte macros shift by [5 - b] and by the byte size; both shifts are defined C
    only for packings 1 to 5 (for packing 0 the macro shifts an [int] by 32). *)
Definition packing_defined (b : Z) : bool := (1 <=? b) && (b <=? 5).

Definition ArrayElementLdb (b i w : Z) : option Z := (* c-emulator/ivory.h:134 *)
  if packing_defined b then Some (ldb (BytePackingSize b) (BytePackingRotation b i) w)
  else None.
Definition ArrayElementDpb (e b i w : Z) : option Z := (* c-emulator/ivory.h:135 *)
  if packing_defined b then Some (dpb e (BytePackingSize b) (BytePackingRotation b i) w)
  else None.

(** ** The control register *)

Definition ReadControlArgumentSize (c : Z) : Z := ldb 8 0 c. (* c-emulator/ivory.h:391 *)
Definition ReadControlExtraArgument (c : Z) : Z := ldb 1 8 c. (* c-emulator/ivory.h:392 *)
Definition ReadControlCallerFrameSize (c : Z) : Z := ldb 8 9 c. (* c-emulator/ivory.h:393 *)
Definition ReadControlApply (c : Z) : Z := ldb 1 17 c. (* c-emulator/ivory.h:394 *)
Definition ReadControlValueDisposition (c : Z) : Z := ldb 2 18 c. (* c-emulator/ivory.h:395 *)
Definition ReadControlCleanupBits (c : Z) : Z := ldb 3 24 c. (* c-emulator/ivory.h:396 *)
Definition ReadControlCleanupCatch (c : Z) : Z := ldb 1 26 c. (* c-emulator/ivory.h:397 *)
Definition ReadControlCleanupBindings (c : Z) : Z := ldb 1 25 c. (* c-emulator/ivory.h:398 *)
Definition ReadControlTrapOnExit (c : Z) : Z := ldb 1 24 c. (* c-emulator/ivory.h:399 *)
Definition ReadControlTrapMode (c : Z) : Z := ldb 2 30 c. (* c-emulator/ivory.h:400 *)
Definition ReadControlCallStarted (c : Z) : Z := ldb 1 22 c. (* c-emulator/ivory.h:401 *)
Definition ReadControlCleanupInProgress (c : Z) : Z := ldb 1 23 c. (* c-emulator/ivory.h:402 *)
Definition ReadControlInstructionTrace (c : Z) : Z := ldb 1 29 c. (* c-emulator/ivory.h:403 *)
Definition ReadControlCallTrace (c : Z) : Z := ldb 1 28 c. (* c-emulator/ivory.h:404 *)
Definition ReadControlTracePending (c : Z) : Z := ldb 1 27 c. (* c-emulator/ivory.h:405 *)
Definition ControlApply : Z := 131072. (* c-emulator/ivory.h:407 *)
Definition ControlCleanupBits : Z := 117440512. (* c-emulator/ivory.h:408 *)
Definition ControlTraceBits : Z := 939524096. (* c-emulator/ivory.h:409 *)
Definition ControlCallStarted : Z := 4194304. (* c-emulator/ivory.h:410 *)
Definition ControlExtraArgument : Z := 256. (* c-emulator/ivory.h:411 *)
Definition ControlArgumentSize : Z := 255. (* c-emulator/ivory.h:412 *)
Definition ControlCallerFrameSize : Z := 130560. (* c-emulator/ivory.h:413 *)
Definition ControlValueDisposition : Z := 786432. (* c-emulator/ivory.h:414 *)
Definition WriteControlArgumentSize (c x : Z) : Z := dpb x 8 0 c. (* c-emulator/ivory.h:416 *)
Definition WriteControlExtraArgument (c x : Z) : Z := dpb x 1 8 c. (* c-emulator/ivory.h:417 *)
Definition WriteControlCallerFrameSize (c x : Z) : Z := dpb x 8 9 c. (* c-emulator/ivory.h:418 *)
Definition WriteControlApply (c x : Z) : Z := dpb x 1 17 c. (* c-emulator/ivory.h:419 *)
Definition WriteControlValueDisposition (c x : Z) : Z := dpb x 2 18 c. (* c-emulator/ivory.h:420 *)
Definition WriteControlCleanupBits (c x : Z) : Z := dpb x 3 24 c. (* c-emulator/ivory.h:421 *)
Definition WriteControlCleanupCatch (c x : Z) : Z := dpb x 1 26 c. (* c-emulator/ivory.h:422 *)
Definition WriteControlCleanupBindings (c x : Z) : Z := dpb x 1 25 c. (* c-emulator/ivory.h:423 *)
Definition WriteControlTrapOnExit (c x : Z) : Z := dpb x 1 24 c. (* c-emulator/ivory.h:424 *)
Definition WriteControlTrapMode (c x : Z) : Z := dpb x 2 30 c. (* c-emulator/ivory.h:425 *)
Definition WriteControlCallStarted (c x : Z) : Z := dpb x 1 22 c. (* c-emulator/ivory.h:426 *)
Definition WriteControlCleanupInProgress (c x : Z) : Z := dpb x 1 23 c. (* c-emulator/ivory.h:427 *)
Definition WriteControlInstructionTrace (c x : Z) : Z := dpb x 1 29 c. (* c-emulator/ivory.h:428 *)
Definition WriteControlCallTrace (c x : Z) : Z := dpb x 1 28 c. (* c-emulator/ivory.h:429 *)
Definition WriteControlTracePending (c x : Z) : Z := dpb x 1 27 c. (* c-emulator/ivory.h:430 *)

(** ** The ALU control word *)

Definition ReadALUCondition (a : Z) : Z := ldb 5 16 a. (* c-emulator/ivory.h:561 *)
Definition ReadALUOutputCondition (a : Z) : Z := ldb 1 22 a. (* c-emulator/ivory.h:563 *)
Definition ReadALUEnableConditionException (a : Z) : Z := ldb 1 23 a. (* c-emulator/ivory.h:564 *)
Definition ReadALUEnableLoadCin (a : Z) : Z := ldb 1 24 a. (* c-emulator/ivory.h:565 *)
Definition ReadALUBooleanFunction (a : Z) : Z := ldb 4 10 a. (* c-emulator/ivory.h:568 *)
Definition ReadALUByteRotate (a : Z) : Z := ldb 5 0 a. (* c-emulator/ivory.h:570 *)
Definition ReadALUByteSize (a : Z) : Z := ldb 5 5 a. (* c-emulator/ivory.h:571 *)
Definition ReadALUByteBackground (a : Z) : Z := ldb 2 10 a. (* c-emulator/ivory.h:572 *)
Definition ReadALUByteRotateLatch (a : Z) : Z := ldb 1 12 a. (* c-emulator/ivory.h:573 *)
Definition ReadALUByteFunction (a : Z) : Z := ldb 1 13 a. (* c-emulator/ivory.h:574 *)
Definition ReadALUAdderCarryIn (a : Z) : Z := ldb 1 10 a. (* c-emulator/ivory.h:576 *)
Definition ReadALUAdderOp2 (a : Z) : Z := ldb 2 11 a. (* c-emulator/ivory.h:577 *)

(** The four function classes, the entries of the table [ALUFunctionClass]. *)
Inductive ALUClass := (* c-emulator/emulator.c:748-754 ALUFunctionClass *)
| ALUFunctionBoolean_class
| ALUFunctionByte_class
| ALUFunctionAdder_class
| ALUFunctionMultiplyDivide_class.

Definition ReadALUFunctionClass (a : Z) : ALUClass := (* c-emulator/ivory.h:566 *)
  let c := ldb 2 14 a in
  if c =? 0 then ALUFunctionBoolean_class
  else if c =? 1 then ALUFunctionByte_class
  else if c =? 2 then ALUFunctionAdder_class
  else ALUFunctionMultiplyDivide_class.

(** ** Addresses and pointer types *)

Definition TrapVectorBase : Z := 0xf8040000. (* c-emulator/ivory.h:522 *)
Definition PointerDataTypes : Z := 0xFFF4FFFFF8F7. (* c-emulator/ivory.h:649 *)

(** [(!(PointerDataTypes&(1<<t)))]; the [int] shift is undefined for [t >= 32]. *)
Definition PointerTypeP (t : Z) : option bool := (* c-emulator/ivory.h:650 *)
  if t <? 32 then Some (Z.land PointerDataTypes (s32 (Z.shiftl 1 t)) =? 0) else None.

Definition ReadVMAZoneNum (a : Z) : Z := ldb 5 27 a. (* c-emulator/ivory.h:651 *)
Definition EphemeralAddressP (a : Z) : bool := ReadVMAZoneNum a =? 0. (* c-emulator/ivory.h:652 *)
Definition ReadVMAEphemeralHalf (a : Z) : Z := ldb 1 26 a. (* c-emulator/ivory.h:653 *)
Definition ReadVMAEphemeralDemilevel (a : Z) : Z := ldb 6 21 a. (* c-emulator/ivory.h:654 *)

(** ** Lemmas about tags *)

Lemma wf_obj_obj t d : wf_obj (obj t d).
Proof. split; apply u32_range. Qed.

Lemma wf_set_DATA d o : wf_obj o -> wf_obj (set_DATA d o).
Proof. intros [? ?]. split; [done | apply u32_range]. Qed.

Lemma wf_set_TAG t o : wf_obj o -> wf_obj (set_TAG t o).
Proof. intros [? ?]. split; [apply u32_range | done]. Qed.

Lemma is_u32_ldiff t m : is_u32 t -> 0 <= m -> is_u32 (Z.ldiff t m).
Proof.
  intros Ht Hm. assert (0 <= Z.ldiff t m) by (apply Z.ldiff_nonneg; left; apply Ht).
  split; [done|]. apply range_of_testbit; [lia | done |].
  intros i Hi. rewrite Z.ldiff_spec, (testbit_above t 32) by (try apply Ht; lia). done.
Qed.

Lemma wf_StoreCdrNext o : wf_obj o -> wf_obj (StoreCdrNext o).
Proof. intros [? ?]. split; [by apply is_u32_ldiff | done]. Qed.

Lemma wf_ObjectT : wf_obj ObjectT.
Proof. split; split; vm_compute; congruence. Qed.
Lemma wf_ObjectNIL : wf_obj ObjectNIL.
Proof. split; split; vm_compute; congruence. Qed.

#[export] Hint Resolve wf_obj_obj wf_set_DATA wf_set_TAG wf_StoreCdrNext wf_ObjectT
  wf_ObjectNIL : vlm_range.

Lemma TagType_range t : 0 <= TagType t < 64.
Proof.
  unfold TagType, TagTypeMask. change 63 with (Z.ones 6).
  rewrite Z.land_ones by lia. apply Z.mod_pos_bound. lia.
Qed.

Lemma TypeEqualP_spec t1 t2 : TypeEqualP t1 t2 = (TagType t1 =? TagType t2).
Proof.
  unfold TypeEqualP, TagType, TagTypeMask.
  rewrite (Z.land_comm (Z.lxor _ _)), (Z.land_comm t1), (Z.land_comm t2).
  assert (Z.land 63 (Z.lxor t1 t2) = Z.lxor (Z.land 63 t1) (Z.land 63 t2)) as ->.
  { bits_ext i Hi. rewrite Z.land_spec, !Z.lxor_spec, !Z.land_spec.
    by destruct (Z.testbit 63 i), (Z.testbit t1 i), (Z.testbit t2 i). }
  destruct (Z.eqb_spec (Z.land 63 t1) (Z.land 63 t2)) as [->|Hn].
  - by rewrite Z.lxor_nilpotent.
  - apply Z.eqb_neq. intros E. apply Z.lxor_eq in E. congruence.
Qed.

Lemma TypeFixnumP_spec t : TypeFixnumP t = (TagType t =? TypeFixnum).
Proof. unfold TypeFixnumP. by rewrite TypeEqualP_spec. Qed.

Lemma BinaryTypeFixnumP_spec t1 t2 :
  BinaryTypeFixnumP t1 t2 = TypeFixnumP t1 && TypeFixnumP t2.
Proof.
  unfold BinaryTypeFixnumP, TypeFixnumP, TypeEqualP.
  rewrite Z.land_lor_distr_l.
  destruct (Z.eqb_spec (Z.land (Z.lxor t1 TypeFixnum) TagTypeMask) 0) as [->|H1]; simpl.
  - done.
  - apply Z.eqb_neq. rewrite Z.lor_eq_0_iff. tauto.
Qed.

Lemma TagType_numeric t : TypeFixnumP t = true -> TypeNumericP t = true.
Proof.
  rewrite TypeFixnumP_spec. unfold TypeNumericP, TagType, TagTypeMask, TypeFixnum.
  rewrite !Z.eqb_eq. intros H.
  replace (Z.land t 56) with (Z.land (Z.land t 63) 56).
  - by rewrite H.
  - rewrite <- Z.land_assoc. done.
Qed.
