(* ===== verification/State.v ===== *)
(** The state of the emulator (c-emulator/emulator.h): cache lines, the processor
    state, the locals of the sequencer, the virtual-memory registers and the globals,
    each a record with one setter per field. *)

From S2P Require Export Ivory DispatchCodes.

(** A pointer to a cache line: a subscript of [InstructionCache], or the static line
    [InstructionCacheLookupCPRepresentation] that forces a lookup, or the value of an
    uninitialised pointer. *)
(* c-emulator/emulator.h:63 next_cp *)
Inductive CachePointer :=
| CPLine (i : Z)
| CPLookup
| CPNone.

(** A line of the decoded-instruction cache. *)
(* c-emulator/emulator.h:56-64 InstructionCacheLine *)
Record InstructionCacheLine := MkInstructionCacheLine {
  cl_pc : LispObj;
  cl_next_pc : LispObj;
  cl_code : IvoryDispatch;
  cl_operand : Z;
  cl_instruction : Z;
  cl_next_cp : CachePointer
}.

Definition set_cl_pc (v : LispObj) (r : InstructionCacheLine) : InstructionCacheLine :=
  MkInstructionCacheLine v (cl_next_pc r) (cl_code r) (cl_operand r) (cl_instruction r) (cl_next_cp r).
Definition set_cl_next_pc (v : LispObj) (r : InstructionCacheLine) : InstructionCacheLine :=
  MkInstructionCacheLine (cl_pc r) v (cl_code r) (cl_operand r) (cl_instruction r) (cl_next_cp r).
Definition set_cl_code (v : IvoryDispatch) (r : InstructionCacheLine) : InstructionCacheLine :=
  MkInstructionCacheLine (cl_pc r) (cl_next_pc r) v (cl_operand r) (cl_instruction r) (cl_next_cp r).
Definition set_cl_operand (v : Z) (r : InstructionCacheLine) : InstructionCacheLine :=
  MkInstructionCacheLine (cl_pc r) (cl_next_pc r) (cl_code r) v (cl_instruction r) (cl_next_cp r).
Definition set_cl_instruction (v : Z) (r : InstructionCacheLine) : InstructionCacheLine :=
  MkInstructionCacheLine (cl_pc r) (cl_next_pc r) (cl_code r) (cl_operand r) v (cl_next_cp r).
Definition set_cl_next_cp (v : CachePointer) (r : InstructionCacheLine) : InstructionCacheLine :=
  MkInstructionCacheLine (cl_pc r) (cl_next_pc r) (cl_code r) (cl_operand r) (cl_instruction r) v.

(** The processor state.  The stack pointers [sp], [restartsp], [fp], [lp] and
    [StackCacheLimit] are subscripts of [StackCache]. *)
(* c-emulator/emulator.h:86-135 ProcessorState *)
Record ProcessorState := MkProcessorState {
  ps_sp : Z;
  ps_restartsp : Z;
  ps_fp : Z;
  ps_lp : Z;
  ps_pc : LispObj;
  continuation : LispObj;
  InstructionCache : gmap Z InstructionCacheLine;
  StackCache : list LispObj;
  StackCacheLimit : Z;
  bar : list LispObj;
  ListCacheArea : LispObj;
  ListCacheAddress : LispObj;
  StructureCacheArea : LispObj;
  StructureCacheAddress : LispObj;
  CatchBlockPointer : LispObj;
  control : Z;
  StackCacheBase : Z;
  ArrayEventCount : Z;
  ListCacheLength : Z;
  StructureCacheLength : Z;
  BindingStackPointer : Z;
  BindingStackLimit : Z;
  DeepBoundP : bool;
  PreemptRegister : Z;
  AluAndRotateControl : Z;
  AluOp : option ALUClass;
  ByteSize : Z;
  ByteRotate : Z;
  RotateLatch : Z;
  ALUOverflow : bool;
  ALUBorrow : bool;
  ALULessThan : bool;
  EphemeralOldspaceRegister : Z;
  ZoneOldspaceRegister : Z;
  ControlStackLimit : Z;
  ControlStackExtraLimit : Z;
  DynamicBindingCacheBase : Z;
  DynamicBindingCacheMask : Z;
  FEPModeTrapVectorAddress : Z;
  MappingTableCache : Z;
  MappingTableLength : Z;
  running : bool;
  instruction_count : Z
}.

Definition set_ps_sp (v : Z) (r : ProcessorState) : ProcessorState :=
  MkProcessorState v (ps_restartsp r) (ps_fp r) (ps_lp r) (ps_pc r) (continuation r) (InstructionCache r) (StackCache r) (StackCacheLimit r) (bar r) (ListCacheArea r) (ListCacheAddress r) (StructureCacheArea r) (StructureCacheAddress r) (CatchBlockPointer r) (control r) (StackCacheBase r) (ArrayEventCount r) (ListCacheLength r) (StructureCacheLength r) (BindingStackPointer r) (BindingStackLimit r) (DeepBoundP r) (PreemptRegister r) (AluAndRotateControl r) (AluOp r) (ByteSize r) (ByteRotate r) (RotateLatch r) (ALUOverflow r) (ALUBorrow r) (ALULessThan r) (EphemeralOldspaceRegister r) (ZoneOldspaceRegister r) (ControlStackLimit r) (ControlStackExtraLimit r) (DynamicBindingCacheBase r) (DynamicBindingCacheMask r) (FEPModeTrapVectorAddress r) (MappingTableCache r) (MappingTableLength r) (running r) (instruction_count r).
Definition set_ps_restartsp (v : Z) (r : ProcessorState) : ProcessorState :=
  MkProcessorState (ps_sp r) v (ps_fp r) (ps_lp r) (ps_pc r) (continuation r) (InstructionCache r) (StackCache r) (StackCacheLimit r) (bar r) (ListCacheArea r) (ListCacheAddress r) (StructureCacheArea r) (StructureCacheAddress r) (CatchBlockPointer r) (control r) (StackCacheBase r) (ArrayEventCount r) (ListCacheLength r) (StructureCacheLength r) (BindingStackPointer r) (BindingStackLimit r) (DeepBoundP r) (PreemptRegister r) (AluAndRotateControl r) (AluOp r) (ByteSize r) (ByteRotate r) (RotateLatch r) (ALUOverflow r) (ALUBorrow r) (ALULessThan r) (EphemeralOldspaceRegister r) (ZoneOldspaceRegister r) (ControlStackLimit r) (ControlStackExtraLimit r) (DynamicBindingCacheBase r) (DynamicBindingCacheMask r) (FEPModeTrapVectorAddress r) (MappingTableCache r) (MappingTableLength r) (running r) (instruction_count r).
Definition set_ps_fp (v : Z) (r : ProcessorState) : ProcessorState :=
  MkProcessorState (ps_sp r) (ps_restartsp r) v (ps_lp r) (ps_pc r) (continuation r) (InstructionCache r) (StackCache r) (StackCacheLimit r) (bar r) (ListCacheArea r) (ListCacheAddress r) (StructureCacheArea r) (StructureCacheAddress r) (CatchBlockPointer r) (control r) (StackCacheBase r) (ArrayEventCount r) (ListCacheLength r) (StructureCacheLength r) (BindingStackPointer r) (BindingStackLimit r) (DeepBoundP r) (PreemptRegister r) (AluAndRotateControl r) (AluOp r) (ByteSize r) (ByteRotate r) (RotateLatch r) (ALUOverflow r) (ALUBorrow r) (ALULessThan r) (EphemeralOldspaceRegister r) (ZoneOldspaceRegister r) (ControlStackLimit r) (ControlStackExtraLimit r) (DynamicBindingCacheBase r) (DynamicBindingCacheMask r) (FEPModeTrapVectorAddress r) (MappingTableCache r) (MappingTableLength r) (running r) (instruction_count r).
Definition set_ps_lp (v : Z) (r : ProcessorState) : ProcessorState :=
  MkProcessorState (ps_sp r) (ps_restartsp r) (ps_fp r) v (ps_pc r) (continuation r) (InstructionCache r) (StackCache r) (StackCacheLimit r) (bar r) (ListCacheArea r) (ListCacheAddress r) (StructureCacheArea r) (StructureCacheAddress r) (CatchBlockPointer r) (control r) (StackCacheBase r) (ArrayEventCount r) (ListCacheLength r) (StructureCacheLength r) (BindingStackPointer r) (BindingStackLimit r) (DeepBoundP r) (PreemptRegister r) (AluAndRotateControl r) (AluOp r) (ByteSize r) (ByteRotate r) (RotateLatch r) (ALUOverflow r) (ALUBorrow r) (ALULessThan r) (EphemeralOldspaceRegister r) (ZoneOldspaceRegister r) (ControlStackLimit r) (ControlStackExtraLimit r) (DynamicBindingCacheBase r) (DynamicBindingCacheMask r) (FEPModeTrapVectorAddress r) (MappingTableCache r) (MappingTableLength r) (running r) (instruction_count r).
Definition set_ps_pc (v : LispObj) (r : ProcessorState) : ProcessorState :=
  MkProcessorState (ps_sp r) (ps_restartsp r) (ps_fp r) (ps_lp r) v (continuation r) (InstructionCache r) (StackCache r) (StackCacheLimit r) (bar r) (ListCacheArea r) (ListCacheAddress r) (StructureCacheArea r) (StructureCacheAddress r) (CatchBlockPointer r) (control r) (StackCacheBase r) (ArrayEventCount r) (ListCacheLength r) (StructureCacheLength r) (BindingStackPointer r) (BindingStackLimit r) (DeepBoundP r) (PreemptRegister r) (AluAndRotateControl r) (AluOp r) (ByteSize r) (ByteRotate r) (RotateLatch r) (ALUOverflow r) (ALUBorrow r) (ALULessThan r) (EphemeralOldspaceRegister r) (ZoneOldspaceRegister r) (ControlStackLimit r) (ControlStackExtraLimit r) (DynamicBindingCacheBase r) (DynamicBindingCacheMask r) (FEPModeTrapVectorAddress r) (MappingTableCache r) (MappingTableLength r) (running r) (instruction_count r).
Definition set_continuation (v : LispObj) (r : ProcessorState) : ProcessorState :=
  MkProcessorState (ps_sp r) (ps_restartsp r) (ps_fp r) (ps_lp r) (ps_pc r) v (InstructionCache r) (StackCache r) (StackCacheLimit r) (bar r) (ListCacheArea r) (ListCacheAddress r) (StructureCacheArea r) (StructureCacheAddress r) (CatchBlockPointer r) (control r) (StackCacheBase r) (ArrayEventCount r) (ListCacheLength r) (StructureCacheLength r) (BindingStackPointer r) (BindingStackLimit r) (DeepBoundP r) (PreemptRegister r) (AluAndRotateControl r) (AluOp r) (ByteSize r) (ByteRotate r) (RotateLatch r) (ALUOverflow r) (ALUBorrow r) (ALULessThan r) (EphemeralOldspaceRegister r) (ZoneOldspaceRegister r) (ControlStackLimit r) (ControlStackExtraLimit r) (DynamicBindingCacheBase r) (DynamicBindingCacheMask r) (FEPModeTrapVectorAddress r) (MappingTableCache r) (MappingTableLength r) (running r) (instruction_count r).
Definition set_InstructionCache (v : gmap Z InstructionCacheLine) (r : ProcessorState) : ProcessorState :=
  MkProcessorState (ps_sp r) (ps_restartsp r) (ps_fp r) (ps_lp r) (ps_pc r) (continuation r) v (StackCache r) (StackCacheLimit r) (bar r) (ListCacheArea r) (ListCacheAddress r) (StructureCacheArea r) (StructureCacheAddress r) (CatchBlockPointer r) (control r) (StackCacheBase r) (ArrayEventCount r) (ListCacheLength r) (StructureCacheLength r) (BindingStackPointer r) (BindingStackLimit r) (DeepBoundP r) (PreemptRegister r) (AluAndRotateControl r) (AluOp r) (ByteSize r) (ByteRotate r) (RotateLatch r) (ALUOverflow r) (ALUBorrow r) (ALULessThan r) (EphemeralOldspaceRegister r) (ZoneOldspaceRegister r) (ControlStackLimit r) (ControlStackExtraLimit r) (DynamicBindingCacheBase r) (DynamicBindingCacheMask r) (FEPModeTrapVectorAddress r) (MappingTableCache r) (MappingTableLength r) (running r) (instruction_count r).
Definition set_StackCache (v : list LispObj) (r : ProcessorState) : ProcessorState :=
  MkProcessorState (ps_sp r) (ps_restartsp r) (ps_fp r) (ps_lp r) (ps_pc r) (continuation r) (InstructionCache r) v (StackCacheLimit r) (bar r) (ListCacheArea r) (ListCacheAddress r) (StructureCacheArea r) (StructureCacheAddress r) (CatchBlockPointer r) (control r) (StackCacheBase r) (ArrayEventCount r) (ListCacheLength r) (StructureCacheLength r) (BindingStackPointer r) (BindingStackLimit r) (DeepBoundP r) (PreemptRegister r) (AluAndRotateControl r) (AluOp r) (ByteSize r) (ByteRotate r) (RotateLatch r) (ALUOverflow r) (ALUBorrow r) (ALULessThan r) (EphemeralOldspaceRegister r) (ZoneOldspaceRegister r) (ControlStackLimit r) (ControlStackExtraLimit r) (DynamicBindingCacheBase r) (DynamicBindingCacheMask r) (FEPModeTrapVectorAddress r) (MappingTableCache r) (MappingTableLength r) (running r) (instruction_count r).
Definition set_StackCacheLimit (v : Z) (r : ProcessorState) : ProcessorState :=
  MkProcessorState (ps_sp r) (ps_restartsp r) (ps_fp r) (ps_lp r) (ps_pc r) (continuation r) (InstructionCache r) (StackCache r) v (bar r) (ListCacheArea r) (ListCacheAddress r) (StructureCacheArea r) (StructureCacheAddress r) (CatchBlockPointer r) (control r) (StackCacheBase r) (ArrayEventCount r) (ListCacheLength r) (StructureCacheLength r) (BindingStackPointer r) (BindingStackLimit r) (DeepBoundP r) (PreemptRegister r) (AluAndRotateControl r) (AluOp r) (ByteSize r) (ByteRotate r) (RotateLatch r) (ALUOverflow r) (ALUBorrow r) (ALULessThan r) (EphemeralOldspaceRegister r) (ZoneOldspaceRegister r) (ControlStackLimit r) (ControlStackExtraLimit r) (DynamicBindingCacheBase r) (DynamicBindingCacheMask r) (FEPModeTrapVectorAddress r) (MappingTableCache r) (MappingTableLength r) (running r) (instruction_count r).
Definition set_bar (v : list LispObj) (r : ProcessorState) : ProcessorState :=
  MkProcessorState (ps_sp r) (ps_restartsp r) (ps_fp r) (ps_lp r) (ps_pc r) (continuation r) (InstructionCache r) (StackCache r) (StackCacheLimit r) v (ListCacheArea r) (ListCacheAddress r) (StructureCacheArea r) (StructureCacheAddress r) (CatchBlockPointer r) (control r) (StackCacheBase r) (ArrayEventCount r) (ListCacheLength r) (StructureCacheLength r) (BindingStackPointer r) (BindingStackLimit r) (DeepBoundP r) (PreemptRegister r) (AluAndRotateControl r) (AluOp r) (ByteSize r) (ByteRotate r) (RotateLatch r) (ALUOverflow r) (ALUBorrow r) (ALULessThan r) (EphemeralOldspaceRegister r) (ZoneOldspaceRegister r) (ControlStackLimit r) (ControlStackExtraLimit r) (DynamicBindingCacheBase r) (DynamicBindingCacheMask r) (FEPModeTrapVectorAddress r) (MappingTableCache r) (MappingTableLength r) (running r) (instruction_count r).
Definition set_ListCacheArea (v : LispObj) (r : ProcessorState) : ProcessorState :=
  MkProcessorState (ps_sp r) (ps_restartsp r) (ps_fp r) (ps_lp r) (ps_pc r) (continuation r) (InstructionCache r) (StackCache r) (StackCacheLimit r) (bar r) v (ListCacheAddress r) (StructureCacheArea r) (StructureCacheAddress r) (CatchBlockPointer r) (control r) (StackCacheBase r) (ArrayEventCount r) (ListCacheLength r) (StructureCacheLength r) (BindingStackPointer r) (BindingStackLimit r) (DeepBoundP r) (PreemptRegister r) (AluAndRotateControl r) (AluOp r) (ByteSize r) (ByteRotate r) (RotateLatch r) (ALUOverflow r) (ALUBorrow r) (ALULessThan r) (EphemeralOldspaceRegister r) (ZoneOldspaceRegister r) (ControlStackLimit r) (ControlStackExtraLimit r) (DynamicBindingCacheBase r) (DynamicBindingCacheMask r) (FEPModeTrapVectorAddress r) (MappingTableCache r) (MappingTableLength r) (running r) (instruction_count r).
Definition set_ListCacheAddress (v : LispObj) (r : ProcessorState) : ProcessorState :=
  MkProcessorState (ps_sp r) (ps_restartsp r) (ps_fp r) (ps_lp r) (ps_pc r) (continuation r) (InstructionCache r) (StackCache r) (StackCacheLimit r) (bar r) (ListCacheArea r) v (StructureCacheArea r) (StructureCacheAddress r) (CatchBlockPointer r) (control r) (StackCacheBase r) (ArrayEventCount r) (ListCacheLength r) (StructureCacheLength r) (BindingStackPointer r) (BindingStackLimit r) (DeepBoundP r) (PreemptRegister r) (AluAndRotateControl r) (AluOp r) (ByteSize r) (ByteRotate r) (RotateLatch r) (ALUOverflow r) (ALUBorrow r) (ALULessThan r) (EphemeralOldspaceRegister r) (ZoneOldspaceRegister r) (ControlStackLimit r) (ControlStackExtraLimit r) (DynamicBindingCacheBase r) (DynamicBindingCacheMask r) (FEPModeTrapVectorAddress r) (MappingTableCache r) (MappingTableLength r) (running r) (instruction_count r).
Definition set_StructureCacheArea (v : LispObj) (r : ProcessorState) : ProcessorState :=
  MkProcessorState (ps_sp r) (ps_restartsp r) (ps_fp r) (ps_lp r) (ps_pc r) (continuation r) (InstructionCache r) (StackCache r) (StackCacheLimit r) (bar r) (ListCacheArea r) (ListCacheAddress r) v (StructureCacheAddress r) (CatchBlockPointer r) (control r) (StackCacheBase r) (ArrayEventCount r) (ListCacheLength r) (StructureCacheLength r) (BindingStackPointer r) (BindingStackLimit r) (DeepBoundP r) (PreemptRegister r) (AluAndRotateControl r) (AluOp r) (ByteSize r) (ByteRotate r) (RotateLatch r) (ALUOverflow r) (ALUBorrow r) (ALULessThan r) (EphemeralOldspaceRegister r) (ZoneOldspaceRegister r) (ControlStackLimit r) (ControlStackExtraLimit r) (DynamicBindingCacheBase r) (DynamicBindingCacheMask r) (FEPModeTrapVectorAddress r) (MappingTableCache r) (MappingTableLength r) (running r) (instruction_count r).
Definition set_StructureCacheAddress (v : LispObj) (r : ProcessorState) : ProcessorState :=
  MkProcessorState (ps_sp r) (ps_restartsp r) (ps_fp r) (ps_lp r) (ps_pc r) (continuation r) (InstructionCache r) (StackCache r) (StackCacheLimit r) (bar r) (ListCacheArea r) (ListCacheAddress r) (StructureCacheArea r) v (CatchBlockPointer r) (control r) (StackCacheBase r) (ArrayEventCount r) (ListCacheLength r) (StructureCacheLength r) (BindingStackPointer r) (BindingStackLimit r) (DeepBoundP r) (PreemptRegister r) (AluAndRotateControl r) (AluOp r) (ByteSize r) (ByteRotate r) (RotateLatch r) (ALUOverflow r) (ALUBorrow r) (ALULessThan r) (EphemeralOldspaceRegister r) (ZoneOldspaceRegister r) (ControlStackLimit r) (ControlStackExtraLimit r) (DynamicBindingCacheBase r) (DynamicBindingCacheMask r) (FEPModeTrapVectorAddress r) (MappingTableCache r) (MappingTableLength r) (running r) (instruction_count r).
Definition set_CatchBlockPointer (v : LispObj) (r : ProcessorState) : ProcessorState :=
  MkProcessorState (ps_sp r) (ps_restartsp r) (ps_fp r) (ps_lp r) (ps_pc r) (continuation r) (InstructionCache r) (StackCache r) (StackCacheLimit r) (bar r) (ListCacheArea r) (ListCacheAddress r) (StructureCacheArea r) (StructureCacheAddress r) v (control r) (StackCacheBase r) (ArrayEventCount r) (ListCacheLength r) (StructureCacheLength r) (BindingStackPointer r) (BindingStackLimit r) (DeepBoundP r) (PreemptRegister r) (AluAndRotateControl r) (AluOp r) (ByteSize r) (ByteRotate r) (RotateLatch r) (ALUOverflow r) (ALUBorrow r) (ALULessThan r) (EphemeralOldspaceRegister r) (ZoneOldspaceRegister r) (ControlStackLimit r) (ControlStackExtraLimit r) (DynamicBindingCacheBase r) (DynamicBindingCacheMask r) (FEPModeTrapVectorAddress r) (MappingTableCache r) (MappingTableLength r) (running r) (instruction_count r).
Definition set_control (v : Z) (r : ProcessorState) : ProcessorState :=
  MkProcessorState (ps_sp r) (ps_restartsp r) (ps_fp r) (ps_lp r) (ps_pc r) (continuation r) (InstructionCache r) (StackCache r) (StackCacheLimit r) (bar r) (ListCacheArea r) (ListCacheAddress r) (StructureCacheArea r) (StructureCacheAddress r) (CatchBlockPointer r) v (StackCacheBase r) (ArrayEventCount r) (ListCacheLength r) (StructureCacheLength r) (BindingStackPointer r) (BindingStackLimit r) (DeepBoundP r) (PreemptRegister r) (AluAndRotateControl r) (AluOp r) (ByteSize r) (ByteRotate r) (RotateLatch r) (ALUOverflow r) (ALUBorrow r) (ALULessThan r) (EphemeralOldspaceRegister r) (ZoneOldspaceRegister r) (ControlStackLimit r) (ControlStackExtraLimit r) (DynamicBindingCacheBase r) (DynamicBindingCacheMask r) (FEPModeTrapVectorAddress r) (MappingTableCache r) (MappingTableLength r) (running r) (instruction_count r).
Definition set_StackCacheBase (v : Z) (r : ProcessorState) : ProcessorState :=
  MkProcessorState (ps_sp r) (ps_restartsp r) (ps_fp r) (ps_lp r) (ps_pc r) (continuation r) (InstructionCache r) (StackCache r) (StackCacheLimit r) (bar r) (ListCacheArea r) (ListCacheAddress r) (StructureCacheArea r) (StructureCacheAddress r) (CatchBlockPointer r) (control r) v (ArrayEventCount r) (ListCacheLength r) (StructureCacheLength r) (BindingStackPointer r) (BindingStackLimit r) (DeepBoundP r) (PreemptRegister r) (AluAndRotateControl r) (AluOp r) (ByteSize r) (ByteRotate r) (RotateLatch r) (ALUOverflow r) (ALUBorrow r) (ALULessThan r) (EphemeralOldspaceRegister r) (ZoneOldspaceRegister r) (ControlStackLimit r) (ControlStackExtraLimit r) (DynamicBindingCacheBase r) (DynamicBindingCacheMask r) (FEPModeTrapVectorAddress r) (MappingTableCache r) (MappingTableLength r) (running r) (instruction_count r).
Definition set_ArrayEventCount (v : Z) (r : ProcessorState) : ProcessorState :=
  MkProcessorState (ps_sp r) (ps_restartsp r) (ps_fp r) (ps_lp r) (ps_pc r) (continuation r) (InstructionCache r) (StackCache r) (StackCacheLimit r) (bar r) (ListCacheArea r) (ListCacheAddress r) (StructureCacheArea r) (StructureCacheAddress r) (CatchBlockPointer r) (control r) (StackCacheBase r) v (ListCacheLength r) (StructureCacheLength r) (BindingStackPointer r) (BindingStackLimit r) (DeepBoundP r) (PreemptRegister r) (AluAndRotateControl r) (AluOp r) (ByteSize r) (ByteRotate r) (RotateLatch r) (ALUOverflow r) (ALUBorrow r) (ALULessThan r) (EphemeralOldspaceRegister r) (ZoneOldspaceRegister r) (ControlStackLimit r) (ControlStackExtraLimit r) (DynamicBindingCacheBase r) (DynamicBindingCacheMask r) (FEPModeTrapVectorAddress r) (MappingTableCache r) (MappingTableLength r) (running r) (instruction_count r).
Definition set_ListCacheLength (v : Z) (r : ProcessorState) : ProcessorState :=
  MkProcessorState (ps_sp r) (ps_restartsp r) (ps_fp r) (ps_lp r) (ps_pc r) (continuation r) (InstructionCache r) (StackCache r) (StackCacheLimit r) (bar r) (ListCacheArea r) (ListCacheAddress r) (StructureCacheArea r) (StructureCacheAddress r) (CatchBlockPointer r) (control r) (StackCacheBase r) (ArrayEventCount r) v (StructureCacheLength r) (BindingStackPointer r) (BindingStackLimit r) (DeepBoundP r) (PreemptRegister r) (AluAndRotateControl r) (AluOp r) (ByteSize r) (ByteRotate r) (RotateLatch r) (ALUOverflow r) (ALUBorrow r) (ALULessThan r) (EphemeralOldspaceRegister r) (ZoneOldspaceRegister r) (ControlStackLimit r) (ControlStackExtraLimit r) (DynamicBindingCacheBase r) (DynamicBindingCacheMask r) (FEPModeTrapVectorAddress r) (MappingTableCache r) (MappingTableLength r) (running r) (instruction_count r).
Definition set_StructureCacheLength (v : Z) (r : ProcessorState) : ProcessorState :=
  MkProcessorState (ps_sp r) (ps_restartsp r) (ps_fp r) (ps_lp r) (ps_pc r) (continuation r) (InstructionCache r) (StackCache r) (StackCacheLimit r) (bar r) (ListCacheArea r) (ListCacheAddress r) (StructureCacheArea r) (StructureCacheAddress r) (CatchBlockPointer r) (control r) (StackCacheBase r) (ArrayEventCount r) (ListCacheLength r) v (BindingStackPointer r) (BindingStackLimit r) (DeepBoundP r) (PreemptRegister r) (AluAndRotateControl r) (AluOp r) (ByteSize r) (ByteRotate r) (RotateLatch r) (ALUOverflow r) (ALUBorrow r) (ALULessThan r) (EphemeralOldspaceRegister r) (ZoneOldspaceRegister r) (ControlStackLimit r) (ControlStackExtraLimit r) (DynamicBindingCacheBase r) (DynamicBindingCacheMask r) (FEPModeTrapVectorAddress r) (MappingTableCache r) (MappingTableLength r) (running r) (instruction_count r).
Definition set_BindingStackPointer (v : Z) (r : ProcessorState) : ProcessorState :=
  MkProcessorState (ps_sp r) (ps_restartsp r) (ps_fp r) (ps_lp r) (ps_pc r) (continuation r) (InstructionCache r) (StackCache r) (StackCacheLimit r) (bar r) (ListCacheArea r) (ListCacheAddress r) (StructureCacheArea r) (StructureCacheAddress r) (CatchBlockPointer r) (control r) (StackCacheBase r) (ArrayEventCount r) (ListCacheLength r) (StructureCacheLength r) v (BindingStackLimit r) (DeepBoundP r) (PreemptRegister r) (AluAndRotateControl r) (AluOp r) (ByteSize r) (ByteRotate r) (RotateLatch r) (ALUOverflow r) (ALUBorrow r) (ALULessThan r) (EphemeralOldspaceRegister r) (ZoneOldspaceRegister r) (ControlStackLimit r) (ControlStackExtraLimit r) (DynamicBindingCacheBase r) (DynamicBindingCacheMask r) (FEPModeTrapVectorAddress r) (MappingTableCache r) (MappingTableLength r) (running r) (instruction_count r).
Definition set_BindingStackLimit (v : Z) (r : ProcessorState) : ProcessorState :=
  MkProcessorState (ps_sp r) (ps_restartsp r) (ps_fp r) (ps_lp r) (ps_pc r) (continuation r) (InstructionCache r) (StackCache r) (StackCacheLimit r) (bar r) (ListCacheArea r) (ListCacheAddress r) (StructureCacheArea r) (StructureCacheAddress r) (CatchBlockPointer r) (control r) (StackCacheBase r) (ArrayEventCount r) (ListCacheLength r) (StructureCacheLength r) (BindingStackPointer r) v (DeepBoundP r) (PreemptRegister r) (AluAndRotateControl r) (AluOp r) (ByteSize r) (ByteRotate r) (RotateLatch r) (ALUOverflow r) (ALUBorrow r) (ALULessThan r) (EphemeralOldspaceRegister r) (ZoneOldspaceRegister r) (ControlStackLimit r) (ControlStackExtraLimit r) (DynamicBindingCacheBase r) (DynamicBindingCacheMask r) (FEPModeTrapVectorAddress r) (MappingTableCache r) (MappingTableLength r) (running r) (instruction_count r).
Definition set_DeepBoundP (v : bool) (r : ProcessorState) : ProcessorState :=
  MkProcessorState (ps_sp r) (ps_restartsp r) (ps_fp r) (ps_lp r) (ps_pc r) (continuation r) (InstructionCache r) (StackCache r) (StackCacheLimit r) (bar r) (ListCacheArea r) (ListCacheAddress r) (StructureCacheArea r) (StructureCacheAddress r) (CatchBlockPointer r) (control r) (StackCacheBase r) (ArrayEventCount r) (ListCacheLength r) (StructureCacheLength r) (BindingStackPointer r) (BindingStackLimit r) v (PreemptRegister r) (AluAndRotateControl r) (AluOp r) (ByteSize r) (ByteRotate r) (RotateLatch r) (ALUOverflow r) (ALUBorrow r) (ALULessThan r) (EphemeralOldspaceRegister r) (ZoneOldspaceRegister r) (ControlStackLimit r) (ControlStackExtraLimit r) (DynamicBindingCacheBase r) (DynamicBindingCacheMask r) (FEPModeTrapVectorAddress r) (MappingTableCache r) (MappingTableLength r) (running r) (instruction_count r).
Definition set_PreemptRegister (v : Z) (r : ProcessorState) : ProcessorState :=
  MkProcessorState (ps_sp r) (ps_restartsp r) (ps_fp r) (ps_lp r) (ps_pc r) (continuation r) (InstructionCache r) (StackCache r) (StackCacheLimit r) (bar r) (ListCacheArea r) (ListCacheAddress r) (StructureCacheArea r) (StructureCacheAddress r) (CatchBlockPointer r) (control r) (StackCacheBase r) (ArrayEventCount r) (ListCacheLength r) (StructureCacheLength r) (BindingStackPointer r) (BindingStackLimit r) (DeepBoundP r) v (AluAndRotateControl r) (AluOp r) (ByteSize r) (ByteRotate r) (RotateLatch r) (ALUOverflow r) (ALUBorrow r) (ALULessThan r) (EphemeralOldspaceRegister r) (ZoneOldspaceRegister r) (ControlStackLimit r) (ControlStackExtraLimit r) (DynamicBindingCacheBase r) (DynamicBindingCacheMask r) (FEPModeTrapVectorAddress r) (MappingTableCache r) (MappingTableLength r) (running r) (instruction_count r).
Definition set_AluAndRotateControl (v : Z) (r : ProcessorState) : ProcessorState :=
  MkProcessorState (ps_sp r) (ps_restartsp r) (ps_fp r) (ps_lp r) (ps_pc r) (continuation r) (InstructionCache r) (StackCache r) (StackCacheLimit r) (bar r) (ListCacheArea r) (ListCacheAddress r) (StructureCacheArea r) (StructureCacheAddress r) (CatchBlockPointer r) (control r) (StackCacheBase r) (ArrayEventCount r) (ListCacheLength r) (StructureCacheLength r) (BindingStackPointer r) (BindingStackLimit r) (DeepBoundP r) (PreemptRegister r) v (AluOp r) (ByteSize r) (ByteRotate r) (RotateLatch r) (ALUOverflow r) (ALUBorrow r) (ALULessThan r) (EphemeralOldspaceRegister r) (ZoneOldspaceRegister r) (ControlStackLimit r) (ControlStackExtraLimit r) (DynamicBindingCacheBase r) (DynamicBindingCacheMask r) (FEPModeTrapVectorAddress r) (MappingTableCache r) (MappingTableLength r) (running r) (instruction_count r).
Definition set_AluOp (v : option ALUClass) (r : ProcessorState) : ProcessorState :=
  MkProcessorState (ps_sp r) (ps_restartsp r) (ps_fp r) (ps_lp r) (ps_pc r) (continuation r) (InstructionCache r) (StackCache r) (StackCacheLimit r) (bar r) (ListCacheArea r) (ListCacheAddress r) (StructureCacheArea r) (StructureCacheAddress r) (CatchBlockPointer r) (control r) (StackCacheBase r) (ArrayEventCount r) (ListCacheLength r) (StructureCacheLength r) (BindingStackPointer r) (BindingStackLimit r) (DeepBoundP r) (PreemptRegister r) (AluAndRotateControl r) v (ByteSize r) (ByteRotate r) (RotateLatch r) (ALUOverflow r) (ALUBorrow r) (ALULessThan r) (EphemeralOldspaceRegister r) (ZoneOldspaceRegister r) (ControlStackLimit r) (ControlStackExtraLimit r) (DynamicBindingCacheBase r) (DynamicBindingCacheMask r) (FEPModeTrapVectorAddress r) (MappingTableCache r) (MappingTableLength r) (running r) (instruction_count r).
Definition set_ByteSize (v : Z) (r : ProcessorState) : ProcessorState :=
  MkProcessorState (ps_sp r) (ps_restartsp r) (ps_fp r) (ps_lp r) (ps_pc r) (continuation r) (InstructionCache r) (StackCache r) (StackCacheLimit r) (bar r) (ListCacheArea r) (ListCacheAddress r) (StructureCacheArea r) (StructureCacheAddress r) (CatchBlockPointer r) (control r) (StackCacheBase r) (ArrayEventCount r) (ListCacheLength r) (StructureCacheLength r) (BindingStackPointer r) (BindingStackLimit r) (DeepBoundP r) (PreemptRegister r) (AluAndRotateControl r) (AluOp r) v (ByteRotate r) (RotateLatch r) (ALUOverflow r) (ALUBorrow r) (ALULessThan r) (EphemeralOldspaceRegister r) (ZoneOldspaceRegister r) (ControlStackLimit r) (ControlStackExtraLimit r) (DynamicBindingCacheBase r) (DynamicBindingCacheMask r) (FEPModeTrapVectorAddress r) (MappingTableCache r) (MappingTableLength r) (running r) (instruction_count r).
Definition set_ByteRotate (v : Z) (r : ProcessorState) : ProcessorState :=
  MkProcessorState (ps_sp r) (ps_restartsp r) (ps_fp r) (ps_lp r) (ps_pc r) (continuation r) (InstructionCache r) (StackCache r) (StackCacheLimit r) (bar r) (ListCacheArea r) (ListCacheAddress r) (StructureCacheArea r) (StructureCacheAddress r) (CatchBlockPointer r) (control r) (StackCacheBase r) (ArrayEventCount r) (ListCacheLength r) (StructureCacheLength r) (BindingStackPointer r) (BindingStackLimit r) (DeepBoundP r) (PreemptRegister r) (AluAndRotateControl r) (AluOp r) (ByteSize r) v (RotateLatch r) (ALUOverflow r) (ALUBorrow r) (ALULessThan r) (EphemeralOldspaceRegister r) (ZoneOldspaceRegister r) (ControlStackLimit r) (ControlStackExtraLimit r) (DynamicBindingCacheBase r) (DynamicBindingCacheMask r) (FEPModeTrapVectorAddress r) (MappingTableCache r) (MappingTableLength r) (running r) (instruction_count r).
Definition set_RotateLatch (v : Z) (r : ProcessorState) : ProcessorState :=
  MkProcessorState (ps_sp r) (ps_restartsp r) (ps_fp r) (ps_lp r) (ps_pc r) (continuation r) (InstructionCache r) (StackCache r) (StackCacheLimit r) (bar r) (ListCacheArea r) (ListCacheAddress r) (StructureCacheArea r) (StructureCacheAddress r) (CatchBlockPointer r) (control r) (StackCacheBase r) (ArrayEventCount r) (ListCacheLength r) (StructureCacheLength r) (BindingStackPointer r) (BindingStackLimit r) (DeepBoundP r) (PreemptRegister r) (AluAndRotateControl r) (AluOp r) (ByteSize r) (ByteRotate r) v (ALUOverflow r) (ALUBorrow r) (ALULessThan r) (EphemeralOldspaceRegister r) (ZoneOldspaceRegister r) (ControlStackLimit r) (ControlStackExtraLimit r) (DynamicBindingCacheBase r) (DynamicBindingCacheMask r) (FEPModeTrapVectorAddress r) (MappingTableCache r) (MappingTableLength r) (running r) (instruction_count r).
Definition set_ALUOverflow (v : bool) (r : ProcessorState) : ProcessorState :=
  MkProcessorState (ps_sp r) (ps_restartsp r) (ps_fp r) (ps_lp r) (ps_pc r) (continuation r) (InstructionCache r) (StackCache r) (StackCacheLimit r) (bar r) (ListCacheArea r) (ListCacheAddress r) (StructureCacheArea r) (StructureCacheAddress r) (CatchBlockPointer r) (control r) (StackCacheBase r) (ArrayEventCount r) (ListCacheLength r) (StructureCacheLength r) (BindingStackPointer r) (BindingStackLimit r) (DeepBoundP r) (PreemptRegister r) (AluAndRotateControl r) (AluOp r) (ByteSize r) (ByteRotate r) (RotateLatch r) v (ALUBorrow r) (ALULessThan r) (EphemeralOldspaceRegister r) (ZoneOldspaceRegister r) (ControlStackLimit r) (ControlStackExtraLimit r) (DynamicBindingCacheBase r) (DynamicBindingCacheMask r) (FEPModeTrapVectorAddress r) (MappingTableCache r) (MappingTableLength r) (running r) (instruction_count r).
Definition set_ALUBorrow (v : bool) (r : ProcessorState) : ProcessorState :=
  MkProcessorState (ps_sp r) (ps_restartsp r) (ps_fp r) (ps_lp r) (ps_pc r) (continuation r) (InstructionCache r) (StackCache r) (StackCacheLimit r) (bar r) (ListCacheArea r) (ListCacheAddress r) (StructureCacheArea r) (StructureCacheAddress r) (CatchBlockPointer r) (control r) (StackCacheBase r) (ArrayEventCount r) (ListCacheLength r) (StructureCacheLength r) (BindingStackPointer r) (BindingStackLimit r) (DeepBoundP r) (PreemptRegister r) (AluAndRotateControl r) (AluOp r) (ByteSize r) (ByteRotate r) (RotateLatch r) (ALUOverflow r) v (ALULessThan r) (EphemeralOldspaceRegister r) (ZoneOldspaceRegister r) (ControlStackLimit r) (ControlStackExtraLimit r) (DynamicBindingCacheBase r) (DynamicBindingCacheMask r) (FEPModeTrapVectorAddress r) (MappingTableCache r) (MappingTableLength r) (running r) (instruction_count r).
Definition set_ALULessThan (v : bool) (r : ProcessorState) : ProcessorState :=
  MkProcessorState (ps_sp r) (ps_restartsp r) (ps_fp r) (ps_lp r) (ps_pc r) (continuation r) (InstructionCache r) (StackCache r) (StackCacheLimit r) (bar r) (ListCacheArea r) (ListCacheAddress r) (StructureCacheArea r) (StructureCacheAddress r) (CatchBlockPointer r) (control r) (StackCacheBase r) (ArrayEventCount r) (ListCacheLength r) (StructureCacheLength r) (BindingStackPointer r) (BindingStackLimit r) (DeepBoundP r) (PreemptRegister r) (AluAndRotateControl r) (AluOp r) (ByteSize r) (ByteRotate r) (RotateLatch r) (ALUOverflow r) (ALUBorrow r) v (EphemeralOldspaceRegister r) (ZoneOldspaceRegister r) (ControlStackLimit r) (ControlStackExtraLimit r) (DynamicBindingCacheBase r) (DynamicBindingCacheMask r) (FEPModeTrapVectorAddress r) (MappingTableCache r) (MappingTableLength r) (running r) (instruction_count r).
Definition set_EphemeralOldspaceRegister (v : Z) (r : ProcessorState) : ProcessorState :=
  MkProcessorState (ps_sp r) (ps_restartsp r) (ps_fp r) (ps_lp r) (ps_pc r) (continuation r) (InstructionCache r) (StackCache r) (StackCacheLimit r) (bar r) (ListCacheArea r) (ListCacheAddress r) (StructureCacheArea r) (StructureCacheAddress r) (CatchBlockPointer r) (control r) (StackCacheBase r) (ArrayEventCount r) (ListCacheLength r) (StructureCacheLength r) (BindingStackPointer r) (BindingStackLimit r) (DeepBoundP r) (PreemptRegister r) (AluAndRotateControl r) (AluOp r) (ByteSize r) (ByteRotate r) (RotateLatch r) (ALUOverflow r) (ALUBorrow r) (ALULessThan r) v (ZoneOldspaceRegister r) (ControlStackLimit r) (ControlStackExtraLimit r) (DynamicBindingCacheBase r) (DynamicBindingCacheMask r) (FEPModeTrapVectorAddress r) (MappingTableCache r) (MappingTableLength r) (running r) (instruction_count r).
Definition set_ZoneOldspaceRegister (v : Z) (r : ProcessorState) : ProcessorState :=
  MkProcessorState (ps_sp r) (ps_restartsp r) (ps_fp r) (ps_lp r) (ps_pc r) (continuation r) (InstructionCache r) (StackCache r) (StackCacheLimit r) (bar r) (ListCacheArea r) (ListCacheAddress r) (StructureCacheArea r) (StructureCacheAddress r) (CatchBlockPointer r) (control r) (StackCacheBase r) (ArrayEventCount r) (ListCacheLength r) (StructureCacheLength r) (BindingStackPointer r) (BindingStackLimit r) (DeepBoundP r) (PreemptRegister r) (AluAndRotateControl r) (AluOp r) (ByteSize r) (ByteRotate r) (RotateLatch r) (ALUOverflow r) (ALUBorrow r) (ALULessThan r) (EphemeralOldspaceRegister r) v (ControlStackLimit r) (ControlStackExtraLimit r) (DynamicBindingCacheBase r) (DynamicBindingCacheMask r) (FEPModeTrapVectorAddress r) (MappingTableCache r) (MappingTableLength r) (running r) (instruction_count r).
Definition set_ControlStackLimit (v : Z) (r : ProcessorState) : ProcessorState :=
  MkProcessorState (ps_sp r) (ps_restartsp r) (ps_fp r) (ps_lp r) (ps_pc r) (continuation r) (InstructionCache r) (StackCache r) (StackCacheLimit r) (bar r) (ListCacheArea r) (ListCacheAddress r) (StructureCacheArea r) (StructureCacheAddress r) (CatchBlockPointer r) (control r) (StackCacheBase r) (ArrayEventCount r) (ListCacheLength r) (StructureCacheLength r) (BindingStackPointer r) (BindingStackLimit r) (DeepBoundP r) (PreemptRegister r) (AluAndRotateControl r) (AluOp r) (ByteSize r) (ByteRotate r) (RotateLatch r) (ALUOverflow r) (ALUBorrow r) (ALULessThan r) (EphemeralOldspaceRegister r) (ZoneOldspaceRegister r) v (ControlStackExtraLimit r) (DynamicBindingCacheBase r) (DynamicBindingCacheMask r) (FEPModeTrapVectorAddress r) (MappingTableCache r) (MappingTableLength r) (running r) (instruction_count r).
Definition set_ControlStackExtraLimit (v : Z) (r : ProcessorState) : ProcessorState :=
  MkProcessorState (ps_sp r) (ps_restartsp r) (ps_fp r) (ps_lp r) (ps_pc r) (continuation r) (InstructionCache r) (StackCache r) (StackCacheLimit r) (bar r) (ListCacheArea r) (ListCacheAddress r) (StructureCacheArea r) (StructureCacheAddress r) (CatchBlockPointer r) (control r) (StackCacheBase r) (ArrayEventCount r) (ListCacheLength r) (StructureCacheLength r) (BindingStackPointer r) (BindingStackLimit r) (DeepBoundP r) (PreemptRegister r) (AluAndRotateControl r) (AluOp r) (ByteSize r) (ByteRotate r) (RotateLatch r) (ALUOverflow r) (ALUBorrow r) (ALULessThan r) (EphemeralOldspaceRegister r) (ZoneOldspaceRegister r) (ControlStackLimit r) v (DynamicBindingCacheBase r) (DynamicBindingCacheMask r) (FEPModeTrapVectorAddress r) (MappingTableCache r) (MappingTableLength r) (running r) (instruction_count r).
Definition set_DynamicBindingCacheBase (v : Z) (r : ProcessorState) : ProcessorState :=
  MkProcessorState (ps_sp r) (ps_restartsp r) (ps_fp r) (ps_lp r) (ps_pc r) (continuation r) (InstructionCache r) (StackCache r) (StackCacheLimit r) (bar r) (ListCacheArea r) (ListCacheAddress r) (StructureCacheArea r) (StructureCacheAddress r) (CatchBlockPointer r) (control r) (StackCacheBase r) (ArrayEventCount r) (ListCacheLength r) (StructureCacheLength r) (BindingStackPointer r) (BindingStackLimit r) (DeepBoundP r) (PreemptRegister r) (AluAndRotateControl r) (AluOp r) (ByteSize r) (ByteRotate r) (RotateLatch r) (ALUOverflow r) (ALUBorrow r) (ALULessThan r) (EphemeralOldspaceRegister r) (ZoneOldspaceRegister r) (ControlStackLimit r) (ControlStackExtraLimit r) v (DynamicBindingCacheMask r) (FEPModeTrapVectorAddress r) (MappingTableCache r) (MappingTableLength r) (running r) (instruction_count r).
Definition set_DynamicBindingCacheMask (v : Z) (r : ProcessorState) : ProcessorState :=
  MkProcessorState (ps_sp r) (ps_restartsp r) (ps_fp r) (ps_lp r) (ps_pc r) (continuation r) (InstructionCache r) (StackCache r) (StackCacheLimit r) (bar r) (ListCacheArea r) (ListCacheAddress r) (StructureCacheArea r) (StructureCacheAddress r) (CatchBlockPointer r) (control r) (StackCacheBase r) (ArrayEventCount r) (ListCacheLength r) (StructureCacheLength r) (BindingStackPointer r) (BindingStackLimit r) (DeepBoundP r) (PreemptRegister r) (AluAndRotateControl r) (AluOp r) (ByteSize r) (ByteRotate r) (RotateLatch r) (ALUOverflow r) (ALUBorrow r) (ALULessThan r) (EphemeralOldspaceRegister r) (ZoneOldspaceRegister r) (ControlStackLimit r) (ControlStackExtraLimit r) (DynamicBindingCacheBase r) v (FEPModeTrapVectorAddress r) (MappingTableCache r) (MappingTableLength r) (running r) (instruction_count r).
Definition set_FEPModeTrapVectorAddress (v : Z) (r : ProcessorState) : ProcessorState :=
  MkProcessorState (ps_sp r) (ps_restartsp r) (ps_fp r) (ps_lp r) (ps_pc r) (continuation r) (InstructionCache r) (StackCache r) (StackCacheLimit r) (bar r) (ListCacheArea r) (ListCacheAddress r) (StructureCacheArea r) (StructureCacheAddress r) (CatchBlockPointer r) (control r) (StackCacheBase r) (ArrayEventCount r) (ListCacheLength r) (StructureCacheLength r) (BindingStackPointer r) (BindingStackLimit r) (DeepBoundP r) (PreemptRegister r) (AluAndRotateControl r) (AluOp r) (ByteSize r) (ByteRotate r) (RotateLatch r) (ALUOverflow r) (ALUBorrow r) (ALULessThan r) (EphemeralOldspaceRegister r) (ZoneOldspaceRegister r) (ControlStackLimit r) (ControlStackExtraLimit r) (DynamicBindingCacheBase r) (DynamicBindingCacheMask r) v (MappingTableCache r) (MappingTableLength r) (running r) (instruction_count r).
Definition set_MappingTableCache (v : Z) (r : ProcessorState) : ProcessorState :=
  MkProcessorState (ps_sp r) (ps_restartsp r) (ps_fp r) (ps_lp r) (ps_pc r) (continuation r) (InstructionCache r) (StackCache r) (StackCacheLimit r) (bar r) (ListCacheArea r) (ListCacheAddress r) (StructureCacheArea r) (StructureCacheAddress r) (CatchBlockPointer r) (control r) (StackCacheBase r) (ArrayEventCount r) (ListCacheLength r) (StructureCacheLength r) (BindingStackPointer r) (BindingStackLimit r) (DeepBoundP r) (PreemptRegister r) (AluAndRotateControl r) (AluOp r) (ByteSize r) (ByteRotate r) (RotateLatch r) (ALUOverflow r) (ALUBorrow r) (ALULessThan r) (EphemeralOldspaceRegister r) (ZoneOldspaceRegister r) (ControlStackLimit r) (ControlStackExtraLimit r) (DynamicBindingCacheBase r) (DynamicBindingCacheMask r) (FEPModeTrapVectorAddress r) v (MappingTableLength r) (running r) (instruction_count r).
Definition set_MappingTableLength (v : Z) (r : ProcessorState) : ProcessorState :=
  MkProcessorState (ps_sp r) (ps_restartsp r) (ps_fp r) (ps_lp r) (ps_pc r) (continuation r) (InstructionCache r) (StackCache r) (StackCacheLimit r) (bar r) (ListCacheArea r) (ListCacheAddress r) (StructureCacheArea r) (StructureCacheAddress r) (CatchBlockPointer r) (control r) (StackCacheBase r) (ArrayEventCount r) (ListCacheLength r) (StructureCacheLength r) (BindingStackPointer r) (BindingStackLimit r) (DeepBoundP r) (PreemptRegister r) (AluAndRotateControl r) (AluOp r) (ByteSize r) (ByteRotate r) (RotateLatch r) (ALUOverflow r) (ALUBorrow r) (ALULessThan r) (EphemeralOldspaceRegister r) (ZoneOldspaceRegister r) (ControlStackLimit r) (ControlStackExtraLimit r) (DynamicBindingCacheBase r) (DynamicBindingCacheMask r) (FEPModeTrapVectorAddress r) (MappingTableCache r) v (running r) (instruction_count r).
Definition set_running (v : bool) (r : ProcessorState) : ProcessorState :=
  MkProcessorState (ps_sp r) (ps_restartsp r) (ps_fp r) (ps_lp r) (ps_pc r) (continuation r) (InstructionCache r) (StackCache r) (StackCacheLimit r) (bar r) (ListCacheArea r) (ListCacheAddress r) (StructureCacheArea r) (StructureCacheAddress r) (CatchBlockPointer r) (control r) (StackCacheBase r) (ArrayEventCount r) (ListCacheLength r) (StructureCacheLength r) (BindingStackPointer r) (BindingStackLimit r) (DeepBoundP r) (PreemptRegister r) (AluAndRotateControl r) (AluOp r) (ByteSize r) (ByteRotate r) (RotateLatch r) (ALUOverflow r) (ALUBorrow r) (ALULessThan r) (EphemeralOldspaceRegister r) (ZoneOldspaceRegister r) (ControlStackLimit r) (ControlStackExtraLimit r) (DynamicBindingCacheBase r) (DynamicBindingCacheMask r) (FEPModeTrapVectorAddress r) (MappingTableCache r) (MappingTableLength r) v (instruction_count r).
Definition set_instruction_count (v : Z) (r : ProcessorState) : ProcessorState :=
  MkProcessorState (ps_sp r) (ps_restartsp r) (ps_fp r) (ps_lp r) (ps_pc r) (continuation r) (InstructionCache r) (StackCache r) (StackCacheLimit r) (bar r) (ListCacheArea r) (ListCacheAddress r) (StructureCacheArea r) (StructureCacheAddress r) (CatchBlockPointer r) (control r) (StackCacheBase r) (ArrayEventCount r) (ListCacheLength r) (StructureCacheLength r) (BindingStackPointer r) (BindingStackLimit r) (DeepBoundP r) (PreemptRegister r) (AluAndRotateControl r) (AluOp r) (ByteSize r) (ByteRotate r) (RotateLatch r) (ALUOverflow r) (ALUBorrow r) (ALULessThan r) (EphemeralOldspaceRegister r) (ZoneOldspaceRegister r) (ControlStackLimit r) (ControlStackExtraLimit r) (DynamicBindingCacheBase r) (DynamicBindingCacheMask r) (FEPModeTrapVectorAddress r) (MappingTableCache r) (MappingTableLength r) (running r) v.

(** What the local pointer [op2] designates: a stack-cache slot, the local object
    [immediate], or nothing yet. *)
(* c-emulator/emulator.c:888-893 op2 *)
Inductive Operand :=
| OpStack (i : Z)
| OpImmediate
| OpNone.

(** The local variables of InstructionSequencer that live across instructions. *)
(* c-emulator/emulator.c:881-897 InstructionSequencer *)
Record Registers := MkRegisters {
  sp : Z;
  restartsp : Z;
  fp : Z;
  lp : Z;
  pc : LispObj;
  cp : CachePointer;
  op2 : Operand;
  immediate : LispObj
}.

Definition set_sp (v : Z) (r : Registers) : Registers :=
  MkRegisters v (restartsp r) (fp r) (lp r) (pc r) (cp r) (op2 r) (immediate r).
Definition set_restartsp (v : Z) (r : Registers) : Registers :=
  MkRegisters (sp r) v (fp r) (lp r) (pc r) (cp r) (op2 r) (immediate r).
Definition set_fp (v : Z) (r : Registers) : Registers :=
  MkRegisters (sp r) (restartsp r) v (lp r) (pc r) (cp r) (op2 r) (immediate r).
Definition set_lp (v : Z) (r : Registers) : Registers :=
  MkRegisters (sp r) (restartsp r) (fp r) v (pc r) (cp r) (op2 r) (immediate r).
Definition set_pc (v : LispObj) (r : Registers) : Registers :=
  MkRegisters (sp r) (restartsp r) (fp r) (lp r) v (cp r) (op2 r) (immediate r).
Definition set_cp (v : CachePointer) (r : Registers) : Registers :=
  MkRegisters (sp r) (restartsp r) (fp r) (lp r) (pc r) v (op2 r) (immediate r).
Definition set_op2 (v : Operand) (r : Registers) : Registers :=
  MkRegisters (sp r) (restartsp r) (fp r) (lp r) (pc r) (cp r) v (immediate r).
Definition set_immediate (v : LispObj) (r : Registers) : Registers :=
  MkRegisters (sp r) (restartsp r) (fp r) (lp r) (pc r) (cp r) (op2 r) v.

(** The registers of the virtual-memory coprocessor. *)
(* c-emulator/memory.h:95-103 VMState *)
Record VMState := MkVMState {
  CommandRegister : Z;
  AddressRegister : Z;
  ExtentRegister : Z;
  AttributesRegister : Z;
  DestinationRegister : Z;
  DataRegister : LispObj
}.

Definition set_CommandRegister (v : Z) (r : VMState) : VMState :=
  MkVMState v (AddressRegister r) (ExtentRegister r) (AttributesRegister r) (DestinationRegister r) (DataRegister r).
Definition set_AddressRegister (v : Z) (r : VMState) : VMState :=
  MkVMState (CommandRegister r) v (ExtentRegister r) (AttributesRegister r) (DestinationRegister r) (DataRegister r).
Definition set_ExtentRegister (v : Z) (r : VMState) : VMState :=
  MkVMState (CommandRegister r) (AddressRegister r) v (AttributesRegister r) (DestinationRegister r) (DataRegister r).
Definition set_AttributesRegister (v : Z) (r : VMState) : VMState :=
  MkVMState (CommandRegister r) (AddressRegister r) (ExtentRegister r) v (DestinationRegister r) (DataRegister r).
Definition set_DestinationRegister (v : Z) (r : VMState) : VMState :=
  MkVMState (CommandRegister r) (AddressRegister r) (ExtentRegister r) (AttributesRegister r) v (DataRegister r).
Definition set_DataRegister (v : LispObj) (r : VMState) : VMState :=
  MkVMState (CommandRegister r) (AddressRegister r) (ExtentRegister r) (AttributesRegister r) (DestinationRegister r) v.

(** The whole machine: the processor, the sequencer locals, the two memory arrays,
    the attribute table, the coprocessor and the global variables of the emulator. *)
(* c-emulator/emulator.c:22-36 suspend *)
Record MachineState := MkMachineState {
  ps : ProcessorState;
  regs : Registers;
  DataSpace : gmap Z Z;
  TagSpace : gmap Z Z;
  VMAttributeTable : gmap Z Z;
  VM : VMState;
  suspend : Z;
  run : bool;
  trap_vma : LispObj;
  trap_microstate : LispObj;
  memory_vma : Z;
  interrupts_sent : Z
}.

Definition set_ps (v : ProcessorState) (r : MachineState) : MachineState :=
  MkMachineState v (regs r) (DataSpace r) (TagSpace r) (VMAttributeTable r) (VM r) (suspend r) (run r) (trap_vma r) (trap_microstate r) (memory_vma r) (interrupts_sent r).
Definition set_regs (v : Registers) (r : MachineState) : MachineState :=
  MkMachineState (ps r) v (DataSpace r) (TagSpace r) (VMAttributeTable r) (VM r) (suspend r) (run r) (trap_vma r) (trap_microstate r) (memory_vma r) (interrupts_sent r).
Definition set_DataSpace (v : gmap Z Z) (r : MachineState) : MachineState :=
  MkMachineState (ps r) (regs r) v (TagSpace r) (VMAttributeTable r) (VM r) (suspend r) (run r) (trap_vma r) (trap_microstate r) (memory_vma r) (interrupts_sent r).
Definition set_TagSpace (v : gmap Z Z) (r : MachineState) : MachineState :=
  MkMachineState (ps r) (regs r) (DataSpace r) v (VMAttributeTable r) (VM r) (suspend r) (run r) (trap_vma r) (trap_microstate r) (memory_vma r) (interrupts_sent r).
Definition set_VMAttributeTable (v : gmap Z Z) (r : MachineState) : MachineState :=
  MkMachineState (ps r) (regs r) (DataSpace r) (TagSpace r) v (VM r) (suspend r) (run r) (trap_vma r) (trap_microstate r) (memory_vma r) (interrupts_sent r).
Definition set_VM (v : VMState) (r : MachineState) : MachineState :=
  MkMachineState (ps r) (regs r) (DataSpace r) (TagSpace r) (VMAttributeTable r) v (suspend r) (run r) (trap_vma r) (trap_microstate r) (memory_vma r) (interrupts_sent r).
Definition set_suspend (v : Z) (r : MachineState) : MachineState :=
  MkMachineState (ps r) (regs r) (DataSpace r) (TagSpace r) (VMAttributeTable r) (VM r) v (run r) (trap_vma r) (trap_microstate r) (memory_vma r) (interrupts_sent r).
Definition set_run (v : bool) (r : MachineState) : MachineState :=
  MkMachineState (ps r) (regs r) (DataSpace r) (TagSpace r) (VMAttributeTable r) (VM r) (suspend r) v (trap_vma r) (trap_microstate r) (memory_vma r) (interrupts_sent r).
Definition set_trap_vma (v : LispObj) (r : MachineState) : MachineState :=
  MkMachineState (ps r) (regs r) (DataSpace r) (TagSpace r) (VMAttributeTable r) (VM r) (suspend r) (run r) v (trap_microstate r) (memory_vma r) (interrupts_sent r).
Definition set_trap_microstate (v : LispObj) (r : MachineState) : MachineState :=
  MkMachineState (ps r) (regs r) (DataSpace r) (TagSpace r) (VMAttributeTable r) (VM r) (suspend r) (run r) (trap_vma r) v (memory_vma r) (interrupts_sent r).
Definition set_memory_vma (v : Z) (r : MachineState) : MachineState :=
  MkMachineState (ps r) (regs r) (DataSpace r) (TagSpace r) (VMAttributeTable r) (VM r) (suspend r) (run r) (trap_vma r) (trap_microstate r) v (interrupts_sent r).
Definition set_interrupts_sent (v : Z) (r : MachineState) : MachineState :=
  MkMachineState (ps r) (regs r) (DataSpace r) (TagSpace r) (VMAttributeTable r) (VM r) (suspend r) (run r) (trap_vma r) (trap_microstate r) (memory_vma r) v.

(** Lifting of a change of a component to the machine. *)
Definition upd_ps (f : ProcessorState -> ProcessorState) (s : MachineState) : MachineState :=
  set_ps (f (ps s)) s.
Definition upd_regs (f : Registers -> Registers) (s : MachineState) : MachineState :=
  set_regs (f (regs s)) s.
Definition upd_VM (f : VMState -> VMState) (s : MachineState) : MachineState :=
  set_VM (f (VM s)) s.
