(* ===== verification/Machine.v ===== *)
(** The machine as an effect: the environment the emulator runs in, assignments to
    the state, stack-cache and operand access, traps, and the stack macros of
    c-emulator/emulator.c. *)

From S2P Require Export Effect State.

(** ** Environment *)

(** What the C code gets from outside the repository.  [mmap_succeeds addr n] and
    [munmap_succeeds addr] are the results of the system calls that map [n] pages at
    [addr] and unmap the page at [addr]; [microsecond_clock n] is the process time
    read after [n] instructions; [immediate_offset] is the value of the C expression
    [&immediate - ps->StackCache], a difference of unrelated pointers.  [loop_fuel]
    bounds every loop of the model. *)
Class Environment := {
  mmap_succeeds : Z -> Z -> bool;
  munmap_succeeds : Z -> bool;
  microsecond_clock : Z -> Z;
  immediate_offset : Z;
  loop_fuel : nat
}.

#[local] Open Scope vlm_scope.

Abbreviation Emu := (M MachineState).

(** ** Assignments *)

Definition assign_ps (f : ProcessorState -> ProcessorState) : Emu unit := modify (upd_ps f).
Definition assign_regs (f : Registers -> Registers) : Emu unit := modify (upd_regs f).
Definition assign_VM (f : VMState -> VMState) : Emu unit := modify (upd_VM f).

Definition get_ps {A} (f : ProcessorState -> A) : Emu A := gets (fun s => f (ps s)).
Definition get_reg {A} (f : Registers -> A) : Emu A := gets (fun s => f (regs s)).

(** An assignment to the control register. *)
Definition put_control (f : Z -> Z) : Emu unit :=
  assign_ps (fun p => set_control (f (control p)) p).

(** ** Traps *)

(* c-emulator/emulator.c:39-43 TakeMemoryTrap *)
Definition TakeMemoryTrap {A} (vector vma : Z) : Emu A :=
  modify (fun s => set_trap_vma (set_DATA vma (trap_vma s)) s) ;;
  longjmp vector.

(* c-emulator/emulator.c:45-50 TakeIllegalOperandTrap *)
Definition TakeIllegalOperandTrap {A} (microstate operand : Z) : Emu A :=
  modify (fun s => set_trap_microstate (set_DATA microstate (trap_microstate s)) s) ;;
  modify (fun s => set_trap_vma (set_DATA (StackCacheBase (ps s) + operand) (trap_vma s)) s) ;;
  longjmp ErrorTrapVector.

(* c-emulator/emulator.c:52-55 TakeInstructionExceptionTrap *)
Definition TakeInstructionExceptionTrap {A} : Emu A := longjmp InstructionExceptionVector.

(* c-emulator/emulator.c:58-62 segv_handler *)
Definition segv_handler {A} : Emu A :=
  v <- gets memory_vma ;; TakeMemoryTrap PageNotResidentTrapVector v.

(** The reasons for suspension, the enum [SuspendType]. *)
Definition SuspendNone : Z := 0. (* c-emulator/emulator.c:26 SuspendNone *)
Definition SuspendSpy : Z := 1. (* c-emulator/emulator.c:27 SuspendSpy *)
Definition SuspendLowPriority : Z := 2. (* c-emulator/emulator.c:28 SuspendLowPriority *)
Definition SuspendHighPriority : Z := 3. (* c-emulator/emulator.c:29 SuspendHighPriority *)
Definition SuspendReset : Z := 4. (* c-emulator/emulator.c:30 SuspendReset *)

(* c-emulator/emulator.c:65-68 io_handler *)
Definition io_handler (s : MachineState) : MachineState := set_suspend SuspendSpy s.

(* c-emulator/emulator.c:70-73 SendInterruptToEmulator *)
Definition SendInterruptToEmulator (s : MachineState) : MachineState :=
  set_suspend SuspendHighPriority s.

(* c-emulator/emulator.c:75-91 ProcessSuspend *)
Definition ProcessSuspend : Emu unit :=
  s <- gets suspend ;;
  modify (set_suspend SuspendNone) ;;
  if s =? SuspendSpy then longjmp (-1)
  else if s =? SuspendLowPriority then longjmp LowPrioritySequenceBreakTrapVector
  else if s =? SuspendHighPriority then longjmp HighPrioritySequenceBreakTrapVector
  else if s =? SuspendReset then longjmp ResetTrapVector
  else ret tt.

(* c-emulator/emulator.c:855 AllowSequenceBreaks *)
Definition AllowSequenceBreaks : Emu unit :=
  s <- gets suspend ;; when (negb (s =? 0)) ProcessSuspend.

(** ** The stack cache *)

Definition PageSize : Z := 256. (* c-emulator/emulator.h:71 *)
Definition PageNumberMask : Z := 0xffffff00. (* c-emulator/emulator.h:72 *)
Definition StackCacheSize : Z := 4. (* c-emulator/emulator.h:84 *)

(** [ps->StackCache[i]] as a value and as the target of an assignment. *)
Definition stack_get (i : Z) : Emu LispObj :=
  l <- get_ps StackCache ;; of_option (nth_Z l i).

Definition stack_put (i : Z) (o : LispObj) : Emu unit :=
  l <- get_ps StackCache ;;
  if in_bounds l i then assign_ps (set_StackCache (upd_Z l i o)) else undefined.

Definition stack_set_TAG (i t : Z) : Emu unit :=
  o <- stack_get i ;; stack_put i (set_TAG t o).
Definition stack_set_DATA (i d : Z) : Emu unit :=
  o <- stack_get i ;; stack_put i (set_DATA d o).

(** A pointer to an object a function stores its result through. *)
Definition Dest : Type := LispObj -> Emu unit.
Definition to_local : Dest := fun _ => ret tt.
Definition to_stack (i : Z) : Dest := stack_put i.

(** [*op], [*op = o]. *)
Definition operand_get (op : Operand) : Emu LispObj :=
  match op with
  | OpStack i => stack_get i
  | OpImmediate => get_reg immediate
  | OpNone => undefined
  end.

Definition operand_put (op : Operand) (o : LispObj) : Emu unit :=
  match op with
  | OpStack i => stack_put i o
  | OpImmediate => assign_regs (set_immediate o)
  | OpNone => undefined
  end.

(** [op - ps->StackCache] *)
Definition operand_index `{Environment} (op : Operand) : Emu Z :=
  match op with
  | OpStack i => ret i
  | OpImmediate => ret immediate_offset
  | OpNone => undefined
  end.

(** ** The stack macros *)

(** [sp[k]] and assignments to it. *)
Definition sp_get (k : Z) : Emu LispObj := i <- get_reg sp ;; stack_get (i + k).
Definition sp_put (k : Z) (o : LispObj) : Emu unit := i <- get_reg sp ;; stack_put (i + k) o.
Definition fp_get (k : Z) : Emu LispObj := i <- get_reg fp ;; stack_get (i + k).
Definition sp_add (n : Z) : Emu unit := i <- get_reg sp ;; assign_regs (set_sp (i + n)).
Definition sp_set_DATA (k d : Z) : Emu unit := i <- get_reg sp ;; stack_set_DATA (i + k) d.
Definition sp_set_TAG (k t : Z) : Emu unit := i <- get_reg sp ;; stack_set_TAG (i + k) t.

(* c-emulator/emulator.c:829 PushObject *)
Definition PushObject (o : LispObj) : Emu unit := sp_put 1 (StoreCdrNext o) ;; sp_add 1.
(* c-emulator/emulator.c:830 PushFixnum *)
Definition PushFixnum (n : Z) : Emu unit := sp_put 1 (obj TypeFixnum n) ;; sp_add 1.
(* c-emulator/emulator.c:831 PushNIL *)
Definition PushNIL : Emu unit := sp_put 1 ObjectNIL ;; sp_add 1.
(* c-emulator/emulator.c:832 PushT *)
Definition PushT : Emu unit := sp_put 1 ObjectT ;; sp_add 1.
(* c-emulator/emulator.c:833 PushConstant *)
Definition PushConstant (tag data : Z) : Emu unit := sp_put 1 (obj (u8 tag) data) ;; sp_add 1.
(* c-emulator/emulator.c:834 PushPredicate *)
Definition PushPredicate (v : bool) : Emu unit := if v then PushT else PushNIL.
(* c-emulator/emulator.c:835 PopObject *)
Definition PopObject : Emu LispObj := o <- sp_get 0 ;; sp_add (-1) ;; ret o.

(* c-emulator/emulator.c:839 SetObject *)
Definition SetObject (o : LispObj) : Emu unit := sp_put 0 (StoreCdrNext o).
(* c-emulator/emulator.c:840 SetFixnum *)
Definition SetFixnum (n : Z) : Emu unit := sp_put 0 (obj TypeFixnum n).
(* c-emulator/emulator.c:841 SetNIL *)
Definition SetNIL : Emu unit := sp_put 0 ObjectNIL.
(* c-emulator/emulator.c:842 SetT *)
Definition SetT : Emu unit := sp_put 0 ObjectT.
(* c-emulator/emulator.c:843 SetPredicate *)
Definition SetPredicate (v : bool) : Emu unit := if v then SetT else SetNIL.
(* c-emulator/emulator.c:844 SetConstant *)
Definition SetConstant (tag data : Z) : Emu unit := sp_put 0 (obj (u8 tag) data).

(* c-emulator/emulator.c:857 PushContinuation *)
Definition PushContinuation (c : LispObj) : Emu unit := PushConstant (Z.lor (TAG c) 192) (DATA c).
(* c-emulator/emulator.c:858 PushControl *)
Definition PushControl (c : Z) : Emu unit := PushConstant (Z.lor TypeFixnum 192) c.

(* c-emulator/emulator.c:860 DecacheRegisters *)
Definition DecacheRegisters : Emu unit :=
  r <- gets regs ;;
  assign_ps (fun p => set_ps_sp (sp r) (set_ps_restartsp (restartsp r) (set_ps_fp (fp r)
               (set_ps_lp (lp r) (set_ps_pc (pc r) p))))).

(* c-emulator/emulator.c:861 EncacheRegisters *)
Definition EncacheRegisters : Emu unit :=
  p <- gets ps ;;
  assign_regs (fun r => set_sp (ps_sp p) (set_restartsp (ps_restartsp p) (set_fp (ps_fp p)
                 (set_lp (ps_lp p) (set_pc (ps_pc p) r))))).

(** ** Operands *)

Definition InstructionCacheSize : Z := 2048. (* c-emulator/emulator.h:66 *)
Definition InstructionCacheLineSize : Z := 64. (* c-emulator/emulator.h:67 *)

(** The static line a [next_cp] designates to force a lookup. *)
(* c-emulator/dispatch.c:361-362 InstructionCacheLookupCPRepresentation *)
Definition InstructionCacheLookupCPRepresentation : InstructionCacheLine :=
  MkInstructionCacheLine (MkObj TypeOddPC (u32 (-1))) (MkObj TypeOddPC (u32 (-1)))
    DispatchInstructionCacheLookup 0 0 CPNone.

(** The fields of the current cache line. *)
Definition current_line : Emu InstructionCacheLine :=
  c <- get_reg cp ;;
  match c with
  | CPLine i => t <- get_ps InstructionCache ;; of_option (t !! i)
  | CPLookup => ret InstructionCacheLookupCPRepresentation
  | CPNone => undefined
  end.
Definition cp_operand : Emu Z := l <- current_line ;; ret (cl_operand l).
Definition cp_instruction : Emu Z := l <- current_line ;; ret (cl_instruction l).
Definition cp_next_pc : Emu LispObj := l <- current_line ;; ret (cl_next_pc l).

(* c-emulator/emulator.c:821 AddressImmediateOperand *)
Definition AddressImmediateOperand : Emu unit :=
  n <- cp_operand ;;
  assign_regs (set_op2 OpImmediate) ;;
  assign_regs (fun r => set_immediate (set_DATA n (immediate r)) r).
(* c-emulator/emulator.c:822 AddressSPOperand *)
Definition AddressSPOperand : Emu unit :=
  n <- cp_operand ;; assign_regs (fun r => set_op2 (OpStack (sp r + n)) r).
(* c-emulator/emulator.c:823 AddressFPOperand *)
Definition AddressFPOperand : Emu unit :=
  n <- cp_operand ;; assign_regs (fun r => set_op2 (OpStack (fp r + n)) r).
(* c-emulator/emulator.c:824 AddressLPOperand *)
Definition AddressLPOperand : Emu unit :=
  n <- cp_operand ;; assign_regs (fun r => set_op2 (OpStack (lp r + n)) r).
(* c-emulator/emulator.c:825 AddressPopOperand *)
Definition AddressPopOperand : Emu unit :=
  assign_regs (fun r => set_sp (sp r - 1) (set_op2 (OpStack (sp r)) r)).

(** [op2->TAG], [op2->DATA], [*op2]. *)
Definition op2_get : Emu LispObj := p <- get_reg op2 ;; operand_get p.
Definition op2_put (o : LispObj) : Emu unit := p <- get_reg op2 ;; operand_put p o.

(** ** Program counters *)

(* c-emulator/emulator.c:863-879 IncrementPC *)
Definition IncrementPC (p : LispObj) (offset : Z) : LispObj :=
  let d := u32 (DATA p + Z.shiftr offset 1) in
  if Z.odd (TAG p) then
    if Z.odd offset then MkObj TypeEvenPC (u32 (d + 1)) else MkObj TypeOddPC d
  else
    if Z.odd offset then MkObj TypeOddPC d else MkObj TypeEvenPC d.

(** ** Where an instruction goes next: the labels of InstructionSequencer *)
(* c-emulator/emulator.c:851-854 NextInstruction *)
Inductive Goto :=
| NextInstruction               (* also BranchNotTaken *)
| BranchTaken
| InstructionCacheLookup
| IllegalOperand
| InstructionException
| UnimplementedInstruction
| FollowPCInstructionException
| PullApplyArgsTrap (i : Z)
| HandleUnwindProtect
| SaveAndHalt
| Halt.
