(* ===== verification/VMem.v ===== *)
(** The virtual memory of the emulator (c-emulator/memory.c, first part): the page
    table of attributes, creation and destruction of pages, and the primitive reads
    and writes of the data and tag arrays, which fault on pages that do not exist. *)

From S2P Require Export Machine.
#[local] Open Scope vlm_scope.

(** ** Page attributes *)

Definition VMAttributeAccessFault : Z := 1. (* c-emulator/memory.h:23 *)
Definition VMAttributeWriteFault : Z := 2. (* c-emulator/memory.h:24 *)
Definition VMAttributeTransportFault : Z := 4. (* c-emulator/memory.h:25 *)
Definition VMAttributeTransportDisable : Z := 8. (* c-emulator/memory.h:26 *)
Definition VMAttributeEphemeral : Z := 16. (* c-emulator/memory.h:27 *)
Definition VMAttributeModified : Z := 32. (* c-emulator/memory.h:28 *)
Definition VMAttributeExists : Z := 64. (* c-emulator/memory.h:31 *)

Definition VMCreatedDefault : Z := (* c-emulator/memory.h:31 *)
  Z.lor (Z.lor VMAttributeAccessFault VMAttributeTransportFault) VMAttributeExists.

Definition VMTransportFault (a : Z) : bool := negb (Z.land a 4 =? 0). (* c-emulator/memory.h:35 *)
Definition VMTransportDisable (a : Z) : bool := negb (Z.land a 8 =? 0). (* c-emulator/memory.h:36 *)
Definition VMExists (a : Z) : bool := negb (Z.land a 64 =? 0). (* c-emulator/memory.h:39 *)
Definition SetVMTransportFault (a : Z) : Z := u8 (Z.lor a 4). (* c-emulator/memory.h:43 *)
Definition SetVMExists (a : Z) : Z := Z.lor a 64. (* c-emulator/memory.h:47 *)

Definition MemoryPageSize : Z := 0x2000. (* c-emulator/memory.c:31 *)
Definition MemoryAddressPageShift : Z := 13. (* c-emulator/memory.c:32 *)
Definition MemoryPageNumber (vma : Z) : Z := Z.shiftr vma MemoryAddressPageShift. (* c-emulator/memory.c:34 *)
Definition MemoryPageOffset (vma : Z) : Z := Z.land vma (MemoryPageSize - 1). (* c-emulator/memory.c:35 *)
Definition PageNumberMemory (vpn : Z) : Z := u32 (Z.shiftl vpn MemoryAddressPageShift). (* c-emulator/memory.c:36 *)

(** The static table starts out zero: an absent key is a zero entry. *)
Definition attribute_of (t : gmap Z Z) (vpn : Z) : Z := default 0 (t !! vpn).

Definition created_in (t : gmap Z Z) (vma : Z) : bool :=
  VMExists (attribute_of t (MemoryPageNumber vma)).

Definition Created (s : MachineState) (vma : Z) : bool := (* c-emulator/memory.c:41 Created *)
  created_in (VMAttributeTable s) vma.
Definition SetCreated (vma : Z) : Emu unit := (* c-emulator/memory.c:42 *)
  modify (fun s => set_VMAttributeTable
                     (<[MemoryPageNumber vma := VMCreatedDefault]> (VMAttributeTable s)) s).
Definition ClearCreated (vma : Z) : Emu unit := (* c-emulator/memory.c:43 *)
  modify (fun s => set_VMAttributeTable
                     (<[MemoryPageNumber vma := 0]> (VMAttributeTable s)) s).

(** ** Mapping and unmapping *)

(** A fresh anonymous mapping of [n] pages at [base], or an unmapping: the words of
    those pages read as zero when the pages are next mapped. *)
Definition clear_range (base len : Z) (m : gmap Z Z) : gmap Z Z :=
  filter (fun kv => ~ (base <= kv.1 < base + len)) m.

Definition clear_pages (base n : Z) : Emu unit :=
  modify (fun s => set_TagSpace (clear_range base (n * MemoryPageSize) (TagSpace s))
                     (set_DataSpace (clear_range base (n * MemoryPageSize) (DataSpace s)) s)).

Section vmem.
Context {env : Environment}.

(** [punt] reports and exits. *)
Definition map_pages (base n : Z) : Emu unit :=
  if mmap_succeeds base n then clear_pages base n else c_exit 1.
Definition unmap_page (base : Z) : Emu unit :=
  if munmap_succeeds base then clear_pages base 1 else c_exit 1.

(* c-emulator/memory.c:47-66 EnsureVirtualAddress *)
Definition EnsureVirtualAddress (vma : Z) : Emu Z :=
  let aligned_vma := vma - MemoryPageOffset vma in
  c <- gets (fun s => Created s vma) ;;
  if (c : bool) then ret vma else
  map_pages aligned_vma 1 ;;
  SetCreated vma ;;
  ret vma.

(** The first inner loop: count and mark the missing pages from [vma] on.
    Returns the count, and the new [pages] and [vma]. *)
(* c-emulator/memory.c:77-82 SetCreated *)
Fixpoint ensure_missing (fuel : nat) (n pages vma : Z) : Emu (Z * Z * Z) :=
  match fuel with
  | O => out_of_fuel
  | S k =>
      c <- gets (fun s => Created s vma) ;;
      if negb c && negb (pages =? 0) then
        SetCreated vma ;;
        ensure_missing k (n + 1) (pages - 1) (u32 (vma + MemoryPageSize))
      else ret (n, pages, vma)
  end.

(** The second inner loop: skip the pages that exist. *)
(* c-emulator/memory.c:94-98 Created *)
Fixpoint ensure_skip (fuel : nat) (pages vma aligned_vma : Z) : Emu (Z * Z * Z) :=
  match fuel with
  | O => out_of_fuel
  | S k =>
      c <- gets (fun s => Created s vma) ;;
      if c && negb (pages =? 0) then
        ensure_skip k (pages - 1) (u32 (vma + MemoryPageSize))
                      (u32 (aligned_vma + MemoryPageSize))
      else ret (pages, vma, aligned_vma)
  end.

Fixpoint ensure_runs (fuel : nat) (pages vma aligned_vma : Z) : Emu Z :=
  match fuel with
  | O => out_of_fuel
  | S k =>
      if pages =? 0 then ret vma else
      '(n, pages1, vma1) <- ensure_missing k 0 pages vma ;;
      (if n =? 0 then ret tt else map_pages aligned_vma n) ;;
      let aligned1 := if n =? 0 then aligned_vma
                      else u32 (aligned_vma + n * MemoryPageSize) in
      '(pages2, vma2, aligned2) <- ensure_skip k pages1 vma1 aligned1 ;;
      ensure_runs k pages2 vma2 aligned2
  end.

(* c-emulator/memory.c:68-102 EnsureVirtualAddressRange *)
Definition EnsureVirtualAddressRange (vma count : Z) : Emu Z :=
  let pages := ceiling count MemoryPageSize in
  ensure_runs (Z.to_nat pages + 2) pages vma (vma - MemoryPageOffset vma).

(* c-emulator/memory.c:104-121 DestroyVirtualAddress *)
Definition DestroyVirtualAddress (vma : Z) : Emu Z :=
  let aligned_vma := vma - MemoryPageOffset vma in
  c <- gets (fun s => Created s vma) ;;
  if negb c then ret vma else
  unmap_page aligned_vma ;;
  ClearCreated vma ;;
  ret vma.

(* c-emulator/memory.c:123-131 DestroyVirtualAddressRange *)
Fixpoint destroy_pages (pages : nat) (vma : Z) : Emu Z :=
  match pages with
  | O => ret vma
  | S k => DestroyVirtualAddress vma ;; destroy_pages k (u32 (vma + MemoryPageSize))
  end.

Definition DestroyVirtualAddressRange (vma count : Z) : Emu Z :=
  let pages := ceiling count MemoryPageSize in
  if pages <? 0 then out_of_fuel else destroy_pages (Z.to_nat pages) vma.
End vmem.

(** ** Primitive access *)

(** A load or store at [vma] faults unless its page exists; the handler reports
    whatever address [memory_vma] holds. *)
Definition touch (vma : Z) : Emu unit :=
  c <- gets (fun s => Created s vma) ;; if (c : bool) then ret tt else segv_handler.

Definition word_at (d t : gmap Z Z) (vma : Z) : LispObj :=
  MkObj (default 0 (t !! vma)) (default 0 (d !! vma)).
Definition fetch (s : MachineState) (vma : Z) : LispObj := word_at (DataSpace s) (TagSpace s) vma.

Definition store_data (vma d : Z) : Emu unit :=
  modify (fun s => set_DataSpace (<[vma := u32 d]> (DataSpace s)) s).
Definition store_tag (vma t : Z) : Emu unit :=
  modify (fun s => set_TagSpace (<[vma := u8 t]> (TagSpace s)) s).

Definition set_mem_vma (vma : Z) : Emu unit := modify (set_memory_vma (u32 vma)).

(** Stores the word through [object] and also returns it. *)
(* c-emulator/memory.c:144-152 VirtualMemoryRead *)
Definition VirtualMemoryRead (vma : Z) (object : Dest) : Emu LispObj :=
  set_mem_vma vma ;;
  touch vma ;;
  o <- gets (fun s => fetch s vma) ;;
  object o ;;
  ret o.

(* c-emulator/memory.c:154-162 VirtualMemoryWrite *)
Definition VirtualMemoryWrite (vma : Z) (o : LispObj) : Emu unit :=
  set_mem_vma vma ;;
  touch vma ;;
  store_data vma (DATA o) ;;
  store_tag vma (TAG o).

(** The block loops run while the data pointer is below [edata], the address of
    word [vma + count] computed in 32 bits. *)
Definition block_length (vma count : Z) : nat := Z.to_nat (u32 (vma + count) - vma).

Fixpoint read_block (n : nat) (vma k : Z) (object : Z -> Dest) : Emu unit :=
  match n with
  | O => ret tt
  | S n' =>
      touch vma ;;
      o <- gets (fun s => fetch s vma) ;;
      object k o ;;
      v <- gets memory_vma ;; set_mem_vma (v + 1) ;;
      read_block n' (vma + 1) (k + 1) object
  end.

(** [object k] stores through [&object[k]]. *)
(* c-emulator/memory.c:164-179 VirtualMemoryReadBlock *)
Definition VirtualMemoryReadBlock (vma : Z) (object : Z -> Dest) (count : Z) : Emu unit :=
  set_mem_vma vma ;; read_block (block_length vma count) vma 0 object.

Fixpoint write_block (n : nat) (vma k : Z) (object : Z -> Emu LispObj) : Emu unit :=
  match n with
  | O => ret tt
  | S n' =>
      o <- object k ;;
      touch vma ;;
      store_data vma (DATA o) ;;
      store_tag vma (TAG o) ;;
      v <- gets memory_vma ;; set_mem_vma (v + 1) ;;
      write_block n' (vma + 1) (k + 1) object
  end.

(* c-emulator/memory.c:181-196 VirtualMemoryWriteBlock *)
Definition VirtualMemoryWriteBlock (vma : Z) (object : Z -> Emu LispObj) (count : Z) : Emu unit :=
  set_mem_vma vma ;; write_block (block_length vma count) vma 0 object.

(** [memset] over [n] tags or data words: faults do not advance [memory_vma]. *)
Fixpoint fill_tags (n : nat) (vma t : Z) : Emu unit :=
  match n with
  | O => ret tt
  | S n' => touch vma ;; store_tag vma t ;; fill_tags n' (vma + 1) t
  end.

Fixpoint fill_zero (n : nat) (vma : Z) : Emu unit :=
  match n with
  | O => ret tt
  | S n' => touch vma ;; store_data vma 0 ;; fill_zero n' (vma + 1)
  end.

Fixpoint fill_data (n : nat) (vma d increment : Z) : Emu unit :=
  match n with
  | O => ret tt
  | S n' =>
      touch vma ;;
      store_data vma d ;;
      v <- gets memory_vma ;; set_mem_vma (v + 1) ;;
      fill_data n' (vma + 1) (u32 (d + increment)) increment
  end.

(* c-emulator/memory.c:198-226 VirtualMemoryWriteBlockConstant *)
Definition VirtualMemoryWriteBlockConstant (vma : Z) (o : LispObj) (count increment : Z) : Emu unit :=
  set_mem_vma vma ;;
  if count <? 0 then undefined else
  fill_tags (Z.to_nat count) vma (TAG o) ;;
  if (increment =? 0) && (DATA o =? 0) then fill_zero (Z.to_nat count) vma
  else fill_data (block_length vma count) vma (DATA o) increment.
