(* ===== verification/MemAccess.v ===== *)
(** The memory interface of the sequencer (c-emulator/emulator.c, lines 93 to 325):
    access through the stack cache, scrolling of the cache, oldspace and ephemeral
    tests, and the typed memory cycles with their forwarding, traps and monitors. *)

From S2P Require Export VMem.
#[local] Open Scope vlm_scope.

(** ** Access through the stack cache *)

(** [Integer stack_cache_index = vma - processor->StackCacheBase] *)
Definition stack_cache_index (p : ProcessorState) (vma : Z) : Z := (* c-emulator/emulator.c:97 stack_cache_index *)
  u32 (vma - StackCacheBase p).
Definition in_stack_cache (p : ProcessorState) (vma : Z) : bool := (* c-emulator/emulator.c:99 StackCacheSize *)
  stack_cache_index p vma <? StackCacheSize * PageSize.

(* c-emulator/emulator.c:95-106 ReadVirtualMemory *)
Definition ReadVirtualMemory (vma : Z) (object : Dest) : Emu LispObj :=
  p <- gets ps ;;
  if in_stack_cache p vma then
    o <- stack_get (stack_cache_index p vma) ;; object o ;; ret o
  else VirtualMemoryRead vma object.

(** A write to a cached word also goes to memory. *)
(* c-emulator/emulator.c:108-116 WriteVirtualMemory *)
Definition WriteVirtualMemory (vma : Z) (o : LispObj) : Emu unit :=
  p <- gets ps ;;
  when (in_stack_cache p vma) (stack_put (stack_cache_index p vma) o) ;;
  VirtualMemoryWrite vma o.

Fixpoint read_words (n : nat) (vma k : Z) (object : Z -> Dest) : Emu unit :=
  match n with
  | O => ret tt
  | S n' => ReadVirtualMemory vma (object k) ;; read_words n' (u32 (vma + 1)) (k + 1) object
  end.

(** A negative [count] makes the loop [for ( ; count--; ...)] run away. *)
(* c-emulator/emulator.c:118-130 ReadVirtualMemoryBlock *)
Definition ReadVirtualMemoryBlock (vma : Z) (object : Z -> Dest) (count : Z) : Emu unit :=
  p <- gets ps ;;
  if in_stack_cache p vma then
    if count <? 0 then out_of_fuel else read_words (Z.to_nat count) vma 0 object
  else VirtualMemoryReadBlock vma object count.

Fixpoint write_words (n : nat) (vma k : Z) (object : Z -> Emu LispObj) : Emu unit :=
  match n with
  | O => ret tt
  | S n' =>
      o <- object k ;; WriteVirtualMemory vma o ;; write_words n' (u32 (vma + 1)) (k + 1) object
  end.

(* c-emulator/emulator.c:132-143 WriteVirtualMemoryBlock *)
Definition WriteVirtualMemoryBlock (vma : Z) (object : Z -> Emu LispObj) (count : Z) : Emu unit :=
  p <- gets ps ;;
  if in_stack_cache p vma then
    if count <? 0 then out_of_fuel else write_words (Z.to_nat count) vma 0 object
  else VirtualMemoryWriteBlock vma object count.

(** ** Scrolling *)

(** [memcpy(&StackCache[dst*PageSize], &StackCache[src*PageSize], sizeof(LispObj [PageSize]))] *)
Definition copy_page (dst src : nat) (l : list LispObj) : list LispObj :=
  take (dst * 256) l ++ take 256 (drop (src * 256) l) ++ drop (S dst * 256) l.

(** The subscripts of [for (i = (StackCacheSize - 1); i--; )]: 2, 1, 0. *)
Definition scroll_subscripts : list nat := [2%nat; 1%nat; 0%nat].

(* c-emulator/emulator.c:155-160 memcpy *)
Definition scroll_up_pages (l : list LispObj) : list LispObj :=
  fold_left (fun l i => copy_page i (S i) l) scroll_subscripts l.
(* c-emulator/emulator.c:174-179 memcpy *)
Definition scroll_down_pages (l : list LispObj) : list LispObj :=
  fold_left (fun l i => copy_page (S i) i l) scroll_subscripts l.

Definition move_frame (n : Z) (p : ProcessorState) : ProcessorState :=
  set_ps_fp (ps_fp p + n) (set_ps_sp (ps_sp p + n) (set_ps_lp (ps_lp p + n)
    (set_StackCacheBase (u32 (StackCacheBase p - n)) p))).

(* c-emulator/emulator.c:145-165 StackCacheScrollUp *)
Definition StackCacheScrollUp : Emu unit :=
  base <- get_ps StackCacheBase ;;
  VirtualMemoryWriteBlock base stack_get PageSize ;;
  assign_ps (fun p => set_StackCache (scroll_up_pages (StackCache p)) p) ;;
  assign_ps (move_frame (- PageSize)).

(* c-emulator/emulator.c:167-185 StackCacheScrollDown *)
Definition StackCacheScrollDown : Emu unit :=
  assign_ps (fun p => set_StackCache (scroll_down_pages (StackCache p)) p) ;;
  assign_ps (move_frame PageSize) ;;
  base <- get_ps StackCacheBase ;;
  VirtualMemoryReadBlock base to_stack PageSize.

(** ** Ephemeral and oldspace tests *)

(* c-emulator/emulator.c:187-190 EphemeralP *)
Definition EphemeralP (o : LispObj) : Emu bool :=
  p <- of_option (PointerTypeP (TagType (TAG o))) ;;
  ret (p && EphemeralAddressP (DATA o)).

(** The register is shifted by a six-bit demilevel: undefined from 32 on. *)
(* c-emulator/emulator.c:192-202 OldspaceAddressP *)
Definition OldspaceAddressP (vma : Z) : Emu bool :=
  p <- gets ps ;;
  let zone := ReadVMAZoneNum vma in
  if zone =? 0 then
    let demilevel := ReadVMAEphemeralDemilevel vma in
    if demilevel <? 32 then
      ret (ReadVMAEphemeralHalf vma =?
           Z.land (Z.shiftr (EphemeralOldspaceRegister p) demilevel) 1)
    else undefined
  else ret (negb (Z.land (ZoneOldspaceRegister p) (u32 (Z.shiftl 1 zone)) =? 0)).

(* c-emulator/emulator.c:204-207 OldspaceP *)
Definition OldspaceP (o : LispObj) : Emu bool :=
  p <- of_option (PointerTypeP (TagType (TAG o))) ;;
  if (p : bool) then OldspaceAddressP (DATA o) else ret false.

(** ** Memory cycles *)

Definition CycleDataRead : Z := 0. (* c-emulator/emulator.h:164 *)
Definition CycleDataWrite : Z := 1. (* c-emulator/emulator.h:165 *)
Definition CycleBindRead : Z := 2. (* c-emulator/emulator.h:166 *)
Definition CycleBindWrite : Z := 3. (* c-emulator/emulator.h:167 *)
Definition CycleBindReadNoMonitor : Z := 4. (* c-emulator/emulator.h:168 *)
Definition CycleBindWriteNoMonitor : Z := 5. (* c-emulator/emulator.h:169 *)
Definition CycleHeader : Z := 6. (* c-emulator/emulator.h:170 *)
Definition CycleStructureOffset : Z := 7. (* c-emulator/emulator.h:171 *)
Definition CycleScavenge : Z := 8. (* c-emulator/emulator.h:172 *)
Definition CycleCdr : Z := 9. (* c-emulator/emulator.h:173 *)
Definition CycleGCCopy : Z := 10. (* c-emulator/emulator.h:174 *)
Definition CycleRaw : Z := 11. (* c-emulator/emulator.h:175 *)
Definition CycleRawTranslate : Z := 12. (* c-emulator/emulator.h:176 *)

Definition MemoryActionIndirect : Z := 1. (* c-emulator/emulator.h:179 *)
Definition MemoryActionMonitor : Z := 2. (* c-emulator/emulator.h:180 *)
Definition MemoryActionTransport : Z := 4. (* c-emulator/emulator.h:181 *)
Definition MemoryActionTrap : Z := 8. (* c-emulator/emulator.h:182 *)
Definition MemoryActionTransform : Z := 16. (* c-emulator/emulator.h:183 *)
Definition MemoryActionBinding : Z := 32. (* c-emulator/emulator.h:184 *)

(** The twelve rows of 64 actions, one after the other. *)
(* c-emulator/emulator.c:209-271 MemoryActionTable *)
Definition MemoryActionTable : list Z :=
  [ 12; 6; 12; 8; 5; 5; 5; 5; 0; 0; 0; 4; 4; 4; 4; 4;
    4; 4; 4; 4; 4; 4; 4; 4; 4; 4; 4; 4; 4; 4; 4; 4;
    0; 0; 36; 0; 20; 8; 4; 4; 4; 4; 4; 4; 4; 4; 4; 4;
    0; 0; 0; 0; 0; 0; 0; 0; 0; 0; 0; 0; 0; 0; 0; 0 ] ++
  [ 0; 6; 8; 8; 5; 5; 5; 5; 0; 0; 0; 0; 0; 0; 0; 0;
    0; 0; 0; 0; 0; 0; 0; 0; 0; 0; 0; 0; 0; 0; 0; 0;
    0; 0; 36; 0; 0; 8; 0; 0; 0; 0; 0; 0; 0; 0; 0; 0;
    0; 0; 0; 0; 0; 0; 0; 0; 0; 0; 0; 0; 0; 0; 0; 0 ] ++
  [ 4; 6; 12; 8; 4; 5; 5; 5; 0; 0; 0; 4; 4; 4; 4; 4;
    4; 4; 4; 4; 4; 4; 4; 4; 4; 4; 4; 4; 4; 4; 4; 4;
    0; 0; 4; 0; 4; 8; 4; 4; 4; 4; 4; 4; 4; 4; 4; 4;
    0; 0; 0; 0; 0; 0; 0; 0; 0; 0; 0; 0; 0; 0; 0; 0 ] ++
  [ 0; 6; 8; 8; 0; 5; 5; 5; 0; 0; 0; 0; 0; 0; 0; 0;
    0; 0; 0; 0; 0; 0; 0; 0; 0; 0; 0; 0; 0; 0; 0; 0;
    0; 0; 0; 0; 0; 8; 0; 0; 0; 0; 0; 0; 0; 0; 0; 0;
    0; 0; 0; 0; 0; 0; 0; 0; 0; 0; 0; 0; 0; 0; 0; 0 ] ++
  [ 4; 5; 12; 8; 4; 5; 5; 5; 0; 0; 0; 4; 4; 4; 4; 4;
    4; 4; 4; 4; 4; 4; 4; 4; 4; 4; 4; 4; 4; 4; 4; 4;
    0; 0; 4; 0; 4; 8; 4; 4; 4; 4; 4; 4; 4; 4; 4; 4;
    0; 0; 0; 0; 0; 0; 0; 0; 0; 0; 0; 0; 0; 0; 0; 0 ] ++
  [ 0; 5; 8; 8; 0; 5; 5; 5; 0; 0; 0; 0; 0; 0; 0; 0;
    0; 0; 0; 0; 0; 0; 0; 0; 0; 0; 0; 0; 0; 0; 0; 0;
    0; 0; 0; 0; 0; 8; 0; 0; 0; 0; 0; 0; 0; 0; 0; 0;
    0; 0; 0; 0; 0; 0; 0; 0; 0; 0; 0; 0; 0; 0; 0; 0 ] ++
  [ 12; 12; 4; 0; 12; 12; 5; 12; 8; 8; 8; 12; 12; 12; 12; 12;
    12; 12; 12; 12; 12; 12; 12; 12; 12; 12; 12; 12; 12; 12; 12; 12;
    8; 8; 12; 8; 12; 8; 12; 12; 12; 12; 12; 12; 12; 12; 12; 12;
    8; 8; 8; 8; 8; 8; 8; 8; 8; 8; 8; 8; 8; 8; 8; 8 ] ++
  [ 0; 0; 0; 0; 0; 0; 5; 0; 0; 0; 0; 0; 0; 0; 0; 0;
    0; 0; 0; 0; 0; 0; 0; 0; 0; 0; 0; 0; 0; 0; 0; 0;
    0; 0; 0; 0; 0; 8; 0; 0; 0; 0; 0; 0; 0; 0; 0; 0;
    0; 0; 0; 0; 0; 0; 0; 0; 0; 0; 0; 0; 0; 0; 0; 0 ] ++
  [ 4; 4; 4; 0; 4; 4; 4; 4; 0; 0; 0; 4; 4; 4; 4; 4;
    4; 4; 4; 4; 4; 4; 4; 4; 4; 4; 4; 4; 4; 4; 4; 4;
    0; 0; 4; 0; 4; 8; 4; 4; 4; 4; 4; 4; 4; 4; 4; 4;
    0; 0; 0; 0; 0; 0; 0; 0; 0; 0; 0; 0; 0; 0; 0; 0 ] ++
  [ 0; 0; 8; 8; 0; 0; 5; 5; 0; 0; 0; 0; 0; 0; 0; 0;
    0; 0; 0; 0; 0; 0; 0; 0; 0; 0; 0; 0; 0; 0; 0; 0;
    0; 0; 0; 0; 0; 8; 0; 0; 0; 0; 0; 0; 0; 0; 0; 0;
    0; 0; 0; 0; 0; 0; 0; 0; 0; 0; 0; 0; 0; 0; 0; 0 ] ++
  [ 0; 0; 0; 0; 0; 0; 0; 0; 0; 0; 0; 0; 0; 0; 0; 0;
    0; 0; 0; 0; 0; 0; 0; 0; 0; 0; 0; 0; 0; 0; 0; 0;
    0; 0; 0; 0; 0; 8; 0; 0; 0; 0; 0; 0; 0; 0; 0; 0;
    0; 0; 0; 0; 0; 0; 0; 0; 0; 0; 0; 0; 0; 0; 0; 0 ] ++
  [ 0; 0; 0; 0; 0; 0; 0; 0; 0; 0; 0; 0; 0; 0; 0; 0;
    0; 0; 0; 0; 0; 0; 0; 0; 0; 0; 0; 0; 0; 0; 0; 0;
    0; 0; 0; 0; 0; 0; 0; 0; 0; 0; 0; 0; 0; 0; 0; 0;
    0; 0; 0; 0; 0; 0; 0; 0; 0; 0; 0; 0; 0; 0; 0; 0 ].

(** [row[k]] for [row = MemoryActionTable[cycle]]; a [k] above 63 runs on into the
    following rows, and there is no thirteenth row. *)
Definition memory_action (cycle k : Z) : option Z := nth_Z MemoryActionTable (cycle * 64 + k).

(** [if (action & (MemoryActionTransport|MemoryActionTrap) == MemoryActionTransport)]:
    C binds [==] tighter than [&]. *)
Definition transport_test (action : Z) : bool := (* c-emulator/emulator.c:282 MemoryActionTransport *)
  let equal := if Z.lor MemoryActionTransport MemoryActionTrap =? MemoryActionTransport
               then 1 else 0 in
  negb (Z.land action equal =? 0).

Section cycles.
Context {env : Environment}.

(** One turn of the loop: read the word and act on its type. *)
(* c-emulator/emulator.c:273-309 MemoryReadInternal *)
(* c-emulator/emulator.c:277-308 loop *)
Definition memory_read_turn (object : Dest) (cycle : Z) (vma : Z) : Emu (Z + Z * LispObj) :=
  o <- ReadVirtualMemory vma object ;;
  action <- of_option (memory_action cycle (TagType (TAG o))) ;;
  (if transport_test action then
     b <- OldspaceAddressP (DATA o) ;;
     if (b : bool) then TakeMemoryTrap TransportTrapVector vma else ret tt
   else ret tt) ;;
  let a := Z.ldiff action MemoryActionTransport in
  if a =? 0 then ret (inr (vma, o))
  else if a =? MemoryActionTrap then TakeMemoryTrap ErrorTrapVector vma
  else if a =? MemoryActionTransform then
    let o' := set_TAG (MergeCdr (TAG o) TypeExternalValueCellPointer) o in
    object o' ;; ret (inr (vma, o'))
  else if a =? MemoryActionMonitor then TakeMemoryTrap MonitorTrapVector vma
  else if a =? MemoryActionIndirect then ret (inl (DATA o))
  else c_exit 1.

(** Returns the address of the word finally read and the word itself. *)
(* c-emulator/emulator.c:273-310 MemoryReadInternal *)
Definition MemoryReadInternal (vma : Z) (object : Dest) (cycle : Z) : Emu (Z * LispObj) :=
  loop loop_fuel (memory_read_turn object cycle) vma.

Definition MemoryRead (vma : Z) (object : Dest) (cycle : Z) : Emu (Z * LispObj) := (* c-emulator/emulator.h:190 *)
  MemoryReadInternal vma object cycle.
Definition MemoryReadData (vma : Z) (object : Dest) : Emu (Z * LispObj) := (* c-emulator/emulator.h:191 *)
  MemoryReadInternal vma object CycleDataRead.
Definition MemoryReadHeader (vma : Z) (object : Dest) : Emu (Z * LispObj) := (* c-emulator/emulator.h:192 *)
  MemoryReadInternal vma object CycleHeader.
Definition MemoryReadCdr (vma : Z) (object : Dest) : Emu (Z * LispObj) := (* c-emulator/emulator.h:193 *)
  MemoryReadInternal vma object CycleCdr.

(* c-emulator/emulator.c:312-321 StoreContentsInternal *)
Definition StoreContents (vma : Z) (object : LispObj) (cycle : Z) : Emu unit :=
  '(vma', dest) <- MemoryReadInternal vma to_local cycle ;;
  WriteVirtualMemory vma' (obj (MergeCdr (TAG dest) (TAG object)) (DATA object)).
End cycles.
