(* ===== verification/VMCoproc.v ===== *)
(** The virtual-memory coprocessor (c-emulator/memory.c, second part): searching,
    copying, scanning and enabling of memory ranges, and the command interpreter
    VMCommand that Lisp drives through the coprocessor registers. *)

From S2P Require Export MemAccess.
#[local] Open Scope vlm_scope.

(** ** Opcodes, commands and replies *)

Definition VMOpcodeLookup : Z := 0. (* c-emulator/memory.h:69 *)
Definition VMOpcodeCreate : Z := 1. (* c-emulator/memory.h:70 *)
Definition VMOpcodeDestroy : Z := 2. (* c-emulator/memory.h:71 *)
Definition VMOpcodeReadAttributes : Z := 3. (* c-emulator/memory.h:73 *)
Definition VMOpcodeWriteAttributes : Z := 4. (* c-emulator/memory.h:74 *)
Definition VMOpcodeFill : Z := 5. (* c-emulator/memory.h:76 *)
Definition VMOpcodeSearch : Z := 6. (* c-emulator/memory.h:77 *)
Definition VMOpcodeCopy : Z := 7. (* c-emulator/memory.h:78 *)
Definition VMOpcodeScan : Z := 8. (* c-emulator/memory.h:80 *)
Definition VMOpcodeEnable : Z := 9. (* c-emulator/memory.h:81 *)

Definition VMResultSuccess : Z := 0. (* c-emulator/memory.h:86 *)
Definition VMResultFailure : Z := 1. (* c-emulator/memory.h:87 *)

Definition VMCommandOpcode (command : Z) : Z := ldb 13 19 command. (* c-emulator/memory.h:90 *)
Definition VMCommandOperand (command : Z) : Z := ldb 19 0 command. (* c-emulator/memory.h:91 *)
Definition SetVMReplyResult (reply : Z) (result : bool) : Z := (* c-emulator/memory.h:93 *)
  dpb (if result then VMResultSuccess else VMResultFailure) 13 19 reply.

Definition VMRegisterCommand : Z := 576. (* c-emulator/memory.h:59 *)
Definition VMRegisterAddress : Z := 577. (* c-emulator/memory.h:60 *)
Definition VMRegisterExtent : Z := 578. (* c-emulator/memory.h:61 *)
Definition VMRegisterAttributes : Z := 579. (* c-emulator/memory.h:62 *)
Definition VMRegisterDestination : Z := 580. (* c-emulator/memory.h:63 *)
Definition VMRegisterData : Z := 581. (* c-emulator/memory.h:64 *)

(** [VMAttributeTable[vpn]]: the table has 2^19 entries. *)
Definition VMAttributeTableSize : Z := 2 ^ 19. (* c-emulator/memory.c:39 VMAttributeTable *)
Definition get_attribute (vpn : Z) : Emu Z :=
  if (0 <=? vpn) && (vpn <? VMAttributeTableSize)
  then gets (fun s => attribute_of (VMAttributeTable s) vpn) else undefined.
Definition put_attribute (vpn a : Z) : Emu unit :=
  if (0 <=? vpn) && (vpn <? VMAttributeTableSize)
  then modify (fun s => set_VMAttributeTable (<[vpn := u8 a]> (VMAttributeTable s)) s)
  else undefined.

(** ** Search *)

(** [memchr] looks at the tags one after the other; only a tag that matches moves
    [memory_vma], so a fault reports the previous match. *)
Fixpoint search_tags (n : nat) (i ctag cdata : Z) : Emu (option Z) :=
  match n with
  | O => ret None
  | S n' =>
      touch i ;;
      o <- gets (fun s => fetch s i) ;;
      if TAG o =? ctag then
        set_mem_vma i ;;
        if DATA o =? cdata then ret (Some i) else search_tags n' (i + 1) ctag cdata
      else search_tags n' (i + 1) ctag cdata
  end.

(** Returns the address found; the caller stores it through [vma]. *)
(* c-emulator/memory.c:229-252 VirtualMemorySearch *)
Definition VirtualMemorySearch (vma : Z) (object : LispObj) (count : Z) : Emu (option Z) :=
  search_tags (block_length vma count) vma (u8 (TAG object)) (DATA object).

(** ** Copy *)

Fixpoint touch_range (n : nat) (vma : Z) : Emu unit :=
  match n with
  | O => ret tt
  | S n' => touch vma ;; touch_range n' (vma + 1)
  end.

(** The words [from .. from + n) of [src], written over [to .. to + n) of [dst]. *)
Fixpoint move_words (n : nat) (from to : Z) (src dst : gmap Z Z) : gmap Z Z :=
  match n with
  | O => dst
  | S n' => <[to := default 0 (src !! from)]> (move_words n' (from + 1) (to + 1) src dst)
  end.

(** [memmove] of the tags and of the data.  When a page is missing nothing has been
    moved: how far memmove gets before it faults is not specified. *)
Definition copy_raw (from to count : Z) : Emu unit :=
  if count <? 0 then undefined else
  touch_range (Z.to_nat count) from ;;
  touch_range (Z.to_nat count) to ;;
  modify (fun s => set_TagSpace (move_words (Z.to_nat count) from to (TagSpace s) (TagSpace s)) s) ;;
  modify (fun s => set_DataSpace (move_words (Z.to_nat count) from to (DataSpace s) (DataSpace s)) s).

Section coprocessor.
Context {env : Environment}.

(** The row is indexed by the whole tag, cdr code included. *)
(* c-emulator/memory.c:275-299 MemoryReadInternal *)
Fixpoint copy_cycle (n : nat) (from to cycle : Z) : Emu unit :=
  match n with
  | O => ret tt
  | S n' =>
      touch from ;;
      w <- gets (fun s => fetch s from) ;;
      action <- of_option (memory_action cycle (TAG w)) ;;
      (if transport_test action then
         b <- OldspaceAddressP (DATA w) ;;
         if (b : bool) then TakeMemoryTrap TransportTrapVector (DATA w) else ret tt
       else ret tt) ;;
      o <- (if action =? 0 then ret w
            else '(_, o) <- MemoryReadInternal from to_local cycle ;; ret o) ;;
      touch to ;;
      store_tag to (TAG o) ;;
      store_data to (DATA o) ;;
      v <- gets memory_vma ;; set_mem_vma (v + 1) ;;
      copy_cycle n' (from + 1) (to + 1) cycle
  end.

(** [cycle] selects the row; the result is always 0. *)
(* c-emulator/memory.c:254-302 VirtualMemoryCopy *)
Definition VirtualMemoryCopy (from to count cycle : Z) : Emu Z :=
  set_mem_vma from ;;
  (if cycle =? CycleRaw then copy_raw from to count
   else copy_cycle (block_length from count) from to cycle) ;;
  ret 0.

(** ** Scan and enable *)

Fixpoint scan_page (n : nat) (i : Z) : Emu (option Z) :=
  match n with
  | O => ret None
  | S n' =>
      touch i ;;
      w <- gets (fun s => fetch s i) ;;
      p <- of_option (PointerTypeP (TAG w)) ;;
      b <- (if (p : bool) then OldspaceAddressP (DATA w) else ret false) ;;
      if (b : bool) then ret (Some i) else scan_page n' (i + 1)
  end.

(** One page per turn, from the start of the page of [vma]. *)
Fixpoint scan_pages (n : nat) (vpn count : Z) : Emu (option Z) :=
  match n with
  | O => ret None
  | S n' =>
      a <- get_attribute vpn ;;
      found <- (if VMTransportFault a then
                  let scanvma := PageNumberMemory vpn in
                  scan_page (block_length scanvma (Z.min MemoryPageSize count)) scanvma
                else ret None) ;;
      match found with
      | Some i => ret (Some i)
      | None => scan_pages n' (vpn + 1) (count - MemoryPageSize)
      end
  end.

(* c-emulator/memory.c:304-327 VirtualMemoryScan *)
Definition VirtualMemoryScan (vma count : Z) : Emu (option Z) :=
  scan_pages (Z.to_nat (ceiling count MemoryPageSize)) (MemoryPageNumber vma) count.

Fixpoint enable_pages (n : nat) (vpn : Z) : Emu unit :=
  match n with
  | O => ret tt
  | S n' =>
      a <- get_attribute vpn ;;
      when (VMExists a && negb (VMTransportDisable a)) (put_attribute vpn (SetVMTransportFault a)) ;;
      enable_pages n' (vpn + 1)
  end.

(* c-emulator/memory.c:329-340 VirtualMemoryEnable *)
Definition VirtualMemoryEnable (vma count : Z) : Emu unit :=
  let attr := MemoryPageNumber vma in
  let eattr := MemoryPageNumber (u32 (vma + count)) in
  enable_pages (Z.to_nat (eattr - attr)) attr.

(** ** Commands *)

(** The extent register is passed as an [int]; [WriteAttributes] also sets the
    exists bit of the register itself.  An unknown opcode returns no value. *)
(* c-emulator/memory.c:344-423 VMCommand *)
Definition VMCommand (command : Z) : Emu Z :=
  vm <- gets VM ;;
  let opcode := VMCommandOpcode command in
  let operand := VMCommandOperand command in
  let address := AddressRegister vm in
  let extent := s32 (ExtentRegister vm) in
  if opcode =? VMOpcodeLookup then
    let vpn := MemoryPageNumber address in
    a <- get_attribute vpn ;; ret (SetVMReplyResult vpn (VMExists a))
  else if opcode =? VMOpcodeCreate then
    EnsureVirtualAddressRange address extent ;; ret (SetVMReplyResult 0 true)
  else if opcode =? VMOpcodeDestroy then
    DestroyVirtualAddressRange address extent ;; ret (SetVMReplyResult 0 true)
  else if opcode =? VMOpcodeReadAttributes then
    attr <- get_attribute operand ;;
    if VMExists attr then
      assign_VM (set_AttributesRegister attr) ;; ret (SetVMReplyResult command true)
    else ret (SetVMReplyResult command false)
  else if opcode =? VMOpcodeWriteAttributes then
    attr <- get_attribute operand ;;
    if VMExists attr then
      assign_VM (fun v => set_AttributesRegister (SetVMExists (AttributesRegister v)) v) ;;
      a <- gets (fun s => AttributesRegister (VM s)) ;;
      put_attribute operand a ;;
      ret (SetVMReplyResult command true)
    else ret (SetVMReplyResult command false)
  else if opcode =? VMOpcodeFill then
    VirtualMemoryWriteBlockConstant address (DataRegister vm) extent operand ;;
    ret (SetVMReplyResult 0 true)
  else if opcode =? VMOpcodeSearch then
    r <- VirtualMemorySearch address (DataRegister vm) extent ;;
    match r with
    | Some vma => assign_VM (set_AddressRegister vma) ;; ret (SetVMReplyResult 0 true)
    | None => ret (SetVMReplyResult 0 false)
    end
  else if opcode =? VMOpcodeCopy then
    result <- VirtualMemoryCopy address (DestinationRegister vm) extent operand ;;
    ret (SetVMReplyResult 0 (negb (result =? 0)))
  else if opcode =? VMOpcodeScan then
    r <- VirtualMemoryScan address extent ;;
    match r with
    | Some vma => assign_VM (set_AddressRegister vma) ;; ret (SetVMReplyResult 0 true)
    | None => ret (SetVMReplyResult 0 false)
    end
  else if opcode =? VMOpcodeEnable then
    VirtualMemoryEnable address extent ;; ret (SetVMReplyResult 0 true)
  else undefined.
End coprocessor.
