(* ===== verification/ListOps.v ===== *)
(** Cdr-coded lists: the routines CarInternal, CdrInternal and CarCdrInternal of
    c-emulator/emulator.c. *)

From S2P Require Export MemAccess.
#[local] Open Scope vlm_scope.

(** [o->TAG &= TagTypeMask] *)
Definition strip_cdr (o : LispObj) : LispObj := MkObj (TagType (TAG o)) (DATA o).

Section lists.
Context {env : Environment}.

(** The C routines return 0 on success and 1 on a wrong type; here [Some v], the
    value stored through [result], and [None]. *)
(* c-emulator/emulator.c:328-346 CarInternal *)
Definition CarInternal (l : LispObj) (result : Dest) : Emu (option LispObj) :=
  let t := TagType (TAG l) in
  if t =? TypeList then
    '(_, o) <- MemoryReadData (DATA l) result ;;
    result (strip_cdr o) ;; ret (Some (strip_cdr o))
  else if t =? TypeNIL then result ObjectNIL ;; ret (Some ObjectNIL)
  else if t =? TypeLocative then
    '(_, o) <- MemoryReadData (DATA l) result ;;
    result (strip_cdr o) ;; ret (Some (strip_cdr o))
  else ret None.

(* c-emulator/emulator.c:351-385 CdrInternal *)
Definition CdrInternal (l : LispObj) (result : Dest) : Emu (option LispObj) :=
  let t := TagType (TAG l) in
  if t =? TypeList then
    '(vma, cdr) <- MemoryReadCdr (DATA l) to_local ;;
    let c := TagCdr (TAG cdr) in
    if c =? CdrNil then result ObjectNIL ;; ret (Some ObjectNIL)
    else if c =? CdrNext then
      let o := obj TypeList (vma + 1) in result o ;; ret (Some o)
    else if c =? CdrNormal then
      '(_, o) <- MemoryReadData (u32 (vma + 1)) result ;;
      result (strip_cdr o) ;; ret (Some (strip_cdr o))
    else ret None
  else if t =? TypeNIL then result ObjectNIL ;; ret (Some ObjectNIL)
  else if t =? TypeLocative then
    '(_, o) <- MemoryReadData (DATA l) result ;;
    result (strip_cdr o) ;; ret (Some (strip_cdr o))
  else ret None.

(** [car] and [cdr] are locals of every caller. *)
(* c-emulator/emulator.c:390-402 CarCdrInternal *)
Definition CarCdrInternal (l : LispObj) : Emu (option (LispObj * LispObj)) :=
  if TypeEqualP (TAG l) TypeLocative then ret None else
  a <- CarInternal l to_local ;;
  match a with
  | None => ret None
  | Some car =>
      d <- CdrInternal l to_local ;;
      match d with
      | None => ret None
      | Some cdr => ret (Some (car, cdr))
      end
  end.
End lists.
