(* ===== verification/ArrayOps.v ===== *)
(** Arrays and instances: the routines Aref1Internal, Aset1Internal,
    RecomputeArrayRegister, LocateInstanceVariableMapped and
    LocateArbitraryInstanceVariable of c-emulator/emulator.c. *)

From S2P Require Export MemAccess.
#[local] Open Scope vlm_scope.

Section arrays.
Context {env : Environment}.

(* c-emulator/emulator.c:410-447 Aref1Internal *)
Definition Aref1Internal (vma packing offset type index : Z) (result : Dest) : Emu unit :=
  if (type =? ArrayElementTypeObject) && (packing =? 0) then
    '(_, q) <- MemoryReadData (u32 (vma + index)) to_local ;;
    result (StoreCdrNext q)
  else
  let index := s32 (index + offset) in
  let addr := u32 (vma + Z.shiftr index packing) in
  '(_, q) <- MemoryReadData addr to_local ;;
  if negb (TypeFixnumP (TAG q)) then TakeMemoryTrap ErrorTrapVector addr else
  data <- (if packing =? 0 then ret (DATA q)
           else of_option (ArrayElementLdb packing index (DATA q))) ;;
  if type =? ArrayElementTypeFixnum then result (obj TypeFixnum data)
  else if type =? ArrayElementTypeCharacter then result (obj TypeCharacter data)
  else if type =? ArrayElementTypeBoolean then
    result (if data =? 0 then ObjectNIL else ObjectT)
  else TakeMemoryTrap ErrorTrapVector (u32 (vma - 1)).

(** The switch on the element type of [Aset1Internal]: checks the value, which
    lives at stack subscript [value], and computes the datum to store. *)
(* c-emulator/emulator.c:465-486 ArrayElementTypeFixnum *)
Definition aset_datum (vma packing type value : Z) (v : LispObj) : Emu Z :=
  if type =? ArrayElementTypeFixnum then
    if negb (TypeFixnumP (TAG v)) then TakeIllegalOperandTrap 0 value else ret (DATA v)
  else if type =? ArrayElementTypeCharacter then
    if negb (TypeEqualP (TAG v) TypeCharacter) then TakeIllegalOperandTrap 0 value else
    d <- of_option (ArrayElementLdb packing 0 (DATA v)) ;;
    if negb (d =? DATA v) then TakeIllegalOperandTrap 0 value else ret (DATA v)
  else if type =? ArrayElementTypeBoolean then
    ret (if TypeEqualP (TAG v) TypeNIL then 0 else u32 (-1))
  else TakeMemoryTrap ErrorTrapVector (u32 (vma - 1)).

(* c-emulator/emulator.c:453-496 Aset1Internal *)
Definition Aset1Internal (vma packing offset type index value : Z) : Emu unit :=
  v <- stack_get value ;;
  if (type =? ArrayElementTypeObject) && (packing =? 0) then
    StoreContents (u32 (vma + index)) v CycleDataWrite
  else
  data <- aset_datum vma packing type value v ;;
  let index := s32 (index + offset) in
  '(addr, q) <- MemoryReadData (u32 (vma + Z.shiftr index packing)) to_local ;;
  if negb (TypeFixnumP (TAG q)) then TakeMemoryTrap ErrorTrapVector addr else
  d <- (if packing =? 0 then ret data
        else of_option (ArrayElementDpb data packing index (DATA q))) ;;
  WriteVirtualMemory addr (set_DATA d q).

(** [areg] is the subscript of the control word of an array register. *)
(* c-emulator/emulator.c:498-524 RecomputeArrayRegister *)
Definition RecomputeArrayRegister (areg count : Z) : Emu unit :=
  a <- stack_get (areg - 1) ;;
  let t := TagType (TAG a) in
  if (t =? TypeArray) || (t =? TypeString) then
    '(vma, header) <- MemoryReadHeader (DATA a) to_local ;;
    if negb (TAG header =? ArrayHeaderTag) then TakeIllegalOperandTrap 0 areg else
    if ArrayLongPrefixP (DATA header) then TakeInstructionExceptionTrap else
    stack_set_DATA areg (SetArrayRegisterEventCount count (DATA header)) ;;
    stack_set_DATA (areg + 1) (vma + 1) ;;
    stack_set_DATA (areg + 2) (ArrayShortLength (DATA header))
  else if (t =? TypeArrayInstance) || (t =? TypeStringInstance) then
    TakeInstructionExceptionTrap
  else if TypeSpareP (TAG a) then TakeInstructionExceptionTrap
  else TakeIllegalOperandTrap 0 areg.

(** ** Instances *)

Definition instance_type_p (tag : Z) : bool := ldb 4 2 tag =? ldb 4 2 TypeInstance. (* c-emulator/emulator.c:541 TypeInstance *)

(** [map] and [self] are stack subscripts. *)
(* c-emulator/emulator.c:528-549 LocateInstanceVariableMapped *)
Definition LocateInstanceVariableMapped (map self n : Z) : Emu Z :=
  m <- stack_get map ;;
  if negb (TypeEqualP (TAG m) TypeArray) then TakeIllegalOperandTrap 0 map else
  '(_, header) <- MemoryReadHeader (DATA m) to_local ;;
  if ArrayShortLength (DATA header) <=? u32 n then TakeIllegalOperandTrap 0 map else
  '(_, offset) <- MemoryReadData (u32 (DATA m + n + 1)) to_local ;;
  if negb (TypeFixnumP (TAG offset)) then TakeInstructionExceptionTrap else
  o <- stack_get self ;;
  if negb (instance_type_p (TAG o)) then TakeIllegalOperandTrap 0 self else
  if TagCdr (TAG o) =? 1 then ret (u32 (DATA o + DATA offset)) else
  '(vma, _) <- MemoryReadHeader (DATA o) to_local ;;
  when (vma =? DATA o) (stack_set_TAG self (SetTagCdr (TAG o) 1)) ;;
  ret (u32 (vma + DATA offset)).

(* c-emulator/emulator.c:551-569 LocateArbitraryInstanceVariable *)
Definition LocateArbitraryInstanceVariable (instance : Z) (offset : Operand) : Emu Z :=
  i <- stack_get instance ;;
  off <- operand_get offset ;;
  k <- operand_index offset ;;
  if negb (instance_type_p (TAG i)) then
    if TypeSpareP (TAG i) then TakeInstructionExceptionTrap
    else TakeIllegalOperandTrap 0 instance
  else
  if negb (TypeFixnumP (TAG off)) then TakeIllegalOperandTrap 0 k else
  '(vma, flavor) <- MemoryReadHeader (DATA i) to_local ;;
  '(_, size) <- MemoryReadData (u32 (DATA flavor - 1)) to_local ;;
  if negb (TypeFixnumP (TAG size)) || (DATA size <=? DATA off)
  then TakeIllegalOperandTrap 0 k
  else ret (u32 (vma + DATA off)).
End arrays.
