(* ===== verification/Alu.v ===== *)
(** The ALU (c-emulator/emulator.c, lines 665 to 803): the boolean, byte and adder
    function classes and the condition codes. *)

From S2P Require Export MemAccess.
#[local] Open Scope vlm_scope.

(* c-emulator/emulator.c:667-688 ALUFunctionBoolean *)
Definition ALUFunctionBoolean (ALU op1 op2 : Z) : Z :=
  let f := ReadALUBooleanFunction ALU in
  if f =? BooleClear then 0
  else if f =? BooleAnd then Z.land op1 op2
  else if f =? BooleAndC1 then u32 (Z.land (Z.lnot op1) op2)
  else if f =? Boole2 then op2
  else if f =? BooleAndC2 then u32 (Z.land op1 (Z.lnot op2))
  else if f =? Boole1 then op1
  else if f =? BooleXor then Z.lxor op1 op2
  else if f =? BooleIor then Z.lor op1 op2
  else if f =? BooleNor then u32 (Z.lnot (Z.lor op1 op2))
  else if f =? BooleEquiv then u32 (Z.lnot (Z.lxor op1 op2))
  else if f =? BooleC1 then u32 (Z.lnot op1)
  else if f =? BooleOrC1 then u32 (Z.lor (Z.lnot op1) op2)
  else if f =? BooleC2 then u32 (Z.lnot op2)
  else if f =? BooleOrC2 then u32 (Z.lor op1 (Z.lnot op2))
  else if f =? BooleNand then u32 (Z.lnot (Z.land op1 op2))
  else u32 (-1).

(** The byte mask [~(-2 << size)]. *)
Definition byte_mask (size : Z) : Z := Z.lnot (Z.shiftl (-2) size). (* c-emulator/emulator.c:717 mask *)

(** Background 3 is no case of the switch: the variable stays uninitialised. *)
(* c-emulator/emulator.c:690-722 ALUFunctionByte *)
Definition ALUFunctionByte (ALU op1 op2 : Z) : Emu Z :=
  p <- gets ps ;;
  let rotate := ByteRotate p in
  let size := ByteSize p in
  let b := ReadALUByteBackground ALU in
  background <- (if b =? ALUByteBackgroundOp1 then ret op1
                 else if b =? ALUByteBackgroundRotateLatch then ret (RotateLatch p)
                 else if b =? ALUByteBackgroundZero then ret 0
                 else undefined) ;;
  let latch := negb (ReadALUByteRotateLatch ALU =? 0) in
  let left := u32 (Z.shiftl op2 rotate) in
  let right := Z.shiftr op2 (Z.land (32 - rotate) 31) in
  if ReadALUByteFunction ALU =? ALUByteFunctionDpb then
    let rotated := left in
    let mask := u32 (Z.shiftl (byte_mask size) rotate) in
    when latch (assign_ps (set_RotateLatch (Z.lor rotated right))) ;;
    ret (u32 (Z.lor (Z.land rotated mask) (Z.land background (Z.lnot mask))))
  else
    let rotated := right in
    let mask := u32 (byte_mask size) in
    when latch (assign_ps (set_RotateLatch (Z.lor rotated left))) ;;
    ret (u32 (Z.lor (Z.land rotated mask) (Z.land background (Z.lnot mask)))).

(** The switch of ALUFunctionAdder has no break after [Zero] and [Invert]: each of
    them falls through to the assignments below it. *)
Definition adder_op2 (ALU op2 : Z) : Z := (* c-emulator/emulator.c:729-735 ALUAdderOp2Zero *)
  let f := ReadALUAdderOp2 ALU in
  if f =? ALUAdderOp2Op2 then op2
  else
    let op2 := if f =? ALUAdderOp2Zero then 0 else op2 in
    let op2 := if (f =? ALUAdderOp2Zero) || (f =? ALUAdderOp2Invert) then u32 (- op2) else op2 in
    u32 (-1).

(** [op1], [op2] and the comparisons are unsigned ([Integer]); [op2 >= 0] is true. *)
(* c-emulator/emulator.c:724-742 ALUFunctionAdder *)
Definition ALUFunctionAdder (ALU op1 op2 : Z) : Emu Z :=
  let op2 := adder_op2 ALU op2 in
  let sum := u32 (op1 + op2 + ReadALUAdderCarryIn ALU) in
  assign_ps (set_ALUOverflow (negb (Bool.eqb (op1 <=? sum) (0 <=? op2)))) ;;
  assign_ps (set_ALUBorrow (op1 <? op2)) ;;
  assign_ps (set_ALULessThan (op1 <? op2)) ;;
  ret sum.

(** Prints a message and returns no value. *)
(* c-emulator/emulator.c:743-746 ALUFunctionMultiplyDivide *)
Definition ALUFunctionMultiplyDivide : Emu Z := undefined.

(** The call through the pointer [ps->AluOp], initially null. *)
Definition call_AluOp (c : option ALUClass) (ALU op1 op2 : Z) : Emu Z :=
  match c with
  | Some ALUFunctionBoolean_class => ret (ALUFunctionBoolean ALU op1 op2)
  | Some ALUFunctionByte_class => ALUFunctionByte ALU op1 op2
  | Some ALUFunctionAdder_class => ALUFunctionAdder ALU op1 op2
  | Some ALUFunctionMultiplyDivide_class => ALUFunctionMultiplyDivide
  | None => undefined
  end.

(** [result] is a C [int].  The conditions that print "Unimplemented Condition" end
    without returning a value. *)
(* c-emulator/emulator.c:756-817 ALUComputeCondition *)
Definition ALUComputeCondition (ALU : Z) (op1 op2 : LispObj) (result : Z) : Emu bool :=
  p <- gets ps ;;
  let c := ReadALUCondition ALU in
  if c =? ConditionSignedLessThanOrEqual then ret (ALULessThan p || (result =? 0))
  else if c =? ConditionSignedLessThan then ret (ALULessThan p)
  else if c =? ConditionNegative then ret (result <? 0)
  else if c =? ConditionSignedOverflow then ret (ALUOverflow p)
  else if c =? ConditionUnsignedLessThanOrEqual then ret (ALUBorrow p || (result =? 0))
  else if c =? ConditionUnsignedLessThan then ret (ALUBorrow p)
  else if c =? ConditionZero then ret (result =? 0)
  else if c =? ConditionHigh25Zero then ret (ldb 25 7 result =? 0)
  else if c =? ConditionEq then ret (ObjectEqP op1 op2)
  else if c =? ConditionOp1Ephemeralp then EphemeralP op1
  else if c =? ConditionResultTypeNil then ret (TypeEqualP (TAG op1) TypeNIL)
  else if c =? ConditionOp2Fixnum then ret (TypeFixnumP (TAG op2))
  else if c =? ConditionFalse then ret false
  else if c =? ConditionResultCdrLow then ret (negb (Z.land (TagCdr (TAG op1)) 1 =? 0))
  else if c =? ConditionCleanupBitsSet then ret (negb (ReadControlCleanupBits (control p) =? 0))
  else if c =? ConditionAddressInStackCache then ret (in_stack_cache p (DATA op1))
  else if c =? ConditionExtraStackMode then ret (ReadControlTrapMode (control p) =? 0)
  else if c =? ConditionFepMode then ret (ReadControlTrapMode (control p) =? 3)
  else if c =? ConditionFpCoprocessorPresent then ret false
  else if c =? ConditionOp1Oldspacep then OldspaceP op1
  else undefined.
