(* ===== verification/Bindings.v ===== *)
(** Dynamic bindings and the apply-arguments routine (c-emulator/emulator.c): Unbind
    and PullApplyArgsQuickly, which work on the saved registers of the processor. *)

From S2P Require Export MemAccess.
#[local] Open Scope vlm_scope.

Section bindings.
Context {env : Environment}.

(** [false] when the frame has no bindings to undo. *)
(* c-emulator/emulator.c:645-663 Unbind *)
Definition Unbind : Emu bool :=
  p <- gets ps ;;
  let bsp := BindingStackPointer p in
  if ReadControlCleanupBindings (control p) =? 0 then ret false else
  '(_, old) <- MemoryRead bsp to_local CycleBindRead ;;
  '(_, loc) <- MemoryRead (u32 (bsp - 1)) to_local CycleBindRead ;;
  StoreContents (DATA loc) old CycleBindWrite ;;
  assign_ps (set_BindingStackPointer (u32 (bsp - 2))) ;;
  put_control (fun c => WriteControlCleanupBindings c (ldb 1 6 (TAG loc))) ;;
  p' <- get_ps PreemptRegister ;;
  when (negb (ldb 1 1 p' =? 0)) (assign_ps (set_PreemptRegister (Z.lor p' 1))) ;;
  ret true.

(** ** Pulling arguments of APPLY *)

(** The stack pointer, the rest pointer and the number of arguments pulled. *)
Record Pull := MkPull { pull_sp : Z; pull_rest : Z; pull_i : Z }.

(** The common end: [i] arguments pulled, [sp] the new top. *)
Definition pull_done (sp supplied i : Z) (applied : bool) : Emu unit :=
  when applied (put_control (fun c => WriteControlApply c 0)) ;;
  put_control (fun c => WriteControlArgumentSize c (supplied + i)) ;;
  assign_ps (fun p => set_ps_lp (ps_lp p + i) p) ;;
  assign_ps (set_ps_sp sp).

(** The label [trap]: push what is left of the list. *)
Definition pull_trap (st : Pull) (supplied count : Z) : Emu Z :=
  base <- get_ps StackCacheBase ;;
  let sp := pull_sp st + 1 in
  stack_put sp (obj TypeList (base + pull_rest st)) ;;
  pull_done sp supplied (pull_i st) false ;;
  ret (count - pull_i st).

(* c-emulator/emulator.c:579-632 CdrNext *)
Definition pull_turn (supplied count : Z) (st : Pull) : Emu (Pull + Z) :=
  if pull_i st <? count then
    limit <- get_ps StackCacheLimit ;;
    st <- (if limit <=? pull_sp st then
             assign_ps (set_ps_sp (pull_sp st)) ;;
             StackCacheScrollUp ;;
             sp' <- get_ps ps_sp ;;
             ret (MkPull sp' (pull_rest st + (sp' - pull_sp st)) (pull_i st))
           else ret st) ;;
    let sp := pull_sp st in
    let rest := pull_rest st in
    let i := pull_i st in
    r <- stack_get rest ;;
    let c := TagCdr (TAG r) in
    if c =? CdrNext then
      stack_put (sp + 1) (StoreCdrNext r) ;; ret (inl (MkPull (sp + 1) (rest + 1) (i + 1)))
    else if c =? CdrNil then
      stack_put (sp + 1) (StoreCdrNext r) ;;
      pull_done (sp + 1) supplied (i + 1) true ;; ret (inr 0)
    else if c =? CdrNormal then
      stack_put (sp + 1) (StoreCdrNext r) ;;
      let sp := sp + 1 in
      let rest := rest + 1 in
      r <- stack_get rest ;;
      base <- get_ps StackCacheBase ;;
      let offset := u32 (DATA r - base) in
      if TagType (TAG r) =? TypeNIL then
        pull_done sp supplied (i + 1) true ;; ret (inr 0)
      else if (TagType (TAG r) =? TypeList) && (offset <? StackCacheSize * PageSize) then
        (* this break leaves the inner switch; the outer case runs into its default *)
        n <- pull_trap (MkPull sp offset i) supplied count ;; ret (inr n)
      else
        stack_put (sp + 1) (StoreCdrNext r) ;;
        pull_done (sp + 1) supplied (i + 1) false ;; ret (inr (count - (i + 1)))
    else
      n <- pull_trap st supplied count ;; ret (inr n)
  else
    n <- pull_trap st supplied count ;; ret (inr n).

(** Returns the number of arguments still to be pulled. *)
(* c-emulator/emulator.c:571-640 PullApplyArgsQuickly *)
Definition PullApplyArgsQuickly (count : Z) : Emu Z :=
  p <- gets ps ;;
  r <- stack_get (ps_sp p) ;;
  loop (S (Z.to_nat count))
    (pull_turn (ReadControlArgumentSize (control p)) count)
    (MkPull (ps_sp p - 1) (u32 (DATA r - StackCacheBase p)) 0).
End bindings.
