(* ===== verification/Decode.v ===== *)
(** Instruction decoding (c-emulator/dispatch.c): the decoder tables, the operand
    decoders and InstructionCacheMiss, which fills a block of the decoded-instruction
    cache from memory. *)

From S2P Require Export VMem.
#[local] Open Scope vlm_scope.

(** ** Tables *)

Definition ReturnInstructionDecoder : list IvoryDispatch := (* c-emulator/dispatch.c:19-24 ReturnInstructionDecoder *)
  [ DispatchReturnSingleNIL;
    DispatchReturnSingleT;
    DispatchReturnSingleTOS ].

(* c-emulator/dispatch.c:26-92 WordInstructionDecoder *)
Definition WordInstructionDecoder : list IvoryDispatch :=
  [ DispatchPushNull;
    DispatchPushMonitorForward;
    DispatchPushHeaderP;
    DispatchPushHeaderI;
    DispatchPushExternalValueCellPointer;
    DispatchPushOneQForward;
    DispatchPushHeaderForward;
    DispatchPushElementForward;
    DispatchPushFixnum;
    DispatchPushSmallRatio;
    DispatchPushSingleFloat;
    DispatchPushDoubleFloat;
    DispatchPushBignum;
    DispatchPushBigRatio;
    DispatchPushComplex;
    DispatchPushSpareNumber;
    DispatchPushInstance;
    DispatchPushListInstance;
    DispatchPushArrayInstance;
    DispatchPushStringInstance;
    DispatchPushNil;
    DispatchPushList;
    DispatchPushArray;
    DispatchPushString;
    DispatchPushSymbol;
    DispatchPushLocative;
    DispatchPushLexicalClosure;
    DispatchPushDynamicClosure;
    DispatchPushCompiledFunction;
    DispatchPushGenericFunction;
    DispatchPushSparePointer1;
    DispatchPushSparePointer2;
    DispatchPushPhysicalAddress;
    DispatchPushSpareImmediate1;
    DispatchPushBoundLocation;
    DispatchPushCharacter;
    DispatchPushLogicVariable;
    DispatchPushGcForward;
    DispatchPushEvenPc;
    DispatchPushOddPc;
    DispatchCallCompiledEven;
    DispatchCallCompiledOdd;
    DispatchCallIndirect;
    DispatchCallGeneric;
    DispatchCallCompiledEvenPrefetch;
    DispatchCallCompiledOddPrefetch;
    DispatchCallIndirectPrefetch;
    DispatchCallGenericPrefetch;
    DispatchPushPackedInstruction60;
    DispatchPushPackedInstruction61;
    DispatchPushPackedInstruction62;
    DispatchPushPackedInstruction63;
    DispatchPushPackedInstruction64;
    DispatchPushPackedInstruction65;
    DispatchPushPackedInstruction66;
    DispatchPushPackedInstruction67;
    DispatchPushPackedInstruction70;
    DispatchPushPackedInstruction71;
    DispatchPushPackedInstruction72;
    DispatchPushPackedInstruction73;
    DispatchPushPackedInstruction74;
    DispatchPushPackedInstruction75;
    DispatchPushPackedInstruction76;
    DispatchPushPackedInstruction77 ].

(** The table for opcodes whose stack operand is popped, in two halves. *)
(* c-emulator/dispatch.c:94-223 PopInstructionDecoder *)
Definition PopInstructionDecoder_0 : list IvoryDispatch :=
  [ DispatchCarPop;
    DispatchCdrPop;
    DispatchEndpPop;
    DispatchSetup1dArrayPop;
    DispatchSetupForce1dArrayPop;
    DispatchBindLocativePop;
    DispatchRestoreBindingStackPop;
    DispatchEphemeralpPop;
    DispatchStartCallPop;
    DispatchJumpPop;
    DispatchTagPop;
    DispatchDereferencePop;
    DispatchLogicTailTestPop;
    DispatchProcBreakpointPop;
    DispatchIllegalInstruction;
    DispatchIllegalInstruction;
    DispatchPushLexicalVarPop;
    DispatchPushLexicalVarPop;
    DispatchPushLexicalVarPop;
    DispatchPushLexicalVarPop;
    DispatchPushLexicalVarPop;
    DispatchPushLexicalVarPop;
    DispatchPushLexicalVarPop;
    DispatchPushLexicalVarPop;
    DispatchBlock0WritePop;
    DispatchBlock1WritePop;
    DispatchBlock2WritePop;
    DispatchBlock3WritePop;
    DispatchZeropPop;
    DispatchMinuspPop;
    DispatchPluspPop;
    DispatchIllegalInstruction;
    DispatchIllegalInstruction;
    DispatchIllegalInstruction;
    DispatchIllegalInstruction;
    DispatchIllegalInstruction;
    DispatchIllegalInstruction;
    DispatchIllegalInstruction;
    DispatchIllegalInstruction;
    DispatchIllegalInstruction;
    DispatchIllegalInstruction;
    DispatchIllegalInstruction;
    DispatchIllegalInstruction;
    DispatchIllegalInstruction;
    DispatchIllegalInstruction;
    DispatchIllegalInstruction;
    DispatchIllegalInstruction;
    DispatchIllegalInstruction;
    DispatchIllegalInstruction;
    DispatchIllegalInstruction;
    DispatchIllegalInstruction;
    DispatchIllegalInstruction;
    DispatchIllegalInstruction;
    DispatchIllegalInstruction;
    DispatchIllegalInstruction;
    DispatchIllegalInstruction;
    DispatchIllegalInstruction;
    DispatchIllegalInstruction;
    DispatchIllegalInstruction;
    DispatchIllegalInstruction;
    DispatchIllegalInstruction;
    DispatchIllegalInstruction;
    DispatchIllegalInstruction;
    DispatchIllegalInstruction;
    DispatchPushPop;
    DispatchIllegalInstruction;
    DispatchPushAddressSpRelativePop;
    DispatchPushLocalLogicVariablesPop;
    DispatchReturnMultiplePop;
    DispatchReturnKludgePop;
    DispatchIllegalInstruction;
    DispatchUnbindNPop;
    DispatchIllegalInstruction;
    DispatchIllegalInstruction;
    DispatchIllegalInstruction;
    DispatchIllegalInstruction;
    DispatchUnaryMinusPop;
    DispatchIllegalInstruction;
    DispatchIllegalInstruction;
    DispatchIllegalInstruction;
    DispatchIllegalInstruction;
    DispatchIllegalInstruction;
    DispatchIllegalInstruction;
    DispatchIllegalInstruction;
    DispatchIllegalInstruction;
    DispatchIllegalInstruction;
    DispatchIllegalInstruction;
    DispatchIllegalInstruction;
    DispatchIllegalInstruction;
    DispatchIllegalInstruction;
    DispatchIllegalInstruction;
    DispatchIllegalInstruction;
    DispatchIllegalInstruction;
    DispatchIllegalInstruction;
    DispatchIllegalInstruction;
    DispatchIllegalInstruction;
    DispatchSetToCarPop;
    DispatchSetToCdrPop;
    DispatchSetToCdrPushCarPop;
    DispatchIncrementPop;
    DispatchDecrementPop;
    DispatchPointerIncrementPop;
    DispatchSetCdrCode1Pop;
    DispatchSetCdrCode2Pop;
    DispatchPushAddressPop;
    DispatchSetSpToAddressPop;
    DispatchSetSpToAddressSaveTosPop;
    DispatchIllegalInstruction;
    DispatchIllegalInstruction;
    DispatchIllegalInstruction;
    DispatchIllegalInstruction;
    DispatchIllegalInstruction;
    DispatchBlock0ReadAluPop;
    DispatchBlock1ReadAluPop;
    DispatchBlock2ReadAluPop;
    DispatchBlock3ReadAluPop;
    DispatchIllegalInstruction;
    DispatchIllegalInstruction;
    DispatchIllegalInstruction;
    DispatchIllegalInstruction;
    DispatchIllegalInstruction;
    DispatchIllegalInstruction;
    DispatchIllegalInstruction;
    DispatchIllegalInstruction;
    DispatchIllegalInstruction;
    DispatchIllegalInstruction;
    DispatchIllegalInstruction;
    DispatchIllegalInstruction ].

(* c-emulator/dispatch.c:224-352 DispatchRplacaPop *)
Definition PopInstructionDecoder_1 : list IvoryDispatch :=
  [ DispatchRplacaPop;
    DispatchRplacdPop;
    DispatchMultiplyPop;
    DispatchQuotientPop;
    DispatchCeilingPop;
    DispatchFloorPop;
    DispatchTruncatePop;
    DispatchRoundPop;
    DispatchIllegalInstruction;
    DispatchRationalQuotientPop;
    DispatchMinPop;
    DispatchMaxPop;
    DispatchAluPop;
    DispatchLogandPop;
    DispatchLogxorPop;
    DispatchLogiorPop;
    DispatchRotPop;
    DispatchLshPop;
    DispatchMultiplyDoublePop;
    DispatchLshcBignumStepPop;
    DispatchStackBltPop;
    DispatchRgetfPop;
    DispatchMemberPop;
    DispatchAssocPop;
    DispatchPointerPlusPop;
    DispatchPointerDifferencePop;
    DispatchAshPop;
    DispatchStoreConditionalPop;
    DispatchMemoryWritePop;
    DispatchPStoreContentsPop;
    DispatchBindLocativeToValuePop;
    DispatchUnifyPop;
    DispatchPopLexicalVarPop;
    DispatchPopLexicalVarPop;
    DispatchPopLexicalVarPop;
    DispatchPopLexicalVarPop;
    DispatchPopLexicalVarPop;
    DispatchPopLexicalVarPop;
    DispatchPopLexicalVarPop;
    DispatchPopLexicalVarPop;
    DispatchMovemLexicalVarPop;
    DispatchMovemLexicalVarPop;
    DispatchMovemLexicalVarPop;
    DispatchMovemLexicalVarPop;
    DispatchMovemLexicalVarPop;
    DispatchMovemLexicalVarPop;
    DispatchMovemLexicalVarPop;
    DispatchMovemLexicalVarPop;
    DispatchEqualNumberPop;
    DispatchLesspPop;
    DispatchGreaterpPop;
    DispatchEqlPop;
    DispatchEqualNumberNoPopPop;
    DispatchLesspNoPopPop;
    DispatchGreaterpNoPopPop;
    DispatchEqlNoPopPop;
    DispatchEqPop;
    DispatchIllegalInstruction;
    DispatchIllegalInstruction;
    DispatchLogtestPop;
    DispatchEqNoPopPop;
    DispatchIllegalInstruction;
    DispatchIllegalInstruction;
    DispatchLogtestNoPopPop;
    DispatchAddPop;
    DispatchSubPop;
    Dispatch32BitPlusPop;
    Dispatch32BitDifferencePop;
    DispatchAddBignumStepPop;
    DispatchSubBignumStepPop;
    DispatchMultiplyBignumStepPop;
    DispatchDivideBignumStepPop;
    DispatchAset1Pop;
    DispatchAllocateListBlockPop;
    DispatchAref1Pop;
    DispatchAloc1Pop;
    DispatchStoreArrayLeaderPop;
    DispatchAllocateStructureBlockPop;
    DispatchArrayLeaderPop;
    DispatchAlocLeaderPop;
    DispatchIllegalInstruction;
    DispatchIllegalInstruction;
    DispatchIllegalInstruction;
    DispatchIllegalInstruction;
    DispatchInstanceRefPop;
    DispatchInstanceSetPop;
    DispatchInstanceLocPop;
    DispatchSetTagPop;
    DispatchIllegalInstruction;
    DispatchUnsignedLesspPop;
    DispatchIllegalInstruction;
    DispatchIllegalInstruction;
    DispatchIllegalInstruction;
    DispatchUnsignedLesspNoPopPop;
    DispatchIllegalInstruction;
    DispatchIllegalInstruction;
    DispatchPopPop;
    DispatchMovemPop;
    DispatchMergeCdrNoPopPop;
    DispatchIllegalInstruction;
    DispatchIllegalInstruction;
    DispatchIllegalInstruction;
    DispatchIllegalInstruction;
    DispatchIllegalInstruction;
    DispatchFastAref1Pop;
    DispatchFastAset1Pop;
    DispatchStackBltAddressPop;
    DispatchIllegalInstruction;
    DispatchIllegalInstruction;
    DispatchIllegalInstruction;
    DispatchIllegalInstruction;
    DispatchIllegalInstruction;
    DispatchIllegalInstruction;
    DispatchIllegalInstruction;
    DispatchIllegalInstruction;
    DispatchIllegalInstruction;
    DispatchIllegalInstruction;
    DispatchIllegalInstruction;
    DispatchIllegalInstruction;
    DispatchIllegalInstruction;
    DispatchIllegalInstruction;
    DispatchIllegalInstruction;
    DispatchIllegalInstruction;
    DispatchIllegalInstruction;
    DispatchIllegalInstruction;
    DispatchIllegalInstruction;
    DispatchIllegalInstruction;
    DispatchIllegalInstruction ].

Definition PopInstructionDecoder : list IvoryDispatch := (* c-emulator/dispatch.c:94 PopInstructionDecoder *)
  PopInstructionDecoder_0 ++ PopInstructionDecoder_1.

Definition IllegalInstructionDecoder : IvoryDispatch := DispatchIllegalInstruction. (* c-emulator/dispatch.c:354 *)

(** ** Operand decoders *)

(** [cp->code = table[k]] with [k] an eight-bit field (see [PopInstructionDecoder_total]). *)
Definition pop_code (k : Z) : IvoryDispatch :=
  default DispatchIllegalInstruction (nth_Z PopInstructionDecoder k).

(* c-emulator/dispatch.c:356-359 DecodeNoneFunction *)
Definition DecodeNoneFunction (i : Z) (cp : InstructionCacheLine) : InstructionCacheLine :=
  set_cl_operand 0 cp.

(* c-emulator/dispatch.c:364-367 Decode8BitUnsignedOperandFunction *)
Definition Decode8BitUnsignedOperandFunction (i : Z) (cp : InstructionCacheLine) :=
  set_cl_operand (Z.land i 255) cp.

(* c-emulator/dispatch.c:369-372 Decode8BitSignedOperandFunction *)
Definition Decode8BitSignedOperandFunction (i : Z) (cp : InstructionCacheLine) :=
  set_cl_operand (SignExtend8 i) cp.

(* c-emulator/dispatch.c:374-377 Decode10BitUnsignedOperandFunction *)
Definition Decode10BitUnsignedOperandFunction (i : Z) (cp : InstructionCacheLine) :=
  set_cl_operand (Z.land i 1023) cp.

(* c-emulator/dispatch.c:379-382 Decode12BitUnsignedOperandFunction *)
Definition Decode12BitUnsignedOperandFunction (i : Z) (cp : InstructionCacheLine) :=
  set_cl_operand (Z.land i 4095) cp.

(* c-emulator/dispatch.c:384-387 DecodeFPOperandFunction *)
Definition DecodeFPOperandFunction (i : Z) (cp : InstructionCacheLine) :=
  set_cl_operand (Z.land i 255) cp.

(* c-emulator/dispatch.c:389-392 DecodeLPOperandFunction *)
Definition DecodeLPOperandFunction (i : Z) (cp : InstructionCacheLine) :=
  set_cl_operand (Z.land i 255) cp.

(* c-emulator/dispatch.c:394-405 DecodeSPOperandFunction *)
Definition DecodeSPOperandFunction (i : Z) (cp : InstructionCacheLine) :=
  let offset := Z.land i 255 in
  if offset =? 0 then set_cl_operand 0 (set_cl_code (pop_code (ldb 8 10 i)) cp)
  else set_cl_operand (offset - 255) cp.

(* c-emulator/dispatch.c:407-410 DecodeBranchOperandFunction *)
Definition DecodeBranchOperandFunction (i : Z) (cp : InstructionCacheLine) :=
  set_cl_operand (SignExtend10 i) cp.

(** Any other operand leaves the line as it is, with the operand it had before. *)
(* c-emulator/dispatch.c:412-429 DecodeReturnOperandFunction *)
Definition DecodeReturnOperandFunction (i : Z) (cp : InstructionCacheLine) :=
  let k := Z.land i 1023 in
  if k =? 512 then set_cl_operand 0 (set_cl_code DispatchReturnSingleTOS cp)
  else if k =? 544 then set_cl_operand 0 (set_cl_code DispatchReturnSingleNIL cp)
  else if k =? 545 then set_cl_operand 0 (set_cl_code DispatchReturnSingleT cp)
  else cp.

(* c-emulator/dispatch.c:431-434 DecodeEntryOperandFunction *)
Definition DecodeEntryOperandFunction (i : Z) (cp : InstructionCacheLine) :=
  set_cl_operand (dpb (ldb 8 18 i) 8 8 (Z.land i 255)) cp.

(** ** The table of packed instructions *)

(* c-emulator/dispatch.c:13-17 DecoderPair *)
Record DecoderPair := MkDecoderPair {
  dispatch : IvoryDispatch;
  decode : Z -> InstructionCacheLine -> InstructionCacheLine
}.
#[local] Notation "{ x , y }" := (MkDecoderPair x y) (only parsing).

(** The 1024 entries, one per value of the high ten bits of an instruction. *)
(* c-emulator/dispatch.c:436-565 PackedInstructionDecoder *)
Definition PackedInstructionDecoder_0 : list DecoderPair :=
  [ { DispatchCarFP , DecodeFPOperandFunction };
    { DispatchCarLP , DecodeLPOperandFunction };
    { DispatchCarSP , DecodeSPOperandFunction };
    { DispatchCarImmediate , Decode8BitUnsignedOperandFunction };
    { DispatchCdrFP , DecodeFPOperandFunction };
    { DispatchCdrLP , DecodeLPOperandFunction };
    { DispatchCdrSP , DecodeSPOperandFunction };
    { DispatchCdrImmediate , Decode8BitUnsignedOperandFunction };
    { DispatchEndpFP , DecodeFPOperandFunction };
    { DispatchEndpLP , DecodeLPOperandFunction };
    { DispatchEndpSP , DecodeSPOperandFunction };
    { DispatchEndpImmediate , Decode8BitSignedOperandFunction };
    { DispatchSetup1dArrayFP , DecodeFPOperandFunction };
    { DispatchSetup1dArrayLP , DecodeLPOperandFunction };
    { DispatchSetup1dArraySP , DecodeSPOperandFunction };
    { DispatchSetup1dArrayImmediate , Decode8BitSignedOperandFunction };
    { DispatchSetupForce1dArrayFP , DecodeFPOperandFunction };
    { DispatchSetupForce1dArrayLP , DecodeLPOperandFunction };
    { DispatchSetupForce1dArraySP , DecodeSPOperandFunction };
    { DispatchSetupForce1dArrayImmediate , Decode8BitSignedOperandFunction };
    { DispatchBindLocativeFP , DecodeFPOperandFunction };
    { DispatchBindLocativeLP , DecodeLPOperandFunction };
    { DispatchBindLocativeSP , DecodeSPOperandFunction };
    { DispatchBindLocativeImmediate , Decode8BitUnsignedOperandFunction };
    { DispatchRestoreBindingStackFP , DecodeFPOperandFunction };
    { DispatchRestoreBindingStackLP , DecodeLPOperandFunction };
    { DispatchRestoreBindingStackSP , DecodeSPOperandFunction };
    { DispatchRestoreBindingStackImmediate , Decode8BitUnsignedOperandFunction };
    { DispatchEphemeralpFP , DecodeFPOperandFunction };
    { DispatchEphemeralpLP , DecodeLPOperandFunction };
    { DispatchEphemeralpSP , DecodeSPOperandFunction };
    { DispatchEphemeralpImmediate , Decode8BitUnsignedOperandFunction };
    { DispatchStartCallFP , DecodeFPOperandFunction };
    { DispatchStartCallLP , DecodeLPOperandFunction };
    { DispatchStartCallSP , DecodeSPOperandFunction };
    { DispatchStartCallImmediate , Decode8BitSignedOperandFunction };
    { DispatchJumpFP , DecodeFPOperandFunction };
    { DispatchJumpLP , DecodeLPOperandFunction };
    { DispatchJumpSP , DecodeSPOperandFunction };
    { DispatchJumpImmediate , Decode8BitUnsignedOperandFunction };
    { DispatchTagFP , DecodeFPOperandFunction };
    { DispatchTagLP , DecodeLPOperandFunction };
    { DispatchTagSP , DecodeSPOperandFunction };
    { DispatchTagImmediate , Decode8BitSignedOperandFunction };
    { DispatchDereferenceFP , DecodeFPOperandFunction };
    { DispatchDereferenceLP , DecodeLPOperandFunction };
    { DispatchDereferenceSP , DecodeSPOperandFunction };
    { DispatchDereferenceImmediate , Decode8BitSignedOperandFunction };
    { DispatchLogicTailTestFP , DecodeFPOperandFunction };
    { DispatchLogicTailTestLP , DecodeLPOperandFunction };
    { DispatchLogicTailTestSP , DecodeSPOperandFunction };
    { DispatchLogicTailTestImmediate , Decode8BitSignedOperandFunction };
    { DispatchProcBreakpointFP , DecodeFPOperandFunction };
    { DispatchProcBreakpointLP , DecodeLPOperandFunction };
    { DispatchProcBreakpointSP , DecodeSPOperandFunction };
    { DispatchProcBreakpointImmediate , Decode8BitSignedOperandFunction };
    { DispatchIllegalInstruction , DecodeNoneFunction };
    { DispatchIllegalInstruction , DecodeNoneFunction };
    { DispatchIllegalInstruction , DecodeNoneFunction };
    { DispatchIllegalInstruction , DecodeNoneFunction };
    { DispatchIllegalInstruction , DecodeNoneFunction };
    { DispatchIllegalInstruction , DecodeNoneFunction };
    { DispatchIllegalInstruction , DecodeNoneFunction };
    { DispatchIllegalInstruction , DecodeNoneFunction };
    { DispatchPushLexicalVarFP , DecodeFPOperandFunction };
    { DispatchPushLexicalVarLP , DecodeLPOperandFunction };
    { DispatchPushLexicalVarSP , DecodeSPOperandFunction };
    { DispatchPushLexicalVarImmediate , Decode8BitSignedOperandFunction };
    { DispatchPushLexicalVarFP , DecodeFPOperandFunction };
    { DispatchPushLexicalVarLP , DecodeLPOperandFunction };
    { DispatchPushLexicalVarSP , DecodeSPOperandFunction };
    { DispatchPushLexicalVarImmediate , Decode8BitSignedOperandFunction };
    { DispatchPushLexicalVarFP , DecodeFPOperandFunction };
    { DispatchPushLexicalVarLP , DecodeLPOperandFunction };
    { DispatchPushLexicalVarSP , DecodeSPOperandFunction };
    { DispatchPushLexicalVarImmediate , Decode8BitSignedOperandFunction };
    { DispatchPushLexicalVarFP , DecodeFPOperandFunction };
    { DispatchPushLexicalVarLP , DecodeLPOperandFunction };
    { DispatchPushLexicalVarSP , DecodeSPOperandFunction };
    { DispatchPushLexicalVarImmediate , Decode8BitSignedOperandFunction };
    { DispatchPushLexicalVarFP , DecodeFPOperandFunction };
    { DispatchPushLexicalVarLP , DecodeLPOperandFunction };
    { DispatchPushLexicalVarSP , DecodeSPOperandFunction };
    { DispatchPushLexicalVarImmediate , Decode8BitSignedOperandFunction };
    { DispatchPushLexicalVarFP , DecodeFPOperandFunction };
    { DispatchPushLexicalVarLP , DecodeLPOperandFunction };
    { DispatchPushLexicalVarSP , DecodeSPOperandFunction };
    { DispatchPushLexicalVarImmediate , Decode8BitSignedOperandFunction };
    { DispatchPushLexicalVarFP , DecodeFPOperandFunction };
    { DispatchPushLexicalVarLP , DecodeLPOperandFunction };
    { DispatchPushLexicalVarSP , DecodeSPOperandFunction };
    { DispatchPushLexicalVarImmediate , Decode8BitSignedOperandFunction };
    { DispatchPushLexicalVarFP , DecodeFPOperandFunction };
    { DispatchPushLexicalVarLP , DecodeLPOperandFunction };
    { DispatchPushLexicalVarSP , DecodeSPOperandFunction };
    { DispatchPushLexicalVarImmediate , Decode8BitSignedOperandFunction };
    { DispatchBlock0WriteFP , DecodeFPOperandFunction };
    { DispatchBlock0WriteLP , DecodeLPOperandFunction };
    { DispatchBlock0WriteSP , DecodeSPOperandFunction };
    { DispatchBlock0WriteImmediate , Decode8BitSignedOperandFunction };
    { DispatchBlock1WriteFP , DecodeFPOperandFunction };
    { DispatchBlock1WriteLP , DecodeLPOperandFunction };
    { DispatchBlock1WriteSP , DecodeSPOperandFunction };
    { DispatchBlock1WriteImmediate , Decode8BitSignedOperandFunction };
    { DispatchBlock2WriteFP , DecodeFPOperandFunction };
    { DispatchBlock2WriteLP , DecodeLPOperandFunction };
    { DispatchBlock2WriteSP , DecodeSPOperandFunction };
    { DispatchBlock2WriteImmediate , Decode8BitSignedOperandFunction };
    { DispatchBlock3WriteFP , DecodeFPOperandFunction };
    { DispatchBlock3WriteLP , DecodeLPOperandFunction };
    { DispatchBlock3WriteSP , DecodeSPOperandFunction };
    { DispatchBlock3WriteImmediate , Decode8BitSignedOperandFunction };
    { DispatchZeropFP , DecodeFPOperandFunction };
    { DispatchZeropLP , DecodeLPOperandFunction };
    { DispatchZeropSP , DecodeSPOperandFunction };
    { DispatchZeropImmediate , Decode8BitSignedOperandFunction };
    { DispatchMinuspFP , DecodeFPOperandFunction };
    { DispatchMinuspLP , DecodeLPOperandFunction };
    { DispatchMinuspSP , DecodeSPOperandFunction };
    { DispatchMinuspImmediate , Decode8BitSignedOperandFunction };
    { DispatchPluspFP , DecodeFPOperandFunction };
    { DispatchPluspLP , DecodeLPOperandFunction };
    { DispatchPluspSP , DecodeSPOperandFunction };
    { DispatchPluspImmediate , Decode8BitSignedOperandFunction };
    { DispatchIllegalInstruction , DecodeNoneFunction };
    { DispatchIllegalInstruction , DecodeNoneFunction };
    { DispatchIllegalInstruction , DecodeNoneFunction };
    { DispatchIllegalInstruction , DecodeNoneFunction } ].

(* c-emulator/dispatch.c:566-693 DispatchTypeMember *)
Definition PackedInstructionDecoder_1 : list DecoderPair :=
  [ { DispatchTypeMember , Decode12BitUnsignedOperandFunction };
    { DispatchTypeMember , Decode12BitUnsignedOperandFunction };
    { DispatchTypeMember , Decode12BitUnsignedOperandFunction };
    { DispatchTypeMember , Decode12BitUnsignedOperandFunction };
    { DispatchTypeMember , Decode12BitUnsignedOperandFunction };
    { DispatchTypeMember , Decode12BitUnsignedOperandFunction };
    { DispatchTypeMember , Decode12BitUnsignedOperandFunction };
    { DispatchTypeMember , Decode12BitUnsignedOperandFunction };
    { DispatchTypeMember , Decode12BitUnsignedOperandFunction };
    { DispatchTypeMember , Decode12BitUnsignedOperandFunction };
    { DispatchTypeMember , Decode12BitUnsignedOperandFunction };
    { DispatchTypeMember , Decode12BitUnsignedOperandFunction };
    { DispatchTypeMember , Decode12BitUnsignedOperandFunction };
    { DispatchTypeMember , Decode12BitUnsignedOperandFunction };
    { DispatchTypeMember , Decode12BitUnsignedOperandFunction };
    { DispatchTypeMember , Decode12BitUnsignedOperandFunction };
    { DispatchTypeMemberNoPop , Decode12BitUnsignedOperandFunction };
    { DispatchTypeMemberNoPop , Decode12BitUnsignedOperandFunction };
    { DispatchTypeMemberNoPop , Decode12BitUnsignedOperandFunction };
    { DispatchTypeMemberNoPop , Decode12BitUnsignedOperandFunction };
    { DispatchTypeMemberNoPop , Decode12BitUnsignedOperandFunction };
    { DispatchTypeMemberNoPop , Decode12BitUnsignedOperandFunction };
    { DispatchTypeMemberNoPop , Decode12BitUnsignedOperandFunction };
    { DispatchTypeMemberNoPop , Decode12BitUnsignedOperandFunction };
    { DispatchTypeMemberNoPop , Decode12BitUnsignedOperandFunction };
    { DispatchTypeMemberNoPop , Decode12BitUnsignedOperandFunction };
    { DispatchTypeMemberNoPop , Decode12BitUnsignedOperandFunction };
    { DispatchTypeMemberNoPop , Decode12BitUnsignedOperandFunction };
    { DispatchTypeMemberNoPop , Decode12BitUnsignedOperandFunction };
    { DispatchTypeMemberNoPop , Decode12BitUnsignedOperandFunction };
    { DispatchTypeMemberNoPop , Decode12BitUnsignedOperandFunction };
    { DispatchTypeMemberNoPop , Decode12BitUnsignedOperandFunction };
    { DispatchLocateLocals , DecodeNoneFunction };
    { DispatchLocateLocals , DecodeNoneFunction };
    { DispatchLocateLocals , DecodeNoneFunction };
    { DispatchLocateLocals , DecodeNoneFunction };
    { DispatchCatchClose , DecodeNoneFunction };
    { DispatchCatchClose , DecodeNoneFunction };
    { DispatchCatchClose , DecodeNoneFunction };
    { DispatchCatchClose , DecodeNoneFunction };
    { DispatchGenericDispatch , DecodeNoneFunction };
    { DispatchGenericDispatch , DecodeNoneFunction };
    { DispatchGenericDispatch , DecodeNoneFunction };
    { DispatchGenericDispatch , DecodeNoneFunction };
    { DispatchMessageDispatch , DecodeNoneFunction };
    { DispatchMessageDispatch , DecodeNoneFunction };
    { DispatchMessageDispatch , DecodeNoneFunction };
    { DispatchMessageDispatch , DecodeNoneFunction };
    { DispatchCheckPreemptRequest , DecodeNoneFunction };
    { DispatchCheckPreemptRequest , DecodeNoneFunction };
    { DispatchCheckPreemptRequest , DecodeNoneFunction };
    { DispatchCheckPreemptRequest , DecodeNoneFunction };
    { DispatchPushGlobalLogicVariable , DecodeNoneFunction };
    { DispatchPushGlobalLogicVariable , DecodeNoneFunction };
    { DispatchPushGlobalLogicVariable , DecodeNoneFunction };
    { DispatchPushGlobalLogicVariable , DecodeNoneFunction };
    { DispatchNoOp , DecodeNoneFunction };
    { DispatchNoOp , DecodeNoneFunction };
    { DispatchNoOp , DecodeNoneFunction };
    { DispatchNoOp , DecodeNoneFunction };
    { DispatchHalt , DecodeNoneFunction };
    { DispatchHalt , DecodeNoneFunction };
    { DispatchHalt , DecodeNoneFunction };
    { DispatchHalt , DecodeNoneFunction };
    { DispatchBranchTrue , DecodeBranchOperandFunction };
    { DispatchBranchTrue , DecodeBranchOperandFunction };
    { DispatchBranchTrue , DecodeBranchOperandFunction };
    { DispatchBranchTrue , DecodeBranchOperandFunction };
    { DispatchBranchTrueElseExtraPop , DecodeBranchOperandFunction };
    { DispatchBranchTrueElseExtraPop , DecodeBranchOperandFunction };
    { DispatchBranchTrueElseExtraPop , DecodeBranchOperandFunction };
    { DispatchBranchTrueElseExtraPop , DecodeBranchOperandFunction };
    { DispatchBranchTrueAndExtraPop , DecodeBranchOperandFunction };
    { DispatchBranchTrueAndExtraPop , DecodeBranchOperandFunction };
    { DispatchBranchTrueAndExtraPop , DecodeBranchOperandFunction };
    { DispatchBranchTrueAndExtraPop , DecodeBranchOperandFunction };
    { DispatchBranchTrueExtraPop , DecodeBranchOperandFunction };
    { DispatchBranchTrueExtraPop , DecodeBranchOperandFunction };
    { DispatchBranchTrueExtraPop , DecodeBranchOperandFunction };
    { DispatchBranchTrueExtraPop , DecodeBranchOperandFunction };
    { DispatchBranchTrueNoPop , DecodeBranchOperandFunction };
    { DispatchBranchTrueNoPop , DecodeBranchOperandFunction };
    { DispatchBranchTrueNoPop , DecodeBranchOperandFunction };
    { DispatchBranchTrueNoPop , DecodeBranchOperandFunction };
    { DispatchBranchTrueAndNoPop , DecodeBranchOperandFunction };
    { DispatchBranchTrueAndNoPop , DecodeBranchOperandFunction };
    { DispatchBranchTrueAndNoPop , DecodeBranchOperandFunction };
    { DispatchBranchTrueAndNoPop , DecodeBranchOperandFunction };
    { DispatchBranchTrueElseNoPop , DecodeBranchOperandFunction };
    { DispatchBranchTrueElseNoPop , DecodeBranchOperandFunction };
    { DispatchBranchTrueElseNoPop , DecodeBranchOperandFunction };
    { DispatchBranchTrueElseNoPop , DecodeBranchOperandFunction };
    { DispatchBranchTrueAndNoPopElseNoPopExtraPop , DecodeBranchOperandFunction };
    { DispatchBranchTrueAndNoPopElseNoPopExtraPop , DecodeBranchOperandFunction };
    { DispatchBranchTrueAndNoPopElseNoPopExtraPop , DecodeBranchOperandFunction };
    { DispatchBranchTrueAndNoPopElseNoPopExtraPop , DecodeBranchOperandFunction };
    { DispatchBranchFalse , DecodeBranchOperandFunction };
    { DispatchBranchFalse , DecodeBranchOperandFunction };
    { DispatchBranchFalse , DecodeBranchOperandFunction };
    { DispatchBranchFalse , DecodeBranchOperandFunction };
    { DispatchBranchFalseElseExtraPop , DecodeBranchOperandFunction };
    { DispatchBranchFalseElseExtraPop , DecodeBranchOperandFunction };
    { DispatchBranchFalseElseExtraPop , DecodeBranchOperandFunction };
    { DispatchBranchFalseElseExtraPop , DecodeBranchOperandFunction };
    { DispatchBranchFalseAndExtraPop , DecodeBranchOperandFunction };
    { DispatchBranchFalseAndExtraPop , DecodeBranchOperandFunction };
    { DispatchBranchFalseAndExtraPop , DecodeBranchOperandFunction };
    { DispatchBranchFalseAndExtraPop , DecodeBranchOperandFunction };
    { DispatchBranchFalseExtraPop , DecodeBranchOperandFunction };
    { DispatchBranchFalseExtraPop , DecodeBranchOperandFunction };
    { DispatchBranchFalseExtraPop , DecodeBranchOperandFunction };
    { DispatchBranchFalseExtraPop , DecodeBranchOperandFunction };
    { DispatchBranchFalseNoPop , DecodeBranchOperandFunction };
    { DispatchBranchFalseNoPop , DecodeBranchOperandFunction };
    { DispatchBranchFalseNoPop , DecodeBranchOperandFunction };
    { DispatchBranchFalseNoPop , DecodeBranchOperandFunction };
    { DispatchBranchFalseAndNoPop , DecodeBranchOperandFunction };
    { DispatchBranchFalseAndNoPop , DecodeBranchOperandFunction };
    { DispatchBranchFalseAndNoPop , DecodeBranchOperandFunction };
    { DispatchBranchFalseAndNoPop , DecodeBranchOperandFunction };
    { DispatchBranchFalseElseNoPop , DecodeBranchOperandFunction };
    { DispatchBranchFalseElseNoPop , DecodeBranchOperandFunction };
    { DispatchBranchFalseElseNoPop , DecodeBranchOperandFunction };
    { DispatchBranchFalseElseNoPop , DecodeBranchOperandFunction };
    { DispatchBranchFalseAndNoPopElseNoPopExtraPop , DecodeBranchOperandFunction };
    { DispatchBranchFalseAndNoPopElseNoPopExtraPop , DecodeBranchOperandFunction };
    { DispatchBranchFalseAndNoPopElseNoPopExtraPop , DecodeBranchOperandFunction };
    { DispatchBranchFalseAndNoPopElseNoPopExtraPop , DecodeBranchOperandFunction } ].

(* c-emulator/dispatch.c:694-821 DispatchPushFP *)
Definition PackedInstructionDecoder_2 : list DecoderPair :=
  [ { DispatchPushFP , DecodeFPOperandFunction };
    { DispatchPushLP , DecodeLPOperandFunction };
    { DispatchPushSP , DecodeSPOperandFunction };
    { DispatchPushImmediate , Decode8BitUnsignedOperandFunction };
    { DispatchPushNNils , Decode8BitUnsignedOperandFunction };
    { DispatchPushNNils , Decode8BitUnsignedOperandFunction };
    { DispatchPushNNils , Decode8BitUnsignedOperandFunction };
    { DispatchPushNNils , Decode8BitUnsignedOperandFunction };
    { DispatchPushAddressSpRelativeFP , DecodeFPOperandFunction };
    { DispatchPushAddressSpRelativeLP , DecodeLPOperandFunction };
    { DispatchPushAddressSpRelativeSP , DecodeSPOperandFunction };
    { DispatchPushAddressSpRelativeImmediate , Decode8BitUnsignedOperandFunction };
    { DispatchPushLocalLogicVariablesFP , DecodeFPOperandFunction };
    { DispatchPushLocalLogicVariablesLP , DecodeLPOperandFunction };
    { DispatchPushLocalLogicVariablesSP , DecodeSPOperandFunction };
    { DispatchPushLocalLogicVariablesImmediate , Decode8BitUnsignedOperandFunction };
    { DispatchReturnMultipleFP , DecodeFPOperandFunction };
    { DispatchReturnMultipleLP , DecodeLPOperandFunction };
    { DispatchReturnMultipleSP , DecodeSPOperandFunction };
    { DispatchReturnMultipleImmediate , Decode8BitUnsignedOperandFunction };
    { DispatchReturnKludgeFP , DecodeFPOperandFunction };
    { DispatchReturnKludgeLP , DecodeLPOperandFunction };
    { DispatchReturnKludgeSP , DecodeSPOperandFunction };
    { DispatchReturnKludgeImmediate , Decode8BitUnsignedOperandFunction };
    { DispatchTakeValues , Decode8BitUnsignedOperandFunction };
    { DispatchTakeValues , Decode8BitUnsignedOperandFunction };
    { DispatchTakeValues , Decode8BitUnsignedOperandFunction };
    { DispatchTakeValues , Decode8BitUnsignedOperandFunction };
    { DispatchIllegalInstruction , Decode8BitUnsignedOperandFunction };
    { DispatchIllegalInstruction , Decode8BitUnsignedOperandFunction };
    { DispatchIllegalInstruction , Decode8BitUnsignedOperandFunction };
    { DispatchUnbindNImmediate , Decode8BitUnsignedOperandFunction };
    { DispatchPushInstanceVariable , Decode8BitUnsignedOperandFunction };
    { DispatchPushInstanceVariable , Decode8BitUnsignedOperandFunction };
    { DispatchPushInstanceVariable , Decode8BitUnsignedOperandFunction };
    { DispatchPushInstanceVariable , Decode8BitUnsignedOperandFunction };
    { DispatchPushAddressInstanceVariable , Decode8BitUnsignedOperandFunction };
    { DispatchPushAddressInstanceVariable , Decode8BitUnsignedOperandFunction };
    { DispatchPushAddressInstanceVariable , Decode8BitUnsignedOperandFunction };
    { DispatchPushAddressInstanceVariable , Decode8BitUnsignedOperandFunction };
    { DispatchPushInstanceVariableOrdered , Decode8BitUnsignedOperandFunction };
    { DispatchPushInstanceVariableOrdered , Decode8BitUnsignedOperandFunction };
    { DispatchPushInstanceVariableOrdered , Decode8BitUnsignedOperandFunction };
    { DispatchPushInstanceVariableOrdered , Decode8BitUnsignedOperandFunction };
    { DispatchPushAddressInstanceVariableOrdered , Decode8BitUnsignedOperandFunction };
    { DispatchPushAddressInstanceVariableOrdered , Decode8BitUnsignedOperandFunction };
    { DispatchPushAddressInstanceVariableOrdered , Decode8BitUnsignedOperandFunction };
    { DispatchPushAddressInstanceVariableOrdered , Decode8BitUnsignedOperandFunction };
    { DispatchUnaryMinusFP , DecodeFPOperandFunction };
    { DispatchUnaryMinusLP , DecodeLPOperandFunction };
    { DispatchUnaryMinusSP , DecodeSPOperandFunction };
    { DispatchUnaryMinusImmediate , Decode8BitUnsignedOperandFunction };
    { DispatchReturnSingleTOS , DecodeReturnOperandFunction };
    { DispatchReturnSingleTOS , DecodeReturnOperandFunction };
    { DispatchReturnSingleTOS , DecodeReturnOperandFunction };
    { DispatchReturnSingleTOS , DecodeReturnOperandFunction };
    { DispatchMemoryRead , Decode10BitUnsignedOperandFunction };
    { DispatchMemoryRead , Decode10BitUnsignedOperandFunction };
    { DispatchMemoryRead , Decode10BitUnsignedOperandFunction };
    { DispatchMemoryRead , Decode10BitUnsignedOperandFunction };
    { DispatchMemoryReadAddress , Decode10BitUnsignedOperandFunction };
    { DispatchMemoryReadAddress , Decode10BitUnsignedOperandFunction };
    { DispatchMemoryReadAddress , Decode10BitUnsignedOperandFunction };
    { DispatchMemoryReadAddress , Decode10BitUnsignedOperandFunction };
    { DispatchBlock0Read , Decode10BitUnsignedOperandFunction };
    { DispatchBlock0Read , Decode10BitUnsignedOperandFunction };
    { DispatchBlock0Read , Decode10BitUnsignedOperandFunction };
    { DispatchBlock0Read , Decode10BitUnsignedOperandFunction };
    { DispatchBlock1Read , Decode10BitUnsignedOperandFunction };
    { DispatchBlock1Read , Decode10BitUnsignedOperandFunction };
    { DispatchBlock1Read , Decode10BitUnsignedOperandFunction };
    { DispatchBlock1Read , Decode10BitUnsignedOperandFunction };
    { DispatchBlock2Read , Decode10BitUnsignedOperandFunction };
    { DispatchBlock2Read , Decode10BitUnsignedOperandFunction };
    { DispatchBlock2Read , Decode10BitUnsignedOperandFunction };
    { DispatchBlock2Read , Decode10BitUnsignedOperandFunction };
    { DispatchBlock3Read , Decode10BitUnsignedOperandFunction };
    { DispatchBlock3Read , Decode10BitUnsignedOperandFunction };
    { DispatchBlock3Read , Decode10BitUnsignedOperandFunction };
    { DispatchBlock3Read , Decode10BitUnsignedOperandFunction };
    { DispatchBlock0ReadShift , Decode10BitUnsignedOperandFunction };
    { DispatchBlock0ReadShift , Decode10BitUnsignedOperandFunction };
    { DispatchBlock0ReadShift , Decode10BitUnsignedOperandFunction };
    { DispatchBlock0ReadShift , Decode10BitUnsignedOperandFunction };
    { DispatchBlock1ReadShift , Decode10BitUnsignedOperandFunction };
    { DispatchBlock1ReadShift , Decode10BitUnsignedOperandFunction };
    { DispatchBlock1ReadShift , Decode10BitUnsignedOperandFunction };
    { DispatchBlock1ReadShift , Decode10BitUnsignedOperandFunction };
    { DispatchBlock2ReadShift , Decode10BitUnsignedOperandFunction };
    { DispatchBlock2ReadShift , Decode10BitUnsignedOperandFunction };
    { DispatchBlock2ReadShift , Decode10BitUnsignedOperandFunction };
    { DispatchBlock2ReadShift , Decode10BitUnsignedOperandFunction };
    { DispatchBlock3ReadShift , Decode10BitUnsignedOperandFunction };
    { DispatchBlock3ReadShift , Decode10BitUnsignedOperandFunction };
    { DispatchBlock3ReadShift , Decode10BitUnsignedOperandFunction };
    { DispatchBlock3ReadShift , Decode10BitUnsignedOperandFunction };
    { DispatchBlock0ReadTest , Decode10BitUnsignedOperandFunction };
    { DispatchBlock0ReadTest , Decode10BitUnsignedOperandFunction };
    { DispatchBlock0ReadTest , Decode10BitUnsignedOperandFunction };
    { DispatchBlock0ReadTest , Decode10BitUnsignedOperandFunction };
    { DispatchBlock1ReadTest , Decode10BitUnsignedOperandFunction };
    { DispatchBlock1ReadTest , Decode10BitUnsignedOperandFunction };
    { DispatchBlock1ReadTest , Decode10BitUnsignedOperandFunction };
    { DispatchBlock1ReadTest , Decode10BitUnsignedOperandFunction };
    { DispatchBlock2ReadTest , Decode10BitUnsignedOperandFunction };
    { DispatchBlock2ReadTest , Decode10BitUnsignedOperandFunction };
    { DispatchBlock2ReadTest , Decode10BitUnsignedOperandFunction };
    { DispatchBlock2ReadTest , Decode10BitUnsignedOperandFunction };
    { DispatchBlock3ReadTest , Decode10BitUnsignedOperandFunction };
    { DispatchBlock3ReadTest , Decode10BitUnsignedOperandFunction };
    { DispatchBlock3ReadTest , Decode10BitUnsignedOperandFunction };
    { DispatchBlock3ReadTest , Decode10BitUnsignedOperandFunction };
    { DispatchFinishCallN , Decode10BitUnsignedOperandFunction };
    { DispatchFinishCallN , Decode10BitUnsignedOperandFunction };
    { DispatchFinishCallN , Decode10BitUnsignedOperandFunction };
    { DispatchFinishCallN , Decode10BitUnsignedOperandFunction };
    { DispatchFinishCallNApply , Decode10BitUnsignedOperandFunction };
    { DispatchFinishCallNApply , Decode10BitUnsignedOperandFunction };
    { DispatchFinishCallNApply , Decode10BitUnsignedOperandFunction };
    { DispatchFinishCallNApply , Decode10BitUnsignedOperandFunction };
    { DispatchFinishCallTos , Decode10BitUnsignedOperandFunction };
    { DispatchFinishCallTos , Decode10BitUnsignedOperandFunction };
    { DispatchFinishCallTos , Decode10BitUnsignedOperandFunction };
    { DispatchFinishCallTos , Decode10BitUnsignedOperandFunction };
    { DispatchFinishCallTosApply , Decode10BitUnsignedOperandFunction };
    { DispatchFinishCallTosApply , Decode10BitUnsignedOperandFunction };
    { DispatchFinishCallTosApply , Decode10BitUnsignedOperandFunction };
    { DispatchFinishCallTosApply , Decode10BitUnsignedOperandFunction } ].

(* c-emulator/dispatch.c:822-949 DispatchSetToCarFP *)
Definition PackedInstructionDecoder_3 : list DecoderPair :=
  [ { DispatchSetToCarFP , DecodeFPOperandFunction };
    { DispatchSetToCarLP , DecodeLPOperandFunction };
    { DispatchSetToCarSP , DecodeSPOperandFunction };
    { DispatchSetToCarImmediate , Decode8BitUnsignedOperandFunction };
    { DispatchSetToCdrFP , DecodeFPOperandFunction };
    { DispatchSetToCdrLP , DecodeLPOperandFunction };
    { DispatchSetToCdrSP , DecodeSPOperandFunction };
    { DispatchSetToCdrImmediate , Decode8BitUnsignedOperandFunction };
    { DispatchSetToCdrPushCarFP , DecodeFPOperandFunction };
    { DispatchSetToCdrPushCarLP , DecodeLPOperandFunction };
    { DispatchSetToCdrPushCarSP , DecodeSPOperandFunction };
    { DispatchSetToCdrPushCarImmediate , Decode8BitUnsignedOperandFunction };
    { DispatchIncrementFP , DecodeFPOperandFunction };
    { DispatchIncrementLP , DecodeLPOperandFunction };
    { DispatchIncrementSP , DecodeSPOperandFunction };
    { DispatchIncrementImmediate , Decode8BitUnsignedOperandFunction };
    { DispatchDecrementFP , DecodeFPOperandFunction };
    { DispatchDecrementLP , DecodeLPOperandFunction };
    { DispatchDecrementSP , DecodeSPOperandFunction };
    { DispatchDecrementImmediate , Decode8BitUnsignedOperandFunction };
    { DispatchPointerIncrementFP , DecodeFPOperandFunction };
    { DispatchPointerIncrementLP , DecodeLPOperandFunction };
    { DispatchPointerIncrementSP , DecodeSPOperandFunction };
    { DispatchPointerIncrementImmediate , Decode8BitUnsignedOperandFunction };
    { DispatchSetCdrCode1FP , DecodeFPOperandFunction };
    { DispatchSetCdrCode1LP , DecodeLPOperandFunction };
    { DispatchSetCdrCode1SP , DecodeSPOperandFunction };
    { DispatchSetCdrCode1Immediate , Decode8BitUnsignedOperandFunction };
    { DispatchSetCdrCode2FP , DecodeFPOperandFunction };
    { DispatchSetCdrCode2LP , DecodeLPOperandFunction };
    { DispatchSetCdrCode2SP , DecodeSPOperandFunction };
    { DispatchSetCdrCode2Immediate , Decode8BitUnsignedOperandFunction };
    { DispatchPushAddressFP , DecodeFPOperandFunction };
    { DispatchPushAddressLP , DecodeLPOperandFunction };
    { DispatchPushAddressSP , DecodeSPOperandFunction };
    { DispatchPushAddressImmediate , Decode8BitUnsignedOperandFunction };
    { DispatchSetSpToAddressFP , DecodeFPOperandFunction };
    { DispatchSetSpToAddressLP , DecodeLPOperandFunction };
    { DispatchSetSpToAddressSP , DecodeSPOperandFunction };
    { DispatchSetSpToAddressImmediate , Decode8BitUnsignedOperandFunction };
    { DispatchSetSpToAddressSaveTosFP , DecodeFPOperandFunction };
    { DispatchSetSpToAddressSaveTosLP , DecodeLPOperandFunction };
    { DispatchSetSpToAddressSaveTosSP , DecodeSPOperandFunction };
    { DispatchSetSpToAddressSaveTosImmediate , Decode8BitUnsignedOperandFunction };
    { DispatchIllegalInstruction , DecodeNoneFunction };
    { DispatchIllegalInstruction , DecodeNoneFunction };
    { DispatchIllegalInstruction , DecodeNoneFunction };
    { DispatchIllegalInstruction , DecodeNoneFunction };
    { DispatchReadInternalRegister , Decode10BitUnsignedOperandFunction };
    { DispatchReadInternalRegister , Decode10BitUnsignedOperandFunction };
    { DispatchReadInternalRegister , Decode10BitUnsignedOperandFunction };
    { DispatchReadInternalRegister , Decode10BitUnsignedOperandFunction };
    { DispatchWriteInternalRegister , Decode10BitUnsignedOperandFunction };
    { DispatchWriteInternalRegister , Decode10BitUnsignedOperandFunction };
    { DispatchWriteInternalRegister , Decode10BitUnsignedOperandFunction };
    { DispatchWriteInternalRegister , Decode10BitUnsignedOperandFunction };
    { DispatchCoprocessorRead , Decode10BitUnsignedOperandFunction };
    { DispatchCoprocessorRead , Decode10BitUnsignedOperandFunction };
    { DispatchCoprocessorRead , Decode10BitUnsignedOperandFunction };
    { DispatchCoprocessorRead , Decode10BitUnsignedOperandFunction };
    { DispatchCoprocessorWrite , Decode10BitUnsignedOperandFunction };
    { DispatchCoprocessorWrite , Decode10BitUnsignedOperandFunction };
    { DispatchCoprocessorWrite , Decode10BitUnsignedOperandFunction };
    { DispatchCoprocessorWrite , Decode10BitUnsignedOperandFunction };
    { DispatchBlock0ReadAluFP , DecodeFPOperandFunction };
    { DispatchBlock0ReadAluLP , DecodeLPOperandFunction };
    { DispatchBlock0ReadAluSP , DecodeSPOperandFunction };
    { DispatchBlock0ReadAluImmediate , Decode8BitUnsignedOperandFunction };
    { DispatchBlock1ReadAluFP , DecodeFPOperandFunction };
    { DispatchBlock1ReadAluLP , DecodeLPOperandFunction };
    { DispatchBlock1ReadAluSP , DecodeSPOperandFunction };
    { DispatchBlock1ReadAluImmediate , Decode8BitUnsignedOperandFunction };
    { DispatchBlock2ReadAluFP , DecodeFPOperandFunction };
    { DispatchBlock2ReadAluLP , DecodeLPOperandFunction };
    { DispatchBlock2ReadAluSP , DecodeSPOperandFunction };
    { DispatchBlock2ReadAluImmediate , Decode8BitUnsignedOperandFunction };
    { DispatchBlock3ReadAluFP , DecodeFPOperandFunction };
    { DispatchBlock3ReadAluLP , DecodeLPOperandFunction };
    { DispatchBlock3ReadAluSP , DecodeSPOperandFunction };
    { DispatchBlock3ReadAluImmediate , Decode8BitUnsignedOperandFunction };
    { DispatchIllegalInstruction , DecodeNoneFunction };
    { DispatchIllegalInstruction , DecodeNoneFunction };
    { DispatchIllegalInstruction , DecodeNoneFunction };
    { DispatchIllegalInstruction , DecodeNoneFunction };
    { DispatchIllegalInstruction , DecodeNoneFunction };
    { DispatchIllegalInstruction , DecodeNoneFunction };
    { DispatchIllegalInstruction , DecodeNoneFunction };
    { DispatchIllegalInstruction , DecodeNoneFunction };
    { DispatchIllegalInstruction , DecodeNoneFunction };
    { DispatchIllegalInstruction , DecodeNoneFunction };
    { DispatchIllegalInstruction , DecodeNoneFunction };
    { DispatchIllegalInstruction , DecodeNoneFunction };
    { DispatchIllegalInstruction , DecodeNoneFunction };
    { DispatchIllegalInstruction , DecodeNoneFunction };
    { DispatchIllegalInstruction , DecodeNoneFunction };
    { DispatchIllegalInstruction , DecodeNoneFunction };
    { DispatchLdb , Decode10BitUnsignedOperandFunction };
    { DispatchLdb , Decode10BitUnsignedOperandFunction };
    { DispatchLdb , Decode10BitUnsignedOperandFunction };
    { DispatchLdb , Decode10BitUnsignedOperandFunction };
    { DispatchCharLdb , Decode10BitUnsignedOperandFunction };
    { DispatchCharLdb , Decode10BitUnsignedOperandFunction };
    { DispatchCharLdb , Decode10BitUnsignedOperandFunction };
    { DispatchCharLdb , Decode10BitUnsignedOperandFunction };
    { DispatchPLdb , Decode10BitUnsignedOperandFunction };
    { DispatchPLdb , Decode10BitUnsignedOperandFunction };
    { DispatchPLdb , Decode10BitUnsignedOperandFunction };
    { DispatchPLdb , Decode10BitUnsignedOperandFunction };
    { DispatchPTagLdb , Decode10BitUnsignedOperandFunction };
    { DispatchPTagLdb , Decode10BitUnsignedOperandFunction };
    { DispatchPTagLdb , Decode10BitUnsignedOperandFunction };
    { DispatchPTagLdb , Decode10BitUnsignedOperandFunction };
    { DispatchBranch , DecodeBranchOperandFunction };
    { DispatchBranch , DecodeBranchOperandFunction };
    { DispatchBranch , DecodeBranchOperandFunction };
    { DispatchBranch , DecodeBranchOperandFunction };
    { DispatchLoopDecrementTos , DecodeBranchOperandFunction };
    { DispatchLoopDecrementTos , DecodeBranchOperandFunction };
    { DispatchLoopDecrementTos , DecodeBranchOperandFunction };
    { DispatchLoopDecrementTos , DecodeBranchOperandFunction };
    { DispatchEntryRestAccepted , DecodeEntryOperandFunction };
    { DispatchEntryRestAccepted , DecodeEntryOperandFunction };
    { DispatchEntryRestAccepted , DecodeEntryOperandFunction };
    { DispatchEntryRestAccepted , DecodeEntryOperandFunction };
    { DispatchEntryRestNotAccepted , DecodeEntryOperandFunction };
    { DispatchEntryRestNotAccepted , DecodeEntryOperandFunction };
    { DispatchEntryRestNotAccepted , DecodeEntryOperandFunction };
    { DispatchEntryRestNotAccepted , DecodeEntryOperandFunction } ].

(* c-emulator/dispatch.c:950-1077 DispatchRplacaFP *)
Definition PackedInstructionDecoder_4 : list DecoderPair :=
  [ { DispatchRplacaFP , DecodeFPOperandFunction };
    { DispatchRplacaLP , DecodeLPOperandFunction };
    { DispatchRplacaSP , DecodeSPOperandFunction };
    { DispatchRplacaImmediate , Decode8BitSignedOperandFunction };
    { DispatchRplacdFP , DecodeFPOperandFunction };
    { DispatchRplacdLP , DecodeLPOperandFunction };
    { DispatchRplacdSP , DecodeSPOperandFunction };
    { DispatchRplacdImmediate , Decode8BitSignedOperandFunction };
    { DispatchMultiplyFP , DecodeFPOperandFunction };
    { DispatchMultiplyLP , DecodeLPOperandFunction };
    { DispatchMultiplySP , DecodeSPOperandFunction };
    { DispatchMultiplyImmediate , Decode8BitSignedOperandFunction };
    { DispatchQuotientFP , DecodeFPOperandFunction };
    { DispatchQuotientLP , DecodeLPOperandFunction };
    { DispatchQuotientSP , DecodeSPOperandFunction };
    { DispatchQuotientImmediate , Decode8BitSignedOperandFunction };
    { DispatchCeilingFP , DecodeFPOperandFunction };
    { DispatchCeilingLP , DecodeLPOperandFunction };
    { DispatchCeilingSP , DecodeSPOperandFunction };
    { DispatchCeilingImmediate , Decode8BitSignedOperandFunction };
    { DispatchFloorFP , DecodeFPOperandFunction };
    { DispatchFloorLP , DecodeLPOperandFunction };
    { DispatchFloorSP , DecodeSPOperandFunction };
    { DispatchFloorImmediate , Decode8BitSignedOperandFunction };
    { DispatchTruncateFP , DecodeFPOperandFunction };
    { DispatchTruncateLP , DecodeLPOperandFunction };
    { DispatchTruncateSP , DecodeSPOperandFunction };
    { DispatchTruncateImmediate , Decode8BitSignedOperandFunction };
    { DispatchRoundFP , DecodeFPOperandFunction };
    { DispatchRoundLP , DecodeLPOperandFunction };
    { DispatchRoundSP , DecodeSPOperandFunction };
    { DispatchRoundImmediate , Decode8BitSignedOperandFunction };
    { DispatchIllegalInstruction , DecodeNoneFunction };
    { DispatchIllegalInstruction , DecodeNoneFunction };
    { DispatchIllegalInstruction , DecodeNoneFunction };
    { DispatchIllegalInstruction , DecodeNoneFunction };
    { DispatchRationalQuotientFP , DecodeFPOperandFunction };
    { DispatchRationalQuotientLP , DecodeLPOperandFunction };
    { DispatchRationalQuotientSP , DecodeSPOperandFunction };
    { DispatchRationalQuotientImmediate , Decode8BitSignedOperandFunction };
    { DispatchMinFP , DecodeFPOperandFunction };
    { DispatchMinLP , DecodeLPOperandFunction };
    { DispatchMinSP , DecodeSPOperandFunction };
    { DispatchMinImmediate , Decode8BitSignedOperandFunction };
    { DispatchMaxFP , DecodeFPOperandFunction };
    { DispatchMaxLP , DecodeLPOperandFunction };
    { DispatchMaxSP , DecodeSPOperandFunction };
    { DispatchMaxImmediate , Decode8BitSignedOperandFunction };
    { DispatchAluFP , DecodeFPOperandFunction };
    { DispatchAluLP , DecodeLPOperandFunction };
    { DispatchAluSP , DecodeSPOperandFunction };
    { DispatchAluImmediate , Decode8BitSignedOperandFunction };
    { DispatchLogandFP , DecodeFPOperandFunction };
    { DispatchLogandLP , DecodeLPOperandFunction };
    { DispatchLogandSP , DecodeSPOperandFunction };
    { DispatchLogandImmediate , Decode8BitSignedOperandFunction };
    { DispatchLogxorFP , DecodeFPOperandFunction };
    { DispatchLogxorLP , DecodeLPOperandFunction };
    { DispatchLogxorSP , DecodeSPOperandFunction };
    { DispatchLogxorImmediate , Decode8BitSignedOperandFunction };
    { DispatchLogiorFP , DecodeFPOperandFunction };
    { DispatchLogiorLP , DecodeLPOperandFunction };
    { DispatchLogiorSP , DecodeSPOperandFunction };
    { DispatchLogiorImmediate , Decode8BitSignedOperandFunction };
    { DispatchRotFP , DecodeFPOperandFunction };
    { DispatchRotLP , DecodeLPOperandFunction };
    { DispatchRotSP , DecodeSPOperandFunction };
    { DispatchRotImmediate , Decode8BitSignedOperandFunction };
    { DispatchLshFP , DecodeFPOperandFunction };
    { DispatchLshLP , DecodeLPOperandFunction };
    { DispatchLshSP , DecodeSPOperandFunction };
    { DispatchLshImmediate , Decode8BitSignedOperandFunction };
    { DispatchMultiplyDoubleFP , DecodeFPOperandFunction };
    { DispatchMultiplyDoubleLP , DecodeLPOperandFunction };
    { DispatchMultiplyDoubleSP , DecodeSPOperandFunction };
    { DispatchMultiplyDoubleImmediate , Decode8BitSignedOperandFunction };
    { DispatchLshcBignumStepFP , DecodeFPOperandFunction };
    { DispatchLshcBignumStepLP , DecodeLPOperandFunction };
    { DispatchLshcBignumStepSP , DecodeSPOperandFunction };
    { DispatchLshcBignumStepImmediate , Decode8BitSignedOperandFunction };
    { DispatchStackBltFP , DecodeFPOperandFunction };
    { DispatchStackBltLP , DecodeLPOperandFunction };
    { DispatchStackBltSP , DecodeSPOperandFunction };
    { DispatchStackBltImmediate , Decode8BitSignedOperandFunction };
    { DispatchRgetfFP , DecodeFPOperandFunction };
    { DispatchRgetfLP , DecodeLPOperandFunction };
    { DispatchRgetfSP , DecodeSPOperandFunction };
    { DispatchRgetfImmediate , Decode8BitUnsignedOperandFunction };
    { DispatchMemberFP , DecodeFPOperandFunction };
    { DispatchMemberLP , DecodeLPOperandFunction };
    { DispatchMemberSP , DecodeSPOperandFunction };
    { DispatchMemberImmediate , Decode8BitUnsignedOperandFunction };
    { DispatchAssocFP , DecodeFPOperandFunction };
    { DispatchAssocLP , DecodeLPOperandFunction };
    { DispatchAssocSP , DecodeSPOperandFunction };
    { DispatchAssocImmediate , Decode8BitUnsignedOperandFunction };
    { DispatchPointerPlusFP , DecodeFPOperandFunction };
    { DispatchPointerPlusLP , DecodeLPOperandFunction };
    { DispatchPointerPlusSP , DecodeSPOperandFunction };
    { DispatchPointerPlusImmediate , Decode8BitSignedOperandFunction };
    { DispatchPointerDifferenceFP , DecodeFPOperandFunction };
    { DispatchPointerDifferenceLP , DecodeLPOperandFunction };
    { DispatchPointerDifferenceSP , DecodeSPOperandFunction };
    { DispatchPointerDifferenceImmediate , Decode8BitSignedOperandFunction };
    { DispatchAshFP , DecodeFPOperandFunction };
    { DispatchAshLP , DecodeLPOperandFunction };
    { DispatchAshSP , DecodeSPOperandFunction };
    { DispatchAshImmediate , Decode8BitSignedOperandFunction };
    { DispatchStoreConditionalFP , DecodeFPOperandFunction };
    { DispatchStoreConditionalLP , DecodeLPOperandFunction };
    { DispatchStoreConditionalSP , DecodeSPOperandFunction };
    { DispatchStoreConditionalImmediate , Decode8BitSignedOperandFunction };
    { DispatchMemoryWriteFP , DecodeFPOperandFunction };
    { DispatchMemoryWriteLP , DecodeLPOperandFunction };
    { DispatchMemoryWriteSP , DecodeSPOperandFunction };
    { DispatchMemoryWriteImmediate , Decode8BitSignedOperandFunction };
    { DispatchPStoreContentsFP , DecodeFPOperandFunction };
    { DispatchPStoreContentsLP , DecodeLPOperandFunction };
    { DispatchPStoreContentsSP , DecodeSPOperandFunction };
    { DispatchPStoreContentsImmediate , Decode8BitSignedOperandFunction };
    { DispatchBindLocativeToValueFP , DecodeFPOperandFunction };
    { DispatchBindLocativeToValueLP , DecodeLPOperandFunction };
    { DispatchBindLocativeToValueSP , DecodeSPOperandFunction };
    { DispatchBindLocativeToValueImmediate , Decode8BitSignedOperandFunction };
    { DispatchUnifyFP , DecodeFPOperandFunction };
    { DispatchUnifyLP , DecodeLPOperandFunction };
    { DispatchUnifySP , DecodeSPOperandFunction };
    { DispatchUnifyImmediate , Decode8BitSignedOperandFunction } ].

(* c-emulator/dispatch.c:1078-1205 DispatchPopLexicalVarFP *)
Definition PackedInstructionDecoder_5 : list DecoderPair :=
  [ { DispatchPopLexicalVarFP , DecodeFPOperandFunction };
    { DispatchPopLexicalVarLP , DecodeLPOperandFunction };
    { DispatchPopLexicalVarSP , DecodeSPOperandFunction };
    { DispatchPopLexicalVarImmediate , Decode8BitSignedOperandFunction };
    { DispatchPopLexicalVarFP , DecodeFPOperandFunction };
    { DispatchPopLexicalVarLP , DecodeLPOperandFunction };
    { DispatchPopLexicalVarSP , DecodeSPOperandFunction };
    { DispatchPopLexicalVarImmediate , Decode8BitSignedOperandFunction };
    { DispatchPopLexicalVarFP , DecodeFPOperandFunction };
    { DispatchPopLexicalVarLP , DecodeLPOperandFunction };
    { DispatchPopLexicalVarSP , DecodeSPOperandFunction };
    { DispatchPopLexicalVarImmediate , Decode8BitSignedOperandFunction };
    { DispatchPopLexicalVarFP , DecodeFPOperandFunction };
    { DispatchPopLexicalVarLP , DecodeLPOperandFunction };
    { DispatchPopLexicalVarSP , DecodeSPOperandFunction };
    { DispatchPopLexicalVarImmediate , Decode8BitSignedOperandFunction };
    { DispatchPopLexicalVarFP , DecodeFPOperandFunction };
    { DispatchPopLexicalVarLP , DecodeLPOperandFunction };
    { DispatchPopLexicalVarSP , DecodeSPOperandFunction };
    { DispatchPopLexicalVarImmediate , Decode8BitSignedOperandFunction };
    { DispatchPopLexicalVarFP , DecodeFPOperandFunction };
    { DispatchPopLexicalVarLP , DecodeLPOperandFunction };
    { DispatchPopLexicalVarSP , DecodeSPOperandFunction };
    { DispatchPopLexicalVarImmediate , Decode8BitSignedOperandFunction };
    { DispatchPopLexicalVarFP , DecodeFPOperandFunction };
    { DispatchPopLexicalVarLP , DecodeLPOperandFunction };
    { DispatchPopLexicalVarSP , DecodeSPOperandFunction };
    { DispatchPopLexicalVarImmediate , Decode8BitSignedOperandFunction };
    { DispatchPopLexicalVarFP , DecodeFPOperandFunction };
    { DispatchPopLexicalVarLP , DecodeLPOperandFunction };
    { DispatchPopLexicalVarSP , DecodeSPOperandFunction };
    { DispatchPopLexicalVarImmediate , Decode8BitSignedOperandFunction };
    { DispatchMovemLexicalVarFP , DecodeFPOperandFunction };
    { DispatchMovemLexicalVarLP , DecodeLPOperandFunction };
    { DispatchMovemLexicalVarSP , DecodeSPOperandFunction };
    { DispatchMovemLexicalVarImmediate , Decode8BitSignedOperandFunction };
    { DispatchMovemLexicalVarFP , DecodeFPOperandFunction };
    { DispatchMovemLexicalVarLP , DecodeLPOperandFunction };
    { DispatchMovemLexicalVarSP , DecodeSPOperandFunction };
    { DispatchMovemLexicalVarImmediate , Decode8BitSignedOperandFunction };
    { DispatchMovemLexicalVarFP , DecodeFPOperandFunction };
    { DispatchMovemLexicalVarLP , DecodeLPOperandFunction };
    { DispatchMovemLexicalVarSP , DecodeSPOperandFunction };
    { DispatchMovemLexicalVarImmediate , Decode8BitSignedOperandFunction };
    { DispatchMovemLexicalVarFP , DecodeFPOperandFunction };
    { DispatchMovemLexicalVarLP , DecodeLPOperandFunction };
    { DispatchMovemLexicalVarSP , DecodeSPOperandFunction };
    { DispatchMovemLexicalVarImmediate , Decode8BitSignedOperandFunction };
    { DispatchMovemLexicalVarFP , DecodeFPOperandFunction };
    { DispatchMovemLexicalVarLP , DecodeLPOperandFunction };
    { DispatchMovemLexicalVarSP , DecodeSPOperandFunction };
    { DispatchMovemLexicalVarImmediate , Decode8BitSignedOperandFunction };
    { DispatchMovemLexicalVarFP , DecodeFPOperandFunction };
    { DispatchMovemLexicalVarLP , DecodeLPOperandFunction };
    { DispatchMovemLexicalVarSP , DecodeSPOperandFunction };
    { DispatchMovemLexicalVarImmediate , Decode8BitSignedOperandFunction };
    { DispatchMovemLexicalVarFP , DecodeFPOperandFunction };
    { DispatchMovemLexicalVarLP , DecodeLPOperandFunction };
    { DispatchMovemLexicalVarSP , DecodeSPOperandFunction };
    { DispatchMovemLexicalVarImmediate , Decode8BitSignedOperandFunction };
    { DispatchMovemLexicalVarFP , DecodeFPOperandFunction };
    { DispatchMovemLexicalVarLP , DecodeLPOperandFunction };
    { DispatchMovemLexicalVarSP , DecodeSPOperandFunction };
    { DispatchMovemLexicalVarImmediate , Decode8BitSignedOperandFunction };
    { DispatchEqualNumberFP , DecodeFPOperandFunction };
    { DispatchEqualNumberLP , DecodeLPOperandFunction };
    { DispatchEqualNumberSP , DecodeSPOperandFunction };
    { DispatchEqualNumberImmediate , Decode8BitSignedOperandFunction };
    { DispatchLesspFP , DecodeFPOperandFunction };
    { DispatchLesspLP , DecodeLPOperandFunction };
    { DispatchLesspSP , DecodeSPOperandFunction };
    { DispatchLesspImmediate , Decode8BitSignedOperandFunction };
    { DispatchGreaterpFP , DecodeFPOperandFunction };
    { DispatchGreaterpLP , DecodeLPOperandFunction };
    { DispatchGreaterpSP , DecodeSPOperandFunction };
    { DispatchGreaterpImmediate , Decode8BitSignedOperandFunction };
    { DispatchEqlFP , DecodeFPOperandFunction };
    { DispatchEqlLP , DecodeLPOperandFunction };
    { DispatchEqlSP , DecodeSPOperandFunction };
    { DispatchEqlImmediate , Decode8BitSignedOperandFunction };
    { DispatchEqualNumberNoPopFP , DecodeFPOperandFunction };
    { DispatchEqualNumberNoPopLP , DecodeLPOperandFunction };
    { DispatchEqualNumberNoPopSP , DecodeSPOperandFunction };
    { DispatchEqualNumberNoPopImmediate , Decode8BitSignedOperandFunction };
    { DispatchLesspNoPopFP , DecodeFPOperandFunction };
    { DispatchLesspNoPopLP , DecodeLPOperandFunction };
    { DispatchLesspNoPopSP , DecodeSPOperandFunction };
    { DispatchLesspNoPopImmediate , Decode8BitSignedOperandFunction };
    { DispatchGreaterpNoPopFP , DecodeFPOperandFunction };
    { DispatchGreaterpNoPopLP , DecodeLPOperandFunction };
    { DispatchGreaterpNoPopSP , DecodeSPOperandFunction };
    { DispatchGreaterpNoPopImmediate , Decode8BitSignedOperandFunction };
    { DispatchEqlNoPopFP , DecodeFPOperandFunction };
    { DispatchEqlNoPopLP , DecodeLPOperandFunction };
    { DispatchEqlNoPopSP , DecodeSPOperandFunction };
    { DispatchEqlNoPopImmediate , Decode8BitSignedOperandFunction };
    { DispatchEqFP , DecodeFPOperandFunction };
    { DispatchEqLP , DecodeLPOperandFunction };
    { DispatchEqSP , DecodeSPOperandFunction };
    { DispatchEqImmediate , Decode8BitSignedOperandFunction };
    { DispatchIllegalInstruction , DecodeNoneFunction };
    { DispatchIllegalInstruction , DecodeNoneFunction };
    { DispatchIllegalInstruction , DecodeNoneFunction };
    { DispatchIllegalInstruction , DecodeNoneFunction };
    { DispatchIllegalInstruction , DecodeNoneFunction };
    { DispatchIllegalInstruction , DecodeNoneFunction };
    { DispatchIllegalInstruction , DecodeNoneFunction };
    { DispatchIllegalInstruction , DecodeNoneFunction };
    { DispatchLogtestFP , DecodeFPOperandFunction };
    { DispatchLogtestLP , DecodeLPOperandFunction };
    { DispatchLogtestSP , DecodeSPOperandFunction };
    { DispatchLogtestImmediate , Decode8BitSignedOperandFunction };
    { DispatchEqNoPopFP , DecodeFPOperandFunction };
    { DispatchEqNoPopLP , DecodeLPOperandFunction };
    { DispatchEqNoPopSP , DecodeSPOperandFunction };
    { DispatchEqNoPopImmediate , Decode8BitSignedOperandFunction };
    { DispatchIllegalInstruction , DecodeNoneFunction };
    { DispatchIllegalInstruction , DecodeNoneFunction };
    { DispatchIllegalInstruction , DecodeNoneFunction };
    { DispatchIllegalInstruction , DecodeNoneFunction };
    { DispatchIllegalInstruction , DecodeNoneFunction };
    { DispatchIllegalInstruction , DecodeNoneFunction };
    { DispatchIllegalInstruction , DecodeNoneFunction };
    { DispatchIllegalInstruction , DecodeNoneFunction };
    { DispatchLogtestNoPopFP , DecodeFPOperandFunction };
    { DispatchLogtestNoPopLP , DecodeLPOperandFunction };
    { DispatchLogtestNoPopSP , DecodeSPOperandFunction };
    { DispatchLogtestNoPopImmediate , Decode8BitSignedOperandFunction } ].

(* c-emulator/dispatch.c:1206-1333 DispatchAddFP *)
Definition PackedInstructionDecoder_6 : list DecoderPair :=
  [ { DispatchAddFP , DecodeFPOperandFunction };
    { DispatchAddLP , DecodeLPOperandFunction };
    { DispatchAddSP , DecodeSPOperandFunction };
    { DispatchAddImmediate , Decode8BitUnsignedOperandFunction };
    { DispatchSubFP , DecodeFPOperandFunction };
    { DispatchSubLP , DecodeLPOperandFunction };
    { DispatchSubSP , DecodeSPOperandFunction };
    { DispatchSubImmediate , Decode8BitUnsignedOperandFunction };
    { Dispatch32BitPlusFP , DecodeFPOperandFunction };
    { Dispatch32BitPlusLP , DecodeLPOperandFunction };
    { Dispatch32BitPlusSP , DecodeSPOperandFunction };
    { Dispatch32BitPlusImmediate , Decode8BitUnsignedOperandFunction };
    { Dispatch32BitDifferenceFP , DecodeFPOperandFunction };
    { Dispatch32BitDifferenceLP , DecodeLPOperandFunction };
    { Dispatch32BitDifferenceSP , DecodeSPOperandFunction };
    { Dispatch32BitDifferenceImmediate , Decode8BitUnsignedOperandFunction };
    { DispatchAddBignumStepFP , DecodeFPOperandFunction };
    { DispatchAddBignumStepLP , DecodeLPOperandFunction };
    { DispatchAddBignumStepSP , DecodeSPOperandFunction };
    { DispatchAddBignumStepImmediate , Decode8BitUnsignedOperandFunction };
    { DispatchSubBignumStepFP , DecodeFPOperandFunction };
    { DispatchSubBignumStepLP , DecodeLPOperandFunction };
    { DispatchSubBignumStepSP , DecodeSPOperandFunction };
    { DispatchSubBignumStepImmediate , Decode8BitUnsignedOperandFunction };
    { DispatchMultiplyBignumStepFP , DecodeFPOperandFunction };
    { DispatchMultiplyBignumStepLP , DecodeLPOperandFunction };
    { DispatchMultiplyBignumStepSP , DecodeSPOperandFunction };
    { DispatchMultiplyBignumStepImmediate , Decode8BitUnsignedOperandFunction };
    { DispatchDivideBignumStepFP , DecodeFPOperandFunction };
    { DispatchDivideBignumStepLP , DecodeLPOperandFunction };
    { DispatchDivideBignumStepSP , DecodeSPOperandFunction };
    { DispatchDivideBignumStepImmediate , Decode8BitUnsignedOperandFunction };
    { DispatchAset1FP , DecodeFPOperandFunction };
    { DispatchAset1LP , DecodeLPOperandFunction };
    { DispatchAset1SP , DecodeSPOperandFunction };
    { DispatchAset1Immediate , Decode8BitUnsignedOperandFunction };
    { DispatchAllocateListBlockFP , DecodeFPOperandFunction };
    { DispatchAllocateListBlockLP , DecodeLPOperandFunction };
    { DispatchAllocateListBlockSP , DecodeSPOperandFunction };
    { DispatchAllocateListBlockImmediate , Decode8BitUnsignedOperandFunction };
    { DispatchAref1FP , DecodeFPOperandFunction };
    { DispatchAref1LP , DecodeLPOperandFunction };
    { DispatchAref1SP , DecodeSPOperandFunction };
    { DispatchAref1Immediate , Decode8BitUnsignedOperandFunction };
    { DispatchAloc1FP , DecodeFPOperandFunction };
    { DispatchAloc1LP , DecodeLPOperandFunction };
    { DispatchAloc1SP , DecodeSPOperandFunction };
    { DispatchAloc1Immediate , Decode8BitUnsignedOperandFunction };
    { DispatchStoreArrayLeaderFP , DecodeFPOperandFunction };
    { DispatchStoreArrayLeaderLP , DecodeLPOperandFunction };
    { DispatchStoreArrayLeaderSP , DecodeSPOperandFunction };
    { DispatchStoreArrayLeaderImmediate , Decode8BitUnsignedOperandFunction };
    { DispatchAllocateStructureBlockFP , DecodeFPOperandFunction };
    { DispatchAllocateStructureBlockLP , DecodeLPOperandFunction };
    { DispatchAllocateStructureBlockSP , DecodeSPOperandFunction };
    { DispatchAllocateStructureBlockImmediate , Decode8BitUnsignedOperandFunction };
    { DispatchArrayLeaderFP , DecodeFPOperandFunction };
    { DispatchArrayLeaderLP , DecodeLPOperandFunction };
    { DispatchArrayLeaderSP , DecodeSPOperandFunction };
    { DispatchArrayLeaderImmediate , Decode8BitUnsignedOperandFunction };
    { DispatchAlocLeaderFP , DecodeFPOperandFunction };
    { DispatchAlocLeaderLP , DecodeLPOperandFunction };
    { DispatchAlocLeaderSP , DecodeSPOperandFunction };
    { DispatchAlocLeaderImmediate , Decode8BitUnsignedOperandFunction };
    { DispatchPopInstanceVariable , Decode8BitUnsignedOperandFunction };
    { DispatchPopInstanceVariable , Decode8BitUnsignedOperandFunction };
    { DispatchPopInstanceVariable , Decode8BitUnsignedOperandFunction };
    { DispatchPopInstanceVariable , Decode8BitUnsignedOperandFunction };
    { DispatchMovemInstanceVariable , Decode8BitUnsignedOperandFunction };
    { DispatchMovemInstanceVariable , Decode8BitUnsignedOperandFunction };
    { DispatchMovemInstanceVariable , Decode8BitUnsignedOperandFunction };
    { DispatchMovemInstanceVariable , Decode8BitUnsignedOperandFunction };
    { DispatchPopInstanceVariableOrdered , Decode8BitUnsignedOperandFunction };
    { DispatchPopInstanceVariableOrdered , Decode8BitUnsignedOperandFunction };
    { DispatchPopInstanceVariableOrdered , Decode8BitUnsignedOperandFunction };
    { DispatchPopInstanceVariableOrdered , Decode8BitUnsignedOperandFunction };
    { DispatchMovemInstanceVariableOrdered , Decode8BitUnsignedOperandFunction };
    { DispatchMovemInstanceVariableOrdered , Decode8BitUnsignedOperandFunction };
    { DispatchMovemInstanceVariableOrdered , Decode8BitUnsignedOperandFunction };
    { DispatchMovemInstanceVariableOrdered , Decode8BitUnsignedOperandFunction };
    { DispatchInstanceRefFP , DecodeFPOperandFunction };
    { DispatchInstanceRefLP , DecodeLPOperandFunction };
    { DispatchInstanceRefSP , DecodeSPOperandFunction };
    { DispatchInstanceRefImmediate , Decode8BitUnsignedOperandFunction };
    { DispatchInstanceSetFP , DecodeFPOperandFunction };
    { DispatchInstanceSetLP , DecodeLPOperandFunction };
    { DispatchInstanceSetSP , DecodeSPOperandFunction };
    { DispatchInstanceSetImmediate , Decode8BitUnsignedOperandFunction };
    { DispatchInstanceLocFP , DecodeFPOperandFunction };
    { DispatchInstanceLocLP , DecodeLPOperandFunction };
    { DispatchInstanceLocSP , DecodeSPOperandFunction };
    { DispatchInstanceLocImmediate , Decode8BitUnsignedOperandFunction };
    { DispatchSetTagFP , DecodeFPOperandFunction };
    { DispatchSetTagLP , DecodeLPOperandFunction };
    { DispatchSetTagSP , DecodeSPOperandFunction };
    { DispatchSetTagImmediate , Decode8BitUnsignedOperandFunction };
    { DispatchIllegalInstruction , DecodeNoneFunction };
    { DispatchIllegalInstruction , DecodeNoneFunction };
    { DispatchIllegalInstruction , DecodeNoneFunction };
    { DispatchIllegalInstruction , DecodeNoneFunction };
    { DispatchUnsignedLesspFP , DecodeFPOperandFunction };
    { DispatchUnsignedLesspLP , DecodeLPOperandFunction };
    { DispatchUnsignedLesspSP , DecodeSPOperandFunction };
    { DispatchUnsignedLesspImmediate , Decode8BitUnsignedOperandFunction };
    { DispatchIllegalInstruction , DecodeNoneFunction };
    { DispatchIllegalInstruction , DecodeNoneFunction };
    { DispatchIllegalInstruction , DecodeNoneFunction };
    { DispatchIllegalInstruction , DecodeNoneFunction };
    { DispatchIllegalInstruction , DecodeNoneFunction };
    { DispatchIllegalInstruction , DecodeNoneFunction };
    { DispatchIllegalInstruction , DecodeNoneFunction };
    { DispatchIllegalInstruction , DecodeNoneFunction };
    { DispatchIllegalInstruction , DecodeNoneFunction };
    { DispatchIllegalInstruction , DecodeNoneFunction };
    { DispatchIllegalInstruction , DecodeNoneFunction };
    { DispatchIllegalInstruction , DecodeNoneFunction };
    { DispatchUnsignedLesspNoPopFP , DecodeFPOperandFunction };
    { DispatchUnsignedLesspNoPopLP , DecodeLPOperandFunction };
    { DispatchUnsignedLesspNoPopSP , DecodeSPOperandFunction };
    { DispatchUnsignedLesspNoPopImmediate , Decode8BitUnsignedOperandFunction };
    { DispatchIllegalInstruction , DecodeNoneFunction };
    { DispatchIllegalInstruction , DecodeNoneFunction };
    { DispatchIllegalInstruction , DecodeNoneFunction };
    { DispatchIllegalInstruction , DecodeNoneFunction };
    { DispatchIllegalInstruction , DecodeNoneFunction };
    { DispatchIllegalInstruction , DecodeNoneFunction };
    { DispatchIllegalInstruction , DecodeNoneFunction };
    { DispatchIllegalInstruction , DecodeNoneFunction } ].

(* c-emulator/dispatch.c:1334-1462 DispatchPopFP *)
Definition PackedInstructionDecoder_7 : list DecoderPair :=
  [ { DispatchPopFP , DecodeFPOperandFunction };
    { DispatchPopLP , DecodeLPOperandFunction };
    { DispatchPopSP , DecodeSPOperandFunction };
    { DispatchPopImmediate , Decode8BitUnsignedOperandFunction };
    { DispatchMovemFP , DecodeFPOperandFunction };
    { DispatchMovemLP , DecodeLPOperandFunction };
    { DispatchMovemSP , DecodeSPOperandFunction };
    { DispatchMovemImmediate , Decode8BitUnsignedOperandFunction };
    { DispatchMergeCdrNoPopFP , DecodeFPOperandFunction };
    { DispatchMergeCdrNoPopLP , DecodeLPOperandFunction };
    { DispatchMergeCdrNoPopSP , DecodeSPOperandFunction };
    { DispatchMergeCdrNoPopImmediate , Decode8BitUnsignedOperandFunction };
    { DispatchIllegalInstruction , DecodeNoneFunction };
    { DispatchIllegalInstruction , DecodeNoneFunction };
    { DispatchIllegalInstruction , DecodeNoneFunction };
    { DispatchIllegalInstruction , DecodeNoneFunction };
    { DispatchIllegalInstruction , DecodeNoneFunction };
    { DispatchIllegalInstruction , DecodeNoneFunction };
    { DispatchIllegalInstruction , DecodeNoneFunction };
    { DispatchIllegalInstruction , DecodeNoneFunction };
    { DispatchIllegalInstruction , DecodeNoneFunction };
    { DispatchIllegalInstruction , DecodeNoneFunction };
    { DispatchIllegalInstruction , DecodeNoneFunction };
    { DispatchIllegalInstruction , DecodeNoneFunction };
    { DispatchIllegalInstruction , DecodeNoneFunction };
    { DispatchIllegalInstruction , DecodeNoneFunction };
    { DispatchIllegalInstruction , DecodeNoneFunction };
    { DispatchIllegalInstruction , DecodeNoneFunction };
    { DispatchIllegalInstruction , DecodeNoneFunction };
    { DispatchIllegalInstruction , DecodeNoneFunction };
    { DispatchIllegalInstruction , DecodeNoneFunction };
    { DispatchIllegalInstruction , DecodeNoneFunction };
    { DispatchFastAref1FP , DecodeFPOperandFunction };
    { DispatchFastAref1LP , DecodeLPOperandFunction };
    { DispatchFastAref1SP , DecodeSPOperandFunction };
    { DispatchFastAref1Immediate , Decode8BitUnsignedOperandFunction };
    { DispatchFastAset1FP , DecodeFPOperandFunction };
    { DispatchFastAset1LP , DecodeLPOperandFunction };
    { DispatchFastAset1SP , DecodeSPOperandFunction };
    { DispatchFastAset1Immediate , Decode8BitUnsignedOperandFunction };
    { DispatchStackBltAddressFP , DecodeFPOperandFunction };
    { DispatchStackBltAddressLP , DecodeLPOperandFunction };
    { DispatchStackBltAddressSP , DecodeSPOperandFunction };
    { DispatchStackBltAddressImmediate , Decode8BitUnsignedOperandFunction };
    { DispatchIllegalInstruction , DecodeNoneFunction };
    { DispatchIllegalInstruction , DecodeNoneFunction };
    { DispatchIllegalInstruction , DecodeNoneFunction };
    { DispatchIllegalInstruction , DecodeNoneFunction };
    { DispatchIllegalInstruction , DecodeNoneFunction };
    { DispatchIllegalInstruction , DecodeNoneFunction };
    { DispatchIllegalInstruction , DecodeNoneFunction };
    { DispatchIllegalInstruction , DecodeNoneFunction };
    { DispatchIllegalInstruction , DecodeNoneFunction };
    { DispatchIllegalInstruction , DecodeNoneFunction };
    { DispatchIllegalInstruction , DecodeNoneFunction };
    { DispatchIllegalInstruction , DecodeNoneFunction };
    { DispatchIllegalInstruction , DecodeNoneFunction };
    { DispatchIllegalInstruction , DecodeNoneFunction };
    { DispatchIllegalInstruction , DecodeNoneFunction };
    { DispatchIllegalInstruction , DecodeNoneFunction };
    { DispatchIllegalInstruction , DecodeNoneFunction };
    { DispatchIllegalInstruction , DecodeNoneFunction };
    { DispatchIllegalInstruction , DecodeNoneFunction };
    { DispatchIllegalInstruction , DecodeNoneFunction };
    { DispatchIllegalInstruction , DecodeNoneFunction };
    { DispatchIllegalInstruction , DecodeNoneFunction };
    { DispatchIllegalInstruction , DecodeNoneFunction };
    { DispatchIllegalInstruction , DecodeNoneFunction };
    { DispatchIllegalInstruction , DecodeNoneFunction };
    { DispatchIllegalInstruction , DecodeNoneFunction };
    { DispatchIllegalInstruction , DecodeNoneFunction };
    { DispatchIllegalInstruction , DecodeNoneFunction };
    { DispatchIllegalInstruction , DecodeNoneFunction };
    { DispatchIllegalInstruction , DecodeNoneFunction };
    { DispatchIllegalInstruction , DecodeNoneFunction };
    { DispatchIllegalInstruction , DecodeNoneFunction };
    { DispatchIllegalInstruction , DecodeNoneFunction };
    { DispatchIllegalInstruction , DecodeNoneFunction };
    { DispatchIllegalInstruction , DecodeNoneFunction };
    { DispatchIllegalInstruction , DecodeNoneFunction };
    { DispatchIllegalInstruction , DecodeNoneFunction };
    { DispatchIllegalInstruction , DecodeNoneFunction };
    { DispatchIllegalInstruction , DecodeNoneFunction };
    { DispatchIllegalInstruction , DecodeNoneFunction };
    { DispatchIllegalInstruction , DecodeNoneFunction };
    { DispatchIllegalInstruction , DecodeNoneFunction };
    { DispatchIllegalInstruction , DecodeNoneFunction };
    { DispatchIllegalInstruction , DecodeNoneFunction };
    { DispatchIllegalInstruction , DecodeNoneFunction };
    { DispatchIllegalInstruction , DecodeNoneFunction };
    { DispatchIllegalInstruction , DecodeNoneFunction };
    { DispatchIllegalInstruction , DecodeNoneFunction };
    { DispatchIllegalInstruction , DecodeNoneFunction };
    { DispatchIllegalInstruction , DecodeNoneFunction };
    { DispatchIllegalInstruction , DecodeNoneFunction };
    { DispatchIllegalInstruction , DecodeNoneFunction };
    { DispatchDpb , Decode10BitUnsignedOperandFunction };
    { DispatchDpb , Decode10BitUnsignedOperandFunction };
    { DispatchDpb , Decode10BitUnsignedOperandFunction };
    { DispatchDpb , Decode10BitUnsignedOperandFunction };
    { DispatchCharDpb , Decode10BitUnsignedOperandFunction };
    { DispatchCharDpb , Decode10BitUnsignedOperandFunction };
    { DispatchCharDpb , Decode10BitUnsignedOperandFunction };
    { DispatchCharDpb , Decode10BitUnsignedOperandFunction };
    { DispatchPDpb , Decode10BitUnsignedOperandFunction };
    { DispatchPDpb , Decode10BitUnsignedOperandFunction };
    { DispatchPDpb , Decode10BitUnsignedOperandFunction };
    { DispatchPDpb , Decode10BitUnsignedOperandFunction };
    { DispatchPTagDpb , Decode10BitUnsignedOperandFunction };
    { DispatchPTagDpb , Decode10BitUnsignedOperandFunction };
    { DispatchPTagDpb , Decode10BitUnsignedOperandFunction };
    { DispatchPTagDpb , Decode10BitUnsignedOperandFunction };
    { DispatchIllegalInstruction , DecodeNoneFunction };
    { DispatchIllegalInstruction , DecodeNoneFunction };
    { DispatchIllegalInstruction , DecodeNoneFunction };
    { DispatchIllegalInstruction , DecodeNoneFunction };
    { DispatchLoopIncrementTosLessThan , DecodeBranchOperandFunction };
    { DispatchLoopIncrementTosLessThan , DecodeBranchOperandFunction };
    { DispatchLoopIncrementTosLessThan , DecodeBranchOperandFunction };
    { DispatchLoopIncrementTosLessThan , DecodeBranchOperandFunction };
    { DispatchCatchOpen , Decode8BitUnsignedOperandFunction };
    { DispatchCatchOpen , Decode8BitUnsignedOperandFunction };
    { DispatchCatchOpen , Decode8BitUnsignedOperandFunction };
    { DispatchCatchOpen , Decode8BitUnsignedOperandFunction };
    { DispatchHack , Decode10BitUnsignedOperandFunction };
    { DispatchHack , Decode10BitUnsignedOperandFunction };
    { DispatchHack , Decode10BitUnsignedOperandFunction };
    { DispatchHack , Decode10BitUnsignedOperandFunction } ].

Definition PackedInstructionDecoder : list DecoderPair := (* c-emulator/dispatch.c:436 PackedInstructionDecoder *)
  PackedInstructionDecoder_0 ++ PackedInstructionDecoder_1 ++ PackedInstructionDecoder_2
  ++ PackedInstructionDecoder_3 ++ PackedInstructionDecoder_4 ++ PackedInstructionDecoder_5
  ++ PackedInstructionDecoder_6 ++ PackedInstructionDecoder_7.

(** ** Filling the cache *)

(** [p = PackedInstructionDecoder + (instruction >> 8)], an instruction being 18 bits
    wide (see [PackedInstructionDecoder_total]). *)
Definition decoder_of (instruction : Z) : DecoderPair :=
  default { DispatchIllegalInstruction , DecodeNoneFunction }
          (nth_Z PackedInstructionDecoder (Z.shiftr instruction 8)).

Definition decode_half (instruction operand_source : Z) (cp : InstructionCacheLine) :
    InstructionCacheLine :=
  let p := decoder_of instruction in
  decode p operand_source (set_cl_code (dispatch p) (set_cl_instruction instruction cp)).

(** The even half is decoded from the whole data word, the odd half from the
    18-bit instruction assembled from the tag and the data. *)
Definition even_instruction (data : Z) : Z := Z.land data 262143. (* c-emulator/dispatch.c:2273 instruction *)
Definition odd_instruction (tag data : Z) : Z := (* c-emulator/dispatch.c:2279 instruction *)
  Z.lor (Z.shiftl (Z.land tag 15) 14) (ldb 14 18 data).

(* c-emulator/dispatch.c:2269-2284 DecodePackedWord *)
Definition DecodePackedWord (tag data : Z) (lines : InstructionCacheLine * InstructionCacheLine) :=
  (decode_half (even_instruction data) (s32 data) lines.1,
   decode_half (odd_instruction tag data) (odd_instruction tag data) lines.2).

Definition illegal_line (cp : InstructionCacheLine) : InstructionCacheLine :=
  set_cl_code IllegalInstructionDecoder (set_cl_operand 0 (set_cl_instruction 0 cp)).

(* c-emulator/dispatch.c:2258-2268 PackedInstructionP *)
Definition decode_word (tag data : Z) (lines : InstructionCacheLine * InstructionCacheLine) :=
  if PackedInstructionP tag then DecodePackedWord tag data lines
  else (set_cl_code (default DispatchIllegalInstruction (nth_Z WordInstructionDecoder (TagType tag)))
          (set_cl_operand (s32 data) (set_cl_instruction 0 lines.1)),
        illegal_line lines.2).

Definition set_next (tag data : Z) (next : CachePointer) (cp : InstructionCacheLine) :=
  set_cl_next_pc (obj tag data) (set_cl_next_cp next cp).

(** The body of the loop, for the word [instruction] at [vma] whose even line has
    subscript [even]: the program counters, the successors, the decoding. *)
(* c-emulator/dispatch.c:2215-2286 TagCdr *)
Definition fill_lines (vma even : Z) (instruction : LispObj)
    (lines : InstructionCacheLine * InstructionCacheLine) :
    InstructionCacheLine * InstructionCacheLine :=
  let tag := TAG instruction in
  let data := DATA instruction in
  let set_pc cp := set_cl_pc (set_DATA vma (cl_pc cp)) cp in
  let even_cp := set_pc lines.1 in
  let odd_cp := set_pc lines.2 in
  let cdr := TagCdr tag in
  if cdr =? 0 then
    DecodePackedWord tag data
      (set_next TypeOddPC vma (CPLine (even + 1)) even_cp,
       set_next TypeEvenPC (vma + 1) (CPLine (even + 2)) odd_cp)
  else if cdr =? 3 then
    decode_word tag data
      (set_next TypeEvenPC (vma + 1) (CPLine (even + 2)) even_cp,
       set_next TypeEvenPC (vma + 2) (CPLine (even + 4)) odd_cp)
  else if cdr =? 2 then
    decode_word tag data
      (set_next TypeOddPC (vma - 1) (CPLine (even + 1 - 2)) even_cp,
       set_next TypeEvenPC vma CPLookup odd_cp)
  else if cdr =? 1 then (illegal_line even_cp, illegal_line odd_cp)
  else decode_word tag data (even_cp, odd_cp).

(** [ps->InstructionCache[i]] and assignments to it. *)
Definition line_get (i : Z) : Emu InstructionCacheLine :=
  t <- get_ps InstructionCache ;; of_option (t !! i).
Definition line_put (i : Z) (l : InstructionCacheLine) : Emu unit :=
  if (0 <=? i) && (i <? InstructionCacheSize)
  then assign_ps (fun p => set_InstructionCache (<[i := l]> (InstructionCache p)) p)
  else undefined.

(** [instruction_block] is a copy of the words, which the loop does not change. *)
Fixpoint fill_words (n : nat) (vma even : Z) : Emu unit :=
  match n with
  | O => ret tt
  | S n' =>
      w <- gets (fun s => fetch s vma) ;;
      e <- line_get even ;;
      o <- line_get (even + 1) ;;
      let lines := fill_lines vma even w (e, o) in
      line_put even lines.1 ;;
      line_put (even + 1) lines.2 ;;
      fill_words n' (vma + 1) (even + 2)
  end.

(** Force a lookup after line [i] when its successor satisfies [out]. *)
Definition force_lookup (i : Z) (out : Z -> bool) : Emu unit :=
  l <- line_get i ;;
  when (out (DATA (cl_next_pc l))) (line_put i (set_cl_next_cp CPLookup l)).

Definition block_words : Z := 32. (* c-emulator/dispatch.c:2201 InstructionCacheLineSize *)

Definition block_vma_of (pc : Z) : Z := Z.ldiff pc (block_words - 1). (* c-emulator/dispatch.c:2197 block_vma *)

(** Always returns 0. *)
(* c-emulator/dispatch.c:2191-2304 InstructionCacheMiss *)
Definition InstructionCacheMiss : Emu Z :=
  p <- gets ps ;;
  let block_vma := block_vma_of (DATA (ps_pc p)) in
  let block_cp := Z.land (u32 (Z.shiftl block_vma 1)) (InstructionCacheSize - 1) in
  let bound_vma := u32 (block_vma + block_words) in
  VirtualMemoryReadBlock block_vma (fun _ => to_local) block_words ;;
  fill_words (block_length block_vma block_words) block_vma block_cp ;;
  force_lookup block_cp (fun d => d <? block_vma) ;;
  let last := block_cp + InstructionCacheLineSize - 4 in
  force_lookup last (fun d => bound_vma <=? d) ;;
  force_lookup (last + 1) (fun d => bound_vma <=? d) ;;
  force_lookup (last + 2) (fun d => bound_vma <=? d) ;;
  force_lookup (last + 3) (fun d => bound_vma <=? d) ;;
  ret 0.
