(* ===== verification/Traps.v ===== *)
(** Traps (c-emulator/traps.c): the exception table, the fetching of trap vector
    entries, and the three ways of entering a trap handler. *)

From S2P Require Export MemAccess.
#[local] Open Scope vlm_scope.

(** ** The exception table *)

(* c-emulator/traps.c:7-13 ExceptionInfo *)
Record ExceptionInfo := EI { arity : Z; stackp : bool; arithp : bool }.

(** The 256 entries, in two halves. *)
(* c-emulator/traps.c:15-143 InstructionExceptionInfo *)
Definition InstructionExceptionInfo_0 : list ExceptionInfo :=
  [ EI 1 false false; EI 1 false false; EI 0 true false; EI 1 false false;
    EI 1 false false; EI 1 false false; EI 1 false false; EI 0 true false;
    EI 0 true false; EI 0 true false; EI 0 true false; EI 0 true false;
    EI 1 false false; EI 0 true false; EI 0 true false; EI 0 true false;
    EI 1 false false; EI 0 true false; EI 0 true false; EI 0 true false;
    EI 0 true false; EI 0 true false; EI 0 true false; EI 0 true false;
    EI 0 true false; EI 0 true false; EI 0 true false; EI 0 true false;
    EI 1 false true; EI 1 false true; EI 1 false true; EI 0 true false;
    EI 0 true false; EI 0 true false; EI 0 true false; EI 0 true false;
    EI 0 true false; EI 0 true false; EI 0 true false; EI 0 true false;
    EI 0 true false; EI 0 true false; EI 0 true false; EI 0 true false;
    EI 0 true false; EI 0 true false; EI 0 true false; EI 0 true false;
    EI 0 true false; EI 0 true false; EI 0 true false; EI 0 true false;
    EI 0 true false; EI 0 true false; EI 0 true false; EI 0 true false;
    EI 0 true false; EI 0 true false; EI 0 true false; EI 0 true false;
    EI 0 true false; EI 0 true false; EI 0 true false; EI 0 true false;
    EI 0 true false; EI 0 true false; EI 1 false false; EI 0 true false;
    EI 0 true false; EI 0 true false; EI 0 true false; EI 0 true false;
    EI 1 false false; EI 1 false false; EI 0 true false; EI 0 true false;
    EI 1 false true; EI 0 true false; EI 0 true false; EI 0 true false;
    EI 0 true false; EI 0 true false; EI 0 true false; EI 0 true false;
    EI 0 true false; EI 0 true false; EI 0 true false; EI 0 true false;
    EI 2 true false; EI 2 true false; EI 2 true false; EI 2 true false;
    EI 0 true false; EI 0 true false; EI 0 true false; EI 0 true false;
    EI 1 false false; EI 1 false false; EI 1 false false; EI 1 false false;
    EI 1 false false; EI 0 true false; EI 0 true false; EI 0 true false;
    EI 0 true false; EI 0 true false; EI 0 true false; EI 0 true false;
    EI 0 true false; EI 0 true false; EI 0 true false; EI 0 true false;
    EI 1 false false; EI 1 false false; EI 1 false false; EI 1 false false;
    EI 0 true false; EI 0 true false; EI 0 true false; EI 0 true false;
    EI 1 true false; EI 1 true false; EI 0 true false; EI 0 true false;
    EI 0 true false; EI 1 true false; EI 0 true false; EI 0 true false ].

(* c-emulator/traps.c:144-272 {0, *)
Definition InstructionExceptionInfo_1 : list ExceptionInfo :=
  [ EI 2 false false; EI 2 false false; EI 2 false true; EI 2 false true;
    EI 2 false true; EI 2 false true; EI 2 false true; EI 2 false true;
    EI 0 true false; EI 2 false true; EI 2 false true; EI 2 false true;
    EI 2 false false; EI 2 false true; EI 2 false true; EI 2 false true;
    EI 0 true false; EI 0 true false; EI 0 true false; EI 0 true false;
    EI 2 false false; EI 2 false false; EI 2 false false; EI 2 false false;
    EI 0 true false; EI 0 true false; EI 2 false true; EI 0 true false;
    EI 0 true false; EI 0 true false; EI 2 false false; EI 2 false false;
    EI 2 false false; EI 0 true false; EI 0 true false; EI 0 true false;
    EI 0 true false; EI 0 true false; EI 0 true false; EI 0 true false;
    EI 2 false false; EI 0 true false; EI 0 true false; EI 0 true false;
    EI 0 true false; EI 0 true false; EI 0 true false; EI 0 true false;
    EI 2 false true; EI 2 false true; EI 2 false true; EI 2 false true;
    EI 2 false true; EI 2 false true; EI 2 false true; EI 2 false true;
    EI 0 true false; EI 0 true false; EI 0 true false; EI 2 false true;
    EI 0 true false; EI 0 true false; EI 0 true false; EI 2 false true;
    EI 2 false true; EI 2 false true; EI 0 true false; EI 0 true false;
    EI 0 true false; EI 0 true false; EI 0 true false; EI 0 true false;
    EI 3 false false; EI 2 false false; EI 2 false false; EI 2 false false;
    EI 3 false false; EI 2 false false; EI 2 false false; EI 2 false false;
    EI 2 false false; EI 2 false false; EI 0 true false; EI 0 true false;
    EI 2 false false; EI 3 false false; EI 2 false false; EI 0 true false;
    EI 0 true false; EI 0 true false; EI 0 true false; EI 0 true false;
    EI 0 true false; EI 0 true false; EI 0 true false; EI 0 true false;
    EI 0 true false; EI 0 true false; EI 0 true false; EI 0 true false;
    EI 0 true false; EI 0 true false; EI 0 true false; EI 0 true false;
    EI 2 false false; EI 3 false false; EI 2 false false; EI 0 true false;
    EI 0 true false; EI 0 true false; EI 0 true false; EI 0 true false;
    EI 0 true false; EI 0 true false; EI 0 true false; EI 0 true false;
    EI 0 true false; EI 0 true false; EI 0 true false; EI 0 true false;
    EI 2 true false; EI 2 true false; EI 0 true false; EI 0 true false;
    EI 0 true false; EI 2 true false; EI 0 true false; EI 0 true false ].

Definition InstructionExceptionInfo : list ExceptionInfo := (* c-emulator/traps.c:15 InstructionExceptionInfo *)
  InstructionExceptionInfo_0 ++ InstructionExceptionInfo_1.

(** [&InstructionExceptionInfo[opcode]], for an eight-bit opcode. *)
Definition exception_info (opcode : Z) : ExceptionInfo :=
  default (EI 0 true false) (nth_Z InstructionExceptionInfo opcode).

(** ** Saved registers *)

(** [ps->sp[k]], [ps->fp[k] = o], and [ps->sp[1] = o; ps->sp++]. *)
Definition ps_sp_get (k : Z) : Emu LispObj := i <- get_ps ps_sp ;; stack_get (i + k).
Definition ps_fp_put (k : Z) (o : LispObj) : Emu unit := i <- get_ps ps_fp ;; stack_put (i + k) o.
Definition ps_push (o : LispObj) : Emu unit :=
  i <- get_ps ps_sp ;;
  stack_put (i + 1) o ;;
  assign_ps (fun p => set_ps_sp (ps_sp p + 1) p).

(** The tag of a saved control word or continuation has its two cdr bits set. *)
Definition saved (o : LispObj) : LispObj := obj (Z.lor 192 (TAG o)) (DATA o).

(** [extra] with its tag reduced to the type. *)
Definition typed (o : LispObj) : LispObj := obj (Z.land (TAG o) TagTypeMask) (DATA o).

(** The control register of a frame: some fields cleared, then the argument and
    caller-frame sizes or'ed in. *)
Definition trap_control (c argument_size caller_frame_size : Z) : Z := (* c-emulator/traps.c:332-347 ControlApply *)
  let cleared := Z.lor ControlApply (Z.lor ControlTraceBits (Z.lor ControlCleanupBits
    (Z.lor ControlExtraArgument (Z.lor ControlCallStarted (Z.lor ControlArgumentSize
    (Z.lor ControlValueDisposition ControlCallerFrameSize)))))) in
  u32 (Z.lor (Z.lor (Z.lor (Z.ldiff c cleared) argument_size)
                    (Z.shiftl ValueDispositionEffect 10))
             (Z.shiftl caller_frame_size 9)).

Definition is_pc (o : LispObj) : bool := TypeEqualP (TAG o) TypeOddPC || TypeEqualP (TAG o) TypeEvenPC.

Section traps.
Context {env : Environment}.

(** The entry, or [None] when even the FEP-mode vector holds no PC.  The second call
    runs with trap mode 3 and makes no third one: fuel 2 is enough. *)
(* c-emulator/traps.c:274-287 FetchTrapVectorEntry *)
Fixpoint FetchTrapVectorEntry (fuel : nat) (index : Z) : Emu (option LispObj) :=
  match fuel with
  | O => out_of_fuel
  | S fuel' =>
      c <- get_ps control ;;
      let previous := ReadControlTrapMode c in
      put_control (fun c => WriteControlTrapMode c 3) ;;
      '(_, entry) <- MemoryReadData
                       (u32 (TrapVectorBase + (if previous <? 3 then index else FepModeTrapVector)))
                       to_local ;;
      r <- (if is_pc entry then ret (Some entry)
            else if previous =? 3 then ret None
            else FetchTrapVectorEntry fuel' index) ;;
      match r with
      | None => ret None
      | Some e => put_control (fun c => WriteControlTrapMode c previous) ;; ret (Some e)
      end
  end.

(** The end of both kinds of trap: fetch the vector, raise the trap mode to the cdr
    code of the entry, and jump to it. *)
(* c-emulator/traps.c:350-360 FetchTrapVectorEntry *)
Definition enter_handler (index : Z) : Emu bool :=
  r <- FetchTrapVectorEntry 2 index ;;
  match r with
  | None => ret false
  | Some entry =>
      c <- get_ps control ;;
      when (ReadControlTrapMode c <? TagCdr (TAG entry))
        (put_control (fun c => WriteControlTrapMode c (TagCdr (TAG entry)))) ;;
      assign_ps (set_ps_pc entry) ;;
      ret true
  end.

Definition scroll_for_trap : Emu unit :=
  p <- gets ps ;;
  when (StackCacheLimit p <? ps_sp p + 8) StackCacheScrollUp.

Definition push_extra (extra : option LispObj) : Emu unit :=
  match extra with Some e => ps_push (typed e) | None => ret tt end.

(** [restartsp] and [oldfp] are read before a scroll and not adjusted for it. *)
(* c-emulator/traps.c:289-351 TakePreTrap *)
Definition TakePreTrap (index : Z) (extra1 extra2 : option LispObj) : Emu bool :=
  oldfp <- get_ps ps_fp ;;
  restart <- get_ps ps_restartsp ;;
  assign_ps (set_ps_sp restart) ;;
  scroll_for_trap ;;
  p <- gets ps ;;
  ps_push (saved (continuation p)) ;;
  ps_push (obj (Z.lor 192 TypeFixnum) (control p)) ;;
  ps_push (obj TypeFixnum index) ;;
  ps_push (typed (ps_pc p)) ;;
  push_extra extra1 ;;
  push_extra extra2 ;;
  assign_ps (set_ps_fp (restart + 1)) ;;
  assign_ps (fun p => set_ps_lp (ps_sp p + 1) p) ;;
  assign_ps (fun p => set_control
                        (trap_control (control p) (ps_lp p - ps_fp p) (ps_fp p - oldfp)) p) ;;
  assign_ps (fun p => set_continuation (ps_pc p) p) ;;
  enter_handler index.

(** [for (i = 0; i < arity; i++) ps->sp[4-i] = ps->sp[-i]] *)
Fixpoint move_operands (n : nat) (sp i : Z) : Emu unit :=
  match n with
  | O => ret tt
  | S n' => o <- stack_get (sp - i) ;; stack_put (sp + 4 - i) o ;; move_operands n' sp (i + 1)
  end.

(* c-emulator/traps.c:363-423 TakePostTrap *)
Definition TakePostTrap (index arity : Z) (nextpc : LispObj) : Emu bool :=
  oldfp <- get_ps ps_fp ;;
  scroll_for_trap ;;
  sp <- get_ps ps_sp ;;
  move_operands (Z.to_nat arity) sp 0 ;;
  assign_ps (set_ps_fp (sp - (arity - 1))) ;;
  assign_ps (set_ps_sp (sp + 4)) ;;
  p <- gets ps ;;
  ps_fp_put 0 (saved (continuation p)) ;;
  ps_fp_put 1 (obj (Z.lor 192 TypeFixnum)
                   (if ReadControlInstructionTrace (control p) =? 0 then control p
                    else WriteControlTracePending (control p) 1)) ;;
  ps_fp_put 2 (obj TypeFixnum index) ;;
  ps_fp_put 3 (typed (ps_pc p)) ;;
  assign_ps (fun p => set_ps_lp (ps_sp p + 1) p) ;;
  assign_ps (fun p => set_control
                        (trap_control (control p) (ps_lp p - ps_fp p) (ps_fp p - oldfp)) p) ;;
  assign_ps (set_continuation nextpc) ;;
  enter_handler index.

(** The vector of an exception, from the tags of the operands on the stack. *)
(* c-emulator/traps.c:445-454 ArithmeticInstructionExceptionVector *)
Definition exception_vector (opcode : Z) : Emu Z :=
  let ei := exception_info opcode in
  if negb (arithp ei) then ret (InstructionExceptionVector + opcode)
  else if 1 <? arity ei then
    a <- ps_sp_get (-1) ;; b <- ps_sp_get 0 ;;
    ret (ArithmeticInstructionExceptionVector + dpb opcode 5 6 (dpb (TAG a) 3 3 (TAG b)))
  else
    a <- ps_sp_get 0 ;;
    ret (ArithmeticInstructionExceptionVector + dpb opcode 5 6 (dpb (TAG a) 3 3 0)).

(* c-emulator/traps.c:425-459 TakeInstructionException *)
Definition TakeInstructionException (instruction : Z) (op2 : Operand) (nextpc : LispObj) : Emu bool :=
  let opcode := ldb 8 10 instruction in
  let ei := exception_info opcode in
  assign_ps (fun p => set_ps_sp (ps_restartsp p) p) ;;
  (if stackp ei then ret tt
   else if ldb 2 15 instruction =? 3 then
     base <- get_ps StackCacheBase ;;
     k <- operand_index op2 ;;
     ps_push (obj TypeLocative (base + k))
   else if negb (ldb 10 0 instruction =? 512) then
     o <- operand_get op2 ;; ps_push (typed o)
   else ret tt) ;;
  vector <- exception_vector opcode ;;
  TakePostTrap vector (arity ei) nextpc.
End traps.
