(* ===== verification/Exceptions.v ===== *)
(** What the instruction bodies of InstructionSequencer share: the exception labels at
    its end, and the shapes most instructions have. *)

From S2P Require Export MemAccess.
#[local] Open Scope vlm_scope.

(** A body that ends with [NextInstruction]. *)
Definition next (m : Emu unit) : Emu Goto := m ;; ret NextInstruction.

Definition exception_unless_illegal (b : bool) : Emu Goto :=
  ret (if b then InstructionException else IllegalOperand).

(** ** Exception labels *)

(** The tail of every list, array and spare label. *)
Definition SpareExceptions (o : LispObj) : Emu Goto :=
  exception_unless_illegal (TypeSpareP (TAG o)).

(* c-emulator/emulator.c:4480-4483 Op2FixnumExceptions *)
Definition Op2FixnumExceptions : Emu Goto :=
  o <- op2_get ;; exception_unless_illegal (TypeNumericP (TAG o)).

(* c-emulator/emulator.c:4498-4501 Op2SpareExceptions *)
Definition Op2SpareExceptions : Emu Goto := o <- op2_get ;; SpareExceptions o.

(* c-emulator/emulator.c:4485-4488 Op2ListExceptions *)
Definition Op2ListExceptions : Emu Goto :=
  o <- op2_get ;;
  if TypeEqualP (TAG o) TypeListInstance then ret InstructionException else Op2SpareExceptions.

(** [TypeArrayInstance] or [TypeStringInstance]. *)
Definition array_instance_p (o : LispObj) : bool :=
  (TagType (TAG o) =? TypeArrayInstance) || (TagType (TAG o) =? TypeStringInstance).

(* c-emulator/emulator.c:4490-4496 Op2ArrayExceptions *)
Definition Op2ArrayExceptions : Emu Goto :=
  o <- op2_get ;;
  if array_instance_p o then ret InstructionException else Op2SpareExceptions.

(* c-emulator/emulator.c:4503-4506 BinaryTypeFixnumExceptions *)
Definition BinaryTypeFixnumExceptions : Emu Goto :=
  y <- op2_get ;; x <- sp_get 0 ;;
  exception_unless_illegal (BinaryTypeNumericP (TAG y) (TAG x)).

(* c-emulator/emulator.c:4508-4511 SpFixnumExceptions *)
Definition SpFixnumExceptions : Emu Goto :=
  x <- sp_get 0 ;; exception_unless_illegal (TypeNumericP (TAG x)).

(* c-emulator/emulator.c:4526-4529 SpSpareExceptions *)
Definition SpSpareExceptions : Emu Goto := x <- sp_get 0 ;; SpareExceptions x.

(* c-emulator/emulator.c:4513-4516 SpListExceptions *)
Definition SpListExceptions : Emu Goto :=
  x <- sp_get 0 ;;
  if TypeEqualP (TAG x) TypeListInstance then ret InstructionException else SpSpareExceptions.

(* c-emulator/emulator.c:4518-4524 SpArrayExceptions *)
Definition SpArrayExceptions : Emu Goto :=
  x <- sp_get 0 ;;
  if array_instance_p x then ret InstructionException else SpSpareExceptions.

(* c-emulator/emulator.c:4536-4539 ScratchSpareExceptions *)
Definition ScratchSpareExceptions (scratch : LispObj) : Emu Goto := SpareExceptions scratch.

(* c-emulator/emulator.c:4531-4534 ScratchListExceptions *)
Definition ScratchListExceptions (scratch : LispObj) : Emu Goto :=
  if TypeEqualP (TAG scratch) TypeListInstance then ret InstructionException
  else ScratchSpareExceptions scratch.

(** ** Shapes *)

(** [if (BinaryTypeFixnumP (op2->TAG, sp->TAG)) body; goto BinaryTypeFixnumExceptions;]
    [body] gets [*sp] and [*op2]. *)
Definition binary_fixnum (body : LispObj -> LispObj -> Emu Goto) : Emu Goto :=
  y <- op2_get ;; x <- sp_get 0 ;;
  if BinaryTypeFixnumP (TAG y) (TAG x) then body x y else BinaryTypeFixnumExceptions.

(** The same for a body that only stores a result computed from the two operands. *)
Definition compare_fixnums (store : bool -> Emu unit) (test : LispObj -> LispObj -> bool) : Emu Goto :=
  binary_fixnum (fun x y => next (store (test x y))).

(** [TypeFixnumP(sp->TAG) && (sp->DATA.s == cp->operand)] *)
Definition equals_immediate : Emu bool :=
  x <- sp_get 0 ;; n <- cp_operand ;; ret (TypeFixnumP (TAG x) && (DATAs x =? n)).

(** The types for which EQL is not EQ, [TypeDoubleFloat] to [TypeSpareNumber]. *)
Definition extended_number_p (o : LispObj) : bool :=
  (TypeDoubleFloat <=? TagType (TAG o)) && (TagType (TAG o) <=? TypeSpareNumber).

(** [op2->TAG = MergeCdr(op2->TAG, o->TAG); op2->DATA = o->DATA;] *)
Definition op2_store (o : LispObj) : Emu unit :=
  x <- op2_get ;; op2_put (obj (MergeCdr (TAG x) (TAG o)) (DATA o)).
