(* ===== verification/ListInstr.v ===== *)
(** List instructions and predicates (c-emulator/emulator.c, lines 1042 to 1720): from
    Car to Assoc, the comparisons, and the type and number predicates. *)

From S2P Require Export ListOps Exceptions.
#[local] Open Scope vlm_scope.

Section list_instructions.
Context {env : Environment}.

(** ** Car and cdr *)

(** [sp+1] as a destination: for the [Pop] mode this is the operand's own slot. *)
Definition above_sp : Emu Dest := i <- get_reg sp ;; ret (to_stack (i + 1)).

(* c-emulator/emulator.c:1037-1048 ExecuteCar *)
Definition ExecuteCar : Emu Goto :=
  o <- op2_get ;; d <- above_sp ;;
  r <- CarInternal o d ;;
  match r with Some _ => next (sp_add 1) | None => Op2ListExceptions end.

(* c-emulator/emulator.c:1050-1061 ExecuteCdr *)
Definition ExecuteCdr : Emu Goto :=
  o <- op2_get ;; d <- above_sp ;;
  r <- CdrInternal o d ;;
  match r with Some _ => next (sp_add 1) | None => Op2ListExceptions end.

(* c-emulator/emulator.c:1063-1074 ExecuteSetToCar *)
Definition ExecuteSetToCar : Emu Goto :=
  o <- op2_get ;;
  r <- CarInternal o to_local ;;
  match r with Some v => next (op2_store v) | None => Op2ListExceptions end.

(* c-emulator/emulator.c:1076-1087 ExecuteSetToCdr *)
Definition ExecuteSetToCdr : Emu Goto :=
  o <- op2_get ;;
  r <- CdrInternal o to_local ;;
  match r with Some v => next (op2_store v) | None => Op2ListExceptions end.

(* c-emulator/emulator.c:1089-1101 ExecuteSetToCdrPushCar *)
Definition ExecuteSetToCdrPushCar : Emu Goto :=
  o <- op2_get ;; d <- above_sp ;;
  r <- CarInternal o d ;;
  match r with
  | None => Op2ListExceptions
  | Some _ =>
      o <- op2_get ;;
      r <- CdrInternal o to_local ;;
      match r with
      | Some v => next (op2_store v ;; sp_add 1)
      | None => Op2ListExceptions
      end
  end.

(* c-emulator/emulator.c:1103-1118 ExecuteRplaca *)
Definition ExecuteRplaca : Emu Goto :=
  x <- sp_get 0 ;;
  let t := TagType (TAG x) in
  if (t =? TypeList) || (t =? TypeLocative) then
    o <- op2_get ;;
    next (StoreContents (DATA x) o CycleDataWrite ;; sp_add (-1))
  else SpListExceptions.

(* c-emulator/emulator.c:1120-1148 ExecuteRplacd *)
Definition ExecuteRplacd : Emu Goto :=
  x <- sp_get 0 ;;
  let t := TagType (TAG x) in
  if t =? TypeList then
    '(vma, cdr) <- MemoryReadCdr (DATA x) to_local ;;
    if TagCdr (TAG cdr) =? CdrNormal then
      o <- op2_get ;;
      next (StoreContents (u32 (vma + 1)) o CycleDataWrite ;; sp_add (-1))
    else ret InstructionException
  else if t =? TypeLocative then
    o <- op2_get ;;
    next (StoreContents (DATA x) o CycleDataWrite ;; sp_add (-1))
  else SpListExceptions.

(** ** Searches *)

(** Each turn of the searching loops ends with [AllowSequenceBreaks]. *)
Definition again (scratch : LispObj) : Emu (LispObj + Goto) :=
  AllowSequenceBreaks ;; ret (inl scratch).
Definition leave (m : Emu Goto) : Emu (LispObj + Goto) := g <- m ;; ret (inr g).

(** The common frame of Rgetf, Member and Assoc. *)
Definition search_list (turn : LispObj -> Emu (LispObj + Goto)) : Emu Goto :=
  x <- sp_get 0 ;;
  if extended_number_p x then ret InstructionException else
  o <- op2_get ;;
  loop loop_fuel turn o.

Definition rgetf_turn (scratch : LispObj) : Emu (LispObj + Goto) :=
  if TagType (TAG scratch) =? TypeNIL then leave (next (SetNIL ;; PushNIL)) else
  r <- CarCdrInternal scratch ;;
  match r with
  | None => leave (ScratchListExceptions scratch)
  | Some (car, cdr) =>
      x <- sp_get 0 ;;
      let t := TagType (TAG cdr) in
      if ObjectEqP car x then
        if t =? TypeList then
          i <- get_reg sp ;;
          r <- CarInternal cdr (to_stack i) ;;
          match r with
          | None => leave (ret InstructionException)
          | Some _ => leave (next (PushObject cdr))
          end
        else if (t =? TypeNIL) || (t =? TypeListInstance) then leave (ret InstructionException)
        else leave (ret IllegalOperand)
      else
        r <- CdrInternal cdr to_local ;;
        match r with
        | None =>
            leave (exception_unless_illegal
                     (TypeEqualP (TAG cdr) TypeListInstance || TypeSpareP (TAG cdr)))
        | Some scratch' => again scratch'
        end
  end.

(* c-emulator/emulator.c:1150-1194 ExecuteRgetf *)
Definition ExecuteRgetf : Emu Goto := search_list rgetf_turn.

(* c-emulator/emulator.c:1207-1224 CarCdrInternal *)
Definition member_turn (scratch : LispObj) : Emu (LispObj + Goto) :=
  if TagType (TAG scratch) =? TypeNIL then leave (next SetNIL) else
  r <- CarCdrInternal scratch ;;
  match r with
  | None => leave (ScratchListExceptions scratch)
  | Some (car, cdr) =>
      x <- sp_get 0 ;;
      if ObjectEqP car x then leave (next (SetObject scratch)) else again cdr
  end.

(* c-emulator/emulator.c:1196-1227 ExecuteMember *)
Definition ExecuteMember : Emu Goto := search_list member_turn.

Definition assoc_turn (scratch : LispObj) : Emu (LispObj + Goto) :=
  if TagType (TAG scratch) =? TypeNIL then leave (next SetNIL) else
  r <- CarCdrInternal scratch ;;
  match r with
  | None => leave (ScratchListExceptions scratch)
  | Some (car, cdr) =>
      let t := TagType (TAG car) in
      if t =? TypeNIL then again cdr
      else if t =? TypeList then
        r <- CarInternal car to_local ;;
        match r with
        | None => leave (ret InstructionException)
        | Some key =>
            x <- sp_get 0 ;;
            if ObjectEqP key x then leave (next (SetObject car)) else again cdr
        end
      else if t =? TypeListInstance then leave (ret InstructionException)
      else leave (ret IllegalOperand)
  end.

(* c-emulator/emulator.c:1229-1280 ExecuteAssoc *)
Definition ExecuteAssoc : Emu Goto := search_list assoc_turn.

(** ** Comparisons *)

(* c-emulator/emulator.c:1282-1284 DispatchEqImmediate *)
Definition ExecuteEqImmediate : Emu Goto := b <- equals_immediate ;; next (SetPredicate b).
(* c-emulator/emulator.c:1285-1292 ExecuteEq *)
Definition ExecuteEq : Emu Goto :=
  y <- op2_get ;; x <- sp_get 0 ;; next (SetPredicate (ObjectEqP y x)).
(* c-emulator/emulator.c:1294-1296 DispatchEqNoPopImmediate *)
Definition ExecuteEqNoPopImmediate : Emu Goto := b <- equals_immediate ;; next (PushPredicate b).
(* c-emulator/emulator.c:1297-1304 ExecuteEqNoPop *)
Definition ExecuteEqNoPop : Emu Goto :=
  y <- op2_get ;; x <- sp_get 0 ;; next (PushPredicate (ObjectEqP y x)).

(** The data differ: an extended number is compared by the trap handler. *)
Definition eql_escape_p (o : LispObj) : bool :=
  let t := TagType (TAG o) in
  (t =? TypeDoubleFloat) || (t =? TypeBignum) || (t =? TypeBigRatio)
  || (t =? TypeComplex) || (t =? TypeSpareNumber).

Definition eql (store : bool -> Emu unit) : Emu Goto :=
  y <- op2_get ;; x <- sp_get 0 ;;
  if negb (TypeEqualP (TAG x) (TAG y)) then next (store false)
  else if DATA x =? DATA y then next (store true)
  else if eql_escape_p x then ret InstructionException
  else next (store false).

(* c-emulator/emulator.c:1306-1308 DispatchEqlImmediate *)
Definition ExecuteEqlImmediate : Emu Goto := b <- equals_immediate ;; next (SetPredicate b).
(* c-emulator/emulator.c:1309-1345 ExecuteEql *)
Definition ExecuteEql : Emu Goto := eql SetPredicate.
(* c-emulator/emulator.c:1347-1349 DispatchEqlNoPopImmediate *)
Definition ExecuteEqlNoPopImmediate : Emu Goto := b <- equals_immediate ;; next (PushPredicate b).
(* c-emulator/emulator.c:1350-1387 ExecuteEqlNoPop *)
Definition ExecuteEqlNoPop : Emu Goto := eql PushPredicate.

(* c-emulator/emulator.c:1389-1391 DispatchEqualNumberImmediate *)
Definition ExecuteEqualNumberImmediate : Emu Goto := b <- equals_immediate ;; next (SetPredicate b).
(* c-emulator/emulator.c:1392-1403 ExecuteEqualNumber *)
Definition ExecuteEqualNumber : Emu Goto :=
  compare_fixnums SetPredicate (fun x y => DATAs y =? DATAs x).
(* c-emulator/emulator.c:1405-1407 DispatchEqualNumberNoPopImmediate *)
Definition ExecuteEqualNumberNoPopImmediate : Emu Goto := b <- equals_immediate ;; next (PushPredicate b).
(* c-emulator/emulator.c:1408-1419 ExecuteEqualNumberNoPop *)
Definition ExecuteEqualNumberNoPop : Emu Goto :=
  compare_fixnums PushPredicate (fun x y => DATAs y =? DATAs x).

(* c-emulator/emulator.c:1421-1434 ExecuteGreaterp *)
Definition ExecuteGreaterp : Emu Goto :=
  compare_fixnums SetPredicate (fun x y => DATAs y <? DATAs x).
(* c-emulator/emulator.c:1436-1449 ExecuteGreaterpNoPop *)
Definition ExecuteGreaterpNoPop : Emu Goto :=
  compare_fixnums PushPredicate (fun x y => DATAs y <? DATAs x).
(* c-emulator/emulator.c:1451-1464 ExecuteLessp *)
Definition ExecuteLessp : Emu Goto :=
  compare_fixnums SetPredicate (fun x y => DATAs x <? DATAs y).
(* c-emulator/emulator.c:1466-1479 ExecuteLesspNoPop *)
Definition ExecuteLesspNoPop : Emu Goto :=
  compare_fixnums PushPredicate (fun x y => DATAs x <? DATAs y).
(* c-emulator/emulator.c:1481-1493 ExecuteLogtest *)
Definition ExecuteLogtest : Emu Goto :=
  compare_fixnums SetPredicate (fun x y => negb (Z.land (DATA x) (DATA y) =? 0)).
(* c-emulator/emulator.c:1495-1507 ExecuteLogtestNoPop *)
Definition ExecuteLogtestNoPop : Emu Goto :=
  compare_fixnums PushPredicate (fun x y => negb (Z.land (DATA x) (DATA y) =? 0)).

(** The twelve-bit operand: the number of the group of four types, and the mask. *)
Definition type_member (operand tag : Z) : bool :=
  let n := Z.land (Z.shiftr operand 8) 15 in
  let mask := Z.land operand 255 in
  let dtp := TagType tag - n * 4 in
  (0 <=? dtp) && (dtp <=? 7) && negb (Z.land (Z.shiftl 1 dtp) mask =? 0).

(* c-emulator/emulator.c:1509-1524 DispatchTypeMember *)
Definition ExecuteTypeMember : Emu Goto :=
  n <- cp_operand ;; x <- sp_get 0 ;; next (SetPredicate (type_member n (TAG x))).
(* c-emulator/emulator.c:1526-1541 DispatchTypeMemberNoPop *)
Definition ExecuteTypeMemberNoPop : Emu Goto :=
  n <- cp_operand ;; x <- sp_get 0 ;; next (PushPredicate (type_member n (TAG x))).

(** ** Predicates on the operand *)

(* c-emulator/emulator.c:1545-1560 ExecuteEndp *)
Definition ExecuteEndp : Emu Goto :=
  o <- op2_get ;;
  let t := TagType (TAG o) in
  if (t =? TypeList) || (t =? TypeListInstance) then next PushNIL
  else if t =? TypeNIL then next PushT
  else Op2ListExceptions.

(** [if (TypeFixnumP (op2->TAG)) { PushPredicate (test); NextInstruction; }
    goto Op2FixnumExceptions;] *)
Definition fixnum_predicate (test : Z -> bool) : Emu Goto :=
  o <- op2_get ;;
  if TypeFixnumP (TAG o) then next (PushPredicate (test (DATAs o))) else Op2FixnumExceptions.

(* c-emulator/emulator.c:1562-1564 DispatchPluspImmediate *)
Definition ExecutePluspImmediate : Emu Goto := n <- cp_operand ;; next (PushPredicate (0 <? n)).
(* c-emulator/emulator.c:1565-1576 ExecutePlusp *)
Definition ExecutePlusp : Emu Goto := fixnum_predicate (fun n => 0 <? n).
(* c-emulator/emulator.c:1578-1580 DispatchMinuspImmediate *)
Definition ExecuteMinuspImmediate : Emu Goto := n <- cp_operand ;; next (PushPredicate (n <? 0)).
(* c-emulator/emulator.c:1581-1592 ExecuteMinusp *)
Definition ExecuteMinusp : Emu Goto := fixnum_predicate (fun n => n <? 0).
(* c-emulator/emulator.c:1594-1596 DispatchZeropImmediate *)
Definition ExecuteZeropImmediate : Emu Goto := n <- cp_operand ;; next (PushPredicate (n =? 0)).
(* c-emulator/emulator.c:1597-1610 ExecuteZerop *)
Definition ExecuteZerop : Emu Goto := fixnum_predicate (fun n => n =? 0).
End list_instructions.
