(* ===== verification/Arith.v ===== *)
(** Arithmetic, logical and shift instructions, and data movement
    (c-emulator/emulator.c, lines 1609 to 2250). *)

From S2P Require Export Exceptions.
#[local] Open Scope vlm_scope.

Definition int_min : Z := - 2 ^ 31.
Definition int_max : Z := 2 ^ 31 - 1.

(** Shifts of 32-bit operands: undefined for a count outside 0 to 31. *)
Definition shift_count_ok (n : Z) : bool := (0 <=? n) && (n <? 32).
Definition shl_u32 (x n : Z) : Emu Z := if shift_count_ok n then ret (u32 (Z.shiftl x n)) else undefined.
Definition shl_s32 (x n : Z) : Emu Z := if shift_count_ok n then ret (s32 (Z.shiftl x n)) else undefined.
Definition shr_32 (x n : Z) : Emu Z := if shift_count_ok n then ret (Z.shiftr x n) else undefined.

Definition op2_set_DATA (d : Z) : Emu unit := o <- op2_get ;; op2_put (set_DATA d o).

(** ** Addition to multiplication *)

(** [if (BinaryTypeFixnumP (...) && fits) { sp->DATA.s = result; NextInstruction; }
    goto BinaryTypeFixnumExceptions;] *)
Definition checked_fixnum (result : Z -> Z -> Z) (fits : Z -> Z -> bool) : Emu Goto :=
  binary_fixnum (fun x y =>
    if fits (DATAs x) (DATAs y) then next (sp_set_DATA 0 (result (DATAs x) (DATAs y)))
    else BinaryTypeFixnumExceptions).

(** The overflow test: the wrapped sum is above [x] exactly when [y] is positive. *)
Definition add_fits (x y : Z) : bool := Bool.eqb (x <=? s32 (x + y)) (0 <=? y).
Definition sub_fits (x y : Z) : bool := Bool.eqb (s32 (x - y) <=? x) (0 <=? y).

(* c-emulator/emulator.c:1611-1626 ExecuteAdd *)
Definition ExecuteAdd : Emu Goto := checked_fixnum (fun x y => s32 (x + y)) add_fits.
(* c-emulator/emulator.c:1627-1642 ExecuteSub *)
Definition ExecuteSub : Emu Goto := checked_fixnum (fun x y => s32 (x - y)) sub_fits.

(** A 64-bit product. *)
(* c-emulator/emulator.c:1689-1710 ExecuteMultiply *)
Definition ExecuteMultiply : Emu Goto :=
  checked_fixnum Z.mul (fun x y => (int_min <=? x * y) && (x * y <=? int_max)).

(* c-emulator/emulator.c:1643-1645 DispatchUnaryMinusImmediate *)
Definition ExecuteUnaryMinusImmediate : Emu Goto := n <- cp_operand ;; next (PushFixnum (- n)).
(* c-emulator/emulator.c:1646-1660 ExecuteUnaryMinus *)
Definition ExecuteUnaryMinus : Emu Goto :=
  o <- op2_get ;;
  if TypeFixnumP (TAG o) && negb (DATAs o =? int_min) then next (PushFixnum (- DATAs o))
  else Op2FixnumExceptions.

(* c-emulator/emulator.c:1661-1674 ExecuteIncrement *)
Definition ExecuteIncrement : Emu Goto :=
  o <- op2_get ;;
  if TypeFixnumP (TAG o) && negb (DATAs o =? int_max) then next (op2_set_DATA (DATAs o + 1))
  else Op2FixnumExceptions.
(* c-emulator/emulator.c:1675-1688 ExecuteDecrement *)
Definition ExecuteDecrement : Emu Goto :=
  o <- op2_get ;;
  if TypeFixnumP (TAG o) && negb (DATAs o =? int_min) then next (op2_set_DATA (DATAs o - 1))
  else Op2FixnumExceptions.

(** ** Division *)

(** The guards of every division: a zero divisor, and the one quotient that
    overflows.  [body] gets the truncated quotient, the remainder and the divisor. *)
Definition divide_fixnums (body : Z -> Z -> Z -> Emu Goto) : Emu Goto :=
  binary_fixnum (fun ox oy =>
    let x := DATAs ox in
    let y := DATAs oy in
    if y =? 0 then ret IllegalOperand
    else if (x =? int_min) && (y =? -1) then ret InstructionException
    else
      let quotient := Z.quot x y in
      body quotient (x - y * quotient) y).

Definition two_values (quotient remainder : Z) : Emu Goto :=
  next (SetFixnum quotient ;; PushFixnum remainder).

(* c-emulator/emulator.c:1711-1727 ExecuteQuotient *)
Definition ExecuteQuotient : Emu Goto := divide_fixnums (fun q _ _ => next (sp_set_DATA 0 q)).

(* c-emulator/emulator.c:1729-1763 ExecuteFloor *)
Definition ExecuteFloor : Emu Goto :=
  divide_fixnums (fun q r y =>
    if r =? 0 then two_values q r
    else if negb (Bool.eqb (0 <=? r) (0 <=? y)) then two_values (q - 1) (r + y)
    else two_values q r).

(* c-emulator/emulator.c:1766-1800 ExecuteCeiling *)
Definition ExecuteCeiling : Emu Goto :=
  divide_fixnums (fun q r y =>
    if r =? 0 then two_values q r
    else if Bool.eqb (0 <=? r) (0 <=? y) then two_values (q + 1) (r - y)
    else two_values q r).

(* c-emulator/emulator.c:1802-1823 ExecuteTruncate *)
Definition ExecuteTruncate : Emu Goto := divide_fixnums (fun q r _ => two_values q r).

(** The test for rounding up. *)
Definition round_up_p (q r y : Z) : bool :=
  let temp := s32 (y - r - r) in
  if temp =? 0 then Z.odd q else if 0 <? y then temp <? 0 else 0 <? temp.

(** The second result is computed after the first is stored, from [*op2] as it then is. *)
(* c-emulator/emulator.c:1825-1857 ExecuteRound *)
Definition ExecuteRound : Emu Goto :=
  divide_fixnums (fun q r y =>
    if round_up_p q r y then
      SetFixnum (q + 1) ;;
      o <- op2_get ;;
      next (PushFixnum (r - DATAs o))
    else two_values q r).

(* c-emulator/emulator.c:1858-1883 ExecuteRationalQuotient *)
Definition ExecuteRationalQuotient : Emu Goto :=
  divide_fixnums (fun q r _ =>
    if r =? 0 then next (sp_set_DATA 0 q) else BinaryTypeFixnumExceptions).

(** ** Extrema and bits *)

(* c-emulator/emulator.c:1884-1899 ExecuteMax *)
Definition ExecuteMax : Emu Goto :=
  binary_fixnum (fun x y => if DATAs x <? DATAs y then next (SetObject y) else ret NextInstruction).
(* c-emulator/emulator.c:1900-1913 ExecuteMin *)
Definition ExecuteMin : Emu Goto :=
  binary_fixnum (fun x y => if DATAs y <? DATAs x then next (SetObject y) else ret NextInstruction).

Definition combine_fixnums (f : Z -> Z -> Z) : Emu Goto :=
  binary_fixnum (fun x y => next (sp_set_DATA 0 (f (DATA x) (DATA y)))).

(* c-emulator/emulator.c:1915-1927 ExecuteLogand *)
Definition ExecuteLogand : Emu Goto := combine_fixnums Z.land.
(* c-emulator/emulator.c:1929-1941 ExecuteLogior *)
Definition ExecuteLogior : Emu Goto := combine_fixnums Z.lor.
(* c-emulator/emulator.c:1943-1955 ExecuteLogxor *)
Definition ExecuteLogxor : Emu Goto := combine_fixnums Z.lxor.

(** ** Shifts *)

(** The left shift is accepted when the sign is kept and the result is not zero. *)
(* c-emulator/emulator.c:1957-1982 ExecuteAsh *)
Definition ExecuteAsh : Emu Goto :=
  binary_fixnum (fun x y =>
    let places := DATAs y in
    if (places =? 0) || (DATAs x =? 0) then ret NextInstruction
    else if 0 <? places then
      i <- shl_s32 (DATAs x) places ;;
      if Bool.eqb (DATAs x <? 0) (i <? 0) && negb (i =? 0) then next (SetFixnum i)
      else ret InstructionException
    else
      i <- shr_32 (DATAs x) (- places) ;; next (SetFixnum i)).

(** [if (BinaryTypeFixnumP (...)) body; else IllegalOperand;] *)
Definition fixnums_or_illegal (body : LispObj -> LispObj -> Emu Goto) : Emu Goto :=
  y <- op2_get ;; x <- sp_get 0 ;;
  if BinaryTypeFixnumP (TAG y) (TAG x) then body x y else ret IllegalOperand.

(* c-emulator/emulator.c:1984-2006 ExecuteLsh *)
Definition ExecuteLsh : Emu Goto :=
  fixnums_or_illegal (fun x y =>
    let places := DATAs y in
    if places =? 0 then ret NextInstruction
    else if (31 <? places) || (places <? -31) then next (SetFixnum 0)
    else if 0 <? places then i <- shl_u32 (DATA x) places ;; next (SetFixnum i)
    else i <- shr_32 (DATA x) (- places) ;; next (SetFixnum i)).

(* c-emulator/emulator.c:2008-2025 ExecuteRot *)
Definition ExecuteRot : Emu Goto :=
  fixnums_or_illegal (fun x y =>
    let places := Z.land (DATAs y) 31 in
    if places =? 0 then ret NextInstruction
    else
      left <- shl_u32 (DATA x) places ;;
      right <- shr_32 (DATA x) (32 - places) ;;
      next (sp_set_DATA 0 (Z.lor left right))).

(** ** 32-bit and bignum arithmetic *)

Definition fixnum_and_immediate (f : Z -> Z -> Z) : Emu Goto :=
  x <- sp_get 0 ;; n <- cp_operand ;;
  if TypeFixnumP (TAG x) then next (sp_set_DATA 0 (f (DATA x) n)) else ret IllegalOperand.

(* c-emulator/emulator.c:2027-2034 Dispatch32BitPlusImmediate *)
Definition Execute32BitPlusImmediate : Emu Goto := fixnum_and_immediate Z.add.
(* c-emulator/emulator.c:2035-2047 Execute32BitPlus *)
Definition Execute32BitPlus : Emu Goto :=
  fixnums_or_illegal (fun x y => next (sp_set_DATA 0 (DATA x + DATA y))).
(* c-emulator/emulator.c:2049-2056 Dispatch32BitDifferenceImmediate *)
Definition Execute32BitDifferenceImmediate : Emu Goto := fixnum_and_immediate Z.sub.
(* c-emulator/emulator.c:2057-2069 Execute32BitDifference *)
Definition Execute32BitDifference : Emu Goto :=
  fixnums_or_illegal (fun x y => next (sp_set_DATA 0 (DATA x - DATA y))).

(* c-emulator/emulator.c:2071-2078 ExecuteMultiplyDouble *)
Definition ExecuteMultiplyDouble : Emu Goto := ret UnimplementedInstruction.
(* c-emulator/emulator.c:2080-2087 ExecuteAddBignumStep *)
Definition ExecuteAddBignumStep : Emu Goto := ret UnimplementedInstruction.
(* c-emulator/emulator.c:2089-2096 ExecuteSubBignumStep *)
Definition ExecuteSubBignumStep : Emu Goto := ret UnimplementedInstruction.

(** The low and high words of the 64-bit product. *)
(* c-emulator/emulator.c:2098-2114 ExecuteMultiplyBignumStep *)
Definition ExecuteMultiplyBignumStep : Emu Goto :=
  fixnums_or_illegal (fun x y =>
    let value := DATA y * DATA x in
    next (SetFixnum (Z.land value 0xFFFFFFFF) ;;
          PushFixnum (Z.land (Z.shiftr value 32) 0xFFFFFFFF))).

(** The dividend is formed by shifting the 32-bit operand left by 32 places. *)
(* c-emulator/emulator.c:2116-2134 ExecuteDivideBignumStep *)
Definition ExecuteDivideBignumStep : Emu Goto :=
  fixnums_or_illegal (fun x y =>
    z <- sp_get (-1) ;;
    if TypeFixnumP (TAG z) then
      high <- shl_u32 (DATA x) 32 ;;
      let dividend := Z.lor high (DATA z) in
      let divisor := DATA y in
      if divisor =? 0 then undefined else
      let quotient := Z.quot dividend divisor in
      if negb (Z.shiftr quotient 32 =? 0) then ret IllegalOperand else
      next (sp_set_DATA (-1) quotient ;; sp_set_DATA 0 (dividend - quotient * divisor))
    else ret IllegalOperand).

(* c-emulator/emulator.c:2136-2143 ExecuteLshcBignumStep *)
Definition ExecuteLshcBignumStep : Emu Goto := ret UnimplementedInstruction.

(** ** Data movement *)

(* c-emulator/emulator.c:2145-2147 DispatchPushImmediate *)
Definition ExecutePushImmediate : Emu Goto := n <- cp_operand ;; next (PushFixnum n).
(* c-emulator/emulator.c:2148-2151 DispatchPushPop *)
Definition ExecutePush : Emu Goto := o <- op2_get ;; next (PushObject o).
(* c-emulator/emulator.c:2153-2155 DispatchPopSP *)
Definition ExecutePop : Emu Goto := o <- PopObject ;; next (op2_put o).
(* c-emulator/emulator.c:2157-2160 DispatchMovemPop *)
Definition ExecuteMovem : Emu Goto := o <- sp_get 0 ;; next (op2_put o).

Fixpoint push_nils (n : nat) : Emu unit :=
  match n with O => ret tt | S n' => PushNIL ;; push_nils n' end.

(** [for ( ; i--; ) PushNIL();] with a negative count runs off the stack cache. *)
(* c-emulator/emulator.c:2164-2170 PushNNilsInternal *)
Definition PushNNilsInternal (i : Z) : Emu Goto :=
  if i <? 0 then undefined else next (push_nils (Z.to_nat i)).
(* c-emulator/emulator.c:2162-2170 DispatchPushNNils *)
Definition ExecutePushNNils : Emu Goto := n <- cp_operand ;; PushNNilsInternal n.

(** [op2] as a subscript of the stack cache. *)
Definition op2_stack : Emu Z :=
  p <- get_reg op2 ;;
  match p with OpStack i => ret i | OpImmediate | OpNone => undefined end.

(* c-emulator/emulator.c:2172-2178 ExecutePushAddress *)
Definition ExecutePushAddress : Emu Goto :=
  base <- get_ps StackCacheBase ;; i <- op2_stack ;;
  next (PushConstant TypeLocative (base + i)).

(* c-emulator/emulator.c:2180-2182 DispatchSetSpToAddressSP *)
Definition ExecuteSetSpToAddress : Emu Goto := i <- op2_stack ;; next (assign_regs (set_sp i)).

(* c-emulator/emulator.c:2184-2191 ExecuteSetSpToAddressSaveTos *)
Definition ExecuteSetSpToAddressSaveTos : Emu Goto :=
  o <- sp_get 0 ;; op2_put o ;; i <- op2_stack ;; next (assign_regs (set_sp i)).

(* c-emulator/emulator.c:2193-2195 DispatchPushAddressSpRelativeImmediate *)
Definition ExecutePushAddressSpRelativeImmediate : Emu Goto :=
  base <- get_ps StackCacheBase ;; i <- get_reg sp ;; n <- cp_operand ;;
  next (PushConstant TypeLocative (base + i - n - 1)).

(* c-emulator/emulator.c:2196-2209 ExecutePushAddressSpRelative *)
Definition ExecutePushAddressSpRelative : Emu Goto :=
  o <- op2_get ;;
  if TypeFixnumP (TAG o) then
    base <- get_ps StackCacheBase ;; i <- get_reg restartsp ;;
    next (PushConstant TypeLocative (base + i - DATA o - 1))
  else ret IllegalOperand.

(** ** Block moves within the stack *)

(** [for ( ; i--; ) *op1++ = *op2++;] *)
Fixpoint blt (n : nat) (op1 op2 : Z) : Emu unit :=
  match n with
  | O => ret tt
  | S n' => o <- stack_get op2 ;; stack_put op1 o ;; blt n' (op1 + 1) (op2 + 1)
  end.

(* c-emulator/emulator.c:2222-2239 ExecuteStackBltAddress *)
Definition ExecuteStackBltAddress : Emu Goto :=
  x <- sp_get 0 ;;
  if negb (TypeEqualP (TAG x) TypeLocative) then SpSpareExceptions else
  from <- op2_stack ;;
  base <- get_ps StackCacheBase ;;
  r <- gets regs ;;
  let i := sp r - from in
  let to := u32 (DATA x - base) in
  if (from <? to) || (to <? fp r) || (sp r <=? from) then ret IllegalOperand else
  blt (Z.to_nat i) to from ;;
  assign_regs (set_op2 (OpStack (from + i))) ;;
  next (assign_regs (set_sp (to + i - 1))).

(* c-emulator/emulator.c:2211-2220 ExecuteStackBlt *)
Definition ExecuteStackBlt : Emu Goto :=
  o <- op2_get ;;
  if negb (TypeEqualP (TAG o) TypeLocative) then Op2SpareExceptions else
  base <- get_ps StackCacheBase ;;
  assign_regs (set_op2 (OpStack (u32 (DATA o - base)))) ;;
  ExecuteStackBltAddress.
