(* ===== verification/Fields.v ===== *)
(** Field extraction (c-emulator/emulator.c, lines 2240 to 2402): the Ldb and Dpb
    instructions on fixnums, characters, memory words and tags. *)

From S2P Require Export Alu Exceptions.
#[local] Open Scope vlm_scope.

(** The ten-bit operand: a rotation, and the field size less one. *)
Definition field_rotate (operand : Z) : Z := Z.land operand 31. (* c-emulator/emulator.c:2318 pp *)
Definition field_shift (operand : Z) : Z := Z.land (32 - operand) 31. (* c-emulator/emulator.c:2249 pp *)
Definition field_size (operand : Z) : Z := Z.land (Z.shiftr operand 5) 31. (* c-emulator/emulator.c:2250 ss *)

(** [(source >> pp) & ~(-2 << ss)] *)
Definition extract_field (operand source : Z) : Z := (* c-emulator/emulator.c:2253 SetFixnum *)
  Z.land (Z.shiftr source (field_shift operand)) (byte_mask (field_size operand)).

(** [(background & ~mask) | ((byte << pp) & mask)] *)
Definition deposit_field (operand byte background : Z) : Z := (* c-emulator/emulator.c:2323-2325 newbyte_mask *)
  let pp := field_rotate operand in
  let newbyte_mask := u32 (Z.shiftl (u32 (byte_mask (field_size operand))) pp) in
  Z.lor (Z.ldiff background newbyte_mask) (Z.land (u32 (Z.shiftl byte pp)) newbyte_mask).

(* c-emulator/emulator.c:2241-2256 DispatchLdb *)
Definition ExecuteLdb : Emu Goto :=
  x <- sp_get 0 ;; n <- cp_operand ;;
  if TypeFixnumP (TAG x) then next (SetFixnum (extract_field n (DATAs x))) else SpFixnumExceptions.

(* c-emulator/emulator.c:2258-2267 DispatchCharLdb *)
Definition ExecuteCharLdb : Emu Goto :=
  x <- sp_get 0 ;; n <- cp_operand ;;
  if TypeEqualP (TAG x) TypeCharacter then next (SetFixnum (extract_field n (DATAs x)))
  else SpSpareExceptions.

Section fields.
Context {env : Environment}.

(* c-emulator/emulator.c:2269-2289 DispatchPLdb *)
Definition ExecutePLdb : Emu Goto :=
  x <- sp_get 0 ;; n <- cp_operand ;;
  if TypeEqualP (TAG x) TypePhysicalAddress then ret InstructionException else
  word <- ReadVirtualMemory (DATA x) to_local ;;
  next (SetFixnum (extract_field n (DATAs word))).

(* c-emulator/emulator.c:2291-2306 DispatchPTagLdb *)
Definition ExecutePTagLdb : Emu Goto :=
  x <- sp_get 0 ;; n <- cp_operand ;;
  if TypeEqualP (TAG x) TypePhysicalAddress then ret InstructionException else
  word <- ReadVirtualMemory (DATA x) to_local ;;
  next (SetFixnum (extract_field n (TAG word))).

(* c-emulator/emulator.c:2308-2331 DispatchDpb *)
Definition ExecuteDpb : Emu Goto :=
  x <- sp_get 0 ;; y <- sp_get (-1) ;; n <- cp_operand ;;
  if BinaryTypeFixnumP (TAG x) (TAG y) then
    sp_add (-1) ;;
    next (sp_set_DATA 0 (deposit_field n (DATA y) (DATA x)))
  else exception_unless_illegal (BinaryTypeNumericP (TAG x) (TAG y)).

(* c-emulator/emulator.c:2333-2349 DispatchCharDpb *)
Definition ExecuteCharDpb : Emu Goto :=
  x <- sp_get 0 ;; y <- sp_get (-1) ;; n <- cp_operand ;;
  if negb (TypeFixnumP (TAG y)) then ret IllegalOperand else
  if TypeEqualP (TAG x) TypeCharacter then
    sp_add (-1) ;;
    sp_set_DATA 0 (deposit_field n (DATA y) (DATA x)) ;;
    next (sp_set_TAG 0 TypeCharacter)
  else SpSpareExceptions.

(** [update] changes the word of memory [sp] points to, given the new byte. *)
Definition deposit_in_memory (update : Z -> Z -> LispObj -> LispObj) : Emu Goto :=
  x <- sp_get 0 ;; y <- sp_get (-1) ;; n <- cp_operand ;;
  if negb (TypeFixnumP (TAG y)) then ret IllegalOperand else
  if TypeEqualP (TAG x) TypePhysicalAddress then ret InstructionException else
  sp_add (-2) ;;
  scratch <- ReadVirtualMemory (DATA x) to_local ;;
  y <- sp_get 1 ;; x <- sp_get 2 ;;
  next (WriteVirtualMemory (DATA x) (update n (DATA y) scratch)).

(* c-emulator/emulator.c:2351-2375 DispatchPDpb *)
Definition ExecutePDpb : Emu Goto :=
  deposit_in_memory (fun n byte w => set_DATA (deposit_field n byte (DATA w)) w).

(* c-emulator/emulator.c:2377-2395 DispatchPTagDpb *)
Definition ExecutePTagDpb : Emu Goto :=
  deposit_in_memory (fun n byte w => set_TAG (deposit_field n byte (TAG w)) w).
End fields.
