(* ===== verification/ArrayInstr.v ===== *)
(** Array instructions (c-emulator/emulator.c, lines 2397 to 2672): element access with
    and without array registers, and array leaders. *)

From S2P Require Export ArrayOps Exceptions.
From S2P Require Import Arith.
#[local] Open Scope vlm_scope.

Section array_instructions.
Context {env : Environment}.

(** The frame of the instructions that take an index in [*op2] and an array in
    [*sp]: [body] gets the address and the word of the header, and the index. *)
Definition with_array_header (body : Z -> LispObj -> Z -> Emu Goto) : Emu Goto :=
  y <- op2_get ;;
  if negb (TypeFixnumP (TAG y)) then ret IllegalOperand else
  x <- sp_get 0 ;;
  if TypeArrayP (TAG x) then
    '(vma, header) <- MemoryReadHeader (DATA x) to_local ;;
    if negb (TAG header =? ArrayHeaderTag) then ret IllegalOperand else
    y <- op2_get ;;
    body vma header (DATA y)
  else SpArrayExceptions.

(** The guards against long-prefix arrays and subscripts out of range. *)
Definition with_array_element (body : Z -> Z -> Z -> Emu Goto) : Emu Goto :=
  with_array_header (fun vma header index =>
    if ArrayLongPrefixP (DATA header) then ret InstructionException
    else if ArrayShortLength (DATA header) <=? index then ret IllegalOperand
    else body vma (DATA header) index).

(* c-emulator/emulator.c:2397-2421 ExecuteAref1 *)
Definition ExecuteAref1 : Emu Goto :=
  with_array_element (fun vma h index =>
    i <- get_reg sp ;;
    next (Aref1Internal (u32 (vma + 1)) (ArrayBytePacking h) 0 (ArrayElementType h) index
            (to_stack i))).

(* c-emulator/emulator.c:2423-2448 ExecuteAset1 *)
Definition ExecuteAset1 : Emu Goto :=
  with_array_element (fun vma h index =>
    i <- get_reg sp ;;
    Aset1Internal (u32 (vma + 1)) (ArrayBytePacking h) 0 (ArrayElementType h) index (i - 1) ;;
    next (sp_add (-2))).

(* c-emulator/emulator.c:2450-2475 ExecuteAloc1 *)
Definition ExecuteAloc1 : Emu Goto :=
  with_array_element (fun vma h index =>
    if negb (ArrayElementType h =? ArrayElementTypeObject) then ret IllegalOperand else
    next (SetConstant TypeLocative (vma + 1 + index))).

(* c-emulator/emulator.c:2491-2496 ExecuteSetupForce1dArray *)
Definition ExecuteSetup1dArray : Emu Goto :=
  o <- op2_get ;;
  if TypeArrayP (TAG o) then
    '(vma, header) <- MemoryReadHeader (DATA o) to_local ;;
    if negb (TAG header =? ArrayHeaderTag) then ret IllegalOperand else
    if ArrayLongPrefixP (DATA header) then ret InstructionException else
    o <- op2_get ;;
    count <- get_ps ArrayEventCount ;;
    next (PushConstant (TagType (TAG o)) vma ;;
          PushFixnum (SetArrayRegisterEventCount count (DATA header)) ;;
          PushConstant TypeLocative (vma + 1) ;;
          PushFixnum (ArrayShortLength (DATA header)))
  else Op2ArrayExceptions.

(** Access through the array register whose control word is [*op2].  A register
    whose event count is out of date is recomputed and the instruction starts over. *)
Definition fast_access (access : Z -> Z -> Z -> Emu unit) : Emu Goto :=
  loop loop_fuel (fun _ : unit =>
    x <- sp_get 0 ;;
    if negb (TypeFixnumP (TAG x)) then ret (inr IllegalOperand) else
    areg <- op2_stack ;;
    w <- stack_get areg ;;
    a <- stack_get (areg + 1) ;;
    l <- stack_get (areg + 2) ;;
    let control := DATA w in
    if DATA l <=? DATA x then ret (inr IllegalOperand) else
    count <- get_ps ArrayEventCount ;;
    if negb (ArrayRegisterEventCount control =? count) then
      RecomputeArrayRegister areg count ;; ret (inl tt)
    else
      access (DATA a) control (DATA x) ;; ret (inr NextInstruction)) tt.

(* c-emulator/emulator.c:2521-2550 ExecuteFastAref1 *)
Definition ExecuteFastAref1 : Emu Goto :=
  fast_access (fun vma control index =>
    i <- get_reg sp ;;
    Aref1Internal vma (ArrayBytePacking control) (ArrayRegisterByteOffset control)
      (ArrayElementType control) index (to_stack i)).

(* c-emulator/emulator.c:2552-2583 ExecuteFastAset1 *)
Definition ExecuteFastAset1 : Emu Goto :=
  fast_access (fun vma control index =>
    i <- get_reg sp ;;
    Aset1Internal vma (ArrayBytePacking control) (ArrayRegisterByteOffset control)
      (ArrayElementType control) index (i - 1) ;;
    sp_add (-2)).

(** ** Leaders *)

(** [body] gets the address of the leader element. *)
Definition with_array_leader (body : Z -> Emu Goto) : Emu Goto :=
  with_array_header (fun vma header index =>
    if ArrayLeaderLength (DATA header) <=? index then ret IllegalOperand
    else body (u32 (vma - u32 (1 + index)))).

(* c-emulator/emulator.c:2585-2612 ExecuteArrayLeader *)
Definition ExecuteArrayLeader : Emu Goto :=
  with_array_leader (fun a => '(_, q) <- MemoryReadData a to_local ;; next (SetObject q)).

(* c-emulator/emulator.c:2614-2642 ExecuteStoreArrayLeader *)
Definition ExecuteStoreArrayLeader : Emu Goto :=
  with_array_leader (fun a =>
    v <- sp_get (-1) ;; StoreContents a v CycleDataWrite ;; next (sp_add (-2))).

(* c-emulator/emulator.c:2644-2670 ExecuteAlocLeader *)
Definition ExecuteAlocLeader : Emu Goto :=
  with_array_leader (fun a => next (SetConstant TypeLocative a)).
End array_instructions.
