(* ===== verification/Calls.v ===== *)
(** Branches, loops, function calls, argument checking and returns
    (c-emulator/emulator.c, lines 2673 to 3400), and the block instructions. *)

From S2P Require Export Bindings Exceptions Arith.
#[local] Open Scope vlm_scope.

(** ** Branches *)

(** [BranchConditionTrue] *)
Definition branch_condition : Emu bool := (* c-emulator/emulator.c:846 BranchConditionTrue *)
  x <- sp_get 0 ;; ret (negb (TagType (TAG x) =? TypeNIL)).

Definition TakeBranch (pops : Z) : Emu Goto := (* c-emulator/emulator.c:848 *)
  sp_add (- pops) ;; ret BranchTaken.
Definition DontTakeBranch (pops : Z) : Emu Goto := (* c-emulator/emulator.c:849 *)
  sp_add (- pops) ;; ret NextInstruction.

(** Branch when the condition is [sense]; pop [taken] words if so, [not_taken] if not. *)
(* c-emulator/emulator.c:2672-2704 DispatchBranchTrue *)
Definition ExecuteBranch (sense : bool) (taken not_taken : Z) : Emu Goto :=
  c <- branch_condition ;;
  if Bool.eqb c sense then TakeBranch taken else DontTakeBranch not_taken.

(** The label [FollowPCInstructionException] is a [Goto] of its own. *)
(* c-emulator/emulator.c:2706-2727 DispatchLoopDecrementTos *)
Definition ExecuteLoopDecrementTos : Emu Goto :=
  x <- sp_get 0 ;;
  let i := s32 (DATAs x - 1) in
  if TypeFixnumP (TAG x) && (i <? DATAs x) then
    sp_set_TAG 0 TypeFixnum ;;
    sp_set_DATA 0 i ;;
    if 0 <? i then TakeBranch 0 else DontTakeBranch 0
  else ret (if TypeNumericP (TAG x) then FollowPCInstructionException else IllegalOperand).

(* c-emulator/emulator.c:2729-2741 DispatchLoopIncrementTosLessThan *)
Definition ExecuteLoopIncrementTosLessThan : Emu Goto :=
  k <- get_reg sp ;;
  assign_regs (set_op2 (OpStack (k - 1))) ;;
  y <- op2_get ;; x <- sp_get 0 ;;
  let i := s32 (DATAs x + 1) in
  if BinaryTypeFixnumP (TAG y) (TAG x) && (DATAs x <? i) then
    sp_set_TAG 0 TypeFixnum ;;
    sp_set_DATA 0 i ;;
    y <- op2_get ;;
    if i <=? DATAs y then TakeBranch 0 else DontTakeBranch 0
  else ret (if BinaryTypeNumericP (TAG y) (TAG x) then FollowPCInstructionException
            else IllegalOperand).

(** ** Calls *)

Definition put_pc (p : LispObj) : Emu unit := assign_regs (set_pc p).
(** [pc.DATA.u += n] *)
Definition advance_pc (n : Z) : Emu unit :=
  assign_regs (fun r => set_pc (set_DATA (DATA (pc r) + n) (pc r)) r).
Definition put_continuation (o : LispObj) : Emu unit := assign_ps (set_continuation o).

(** The call of [with_registers f]: a routine that works on the saved registers. *)
Definition with_saved_registers {A} (m : Emu A) : Emu A :=
  DecacheRegisters ;; a <- m ;; EncacheRegisters ;; ret a.

(** Push the frame of a call: the continuation, the control word, and the extra
    argument if there is one; [target] becomes the continuation. *)
(* c-emulator/emulator.c:2833-2838 PushContinuation *)
Definition start_call (target : LispObj) (extra : option LispObj) : Emu Goto :=
  p <- gets ps ;;
  PushContinuation (continuation p) ;;
  PushControl (control p) ;;
  match extra with
  | Some e =>
      PushObject e ;;
      put_control (fun c => Z.lor (Z.lor c ControlCallStarted) ControlExtraArgument)
  | None => put_control (fun c => Z.ldiff (Z.lor c ControlCallStarted) ControlExtraArgument)
  end ;;
  put_continuation target ;;
  ret NextInstruction.

(* c-emulator/emulator.c:2831-2838 DispatchCallCompiledEven *)
Definition ExecuteCallCompiledEven : Emu Goto :=
  n <- cp_operand ;; start_call (obj TypeEvenPC n) None.
(* c-emulator/emulator.c:2840-2847 DispatchCallCompiledOdd *)
Definition ExecuteCallCompiledOdd : Emu Goto :=
  n <- cp_operand ;; start_call (obj TypeOddPC n) None.

(** ** Finishing a call *)

(** The control word of the new frame, whose arguments are the words from [op1] up to
    [op2]. *)
Definition call_control (c operand op1 op2 fp : Z) (apply : bool) : Z := (* c-emulator/emulator.c:2912-2926 control *)
  let cleared := Z.lor ControlApply (Z.lor ControlCleanupBits (Z.lor ControlExtraArgument
    (Z.lor ControlCallStarted (Z.lor ControlArgumentSize
    (Z.lor ControlValueDisposition ControlCallerFrameSize))))) in
  u32 (Z.lor (Z.lor (Z.lor (Z.lor (Z.ldiff c cleared) (if apply then ControlApply else 0))
                      (op2 - op1))
                (Z.shiftl (Z.land operand 768) 10))
         (Z.shiftl (op1 - fp) 9)).

Definition scroll_up_if (b : bool) : Emu unit :=
  when b (with_saved_registers StackCacheScrollUp).
Definition scroll_down_if (b : bool) : Emu unit :=
  when b (with_saved_registers StackCacheScrollDown).

(* c-emulator/emulator.c:2991-3008 FinishCallInternal *)
Definition FinishCallInternal (op1 op2 : Z) : Emu Goto :=
  assign_regs (set_fp op1) ;;
  assign_regs (set_lp op2) ;;
  p <- gets ps ;;
  put_pc (continuation p) ;;
  n <- cp_next_pc ;;
  put_continuation n ;;
  scroll_up_if (StackCacheLimit p <? op1) ;;
  ret InstructionCacheLookup.

(** [size] words below [sp] and the extra argument are the frame; with [apply] the
    last argument, on the stack, is the list of the remaining ones. *)
Definition finish_call (size : Z) (apply : bool) : Emu Goto :=
  n <- cp_operand ;;
  r <- gets regs ;;
  p <- gets ps ;;
  let op1 := sp r - size - ReadControlExtraArgument (control p) in
  let op2 := if apply then sp r + 1 - 1 else sp r + 1 in
  assign_regs (set_op2 (OpStack op2)) ;;
  put_control (fun c => call_control c n op1 op2 (fp r) apply) ;;
  FinishCallInternal op1 op2.

(* c-emulator/emulator.c:2909-2927 DispatchFinishCallN *)
Definition ExecuteFinishCallN : Emu Goto := n <- cp_operand ;; finish_call (ldb 8 0 n) false.
(* c-emulator/emulator.c:2929-2947 DispatchFinishCallNApply *)
Definition ExecuteFinishCallNApply : Emu Goto := n <- cp_operand ;; finish_call (ldb 8 0 n) true.
(* c-emulator/emulator.c:2949-2968 DispatchFinishCallTos *)
Definition ExecuteFinishCallTos : Emu Goto :=
  scratch <- PopObject ;; finish_call (s32 (DATAs scratch + 1)) false.
(* c-emulator/emulator.c:2970-3008 DispatchFinishCallTosApply *)
Definition ExecuteFinishCallTosApply : Emu Goto :=
  scratch <- PopObject ;; finish_call (u32 (DATA scratch + 1)) true.

Section calls.
Context {env : Environment}.

(** The last resort: the interpreter function for the type of the object called. *)
(* c-emulator/emulator.c:2889-2906 InterpreterFunctionVector *)
Definition call_interpreter (scratch : LispObj) : Emu Goto :=
  '(_, f) <- MemoryReadData
               (u32 (TrapVectorBase + InterpreterFunctionVector + TagType (TAG scratch))) to_local ;;
  let t := TagType (TAG f) in
  if (t =? TypeEvenPC) || (t =? TypeOddPC) then start_call f (Some scratch)
  else ret IllegalOperand.

(* c-emulator/emulator.c:2860-2907 StartCallDispatch *)
Definition StartCallDispatch (scratch : LispObj) : Emu Goto :=
  let t := TagType (TAG scratch) in
  if t =? TypeCompiledFunction then start_call (obj TypeEvenPC (DATA scratch)) None
  else if t =? TypeLexicalClosure then
    '(_, environment) <- MemoryReadData (DATA scratch) to_local ;;
    '(_, function) <- MemoryReadData (u32 (DATA scratch + 1)) to_local ;;
    if TypeEqualP (TAG function) TypeCompiledFunction
    then start_call (obj TypeEvenPC (DATA function)) (Some environment)
    else call_interpreter scratch
  else call_interpreter scratch.

(* c-emulator/emulator.c:2822-2829 ExecuteStartCall *)
Definition ExecuteStartCall : Emu Goto := o <- op2_get ;; StartCallDispatch o.

(* c-emulator/emulator.c:2849-2853 DispatchCallGeneric *)
Definition ExecuteCallGeneric : Emu Goto :=
  n <- cp_operand ;; StartCallDispatch (obj TypeGenericFunction n).

(* c-emulator/emulator.c:2855-2858 DispatchCallIndirect *)
Definition ExecuteCallIndirect : Emu Goto :=
  n <- cp_operand ;;
  '(_, scratch) <- MemoryReadData (u32 n) to_local ;;
  StartCallDispatch scratch.

(** ** Entry instructions *)

Definition retry (m : Emu unit) : Emu (unit + Goto) := m ;; ret (inl tt).
Definition done (m : Emu Goto) : Emu (unit + Goto) := g <- m ;; ret (inr g).

(** [sp[k].TAG = SetTagCdr(sp[k].TAG, cdr)] *)
Definition sp_set_cdr (k cdr : Z) : Emu unit :=
  o <- sp_get k ;; sp_set_TAG k (SetTagCdr (TAG o) cdr).

(** Make a list of the arguments past [maximum], in place. *)
Definition push_rest_list (maximum : Z) : Emu unit :=
  p <- gets ps ;; r <- gets regs ;;
  PushConstant TypeList (StackCacheBase p + fp r + maximum).

(** The label [applynil]: all the arguments are on the stack. *)
(* c-emulator/emulator.c:3069-3079 applynil *)
Definition rest_accepted (supplied minimum maximum : Z) : Emu Goto :=
  if maximum <? supplied then
    sp_set_cdr 0 CdrNil ;;
    push_rest_list maximum ;;
    advance_pc (maximum - minimum + 2) ;; ret InstructionCacheLookup
  else if supplied <? minimum then ret IllegalOperand
  else advance_pc (supplied - minimum + 1) ;; ret InstructionCacheLookup.

Definition drop_nil_list : Emu unit := sp_add (-1) ;; put_control (fun c => WriteControlApply c 0).

(** Pull [n] arguments out of the list on the stack when it lies in the stack cache;
    those that remain are left to the trap handler, unless there are none. *)
Definition pull_arguments (n : Z) : Emu (unit + Goto) :=
  x <- sp_get 0 ;; base <- get_ps StackCacheBase ;;
  i <- (if u32 (DATA x - base) <? StackCacheSize * PageSize
        then with_saved_registers (PullApplyArgsQuickly n) else ret n) ;;
  ret (if i =? 0 then inl tt else inr (PullApplyArgsTrap i)).

Definition entry_rest_turn (minimum maximum : Z) : Emu (unit + Goto) :=
  c <- get_ps control ;;
  let supplied := ReadControlArgumentSize c in
  if ReadControlApply c =? 0 then done (rest_accepted supplied minimum maximum) else
  x <- sp_get 0 ;;
  if TypeEqualP (TAG x) TypeNIL then
    drop_nil_list ;; done (rest_accepted supplied minimum maximum)
  else if maximum <? supplied then
    sp_set_cdr 0 CdrNil ;;
    sp_set_cdr (-1) CdrNormal ;;
    push_rest_list maximum ;;
    assign_regs (fun r => set_lp (lp r + 1) r) ;;
    put_control (fun c => WriteControlArgumentSize c (1 + supplied)) ;;
    advance_pc (maximum - minimum + 2) ;; ret (inr InstructionCacheLookup)
  else if supplied <? maximum then
    if TagType (TAG x) =? TypeList then pull_arguments (maximum - supplied)
    else ret (inr (PullApplyArgsTrap (maximum - supplied)))
  else
    advance_pc (supplied - minimum + 2) ;; ret (inr InstructionCacheLookup).

(* c-emulator/emulator.c:3010-3082 DispatchEntryRestAccepted *)
Definition ExecuteEntryRestAccepted : Emu Goto :=
  n <- cp_operand ;;
  loop loop_fuel (fun _ => entry_rest_turn (ldb 8 0 n) (ldb 8 8 n)) tt.

(** The label [applynil2]. *)
(* c-emulator/emulator.c:3129-3136 applynil2 *)
Definition rest_not_accepted (supplied minimum maximum : Z) : Emu Goto :=
  if (minimum <=? supplied) && (supplied <=? maximum) then
    advance_pc (supplied - minimum + 1) ;; ret InstructionCacheLookup
  else ret IllegalOperand.

Definition entry_no_rest_turn (minimum maximum : Z) : Emu (unit + Goto) :=
  c <- get_ps control ;;
  let supplied := ReadControlArgumentSize c in
  if ReadControlApply c =? 0 then done (rest_not_accepted supplied minimum maximum) else
  x <- sp_get 0 ;;
  if TypeEqualP (TAG x) TypeNIL then
    drop_nil_list ;; done (rest_not_accepted supplied minimum maximum)
  else if maximum <=? supplied then ret (inr IllegalOperand)
  else if TypeEqualP (TAG x) TypeList then pull_arguments (maximum - supplied)
  else ret (inr (PullApplyArgsTrap (maximum - supplied))).

(* c-emulator/emulator.c:3084-3138 DispatchEntryRestNotAccepted *)
Definition ExecuteEntryRestNotAccepted : Emu Goto :=
  n <- cp_operand ;;
  loop loop_fuel (fun _ => entry_no_rest_turn (ldb 8 0 n) (ldb 8 8 n)) tt.

(* c-emulator/emulator.c:3140-3144 DispatchLocateLocals *)
Definition ExecuteLocateLocals : Emu Goto :=
  assign_regs (fun r => set_lp (sp r) r) ;;
  c <- get_ps control ;;
  PushFixnum (ReadControlArgumentSize c - 2) ;;
  r <- gets regs ;;
  next (put_control (fun c => WriteControlArgumentSize c (lp r - fp r))).
End calls.
