(* ===== verification/Frames.v ===== *)
(** Returns, dynamic bindings and catch blocks (c-emulator/emulator.c, lines 3146 to
    3530, and the label HandleUnwindProtect). *)

From S2P Require Export Calls.
#[local] Open Scope vlm_scope.

Section frames.
Context {env : Environment}.

(** ** Catch blocks *)

(** [cbp[k]], with [cbp] read from the catch-block pointer [cb]. *)
Definition cbp_index (cb : LispObj) : Emu Z :=
  base <- get_ps StackCacheBase ;; ret (u32 (DATA cb - base)).
Definition cbp_get (cb : LispObj) (k : Z) : Emu LispObj :=
  i <- cbp_index cb ;; stack_get (i + k).

(** Remove the catch block [cb]: the extra-argument and cleanup-catch bits of
    [control] and the catch-block pointer come from its third word. *)
(* c-emulator/emulator.c:3179-3181 WriteControlExtraArgument *)
Definition pop_catch_block (cb : LispObj) (control : Z) : Emu unit :=
  o <- cbp_get cb 2 ;;
  let control := WriteControlExtraArgument control (ldb 1 7 (TAG o)) in
  put_control (fun _ => WriteControlCleanupCatch control (ldb 1 6 (TAG o))) ;;
  assign_ps (set_CatchBlockPointer (StoreCdrNext o)).

Definition unwind_protect_p (o : LispObj) : bool := negb (ldb 1 6 (TAG o) =? 0).

(** ** Undoing bindings *)

(** [for (; bsp > level; ) if (Unbind()) IllegalOperand;]: [false] in the latter case. *)
Definition unbind_to (level : Emu Z) : Emu bool :=
  loop loop_fuel (fun _ : unit =>
    l <- level ;;
    bsp <- get_ps BindingStackPointer ;;
    if l <? bsp then
      b <- Unbind ;; ret (if (b : bool) then inl tt else inr false)
    else ret (inr true)) tt.

(** [for (; ReadControlCleanupBindings (ps->control); ) Unbind();] *)
Definition unbind_all : Emu unit :=
  loop loop_fuel (fun _ : unit =>
    c <- get_ps control ;;
    if ReadControlCleanupBindings c =? 0 then ret (inr tt)
    else Unbind ;; ret (inl tt)) tt.

(** ** Leaving a frame *)

(** The loop over the catch blocks of the frame. *)
(* c-emulator/emulator.c:3171-3182 ReadControlCleanupCatch *)
Definition cleanup_catches : Emu (option Goto) :=
  loop loop_fuel (fun _ : unit =>
    c <- get_ps control ;;
    if ReadControlCleanupCatch c =? 0 then ret (inr None) else
    cb <- get_ps CatchBlockPointer ;;
    o <- cbp_get cb 1 ;;
    if unwind_protect_p o then ret (inr (Some HandleUnwindProtect))
    else pop_catch_block cb c ;; ret (inl tt)) tt.

(** The cleanups of the frame; [Some g] when the return is abandoned. *)
(* c-emulator/emulator.c:3169-3192 ReadControlCleanupBits *)
Definition cleanup_frame : Emu (option Goto) :=
  c <- get_ps control ;;
  if ReadControlCleanupBits c =? 0 then ret None else
  g <- cleanup_catches ;;
  match g with
  | Some g => ret (Some g)
  | None =>
      c <- get_ps control ;;
      deep <- get_ps DeepBoundP ;;
      if negb (ReadControlCleanupBindings c =? 0) && deep then ret (Some UnimplementedInstruction)
      else
        unbind_all ;;
        c <- get_ps control ;;
        ret (if ReadControlTrapOnExit c =? 0 then None else Some IllegalOperand)
  end.

(** The caller's registers, from the frame being left and its saved [control]. *)
(* c-emulator/emulator.c:3197-3203 ReadControlCallerFrameSize *)
Definition pop_frame (disp framesize saved_control : Z) : Emu unit :=
  c <- get_ps continuation ;;
  when (negb (disp =? ValueDispositionReturn)) (put_pc c) ;;
  o <- fp_get 0 ;;
  put_continuation o ;;
  assign_regs (fun r => set_sp (fp r - 1) r) ;;
  assign_regs (fun r => set_fp (fp r - framesize) r) ;;
  assign_regs (fun r => set_lp (fp r + ReadControlArgumentSize saved_control) r) ;;
  put_control (fun _ => saved_control).

Definition underflow_check : Emu unit := f <- get_reg fp ;; scroll_down_if (f <? 0).

(** The end of a return: with disposition "return" the caller returns as well. *)
Definition after_return (disp : Z) : Emu (unit + Goto) :=
  underflow_check ;;
  if disp =? ValueDispositionReturn then retry AllowSequenceBreaks
  else ret (inr InstructionCacheLookup).

Definition return_single_turn (scratch : LispObj) : Emu (unit + Goto) :=
  c <- get_ps control ;;
  let disp := ReadControlValueDisposition c in
  saved <- fp_get 1 ;;
  g <- cleanup_frame ;;
  match g with
  | Some g => ret (inr g)
  | None =>
      c <- get_ps control ;;
      pop_frame disp (ReadControlCallerFrameSize c) (DATA saved) ;;
      (if disp =? ValueDispositionValue then PushObject scratch
       else if disp =? ValueDispositionMultiple then PushObject scratch ;; PushFixnum 1
       else ret tt) ;;
      after_return disp
  end.

(* c-emulator/emulator.c:3156-3234 ReturnSingleInternal *)
Definition ReturnSingleInternal (scratch : LispObj) : Emu Goto :=
  loop loop_fuel (fun _ => return_single_turn scratch) tt.

(* c-emulator/emulator.c:3146-3148 DispatchReturnSingleTOS *)
Definition ExecuteReturnSingleTOS : Emu Goto := o <- sp_get 0 ;; ReturnSingleInternal o.
(* c-emulator/emulator.c:3149-3151 DispatchReturnSingleNIL *)
Definition ExecuteReturnSingleNIL : Emu Goto := ReturnSingleInternal ObjectNIL.
(* c-emulator/emulator.c:3152-3154 DispatchReturnSingleT *)
Definition ExecuteReturnSingleT : Emu Goto := ReturnSingleInternal ObjectT.

(** [for (i = count; i--;) *++sp = f( *valueblock++);] *)
Fixpoint push_values (f : LispObj -> LispObj) (n : nat) (valueblock : Z) : Emu unit :=
  match n with
  | O => ret tt
  | S n' =>
      o <- stack_get valueblock ;; sp_add 1 ;; sp_put 0 (f o) ;;
      push_values f n' (valueblock + 1)
  end.
Definition push_count (f : LispObj -> LispObj) (count valueblock : Z) : Emu unit :=
  if count <? 0 then undefined else push_values f (Z.to_nat count) valueblock.

Definition too_many_values (framesize count : Z) : bool := 112 <? s32 (framesize + count + 1).

Definition return_multiple_turn (count : Z) : Emu (unit + Goto) :=
  c <- get_ps control ;;
  let disp := ReadControlValueDisposition c in
  let framesize := ReadControlCallerFrameSize c in
  saved <- fp_get 1 ;;
  r <- gets regs ;;
  let valueblock := sp r - (count - 1) in
  if ((disp =? ValueDispositionMultiple) || (disp =? ValueDispositionReturn))
     && too_many_values framesize count then ret (inr IllegalOperand) else
  g <- cleanup_frame ;;
  match g with
  | Some g => ret (inr g)
  | None =>
      pop_frame disp framesize (DATA saved) ;;
      (if disp =? ValueDispositionEffect then ret tt
       else if disp =? ValueDispositionValue then
         if 0 <? count then o <- stack_get valueblock ;; PushObject o else PushNIL
       else if disp =? ValueDispositionMultiple then
         push_count StoreCdrNext count valueblock ;; PushFixnum count
       else push_count (fun o => o) count valueblock) ;;
      after_return disp
  end.

(* c-emulator/emulator.c:3236-3332 ExecuteReturnMultiple *)
Definition ExecuteReturnMultiple : Emu Goto :=
  o <- op2_get ;;
  if negb (TypeFixnumP (TAG o)) then ret IllegalOperand else
  loop loop_fuel (fun _ => return_multiple_turn (DATAs o)) tt.

(* c-emulator/emulator.c:3334-3394 ExecuteReturnKludge *)
Definition ExecuteReturnKludge : Emu Goto :=
  o <- op2_get ;;
  if negb (TypeFixnumP (TAG o)) then ret IllegalOperand else
  let count := DATAs o in
  c <- get_ps control ;;
  let framesize := ReadControlCallerFrameSize c in
  saved <- fp_get 1 ;;
  r <- gets regs ;;
  let valueblock := sp r - (count - 1) in
  if too_many_values framesize count then ret IllegalOperand else
  g <- cleanup_frame ;;
  match g with
  | Some g => ret g
  | None =>
      pop_frame ValueDispositionEffect framesize (DATA saved) ;;
      push_count (fun o => o) count valueblock ;;
      underflow_check ;;
      ret InstructionCacheLookup
  end.

(* c-emulator/emulator.c:3396-3404 DispatchTakeValues *)
Definition ExecuteTakeValues : Emu Goto :=
  x <- sp_get 0 ;; n <- cp_operand ;;
  if negb (TypeFixnumP (TAG x)) then ret IllegalOperand else
  let i := s32 (n - DATAs x) in
  sp_add (-1) ;;
  if 0 <? i then PushNNilsInternal i
  else when (i <? 0) (sp_add i) ;; ret NextInstruction.

(** ** Binding *)

(** Save the binding of [loc], the word [old], on the binding stack; the cdr code of
    the location records whether the frame had bindings already. *)
(* c-emulator/emulator.c:3421-3423 BindingStackPointer *)
Definition save_binding (loc old : LispObj) : Emu unit :=
  p <- gets ps ;;
  WriteVirtualMemory (u32 (BindingStackPointer p + 1))
    (set_TAG (Z.lor (TAG loc) (Z.shiftl (ReadControlCleanupBindings (control p)) 6)) loc) ;;
  WriteVirtualMemory (u32 (BindingStackPointer p + 2)) old.

Definition commit_binding : Emu unit :=
  put_control (fun c => WriteControlCleanupBindings c 1) ;;
  assign_ps (fun p => set_BindingStackPointer (u32 (BindingStackPointer p + 2)) p).

Definition binding_stack_full : Emu bool :=
  p <- gets ps ;; ret ((BindingStackLimit p <=? BindingStackPointer p) || DeepBoundP p).

(* c-emulator/emulator.c:3406-3430 ExecuteBindLocativeToValue *)
Definition ExecuteBindLocativeToValue : Emu Goto :=
  x <- sp_get 0 ;;
  if TypeEqualP (TAG x) TypeLocative then
    loc <- PopObject ;;
    full <- binding_stack_full ;;
    if (full : bool) then ret IllegalOperand else
    '(_, scratch) <- MemoryRead (DATA loc) to_local CycleBindRead ;;
    save_binding loc scratch ;;
    v <- op2_get ;;
    StoreContents (DATA loc) v CycleBindWrite ;;
    next commit_binding
  else SpSpareExceptions.

(* c-emulator/emulator.c:3432-3454 ExecuteBindLocative *)
Definition ExecuteBindLocative : Emu Goto :=
  loc <- op2_get ;;
  if TypeEqualP (TAG loc) TypeLocative then
    full <- binding_stack_full ;;
    if (full : bool) then ret IllegalOperand else
    '(_, scratch) <- MemoryRead (DATA loc) to_local CycleBindRead ;;
    save_binding loc scratch ;;
    next commit_binding
  else Op2SpareExceptions.

(* c-emulator/emulator.c:3456-3466 ExecuteUnbindN *)
Definition ExecuteUnbindN : Emu Goto :=
  o <- op2_get ;;
  deep <- get_ps DeepBoundP ;;
  if negb (TypeFixnumP (TAG o)) || deep then ret IllegalOperand else
  loop loop_fuel (fun i : Z =>
    if i =? 0 then ret (inr NextInstruction) else
    b <- Unbind ;; ret (if (b : bool) then inl (i - 1) else inr IllegalOperand)) (DATA o).

(* c-emulator/emulator.c:3468-3484 ExecuteRestoreBindingStack *)
Definition ExecuteRestoreBindingStack : Emu Goto :=
  o <- op2_get ;;
  if TypeEqualP (TAG o) TypeLocative then
    deep <- get_ps DeepBoundP ;;
    if (deep : bool) then ret IllegalOperand else
    b <- unbind_to (o <- op2_get ;; ret (DATA o)) ;;
    ret (if (b : bool) then NextInstruction else IllegalOperand)
  else Op2SpareExceptions.

(** ** Catch and unwind-protect *)

(* c-emulator/emulator.c:3486-3504 DispatchCatchOpen *)
Definition ExecuteCatchOpen : Emu Goto :=
  n <- cp_operand ;;
  p <- gets ps ;; r <- gets regs ;;
  let newpointer := StackCacheBase p + sp r in
  let unwindprotect := ldb 1 0 n in
  let cb := CatchBlockPointer p in
  PushConstant (SetTagCdr TypeLocative unwindprotect) (BindingStackPointer p) ;;
  PushConstant (SetTagCdr (TAG cb) (dpb (ReadControlExtraArgument (control p)) 1 1
                                        (ReadControlCleanupCatch (control p)))) (DATA cb) ;;
  when (unwindprotect =? 0)
    (PushConstant (SetTagCdr (TAG (continuation p)) (ldb 2 6 n)) (DATA (continuation p))) ;;
  assign_ps (set_CatchBlockPointer (obj TypeLocative newpointer)) ;;
  next (put_control (fun c => WriteControlCleanupCatch c 1)).

(** Undo the bindings made since the block was opened: [Some g] on failure. *)
(* c-emulator/emulator.c:3512-3520 BindingStackPointer *)
Definition unwind_catch_bindings (cb : LispObj) : Emu (option Goto) :=
  b <- cbp_get cb 1 ;;
  p <- gets ps ;;
  if BindingStackPointer p =? DATA b then ret None
  else if DeepBoundP p then ret (Some UnimplementedInstruction)
  else
    ok <- unbind_to (b <- cbp_get cb 1 ;; ret (DATA b)) ;;
    ret (if (ok : bool) then None else Some IllegalOperand).

(** Push the PC [next] with the cleanup-in-progress bit in its cdr code. *)
Definition push_cleanup_pc (next : LispObj) (c : Z) : Emu unit :=
  PushConstant (SetTagCdr (TAG next) (dpb (ReadControlCleanupInProgress c) 1 0 2)) (DATA next).

(** [control] is read before the bindings are undone. *)
(* c-emulator/emulator.c:3506-3534 DispatchCatchClose *)
Definition ExecuteCatchClose : Emu Goto :=
  cb <- get_ps CatchBlockPointer ;;
  c <- get_ps control ;;
  g <- unwind_catch_bindings cb ;;
  match g with
  | Some g => ret g
  | None =>
      pop_catch_block cb c ;;
      o <- cbp_get cb 1 ;;
      if unwind_protect_p o then
        n <- cp_next_pc ;;
        c <- get_ps control ;;
        push_cleanup_pc n c ;;
        put_control (fun c => WriteControlCleanupInProgress c 1) ;;
        t <- cbp_get cb 0 ;;
        put_pc t ;;
        ret InstructionCacheLookup
      else ret NextInstruction
  end.

(** The cleanup handler of a frame that is being left. *)
(* c-emulator/emulator.c:4541-4565 HandleUnwindProtect *)
Definition unwind_protect_handler : Emu Goto :=
  cb <- get_ps CatchBlockPointer ;;
  c <- get_ps control ;;
  assign_regs (fun r => set_sp (restartsp r) r) ;;
  g <- unwind_catch_bindings cb ;;
  match g with
  | Some g => ret g
  | None =>
      p <- get_reg pc ;;
      push_cleanup_pc p c ;;
      pop_catch_block cb (WriteControlCleanupInProgress c 1) ;;
      t <- cbp_get cb 0 ;;
      put_pc t ;;
      ret InstructionCacheLookup
  end.
End frames.
