(* ===== verification/ObjectInstr.v ===== *)
(** Lexical and instance variables, allocation, pointer arithmetic, the ALU
    instruction, raw memory access, tags and jumps (c-emulator/emulator.c). *)

From S2P Require Export ListOps ArrayOps Alu Arith.
#[local] Open Scope vlm_scope.

Section object_instructions.
Context {env : Environment}.

(** ** Lexical variables *)

(** The address of the variable: [op2->DATA.u + ldb(3,10,cp->instruction)]. *)
Definition with_lexical_variable (body : Z -> Emu Goto) : Emu Goto :=
  o <- op2_get ;;
  n <- cp_instruction ;;
  let t := TagType (TAG o) in
  if (t =? TypeList) || (t =? TypeLocative) then body (u32 (DATA o + ldb 3 10 n))
  else ret IllegalOperand.

(* c-emulator/emulator.c:3538-3552 ExecutePushLexicalVar *)
Definition ExecutePushLexicalVar : Emu Goto :=
  with_lexical_variable (fun a => '(_, v) <- MemoryReadData a to_local ;; next (PushObject v)).
(* c-emulator/emulator.c:3556-3570 ExecutePopLexicalVar *)
Definition ExecutePopLexicalVar : Emu Goto :=
  with_lexical_variable (fun a =>
    x <- sp_get 0 ;; StoreContents a x CycleDataWrite ;; next (sp_add (-1))).
(* c-emulator/emulator.c:3574-3587 ExecuteMovemLexicalVar *)
Definition ExecuteMovemLexicalVar : Emu Goto :=
  with_lexical_variable (fun a => x <- sp_get 0 ;; next (StoreContents a x CycleDataWrite)).

(** ** Instance variables *)

(** The four uses of the address of a variable. *)
Definition push_contents (a : Z) : Emu Goto :=
  i <- get_reg sp ;; MemoryReadData a (to_stack (i + 1)) ;; next (sp_add 1).
Definition pop_contents (a : Z) : Emu Goto :=
  x <- sp_get 0 ;; StoreContents a x CycleDataWrite ;; next (sp_add (-1)).
Definition movem_contents (a : Z) : Emu Goto :=
  x <- sp_get 0 ;; next (StoreContents a x CycleDataWrite).
Definition push_address (a : Z) : Emu Goto := next (PushConstant TypeLocative a).

(** Through the mapping table in [fp[2]] of the instance in [fp[3]]. *)
Definition with_mapped_variable (body : Z -> Emu Goto) : Emu Goto :=
  f <- get_reg fp ;; n <- cp_operand ;;
  a <- LocateInstanceVariableMapped (f + 2) (f + 3) n ;; body a.

(* c-emulator/emulator.c:3589-3593 DispatchPushInstanceVariable *)
Definition ExecutePushInstanceVariable : Emu Goto := with_mapped_variable push_contents.
(* c-emulator/emulator.c:3595-3599 DispatchPopInstanceVariable *)
Definition ExecutePopInstanceVariable : Emu Goto := with_mapped_variable pop_contents.
(* c-emulator/emulator.c:3601-3604 DispatchMovemInstanceVariable *)
Definition ExecuteMovemInstanceVariable : Emu Goto := with_mapped_variable movem_contents.
(* c-emulator/emulator.c:3606-3609 DispatchPushAddressInstanceVariable *)
Definition ExecutePushAddressInstanceVariable : Emu Goto := with_mapped_variable push_address.

(** At a fixed offset in the instance. *)
Definition with_ordered_variable (body : Z -> Emu Goto) : Emu Goto :=
  o <- fp_get 3 ;; n <- cp_operand ;;
  if instance_type_p (TAG o) then body (u32 (DATA o + n)) else ret IllegalOperand.

(* c-emulator/emulator.c:3611-3616 DispatchPushInstanceVariableOrdered *)
Definition ExecutePushInstanceVariableOrdered : Emu Goto := with_ordered_variable push_contents.
(* c-emulator/emulator.c:3618-3623 DispatchPopInstanceVariableOrdered *)
Definition ExecutePopInstanceVariableOrdered : Emu Goto := with_ordered_variable pop_contents.
(* c-emulator/emulator.c:3625-3629 DispatchMovemInstanceVariableOrdered *)
Definition ExecuteMovemInstanceVariableOrdered : Emu Goto := with_ordered_variable movem_contents.
(* c-emulator/emulator.c:3631-3635 DispatchPushAddressInstanceVariableOrdered *)
Definition ExecutePushAddressInstanceVariableOrdered : Emu Goto := with_ordered_variable push_address.

(** The variable of the instance at [sp[k]] at the offset [*op2]. *)
Definition locate_arbitrary (k : Z) : Emu Z :=
  i <- get_reg sp ;; o <- get_reg op2 ;; LocateArbitraryInstanceVariable (i + k) o.

(* c-emulator/emulator.c:3637-3647 ExecuteInstanceRef *)
Definition ExecuteInstanceRef : Emu Goto :=
  a <- locate_arbitrary 0 ;; '(_, v) <- MemoryReadData a to_local ;; next (SetObject v).
(* c-emulator/emulator.c:3649-3659 ExecuteInstanceSet *)
Definition ExecuteInstanceSet : Emu Goto :=
  a <- locate_arbitrary (-1) ;;
  x <- sp_get 0 ;; StoreContents a x CycleDataWrite ;; next (sp_add (-2)).
(* c-emulator/emulator.c:3663-3671 ExecuteInstanceLoc *)
Definition ExecuteInstanceLoc : Emu Goto :=
  a <- locate_arbitrary 0 ;; next (SetConstant TypeLocative a).

(** ** Pointers *)

(* c-emulator/emulator.c:3684-3686 DispatchUnsignedLesspImmediate *)
Definition ExecuteUnsignedLesspImmediate : Emu Goto :=
  x <- sp_get 0 ;; n <- cp_operand ;; next (SetPredicate (DATA x <? u32 n)).
(* c-emulator/emulator.c:3687-3694 ExecuteUnsignedLessp *)
Definition ExecuteUnsignedLessp : Emu Goto :=
  y <- op2_get ;; x <- sp_get 0 ;; next (SetPredicate (DATA x <? DATA y)).
(* c-emulator/emulator.c:3696-3698 DispatchUnsignedLesspNoPopImmediate *)
Definition ExecuteUnsignedLesspNoPopImmediate : Emu Goto :=
  x <- sp_get 0 ;; n <- cp_operand ;; next (PushPredicate (DATA x <? u32 n)).
(* c-emulator/emulator.c:3699-3706 ExecuteUnsignedLesspNoPop *)
Definition ExecuteUnsignedLesspNoPop : Emu Goto :=
  y <- op2_get ;; x <- sp_get 0 ;; next (PushPredicate (DATA x <? DATA y)).

(* c-emulator/emulator.c:3768-3770 DispatchPointerPlusImmediate *)
Definition ExecutePointerPlusImmediate : Emu Goto :=
  x <- sp_get 0 ;; n <- cp_operand ;; next (sp_set_DATA 0 (DATA x + n)).
(* c-emulator/emulator.c:3771-3778 ExecutePointerPlus *)
Definition ExecutePointerPlus : Emu Goto :=
  y <- op2_get ;; x <- sp_get 0 ;; next (sp_set_DATA 0 (DATA x + DATA y)).
(* c-emulator/emulator.c:3780-3782 DispatchPointerDifferenceImmediate *)
Definition ExecutePointerDifferenceImmediate : Emu Goto :=
  x <- sp_get 0 ;; n <- cp_operand ;; next (SetFixnum (DATA x - n)).
(* c-emulator/emulator.c:3783-3790 ExecutePointerDifference *)
Definition ExecutePointerDifference : Emu Goto :=
  y <- op2_get ;; x <- sp_get 0 ;; next (SetFixnum (DATA x - DATA y)).
(* c-emulator/emulator.c:3792-3798 ExecutePointerIncrement *)
Definition ExecutePointerIncrement : Emu Goto :=
  o <- op2_get ;; next (op2_set_DATA (DATA o + 1)).

(** ** The ALU *)

(* c-emulator/emulator.c:3708-3726 ExecuteAlu *)
Definition ExecuteAlu : Emu Goto :=
  binary_fixnum (fun x y =>
    assign_ps (set_ALUOverflow false) ;;
    p <- gets ps ;;
    result <- call_AluOp (AluOp p) (AluAndRotateControl p) (DATA x) (DATA y) ;;
    overflow <- get_ps ALUOverflow ;;
    if (overflow : bool) then ret InstructionException else next (sp_set_DATA 0 result)).

(** ** Allocation *)

(** [ps->bar[k].address] *)
Definition bar_get (k : Z) : Emu LispObj := l <- get_ps bar ;; of_option (nth_Z l k).
Definition bar_put (k : Z) (o : LispObj) : Emu unit :=
  l <- get_ps bar ;;
  if in_bounds l k then assign_ps (set_bar (upd_Z l k o)) else undefined.

Definition raise_trap_mode : Emu unit :=
  c <- get_ps control ;;
  when (ReadControlTrapMode c <? 1) (put_control (fun c => WriteControlTrapMode c 1)).

(** Take [op2] words off an allocation cache: its area, address and length, and the
    assignments to its address and length. *)
Definition allocate_block (area address : ProcessorState -> LispObj) (length : ProcessorState -> Z)
    (set_address : LispObj -> ProcessorState -> ProcessorState)
    (set_length : Z -> ProcessorState -> ProcessorState) : Emu Goto :=
  y <- op2_get ;;
  if negb (TypeFixnumP (TAG y)) then ret IllegalOperand else
  x <- sp_get 0 ;;
  p <- gets ps ;;
  if negb (ObjectEqP (area p) x) || (length p <? DATA y) then ret InstructionException else
  SetObject (address p) ;;
  bar_put 1 (address p) ;;
  raise_trap_mode ;;
  y <- op2_get ;;
  assign_ps (fun p => set_length (u32 (length p - DATA y)) p) ;;
  y <- op2_get ;;
  next (assign_ps (fun p => set_address (set_DATA (DATA (address p) + DATA y) (address p)) p)).

(* c-emulator/emulator.c:3728-3746 ExecuteAllocateListBlock *)
Definition ExecuteAllocateListBlock : Emu Goto :=
  allocate_block ListCacheArea ListCacheAddress ListCacheLength
    set_ListCacheAddress set_ListCacheLength.
(* c-emulator/emulator.c:3749-3766 ExecuteAllocateStructureBlock *)
Definition ExecuteAllocateStructureBlock : Emu Goto :=
  allocate_block StructureCacheArea StructureCacheAddress StructureCacheLength
    set_StructureCacheAddress set_StructureCacheLength.

(** ** Block instructions *)

(** The operand of the memory-reading instructions. *)
Definition operand_cycle (n : Z) : Z := Z.shiftr (Z.land n 960) 6. (* c-emulator/emulator.c:2749 cycle *)
Definition operand_fixnum_only (n : Z) : bool := negb (Z.land n 32 =? 0). (* c-emulator/emulator.c:2750 fixnum_only *)
Definition operand_cdr_next (n : Z) : bool := negb (Z.land n 16 =? 0). (* c-emulator/emulator.c:2751 cdr_next *)

Definition sp_strip_cdr : Emu unit := x <- sp_get 0 ;; sp_set_TAG 0 (TagType (TAG x)).

Definition bar_advance (k : Z) : Emu unit :=
  b <- bar_get k ;; bar_put k (set_DATA (DATA b + 1) b).

(* c-emulator/emulator.c:2743-2763 ExecuteBlockRead *)
Definition ExecuteBlockRead (k : Z) : Emu Goto :=
  n <- cp_operand ;;
  b <- bar_get k ;;
  i <- get_reg sp ;;
  MemoryRead (DATA b) (to_stack (i + 1)) (operand_cycle n) ;;
  x <- sp_get 1 ;;
  if operand_fixnum_only n && negb (TypeFixnumP (TAG x)) then ret InstructionException else
  sp_add 1 ;;
  when (operand_cdr_next n) sp_strip_cdr ;;
  next (when (Z.land n 4 =? 0) (bar_advance k)).

(* c-emulator/emulator.c:2765-2770 ExecuteBlockReadShift *)
Definition ExecuteBlockReadShift : Emu Goto := ret UnimplementedInstruction.
(* c-emulator/emulator.c:2772-2777 ExecuteBlockReadTest *)
Definition ExecuteBlockReadTest : Emu Goto := ret UnimplementedInstruction.
(* c-emulator/emulator.c:2779-2799 ExecuteBlockReadAlu *)
Definition ExecuteBlockReadAlu : Emu Goto := ret UnimplementedInstruction.

(* c-emulator/emulator.c:2801-2820 ExecuteBlockWrite *)
Definition ExecuteBlockWrite (k : Z) : Emu Goto :=
  b <- bar_get k ;; o <- op2_get ;;
  WriteVirtualMemory (DATA b) o ;;
  next (bar_advance k).

(** ** Raw memory access *)

(* c-emulator/emulator.c:4225-4238 DispatchMemoryRead *)
Definition ExecuteMemoryRead : Emu Goto :=
  n <- cp_operand ;; x <- sp_get 0 ;;
  '(_, scratch) <- MemoryRead (DATA x) to_local (operand_cycle n) ;;
  if operand_fixnum_only n && negb (TypeFixnumP (TAG scratch)) then ret IllegalOperand else
  sp_put 0 scratch ;;
  next (when (operand_cdr_next n) sp_strip_cdr).

(* c-emulator/emulator.c:4240-4254 DispatchMemoryReadAddress *)
Definition ExecuteMemoryReadAddress : Emu Goto :=
  n <- cp_operand ;; x <- sp_get 0 ;;
  '(vma, scratch) <- MemoryRead (DATA x) to_local (operand_cycle n) ;;
  if operand_fixnum_only n && negb (TypeFixnumP (TAG scratch)) then ret IllegalOperand else
  sp_set_DATA 0 vma ;;
  next (when (operand_cdr_next n) sp_strip_cdr).

(* c-emulator/emulator.c:4285-4311 ExecuteStoreConditional *)
Definition ExecuteStoreConditional : Emu Goto :=
  l <- sp_get (-1) ;;
  if TypeEqualP (TagType (TAG l)) TypeLocative then
    '(vma, scratch) <- MemoryReadData (DATA l) to_local ;;
    x <- sp_get 0 ;;
    if ObjectEqP x scratch then
      o <- op2_get ;;
      WriteVirtualMemory vma o ;; sp_add (-1) ;; next SetT
    else sp_add (-1) ;; next SetNIL
  else exception_unless_illegal (TypeSpareP (TAG l)).

(* c-emulator/emulator.c:4313-4326 ExecuteMemoryWrite *)
Definition ExecuteMemoryWrite : Emu Goto :=
  x <- sp_get 0 ;;
  if negb (TypeEqualP (TAG x) TypePhysicalAddress) then
    o <- op2_get ;; WriteVirtualMemory (DATA x) o ;; next (sp_add (-1))
  else ret InstructionException.

(* c-emulator/emulator.c:4328-4341 ExecutePStoreContents *)
Definition ExecutePStoreContents : Emu Goto :=
  x <- sp_get 0 ;;
  if negb (TypeEqualP (TAG x) TypePhysicalAddress) then
    o <- op2_get ;; StoreContents (DATA x) o CycleRaw ;; next (sp_add (-1))
  else ret InstructionException.

(** ** Tags *)

Definition op2_set_TAG (t : Z) : Emu unit := o <- op2_get ;; op2_put (set_TAG t o).

(* c-emulator/emulator.c:4256-4258 DispatchTagImmediate *)
Definition ExecuteTagImmediate : Emu Goto := next (PushFixnum TypeFixnum).
(* c-emulator/emulator.c:4259-4266 ExecuteTag *)
Definition ExecuteTag : Emu Goto := o <- op2_get ;; next (PushFixnum (TAG o)).
(* c-emulator/emulator.c:4268-4270 DispatchSetTagImmediate *)
Definition ExecuteSetTagImmediate : Emu Goto := n <- cp_operand ;; next (sp_set_TAG 0 n).
(* c-emulator/emulator.c:4271-4283 ExecuteSetTag *)
Definition ExecuteSetTag : Emu Goto :=
  o <- op2_get ;;
  if TypeEqualP (TAG o) TypeFixnum then next (sp_set_TAG 0 (DATA o)) else ret InstructionException.
(* c-emulator/emulator.c:4343-4349 ExecuteSetCdrCode1 *)
Definition ExecuteSetCdrCode1 : Emu Goto :=
  o <- op2_get ;; next (op2_set_TAG (Z.lor (Z.shiftl 1 6) (TagType (TAG o)))).
(* c-emulator/emulator.c:4351-4357 ExecuteSetCdrCode2 *)
Definition ExecuteSetCdrCode2 : Emu Goto :=
  o <- op2_get ;; next (op2_set_TAG (Z.lor (Z.shiftl 2 6) (TagType (TAG o)))).
(* c-emulator/emulator.c:4359-4365 ExecuteMergeCdrNoPop *)
Definition ExecuteMergeCdrNoPop : Emu Goto :=
  x <- sp_get 0 ;; o <- op2_get ;; next (op2_set_TAG (MergeCdr (TAG x) (TAG o))).

(** ** Control *)

(* c-emulator/emulator.c:4373-4388 ExecuteJump *)
Definition ExecuteJump : Emu Goto :=
  o <- op2_get ;;
  let t := TagType (TAG o) in
  if (t =? TypeEvenPC) || (t =? TypeOddPC) then
    assign_regs (set_pc o) ;;
    when (negb (ldb 1 7 (TAG o) =? 0))
      (put_control (fun c => WriteControlCleanupInProgress c (ldb 1 6 (TAG o)))) ;;
    ret InstructionCacheLookup
  else ret InstructionException.

(* c-emulator/emulator.c:4399-4403 DispatchPushExternalValueCellPointer *)
Definition ExecutePushExternalValueCellPointer : Emu Goto :=
  n <- cp_operand ;; i <- get_reg sp ;;
  MemoryReadData (u32 n) (to_stack (i + 1)) ;;
  sp_add 1 ;;
  next sp_strip_cdr.

(** The word instructions that push their own word. *)
(* c-emulator/emulator.c:4405-4436 DispatchPushFixnum *)
Definition ExecutePushWord (type : Z) : Emu Goto := n <- cp_operand ;; next (PushConstant type n).

(* c-emulator/emulator.c:3676-3682 ExecuteEphemeralp *)
Definition ExecuteEphemeralp : Emu Goto := ret UnimplementedInstruction.
(* c-emulator/emulator.c:4438-4444 ExecuteDereference *)
Definition ExecuteDereference : Emu Goto := ret UnimplementedInstruction.
(* c-emulator/emulator.c:4446-4452 ExecuteUnify *)
Definition ExecuteUnify : Emu Goto := ret UnimplementedInstruction.
(* c-emulator/emulator.c:4456-4462 ExecutePushLocalLogicVariables *)
Definition ExecutePushLocalLogicVariables : Emu Goto := ret UnimplementedInstruction.
(* c-emulator/emulator.c:4469-4475 ExecuteLogicTailTest *)
Definition ExecuteLogicTailTest : Emu Goto := ret UnimplementedInstruction.
End object_instructions.
