(* ===== verification/RegisterInstr.v ===== *)
(** The internal registers and the coprocessor registers (c-emulator/emulator.c, lines
    3800 to 4223). *)

From S2P Require Export ObjectInstr VMCoproc.
#[local] Open Scope vlm_scope.

(** A C [switch] whose cases break or leave: the first case for [x]. *)
Fixpoint switch {A} (x : Z) (cases : list (Z * A)) (otherwise : A) : A :=
  match cases with
  | [] => otherwise
  | (k, a) :: rest => if x =? k then a else switch x rest otherwise
  end.

Section registers.
Context {env : Environment}.

(** The address of the stack word with subscript [i]. *)
Definition push_stack_address (i : Z) : Emu unit :=
  base <- get_ps StackCacheBase ;; PushConstant TypeLocative (base + i).
Definition push_ps_object (f : ProcessorState -> LispObj) : Emu unit := o <- get_ps f ;; PushObject o.
Definition push_ps_fixnum (f : ProcessorState -> Z) : Emu unit := n <- get_ps f ;; PushFixnum n.
Definition push_ps_locative (f : ProcessorState -> Z) : Emu unit :=
  n <- get_ps f ;; PushConstant TypeLocative n.

(** The clock read after [instruction_count] instructions. *)
(* c-emulator/emulator.c:4149-4168 Read_Microsecond_Clock *)
Definition Read_Microsecond_Clock : Emu unit :=
  n <- get_ps instruction_count ;; PushFixnum (u32 (microsecond_clock n)).

(** The registers that can be read.  Every other one takes the exception. *)
(* c-emulator/emulator.c:3800-3949 DispatchReadInternalRegister *)
Definition readable_registers : list (Z * Emu unit) :=
  [ (InternalRegisterFP, i <- get_reg fp ;; push_stack_address i);
    (InternalRegisterLP, i <- get_reg lp ;; push_stack_address i);
    (InternalRegisterMacroSP, i <- get_reg sp ;; push_stack_address i);
    (InternalRegisterSP, i <- get_reg sp ;; push_stack_address i);
    (InternalRegisterStackCacheLowerBound, push_ps_locative StackCacheBase);
    (InternalRegisterBAR1, b <- bar_get 1 ;; PushObject b);
    (InternalRegisterBAR2, b <- bar_get 1 ;; PushObject b);
    (InternalRegisterBAR3, b <- bar_get 1 ;; PushObject b);
    (InternalRegisterContinuation, push_ps_object continuation);
    (InternalRegisterAluAndRotateControl, push_ps_fixnum AluAndRotateControl);
    (InternalRegisterControlRegister, push_ps_fixnum control);
    (InternalRegisterCRArgumentSize, PushFixnum 3);
    (InternalRegisterEphemeralOldspaceRegister, push_ps_fixnum EphemeralOldspaceRegister);
    (InternalRegisterZoneOldspaceRegister, push_ps_fixnum ZoneOldspaceRegister);
    (InternalRegisterChipRevision, PushFixnum 5);
    (InternalRegisterFPCoprocessorPresent, PushFixnum 0);
    (InternalRegisterPreemptRegister, push_ps_fixnum PreemptRegister);
    (InternalRegisterStackCacheOverflowLimit, i <- get_ps StackCacheLimit ;; push_stack_address i);
    (InternalRegisterMicrosecondClock, Read_Microsecond_Clock);
    (InternalRegisterTOS, x <- sp_get 0 ;; PushObject x);
    (InternalRegisterEventCount, push_ps_fixnum ArrayEventCount);
    (InternalRegisterBindingStackPointer, push_ps_locative BindingStackPointer);
    (InternalRegisterBindingStackLimit, push_ps_locative BindingStackLimit);
    (InternalRegisterCatchBlockList, push_ps_object CatchBlockPointer);
    (InternalRegisterControlStackLimit, push_ps_locative ControlStackLimit);
    (InternalRegisterControlStackExtraLimit, push_ps_locative ControlStackExtraLimit);
    (InternalRegisterListCacheArea, push_ps_object ListCacheArea);
    (InternalRegisterListCacheAddress, push_ps_object ListCacheAddress);
    (InternalRegisterListCacheLength, push_ps_fixnum ListCacheLength);
    (InternalRegisterStructureCacheArea, push_ps_object StructureCacheArea);
    (InternalRegisterStructureCacheAddress, push_ps_object StructureCacheAddress);
    (InternalRegisterStructureCacheLength, push_ps_fixnum StructureCacheLength);
    (InternalRegisterDynamicBindingCacheBase, push_ps_locative DynamicBindingCacheBase);
    (InternalRegisterDynamicBindingCacheMask, push_ps_fixnum DynamicBindingCacheMask);
    (InternalRegisterFEPModeTrapVectorAddress, push_ps_locative FEPModeTrapVectorAddress);
    (InternalRegisterMappingTableCache, push_ps_locative MappingTableCache);
    (InternalRegisterMappingTableLength, push_ps_fixnum MappingTableLength);
    (InternalRegisterStackCacheDumpQuantum, PushFixnum PageSize);
    (InternalRegisterConstantNIL, PushNIL);
    (InternalRegisterConstantT, PushT) ].

Definition exec_case (m : option (Emu unit)) (after : Emu unit) : Emu Goto :=
  match m with Some m => next (m ;; after) | None => ret InstructionException end.

(* c-emulator/emulator.c:3800-3980 DispatchReadInternalRegister *)
Definition ExecuteReadInternalRegister : Emu Goto :=
  n <- cp_operand ;;
  exec_case (switch (u32 n) (map (fun c => (c.1, Some c.2)) readable_registers) None) (ret tt).

(** [ps->field = *sp], [ps->field = sp->DATA.u] *)
Definition ps_from_object (f : LispObj -> ProcessorState -> ProcessorState) : Emu unit :=
  x <- sp_get 0 ;; assign_ps (f x).
Definition ps_from_data (f : Z -> ProcessorState -> ProcessorState) : Emu unit :=
  x <- sp_get 0 ;; assign_ps (f (DATA x)).

(** A new ALU control word also selects the function and the byte fields. *)
(* c-emulator/emulator.c:4007-4012 InternalRegisterAluAndRotateControl *)
Definition write_alu_control (d : Z) (p : ProcessorState) : ProcessorState :=
  set_ByteRotate (ReadALUByteRotate d) (set_ByteSize (ReadALUByteSize d)
    (set_AluOp (Some (ReadALUFunctionClass d)) (set_AluAndRotateControl d p))).

(* c-emulator/emulator.c:3982-4131 DispatchWriteInternalRegister *)
Definition writable_registers : list (Z * Emu unit) :=
  [ (InternalRegisterBAR1, x <- sp_get 0 ;; bar_put 1 x);
    (InternalRegisterBAR2, x <- sp_get 0 ;; bar_put 2 x);
    (InternalRegisterBAR3, x <- sp_get 0 ;; bar_put 3 x);
    (InternalRegisterContinuation, ps_from_object set_continuation);
    (InternalRegisterAluAndRotateControl, ps_from_data write_alu_control);
    (InternalRegisterControlRegister, ps_from_data set_control);
    (InternalRegisterEphemeralOldspaceRegister, ps_from_data set_EphemeralOldspaceRegister);
    (InternalRegisterZoneOldspaceRegister, ps_from_data set_ZoneOldspaceRegister);
    (InternalRegisterFPCoprocessorPresent, ret tt);
    (InternalRegisterPreemptRegister, ps_from_data set_PreemptRegister);
    (InternalRegisterMicrosecondClock, ret tt);
    (InternalRegisterTOS, ret tt);
    (InternalRegisterEventCount, ps_from_data set_ArrayEventCount);
    (InternalRegisterBindingStackPointer, ps_from_data set_BindingStackPointer);
    (InternalRegisterBindingStackLimit, ps_from_data set_BindingStackLimit);
    (InternalRegisterCatchBlockList, ps_from_object set_CatchBlockPointer);
    (InternalRegisterControlStackLimit, ps_from_data set_ControlStackLimit);
    (InternalRegisterControlStackExtraLimit, ps_from_data set_ControlStackExtraLimit);
    (InternalRegisterListCacheArea, ps_from_object set_ListCacheArea);
    (InternalRegisterListCacheAddress, ps_from_object set_ListCacheAddress);
    (InternalRegisterListCacheLength, ps_from_data set_ListCacheLength);
    (InternalRegisterStructureCacheArea, ps_from_object set_StructureCacheArea);
    (InternalRegisterStructureCacheAddress, ps_from_object set_StructureCacheAddress);
    (InternalRegisterStructureCacheLength, ps_from_data set_StructureCacheLength);
    (InternalRegisterDynamicBindingCacheBase, ps_from_data set_DynamicBindingCacheBase);
    (InternalRegisterDynamicBindingCacheMask, ps_from_data set_DynamicBindingCacheMask);
    (InternalRegisterFEPModeTrapVectorAddress, ps_from_data set_FEPModeTrapVectorAddress);
    (InternalRegisterMappingTableCache, ps_from_data set_MappingTableCache);
    (InternalRegisterMappingTableLength, ps_from_data set_MappingTableLength) ].

(* c-emulator/emulator.c:3982-4143 DispatchWriteInternalRegister *)
Definition ExecuteWriteInternalRegister : Emu Goto :=
  n <- cp_operand ;;
  exec_case (switch (u32 n) (map (fun c => (c.1, Some c.2)) writable_registers) None) (sp_add (-1)).

(** ** The coprocessor registers *)

Definition get_VM {A} (f : VMState -> A) : Emu A := gets (fun s => f (VM s)).

(* c-emulator/emulator.c:4145-4189 DispatchCoprocessorRead *)
Definition ExecuteCoprocessorRead : Emu Goto :=
  n <- cp_operand ;;
  exec_case (switch (u32 n)
    [ (CoprocessorRegisterMicrosecondClock, Some Read_Microsecond_Clock);
      (VMRegisterCommand, Some (v <- get_VM CommandRegister ;; PushFixnum v));
      (VMRegisterAddress, Some (v <- get_VM AddressRegister ;; PushConstant TypeLocative v));
      (VMRegisterExtent, Some (v <- get_VM ExtentRegister ;; PushFixnum v));
      (VMRegisterAttributes, Some (v <- get_VM AttributesRegister ;; PushFixnum v));
      (VMRegisterDestination, Some (v <- get_VM DestinationRegister ;; PushConstant TypeLocative v));
      (VMRegisterData, Some (v <- get_VM DataRegister ;; PushObject v)) ] None) (ret tt).

Definition VM_from_data (f : Z -> VMState -> VMState) : Emu unit :=
  x <- sp_get 0 ;; assign_VM (f (DATA x)).

Definition LifeSupportInterruptRegister : Z := 520. (* c-emulator/emulator.c:4194 01010 *)

Definition SendInterruptToLifeSupport : Emu unit :=
  modify (fun s => set_interrupts_sent (interrupts_sent s + 1) s).

(* c-emulator/emulator.c:4191-4223 DispatchCoprocessorWrite *)
Definition ExecuteCoprocessorWrite : Emu Goto :=
  n <- cp_operand ;;
  exec_case (switch (u32 n)
    [ (LifeSupportInterruptRegister, Some SendInterruptToLifeSupport);
      (CoprocessorRegisterMicrosecondClock, Some (ret tt));
      (VMRegisterCommand,
        Some (x <- sp_get 0 ;; r <- VMCommand (s32 (DATA x)) ;; assign_VM (set_CommandRegister r)));
      (VMRegisterAddress, Some (VM_from_data set_AddressRegister));
      (VMRegisterExtent, Some (VM_from_data set_ExtentRegister));
      (VMRegisterAttributes, Some (VM_from_data set_AttributesRegister));
      (VMRegisterDestination, Some (VM_from_data set_DestinationRegister));
      (VMRegisterData, Some (x <- sp_get 0 ;; assign_VM (set_DataRegister x))) ] None)
    (sp_add (-1)).
End registers.
