(* ===== verification/Sequencer.v ===== *)
(** The instruction sequencer (c-emulator/emulator.c, InstructionSequencer): the big
    switch, the labels instructions leave through, the trap handler that longjmp
    enters, and the whole as a step function and a step relation with signals. *)

From S2P Require Export Traps Decode ListInstr Arith Fields ArrayInstr Frames ObjectInstr RegisterInstr.
#[local] Open Scope vlm_scope.

(** Where the sequencer is between two steps. *)
Inductive Label :=
| AtLookup                (* the label InstructionCacheLookup *)
| AtDispatch              (* the label Dispatch *)
| AtTrap (vector : Z)     (* setjmp returned [vector] *)
| Returned.               (* InstructionSequencer returned *)

Section sequencer.
Context {env : Environment}.

(** ** The switch *)

(** One line per case; the remaining codes are the default of the switch. *)
(* c-emulator/emulator.c:989-4478 DispatchInstructionCacheLookup *)
Definition execute (code : IvoryDispatch) : Emu Goto :=
  match code with
  | DispatchCarFP => AddressFPOperand ;; ExecuteCar
  | DispatchCarLP => AddressLPOperand ;; ExecuteCar
  | DispatchCarSP => AddressSPOperand ;; ExecuteCar
  | DispatchCarPop => AddressPopOperand ;; ExecuteCar
  | DispatchCdrFP => AddressFPOperand ;; ExecuteCdr
  | DispatchCdrLP => AddressLPOperand ;; ExecuteCdr
  | DispatchCdrSP => AddressSPOperand ;; ExecuteCdr
  | DispatchCdrPop => AddressPopOperand ;; ExecuteCdr
  | DispatchEndpFP => AddressFPOperand ;; ExecuteEndp
  | DispatchEndpLP => AddressLPOperand ;; ExecuteEndp
  | DispatchEndpSP => AddressSPOperand ;; ExecuteEndp
  | DispatchEndpImmediate => ret IllegalOperand
  | DispatchEndpPop => AddressPopOperand ;; ExecuteEndp
  | DispatchSetup1dArrayFP => AddressFPOperand ;; ExecuteSetup1dArray
  | DispatchSetup1dArrayLP => AddressLPOperand ;; ExecuteSetup1dArray
  | DispatchSetup1dArraySP => AddressSPOperand ;; ExecuteSetup1dArray
  | DispatchSetup1dArrayImmediate => ret UnimplementedInstruction
  | DispatchSetup1dArrayPop => AddressPopOperand ;; ExecuteSetup1dArray
  | DispatchSetupForce1dArrayFP => AddressFPOperand ;; ExecuteSetup1dArray
  | DispatchSetupForce1dArrayLP => AddressLPOperand ;; ExecuteSetup1dArray
  | DispatchSetupForce1dArraySP => AddressSPOperand ;; ExecuteSetup1dArray
  | DispatchSetupForce1dArrayImmediate => ret UnimplementedInstruction
  | DispatchSetupForce1dArrayPop => AddressPopOperand ;; ExecuteSetup1dArray
  | DispatchBindLocativeFP => AddressFPOperand ;; ExecuteBindLocative
  | DispatchBindLocativeLP => AddressLPOperand ;; ExecuteBindLocative
  | DispatchBindLocativeSP => AddressSPOperand ;; ExecuteBindLocative
  | DispatchBindLocativePop => AddressPopOperand ;; ExecuteBindLocative
  | DispatchRestoreBindingStackFP => AddressFPOperand ;; ExecuteRestoreBindingStack
  | DispatchRestoreBindingStackLP => AddressLPOperand ;; ExecuteRestoreBindingStack
  | DispatchRestoreBindingStackSP => AddressSPOperand ;; ExecuteRestoreBindingStack
  | DispatchRestoreBindingStackImmediate => AddressImmediateOperand ;; ExecuteRestoreBindingStack
  | DispatchRestoreBindingStackPop => AddressPopOperand ;; ExecuteRestoreBindingStack
  | DispatchEphemeralpFP => AddressFPOperand ;; ExecuteEphemeralp
  | DispatchEphemeralpLP => AddressLPOperand ;; ExecuteEphemeralp
  | DispatchEphemeralpSP => AddressSPOperand ;; ExecuteEphemeralp
  | DispatchEphemeralpImmediate => ret UnimplementedInstruction
  | DispatchEphemeralpPop => AddressPopOperand ;; ExecuteEphemeralp
  | DispatchStartCallFP => AddressFPOperand ;; ExecuteStartCall
  | DispatchStartCallLP => AddressLPOperand ;; ExecuteStartCall
  | DispatchStartCallSP => AddressSPOperand ;; ExecuteStartCall
  | DispatchStartCallPop => AddressPopOperand ;; ExecuteStartCall
  | DispatchJumpFP => AddressFPOperand ;; ExecuteJump
  | DispatchJumpLP => AddressLPOperand ;; ExecuteJump
  | DispatchJumpSP => AddressSPOperand ;; ExecuteJump
  | DispatchJumpPop => AddressPopOperand ;; ExecuteJump
  | DispatchTagFP => AddressFPOperand ;; ExecuteTag
  | DispatchTagLP => AddressLPOperand ;; ExecuteTag
  | DispatchTagSP => AddressSPOperand ;; ExecuteTag
  | DispatchTagImmediate => ExecuteTagImmediate
  | DispatchTagPop => AddressPopOperand ;; ExecuteTag
  | DispatchDereferenceFP => AddressFPOperand ;; ExecuteDereference
  | DispatchDereferenceLP => AddressLPOperand ;; ExecuteDereference
  | DispatchDereferenceSP => AddressSPOperand ;; ExecuteDereference
  | DispatchDereferencePop => AddressPopOperand ;; ExecuteDereference
  | DispatchLogicTailTestFP => AddressFPOperand ;; ExecuteLogicTailTest
  | DispatchLogicTailTestLP => AddressLPOperand ;; ExecuteLogicTailTest
  | DispatchLogicTailTestSP => AddressSPOperand ;; ExecuteLogicTailTest
  | DispatchLogicTailTestImmediate => ret UnimplementedInstruction
  | DispatchLogicTailTestPop => AddressPopOperand ;; ExecuteLogicTailTest
  | DispatchPushLexicalVarFP => AddressFPOperand ;; ExecutePushLexicalVar
  | DispatchPushLexicalVarLP => AddressLPOperand ;; ExecutePushLexicalVar
  | DispatchPushLexicalVarSP => AddressSPOperand ;; ExecutePushLexicalVar
  | DispatchPushLexicalVarImmediate => ret UnimplementedInstruction
  | DispatchPushLexicalVarPop => AddressPopOperand ;; ExecutePushLexicalVar
  | DispatchBlock1WriteFP => AddressFPOperand ;; ExecuteBlockWrite 1
  | DispatchBlock1WriteLP => AddressLPOperand ;; ExecuteBlockWrite 1
  | DispatchBlock1WriteSP => AddressSPOperand ;; ExecuteBlockWrite 1
  | DispatchBlock1WriteImmediate => AddressImmediateOperand ;; ExecuteBlockWrite 1
  | DispatchBlock1WritePop => AddressPopOperand ;; ExecuteBlockWrite 1
  | DispatchBlock2WriteFP => AddressFPOperand ;; ExecuteBlockWrite 2
  | DispatchBlock2WriteLP => AddressLPOperand ;; ExecuteBlockWrite 2
  | DispatchBlock2WriteSP => AddressSPOperand ;; ExecuteBlockWrite 2
  | DispatchBlock2WriteImmediate => AddressImmediateOperand ;; ExecuteBlockWrite 2
  | DispatchBlock2WritePop => AddressPopOperand ;; ExecuteBlockWrite 2
  | DispatchBlock3WriteFP => AddressFPOperand ;; ExecuteBlockWrite 3
  | DispatchBlock3WriteLP => AddressLPOperand ;; ExecuteBlockWrite 3
  | DispatchBlock3WriteSP => AddressSPOperand ;; ExecuteBlockWrite 3
  | DispatchBlock3WriteImmediate => AddressImmediateOperand ;; ExecuteBlockWrite 3
  | DispatchBlock3WritePop => AddressPopOperand ;; ExecuteBlockWrite 3
  | DispatchZeropFP => AddressFPOperand ;; ExecuteZerop
  | DispatchZeropLP => AddressLPOperand ;; ExecuteZerop
  | DispatchZeropSP => AddressSPOperand ;; ExecuteZerop
  | DispatchZeropImmediate => ExecuteZeropImmediate
  | DispatchZeropPop => AddressPopOperand ;; ExecuteZerop
  | DispatchMinuspFP => AddressFPOperand ;; ExecuteMinusp
  | DispatchMinuspLP => AddressLPOperand ;; ExecuteMinusp
  | DispatchMinuspSP => AddressSPOperand ;; ExecuteMinusp
  | DispatchMinuspImmediate => ExecuteMinuspImmediate
  | DispatchMinuspPop => AddressPopOperand ;; ExecuteMinusp
  | DispatchPluspFP => AddressFPOperand ;; ExecutePlusp
  | DispatchPluspLP => AddressLPOperand ;; ExecutePlusp
  | DispatchPluspSP => AddressSPOperand ;; ExecutePlusp
  | DispatchPluspImmediate => ExecutePluspImmediate
  | DispatchPluspPop => AddressPopOperand ;; ExecutePlusp
  | DispatchTypeMember => ExecuteTypeMember
  | DispatchTypeMemberNoPop => ExecuteTypeMemberNoPop
  | DispatchLocateLocals => ExecuteLocateLocals
  | DispatchCatchClose => ExecuteCatchClose
  | DispatchGenericDispatch => ret UnimplementedInstruction
  | DispatchMessageDispatch => ret UnimplementedInstruction
  | DispatchCheckPreemptRequest => ret UnimplementedInstruction
  | DispatchPushGlobalLogicVariable => ret UnimplementedInstruction
  | DispatchNoOp => ret NextInstruction
  | DispatchHalt => ret SaveAndHalt
  | DispatchBranchTrue => ExecuteBranch true 1 1
  | DispatchBranchTrueElseExtraPop => ExecuteBranch true 1 2
  | DispatchBranchTrueAndExtraPop => ExecuteBranch true 2 1
  | DispatchBranchTrueExtraPop => ExecuteBranch true 2 2
  | DispatchBranchTrueNoPop => ExecuteBranch true 0 0
  | DispatchBranchTrueAndNoPop => ExecuteBranch true 0 1
  | DispatchBranchTrueElseNoPop => ExecuteBranch true 1 0
  | DispatchBranchTrueAndNoPopElseNoPopExtraPop => ExecuteBranch true 1 1
  | DispatchBranchFalse => ExecuteBranch false 1 1
  | DispatchBranchFalseElseExtraPop => ExecuteBranch false 1 2
  | DispatchBranchFalseAndExtraPop => ExecuteBranch false 2 1
  | DispatchBranchFalseExtraPop => ExecuteBranch false 2 2
  | DispatchBranchFalseNoPop => ExecuteBranch false 0 0
  | DispatchBranchFalseAndNoPop => ExecuteBranch false 0 1
  | DispatchBranchFalseElseNoPop => ExecuteBranch false 1 0
  | DispatchBranchFalseAndNoPopElseNoPopExtraPop => ExecuteBranch false 1 1
  | DispatchPushFP => AddressFPOperand ;; ExecutePush
  | DispatchPushLP => AddressLPOperand ;; ExecutePush
  | DispatchPushSP => AddressSPOperand ;; ExecutePush
  | DispatchPushImmediate => ExecutePushImmediate
  | DispatchPushPop => ret NextInstruction
  | DispatchPushNNils => ExecutePushNNils
  | DispatchPushAddressSpRelativeFP => AddressFPOperand ;; ExecutePushAddressSpRelative
  | DispatchPushAddressSpRelativeLP => AddressLPOperand ;; ExecutePushAddressSpRelative
  | DispatchPushAddressSpRelativeSP => AddressSPOperand ;; ExecutePushAddressSpRelative
  | DispatchPushAddressSpRelativeImmediate => ExecutePushAddressSpRelativeImmediate
  | DispatchPushAddressSpRelativePop => AddressPopOperand ;; ExecutePushAddressSpRelative
  | DispatchPushLocalLogicVariablesFP => AddressFPOperand ;; ExecutePushLocalLogicVariables
  | DispatchPushLocalLogicVariablesLP => AddressLPOperand ;; ExecutePushLocalLogicVariables
  | DispatchPushLocalLogicVariablesSP => AddressSPOperand ;; ExecutePushLocalLogicVariables
  | DispatchPushLocalLogicVariablesImmediate => ret UnimplementedInstruction
  | DispatchPushLocalLogicVariablesPop => AddressPopOperand ;; ExecutePushLocalLogicVariables
  | DispatchReturnMultipleImmediate => AddressImmediateOperand ;; ExecuteReturnMultiple
  | DispatchReturnMultiplePop => AddressPopOperand ;; ExecuteReturnMultiple
  | DispatchReturnKludgeImmediate => AddressImmediateOperand ;; ExecuteReturnKludge
  | DispatchReturnKludgePop => AddressPopOperand ;; ExecuteReturnKludge
  | DispatchTakeValues => ExecuteTakeValues
  | DispatchUnbindNImmediate => AddressImmediateOperand ;; ExecuteUnbindN
  | DispatchUnbindNPop => AddressPopOperand ;; ExecuteUnbindN
  | DispatchPushInstanceVariable => ExecutePushInstanceVariable
  | DispatchPushAddressInstanceVariable => ExecutePushAddressInstanceVariable
  | DispatchPushInstanceVariableOrdered => ExecutePushInstanceVariableOrdered
  | DispatchPushAddressInstanceVariableOrdered => ExecutePushAddressInstanceVariableOrdered
  | DispatchUnaryMinusFP => AddressFPOperand ;; ExecuteUnaryMinus
  | DispatchUnaryMinusLP => AddressLPOperand ;; ExecuteUnaryMinus
  | DispatchUnaryMinusSP => AddressSPOperand ;; ExecuteUnaryMinus
  | DispatchUnaryMinusImmediate => ExecuteUnaryMinusImmediate
  | DispatchUnaryMinusPop => AddressPopOperand ;; ExecuteUnaryMinus
  | DispatchReturnSingleNIL => ExecuteReturnSingleNIL
  | DispatchReturnSingleT => ExecuteReturnSingleT
  | DispatchReturnSingleTOS => ExecuteReturnSingleTOS
  | DispatchMemoryRead => ExecuteMemoryRead
  | DispatchMemoryReadAddress => ExecuteMemoryReadAddress
  | DispatchBlock1Read => ExecuteBlockRead 1
  | DispatchBlock2Read => ExecuteBlockRead 2
  | DispatchBlock3Read => ExecuteBlockRead 3
  | DispatchBlock1ReadShift => ExecuteBlockReadShift
  | DispatchBlock2ReadShift => ExecuteBlockReadShift
  | DispatchBlock3ReadShift => ExecuteBlockReadShift
  | DispatchBlock1ReadTest => ExecuteBlockReadTest
  | DispatchBlock2ReadTest => ExecuteBlockReadTest
  | DispatchBlock3ReadTest => ExecuteBlockReadTest
  | DispatchFinishCallN => ExecuteFinishCallN
  | DispatchFinishCallNApply => ExecuteFinishCallNApply
  | DispatchFinishCallTos => ExecuteFinishCallTos
  | DispatchFinishCallTosApply => ExecuteFinishCallTosApply
  | DispatchSetToCarFP => AddressFPOperand ;; ExecuteSetToCar
  | DispatchSetToCarLP => AddressLPOperand ;; ExecuteSetToCar
  | DispatchSetToCarSP => AddressSPOperand ;; ExecuteSetToCar
  | DispatchSetToCdrFP => AddressFPOperand ;; ExecuteSetToCdr
  | DispatchSetToCdrLP => AddressLPOperand ;; ExecuteSetToCdr
  | DispatchSetToCdrSP => AddressSPOperand ;; ExecuteSetToCdr
  | DispatchSetToCdrPushCarFP => AddressFPOperand ;; ExecuteSetToCdrPushCar
  | DispatchSetToCdrPushCarLP => AddressLPOperand ;; ExecuteSetToCdrPushCar
  | DispatchSetToCdrPushCarSP => AddressSPOperand ;; ExecuteSetToCdrPushCar
  | DispatchIncrementFP => AddressFPOperand ;; ExecuteIncrement
  | DispatchIncrementLP => AddressLPOperand ;; ExecuteIncrement
  | DispatchIncrementSP => AddressSPOperand ;; ExecuteIncrement
  | DispatchDecrementFP => AddressFPOperand ;; ExecuteDecrement
  | DispatchDecrementLP => AddressLPOperand ;; ExecuteDecrement
  | DispatchDecrementSP => AddressSPOperand ;; ExecuteDecrement
  | DispatchPointerIncrementFP => AddressFPOperand ;; ExecutePointerIncrement
  | DispatchPointerIncrementLP => AddressLPOperand ;; ExecutePointerIncrement
  | DispatchPointerIncrementSP => AddressSPOperand ;; ExecutePointerIncrement
  | DispatchSetCdrCode1FP => AddressFPOperand ;; ExecuteSetCdrCode1
  | DispatchSetCdrCode1LP => AddressLPOperand ;; ExecuteSetCdrCode1
  | DispatchSetCdrCode1SP => AddressSPOperand ;; ExecuteSetCdrCode1
  | DispatchSetCdrCode2FP => AddressFPOperand ;; ExecuteSetCdrCode2
  | DispatchSetCdrCode2LP => AddressLPOperand ;; ExecuteSetCdrCode2
  | DispatchSetCdrCode2SP => AddressSPOperand ;; ExecuteSetCdrCode2
  | DispatchPushAddressFP => AddressFPOperand ;; ExecutePushAddress
  | DispatchPushAddressLP => AddressLPOperand ;; ExecutePushAddress
  | DispatchPushAddressSP => AddressSPOperand ;; ExecutePushAddress
  | DispatchSetSpToAddressFP => AddressFPOperand ;; ExecuteSetSpToAddress
  | DispatchSetSpToAddressLP => AddressLPOperand ;; ExecuteSetSpToAddress
  | DispatchSetSpToAddressSP => AddressSPOperand ;; ExecuteSetSpToAddress
  | DispatchSetSpToAddressSaveTosFP => AddressFPOperand ;; ExecuteSetSpToAddressSaveTos
  | DispatchSetSpToAddressSaveTosLP => AddressLPOperand ;; ExecuteSetSpToAddressSaveTos
  | DispatchSetSpToAddressSaveTosSP => AddressSPOperand ;; ExecuteSetSpToAddressSaveTos
  | DispatchReadInternalRegister => ExecuteReadInternalRegister
  | DispatchWriteInternalRegister => ExecuteWriteInternalRegister
  | DispatchCoprocessorRead => ExecuteCoprocessorRead
  | DispatchCoprocessorWrite => ExecuteCoprocessorWrite
  | DispatchBlock1ReadAluFP => AddressFPOperand ;; ExecuteBlockReadAlu
  | DispatchBlock1ReadAluLP => AddressLPOperand ;; ExecuteBlockReadAlu
  | DispatchBlock1ReadAluSP => AddressSPOperand ;; ExecuteBlockReadAlu
  | DispatchBlock2ReadAluFP => AddressFPOperand ;; ExecuteBlockReadAlu
  | DispatchBlock2ReadAluLP => AddressLPOperand ;; ExecuteBlockReadAlu
  | DispatchBlock2ReadAluSP => AddressSPOperand ;; ExecuteBlockReadAlu
  | DispatchBlock3ReadAluFP => AddressFPOperand ;; ExecuteBlockReadAlu
  | DispatchBlock3ReadAluLP => AddressLPOperand ;; ExecuteBlockReadAlu
  | DispatchBlock3ReadAluSP => AddressSPOperand ;; ExecuteBlockReadAlu
  | DispatchLdb => ExecuteLdb
  | DispatchCharLdb => ExecuteCharLdb
  | DispatchPLdb => ExecutePLdb
  | DispatchPTagLdb => ExecutePTagLdb
  | DispatchBranch => ret BranchTaken
  | DispatchLoopDecrementTos => ExecuteLoopDecrementTos
  | DispatchEntryRestAccepted => ExecuteEntryRestAccepted
  | DispatchEntryRestNotAccepted => ExecuteEntryRestNotAccepted
  | DispatchRplacaFP => AddressFPOperand ;; ExecuteRplaca
  | DispatchRplacaLP => AddressLPOperand ;; ExecuteRplaca
  | DispatchRplacaSP => AddressSPOperand ;; ExecuteRplaca
  | DispatchRplacaImmediate => AddressImmediateOperand ;; ExecuteRplaca
  | DispatchRplacaPop => AddressPopOperand ;; ExecuteRplaca
  | DispatchRplacdFP => AddressFPOperand ;; ExecuteRplacd
  | DispatchRplacdLP => AddressLPOperand ;; ExecuteRplacd
  | DispatchRplacdSP => AddressSPOperand ;; ExecuteRplacd
  | DispatchRplacdImmediate => AddressImmediateOperand ;; ExecuteRplacd
  | DispatchRplacdPop => AddressPopOperand ;; ExecuteRplacd
  | DispatchMultiplyFP => AddressFPOperand ;; ExecuteMultiply
  | DispatchMultiplyLP => AddressLPOperand ;; ExecuteMultiply
  | DispatchMultiplySP => AddressSPOperand ;; ExecuteMultiply
  | DispatchMultiplyImmediate => AddressImmediateOperand ;; ExecuteMultiply
  | DispatchMultiplyPop => AddressPopOperand ;; ExecuteMultiply
  | DispatchQuotientFP => AddressFPOperand ;; ExecuteQuotient
  | DispatchQuotientLP => AddressLPOperand ;; ExecuteQuotient
  | DispatchQuotientSP => AddressSPOperand ;; ExecuteQuotient
  | DispatchQuotientImmediate => AddressImmediateOperand ;; ExecuteQuotient
  | DispatchQuotientPop => AddressPopOperand ;; ExecuteQuotient
  | DispatchCeilingFP => AddressFPOperand ;; ExecuteCeiling
  | DispatchCeilingLP => AddressLPOperand ;; ExecuteCeiling
  | DispatchCeilingSP => AddressSPOperand ;; ExecuteCeiling
  | DispatchCeilingImmediate => AddressImmediateOperand ;; ExecuteCeiling
  | DispatchCeilingPop => AddressPopOperand ;; ExecuteCeiling
  | DispatchFloorFP => AddressFPOperand ;; ExecuteFloor
  | DispatchFloorLP => AddressLPOperand ;; ExecuteFloor
  | DispatchFloorSP => AddressSPOperand ;; ExecuteFloor
  | DispatchFloorImmediate => AddressImmediateOperand ;; ExecuteFloor
  | DispatchFloorPop => AddressPopOperand ;; ExecuteFloor
  | DispatchTruncateFP => AddressFPOperand ;; ExecuteTruncate
  | DispatchTruncateLP => AddressLPOperand ;; ExecuteTruncate
  | DispatchTruncateSP => AddressSPOperand ;; ExecuteTruncate
  | DispatchTruncateImmediate => AddressImmediateOperand ;; ExecuteTruncate
  | DispatchTruncatePop => AddressPopOperand ;; ExecuteTruncate
  | DispatchRoundFP => AddressFPOperand ;; ExecuteRound
  | DispatchRoundLP => AddressLPOperand ;; ExecuteRound
  | DispatchRoundSP => AddressSPOperand ;; ExecuteRound
  | DispatchRoundImmediate => AddressImmediateOperand ;; ExecuteRound
  | DispatchRoundPop => AddressPopOperand ;; ExecuteRound
  | DispatchRationalQuotientFP => AddressFPOperand ;; ExecuteRationalQuotient
  | DispatchRationalQuotientLP => AddressLPOperand ;; ExecuteRationalQuotient
  | DispatchRationalQuotientSP => AddressSPOperand ;; ExecuteRationalQuotient
  | DispatchRationalQuotientImmediate => AddressImmediateOperand ;; ExecuteRationalQuotient
  | DispatchRationalQuotientPop => AddressPopOperand ;; ExecuteRationalQuotient
  | DispatchMinFP => AddressFPOperand ;; ExecuteMin
  | DispatchMinLP => AddressLPOperand ;; ExecuteMin
  | DispatchMinSP => AddressSPOperand ;; ExecuteMin
  | DispatchMinImmediate => AddressImmediateOperand ;; ExecuteMin
  | DispatchMinPop => AddressPopOperand ;; ExecuteMin
  | DispatchMaxFP => AddressFPOperand ;; ExecuteMax
  | DispatchMaxLP => AddressLPOperand ;; ExecuteMax
  | DispatchMaxSP => AddressSPOperand ;; ExecuteMax
  | DispatchMaxImmediate => AddressImmediateOperand ;; ExecuteMax
  | DispatchMaxPop => AddressPopOperand ;; ExecuteMax
  | DispatchAluFP => AddressFPOperand ;; ExecuteAlu
  | DispatchAluLP => AddressLPOperand ;; ExecuteAlu
  | DispatchAluSP => AddressSPOperand ;; ExecuteAlu
  | DispatchAluImmediate => AddressImmediateOperand ;; ExecuteAlu
  | DispatchAluPop => AddressPopOperand ;; ExecuteAlu
  | DispatchLogandFP => AddressFPOperand ;; ExecuteLogand
  | DispatchLogandLP => AddressLPOperand ;; ExecuteLogand
  | DispatchLogandSP => AddressSPOperand ;; ExecuteLogand
  | DispatchLogandImmediate => AddressImmediateOperand ;; ExecuteLogand
  | DispatchLogandPop => AddressPopOperand ;; ExecuteLogand
  | DispatchLogxorFP => AddressFPOperand ;; ExecuteLogxor
  | DispatchLogxorLP => AddressLPOperand ;; ExecuteLogxor
  | DispatchLogxorSP => AddressSPOperand ;; ExecuteLogxor
  | DispatchLogxorImmediate => AddressImmediateOperand ;; ExecuteLogxor
  | DispatchLogxorPop => AddressPopOperand ;; ExecuteLogxor
  | DispatchLogiorFP => AddressFPOperand ;; ExecuteLogior
  | DispatchLogiorLP => AddressLPOperand ;; ExecuteLogior
  | DispatchLogiorSP => AddressSPOperand ;; ExecuteLogior
  | DispatchLogiorImmediate => AddressImmediateOperand ;; ExecuteLogior
  | DispatchLogiorPop => AddressPopOperand ;; ExecuteLogior
  | DispatchRotFP => AddressFPOperand ;; ExecuteRot
  | DispatchRotLP => AddressLPOperand ;; ExecuteRot
  | DispatchRotSP => AddressSPOperand ;; ExecuteRot
  | DispatchRotImmediate => AddressImmediateOperand ;; ExecuteRot
  | DispatchRotPop => AddressPopOperand ;; ExecuteRot
  | DispatchLshFP => AddressFPOperand ;; ExecuteLsh
  | DispatchLshLP => AddressLPOperand ;; ExecuteLsh
  | DispatchLshSP => AddressSPOperand ;; ExecuteLsh
  | DispatchLshImmediate => AddressImmediateOperand ;; ExecuteLsh
  | DispatchLshPop => AddressPopOperand ;; ExecuteLsh
  | DispatchMultiplyDoubleFP => AddressFPOperand ;; ExecuteMultiplyDouble
  | DispatchMultiplyDoubleLP => AddressLPOperand ;; ExecuteMultiplyDouble
  | DispatchMultiplyDoubleSP => AddressSPOperand ;; ExecuteMultiplyDouble
  | DispatchMultiplyDoubleImmediate => AddressImmediateOperand ;; ExecuteMultiplyDouble
  | DispatchMultiplyDoublePop => AddressPopOperand ;; ExecuteMultiplyDouble
  | DispatchLshcBignumStepFP => AddressFPOperand ;; ExecuteLshcBignumStep
  | DispatchLshcBignumStepLP => AddressLPOperand ;; ExecuteLshcBignumStep
  | DispatchLshcBignumStepSP => AddressSPOperand ;; ExecuteLshcBignumStep
  | DispatchLshcBignumStepImmediate => AddressImmediateOperand ;; ExecuteLshcBignumStep
  | DispatchLshcBignumStepPop => AddressPopOperand ;; ExecuteLshcBignumStep
  | DispatchStackBltFP => AddressFPOperand ;; ExecuteStackBlt
  | DispatchStackBltLP => AddressLPOperand ;; ExecuteStackBlt
  | DispatchStackBltSP => AddressSPOperand ;; ExecuteStackBlt
  | DispatchStackBltPop => AddressPopOperand ;; ExecuteStackBlt
  | DispatchRgetfFP => AddressFPOperand ;; ExecuteRgetf
  | DispatchRgetfLP => AddressLPOperand ;; ExecuteRgetf
  | DispatchRgetfSP => AddressSPOperand ;; ExecuteRgetf
  | DispatchRgetfPop => AddressPopOperand ;; ExecuteRgetf
  | DispatchMemberFP => AddressFPOperand ;; ExecuteMember
  | DispatchMemberLP => AddressLPOperand ;; ExecuteMember
  | DispatchMemberSP => AddressSPOperand ;; ExecuteMember
  | DispatchMemberPop => AddressPopOperand ;; ExecuteMember
  | DispatchAssocFP => AddressFPOperand ;; ExecuteAssoc
  | DispatchAssocLP => AddressLPOperand ;; ExecuteAssoc
  | DispatchAssocSP => AddressSPOperand ;; ExecuteAssoc
  | DispatchAssocPop => AddressPopOperand ;; ExecuteAssoc
  | DispatchPointerPlusFP => AddressFPOperand ;; ExecutePointerPlus
  | DispatchPointerPlusLP => AddressLPOperand ;; ExecutePointerPlus
  | DispatchPointerPlusSP => AddressSPOperand ;; ExecutePointerPlus
  | DispatchPointerPlusImmediate => ExecutePointerPlusImmediate
  | DispatchPointerPlusPop => AddressPopOperand ;; ExecutePointerPlus
  | DispatchPointerDifferenceFP => AddressFPOperand ;; ExecutePointerDifference
  | DispatchPointerDifferenceLP => AddressLPOperand ;; ExecutePointerDifference
  | DispatchPointerDifferenceSP => AddressSPOperand ;; ExecutePointerDifference
  | DispatchPointerDifferenceImmediate => ExecutePointerDifferenceImmediate
  | DispatchPointerDifferencePop => AddressPopOperand ;; ExecutePointerDifference
  | DispatchAshFP => AddressFPOperand ;; ExecuteAsh
  | DispatchAshLP => AddressLPOperand ;; ExecuteAsh
  | DispatchAshSP => AddressSPOperand ;; ExecuteAsh
  | DispatchAshImmediate => AddressImmediateOperand ;; ExecuteAsh
  | DispatchAshPop => AddressPopOperand ;; ExecuteAsh
  | DispatchStoreConditionalFP => AddressFPOperand ;; ExecuteStoreConditional
  | DispatchStoreConditionalLP => AddressLPOperand ;; ExecuteStoreConditional
  | DispatchStoreConditionalSP => AddressSPOperand ;; ExecuteStoreConditional
  | DispatchStoreConditionalImmediate => AddressImmediateOperand ;; ExecuteStoreConditional
  | DispatchStoreConditionalPop => AddressPopOperand ;; ExecuteStoreConditional
  | DispatchMemoryWriteFP => AddressFPOperand ;; ExecuteMemoryWrite
  | DispatchMemoryWriteLP => AddressLPOperand ;; ExecuteMemoryWrite
  | DispatchMemoryWriteSP => AddressSPOperand ;; ExecuteMemoryWrite
  | DispatchMemoryWriteImmediate => AddressImmediateOperand ;; ExecuteMemoryWrite
  | DispatchMemoryWritePop => AddressPopOperand ;; ExecuteMemoryWrite
  | DispatchPStoreContentsFP => AddressFPOperand ;; ExecutePStoreContents
  | DispatchPStoreContentsLP => AddressLPOperand ;; ExecutePStoreContents
  | DispatchPStoreContentsSP => AddressSPOperand ;; ExecutePStoreContents
  | DispatchPStoreContentsImmediate => AddressImmediateOperand ;; ExecutePStoreContents
  | DispatchPStoreContentsPop => AddressPopOperand ;; ExecutePStoreContents
  | DispatchBindLocativeToValueFP => AddressFPOperand ;; ExecuteBindLocativeToValue
  | DispatchBindLocativeToValueLP => AddressLPOperand ;; ExecuteBindLocativeToValue
  | DispatchBindLocativeToValueSP => AddressSPOperand ;; ExecuteBindLocativeToValue
  | DispatchBindLocativeToValueImmediate => AddressImmediateOperand ;; ExecuteBindLocativeToValue
  | DispatchBindLocativeToValuePop => AddressPopOperand ;; ExecuteBindLocativeToValue
  | DispatchUnifyFP => AddressFPOperand ;; ExecuteUnify
  | DispatchUnifyLP => AddressLPOperand ;; ExecuteUnify
  | DispatchUnifySP => AddressSPOperand ;; ExecuteUnify
  | DispatchUnifyPop => AddressPopOperand ;; ExecuteUnify
  | DispatchPopLexicalVarFP => AddressFPOperand ;; ExecutePopLexicalVar
  | DispatchPopLexicalVarLP => AddressLPOperand ;; ExecutePopLexicalVar
  | DispatchPopLexicalVarSP => AddressSPOperand ;; ExecutePopLexicalVar
  | DispatchPopLexicalVarImmediate => ret UnimplementedInstruction
  | DispatchPopLexicalVarPop => AddressPopOperand ;; ExecutePopLexicalVar
  | DispatchMovemLexicalVarFP => AddressFPOperand ;; ExecuteMovemLexicalVar
  | DispatchMovemLexicalVarLP => AddressLPOperand ;; ExecuteMovemLexicalVar
  | DispatchMovemLexicalVarSP => AddressSPOperand ;; ExecuteMovemLexicalVar
  | DispatchMovemLexicalVarImmediate => ret UnimplementedInstruction
  | DispatchMovemLexicalVarPop => AddressPopOperand ;; ExecuteMovemLexicalVar
  | DispatchEqualNumberFP => AddressFPOperand ;; ExecuteEqualNumber
  | DispatchEqualNumberLP => AddressLPOperand ;; ExecuteEqualNumber
  | DispatchEqualNumberSP => AddressSPOperand ;; ExecuteEqualNumber
  | DispatchEqualNumberImmediate => ExecuteEqualNumberImmediate
  | DispatchEqualNumberPop => AddressPopOperand ;; ExecuteEqualNumber
  | DispatchLesspFP => AddressFPOperand ;; ExecuteLessp
  | DispatchLesspLP => AddressLPOperand ;; ExecuteLessp
  | DispatchLesspSP => AddressSPOperand ;; ExecuteLessp
  | DispatchLesspImmediate => AddressImmediateOperand ;; ExecuteLessp
  | DispatchLesspPop => AddressPopOperand ;; ExecuteLessp
  | DispatchGreaterpFP => AddressFPOperand ;; ExecuteGreaterp
  | DispatchGreaterpLP => AddressLPOperand ;; ExecuteGreaterp
  | DispatchGreaterpSP => AddressSPOperand ;; ExecuteGreaterp
  | DispatchGreaterpImmediate => AddressImmediateOperand ;; ExecuteGreaterp
  | DispatchGreaterpPop => AddressPopOperand ;; ExecuteGreaterp
  | DispatchEqlFP => AddressFPOperand ;; ExecuteEql
  | DispatchEqlLP => AddressLPOperand ;; ExecuteEql
  | DispatchEqlSP => AddressSPOperand ;; ExecuteEql
  | DispatchEqlImmediate => ExecuteEqlImmediate
  | DispatchEqlPop => AddressPopOperand ;; ExecuteEql
  | DispatchEqualNumberNoPopFP => AddressFPOperand ;; ExecuteEqualNumberNoPop
  | DispatchEqualNumberNoPopLP => AddressLPOperand ;; ExecuteEqualNumberNoPop
  | DispatchEqualNumberNoPopSP => AddressSPOperand ;; ExecuteEqualNumberNoPop
  | DispatchEqualNumberNoPopImmediate => ExecuteEqualNumberNoPopImmediate
  | DispatchEqualNumberNoPopPop => AddressPopOperand ;; ExecuteEqualNumberNoPop
  | DispatchLesspNoPopFP => AddressFPOperand ;; ExecuteLesspNoPop
  | DispatchLesspNoPopLP => AddressLPOperand ;; ExecuteLesspNoPop
  | DispatchLesspNoPopSP => AddressSPOperand ;; ExecuteLesspNoPop
  | DispatchLesspNoPopImmediate => AddressImmediateOperand ;; ExecuteLesspNoPop
  | DispatchLesspNoPopPop => AddressPopOperand ;; ExecuteLesspNoPop
  | DispatchGreaterpNoPopFP => AddressFPOperand ;; ExecuteGreaterpNoPop
  | DispatchGreaterpNoPopLP => AddressLPOperand ;; ExecuteGreaterpNoPop
  | DispatchGreaterpNoPopSP => AddressSPOperand ;; ExecuteGreaterpNoPop
  | DispatchGreaterpNoPopImmediate => AddressImmediateOperand ;; ExecuteGreaterpNoPop
  | DispatchGreaterpNoPopPop => AddressPopOperand ;; ExecuteGreaterpNoPop
  | DispatchEqlNoPopFP => AddressFPOperand ;; ExecuteEqlNoPop
  | DispatchEqlNoPopLP => AddressLPOperand ;; ExecuteEqlNoPop
  | DispatchEqlNoPopSP => AddressSPOperand ;; ExecuteEqlNoPop
  | DispatchEqlNoPopImmediate => ExecuteEqlNoPopImmediate
  | DispatchEqlNoPopPop => AddressPopOperand ;; ExecuteEqlNoPop
  | DispatchEqFP => AddressFPOperand ;; ExecuteEq
  | DispatchEqLP => AddressLPOperand ;; ExecuteEq
  | DispatchEqSP => AddressSPOperand ;; ExecuteEq
  | DispatchEqImmediate => ExecuteEqImmediate
  | DispatchEqPop => AddressPopOperand ;; ExecuteEq
  | DispatchLogtestFP => AddressFPOperand ;; ExecuteLogtest
  | DispatchLogtestLP => AddressLPOperand ;; ExecuteLogtest
  | DispatchLogtestSP => AddressSPOperand ;; ExecuteLogtest
  | DispatchLogtestImmediate => AddressImmediateOperand ;; ExecuteLogtest
  | DispatchLogtestPop => AddressPopOperand ;; ExecuteLogtest
  | DispatchEqNoPopFP => AddressFPOperand ;; ExecuteEqNoPop
  | DispatchEqNoPopLP => AddressLPOperand ;; ExecuteEqNoPop
  | DispatchEqNoPopSP => AddressSPOperand ;; ExecuteEqNoPop
  | DispatchEqNoPopImmediate => ExecuteEqNoPopImmediate
  | DispatchEqNoPopPop => AddressPopOperand ;; ExecuteEqNoPop
  | DispatchLogtestNoPopFP => AddressFPOperand ;; ExecuteLogtestNoPop
  | DispatchLogtestNoPopLP => AddressLPOperand ;; ExecuteLogtestNoPop
  | DispatchLogtestNoPopSP => AddressSPOperand ;; ExecuteLogtestNoPop
  | DispatchLogtestNoPopImmediate => AddressImmediateOperand ;; ExecuteLogtestNoPop
  | DispatchLogtestNoPopPop => AddressPopOperand ;; ExecuteLogtestNoPop
  | DispatchAddFP => AddressFPOperand ;; ExecuteAdd
  | DispatchAddLP => AddressLPOperand ;; ExecuteAdd
  | DispatchAddSP => AddressSPOperand ;; ExecuteAdd
  | DispatchAddImmediate => AddressImmediateOperand ;; ExecuteAdd
  | DispatchAddPop => AddressPopOperand ;; ExecuteAdd
  | DispatchSubFP => AddressFPOperand ;; ExecuteSub
  | DispatchSubLP => AddressLPOperand ;; ExecuteSub
  | DispatchSubSP => AddressSPOperand ;; ExecuteSub
  | DispatchSubImmediate => AddressImmediateOperand ;; ExecuteSub
  | DispatchSubPop => AddressPopOperand ;; ExecuteSub
  | Dispatch32BitPlusFP => AddressFPOperand ;; Execute32BitPlus
  | Dispatch32BitPlusLP => AddressLPOperand ;; Execute32BitPlus
  | Dispatch32BitPlusSP => AddressSPOperand ;; Execute32BitPlus
  | Dispatch32BitPlusImmediate => Execute32BitPlusImmediate
  | Dispatch32BitPlusPop => AddressPopOperand ;; Execute32BitPlus
  | Dispatch32BitDifferenceFP => AddressFPOperand ;; Execute32BitDifference
  | Dispatch32BitDifferenceLP => AddressLPOperand ;; Execute32BitDifference
  | Dispatch32BitDifferenceSP => AddressSPOperand ;; Execute32BitDifference
  | Dispatch32BitDifferenceImmediate => Execute32BitDifferenceImmediate
  | Dispatch32BitDifferencePop => AddressPopOperand ;; Execute32BitDifference
  | DispatchAddBignumStepFP => AddressFPOperand ;; ExecuteAddBignumStep
  | DispatchAddBignumStepLP => AddressLPOperand ;; ExecuteAddBignumStep
  | DispatchAddBignumStepSP => AddressSPOperand ;; ExecuteAddBignumStep
  | DispatchAddBignumStepImmediate => AddressImmediateOperand ;; ExecuteAddBignumStep
  | DispatchAddBignumStepPop => AddressPopOperand ;; ExecuteAddBignumStep
  | DispatchSubBignumStepFP => AddressFPOperand ;; ExecuteSubBignumStep
  | DispatchSubBignumStepLP => AddressLPOperand ;; ExecuteSubBignumStep
  | DispatchSubBignumStepSP => AddressSPOperand ;; ExecuteSubBignumStep
  | DispatchSubBignumStepImmediate => AddressImmediateOperand ;; ExecuteSubBignumStep
  | DispatchSubBignumStepPop => AddressPopOperand ;; ExecuteSubBignumStep
  | DispatchMultiplyBignumStepFP => AddressFPOperand ;; ExecuteMultiplyBignumStep
  | DispatchMultiplyBignumStepLP => AddressLPOperand ;; ExecuteMultiplyBignumStep
  | DispatchMultiplyBignumStepSP => AddressSPOperand ;; ExecuteMultiplyBignumStep
  | DispatchMultiplyBignumStepImmediate => AddressImmediateOperand ;; ExecuteMultiplyBignumStep
  | DispatchMultiplyBignumStepPop => AddressPopOperand ;; ExecuteMultiplyBignumStep
  | DispatchDivideBignumStepFP => AddressFPOperand ;; ExecuteDivideBignumStep
  | DispatchDivideBignumStepLP => AddressLPOperand ;; ExecuteDivideBignumStep
  | DispatchDivideBignumStepSP => AddressSPOperand ;; ExecuteDivideBignumStep
  | DispatchDivideBignumStepImmediate => AddressImmediateOperand ;; ExecuteDivideBignumStep
  | DispatchDivideBignumStepPop => AddressPopOperand ;; ExecuteDivideBignumStep
  | DispatchAset1FP => AddressFPOperand ;; ExecuteAset1
  | DispatchAset1LP => AddressLPOperand ;; ExecuteAset1
  | DispatchAset1SP => AddressSPOperand ;; ExecuteAset1
  | DispatchAset1Immediate => AddressImmediateOperand ;; ExecuteAset1
  | DispatchAset1Pop => AddressPopOperand ;; ExecuteAset1
  | DispatchAllocateListBlockFP => AddressFPOperand ;; ExecuteAllocateListBlock
  | DispatchAllocateListBlockLP => AddressLPOperand ;; ExecuteAllocateListBlock
  | DispatchAllocateListBlockSP => AddressSPOperand ;; ExecuteAllocateListBlock
  | DispatchAllocateListBlockImmediate => AddressImmediateOperand ;; ExecuteAllocateListBlock
  | DispatchAllocateListBlockPop => AddressPopOperand ;; ExecuteAllocateListBlock
  | DispatchAref1FP => AddressFPOperand ;; ExecuteAref1
  | DispatchAref1LP => AddressLPOperand ;; ExecuteAref1
  | DispatchAref1SP => AddressSPOperand ;; ExecuteAref1
  | DispatchAref1Immediate => AddressImmediateOperand ;; ExecuteAref1
  | DispatchAref1Pop => AddressPopOperand ;; ExecuteAref1
  | DispatchAloc1FP => AddressFPOperand ;; ExecuteAloc1
  | DispatchAloc1LP => AddressLPOperand ;; ExecuteAloc1
  | DispatchAloc1SP => AddressSPOperand ;; ExecuteAloc1
  | DispatchAloc1Immediate => AddressImmediateOperand ;; ExecuteAloc1
  | DispatchAloc1Pop => AddressPopOperand ;; ExecuteAloc1
  | DispatchStoreArrayLeaderFP => AddressFPOperand ;; ExecuteStoreArrayLeader
  | DispatchStoreArrayLeaderLP => AddressLPOperand ;; ExecuteStoreArrayLeader
  | DispatchStoreArrayLeaderSP => AddressSPOperand ;; ExecuteStoreArrayLeader
  | DispatchStoreArrayLeaderImmediate => AddressImmediateOperand ;; ExecuteStoreArrayLeader
  | DispatchStoreArrayLeaderPop => AddressPopOperand ;; ExecuteStoreArrayLeader
  | DispatchAllocateStructureBlockFP => AddressFPOperand ;; ExecuteAllocateStructureBlock
  | DispatchAllocateStructureBlockLP => AddressLPOperand ;; ExecuteAllocateStructureBlock
  | DispatchAllocateStructureBlockSP => AddressSPOperand ;; ExecuteAllocateStructureBlock
  | DispatchAllocateStructureBlockImmediate => AddressImmediateOperand ;; ExecuteAllocateListBlock
  | DispatchAllocateStructureBlockPop => AddressPopOperand ;; ExecuteAllocateStructureBlock
  | DispatchArrayLeaderFP => AddressFPOperand ;; ExecuteArrayLeader
  | DispatchArrayLeaderLP => AddressLPOperand ;; ExecuteArrayLeader
  | DispatchArrayLeaderSP => AddressSPOperand ;; ExecuteArrayLeader
  | DispatchArrayLeaderImmediate => AddressImmediateOperand ;; ExecuteArrayLeader
  | DispatchArrayLeaderPop => AddressPopOperand ;; ExecuteArrayLeader
  | DispatchAlocLeaderFP => AddressFPOperand ;; ExecuteAlocLeader
  | DispatchAlocLeaderLP => AddressLPOperand ;; ExecuteAlocLeader
  | DispatchAlocLeaderSP => AddressSPOperand ;; ExecuteAlocLeader
  | DispatchAlocLeaderImmediate => AddressImmediateOperand ;; ExecuteAlocLeader
  | DispatchAlocLeaderPop => AddressPopOperand ;; ExecuteAlocLeader
  | DispatchPopInstanceVariable => ExecutePopInstanceVariable
  | DispatchMovemInstanceVariable => ExecuteMovemInstanceVariable
  | DispatchPopInstanceVariableOrdered => ExecutePopInstanceVariableOrdered
  | DispatchMovemInstanceVariableOrdered => ExecuteMovemInstanceVariableOrdered
  | DispatchInstanceRefFP => AddressFPOperand ;; ExecuteInstanceRef
  | DispatchInstanceRefLP => AddressLPOperand ;; ExecuteInstanceRef
  | DispatchInstanceRefSP => AddressSPOperand ;; ExecuteInstanceRef
  | DispatchInstanceRefImmediate => AddressImmediateOperand ;; ExecuteInstanceRef
  | DispatchInstanceRefPop => AddressPopOperand ;; ExecuteInstanceRef
  | DispatchInstanceSetFP => AddressFPOperand ;; ExecuteInstanceSet
  | DispatchInstanceSetLP => AddressLPOperand ;; ExecuteInstanceSet
  | DispatchInstanceSetSP => AddressSPOperand ;; ExecuteInstanceSet
  | DispatchInstanceSetImmediate => AddressImmediateOperand ;; ExecuteInstanceSet
  | DispatchInstanceSetPop => AddressPopOperand ;; ExecuteInstanceSet
  | DispatchInstanceLocFP => AddressFPOperand ;; ExecuteInstanceLoc
  | DispatchInstanceLocLP => AddressLPOperand ;; ExecuteInstanceLoc
  | DispatchInstanceLocSP => AddressSPOperand ;; ExecuteInstanceLoc
  | DispatchInstanceLocImmediate => AddressImmediateOperand ;; ExecuteInstanceSet
  | DispatchInstanceLocPop => AddressPopOperand ;; ExecuteInstanceLoc
  | DispatchSetTagFP => AddressFPOperand ;; ExecuteSetTag
  | DispatchSetTagLP => AddressLPOperand ;; ExecuteSetTag
  | DispatchSetTagSP => AddressSPOperand ;; ExecuteSetTag
  | DispatchSetTagImmediate => ExecuteSetTagImmediate
  | DispatchSetTagPop => AddressPopOperand ;; ExecuteSetTag
  | DispatchUnsignedLesspFP => AddressFPOperand ;; ExecuteUnsignedLessp
  | DispatchUnsignedLesspLP => AddressLPOperand ;; ExecuteUnsignedLessp
  | DispatchUnsignedLesspSP => AddressSPOperand ;; ExecuteUnsignedLessp
  | DispatchUnsignedLesspImmediate => ExecuteUnsignedLesspImmediate
  | DispatchUnsignedLesspPop => AddressPopOperand ;; ExecuteUnsignedLessp
  | DispatchUnsignedLesspNoPopFP => AddressFPOperand ;; ExecuteUnsignedLesspNoPop
  | DispatchUnsignedLesspNoPopLP => AddressLPOperand ;; ExecuteUnsignedLesspNoPop
  | DispatchUnsignedLesspNoPopSP => AddressSPOperand ;; ExecuteUnsignedLesspNoPop
  | DispatchUnsignedLesspNoPopImmediate => ExecuteUnsignedLesspNoPopImmediate
  | DispatchUnsignedLesspNoPopPop => AddressPopOperand ;; ExecuteUnsignedLesspNoPop
  | DispatchPopFP => AddressFPOperand ;; ExecutePop
  | DispatchPopLP => AddressLPOperand ;; ExecutePop
  | DispatchPopSP => AddressSPOperand ;; ExecutePop
  | DispatchMovemFP => AddressFPOperand ;; ExecuteMovem
  | DispatchMovemLP => AddressLPOperand ;; ExecuteMovem
  | DispatchMovemSP => AddressSPOperand ;; ExecuteMovem
  | DispatchMovemPop => ret NextInstruction
  | DispatchMergeCdrNoPopFP => AddressFPOperand ;; ExecuteMergeCdrNoPop
  | DispatchMergeCdrNoPopLP => AddressLPOperand ;; ExecuteMergeCdrNoPop
  | DispatchMergeCdrNoPopSP => AddressSPOperand ;; ExecuteMergeCdrNoPop
  | DispatchFastAref1FP => AddressFPOperand ;; ExecuteFastAref1
  | DispatchFastAref1LP => AddressLPOperand ;; ExecuteFastAref1
  | DispatchFastAref1SP => AddressSPOperand ;; ExecuteFastAref1
  | DispatchFastAset1FP => AddressFPOperand ;; ExecuteFastAset1
  | DispatchFastAset1LP => AddressLPOperand ;; ExecuteFastAset1
  | DispatchFastAset1SP => AddressSPOperand ;; ExecuteFastAset1
  | DispatchStackBltAddressFP => AddressFPOperand ;; ExecuteStackBltAddress
  | DispatchStackBltAddressLP => AddressLPOperand ;; ExecuteStackBltAddress
  | DispatchStackBltAddressSP => AddressSPOperand ;; ExecuteStackBltAddress
  | DispatchStackBltAddressPop => AddressPopOperand ;; ExecuteStackBltAddress
  | DispatchDpb => ExecuteDpb
  | DispatchCharDpb => ExecuteCharDpb
  | DispatchPDpb => ExecutePDpb
  | DispatchPTagDpb => ExecutePTagDpb
  | DispatchLoopIncrementTosLessThan => ExecuteLoopIncrementTosLessThan
  | DispatchCatchOpen => ExecuteCatchOpen
  | DispatchPushExternalValueCellPointer => ExecutePushExternalValueCellPointer
  | DispatchPushFixnum => ExecutePushWord TypeFixnum
  | DispatchPushSmallRatio => ExecutePushWord TypeSmallRatio
  | DispatchPushSingleFloat => ExecutePushWord TypeSingleFloat
  | DispatchPushDoubleFloat => ExecutePushWord TypeDoubleFloat
  | DispatchPushBignum => ExecutePushWord TypeBignum
  | DispatchPushBigRatio => ExecutePushWord TypeBigRatio
  | DispatchPushComplex => ExecutePushWord TypeComplex
  | DispatchPushSpareNumber => ExecutePushWord TypeSpareNumber
  | DispatchPushInstance => ExecutePushWord TypeInstance
  | DispatchPushListInstance => ExecutePushWord TypeListInstance
  | DispatchPushArrayInstance => ExecutePushWord TypeArrayInstance
  | DispatchPushStringInstance => ExecutePushWord TypeStringInstance
  | DispatchPushNil => ExecutePushWord TypeNIL
  | DispatchPushList => ExecutePushWord TypeList
  | DispatchPushArray => ExecutePushWord TypeArray
  | DispatchPushString => ExecutePushWord TypeString
  | DispatchPushSymbol => ExecutePushWord TypeSymbol
  | DispatchPushLocative => ExecutePushWord TypeLocative
  | DispatchPushLexicalClosure => ExecutePushWord TypeLexicalClosure
  | DispatchPushDynamicClosure => ExecutePushWord TypeDynamicClosure
  | DispatchPushCompiledFunction => ExecutePushWord TypeCompiledFunction
  | DispatchPushGenericFunction => ExecutePushWord TypeGenericFunction
  | DispatchPushSparePointer1 => ExecutePushWord TypeSparePointer1
  | DispatchPushSparePointer2 => ExecutePushWord TypeSparePointer2
  | DispatchPushPhysicalAddress => ExecutePushWord TypePhysicalAddress
  | DispatchPushSpareImmediate1 => ExecutePushWord TypeSpareImmediate1
  | DispatchPushBoundLocation => ExecutePushWord TypeBoundLocation
  | DispatchPushCharacter => ExecutePushWord TypeCharacter
  | DispatchPushLogicVariable => ExecutePushWord TypeLogicVariable
  | DispatchPushGcForward => ExecutePushWord TypeGCForward
  | DispatchPushEvenPc => ExecutePushWord TypeEvenPC
  | DispatchPushOddPc => ExecutePushWord TypeOddPC
  | DispatchCallCompiledEven => ExecuteCallCompiledEven
  | DispatchCallCompiledOdd => ExecuteCallCompiledOdd
  | DispatchCallIndirect => ExecuteCallIndirect
  | DispatchCallGeneric => ExecuteCallGeneric
  | DispatchCallCompiledEvenPrefetch => ExecuteCallCompiledEven
  | DispatchCallCompiledOddPrefetch => ExecuteCallCompiledOdd
  | DispatchCallIndirectPrefetch => ExecuteCallIndirect
  | DispatchCallGenericPrefetch => ExecuteCallGeneric
  | DispatchInstructionCacheLookup => ret InstructionCacheLookup
  | DispatchIllegalInstruction => ret UnimplementedInstruction
  | _ => ret UnimplementedInstruction
  end.

(** ** Labels *)

Definition halt : Emu Label := assign_ps (set_running false) ;; ret Returned. (* c-emulator/emulator.c:4629-4633 halt *)
Definition save_and_halt : Emu Label := DecacheRegisters ;; halt. (* c-emulator/emulator.c:4627-4628 save_and_halt *)

(** Enter a trap handler with the saved registers; a failure halts. *)
Definition enter_trap (take : Emu bool) : Emu Label :=
  DecacheRegisters ;;
  ok <- take ;;
  if (ok : bool) then EncacheRegisters ;; ret AtLookup else halt.

Definition zero_microstate : LispObj := MkObj TypeFixnum 0.

(* c-emulator/emulator.c:4581-4595 UnimplementedInstructionTag *)
Definition unimplemented_instruction : Emu Label :=
  p <- get_reg pc ;;
  enter_trap (TakePreTrap ErrorTrapVector (Some zero_microstate) (Some p)).

(* c-emulator/emulator.c:4597-4615 IllegalOperandTag *)
Definition illegal_operand : Emu Label :=
  o <- get_reg op2 ;;
  k <- operand_index o ;;
  base <- get_ps StackCacheBase ;;
  enter_trap (TakePreTrap ErrorTrapVector (Some zero_microstate)
                (Some (obj TypeLocative (base + k)))).

Definition instruction_exception (nextpc : LispObj) : Emu Label :=
  i <- cp_instruction ;; o <- get_reg op2 ;;
  enter_trap (TakeInstructionException i o nextpc).

(* c-emulator/emulator.c:4616-4625 InstructionExceptionTag *)
Definition instruction_exception_tag : Emu Label :=
  n <- cp_next_pc ;; instruction_exception n.

(* c-emulator/emulator.c:2714-2725 FollowPCInstructionException *)
Definition follow_pc_exception : Emu Label :=
  p <- get_reg pc ;; n <- cp_operand ;; instruction_exception (IncrementPC p n).

(* c-emulator/emulator.c:4567-4578 PullApplyArgsTrap *)
Definition pull_apply_args_trap (i : Z) : Emu Label :=
  apply <- PopObject ;;
  assign_regs (fun r => set_restartsp (sp r) r) ;;
  enter_trap (TakePreTrap PullApplyArgsTrapVector (Some (obj TypeFixnum i)) (Some apply)).

(* c-emulator/emulator.c:965-969 NextInstructionTag *)
Definition next_instruction : Emu Label :=
  l <- current_line ;;
  put_pc (cl_next_pc l) ;;
  assign_regs (set_cp (cl_next_cp l)) ;;
  ret AtDispatch.

(** The labels that lead to no further instruction label. *)
Definition goto_final (g : Goto) : Emu Label :=
  match g with
  | NextInstruction => next_instruction
  | InstructionCacheLookup => ret AtLookup
  | IllegalOperand => illegal_operand
  | InstructionException => instruction_exception_tag
  | UnimplementedInstruction => unimplemented_instruction
  | FollowPCInstructionException => follow_pc_exception
  | PullApplyArgsTrap i => pull_apply_args_trap i
  | SaveAndHalt => save_and_halt
  | Halt => halt
  | BranchTaken | HandleUnwindProtect => undefined
  end.

(* c-emulator/emulator.c:1017-1035 BranchTaken *)
Definition branch_taken : Emu Label :=
  n <- cp_operand ;;
  if n =? 0 then illegal_operand
  else
    p <- get_reg pc ;;
    put_pc (IncrementPC p n) ;;
    ret AtLookup.

Definition goto (g : Goto) : Emu Label :=
  match g with
  | BranchTaken => branch_taken
  | HandleUnwindProtect => g' <- unwind_protect_handler ;; goto_final g'
  | _ => goto_final g
  end.

(** ** Lookup and dispatch *)

(** The subscript of the line for [pc]. *)
Definition line_index (p : LispObj) : Z := (* c-emulator/emulator.c:1004-1005 InstructionCacheSize *)
  Z.land (u32 (Z.shiftl (DATA p) 1)) (InstructionCacheSize - 1) + Z.land (TAG p) 1.

(* c-emulator/emulator.c:992-1012 InstructionCacheLookup *)
Definition lookup : Emu Label :=
  p <- get_reg pc ;;
  if TypeEqualP (TAG p) TypeNIL then save_and_halt
  else if negb (TypeEqualP (TAG p) TypeEvenPC || TypeEqualP (TAG p) TypeOddPC)
  then instruction_exception_tag
  else
    assign_regs (set_cp (CPLine (line_index p))) ;;
    l <- current_line ;;
    when (negb (DATA (cl_pc l) =? DATA p))
      (with_saved_registers InstructionCacheMiss ;; ret tt) ;;
    ret AtDispatch.

Definition lookup_code_p (c : IvoryDispatch) : bool :=
  match c with DispatchInstructionCacheLookup => true | _ => false end.

(* c-emulator/emulator.c:971-989 Dispatch *)
Definition dispatch_instruction : Emu Label :=
  assign_regs (fun r => set_restartsp (sp r) r) ;;
  AllowSequenceBreaks ;;
  l <- current_line ;;
  when (negb (lookup_code_p (cl_code l)))
    (assign_ps (fun p => set_instruction_count (u32 (instruction_count p + 1)) p)) ;;
  g <- execute (cl_code l) ;;
  goto g.

(** ** Traps *)

(** [!((trap_vma.DATA.u ^ (TrapVectorBase + ResetTrapVector)) & PageNumberMask)] *)
Definition in_trap_vector_page (vma : Z) : bool := (* c-emulator/emulator.c:929 ResetTrapVector *)
  Z.land (Z.lxor vma (TrapVectorBase + ResetTrapVector)) PageNumberMask =? 0.

(** After [DecacheRegisters]: the trap to take, or a halt. *)
Definition after_trap (take : Emu bool) : Emu Label :=
  ok <- take ;;
  if (ok : bool) then EncacheRegisters ;; ret AtLookup else halt.

(* c-emulator/emulator.c:902-962 trap_environment *)
Definition trap (vector : Z) : Emu Label :=
  DecacheRegisters ;;
  vma <- gets trap_vma ;;
  if vector =? -1 then ret Returned
  else if (vector =? HighPrioritySequenceBreakTrapVector)
       || (vector =? LowPrioritySequenceBreakTrapVector) || (vector =? ResetTrapVector) then
    after_trap (TakePreTrap vector None None)
  else if vector =? ErrorTrapVector then
    microstate <- gets trap_microstate ;;
    if in_trap_vector_page (DATA vma) then halt
    else after_trap (TakePreTrap vector (Some microstate) (Some vma))
  else if (vector =? MonitorTrapVector) || (vector =? TransportTrapVector)
       || (vector =? PageNotResidentTrapVector) then
    if in_trap_vector_page (DATA vma) then halt
    else after_trap (TakePreTrap vector (Some vma) None)
  else if vector =? InstructionExceptionVector then
    l <- current_line ;; o <- get_reg op2 ;;
    after_trap (TakeInstructionException (cl_instruction l) o (cl_next_pc l))
  else c_exit 1.

(** ** Steps *)

Definition turn (l : Label) : Emu Label :=
  match l with
  | AtLookup => lookup
  | AtDispatch => dispatch_instruction
  | AtTrap v => trap v
  | Returned => ret Returned
  end.

(** A longjmp makes setjmp return again. *)
(* c-emulator/emulator.c:902-904 setjmp *)
Definition setjmp (m : Emu Label) : Emu Label := fun s =>
  match m s with
  | (LongJmp v, s') => (Ok (AtTrap v), s')
  | r => r
  end.

(* c-emulator/emulator.c:902-963 setjmp *)
Definition sequencer_step (l : Label) : Emu Label := setjmp (turn l).

(** The initial values of the locals. *)
(* c-emulator/emulator.c:881-901 InstructionSequencer *)
Definition enter_sequencer : Emu Label :=
  p <- gets ps ;;
  assign_regs (fun _ => MkRegisters (ps_sp p) (ps_sp p) (ps_fp p) (ps_lp p) (ps_pc p)
                          CPNone OpNone (MkObj TypeFixnum 0)) ;;
  ret AtLookup.

(** At most [n] steps. *)
Fixpoint run_steps (n : nat) (l : Label) : Emu Label :=
  match n with
  | O => ret l
  | S n' =>
      match l with
      | Returned => ret Returned
      | _ => l' <- sequencer_step l ;; run_steps n' l'
      end
  end.

Definition InstructionSequencer (n : nat) : Emu Label := l <- enter_sequencer ;; run_steps n l.

(** Steps of the sequencer, interleaved with the signals that only set [suspend] and
    [run]. *)
Inductive step : Label * MachineState -> Label * MachineState -> Prop :=
| step_run l s l' s' : sequencer_step l s = (Ok l', s') -> step (l, s) (l', s')
| step_sigio l s : step (l, s) (l, io_handler s)
| step_interrupt l s : step (l, s) (l, SendInterruptToEmulator s)
| step_quit l s : step (l, s) (l, set_run false (set_suspend 1 s)).
End sequencer.
