(* ===== verification/Init.v ===== *)
(** Initialisation and the front-panel interface (c-emulator/initialization.c): the
    fake frames, InitializeIvoryProcessor, startup, and the internal registers as a
    debugger sees them. *)

From S2P Require Export Sequencer.
#[local] Open Scope vlm_scope.

(** ** Running *)

(* c-emulator/initialization.c:15-19 quit_handler *)
Definition quit_handler (s : MachineState) : MachineState := set_run false (set_suspend 1 s).
(* c-emulator/initialization.c:25-28 Runningp *)
Definition Runningp (s : MachineState) : bool := run s.
(* c-emulator/initialization.c:30-35 HaltMachine *)
Definition HaltMachine (s : MachineState) : MachineState := if Runningp s then set_suspend 1 s else s.
(* c-emulator/initialization.c:40-44 StartMachine *)
Definition StartMachine (s : MachineState) : MachineState := set_suspend 0 (set_run true s).

(** ** Fake frames *)

(* c-emulator/initialization.c:70-84 PushOneFakeFrame *)
Definition PushOneFakeFrame : Emu unit :=
  p <- gets ps ;;
  let f := ps_sp p + 1 in
  stack_put f (set_TAG (Z.lor (TAG (continuation p)) 192) (continuation p)) ;;
  stack_put (f + 1) (obj (Z.lor 192 TypeFixnum) (control p)) ;;
  put_control (fun _ => 0) ;;
  put_control (fun c => WriteControlArgumentSize c 2) ;;
  put_control (fun c => WriteControlCallerFrameSize c (f - ps_fp p)) ;;
  assign_ps (fun p => set_continuation (ps_pc p) p) ;;
  assign_ps (set_ps_fp f) ;;
  assign_ps (set_ps_sp (f + 1)).

(* c-emulator/initialization.c:86-96 PopOneFakeFrame *)
Definition PopOneFakeFrame : Emu unit :=
  p <- gets ps ;;
  let f := ps_fp p in
  assign_ps (set_ps_sp (f - 1)) ;;
  assign_ps (set_ps_fp (f - ReadControlCallerFrameSize (control p))) ;;
  assign_ps (set_ps_pc (continuation p)) ;;
  c <- stack_get f ;;
  assign_ps (set_continuation c) ;;
  w <- stack_get (f + 1) ;;
  put_control (fun _ => DATA w) ;;
  assign_ps (fun p => set_ps_lp (ps_fp p + ReadControlArgumentSize (control p)) p).

(** ** The processor *)

(** The subscripts [0 .. n-1]. *)
Definition subscripts (n : nat) : list Z := Z.of_nat <$> seq 0 n.

(** The cache lines with their program counters reset.  A line that is not yet
    allocated holds whatever malloc returned, [junk]. *)
(* c-emulator/initialization.c:117-123 InstructionCacheSize *)
Definition reset_cache (junk : Z -> InstructionCacheLine) (t : gmap Z InstructionCacheLine) :
    gmap Z InstructionCacheLine :=
  fold_right (fun i m =>
      <[i := set_cl_pc (MkObj (if Z.odd i then TypeOddPC else TypeEvenPC) (u32 (-1)))
               (default (junk i) (t !! i))]> m)
    t (subscripts 2048).

Definition InitialStackCacheBase : Z := 0xf8000100. (* c-emulator/initialization.c:125 StackCacheBase *)

(* c-emulator/initialization.c:126-130 StackCacheSize *)
Definition initial_stack : list LispObj :=
  (fun i => obj TypeNull (InitialStackCacheBase + i)) <$> subscripts 1024.

(** The registers [InitializeIvoryProcessor] sets; the others keep their values. *)
(* c-emulator/initialization.c:110-140 StackCacheLimit *)
Definition initial_processor (junk : Z -> InstructionCacheLine) (p : ProcessorState) : ProcessorState :=
  let c := WriteControlArgumentSize 0 2 in
  let c := WriteControlCallerFrameSize c 2 in
  let c := WriteControlTrapMode c TrapModeFEP in
  let pc := MkObj (Z.lor 192 TypeNIL) 0 in
  set_StackCacheLimit (PageSize * StackCacheSize - 128)
   (set_running false (set_instruction_count 0
    (set_InstructionCache (reset_cache junk (InstructionCache p))
     (set_StackCacheBase InitialStackCacheBase (set_StackCache initial_stack
      (set_ps_fp 4 (set_ps_sp 5 (set_ps_lp 6 (set_control c
       (set_ps_pc pc (set_continuation pc p))))))))))).

Section init.
Context {env : Environment}.

(* c-emulator/initialization.c:98-155 InitializeIvoryProcessor *)
Definition InitializeIvoryProcessor (junk : Z -> InstructionCacheLine) : Emu unit :=
  assign_ps (initial_processor junk) ;;
  PushOneFakeFrame ;;
  PushOneFakeFrame ;;
  EnsureVirtualAddressRange 0xf8000100 0xf00 ;;
  EnsureVirtualAddressRange 0xf8062000 0x9e000 ;;
  ret tt.

(** The system start-up vector: the first of two words that is a compiled function. *)
(* c-emulator/initialization.c:49-56 ReadVirtualMemory *)
Definition startup_function : Emu (option LispObj) :=
  q <- ReadVirtualMemory 0xf8041002 to_local ;;
  if TAG q =? TypeCompiledFunction then ret (Some q) else
  q <- ReadVirtualMemory 0xf8041102 to_local ;;
  ret (if TAG q =? TypeCompiledFunction then Some q else None).

(* c-emulator/initialization.c:46-68 IvoryProcessorSystemStartup *)
Definition IvoryProcessorSystemStartup (junk : Z -> InstructionCacheLine) (bootingP : bool) : Emu bool :=
  ok <- (if bootingP then
           InitializeIvoryProcessor junk ;;
           f <- startup_function ;;
           match f with
           | None => ret false
           | Some q =>
               i <- get_ps ps_fp ;;
               stack_put i (obj (Z.lor 192 TypeEvenPC) (DATA q)) ;;
               ret true
           end
         else ret true) ;;
  if (ok : bool) then
    PopOneFakeFrame ;;
    PopOneFakeFrame ;;
    modify StartMachine ;;
    ret true
  else ret false.

(** ** The internal registers *)

Definition stack_locative (f : ProcessorState -> Z) : Emu (option LispObj) :=
  p <- gets ps ;; ret (Some (obj TypeLocative (StackCacheBase p + f p))).

Definition is_bar_register (regno : Z) : bool :=
  (regno =? InternalRegisterBAR0) || (regno =? InternalRegisterBAR1)
  || (regno =? InternalRegisterBAR2) || (regno =? InternalRegisterBAR3).

(** [None] is the result FALSE, and otherwise [*val]. *)
(* c-emulator/initialization.c:163-201 ReadInternalRegister *)
Definition ReadInternalRegister (regno : Z) : Emu (option LispObj) :=
  if regno =? InternalRegisterFP then stack_locative ps_fp
  else if regno =? InternalRegisterLP then stack_locative ps_lp
  else if regno =? InternalRegisterSP then stack_locative ps_sp
  else if is_bar_register regno then b <- bar_get (ldb 2 7 regno) ;; ret (Some b)
  else if regno =? InternalRegisterContinuation then c <- get_ps continuation ;; ret (Some c)
  else if regno =? InternalRegisterControlRegister then
    c <- get_ps control ;; ret (Some (obj TypeFixnum c))
  else ret None.

(** [StackCache + (val->DATA.u - StackCacheBase)] *)
Definition stack_subscript (val : LispObj) : Emu Z :=
  base <- get_ps StackCacheBase ;; ret (u32 (DATA val - base)).

(** [while (test) scroll();] *)
Definition scroll_while (test : ProcessorState -> bool) (scroll : Emu unit) : Emu unit :=
  loop loop_fuel (fun _ : unit =>
    p <- gets ps ;; if test p then scroll ;; ret (inl tt) else ret (inr tt)) tt.

(* c-emulator/initialization.c:203-241 WriteInternalRegister *)
Definition WriteInternalRegister (regno : Z) (val : LispObj) : Emu bool :=
  if regno =? InternalRegisterFP then
    i <- stack_subscript val ;;
    assign_ps (set_ps_fp i) ;;
    scroll_while (fun p => ps_fp p <? 0) StackCacheScrollDown ;;
    scroll_while (fun p => StackCacheLimit p <? ps_fp p) StackCacheScrollUp ;;
    ret true
  else if regno =? InternalRegisterSP then
    i <- stack_subscript val ;; assign_ps (set_ps_sp i) ;; ret true
  else if regno =? InternalRegisterLP then
    i <- stack_subscript val ;; assign_ps (set_ps_lp i) ;; ret true
  else if is_bar_register regno then bar_put (ldb 2 7 regno) val ;; ret true
  else if regno =? InternalRegisterContinuation then put_continuation val ;; ret true
  else if regno =? InternalRegisterControlRegister then
    put_control (fun _ => DATA val) ;; ret true
  else ret false.
End init.
