(* ===== verification/Invariant.v ===== *)
(** The type invariant of the machine: every word, register, tag and cache line keeps
    the width its C type has, and the stack cache keeps its size.  Every operation of
    the model preserves it: the Preservation files follow the order of the operations. *)

From S2P Require Export Init.
#[local] Open Scope vlm_scope.

(** ** Ranges *)

Lemma wf_DATA o : wf_obj o -> is_u32 (DATA o).
Proof. by intros [_ H]. Qed.
Lemma wf_TAG o : wf_obj o -> is_u32 (TAG o).
Proof. by intros [H _]. Qed.

Lemma is_u32_lor a b : is_u32 a -> is_u32 b -> is_u32 (Z.lor a b).
Proof.
  intros Ha Hb. split; [apply Z.lor_nonneg; split; [apply Ha | apply Hb]|].
  apply range_of_testbit; [lia | apply Z.lor_nonneg; split; [apply Ha | apply Hb] |].
  intros i Hi. by rewrite Z.lor_spec, (testbit_above a 32), (testbit_above b 32) by (assumption || lia).
Qed.

Lemma is_u32_land_l a b : is_u32 a -> is_u32 (Z.land a b).
Proof.
  intros Ha. assert (0 <= Z.land a b) by (apply Z.land_nonneg; left; apply Ha).
  split; [done|]. apply range_of_testbit; [lia | done |].
  intros i Hi. by rewrite Z.land_spec, (testbit_above a 32) by (assumption || lia).
Qed.

Lemma is_u32_land_r a b : is_u32 b -> is_u32 (Z.land a b).
Proof. rewrite Z.land_comm. apply is_u32_land_l. Qed.

Lemma is_u32_shiftr a n : is_u32 a -> 0 <= n -> is_u32 (Z.shiftr a n).
Proof.
  intros [H1 H2] Hn. rewrite Z.shiftr_div_pow2 by done.
  assert (0 < 2 ^ n) by (apply Z.pow_pos_nonneg; lia).
  split; [apply Z.div_pos; lia|]. apply Z.div_lt_upper_bound; nia.
Qed.

Lemma wf_strip_cdr o : wf_obj o -> wf_obj (strip_cdr o).
Proof.
  intros [H1 H2]. split; [|done]. unfold strip_cdr. simpl.
  pose proof (TagType_range (TAG o)). unfold is_u32. lia.
Qed.

Lemma is_u32_const n : (0 <=? n) && (n <? 2 ^ 32) = true -> is_u32 n.
Proof. unfold is_u32. intros H%andb_true_iff. lia. Qed.

Lemma wf_MkObj t d : is_u32 t -> is_u32 d -> wf_obj (MkObj t d).
Proof. by split. Qed.

Lemma wf_if (b : bool) x y : wf_obj x -> wf_obj y -> wf_obj (if b then x else y).
Proof. by destruct b. Qed.
Lemma is_u32_if (b : bool) x y : is_u32 x -> is_u32 y -> is_u32 (if b then x else y).
Proof. by destruct b. Qed.

#[export] Hint Resolve wf_if is_u32_if wf_DATA wf_TAG is_u32_lor is_u32_ldiff is_u32_land_l wf_strip_cdr
  u32_range dpb_range wf_MkObj : vlm_range.
#[export] Hint Extern 3 (is_u32 ?n) => (apply is_u32_const; reflexivity) : vlm_range.

(** ** The invariant *)

Record wf_line (l : InstructionCacheLine) : Prop := {
  wf_cl_pc : wf_obj (cl_pc l);
  wf_cl_next_pc : wf_obj (cl_next_pc l);
  wf_cl_operand : is_s32 (cl_operand l);
  wf_cl_instruction : is_u32 (cl_instruction l)
}.

Record wf_ps (p : ProcessorState) : Prop := {
  wf_stack : Forall wf_obj (StackCache p);
  wf_stack_length : length (StackCache p) = 1024%nat;
  wf_cache : map_Forall (fun i l => 0 <= i < InstructionCacheSize /\ wf_line l) (InstructionCache p);
  wf_bar : Forall wf_obj (bar p);
  wf_ps_pc : wf_obj (ps_pc p);
  wf_continuation : wf_obj (continuation p);
  wf_ListCacheArea : wf_obj (ListCacheArea p);
  wf_ListCacheAddress : wf_obj (ListCacheAddress p);
  wf_StructureCacheArea : wf_obj (StructureCacheArea p);
  wf_StructureCacheAddress : wf_obj (StructureCacheAddress p);
  wf_CatchBlockPointer : wf_obj (CatchBlockPointer p);
  wf_control : is_u32 (control p);
  wf_StackCacheBase : is_u32 (StackCacheBase p);
  wf_ArrayEventCount : is_u32 (ArrayEventCount p);
  wf_ListCacheLength : is_u32 (ListCacheLength p);
  wf_StructureCacheLength : is_u32 (StructureCacheLength p);
  wf_BindingStackPointer : is_u32 (BindingStackPointer p);
  wf_BindingStackLimit : is_u32 (BindingStackLimit p);
  wf_PreemptRegister : is_u32 (PreemptRegister p);
  wf_AluAndRotateControl : is_u32 (AluAndRotateControl p);
  wf_RotateLatch : is_u32 (RotateLatch p);
  wf_EphemeralOldspaceRegister : is_u32 (EphemeralOldspaceRegister p);
  wf_ZoneOldspaceRegister : is_u32 (ZoneOldspaceRegister p);
  wf_ControlStackLimit : is_u32 (ControlStackLimit p);
  wf_ControlStackExtraLimit : is_u32 (ControlStackExtraLimit p);
  wf_DynamicBindingCacheBase : is_u32 (DynamicBindingCacheBase p);
  wf_DynamicBindingCacheMask : is_u32 (DynamicBindingCacheMask p);
  wf_FEPModeTrapVectorAddress : is_u32 (FEPModeTrapVectorAddress p);
  wf_MappingTableCache : is_u32 (MappingTableCache p);
  wf_MappingTableLength : is_u32 (MappingTableLength p);
  wf_instruction_count : is_u32 (instruction_count p)
}.

Record wf_regs (r : Registers) : Prop := {
  wf_pc : wf_obj (pc r);
  wf_immediate : wf_obj (immediate r)
}.

Record wf_VM (v : VMState) : Prop := {
  wf_CommandRegister : is_u32 (CommandRegister v);
  wf_AddressRegister : is_u32 (AddressRegister v);
  wf_ExtentRegister : is_u32 (ExtentRegister v);
  wf_AttributesRegister : is_u32 (AttributesRegister v);
  wf_DestinationRegister : is_u32 (DestinationRegister v);
  wf_DataRegister : wf_obj (DataRegister v)
}.

Record wf_state (s : MachineState) : Prop := {
  wf_s_ps : wf_ps (ps s);
  wf_s_regs : wf_regs (regs s);
  wf_s_VM : wf_VM (VM s);
  wf_DataSpace : map_Forall (fun _ d => is_u32 d) (DataSpace s);
  wf_TagSpace : map_Forall (fun _ t => is_u8 t) (TagSpace s);
  wf_attributes : map_Forall (fun _ a => is_u8 a) (VMAttributeTable s);
  wf_trap_vma : wf_obj (trap_vma s);
  wf_trap_microstate : wf_obj (trap_microstate s);
  wf_memory_vma : is_u32 (memory_vma s)
}.

#[export] Hint Resolve wf_stack wf_stack_length wf_cache wf_DataSpace wf_TagSpace wf_attributes wf_bar wf_ps_pc wf_continuation wf_ListCacheArea wf_ListCacheAddress
  wf_StructureCacheArea wf_StructureCacheAddress wf_CatchBlockPointer wf_control wf_StackCacheBase
  wf_ArrayEventCount wf_ListCacheLength wf_StructureCacheLength wf_BindingStackPointer
  wf_BindingStackLimit wf_PreemptRegister wf_AluAndRotateControl wf_RotateLatch
  wf_EphemeralOldspaceRegister wf_ZoneOldspaceRegister wf_ControlStackLimit
  wf_ControlStackExtraLimit wf_DynamicBindingCacheBase wf_DynamicBindingCacheMask
  wf_FEPModeTrapVectorAddress wf_MappingTableCache wf_MappingTableLength wf_instruction_count
  wf_pc wf_immediate wf_CommandRegister wf_AddressRegister wf_ExtentRegister wf_AttributesRegister
  wf_DestinationRegister wf_DataRegister wf_s_ps wf_s_regs wf_s_VM wf_trap_vma wf_trap_microstate
  wf_memory_vma wf_cl_pc wf_cl_next_pc wf_cl_operand wf_cl_instruction : vlm_range.

(** A state, a processor and a register file with one component replaced. *)
Ltac wf_split := intros; constructor; simpl; eauto with vlm_range.

(** *** Assignments to one field *)

Lemma wf_set_ps_sp x p : wf_ps p -> wf_ps (set_ps_sp x p).
Proof. wf_split. Qed.
Lemma wf_set_ps_restartsp x p : wf_ps p -> wf_ps (set_ps_restartsp x p).
Proof. wf_split. Qed.
Lemma wf_set_ps_fp x p : wf_ps p -> wf_ps (set_ps_fp x p).
Proof. wf_split. Qed.
Lemma wf_set_ps_lp x p : wf_ps p -> wf_ps (set_ps_lp x p).
Proof. wf_split. Qed.
Lemma wf_set_ps_pc x p : wf_obj x -> wf_ps p -> wf_ps (set_ps_pc x p).
Proof. wf_split. Qed.
Lemma wf_set_continuation x p : wf_obj x -> wf_ps p -> wf_ps (set_continuation x p).
Proof. wf_split. Qed.
Lemma wf_set_InstructionCache x p : map_Forall (fun i l => 0 <= i < InstructionCacheSize /\ wf_line l) x -> wf_ps p -> wf_ps (set_InstructionCache x p).
Proof. wf_split. Qed.
Lemma wf_set_StackCache x p : Forall wf_obj x -> length x = 1024%nat -> wf_ps p -> wf_ps (set_StackCache x p).
Proof. wf_split. Qed.
Lemma wf_set_StackCacheLimit x p : wf_ps p -> wf_ps (set_StackCacheLimit x p).
Proof. wf_split. Qed.
Lemma wf_set_bar x p : Forall wf_obj x -> wf_ps p -> wf_ps (set_bar x p).
Proof. wf_split. Qed.
Lemma wf_set_ListCacheArea x p : wf_obj x -> wf_ps p -> wf_ps (set_ListCacheArea x p).
Proof. wf_split. Qed.
Lemma wf_set_ListCacheAddress x p : wf_obj x -> wf_ps p -> wf_ps (set_ListCacheAddress x p).
Proof. wf_split. Qed.
Lemma wf_set_StructureCacheArea x p : wf_obj x -> wf_ps p -> wf_ps (set_StructureCacheArea x p).
Proof. wf_split. Qed.
Lemma wf_set_StructureCacheAddress x p : wf_obj x -> wf_ps p -> wf_ps (set_StructureCacheAddress x p).
Proof. wf_split. Qed.
Lemma wf_set_CatchBlockPointer x p : wf_obj x -> wf_ps p -> wf_ps (set_CatchBlockPointer x p).
Proof. wf_split. Qed.
Lemma wf_set_control x p : is_u32 x -> wf_ps p -> wf_ps (set_control x p).
Proof. wf_split. Qed.
Lemma wf_set_StackCacheBase x p : is_u32 x -> wf_ps p -> wf_ps (set_StackCacheBase x p).
Proof. wf_split. Qed.
Lemma wf_set_ArrayEventCount x p : is_u32 x -> wf_ps p -> wf_ps (set_ArrayEventCount x p).
Proof. wf_split. Qed.
Lemma wf_set_ListCacheLength x p : is_u32 x -> wf_ps p -> wf_ps (set_ListCacheLength x p).
Proof. wf_split. Qed.
Lemma wf_set_StructureCacheLength x p : is_u32 x -> wf_ps p -> wf_ps (set_StructureCacheLength x p).
Proof. wf_split. Qed.
Lemma wf_set_BindingStackPointer x p : is_u32 x -> wf_ps p -> wf_ps (set_BindingStackPointer x p).
Proof. wf_split. Qed.
Lemma wf_set_BindingStackLimit x p : is_u32 x -> wf_ps p -> wf_ps (set_BindingStackLimit x p).
Proof. wf_split. Qed.
Lemma wf_set_DeepBoundP x p : wf_ps p -> wf_ps (set_DeepBoundP x p).
Proof. wf_split. Qed.
Lemma wf_set_PreemptRegister x p : is_u32 x -> wf_ps p -> wf_ps (set_PreemptRegister x p).
Proof. wf_split. Qed.
Lemma wf_set_AluAndRotateControl x p : is_u32 x -> wf_ps p -> wf_ps (set_AluAndRotateControl x p).
Proof. wf_split. Qed.
Lemma wf_set_AluOp x p : wf_ps p -> wf_ps (set_AluOp x p).
Proof. wf_split. Qed.
Lemma wf_set_ByteSize x p : wf_ps p -> wf_ps (set_ByteSize x p).
Proof. wf_split. Qed.
Lemma wf_set_ByteRotate x p : wf_ps p -> wf_ps (set_ByteRotate x p).
Proof. wf_split. Qed.
Lemma wf_set_RotateLatch x p : is_u32 x -> wf_ps p -> wf_ps (set_RotateLatch x p).
Proof. wf_split. Qed.
Lemma wf_set_ALUOverflow x p : wf_ps p -> wf_ps (set_ALUOverflow x p).
Proof. wf_split. Qed.
Lemma wf_set_ALUBorrow x p : wf_ps p -> wf_ps (set_ALUBorrow x p).
Proof. wf_split. Qed.
Lemma wf_set_ALULessThan x p : wf_ps p -> wf_ps (set_ALULessThan x p).
Proof. wf_split. Qed.
Lemma wf_set_EphemeralOldspaceRegister x p : is_u32 x -> wf_ps p -> wf_ps (set_EphemeralOldspaceRegister x p).
Proof. wf_split. Qed.
Lemma wf_set_ZoneOldspaceRegister x p : is_u32 x -> wf_ps p -> wf_ps (set_ZoneOldspaceRegister x p).
Proof. wf_split. Qed.
Lemma wf_set_ControlStackLimit x p : is_u32 x -> wf_ps p -> wf_ps (set_ControlStackLimit x p).
Proof. wf_split. Qed.
Lemma wf_set_ControlStackExtraLimit x p : is_u32 x -> wf_ps p -> wf_ps (set_ControlStackExtraLimit x p).
Proof. wf_split. Qed.
Lemma wf_set_DynamicBindingCacheBase x p : is_u32 x -> wf_ps p -> wf_ps (set_DynamicBindingCacheBase x p).
Proof. wf_split. Qed.
Lemma wf_set_DynamicBindingCacheMask x p : is_u32 x -> wf_ps p -> wf_ps (set_DynamicBindingCacheMask x p).
Proof. wf_split. Qed.
Lemma wf_set_FEPModeTrapVectorAddress x p : is_u32 x -> wf_ps p -> wf_ps (set_FEPModeTrapVectorAddress x p).
Proof. wf_split. Qed.
Lemma wf_set_MappingTableCache x p : is_u32 x -> wf_ps p -> wf_ps (set_MappingTableCache x p).
Proof. wf_split. Qed.
Lemma wf_set_MappingTableLength x p : is_u32 x -> wf_ps p -> wf_ps (set_MappingTableLength x p).
Proof. wf_split. Qed.
Lemma wf_set_running x p : wf_ps p -> wf_ps (set_running x p).
Proof. wf_split. Qed.
Lemma wf_set_instruction_count x p : is_u32 x -> wf_ps p -> wf_ps (set_instruction_count x p).
Proof. wf_split. Qed.
Lemma wf_set_sp x r : wf_regs r -> wf_regs (set_sp x r).
Proof. wf_split. Qed.
Lemma wf_set_restartsp x r : wf_regs r -> wf_regs (set_restartsp x r).
Proof. wf_split. Qed.
Lemma wf_set_fp x r : wf_regs r -> wf_regs (set_fp x r).
Proof. wf_split. Qed.
Lemma wf_set_lp x r : wf_regs r -> wf_regs (set_lp x r).
Proof. wf_split. Qed.
Lemma wf_set_pc x r : wf_obj x -> wf_regs r -> wf_regs (set_pc x r).
Proof. wf_split. Qed.
Lemma wf_set_cp x r : wf_regs r -> wf_regs (set_cp x r).
Proof. wf_split. Qed.
Lemma wf_set_op2 x r : wf_regs r -> wf_regs (set_op2 x r).
Proof. wf_split. Qed.
Lemma wf_set_immediate x r : wf_obj x -> wf_regs r -> wf_regs (set_immediate x r).
Proof. wf_split. Qed.
Lemma wf_set_CommandRegister x v : is_u32 x -> wf_VM v -> wf_VM (set_CommandRegister x v).
Proof. wf_split. Qed.
Lemma wf_set_AddressRegister x v : is_u32 x -> wf_VM v -> wf_VM (set_AddressRegister x v).
Proof. wf_split. Qed.
Lemma wf_set_ExtentRegister x v : is_u32 x -> wf_VM v -> wf_VM (set_ExtentRegister x v).
Proof. wf_split. Qed.
Lemma wf_set_AttributesRegister x v : is_u32 x -> wf_VM v -> wf_VM (set_AttributesRegister x v).
Proof. wf_split. Qed.
Lemma wf_set_DestinationRegister x v : is_u32 x -> wf_VM v -> wf_VM (set_DestinationRegister x v).
Proof. wf_split. Qed.
Lemma wf_set_DataRegister x v : wf_obj x -> wf_VM v -> wf_VM (set_DataRegister x v).
Proof. wf_split. Qed.
Lemma wf_set_cl_pc x l : wf_obj x -> wf_line l -> wf_line (set_cl_pc x l).
Proof. wf_split. Qed.
Lemma wf_set_cl_next_pc x l : wf_obj x -> wf_line l -> wf_line (set_cl_next_pc x l).
Proof. wf_split. Qed.
Lemma wf_set_cl_code x l : wf_line l -> wf_line (set_cl_code x l).
Proof. wf_split. Qed.
Lemma wf_set_cl_operand x l : is_s32 x -> wf_line l -> wf_line (set_cl_operand x l).
Proof. wf_split. Qed.
Lemma wf_set_cl_instruction x l : is_u32 x -> wf_line l -> wf_line (set_cl_instruction x l).
Proof. wf_split. Qed.
Lemma wf_set_cl_next_cp x l : wf_line l -> wf_line (set_cl_next_cp x l).
Proof. wf_split. Qed.
#[export] Hint Resolve wf_set_ps_sp wf_set_ps_restartsp wf_set_ps_fp wf_set_ps_lp wf_set_ps_pc 
  wf_set_continuation wf_set_InstructionCache wf_set_StackCache wf_set_StackCacheLimit 
  wf_set_bar wf_set_ListCacheArea wf_set_ListCacheAddress wf_set_StructureCacheArea 
  wf_set_StructureCacheAddress wf_set_CatchBlockPointer wf_set_control wf_set_StackCacheBase 
  wf_set_ArrayEventCount wf_set_ListCacheLength wf_set_StructureCacheLength 
  wf_set_BindingStackPointer wf_set_BindingStackLimit wf_set_DeepBoundP wf_set_PreemptRegister 
  wf_set_AluAndRotateControl wf_set_AluOp wf_set_ByteSize wf_set_ByteRotate wf_set_RotateLatch 
  wf_set_ALUOverflow wf_set_ALUBorrow wf_set_ALULessThan wf_set_EphemeralOldspaceRegister 
  wf_set_ZoneOldspaceRegister wf_set_ControlStackLimit wf_set_ControlStackExtraLimit 
  wf_set_DynamicBindingCacheBase wf_set_DynamicBindingCacheMask wf_set_FEPModeTrapVectorAddress 
  wf_set_MappingTableCache wf_set_MappingTableLength wf_set_running wf_set_instruction_count 
  wf_set_sp wf_set_restartsp wf_set_fp wf_set_lp wf_set_pc wf_set_cp wf_set_op2 
  wf_set_immediate wf_set_CommandRegister wf_set_AddressRegister wf_set_ExtentRegister 
  wf_set_AttributesRegister wf_set_DestinationRegister wf_set_DataRegister wf_set_cl_pc 
  wf_set_cl_next_pc wf_set_cl_code wf_set_cl_operand wf_set_cl_instruction wf_set_cl_next_cp : vlm_range.

Lemma wf_upd_ps f s : (forall p, wf_ps p -> wf_ps (f p)) -> wf_state s -> wf_state (upd_ps f s).
Proof. intros Hf []. constructor; simpl; auto. Qed.
Lemma wf_upd_regs f s : (forall r, wf_regs r -> wf_regs (f r)) -> wf_state s -> wf_state (upd_regs f s).
Proof. intros Hf []. constructor; simpl; auto. Qed.
Lemma wf_upd_VM f s : (forall v, wf_VM v -> wf_VM (f v)) -> wf_state s -> wf_state (upd_VM f s).
Proof. intros Hf []. constructor; simpl; auto. Qed.

(** ** Well-formed values *)

(** What a computation that preserves the invariant may return, by type. *)
Class Wf (A : Type) := wfv : A -> Prop.

#[export] Instance Wf_unit : Wf unit := fun _ => True.
#[export] Instance Wf_bool : Wf bool := fun _ => True.
#[export] Instance Wf_Z : Wf Z := fun _ => True.
#[export] Instance Wf_Goto : Wf Goto := fun _ => True.
#[export] Instance Wf_Label : Wf Label := fun _ => True.
#[export] Instance Wf_Pull : Wf Pull := fun _ => True.
#[export] Instance Wf_LispObj : Wf LispObj := wf_obj.
#[export] Instance Wf_line : Wf InstructionCacheLine := wf_line.
#[export] Instance Wf_prod {A B} `{Wf A} `{Wf B} : Wf (A * B) := fun x => wfv x.1 /\ wfv x.2.
#[export] Instance Wf_option {A} `{Wf A} : Wf (option A) :=
  fun o => match o with Some a => wfv a | None => True end.
#[export] Instance Wf_sum {A B} `{Wf A} `{Wf B} : Wf (A + B) :=
  fun x => match x with inl a => wfv a | inr b => wfv b end.

(** [ok m]: [m] preserves the invariant and returns a well-formed value. *)
Abbreviation ok m := (returns wf_state m wfv).

(** A destination that can be stored through. *)
Definition ok_dest (d : Dest) : Prop := forall o, wf_obj o -> ok (d o).
