(* ===== verification/Preservation.v ===== *)
(** Preservation of the invariant: one lemma per operation of the model, by a tactic
    that follows the structure of the monadic code. *)

From S2P Require Export Invariant.
#[local] Open Scope vlm_scope.

(** ** Leaves *)

Lemma ok_gets {A} (f : MachineState -> A) :
  returns wf_state (gets f) (fun a => exists s, wf_state s /\ a = f s).
Proof. apply returns_gets. eauto. Qed.
Lemma ok_get_ps {A} (f : ProcessorState -> A) :
  returns wf_state (get_ps f) (fun a => exists p, wf_ps p /\ a = f p).
Proof. apply returns_gets. eauto with vlm_range. Qed.
Lemma ok_get_reg {A} (f : Registers -> A) :
  returns wf_state (get_reg f) (fun a => exists r, wf_regs r /\ a = f r).
Proof. apply returns_gets. eauto with vlm_range. Qed.

Lemma ok_assign_ps f : (forall p, wf_ps p -> wf_ps (f p)) -> ok (assign_ps f).
Proof. intros H. apply returns_modify; [|done]. intros s. by apply wf_upd_ps. Qed.
Lemma ok_assign_regs f : (forall r, wf_regs r -> wf_regs (f r)) -> ok (assign_regs f).
Proof. intros H. apply returns_modify; [|done]. intros s. by apply wf_upd_regs. Qed.
Lemma ok_assign_VM f : (forall v, wf_VM v -> wf_VM (f v)) -> ok (assign_VM f).
Proof. intros H. apply returns_modify; [|done]. intros s. by apply wf_upd_VM. Qed.
Lemma ok_modify f : (forall s, wf_state s -> wf_state (f s)) -> ok (modify f).
Proof. intros H. by apply returns_modify. Qed.

Lemma ok_ret {A} `{Wf A} (a : A) : wfv a -> ok (ret a).
Proof. apply returns_ret. Qed.

Lemma ok_loop {A B} `{Wf A, Wf B} n (body : A -> Emu (A + B)) a :
  (forall a, wfv a -> ok (body a)) -> wfv a -> ok (loop n body a).
Proof.
  intros Hb Ha. apply (returns_loop _ _ _ _ wfv); [|done].
  intros a' Ha'. eapply returns_weaken; [by apply Hb|]. by intros [].
Qed.

(** ** The tactic *)

(** Open the facts a leaf has returned. *)
Ltac wf_intro :=
  repeat match goal with
  | H : exists _, _ /\ _ = _ |- _ => destruct H as [? [? ->]]
  | H : _ /\ _ |- _ => destruct H
  end.

Ltac wf_unfold := cbv beta iota delta [wfv Wf_unit Wf_bool Wf_Z Wf_Goto Wf_Label Wf_Pull
  Wf_LispObj Wf_line Wf_prod Wf_option Wf_sum fst snd] in * |-.
Ltac wf_side := wf_unfold; cbv beta iota delta [wfv Wf_unit Wf_bool Wf_Z Wf_Goto Wf_Label Wf_Pull
  Wf_LispObj Wf_line Wf_prod Wf_option Wf_sum fst snd]; solve [ repeat match goal with
    | |- _ /\ _ => split
    | |- match (if ?b then _ else _) with _ => _ end => destruct b
    end; eauto 12 with vlm_range ].

Ltac head t := match t with ?f _ => head f | _ => t end.

(** Follow the code: a bind whose first part has a lemma, or that has none. *)
Ltac ok_step :=
  lazymatch goal with
  | |- returns wf_state (bind _ _) _ =>
      first
        [ eapply returns_bind; [ first [ apply ok_get_ps | apply ok_get_reg | apply ok_gets ] | ]
        | eapply returns_bind; [ solve [ eauto 12 with vlm_inv vlm_range ] | ]
        | apply (returns_bind _ _ _ wfv) ];
      [ .. | intros; wf_unfold; wf_intro; cbv beta ]
  | |- returns wf_state (loop _ _ _) _ =>
      apply ok_loop; [intros; wf_unfold; wf_intro; cbv beta | try wf_side]
  | |- returns wf_state (ret _) _ => apply returns_ret; try wf_side
  | |- returns wf_state (gets _) _ => apply returns_gets; intros; try wf_side
  | |- returns wf_state (get_ps _) _ => apply returns_gets; intros; try wf_side
  | |- returns wf_state (get_reg _) _ => apply returns_gets; intros; try wf_side
  | |- returns wf_state undefined _ => apply returns_undefined
  | |- returns wf_state out_of_fuel _ => apply returns_out_of_fuel
  | |- returns wf_state (c_exit _) _ => apply returns_exit
  | |- returns wf_state (longjmp _) _ => apply returns_longjmp
  | |- returns wf_state (when _ _) _ => apply returns_when; [ | exact I ]
  | |- returns wf_state (let _ := _ in _) _ => cbv zeta
  | |- returns wf_state (match ?x with _ => _ end) _ =>
      first [ apply returns_if | destruct x; wf_unfold; wf_intro ]
  | |- returns wf_state ?m _ =>
      first [ solve [ eauto 12 with vlm_inv vlm_range ]
            | let h := head m in progress unfold h; cbv beta ]
  end.

Ltac ok_all := intros; cbv zeta; repeat (ok_step; cbv zeta).

(** ** Machine.v *)

Lemma wf_trap_vma_set d s : wf_state s -> wf_state (set_trap_vma (set_DATA d (trap_vma s)) s).
Proof. wf_split. Qed.
Lemma wf_trap_microstate_set d s :
  wf_state s -> wf_state (set_trap_microstate (set_DATA d (trap_microstate s)) s).
Proof. wf_split. Qed.
Lemma wf_set_suspend n s : wf_state s -> wf_state (set_suspend n s).
Proof. wf_split. Qed.
Lemma wf_set_run b s : wf_state s -> wf_state (set_run b s).
Proof. wf_split. Qed.
Lemma wf_set_interrupts n s : wf_state s -> wf_state (set_interrupts_sent n s).
Proof. wf_split. Qed.
Lemma wf_set_memory_vma n s : is_u32 n -> wf_state s -> wf_state (set_memory_vma n s).
Proof. wf_split. Qed.
#[export] Hint Resolve wf_trap_vma_set wf_trap_microstate_set wf_set_suspend wf_set_run
  wf_set_interrupts wf_set_memory_vma : vlm_range.
#[export] Hint Resolve ok_assign_ps ok_assign_regs ok_assign_VM ok_modify : vlm_inv.

Lemma ok_TakeMemoryTrap {A} `{Wf A} v a : ok ((TakeMemoryTrap v a) : Emu A).
Proof. ok_all. Qed.
Lemma ok_TakeIllegalOperandTrap {A} `{Wf A} m o : ok ((TakeIllegalOperandTrap m o) : Emu A).
Proof. ok_all. Qed.
Lemma ok_TakeInstructionExceptionTrap {A} `{Wf A} : ok (TakeInstructionExceptionTrap : Emu A).
Proof. unfold TakeInstructionExceptionTrap. ok_all. Qed.
Lemma ok_segv_handler {A} `{Wf A} : ok (segv_handler : Emu A).
Proof. ok_all. Qed.
#[export] Hint Resolve ok_TakeMemoryTrap ok_TakeIllegalOperandTrap ok_TakeInstructionExceptionTrap
  ok_segv_handler : vlm_inv.

Lemma ok_ProcessSuspend : ok ProcessSuspend.
Proof. ok_all. Qed.
#[export] Hint Resolve ok_ProcessSuspend : vlm_inv.
Lemma ok_AllowSequenceBreaks : ok AllowSequenceBreaks.
Proof. ok_all. Qed.
#[export] Hint Resolve ok_AllowSequenceBreaks : vlm_inv.

Lemma wf_upd_Z {A} (P : A -> Prop) l i x : Forall P l -> P x -> Forall P (upd_Z l i x).
Proof. apply Forall_upd_Z. Qed.

Lemma wf_set_StackCache_upd i o p : wf_obj o -> wf_ps p ->
  wf_ps (set_StackCache (upd_Z (StackCache p) i o) p).
Proof.
  intros Ho Hp. apply wf_set_StackCache; [|by rewrite upd_Z_length; apply wf_stack_length|done].
  apply wf_upd_Z; [by apply wf_stack | done].
Qed.

Lemma ok_stack_get i : ok (stack_get i).
Proof.
  unfold stack_get. ok_step. apply returns_of_option. intros o Ho.
  eapply Forall_nth_Z; [|exact Ho]. by apply wf_stack.
Qed.

Lemma ok_stack_put i o : wf_obj o -> ok (stack_put i o).
Proof.
  intros Ho s Hs. unfold stack_put, get_ps. rewrite run_bind_gets.
  destruct (in_bounds _ _); [|by split]. split; [|by intros []].
  apply (wf_upd_ps (fun p => set_StackCache _ p)); [|done].
  intros p Hp. apply wf_set_StackCache; [..|done].
  - apply wf_upd_Z; [|done]. by apply wf_stack, wf_s_ps.
  - rewrite upd_Z_length. by apply wf_stack_length, wf_s_ps.
Qed.
#[export] Hint Resolve ok_stack_get ok_stack_put : vlm_inv.

Lemma ok_to_local : ok_dest to_local.
Proof. intros o Ho. ok_all. Qed.
Lemma ok_to_stack i : ok_dest (to_stack i).
Proof. intros o Ho. by apply ok_stack_put. Qed.
#[export] Hint Resolve ok_to_local ok_to_stack : vlm_inv.
Lemma ok_dest_apply d o : ok_dest d -> wf_obj o -> ok (d o).
Proof. auto. Qed.
#[export] Hint Resolve ok_dest_apply : vlm_inv.

Lemma ok_stack_set_TAG i t : ok (stack_set_TAG i t).
Proof. ok_all. Qed.
Lemma ok_stack_set_DATA i d : ok (stack_set_DATA i d).
Proof. ok_all. Qed.
Lemma ok_operand_get op : ok (operand_get op).
Proof. ok_all. Qed.
#[export] Hint Resolve ok_stack_set_TAG ok_stack_set_DATA ok_operand_get : vlm_inv.
Lemma ok_operand_put op o : wf_obj o -> ok (operand_put op o).
Proof. ok_all. Qed.
Lemma ok_operand_index `{Environment} op : ok (operand_index op).
Proof. ok_all. Qed.
Lemma ok_sp_get k : ok (sp_get k).
Proof. ok_all. Qed.
Lemma ok_sp_put k o : wf_obj o -> ok (sp_put k o).
Proof. ok_all. Qed.
Lemma ok_fp_get k : ok (fp_get k).
Proof. ok_all. Qed.
Lemma ok_sp_add n : ok (sp_add n).
Proof. ok_all. Qed.
Lemma ok_sp_set_DATA k d : ok (sp_set_DATA k d).
Proof. ok_all. Qed.
Lemma ok_sp_set_TAG k d : ok (sp_set_TAG k d).
Proof. ok_all. Qed.
#[export] Hint Resolve ok_operand_put ok_operand_index ok_sp_get ok_sp_put ok_fp_get ok_sp_add
  ok_sp_set_DATA ok_sp_set_TAG : vlm_inv.

Lemma ok_PushObject o : wf_obj o -> ok (PushObject o).
Proof. ok_all. Qed.
Lemma ok_PushConstant t d : ok (PushConstant t d).
Proof. ok_all. Qed.
Lemma ok_PushFixnum n : ok (PushFixnum n).
Proof. ok_all. Qed.
Lemma ok_PushNIL : ok PushNIL.
Proof. ok_all. Qed.
Lemma ok_PushT : ok PushT.
Proof. ok_all. Qed.
#[export] Hint Resolve ok_PushObject ok_PushConstant ok_PushFixnum ok_PushNIL ok_PushT : vlm_inv.
Lemma ok_PushPredicate b : ok (PushPredicate b).
Proof. ok_all. Qed.
Lemma ok_PopObject : ok PopObject.
Proof. ok_all. Qed.
Lemma ok_SetObject o : wf_obj o -> ok (SetObject o).
Proof. ok_all. Qed.
Lemma ok_SetFixnum n : ok (SetFixnum n).
Proof. ok_all. Qed.
Lemma ok_SetConstant t d : ok (SetConstant t d).
Proof. ok_all. Qed.
Lemma ok_SetPredicate b : ok (SetPredicate b).
Proof. ok_all. Qed.
Lemma ok_SetNIL : ok SetNIL.
Proof. ok_all. Qed.
Lemma ok_SetT : ok SetT.
Proof. ok_all. Qed.
#[export] Hint Resolve ok_PushPredicate ok_PopObject ok_SetObject ok_SetFixnum ok_SetConstant
  ok_SetPredicate ok_SetNIL ok_SetT : vlm_inv.

Lemma ok_DecacheRegisters : ok DecacheRegisters.
Proof. ok_all. Qed.
Lemma ok_EncacheRegisters : ok EncacheRegisters.
Proof. ok_all. Qed.
#[export] Hint Resolve ok_DecacheRegisters ok_EncacheRegisters : vlm_inv.

Lemma ok_current_line : ok current_line.
Proof.
  unfold current_line. ok_step. destruct (cp _) as [i| |].
  - ok_step. apply returns_of_option. intros l Hl.
    match goal with H : wf_ps _ |- _ => by apply (wf_cache _ H) in Hl as [_ ?] end.
  - apply returns_ret. constructor; simpl; eauto with vlm_range; split; lia.
  - apply returns_undefined.
Qed.
#[export] Hint Resolve ok_current_line : vlm_inv.

Lemma ok_cp_operand : returns wf_state cp_operand is_s32.
Proof. ok_all. Qed.
Lemma ok_cp_instruction : returns wf_state cp_instruction is_u32.
Proof. ok_all. Qed.
Lemma ok_cp_next_pc : ok cp_next_pc.
Proof. ok_all. Qed.
#[export] Hint Resolve ok_cp_operand ok_cp_instruction ok_cp_next_pc : vlm_inv.

Lemma ok_AddressImmediateOperand : ok AddressImmediateOperand.
Proof. ok_all. Qed.
Lemma ok_AddressSPOperand : ok AddressSPOperand.
Proof. ok_all. Qed.
Lemma ok_AddressFPOperand : ok AddressFPOperand.
Proof. ok_all. Qed.
Lemma ok_AddressLPOperand : ok AddressLPOperand.
Proof. ok_all. Qed.
Lemma ok_AddressPopOperand : ok AddressPopOperand.
Proof. ok_all. Qed.
Lemma ok_op2_get : ok op2_get.
Proof. ok_all. Qed.
Lemma ok_op2_put o : wf_obj o -> ok (op2_put o).
Proof. ok_all. Qed.
#[export] Hint Resolve ok_AddressImmediateOperand ok_AddressSPOperand ok_AddressFPOperand
  ok_AddressLPOperand ok_AddressPopOperand ok_op2_get ok_op2_put : vlm_inv.

(** ** VMem.v *)

Lemma wf_set_VMAttributeTable k a s :
  is_u8 a -> wf_state s -> wf_state (set_VMAttributeTable (<[k := a]> (VMAttributeTable s)) s).
Proof. wf_split. by apply map_Forall_insert_2; [|apply wf_attributes]. Qed.
Lemma wf_set_DataSpace k d s :
  is_u32 d -> wf_state s -> wf_state (set_DataSpace (<[k := d]> (DataSpace s)) s).
Proof. wf_split. by apply map_Forall_insert_2; [|apply wf_DataSpace]. Qed.
Lemma wf_set_TagSpace k d s :
  is_u8 d -> wf_state s -> wf_state (set_TagSpace (<[k := d]> (TagSpace s)) s).
Proof. wf_split. by apply map_Forall_insert_2; [|apply wf_TagSpace]. Qed.
Lemma is_u8_const n : (0 <=? n) && (n <? 2 ^ 8) = true -> is_u8 n.
Proof. unfold is_u8. intros H%andb_true_iff. lia. Qed.
#[export] Hint Resolve wf_set_VMAttributeTable wf_set_DataSpace wf_set_TagSpace : vlm_range.
#[export] Hint Extern 3 (is_u8 ?n) => (apply is_u8_const; reflexivity) : vlm_range.

Lemma ok_SetCreated v : ok (SetCreated v).
Proof. ok_all. Qed.
Lemma ok_ClearCreated v : ok (ClearCreated v).
Proof. ok_all. Qed.
Lemma ok_store_data v d : ok (store_data v d).
Proof. ok_all. Qed.
Lemma ok_store_tag v d : ok (store_tag v d).
Proof. ok_all. Qed.
Lemma ok_set_mem_vma v : ok (set_mem_vma v).
Proof. ok_all. Qed.
Lemma ok_touch v : ok (touch v).
Proof. ok_all. Qed.
#[export] Hint Resolve ok_SetCreated ok_ClearCreated ok_store_data ok_store_tag ok_set_mem_vma
  ok_touch : vlm_inv.

Lemma ok_clear_pages b n : ok (clear_pages b n).
Proof.
  apply ok_modify. wf_split; intros k x [Hk _]%map_lookup_filter_Some;
    [by eapply wf_DataSpace | by eapply wf_TagSpace].
Qed.
#[export] Hint Resolve ok_clear_pages : vlm_inv.

Lemma wf_fetch s v : wf_state s -> wf_obj (fetch s v).
Proof.
  intros H. unfold fetch, word_at. split; simpl.
  - destruct (TagSpace s !! v) eqn:E; simpl; [|split; lia].
    apply (wf_TagSpace _ H) in E. unfold is_u8, is_u32 in *. lia.
  - destruct (DataSpace s !! v) eqn:E; simpl; [|split; lia]. by apply (wf_DataSpace _ H) in E.
Qed.
#[export] Hint Resolve wf_fetch : vlm_range.

Section vmem.
Context {env : Environment}.

Lemma ok_EnsureVirtualAddress v : ok (EnsureVirtualAddress v).
Proof. ok_all. Qed.
Lemma ok_ensure_missing f n p v : ok (ensure_missing f n p v).
Proof. revert n p v. induction f; ok_all. Qed.
Lemma ok_ensure_skip f p v a : ok (ensure_skip f p v a).
Proof. revert p v a. induction f; ok_all. Qed.
Hint Resolve ok_ensure_missing ok_ensure_skip : vlm_inv.
Lemma ok_ensure_runs f p v a : ok (ensure_runs f p v a).
Proof. revert p v a. induction f; ok_all. Qed.
Hint Resolve ok_ensure_runs : vlm_inv.
Lemma ok_EnsureVirtualAddressRange v c : ok (EnsureVirtualAddressRange v c).
Proof. ok_all. Qed.
Lemma ok_DestroyVirtualAddress v : ok (DestroyVirtualAddress v).
Proof. ok_all. Qed.
Hint Resolve ok_DestroyVirtualAddress : vlm_inv.
Lemma ok_destroy_pages n v : ok (destroy_pages n v).
Proof. revert v. induction n; ok_all. Qed.
Hint Resolve ok_destroy_pages : vlm_inv.
Lemma ok_DestroyVirtualAddressRange v c : ok (DestroyVirtualAddressRange v c).
Proof. ok_all. Qed.
End vmem.
#[export] Hint Resolve ok_EnsureVirtualAddressRange ok_DestroyVirtualAddressRange : vlm_inv.

Lemma ok_VirtualMemoryRead v d : ok_dest d -> ok (VirtualMemoryRead v d).
Proof. ok_all. Qed.
Lemma ok_VirtualMemoryWrite v o : ok (VirtualMemoryWrite v o).
Proof. ok_all. Qed.
Lemma ok_read_block n v k d : (forall i, ok_dest (d i)) -> ok (read_block n v k d).
Proof. intros Hd. revert v k. induction n; ok_all. Qed.
Lemma ok_write_block n v k f : (forall i, ok (f i)) -> ok (write_block n v k f).
Proof. intros Hd. revert v k. induction n; ok_all. Qed.
#[export] Hint Resolve ok_VirtualMemoryRead ok_VirtualMemoryWrite ok_read_block ok_write_block : vlm_inv.
Lemma ok_VirtualMemoryReadBlock v d c : (forall i, ok_dest (d i)) -> ok (VirtualMemoryReadBlock v d c).
Proof. ok_all. Qed.
Lemma ok_VirtualMemoryWriteBlock v f c : (forall i, ok (f i)) -> ok (VirtualMemoryWriteBlock v f c).
Proof. ok_all. Qed.
Lemma ok_fill_tags n v t : ok (fill_tags n v t).
Proof. revert v. induction n; ok_all. Qed.
Lemma ok_fill_zero n v : ok (fill_zero n v).
Proof. revert v. induction n; ok_all. Qed.
Lemma ok_fill_data n v d i : ok (fill_data n v d i).
Proof. revert v d. induction n; ok_all. Qed.
#[export] Hint Resolve ok_VirtualMemoryReadBlock ok_VirtualMemoryWriteBlock ok_fill_tags ok_fill_zero
  ok_fill_data : vlm_inv.
Lemma ok_VirtualMemoryWriteBlockConstant v o c i : ok (VirtualMemoryWriteBlockConstant v o c i).
Proof. ok_all. Qed.
#[export] Hint Resolve ok_VirtualMemoryWriteBlockConstant : vlm_inv.

(** ** MemAccess.v *)

Lemma ok_ReadVirtualMemory v d : ok_dest d -> ok (ReadVirtualMemory v d).
Proof. ok_all. Qed.
Lemma ok_WriteVirtualMemory v o : wf_obj o -> ok (WriteVirtualMemory v o).
Proof. ok_all. Qed.
#[export] Hint Resolve ok_ReadVirtualMemory ok_WriteVirtualMemory : vlm_inv.
Lemma ok_read_words n v k d : (forall i, ok_dest (d i)) -> ok (read_words n v k d).
Proof. intros Hd. revert v k. induction n; ok_all. Qed.
Lemma ok_write_words n v k f : (forall i, ok (f i)) -> ok (write_words n v k f).
Proof. intros Hd. revert v k. induction n; ok_all. Qed.
#[export] Hint Resolve ok_read_words ok_write_words : vlm_inv.
Lemma ok_ReadVirtualMemoryBlock v d c : (forall i, ok_dest (d i)) -> ok (ReadVirtualMemoryBlock v d c).
Proof. ok_all. Qed.
Lemma ok_WriteVirtualMemoryBlock v f c : (forall i, ok (f i)) -> ok (WriteVirtualMemoryBlock v f c).
Proof. ok_all. Qed.

Lemma copy_page_wf d s l : (d < 4)%nat -> (s < 4)%nat -> length l = 1024%nat -> Forall wf_obj l ->
  length (copy_page d s l) = 1024%nat /\ Forall wf_obj (copy_page d s l).
Proof.
  intros Hd Hs Hl Hw. unfold copy_page. split.
  - rewrite !length_app, !length_take, !length_drop. lia.
  - rewrite !Forall_app. repeat split; by repeat first [apply Forall_take | apply Forall_drop].
Qed.

Lemma scroll_wf (f : list LispObj -> nat -> list LispObj) l :
  (forall l i, (i < 3)%nat -> length l = 1024%nat -> Forall wf_obj l ->
     length (f l i) = 1024%nat /\ Forall wf_obj (f l i)) ->
  length l = 1024%nat -> Forall wf_obj l ->
  length (fold_left f scroll_subscripts l) = 1024%nat
  /\ Forall wf_obj (fold_left f scroll_subscripts l).
Proof.
  intros Hf H1 H2. simpl.
  destruct (Hf l 2%nat ltac:(lia) H1 H2) as [H3 H4].
  destruct (Hf _ 1%nat ltac:(lia) H3 H4) as [H5 H6].
  apply (Hf _ 0%nat ltac:(lia) H5 H6).
Qed.

Lemma wf_scroll_up p : wf_ps p -> wf_ps (set_StackCache (scroll_up_pages (StackCache p)) p).
Proof.
  intros H. destruct (scroll_wf (fun l i => copy_page i (S i) l) (StackCache p)) as [H1 H2].
  - intros l i Hi. apply copy_page_wf; lia.
  - by apply wf_stack_length.
  - by apply wf_stack.
  - by apply wf_set_StackCache.
Qed.
Lemma wf_scroll_down p : wf_ps p -> wf_ps (set_StackCache (scroll_down_pages (StackCache p)) p).
Proof.
  intros H. destruct (scroll_wf (fun l i => copy_page (S i) i l) (StackCache p)) as [H1 H2].
  - intros l i Hi. apply copy_page_wf; lia.
  - by apply wf_stack_length.
  - by apply wf_stack.
  - by apply wf_set_StackCache.
Qed.
Lemma wf_move_frame n p : wf_ps p -> wf_ps (move_frame n p).
Proof. intros H. unfold move_frame. eauto 12 with vlm_range. Qed.
#[export] Hint Resolve wf_scroll_up wf_scroll_down wf_move_frame : vlm_range.

Lemma ok_StackCacheScrollUp : ok StackCacheScrollUp.
Proof. ok_all. Qed.
Lemma ok_StackCacheScrollDown : ok StackCacheScrollDown.
Proof. ok_all. Qed.
#[export] Hint Resolve ok_StackCacheScrollUp ok_StackCacheScrollDown : vlm_inv.

(** A value that depends only on the state's reading a partial function. *)
Lemma ok_of_option {A} `{Wf A} (o : option A) : wfv o -> ok (of_option o).
Proof. intros H'. apply returns_of_option. by intros a ->. Qed.
Lemma ok_of_option_Z (o : option Z) : ok (of_option o).
Proof. by apply returns_of_option. Qed.
Lemma ok_of_option_bool (o : option bool) : ok (of_option o).
Proof. by apply returns_of_option. Qed.
#[export] Hint Resolve ok_of_option_Z ok_of_option_bool : vlm_inv.

Lemma ok_EphemeralP o : ok (EphemeralP o).
Proof. ok_all. Qed.
Lemma ok_OldspaceAddressP v : ok (OldspaceAddressP v).
Proof. ok_all. Qed.
#[export] Hint Resolve ok_EphemeralP ok_OldspaceAddressP : vlm_inv.
Lemma ok_OldspaceP o : ok (OldspaceP o).
Proof. ok_all. Qed.
#[export] Hint Resolve ok_OldspaceP : vlm_inv.

Section memory.
Context {env : Environment}.

Lemma ok_memory_read_turn d c v : ok_dest d -> ok (memory_read_turn d c v).
Proof. ok_all. Qed.
Lemma ok_MemoryReadInternal v d c : ok_dest d -> ok (MemoryReadInternal v d c).
Proof. intros Hd. apply ok_loop; [|done]. intros. by apply ok_memory_read_turn. Qed.
Hint Resolve ok_MemoryReadInternal : vlm_inv.
Lemma ok_MemoryRead v d c : ok_dest d -> ok (MemoryRead v d c).
Proof. ok_all. Qed.
Lemma ok_MemoryReadData v d : ok_dest d -> ok (MemoryReadData v d).
Proof. ok_all. Qed.
Lemma ok_MemoryReadHeader v d : ok_dest d -> ok (MemoryReadHeader v d).
Proof. ok_all. Qed.
Lemma ok_MemoryReadCdr v d : ok_dest d -> ok (MemoryReadCdr v d).
Proof. ok_all. Qed.
Lemma ok_StoreContents v o c : wf_obj o -> ok (StoreContents v o c).
Proof. ok_all. Qed.
End memory.
#[export] Hint Resolve ok_MemoryReadInternal ok_MemoryRead ok_MemoryReadData ok_MemoryReadHeader
  ok_MemoryReadCdr ok_StoreContents : vlm_inv.

(** ** ListOps.v and ArrayOps.v *)

Section operations.
Context {env : Environment}.

Lemma ok_CarInternal l d : ok_dest d -> ok (CarInternal l d).
Proof. ok_all. Qed.
Lemma ok_CdrInternal l d : ok_dest d -> ok (CdrInternal l d).
Proof. ok_all. Qed.
Hint Resolve ok_CarInternal ok_CdrInternal : vlm_inv.
Lemma ok_CarCdrInternal l : ok (CarCdrInternal l).
Proof. ok_all. Qed.

Lemma ok_Aref1Internal v p o t i d : ok_dest d -> ok (Aref1Internal v p o t i d).
Proof. ok_all. Qed.
Lemma ok_aset_datum v p t i o : ok (aset_datum v p t i o).
Proof. ok_all. Qed.
Hint Resolve ok_aset_datum : vlm_inv.
Lemma ok_Aset1Internal v p o t i d : ok (Aset1Internal v p o t i d).
Proof. ok_all. Qed.
Lemma ok_RecomputeArrayRegister a c : ok (RecomputeArrayRegister a c).
Proof. ok_all. Qed.
Lemma ok_LocateInstanceVariableMapped m o n : ok (LocateInstanceVariableMapped m o n).
Proof. ok_all. Qed.
Lemma ok_LocateArbitraryInstanceVariable i o : ok (LocateArbitraryInstanceVariable i o).
Proof. ok_all. Qed.
End operations.
#[export] Hint Resolve ok_CarInternal ok_CdrInternal ok_CarCdrInternal ok_Aref1Internal
  ok_Aset1Internal ok_RecomputeArrayRegister ok_LocateInstanceVariableMapped
  ok_LocateArbitraryInstanceVariable : vlm_inv.

(** ** Alu.v *)

Lemma ok_ALUFunctionByte a x y : is_u32 y -> ok (ALUFunctionByte a x y).
Proof.
  intros Hy. assert (forall n, is_u32 (Z.shiftr y (Z.land n 31))).
  { intros n. apply is_u32_shiftr; [done | apply Z.land_nonneg; lia]. }
  ok_all.
Qed.
Lemma ok_ALUFunctionAdder a x y : ok (ALUFunctionAdder a x y).
Proof. ok_all. Qed.
#[export] Hint Resolve ok_ALUFunctionByte ok_ALUFunctionAdder : vlm_inv.
Lemma ok_call_AluOp c a x y : is_u32 y -> ok (call_AluOp c a x y).
Proof. ok_all. Qed.
#[export] Hint Resolve ok_call_AluOp : vlm_inv.
