(* ===== verification/Preservation2.v ===== *)
(** Preservation of the invariant, continued: the coprocessor, traps, decoding, the
    instructions and the sequencer. *)

From S2P Require Export Preservation.
#[local] Open Scope vlm_scope.

Lemma ok_put_control f : (forall c, is_u32 c -> is_u32 (f c)) -> ok (put_control f).
Proof. intros H. apply ok_assign_ps. intros p Hp. apply wf_set_control; [|done]. auto with vlm_range. Qed.
#[export] Hint Resolve ok_put_control : vlm_inv.

(** ** VMCoproc.v *)

Lemma ok_get_attribute n : returns wf_state (get_attribute n) is_u8.
Proof.
  unfold get_attribute. apply returns_if; [|apply returns_undefined]. apply returns_gets.
  intros s Hs. unfold attribute_of. destruct (VMAttributeTable s !! n) eqn:E; simpl; [|split; lia].
  by apply (wf_attributes _ Hs) in E.
Qed.
Lemma ok_put_attribute n a : ok (put_attribute n a).
Proof. ok_all. Qed.
#[export] Hint Resolve ok_get_attribute ok_put_attribute : vlm_inv.

Lemma is_u8_u32 n : is_u8 n -> is_u32 n.
Proof. unfold is_u8, is_u32. lia. Qed.
Lemma is_u32_SetVMExists a : is_u32 a -> is_u32 (SetVMExists a).
Proof. intros H. unfold SetVMExists. auto with vlm_range. Qed.
#[export] Hint Resolve is_u8_u32 is_u32_SetVMExists : vlm_range.

(** An address found by a search of [n] words from [i]. *)
Definition found_u32 (o : option Z) : Prop := match o with Some i => is_u32 i | None => True end.

Lemma found_u32_Some i n : 0 <= i -> i + Z.of_nat (S n) <= 2 ^ 32 -> found_u32 (Some i).
Proof. simpl. unfold is_u32. lia. Qed.
Lemma found_u32_None : found_u32 None.
Proof. done. Qed.
#[export] Hint Resolve found_u32_Some found_u32_None : vlm_range.

Lemma block_length_bound v c : is_u32 v -> v + Z.of_nat (block_length v c) <= 2 ^ 32.
Proof. unfold block_length, is_u32. pose proof (u32_range (v + c)). unfold is_u32 in *. lia. Qed.

Lemma ok_search_tags n i t d : 0 <= i -> i + Z.of_nat n <= 2 ^ 32 ->
  returns wf_state (search_tags n i t d) found_u32.
Proof.
  revert i. induction n; intros i H1 H2; ok_all; apply IHn; lia.
Qed.
Lemma ok_touch_range n v : ok (touch_range n v).
Proof. revert v. induction n; ok_all. Qed.
#[export] Hint Resolve ok_touch_range : vlm_inv.

Lemma move_words_Forall (P : Z -> Prop) n a b src dst : P 0 ->
  map_Forall (fun _ => P) src -> map_Forall (fun _ => P) dst ->
  map_Forall (fun _ => P) (move_words n a b src dst).
Proof.
  intros H0 Hs. revert a b. induction n; intros a b Hd; simpl; [done|].
  apply map_Forall_insert_2; [|by apply IHn].
  destruct (src !! a) eqn:E; simpl; [by eapply Hs | done].
Qed.

Lemma ok_copy_raw f t c : ok (copy_raw f t c).
Proof.
  assert (forall n, ok (modify (fun s => set_TagSpace (move_words n f t (TagSpace s) (TagSpace s)) s))).
  { intros n. apply ok_modify. wf_split. apply move_words_Forall; [split; lia | by apply wf_TagSpace..]. }
  assert (forall n, ok (modify (fun s => set_DataSpace (move_words n f t (DataSpace s) (DataSpace s)) s))).
  { intros n. apply ok_modify. wf_split. apply move_words_Forall; [split; lia | by apply wf_DataSpace..]. }
  ok_all.
Qed.
#[export] Hint Resolve ok_copy_raw : vlm_inv.

Section coprocessor.
Context {env : Environment}.

Lemma ok_copy_cycle n f t c : ok (copy_cycle n f t c).
Proof. revert f t. induction n; ok_all. Qed.
Hint Resolve ok_copy_cycle : vlm_inv.
Lemma ok_VirtualMemoryCopy f t n c : ok (VirtualMemoryCopy f t n c).
Proof. ok_all. Qed.
Lemma ok_VirtualMemorySearch v o c : is_u32 v ->
  returns wf_state (VirtualMemorySearch v o c) found_u32.
Proof. intros H. apply ok_search_tags; [apply H | by apply block_length_bound]. Qed.
Lemma ok_scan_page n i : 0 <= i -> i + Z.of_nat n <= 2 ^ 32 ->
  returns wf_state (scan_page n i) found_u32.
Proof. revert i. induction n; intros i H1 H2; ok_all; apply IHn; lia. Qed.
Hint Resolve ok_VirtualMemoryCopy ok_VirtualMemorySearch : vlm_inv.
Lemma ok_scan_block v c : returns wf_state (scan_page (block_length (PageNumberMemory v) c)
                                             (PageNumberMemory v)) found_u32.
Proof.
  apply ok_scan_page; [apply u32_range | apply block_length_bound, u32_range].
Qed.
Hint Resolve ok_scan_block : vlm_inv.
Lemma ok_scan_pages n v c : returns wf_state (scan_pages n v c) found_u32.
Proof.
  revert v c. induction n; intros v c; [ok_all|]. simpl.
  ok_step. eapply (returns_bind _ _ _ found_u32); [ok_all|]. intros [i|] Hi; ok_all.
Qed.
Hint Resolve ok_scan_pages : vlm_inv.
Lemma ok_VirtualMemoryScan v c : returns wf_state (VirtualMemoryScan v c) found_u32.
Proof. ok_all. Qed.
Lemma ok_enable_pages n v : ok (enable_pages n v).
Proof. revert v. induction n; ok_all. Qed.
Hint Resolve ok_VirtualMemoryScan ok_enable_pages : vlm_inv.
Lemma ok_VMCommand c : returns wf_state (VMCommand c) is_u32.
Proof. ok_all. Qed.
End coprocessor.
#[export] Hint Resolve ok_VMCommand : vlm_inv.

(** ** Bindings.v *)

Section bindings.
Context {env : Environment}.

Lemma ok_Unbind : ok Unbind.
Proof. ok_all. Qed.
Lemma ok_pull_done sp n i a : ok (pull_done sp n i a).
Proof. ok_all. Qed.
Hint Resolve ok_pull_done : vlm_inv.
Lemma ok_pull_trap st n c : ok (pull_trap st n c).
Proof. ok_all. Qed.
Hint Resolve ok_pull_trap : vlm_inv.
Lemma ok_pull_turn n c st : ok (pull_turn n c st).
Proof. ok_all. Qed.
Lemma ok_PullApplyArgsQuickly c : ok (PullApplyArgsQuickly c).
Proof.
  unfold PullApplyArgsQuickly. do 2 ok_step. apply ok_loop; [|done]. intros. apply ok_pull_turn.
Qed.
End bindings.
#[export] Hint Resolve ok_Unbind ok_PullApplyArgsQuickly : vlm_inv.

(** ** Traps.v *)

Lemma wf_saved o : wf_obj (saved o).
Proof. apply wf_obj_obj. Qed.
Lemma wf_typed o : wf_obj (typed o).
Proof. apply wf_obj_obj. Qed.
Lemma is_u32_trap_control c a f : is_u32 (trap_control c a f).
Proof. apply u32_range. Qed.
#[export] Hint Resolve wf_saved wf_typed is_u32_trap_control : vlm_range.

Lemma ok_ps_sp_get k : ok (ps_sp_get k).
Proof. ok_all. Qed.
Lemma ok_ps_fp_put k o : wf_obj o -> ok (ps_fp_put k o).
Proof. ok_all. Qed.
Lemma ok_ps_push o : wf_obj o -> ok (ps_push o).
Proof. ok_all. Qed.
#[export] Hint Resolve ok_ps_sp_get ok_ps_fp_put ok_ps_push : vlm_inv.
Lemma ok_push_extra e : ok (push_extra e).
Proof. ok_all. Qed.
Lemma ok_scroll_for_trap : ok scroll_for_trap.
Proof. ok_all. Qed.
Lemma ok_move_operands n sp i : ok (move_operands n sp i).
Proof. revert i. induction n; ok_all. Qed.
#[export] Hint Resolve ok_push_extra ok_scroll_for_trap ok_move_operands : vlm_inv.

Section traps.
Context {env : Environment}.

Lemma ok_FetchTrapVectorEntry n i : ok (FetchTrapVectorEntry n i).
Proof. induction n; ok_all. Qed.
Hint Resolve ok_FetchTrapVectorEntry : vlm_inv.
Lemma ok_enter_handler i : ok (enter_handler i).
Proof. ok_all. Qed.
Hint Resolve ok_enter_handler : vlm_inv.
Lemma ok_TakePreTrap i e1 e2 : ok (TakePreTrap i e1 e2).
Proof. ok_all. Qed.
Lemma ok_TakePostTrap i a n : wf_obj n -> ok (TakePostTrap i a n).
Proof. ok_all. Qed.
Hint Resolve ok_TakePostTrap : vlm_inv.
Lemma ok_TakeInstructionException i o n : wf_obj n -> ok (TakeInstructionException i o n).
Proof. ok_all. Qed.
End traps.
#[export] Hint Resolve ok_TakePreTrap ok_TakeInstructionException : vlm_inv.

(** ** Decode.v *)

Lemma is_s32_const n : (- 2 ^ 31 <=? n) && (n <? 2 ^ 31) = true -> is_s32 n.
Proof. unfold is_s32. intros H%andb_true_iff. lia. Qed.
#[export] Hint Extern 3 (is_s32 ?n) => (apply is_s32_const; reflexivity) : vlm_range.

Lemma land_ones_range z n : 0 <= n -> 0 <= Z.land z (2 ^ n - 1) < 2 ^ n.
Proof.
  intros Hn.
  replace (2 ^ n - 1) with (Z.ones n) by (rewrite Z.ones_equiv; lia).
  rewrite Z.land_ones by done. apply Z.mod_pos_bound, Z.pow_pos_nonneg; lia.
Qed.

Lemma is_s32_land z n : 0 <= n <= 31 -> is_s32 (Z.land z (2 ^ n - 1)).
Proof.
  intros Hn. pose proof (land_ones_range z n). pose proof (Z.pow_le_mono_r 2 n 31).
  unfold is_s32. lia.
Qed.

Lemma is_s32_signed_field n z : 0 < n <= 32 -> is_s32 (signed_field n z).
Proof.
  intros Hn. unfold signed_field, is_s32.
  assert (0 < 2 ^ (n - 1) <= 2 ^ 31) by (split; [apply Z.pow_pos_nonneg | apply Z.pow_le_mono_r]; lia).
  assert (2 ^ n = 2 * 2 ^ (n - 1)) by (rewrite <- Z.pow_succ_r by lia; f_equal; lia).
  pose proof (Z.mod_pos_bound z (2 ^ n)). zcase; lia.
Qed.

Lemma is_s32_entry i : is_s32 (dpb (ldb 8 18 i) 8 8 (Z.land i 255)).
Proof.
  pose proof (dpb_range (ldb 8 18 i) 8 8 (Z.land i 255)) as [H0 _].
  cut (dpb (ldb 8 18 i) 8 8 (Z.land i 255) < 2 ^ 16); [unfold is_s32; lia|].
  apply range_of_testbit; [lia | done |]. intros k Hk.
  rewrite dpb_testbit by lia.
  assert (Z.testbit (Z.land i 255) k = false) as ->.
  { change 255 with (2 ^ 8 - 1). apply (testbit_above _ 8); [apply land_ones_range|]; lia. }
  zcase; simpl; try lia; by rewrite ?andb_false_r.
Qed.

Create HintDb vlm_decode.

(** A decoder that keeps cache lines well formed. *)
Definition decodes_ok (f : Z -> InstructionCacheLine -> InstructionCacheLine) : Prop :=
  forall i l, wf_line l -> wf_line (f i l).

Lemma set_operand_ok (g : Z -> Z) : (forall i, is_s32 (g i)) -> decodes_ok (fun i => set_cl_operand (g i)).
Proof. intros Hg i l Hl. apply wf_set_cl_operand; auto. Qed.

Lemma DecodeNoneFunction_ok : decodes_ok DecodeNoneFunction.
Proof. apply set_operand_ok. intros _. split; lia. Qed.
Lemma Decode8BitUnsignedOperandFunction_ok : decodes_ok Decode8BitUnsignedOperandFunction.
Proof. apply set_operand_ok. intros i. apply (is_s32_land i 8). lia. Qed.
Lemma Decode8BitSignedOperandFunction_ok : decodes_ok Decode8BitSignedOperandFunction.
Proof. apply set_operand_ok. intros i. rewrite SignExtend8_spec. apply is_s32_signed_field. lia. Qed.
Lemma Decode10BitUnsignedOperandFunction_ok : decodes_ok Decode10BitUnsignedOperandFunction.
Proof. apply set_operand_ok. intros i. apply (is_s32_land i 10). lia. Qed.
Lemma Decode12BitUnsignedOperandFunction_ok : decodes_ok Decode12BitUnsignedOperandFunction.
Proof. apply set_operand_ok. intros i. apply (is_s32_land i 12). lia. Qed.
Lemma DecodeFPOperandFunction_ok : decodes_ok DecodeFPOperandFunction.
Proof. apply set_operand_ok. intros i. apply (is_s32_land i 8). lia. Qed.
Lemma DecodeLPOperandFunction_ok : decodes_ok DecodeLPOperandFunction.
Proof. apply set_operand_ok. intros i. apply (is_s32_land i 8). lia. Qed.
Lemma DecodeSPOperandFunction_ok : decodes_ok DecodeSPOperandFunction.
Proof.
  intros i l Hl. unfold DecodeSPOperandFunction. pose proof (land_ones_range i 8) as H.
  change (2 ^ 8 - 1) with 255 in H. zcase; apply wf_set_cl_operand; try done.
  - by apply wf_set_cl_code.
  - unfold is_s32. lia.
Qed.
Lemma DecodeBranchOperandFunction_ok : decodes_ok DecodeBranchOperandFunction.
Proof. apply set_operand_ok. intros i. rewrite SignExtend10_spec. apply is_s32_signed_field. lia. Qed.
Lemma DecodeReturnOperandFunction_ok : decodes_ok DecodeReturnOperandFunction.
Proof.
  intros i l Hl. unfold DecodeReturnOperandFunction.
  zcase; [apply wf_set_cl_operand, wf_set_cl_code; done..|done].
Qed.
Lemma DecodeEntryOperandFunction_ok : decodes_ok DecodeEntryOperandFunction.
Proof. apply set_operand_ok, is_s32_entry. Qed.

#[local] Hint Resolve DecodeNoneFunction_ok Decode8BitUnsignedOperandFunction_ok
  Decode8BitSignedOperandFunction_ok Decode10BitUnsignedOperandFunction_ok
  Decode12BitUnsignedOperandFunction_ok DecodeFPOperandFunction_ok DecodeLPOperandFunction_ok
  DecodeSPOperandFunction_ok DecodeBranchOperandFunction_ok DecodeReturnOperandFunction_ok
  DecodeEntryOperandFunction_ok : vlm_decode.

Definition pair_ok (p : DecoderPair) : Prop := decodes_ok (Decode.decode p).

Lemma pair_ok_intro c f : decodes_ok f -> pair_ok (MkDecoderPair c f).
Proof. done. Qed.

Ltac decoders_ok :=
  repeat (apply Forall_cons_2; [apply pair_ok_intro; solve [auto 1 with vlm_decode nocore]|]);
  apply Forall_nil_2.

Lemma PackedInstructionDecoder_ok : Forall pair_ok PackedInstructionDecoder.
Proof.
  unfold PackedInstructionDecoder. rewrite !Forall_app. repeat split.
  - unfold PackedInstructionDecoder_0. decoders_ok.
  - unfold PackedInstructionDecoder_1. decoders_ok.
  - unfold PackedInstructionDecoder_2. decoders_ok.
  - unfold PackedInstructionDecoder_3. decoders_ok.
  - unfold PackedInstructionDecoder_4. decoders_ok.
  - unfold PackedInstructionDecoder_5. decoders_ok.
  - unfold PackedInstructionDecoder_6. decoders_ok.
  - unfold PackedInstructionDecoder_7. decoders_ok.
Qed.

Lemma wf_decode_half i src l : is_u32 i -> wf_line l -> wf_line (decode_half i src l).
Proof.
  intros Hi Hl. unfold decode_half, decoder_of.
  assert (decodes_ok (Decode.decode (default (MkDecoderPair DispatchIllegalInstruction DecodeNoneFunction)
            (nth_Z PackedInstructionDecoder (Z.shiftr i 8))))) as Hd.
  { destruct (nth_Z PackedInstructionDecoder _) eqn:E; simpl; [|apply DecodeNoneFunction_ok].
    eapply (Forall_nth_Z _ _ _ _ PackedInstructionDecoder_ok E). }
  apply Hd. apply wf_set_cl_code. by apply wf_set_cl_instruction.
Qed.

Lemma is_u32_even_instruction d : is_u32 (even_instruction d).
Proof. unfold even_instruction. pose proof (land_ones_range d 18) as H. change (2 ^ 18 - 1) with 262143 in H. unfold is_u32. lia. Qed.
Lemma is_u32_odd_instruction t d : is_u32 (odd_instruction t d).
Proof.
  unfold odd_instruction. apply is_u32_lor.
  - pose proof (land_ones_range t 4) as H. change (2 ^ 4 - 1) with 15 in H. rewrite Z.shiftl_mul_pow2 by lia. unfold is_u32. lia.
  - pose proof (ldb_range 14 18 d). unfold is_u32. lia.
Qed.

Definition wf_lines (x : InstructionCacheLine * InstructionCacheLine) : Prop :=
  wf_line x.1 /\ wf_line x.2.

Lemma wf_DecodePackedWord t d x : wf_lines x -> wf_lines (DecodePackedWord t d x).
Proof.
  intros [H1 H2]. split; apply wf_decode_half; try done;
    [apply is_u32_even_instruction | apply is_u32_odd_instruction].
Qed.

Lemma wf_illegal_line l : wf_line l -> wf_line (illegal_line l).
Proof.
  intros H. apply wf_set_cl_code, wf_set_cl_operand; [split; lia|].
  apply wf_set_cl_instruction; [split; lia | done].
Qed.

Lemma wf_decode_word t d x : wf_lines x -> wf_lines (decode_word t d x).
Proof.
  intros [H1 H2]. unfold decode_word. destruct (PackedInstructionP t).
  - by apply wf_DecodePackedWord.
  - split; simpl; [|by apply wf_illegal_line].
    apply wf_set_cl_code, wf_set_cl_operand; [apply s32_range|].
    apply wf_set_cl_instruction; [split; lia | done].
Qed.

Lemma wf_set_next t d n l : wf_line l -> wf_line (set_next t d n l).
Proof. intros H. apply wf_set_cl_next_pc; [apply wf_obj_obj | by apply wf_set_cl_next_cp]. Qed.

Lemma wf_fill_lines v k w x : wf_lines x -> wf_lines (fill_lines v k w x).
Proof.
  intros [H1 H2]. unfold fill_lines.
  assert (forall l, wf_line l -> wf_line (set_cl_pc (set_DATA v (cl_pc l)) l)) as Hp.
  { intros l Hl. apply wf_set_cl_pc; [|done]. apply wf_set_DATA. by apply wf_cl_pc. }
  repeat case_match; first [apply wf_DecodePackedWord | apply wf_decode_word | idtac];
    split; simpl; try apply wf_set_next; try apply wf_illegal_line; by apply Hp.
Qed.

Lemma ok_line_get i : ok (line_get i).
Proof.
  unfold line_get. ok_step. apply returns_of_option. intros l Hl.
  by eapply wf_cache in Hl as [_ ?].
Qed.

Lemma ok_line_put i l : wf_line l -> ok (line_put i l).
Proof.
  intros Hl. unfold line_put.
  destruct ((0 <=? i) && (i <? InstructionCacheSize)) eqn:E; [|apply returns_undefined].
  apply ok_assign_ps. intros p Hp. apply wf_set_InstructionCache; [|done].
  apply map_Forall_insert_2; [|by apply wf_cache]. split; [|done].
  apply andb_true_iff in E. lia.
Qed.
#[export] Hint Resolve ok_line_get ok_line_put : vlm_inv.

Lemma ok_fill_words n v k : ok (fill_words n v k).
Proof.
  revert v k. induction n as [|n IH]; intros v k; simpl; [ok_all|].
  ok_step. eapply returns_bind; [apply ok_line_get|]. intros e He.
  eapply returns_bind; [apply ok_line_get|]. intros o Ho.
  match goal with |- context [fill_lines ?a ?b ?c ?d] =>
    pose proof (wf_fill_lines a b c d (conj He Ho)) as [H1 H2] end.
  ok_all; apply IH.
Qed.
#[export] Hint Resolve ok_fill_words : vlm_inv.
Lemma ok_force_lookup i f : ok (force_lookup i f).
Proof. ok_all. Qed.
#[export] Hint Resolve ok_force_lookup : vlm_inv.
Lemma ok_InstructionCacheMiss : ok InstructionCacheMiss.
Proof. ok_all. Qed.
#[export] Hint Resolve ok_InstructionCacheMiss : vlm_inv.
