(* ===== verification/Preservation3.v ===== *)
(** Preservation of the invariant by the instructions. *)

From S2P Require Export Preservation2.
#[local] Open Scope vlm_scope.

(** ** Shared shapes *)

Lemma ok_next m : ok m -> ok (next m).
Proof. ok_all. Qed.
Lemma ok_op2_store o : ok (op2_store o).
Proof. ok_all. Qed.
Lemma ok_op2_set_DATA d : ok (op2_set_DATA d).
Proof. ok_all. Qed.
Lemma ok_equals_immediate : ok equals_immediate.
Proof. ok_all. Qed.
Lemma ok_shl_u32 x n : ok (shl_u32 x n).
Proof. ok_all. Qed.
Lemma ok_shl_s32 x n : ok (shl_s32 x n).
Proof. ok_all. Qed.
Lemma ok_shr_32 x n : ok (shr_32 x n).
Proof. ok_all. Qed.
Lemma ok_op2_stack : ok op2_stack.
Proof. ok_all. Qed.
Lemma ok_push_nils n : ok (push_nils n).
Proof. induction n; ok_all. Qed.
Lemma ok_blt n a b : ok (blt n a b).
Proof. revert a b. induction n; ok_all. Qed.
#[export] Hint Resolve ok_next ok_op2_store ok_op2_set_DATA ok_equals_immediate ok_shl_u32 ok_shl_s32
  ok_shr_32 ok_op2_stack ok_push_nils ok_blt : vlm_inv.


(** ** ListInstr.v *)

Section listinstr.
Context {env : Environment}.

Lemma ok_above_sp : returns wf_state above_sp ok_dest.
Proof. unfold above_sp. ok_step. apply returns_ret, ok_to_stack. Qed.
Hint Resolve ok_above_sp : vlm_inv.

Lemma ok_ExecuteCar : ok ExecuteCar.
Proof. ok_all. Qed.
Lemma ok_ExecuteCdr : ok ExecuteCdr.
Proof. ok_all. Qed.
Lemma ok_ExecuteSetToCar : ok ExecuteSetToCar.
Proof. ok_all. Qed.
Lemma ok_ExecuteSetToCdr : ok ExecuteSetToCdr.
Proof. ok_all. Qed.
Lemma ok_ExecuteSetToCdrPushCar : ok ExecuteSetToCdrPushCar.
Proof. ok_all. Qed.
Lemma ok_ExecuteRplaca : ok ExecuteRplaca.
Proof. ok_all. Qed.
Lemma ok_ExecuteRplacd : ok ExecuteRplacd.
Proof. ok_all. Qed.
Lemma ok_ExecuteRgetf : ok ExecuteRgetf.
Proof. ok_all. Qed.
Lemma ok_ExecuteMember : ok ExecuteMember.
Proof. ok_all. Qed.
Lemma ok_ExecuteAssoc : ok ExecuteAssoc.
Proof. ok_all. Qed.
Lemma ok_ExecuteEqImmediate : ok ExecuteEqImmediate.
Proof. ok_all. Qed.
Lemma ok_ExecuteEq : ok ExecuteEq.
Proof. ok_all. Qed.
Lemma ok_ExecuteEqNoPopImmediate : ok ExecuteEqNoPopImmediate.
Proof. ok_all. Qed.
Lemma ok_ExecuteEqNoPop : ok ExecuteEqNoPop.
Proof. ok_all. Qed.
Lemma ok_ExecuteEqlImmediate : ok ExecuteEqlImmediate.
Proof. ok_all. Qed.
Lemma ok_ExecuteEql : ok ExecuteEql.
Proof. ok_all. Qed.
Lemma ok_ExecuteEqlNoPopImmediate : ok ExecuteEqlNoPopImmediate.
Proof. ok_all. Qed.
Lemma ok_ExecuteEqlNoPop : ok ExecuteEqlNoPop.
Proof. ok_all. Qed.
Lemma ok_ExecuteEqualNumberImmediate : ok ExecuteEqualNumberImmediate.
Proof. ok_all. Qed.
Lemma ok_ExecuteEqualNumber : ok ExecuteEqualNumber.
Proof. ok_all. Qed.
Lemma ok_ExecuteEqualNumberNoPopImmediate : ok ExecuteEqualNumberNoPopImmediate.
Proof. ok_all. Qed.
Lemma ok_ExecuteEqualNumberNoPop : ok ExecuteEqualNumberNoPop.
Proof. ok_all. Qed.
Lemma ok_ExecuteGreaterp : ok ExecuteGreaterp.
Proof. ok_all. Qed.
Lemma ok_ExecuteGreaterpNoPop : ok ExecuteGreaterpNoPop.
Proof. ok_all. Qed.
Lemma ok_ExecuteLessp : ok ExecuteLessp.
Proof. ok_all. Qed.
Lemma ok_ExecuteLesspNoPop : ok ExecuteLesspNoPop.
Proof. ok_all. Qed.
Lemma ok_ExecuteLogtest : ok ExecuteLogtest.
Proof. ok_all. Qed.
Lemma ok_ExecuteLogtestNoPop : ok ExecuteLogtestNoPop.
Proof. ok_all. Qed.
Lemma ok_ExecuteTypeMember : ok ExecuteTypeMember.
Proof. ok_all. Qed.
Lemma ok_ExecuteTypeMemberNoPop : ok ExecuteTypeMemberNoPop.
Proof. ok_all. Qed.
Lemma ok_ExecuteEndp : ok ExecuteEndp.
Proof. ok_all. Qed.
Lemma ok_ExecutePluspImmediate : ok ExecutePluspImmediate.
Proof. ok_all. Qed.
Lemma ok_ExecutePlusp : ok ExecutePlusp.
Proof. ok_all. Qed.
Lemma ok_ExecuteMinuspImmediate : ok ExecuteMinuspImmediate.
Proof. ok_all. Qed.
Lemma ok_ExecuteMinusp : ok ExecuteMinusp.
Proof. ok_all. Qed.
Lemma ok_ExecuteZeropImmediate : ok ExecuteZeropImmediate.
Proof. ok_all. Qed.
Lemma ok_ExecuteZerop : ok ExecuteZerop.
Proof. ok_all. Qed.
End listinstr.
#[export] Hint Resolve ok_ExecuteCar ok_ExecuteCdr ok_ExecuteSetToCar ok_ExecuteSetToCdr
  ok_ExecuteSetToCdrPushCar ok_ExecuteRplaca ok_ExecuteRplacd ok_ExecuteRgetf ok_ExecuteMember
  ok_ExecuteAssoc ok_ExecuteEqImmediate ok_ExecuteEq ok_ExecuteEqNoPopImmediate ok_ExecuteEqNoPop
  ok_ExecuteEqlImmediate ok_ExecuteEql ok_ExecuteEqlNoPopImmediate ok_ExecuteEqlNoPop
  ok_ExecuteEqualNumberImmediate ok_ExecuteEqualNumber ok_ExecuteEqualNumberNoPopImmediate
  ok_ExecuteEqualNumberNoPop ok_ExecuteGreaterp ok_ExecuteGreaterpNoPop ok_ExecuteLessp
  ok_ExecuteLesspNoPop ok_ExecuteLogtest ok_ExecuteLogtestNoPop ok_ExecuteTypeMember
  ok_ExecuteTypeMemberNoPop ok_ExecuteEndp ok_ExecutePluspImmediate ok_ExecutePlusp
  ok_ExecuteMinuspImmediate ok_ExecuteMinusp ok_ExecuteZeropImmediate ok_ExecuteZerop : vlm_inv.

(** ** Arith.v *)

Section arith.
Context {env : Environment}.

Lemma ok_ExecuteAdd : ok ExecuteAdd.
Proof. ok_all. Qed.
Lemma ok_ExecuteSub : ok ExecuteSub.
Proof. ok_all. Qed.
Lemma ok_ExecuteMultiply : ok ExecuteMultiply.
Proof. ok_all. Qed.
Lemma ok_ExecuteUnaryMinusImmediate : ok ExecuteUnaryMinusImmediate.
Proof. ok_all. Qed.
Lemma ok_ExecuteUnaryMinus : ok ExecuteUnaryMinus.
Proof. ok_all. Qed.
Lemma ok_ExecuteIncrement : ok ExecuteIncrement.
Proof. ok_all. Qed.
Lemma ok_ExecuteDecrement : ok ExecuteDecrement.
Proof. ok_all. Qed.
Lemma ok_ExecuteQuotient : ok ExecuteQuotient.
Proof. ok_all. Qed.
Lemma ok_ExecuteFloor : ok ExecuteFloor.
Proof. ok_all. Qed.
Lemma ok_ExecuteCeiling : ok ExecuteCeiling.
Proof. ok_all. Qed.
Lemma ok_ExecuteTruncate : ok ExecuteTruncate.
Proof. ok_all. Qed.
Lemma ok_ExecuteRound : ok ExecuteRound.
Proof. ok_all. Qed.
Lemma ok_ExecuteRationalQuotient : ok ExecuteRationalQuotient.
Proof. ok_all. Qed.
Lemma ok_ExecuteMax : ok ExecuteMax.
Proof. ok_all. Qed.
Lemma ok_ExecuteMin : ok ExecuteMin.
Proof. ok_all. Qed.
Lemma ok_ExecuteLogand : ok ExecuteLogand.
Proof. ok_all. Qed.
Lemma ok_ExecuteLogior : ok ExecuteLogior.
Proof. ok_all. Qed.
Lemma ok_ExecuteLogxor : ok ExecuteLogxor.
Proof. ok_all. Qed.
Lemma ok_ExecuteAsh : ok ExecuteAsh.
Proof. ok_all. Qed.
Lemma ok_ExecuteLsh : ok ExecuteLsh.
Proof. ok_all. Qed.
Lemma ok_ExecuteRot : ok ExecuteRot.
Proof. ok_all. Qed.
Lemma ok_Execute32BitPlusImmediate : ok Execute32BitPlusImmediate.
Proof. ok_all. Qed.
Lemma ok_Execute32BitPlus : ok Execute32BitPlus.
Proof. ok_all. Qed.
Lemma ok_Execute32BitDifferenceImmediate : ok Execute32BitDifferenceImmediate.
Proof. ok_all. Qed.
Lemma ok_Execute32BitDifference : ok Execute32BitDifference.
Proof. ok_all. Qed.
Lemma ok_ExecuteMultiplyDouble : ok ExecuteMultiplyDouble.
Proof. ok_all. Qed.
Lemma ok_ExecuteAddBignumStep : ok ExecuteAddBignumStep.
Proof. ok_all. Qed.
Lemma ok_ExecuteSubBignumStep : ok ExecuteSubBignumStep.
Proof. ok_all. Qed.
Lemma ok_ExecuteMultiplyBignumStep : ok ExecuteMultiplyBignumStep.
Proof. ok_all. Qed.
Lemma ok_ExecuteDivideBignumStep : ok ExecuteDivideBignumStep.
Proof. ok_all. Qed.
Lemma ok_ExecuteLshcBignumStep : ok ExecuteLshcBignumStep.
Proof. ok_all. Qed.
Lemma ok_ExecutePushImmediate : ok ExecutePushImmediate.
Proof. ok_all. Qed.
Lemma ok_ExecutePush : ok ExecutePush.
Proof. ok_all. Qed.
Lemma ok_ExecutePop : ok ExecutePop.
Proof. ok_all. Qed.
Lemma ok_ExecuteMovem : ok ExecuteMovem.
Proof. ok_all. Qed.
Lemma ok_ExecutePushNNils : ok ExecutePushNNils.
Proof. ok_all. Qed.
Lemma ok_ExecutePushAddress : ok ExecutePushAddress.
Proof. ok_all. Qed.
Lemma ok_ExecuteSetSpToAddress : ok ExecuteSetSpToAddress.
Proof. ok_all. Qed.
Lemma ok_ExecuteSetSpToAddressSaveTos : ok ExecuteSetSpToAddressSaveTos.
Proof. ok_all. Qed.
Lemma ok_ExecutePushAddressSpRelativeImmediate : ok ExecutePushAddressSpRelativeImmediate.
Proof. ok_all. Qed.
Lemma ok_ExecutePushAddressSpRelative : ok ExecutePushAddressSpRelative.
Proof. ok_all. Qed.
Lemma ok_ExecuteStackBltAddress : ok ExecuteStackBltAddress.
Proof. ok_all. Qed.
Lemma ok_ExecuteStackBlt : ok ExecuteStackBlt.
Proof. ok_all. Qed.
End arith.
#[export] Hint Resolve ok_ExecuteAdd ok_ExecuteSub ok_ExecuteMultiply
  ok_ExecuteUnaryMinusImmediate ok_ExecuteUnaryMinus ok_ExecuteIncrement ok_ExecuteDecrement
  ok_ExecuteQuotient ok_ExecuteFloor ok_ExecuteCeiling ok_ExecuteTruncate ok_ExecuteRound
  ok_ExecuteRationalQuotient ok_ExecuteMax ok_ExecuteMin ok_ExecuteLogand ok_ExecuteLogior
  ok_ExecuteLogxor ok_ExecuteAsh ok_ExecuteLsh ok_ExecuteRot ok_Execute32BitPlusImmediate
  ok_Execute32BitPlus ok_Execute32BitDifferenceImmediate ok_Execute32BitDifference
  ok_ExecuteMultiplyDouble ok_ExecuteAddBignumStep ok_ExecuteSubBignumStep
  ok_ExecuteMultiplyBignumStep ok_ExecuteDivideBignumStep ok_ExecuteLshcBignumStep
  ok_ExecutePushImmediate ok_ExecutePush ok_ExecutePop ok_ExecuteMovem ok_ExecutePushNNils
  ok_ExecutePushAddress ok_ExecuteSetSpToAddress ok_ExecuteSetSpToAddressSaveTos
  ok_ExecutePushAddressSpRelativeImmediate ok_ExecutePushAddressSpRelative
  ok_ExecuteStackBltAddress ok_ExecuteStackBlt : vlm_inv.

(** ** Fields.v *)

Section fields.
Context {env : Environment}.

Lemma ok_ExecuteLdb : ok ExecuteLdb.
Proof. ok_all. Qed.
Lemma ok_ExecuteCharLdb : ok ExecuteCharLdb.
Proof. ok_all. Qed.
Lemma ok_ExecutePLdb : ok ExecutePLdb.
Proof. ok_all. Qed.
Lemma ok_ExecutePTagLdb : ok ExecutePTagLdb.
Proof. ok_all. Qed.
Lemma ok_ExecuteDpb : ok ExecuteDpb.
Proof. ok_all. Qed.
Lemma ok_ExecuteCharDpb : ok ExecuteCharDpb.
Proof. ok_all. Qed.
Lemma ok_ExecutePDpb : ok ExecutePDpb.
Proof. ok_all. Qed.
Lemma ok_ExecutePTagDpb : ok ExecutePTagDpb.
Proof. ok_all. Qed.
End fields.
#[export] Hint Resolve ok_ExecuteLdb ok_ExecuteCharLdb ok_ExecutePLdb ok_ExecutePTagLdb
  ok_ExecuteDpb ok_ExecuteCharDpb ok_ExecutePDpb ok_ExecutePTagDpb : vlm_inv.

(** ** ArrayInstr.v *)

Section arrayinstr.
Context {env : Environment}.

Lemma ok_ExecuteAref1 : ok ExecuteAref1.
Proof. ok_all. Qed.
Lemma ok_ExecuteAset1 : ok ExecuteAset1.
Proof. ok_all. Qed.
Lemma ok_ExecuteAloc1 : ok ExecuteAloc1.
Proof. ok_all. Qed.
Lemma ok_ExecuteSetup1dArray : ok ExecuteSetup1dArray.
Proof. ok_all. Qed.
Lemma ok_ExecuteFastAref1 : ok ExecuteFastAref1.
Proof. ok_all. Qed.
Lemma ok_ExecuteFastAset1 : ok ExecuteFastAset1.
Proof. ok_all. Qed.
Lemma ok_ExecuteArrayLeader : ok ExecuteArrayLeader.
Proof. ok_all. Qed.
Lemma ok_ExecuteStoreArrayLeader : ok ExecuteStoreArrayLeader.
Proof. ok_all. Qed.
Lemma ok_ExecuteAlocLeader : ok ExecuteAlocLeader.
Proof. ok_all. Qed.
End arrayinstr.
#[export] Hint Resolve ok_ExecuteAref1 ok_ExecuteAset1 ok_ExecuteAloc1 ok_ExecuteSetup1dArray
  ok_ExecuteFastAref1 ok_ExecuteFastAset1 ok_ExecuteArrayLeader ok_ExecuteStoreArrayLeader
  ok_ExecuteAlocLeader : vlm_inv.
