(* ===== verification/Preservation4.v ===== *)
(** Preservation of the invariant by calls, returns, objects and registers; then by the
    sequencer itself: every instruction of the switch, the labels they leave through, the trap
    handler, and so every step. *)

From S2P Require Export Preservation3.
#[local] Open Scope vlm_scope.

(** ** Calls.v *)

Section calls.
Context {env : Environment}.

Lemma ok_put_pc p : wf_obj p -> ok (put_pc p).
Proof. ok_all. Qed.
Lemma ok_advance_pc n : ok (advance_pc n).
Proof. ok_all. Qed.
Lemma ok_put_continuation o : wf_obj o -> ok (put_continuation o).
Proof. ok_all. Qed.
Hint Resolve ok_put_pc ok_advance_pc ok_put_continuation : vlm_inv.
Lemma is_u32_started c : is_u32 c -> is_u32 (Z.lor (Z.lor c ControlCallStarted) ControlExtraArgument).
Proof. auto with vlm_range. Qed.
Lemma is_u32_not_extra c : is_u32 c -> is_u32 (Z.ldiff (Z.lor c ControlCallStarted) ControlExtraArgument).
Proof. intros H. apply is_u32_ldiff; [auto with vlm_range | done]. Qed.
Hint Resolve is_u32_started is_u32_not_extra : vlm_range.
Lemma ok_start_call t e : wf_obj t -> wfv e -> ok (start_call t e).
Proof.
  intros Ht He. unfold start_call. do 3 ok_step.
  destruct e; simpl in He; ok_all.
Qed.
Hint Resolve ok_start_call : vlm_inv.
Lemma ok_scroll_up_if b : ok (scroll_up_if b).
Proof. ok_all. Qed.
Lemma ok_scroll_down_if b : ok (scroll_down_if b).
Proof. ok_all. Qed.
Hint Resolve ok_scroll_up_if ok_scroll_down_if : vlm_inv.
Lemma is_u32_call_control c n a b f x : is_u32 (call_control c n a b f x).
Proof. apply u32_range. Qed.
Hint Resolve is_u32_call_control : vlm_range.
Lemma ok_finish_call n b : ok (finish_call n b).
Proof. ok_all. Qed.
Hint Resolve ok_finish_call : vlm_inv.
Lemma wfv_None : wfv (None : option LispObj).
Proof. done. Qed.
Lemma wfv_Some (o : LispObj) : wf_obj o -> wfv (Some o).
Proof. done. Qed.
Hint Resolve wfv_None wfv_Some : vlm_range.
Lemma ok_call_interpreter o : wf_obj o -> ok (call_interpreter o).
Proof. ok_all. Qed.
Hint Resolve ok_call_interpreter : vlm_inv.
Lemma ok_StartCallDispatch o : wf_obj o -> ok (StartCallDispatch o).
Proof. ok_all. Qed.
Hint Resolve ok_StartCallDispatch : vlm_inv.

Lemma ok_ExecuteLoopDecrementTos : ok ExecuteLoopDecrementTos.
Proof. ok_all. Qed.
Lemma ok_ExecuteLoopIncrementTosLessThan : ok ExecuteLoopIncrementTosLessThan.
Proof. ok_all. Qed.
Lemma ok_ExecuteCallCompiledEven : ok ExecuteCallCompiledEven.
Proof. ok_all. Qed.
Lemma ok_ExecuteCallCompiledOdd : ok ExecuteCallCompiledOdd.
Proof. ok_all. Qed.
Lemma ok_ExecuteFinishCallN : ok ExecuteFinishCallN.
Proof. ok_all. Qed.
Lemma ok_ExecuteFinishCallNApply : ok ExecuteFinishCallNApply.
Proof. ok_all. Qed.
Lemma ok_ExecuteFinishCallTos : ok ExecuteFinishCallTos.
Proof. ok_all. Qed.
Lemma ok_ExecuteFinishCallTosApply : ok ExecuteFinishCallTosApply.
Proof. ok_all. Qed.
Lemma ok_ExecuteStartCall : ok ExecuteStartCall.
Proof. ok_all. Qed.
Lemma ok_ExecuteCallGeneric : ok ExecuteCallGeneric.
Proof. ok_all. Qed.
Lemma ok_ExecuteCallIndirect : ok ExecuteCallIndirect.
Proof. ok_all. Qed.
Lemma ok_ExecuteEntryRestAccepted : ok ExecuteEntryRestAccepted.
Proof. ok_all. Qed.
Lemma ok_ExecuteEntryRestNotAccepted : ok ExecuteEntryRestNotAccepted.
Proof. ok_all. Qed.
Lemma ok_ExecuteLocateLocals : ok ExecuteLocateLocals.
Proof. ok_all. Qed.
End calls.
#[export] Hint Resolve ok_ExecuteLoopDecrementTos ok_ExecuteLoopIncrementTosLessThan
  ok_ExecuteCallCompiledEven ok_ExecuteCallCompiledOdd ok_ExecuteFinishCallN
  ok_ExecuteFinishCallNApply ok_ExecuteFinishCallTos ok_ExecuteFinishCallTosApply
  ok_ExecuteStartCall ok_ExecuteCallGeneric ok_ExecuteCallIndirect ok_ExecuteEntryRestAccepted
  ok_ExecuteEntryRestNotAccepted ok_ExecuteLocateLocals : vlm_inv.

(** ** Frames.v *)

Section frames.
Context {env : Environment}.

Lemma ok_cbp_get c k : ok (cbp_get c k).
Proof. ok_all. Qed.
Hint Resolve ok_cbp_get : vlm_inv.
Lemma ok_pop_catch_block c n : ok (pop_catch_block c n).
Proof. ok_all. Qed.
Lemma ok_unbind_to l : ok l -> ok (unbind_to l).
Proof. ok_all. Qed.
Lemma ok_unbind_all : ok unbind_all.
Proof. ok_all. Qed.
Hint Resolve ok_pop_catch_block ok_unbind_to ok_unbind_all : vlm_inv.
Lemma ok_cleanup_catches : ok cleanup_catches.
Proof. ok_all. Qed.
Hint Resolve ok_cleanup_catches : vlm_inv.
Lemma ok_cleanup_frame : ok cleanup_frame.
Proof. ok_all. Qed.
Lemma ok_pop_frame d f c : is_u32 c -> ok (pop_frame d f c).
Proof. ok_all. Qed.
Lemma ok_after_return d : ok (after_return d).
Proof. ok_all. Qed.
Hint Resolve ok_cleanup_frame ok_pop_frame ok_after_return : vlm_inv.
Lemma ok_ReturnSingleInternal o : wf_obj o -> ok (ReturnSingleInternal o).
Proof. ok_all. Qed.
Hint Resolve ok_ReturnSingleInternal : vlm_inv.
Lemma ok_push_values f n v : (forall o, wf_obj o -> wf_obj (f o)) -> ok (push_values f n v).
Proof. intros Hf. revert v. induction n; ok_all. Qed.
Hint Resolve ok_push_values : vlm_inv.
Lemma ok_push_count f n v : (forall o, wf_obj o -> wf_obj (f o)) -> ok (push_count f n v).
Proof. ok_all. Qed.
Hint Resolve ok_push_count : vlm_inv.
Lemma ok_save_binding a b : wf_obj a -> wf_obj b -> ok (save_binding a b).
Proof. ok_all. Qed.
Lemma ok_commit_binding : ok commit_binding.
Proof. ok_all. Qed.
Lemma ok_unwind_catch_bindings c : ok (unwind_catch_bindings c).
Proof. ok_all. Qed.
Lemma ok_push_cleanup_pc o c : ok (push_cleanup_pc o c).
Proof. ok_all. Qed.
Hint Resolve ok_save_binding ok_commit_binding ok_unwind_catch_bindings ok_push_cleanup_pc : vlm_inv.
Lemma ok_unwind_protect_handler : ok unwind_protect_handler.
Proof. ok_all. Qed.

Lemma ok_ExecuteReturnSingleTOS : ok ExecuteReturnSingleTOS.
Proof. ok_all. Qed.
Lemma ok_ExecuteReturnSingleNIL : ok ExecuteReturnSingleNIL.
Proof. ok_all. Qed.
Lemma ok_ExecuteReturnSingleT : ok ExecuteReturnSingleT.
Proof. ok_all. Qed.
Lemma ok_ExecuteReturnMultiple : ok ExecuteReturnMultiple.
Proof. ok_all. Qed.
Lemma ok_ExecuteReturnKludge : ok ExecuteReturnKludge.
Proof. ok_all. Qed.
Lemma ok_ExecuteTakeValues : ok ExecuteTakeValues.
Proof. ok_all. Qed.
Lemma ok_ExecuteBindLocativeToValue : ok ExecuteBindLocativeToValue.
Proof. ok_all. Qed.
Lemma ok_ExecuteBindLocative : ok ExecuteBindLocative.
Proof. ok_all. Qed.
Lemma ok_ExecuteUnbindN : ok ExecuteUnbindN.
Proof. ok_all. Qed.
Lemma ok_ExecuteRestoreBindingStack : ok ExecuteRestoreBindingStack.
Proof. ok_all. Qed.
Lemma ok_ExecuteCatchOpen : ok ExecuteCatchOpen.
Proof. ok_all. Qed.
Lemma ok_ExecuteCatchClose : ok ExecuteCatchClose.
Proof. ok_all. Qed.
End frames.
#[export] Hint Resolve ok_ExecuteReturnSingleTOS ok_ExecuteReturnSingleNIL ok_ExecuteReturnSingleT
  ok_ExecuteReturnMultiple ok_ExecuteReturnKludge ok_ExecuteTakeValues
  ok_ExecuteBindLocativeToValue ok_ExecuteBindLocative ok_ExecuteUnbindN
  ok_ExecuteRestoreBindingStack ok_ExecuteCatchOpen ok_ExecuteCatchClose : vlm_inv.

(** ** ObjectInstr.v *)

Section objectinstr.
Context {env : Environment}.

Lemma ok_push_contents a : ok (push_contents a).
Proof. ok_all. Qed.
Lemma ok_bar_get k : ok (bar_get k).
Proof.
  unfold bar_get. ok_step. apply returns_of_option. intros o Ho.
  eapply Forall_nth_Z; [|exact Ho]. by apply wf_bar.
Qed.
Lemma ok_bar_put k o : wf_obj o -> ok (bar_put k o).
Proof.
  intros Ho. unfold bar_put. ok_step. apply returns_if; [|apply returns_undefined].
  apply ok_assign_ps. intros p Hp. apply wf_set_bar; [|done]. apply wf_upd_Z; [by apply wf_bar | done].
Qed.
Hint Resolve ok_push_contents ok_bar_get ok_bar_put : vlm_inv.
Lemma ok_ExecuteBlockRead k : ok (ExecuteBlockRead k).
Proof. ok_all. Qed.
Lemma ok_ExecuteBlockWrite k : ok (ExecuteBlockWrite k).
Proof. ok_all. Qed.
Lemma ok_ExecutePushWord k : ok (ExecutePushWord k).
Proof. ok_all. Qed.

Lemma ok_ExecutePushLexicalVar : ok ExecutePushLexicalVar.
Proof. ok_all. Qed.
Lemma ok_ExecutePopLexicalVar : ok ExecutePopLexicalVar.
Proof. ok_all. Qed.
Lemma ok_ExecuteMovemLexicalVar : ok ExecuteMovemLexicalVar.
Proof. ok_all. Qed.
Lemma ok_ExecutePushInstanceVariable : ok ExecutePushInstanceVariable.
Proof. ok_all. Qed.
Lemma ok_ExecutePopInstanceVariable : ok ExecutePopInstanceVariable.
Proof. ok_all. Qed.
Lemma ok_ExecuteMovemInstanceVariable : ok ExecuteMovemInstanceVariable.
Proof. ok_all. Qed.
Lemma ok_ExecutePushAddressInstanceVariable : ok ExecutePushAddressInstanceVariable.
Proof. ok_all. Qed.
Lemma ok_ExecutePushInstanceVariableOrdered : ok ExecutePushInstanceVariableOrdered.
Proof. ok_all. Qed.
Lemma ok_ExecutePopInstanceVariableOrdered : ok ExecutePopInstanceVariableOrdered.
Proof. ok_all. Qed.
Lemma ok_ExecuteMovemInstanceVariableOrdered : ok ExecuteMovemInstanceVariableOrdered.
Proof. ok_all. Qed.
Lemma ok_ExecutePushAddressInstanceVariableOrdered : ok ExecutePushAddressInstanceVariableOrdered.
Proof. ok_all. Qed.
Lemma ok_ExecuteInstanceRef : ok ExecuteInstanceRef.
Proof. ok_all. Qed.
Lemma ok_ExecuteInstanceSet : ok ExecuteInstanceSet.
Proof. ok_all. Qed.
Lemma ok_ExecuteInstanceLoc : ok ExecuteInstanceLoc.
Proof. ok_all. Qed.
Lemma ok_ExecuteUnsignedLesspImmediate : ok ExecuteUnsignedLesspImmediate.
Proof. ok_all. Qed.
Lemma ok_ExecuteUnsignedLessp : ok ExecuteUnsignedLessp.
Proof. ok_all. Qed.
Lemma ok_ExecuteUnsignedLesspNoPopImmediate : ok ExecuteUnsignedLesspNoPopImmediate.
Proof. ok_all. Qed.
Lemma ok_ExecuteUnsignedLesspNoPop : ok ExecuteUnsignedLesspNoPop.
Proof. ok_all. Qed.
Lemma ok_ExecutePointerPlusImmediate : ok ExecutePointerPlusImmediate.
Proof. ok_all. Qed.
Lemma ok_ExecutePointerPlus : ok ExecutePointerPlus.
Proof. ok_all. Qed.
Lemma ok_ExecutePointerDifferenceImmediate : ok ExecutePointerDifferenceImmediate.
Proof. ok_all. Qed.
Lemma ok_ExecutePointerDifference : ok ExecutePointerDifference.
Proof. ok_all. Qed.
Lemma ok_ExecutePointerIncrement : ok ExecutePointerIncrement.
Proof. ok_all. Qed.
Lemma ok_ExecuteAlu : ok ExecuteAlu.
Proof. ok_all. Qed.
Lemma ok_ExecuteAllocateListBlock : ok ExecuteAllocateListBlock.
Proof. ok_all. Qed.
Lemma ok_ExecuteAllocateStructureBlock : ok ExecuteAllocateStructureBlock.
Proof. ok_all. Qed.
Lemma ok_ExecuteBlockReadShift : ok ExecuteBlockReadShift.
Proof. ok_all. Qed.
Lemma ok_ExecuteBlockReadTest : ok ExecuteBlockReadTest.
Proof. ok_all. Qed.
Lemma ok_ExecuteBlockReadAlu : ok ExecuteBlockReadAlu.
Proof. ok_all. Qed.
Lemma ok_ExecuteMemoryRead : ok ExecuteMemoryRead.
Proof. ok_all. Qed.
Lemma ok_ExecuteMemoryReadAddress : ok ExecuteMemoryReadAddress.
Proof. ok_all. Qed.
Lemma ok_ExecuteStoreConditional : ok ExecuteStoreConditional.
Proof. ok_all. Qed.
Lemma ok_ExecuteMemoryWrite : ok ExecuteMemoryWrite.
Proof. ok_all. Qed.
Lemma ok_ExecutePStoreContents : ok ExecutePStoreContents.
Proof. ok_all. Qed.
Lemma ok_ExecuteTagImmediate : ok ExecuteTagImmediate.
Proof. ok_all. Qed.
Lemma ok_ExecuteTag : ok ExecuteTag.
Proof. ok_all. Qed.
Lemma ok_ExecuteSetTagImmediate : ok ExecuteSetTagImmediate.
Proof. ok_all. Qed.
Lemma ok_ExecuteSetTag : ok ExecuteSetTag.
Proof. ok_all. Qed.
Lemma ok_ExecuteSetCdrCode1 : ok ExecuteSetCdrCode1.
Proof. ok_all. Qed.
Lemma ok_ExecuteSetCdrCode2 : ok ExecuteSetCdrCode2.
Proof. ok_all. Qed.
Lemma ok_ExecuteMergeCdrNoPop : ok ExecuteMergeCdrNoPop.
Proof. ok_all. Qed.
Lemma ok_ExecuteJump : ok ExecuteJump.
Proof. ok_all. Qed.
Lemma ok_ExecutePushExternalValueCellPointer : ok ExecutePushExternalValueCellPointer.
Proof. ok_all. Qed.
Lemma ok_ExecuteEphemeralp : ok ExecuteEphemeralp.
Proof. ok_all. Qed.
Lemma ok_ExecuteDereference : ok ExecuteDereference.
Proof. ok_all. Qed.
Lemma ok_ExecuteUnify : ok ExecuteUnify.
Proof. ok_all. Qed.
Lemma ok_ExecutePushLocalLogicVariables : ok ExecutePushLocalLogicVariables.
Proof. ok_all. Qed.
Lemma ok_ExecuteLogicTailTest : ok ExecuteLogicTailTest.
Proof. ok_all. Qed.
End objectinstr.
#[export] Hint Resolve ok_ExecutePushLexicalVar ok_ExecutePopLexicalVar ok_ExecuteMovemLexicalVar
  ok_ExecutePushInstanceVariable ok_ExecutePopInstanceVariable ok_ExecuteMovemInstanceVariable
  ok_ExecutePushAddressInstanceVariable ok_ExecutePushInstanceVariableOrdered
  ok_ExecutePopInstanceVariableOrdered ok_ExecuteMovemInstanceVariableOrdered
  ok_ExecutePushAddressInstanceVariableOrdered ok_ExecuteInstanceRef ok_ExecuteInstanceSet
  ok_ExecuteInstanceLoc ok_ExecuteUnsignedLesspImmediate ok_ExecuteUnsignedLessp
  ok_ExecuteUnsignedLesspNoPopImmediate ok_ExecuteUnsignedLesspNoPop
  ok_ExecutePointerPlusImmediate ok_ExecutePointerPlus ok_ExecutePointerDifferenceImmediate
  ok_ExecutePointerDifference ok_ExecutePointerIncrement ok_ExecuteAlu ok_ExecuteAllocateListBlock
  ok_ExecuteAllocateStructureBlock ok_ExecuteBlockReadShift ok_ExecuteBlockReadTest
  ok_ExecuteBlockReadAlu ok_ExecuteMemoryRead ok_ExecuteMemoryReadAddress
  ok_ExecuteStoreConditional ok_ExecuteMemoryWrite ok_ExecutePStoreContents ok_ExecuteTagImmediate
  ok_ExecuteTag ok_ExecuteSetTagImmediate ok_ExecuteSetTag ok_ExecuteSetCdrCode1
  ok_ExecuteSetCdrCode2 ok_ExecuteMergeCdrNoPop ok_ExecuteJump
  ok_ExecutePushExternalValueCellPointer ok_ExecuteEphemeralp ok_ExecuteDereference
  ok_ExecuteUnify ok_ExecutePushLocalLogicVariables ok_ExecuteLogicTailTest : vlm_inv.

(** ** RegisterInstr.v *)

Section registerinstr.
Context {env : Environment}.

Hint Resolve ok_bar_get ok_bar_put : vlm_inv.
(** Every case of a register switch is preserving, so the selected one is. *)
Lemma ok_exec_switch n (cases : list (Z * Emu unit)) after :
  Forall (fun c => ok c.2) cases -> ok after ->
  ok (exec_case (switch n (map (fun c => (c.1, Some c.2)) cases) None) after).
Proof.
  intros Hc Ha. induction Hc as [|[k m] cs Hm _ IH]; simpl; [ok_all|].
  destruct (n =? k); [|done]. simpl in *. ok_all.
Qed.
Lemma ok_write_alu_control d p : is_u32 d -> wf_ps p -> wf_ps (write_alu_control d p).
Proof. intros. unfold write_alu_control. eauto 12 with vlm_range. Qed.
Hint Resolve ok_write_alu_control : vlm_range.
Lemma ok_readable_registers : Forall (fun c => ok c.2) readable_registers.
Proof. unfold readable_registers. repeat (apply Forall_cons_2; [simpl; ok_all|]). apply Forall_nil_2. Qed.
Lemma ok_writable_registers : Forall (fun c => ok c.2) writable_registers.
Proof. unfold writable_registers. repeat (apply Forall_cons_2; [simpl; ok_all|]). apply Forall_nil_2. Qed.

Lemma ok_cp_operand_then (k : Z -> Emu Goto) :
  (forall n, ok (k n)) -> ok (n <- cp_operand ;; k n).
Proof. intros Hk. ok_step. apply Hk. Qed.
Lemma ok_ExecuteReadInternalRegister : ok ExecuteReadInternalRegister.
Proof.
  apply ok_cp_operand_then. intros n. apply ok_exec_switch; [apply ok_readable_registers | ok_all].
Qed.
Lemma ok_ExecuteWriteInternalRegister : ok ExecuteWriteInternalRegister.
Proof.
  apply ok_cp_operand_then. intros n. apply ok_exec_switch; [apply ok_writable_registers | ok_all].
Qed.
Lemma ok_ExecuteCoprocessorRead : ok ExecuteCoprocessorRead.
Proof.
  apply ok_cp_operand_then. intros n. unfold switch.
  repeat case_match; simplify_eq; ok_all.
Qed.
Lemma ok_ExecuteCoprocessorWrite : ok ExecuteCoprocessorWrite.
Proof.
  apply ok_cp_operand_then. intros n. unfold switch.
  repeat case_match; simplify_eq; ok_all.
Qed.
End registerinstr.
#[export] Hint Resolve ok_ExecuteReadInternalRegister ok_ExecuteWriteInternalRegister
  ok_ExecuteCoprocessorRead ok_ExecuteCoprocessorWrite : vlm_inv.

(** * Preservation of the invariant by the sequencer: every instruction of the switch, the
    labels they leave through, the trap handler, and so every step. *)

#[local] Hint Constants Opaque : vlm_inv.

Section sequencer.
Context {env : Environment}.

(** An instruction body after its operand. *)
Lemma ok_then (a : Emu unit) (m : Emu Goto) : ok a -> ok m -> ok (a ;; m).
Proof. intros Ha Hm. eapply returns_bind; [exact Ha | intros; exact Hm]. Qed.
Hint Resolve ok_then : vlm_inv.
Hint Extern 1 (ok (ret _)) => apply ok_ret; exact I : vlm_inv.

Lemma ok_ExecuteBranch b t n : ok (ExecuteBranch b t n).
Proof. ok_all. Qed.
Hint Resolve ok_ExecuteBranch ok_ExecutePushWord ok_ExecuteBlockRead ok_ExecuteBlockWrite : vlm_inv.

Lemma ok_execute c : ok (execute c).
Proof. destruct c; cbv beta iota delta [execute]; auto 3 with vlm_inv. Qed.
Hint Resolve ok_execute ok_unwind_protect_handler ok_put_pc : vlm_inv.

Lemma ok_halt : ok halt.
Proof. ok_all. Qed.
Hint Resolve ok_halt : vlm_inv.
Lemma ok_save_and_halt : ok save_and_halt.
Proof. ok_all. Qed.
Lemma ok_enter_trap (take : Emu bool) : ok take -> ok (enter_trap take).
Proof. ok_all. Qed.
Lemma ok_after_trap (take : Emu bool) : ok take -> ok (after_trap take).
Proof. ok_all. Qed.
Hint Resolve ok_save_and_halt ok_enter_trap ok_after_trap : vlm_inv.
Lemma ok_unimplemented_instruction : ok unimplemented_instruction.
Proof. ok_all. Qed.
Lemma ok_illegal_operand : ok illegal_operand.
Proof. ok_all. Qed.
Lemma ok_instruction_exception n : wf_obj n -> ok (instruction_exception n).
Proof. ok_all. Qed.
Hint Resolve ok_unimplemented_instruction ok_illegal_operand ok_instruction_exception : vlm_inv.
Lemma ok_instruction_exception_tag : ok instruction_exception_tag.
Proof. ok_all. Qed.
Lemma ok_follow_pc_exception : ok follow_pc_exception.
Proof. ok_all. Qed.
Lemma ok_pull_apply_args_trap i : ok (pull_apply_args_trap i).
Proof. unfold pull_apply_args_trap. do 2 ok_step. apply ok_enter_trap, ok_TakePreTrap. Qed.
Lemma ok_next_instruction : ok next_instruction.
Proof. ok_all. Qed.
Hint Resolve ok_instruction_exception_tag ok_follow_pc_exception ok_pull_apply_args_trap
  ok_next_instruction : vlm_inv.
Lemma ok_goto_final g : ok (goto_final g).
Proof. ok_all. Qed.
Lemma ok_branch_taken : ok branch_taken.
Proof. ok_all. Qed.
Hint Resolve ok_goto_final ok_branch_taken : vlm_inv.
Lemma ok_goto g : ok (goto g).
Proof. ok_all. Qed.
Hint Resolve ok_goto : vlm_inv.
Lemma ok_lookup : ok lookup.
Proof. ok_all. Qed.
Lemma ok_dispatch_instruction : ok dispatch_instruction.
Proof. ok_all. Qed.
Lemma ok_trap v : ok (trap v).
Proof.
  unfold trap. do 2 ok_step.
  repeat match goal with |- returns _ (if _ then _ else _) _ => apply returns_if end.
  - by apply ok_ret.
  - apply ok_after_trap, ok_TakePreTrap.
  - ok_step. apply returns_if; [apply ok_halt | apply ok_after_trap, ok_TakePreTrap].
  - apply ok_halt.
  - apply ok_after_trap, ok_TakePreTrap.
  - do 2 ok_step. apply ok_after_trap, ok_TakeInstructionException. eauto with vlm_range.
  - apply returns_exit.
Qed.
Hint Resolve ok_lookup ok_dispatch_instruction ok_trap : vlm_inv.
Lemma ok_turn l : ok (turn l).
Proof. destruct l; ok_all. Qed.
Lemma ok_setjmp m : ok m -> ok (setjmp m).
Proof.
  intros Hm s Hs. destruct (Hm s Hs) as [H1 H2]. unfold setjmp.
  destruct (m s) as [[]?]; simpl in *; by split.
Qed.
Lemma ok_sequencer_step l : ok (sequencer_step l).
Proof. apply ok_setjmp, ok_turn. Qed.
Hint Resolve ok_sequencer_step : vlm_inv.

Lemma wf_step c c' : step c c' -> wf_state c.2 -> wf_state c'.2.
Proof.
  destruct 1 as [l s l' s' E|?|?|?]; simpl; intros Hs; [|eauto with vlm_range..].
  destruct (ok_sequencer_step l s Hs) as [H _]. by rewrite E in H.
Qed.
End sequencer.
