(* ===== verification/Run.v ===== *)
(** Symbolic execution of instruction bodies: views of a state (the words above and
    below the stack pointer, the operand), the states assignments lead to, and the
    equations of the accessors that evaluate to them.  The theorems about single
    instructions are proved by rewriting with these. *)

From S2P Require Export Preservation4.
#[local] Open Scope vlm_scope.

(** ** Views *)

(** [sp[k]]; [None] is outside the stack cache. *)
Definition stack_at (s : MachineState) (k : Z) : option LispObj :=
  nth_Z (StackCache (ps s)) (sp (regs s) + k).

(** [*op2] *)
Definition operand_value (s : MachineState) : option LispObj :=
  match op2 (regs s) with
  | OpStack i => nth_Z (StackCache (ps s)) i
  | OpImmediate => Some (immediate (regs s))
  | OpNone => None
  end.

(** The states after [ps->StackCache[i] = o], [sp[k] = o], [sp += n] and [*++sp = o]. *)
Definition write_stack (i : Z) (o : LispObj) (s : MachineState) : MachineState :=
  upd_ps (fun p => set_StackCache (upd_Z (StackCache p) i o) p) s.
Definition write_sp (k : Z) (o : LispObj) (s : MachineState) : MachineState :=
  write_stack (sp (regs s) + k) o s.
Definition move_sp (n : Z) (s : MachineState) : MachineState :=
  upd_regs (fun r => set_sp (sp r + n) r) s.
Definition push (o : LispObj) (s : MachineState) : MachineState := move_sp 1 (write_sp 1 o s).

(** ** Accessors *)

Section accessors.
Implicit Types (s : MachineState) (o : LispObj).

Lemma run_stack_get i o s : nth_Z (StackCache (ps s)) i = Some o -> stack_get i s = (Ok o, s).
Proof. intros E. unfold stack_get, get_ps. by rewrite run_bind_gets, E. Qed.

Lemma run_stack_put i o s : in_bounds (StackCache (ps s)) i = true ->
  stack_put i o s = (Ok tt, write_stack i o s).
Proof. intros E. unfold stack_put, get_ps. by rewrite run_bind_gets, E. Qed.

Lemma run_sp_get k o s : stack_at s k = Some o -> sp_get k s = (Ok o, s).
Proof. intros E. unfold sp_get, get_reg. rewrite run_bind_gets. by apply run_stack_get. Qed.

Lemma run_sp_put k o s : is_Some (stack_at s k) -> sp_put k o s = (Ok tt, write_sp k o s).
Proof.
  intros E. unfold sp_put, get_reg. rewrite run_bind_gets.
  apply run_stack_put, nth_Z_is_Some, E.
Qed.

Lemma run_sp_add n s : sp_add n s = (Ok tt, move_sp n s).
Proof. unfold sp_add, get_reg. rewrite run_bind_gets. by destruct s as [? []]. Qed.

Lemma run_op2_get o s : operand_value s = Some o -> op2_get s = (Ok o, s).
Proof.
  unfold operand_value, op2_get, get_reg, operand_get. rewrite run_bind_gets.
  destruct (op2 (regs s)); intros E; simplify_eq; [by apply run_stack_get | done].
Qed.

Lemma run_sp_set_DATA k d o s : stack_at s k = Some o ->
  sp_set_DATA k d s = (Ok tt, write_sp k (set_DATA d o) s).
Proof.
  intros E. unfold sp_set_DATA, stack_set_DATA, get_reg. rewrite run_bind_gets.
  erewrite bind_Ok by (apply run_stack_get, E). apply run_stack_put, nth_Z_is_Some. eauto.
Qed.

Lemma run_SetObject o s : is_Some (stack_at s 0) ->
  SetObject o s = (Ok tt, write_sp 0 (StoreCdrNext o) s).
Proof. intros. by apply run_sp_put. Qed.
Lemma run_SetFixnum n s : is_Some (stack_at s 0) ->
  SetFixnum n s = (Ok tt, write_sp 0 (obj TypeFixnum n) s).
Proof. intros. by apply run_sp_put. Qed.
Lemma run_SetPredicate b s : is_Some (stack_at s 0) ->
  SetPredicate b s = (Ok tt, write_sp 0 (if b then ObjectT else ObjectNIL) s).
Proof. intros. destruct b; by apply run_sp_put. Qed.

Lemma run_push o s : is_Some (stack_at s 1) ->
  (sp_put 1 o ;; sp_add 1) s = (Ok tt, push o s).
Proof. intros E. erewrite bind_Ok by (by apply run_sp_put). apply run_sp_add. Qed.
Lemma run_PushObject o s : is_Some (stack_at s 1) ->
  PushObject o s = (Ok tt, push (StoreCdrNext o) s).
Proof. apply run_push. Qed.
Lemma run_PushFixnum n s : is_Some (stack_at s 1) ->
  PushFixnum n s = (Ok tt, push (obj TypeFixnum n) s).
Proof. apply run_push. Qed.
Lemma run_PushConstant t d s : is_Some (stack_at s 1) ->
  PushConstant t d s = (Ok tt, push (obj (u8 t) d) s).
Proof. apply run_push. Qed.
Lemma run_PushPredicate b s : is_Some (stack_at s 1) ->
  PushPredicate b s = (Ok tt, push (if b then ObjectT else ObjectNIL) s).
Proof. intros. destruct b; by apply run_push. Qed.
Lemma run_PopObject o s : stack_at s 0 = Some o ->
  PopObject s = (Ok o, move_sp (-1) s).
Proof.
  intros E. unfold PopObject. erewrite bind_Ok by (by apply run_sp_get).
  by erewrite bind_Ok by (apply run_sp_add).
Qed.

Lemma run_next (m : Emu unit) s s' : m s = (Ok tt, s') -> next m s = (Ok NextInstruction, s').
Proof. intros E. unfold next. by erewrite bind_Ok by exact E. Qed.
End accessors.

(** ** Views of the resulting states *)

Section views.
Implicit Types (s : MachineState) (o : LispObj).

Lemma stack_at_write_stack i o s k :
  stack_at (write_stack i o s) k =
  if (i =? sp (regs s) + k) && in_bounds (StackCache (ps s)) i then Some o else stack_at s k.
Proof. unfold stack_at, write_stack. simpl. apply nth_upd. Qed.

Lemma stack_at_write_sp_eq k o s : is_Some (stack_at s k) -> stack_at (write_sp k o s) k = Some o.
Proof.
  intros H. unfold write_sp. rewrite stack_at_write_stack, Z.eqb_refl.
  by apply nth_Z_is_Some in H as ->.
Qed.
Lemma stack_at_write_sp_ne k j o s : k <> j -> stack_at (write_sp k o s) j = stack_at s j.
Proof.
  intros H. unfold write_sp. rewrite stack_at_write_stack.
  by destruct (Z.eqb_spec (sp (regs s) + k) (sp (regs s) + j)); [lia|].
Qed.
Lemma stack_at_move_sp n s k : stack_at (move_sp n s) k = stack_at s (n + k).
Proof. unfold stack_at, move_sp. simpl. by rewrite Z.add_assoc. Qed.
Lemma stack_at_Some_write_sp k j o s :
  is_Some (stack_at (write_sp k o s) j) <-> is_Some (stack_at s j).
Proof. unfold stack_at, write_sp, write_stack. simpl. rewrite !nth_Z_is_Some. by rewrite in_bounds_upd. Qed.

Lemma wf_stack_at s k o : wf_state s -> stack_at s k = Some o -> wf_obj o.
Proof. intros H E. eapply Forall_nth_Z; [|exact E]. apply wf_stack, H. Qed.
Lemma wf_operand_value s o : wf_state s -> operand_value s = Some o -> wf_obj o.
Proof.
  intros H. unfold operand_value. destruct (op2 (regs s)); intros E; simplify_eq.
  - eapply Forall_nth_Z; [|exact E]. apply wf_stack, H.
  - apply wf_immediate, H.
Qed.
End views.

(** ** Instructions on two fixnums *)

(** Where a type error leads: an exception the software handles when both operands
    are numbers, and an illegal operand otherwise. *)
Definition numeric_exception (x y : LispObj) : Goto :=
  if BinaryTypeNumericP (TAG y) (TAG x) then InstructionException else IllegalOperand.

Definition both_fixnums (x y : LispObj) : bool :=
  (TagType (TAG x) =? TypeFixnum) && (TagType (TAG y) =? TypeFixnum).

Lemma numeric_exception_fixnums x y : both_fixnums x y = true -> numeric_exception x y = InstructionException.
Proof.
  unfold both_fixnums, numeric_exception, BinaryTypeNumericP.
  intros [H1 H2]%andb_true_iff. rewrite <- TypeFixnumP_spec in H1, H2. apply TagType_numeric in H1, H2. unfold TypeNumericP in *.
  by rewrite H1, H2.
Qed.

Lemma both_fixnums_P x y : BinaryTypeFixnumP (TAG y) (TAG x) = both_fixnums x y.
Proof. rewrite BinaryTypeFixnumP_spec, !TypeFixnumP_spec. apply andb_comm. Qed.

Section binary.
Context (s : MachineState) (x y : LispObj).
Hypotheses (Hx : stack_at s 0 = Some x) (Hy : operand_value s = Some y).

Lemma run_BinaryTypeFixnumExceptions :
  BinaryTypeFixnumExceptions s = (Ok (numeric_exception x y), s).
Proof.
  unfold BinaryTypeFixnumExceptions. erewrite bind_Ok by (by apply run_op2_get).
  by erewrite bind_Ok by (by apply run_sp_get).
Qed.

Lemma run_binary_fixnum body :
  binary_fixnum body s =
  if both_fixnums x y then body x y s else (Ok (numeric_exception x y), s).
Proof.
  unfold binary_fixnum. erewrite bind_Ok by (by apply run_op2_get).
  erewrite bind_Ok by (by apply run_sp_get). rewrite both_fixnums_P.
  destruct (both_fixnums x y); [done | apply run_BinaryTypeFixnumExceptions].
Qed.

(** The instructions that store a result in the data of the top of the stack. *)
Lemma run_checked_fixnum result fits :
  checked_fixnum result fits s =
  if both_fixnums x y then
    if fits (DATAs x) (DATAs y)
    then (Ok NextInstruction, write_sp 0 (set_DATA (result (DATAs x) (DATAs y)) x) s)
    else (Ok InstructionException, s)
  else (Ok (numeric_exception x y), s).
Proof.
  unfold checked_fixnum. rewrite run_binary_fixnum.
  destruct (both_fixnums x y) eqn:B; [|done]. destruct (fits _ _).
  - by apply run_next, run_sp_set_DATA.
  - rewrite run_BinaryTypeFixnumExceptions. by rewrite numeric_exception_fixnums.
Qed.

Lemma run_fixnums_or_illegal body :
  fixnums_or_illegal body s = if both_fixnums x y then body x y s else (Ok IllegalOperand, s).
Proof.
  unfold fixnums_or_illegal. erewrite bind_Ok by (by apply run_op2_get).
  erewrite bind_Ok by (by apply run_sp_get). by rewrite both_fixnums_P; destruct both_fixnums.
Qed.
End binary.
