(* ===== verification/Sample.v ===== *)
(** Concrete machines on which the theorems are exercised. *)

From S2P Require Export Run.
#[local] Open Scope vlm_scope.

(** Every mapping succeeds and the clock counts instructions. *)
#[export] Instance sample_environment : Environment := {
  mmap_succeeds := fun _ _ => true;
  munmap_succeeds := fun _ => true;
  microsecond_clock := fun n => n;
  immediate_offset := 2000;
  loop_fuel := Z.to_nat 5000
}.

Lemma sample_fuel : loop_fuel <> O.
Proof.
  intros H. assert ((loop_fuel =? 0)%nat = false) as E by (vm_compute; reflexivity).
  by rewrite H in E.
Qed.

Definition fixnum (n : Z) : LispObj := obj TypeFixnum n.
Definition null_object : LispObj := obj TypeNull 0.

(** A processor with an empty instruction cache and a fresh stack cache. *)
Definition sample_processor : ProcessorState :=
  MkProcessorState 5 5 4 6 (MkObj TypeEvenPC 0) (MkObj TypeEvenPC 0) ∅ initial_stack
    896 [null_object; null_object; null_object; null_object]
    null_object null_object null_object null_object null_object
    0 InitialStackCacheBase 0 0 0 0 0 false 0 0 (Some ALUFunctionBoolean_class) 0 0 0 false false false 0 0
    (InitialStackCacheBase + 0xe00) (InitialStackCacheBase + 0xe80) 0 0 0 0 0 true 0.

Definition sample_registers : Registers :=
  MkRegisters 5 5 4 6 (MkObj TypeEvenPC 0) CPNone OpNone (fixnum 0).

Definition sample_VM : VMState := MkVMState 0 0 0 0 0 null_object.

Definition sample_machine : MachineState :=
  MkMachineState sample_processor sample_registers ∅ ∅ ∅ sample_VM 0 true
    null_object null_object 0 0.

(** Two operands: [x] on top of the stack and [y] immediate. *)
Definition two_operands (x y : LispObj) : MachineState :=
  upd_regs (fun r => set_op2 OpImmediate (set_immediate y r)) (write_sp 0 x sample_machine).

(** Memory with the word [o] at [vma], in a page that exists. *)
Definition poke (vma : Z) (o : LispObj) (s : MachineState) : MachineState :=
  set_DataSpace (<[vma := DATA o]> (DataSpace s))
   (set_TagSpace (<[vma := u8 (TAG o)]> (TagSpace s))
    (set_VMAttributeTable (<[MemoryPageNumber vma := VMCreatedDefault]> (VMAttributeTable s)) s)).

(** *** They are well formed *)

Lemma wf_initial_stack : Forall wf_obj initial_stack.
Proof. apply Forall_fmap, Forall_forall. intros i _. apply wf_obj_obj. Qed.

Lemma wf_sample_processor : wf_ps sample_processor.
Proof.
  constructor;
    [apply wf_initial_stack | done | apply map_Forall_empty | repeat constructor; by vm_compute
    | by vm_compute..].
Qed.

Lemma wf_sample_machine : wf_state sample_machine.
Proof.
  constructor;
    [ apply wf_sample_processor | constructor; by vm_compute | constructor; by vm_compute
    | apply map_Forall_empty | apply map_Forall_empty | apply map_Forall_empty
    | by vm_compute.. ].
Qed.

Lemma wf_poke a o s : wf_obj o -> wf_state s -> wf_state (poke a o s).
Proof.
  intros [_ Ho] []. constructor; simpl; try done.
  - by apply map_Forall_insert_2.
  - apply map_Forall_insert_2; [apply u8_range | done].
  - apply map_Forall_insert_2; [by vm_compute | done].
Qed.

Lemma wf_two_operands x y : wf_obj x -> wf_obj y -> wf_state (two_operands x y).
Proof.
  intros Hx Hy. unfold two_operands, write_sp, write_stack.
  apply wf_upd_regs; [eauto with vlm_range|]. apply wf_upd_ps; [|apply wf_sample_machine].
  intros p Hp. apply wf_set_StackCache; [|by rewrite upd_Z_length; apply Hp|done].
  apply Forall_upd_Z; [apply Hp | done].
Qed.
