(* ===== verification/ArithSpec.v ===== *)
(** What the arithmetic instructions compute, on every branch: addition, subtraction
    and multiplication are exact or take the exception, the divisions are the
    mathematical ones; then shifts, rotations and the double-length product as operations on
    32-bit words. *)

From S2P Require Export Sample.
#[local] Open Scope vlm_scope.

(** ** Results *)

Lemma DATAs_set_DATA n x : is_s32 n -> DATAs (set_DATA n x) = n.
Proof. intros H. unfold DATAs. simpl. rewrite s32_u32. by apply s32_small. Qed.
Lemma DATAs_fixnum n : is_s32 n -> DATAs (obj TypeFixnum n) = n.
Proof. intros H. unfold DATAs. simpl. rewrite s32_u32. by apply s32_small. Qed.
Lemma DATAs_range x : is_s32 (DATAs x).
Proof. apply s32_range. Qed.

Lemma write_sp_same k x s : stack_at s k = Some x -> write_sp k x s = s.
Proof.
  intros E. destruct s as [p ?]. unfold write_sp, write_stack, upd_ps, set_ps. simpl.
  f_equal. unfold stack_at in E. simpl in E. rewrite upd_Z_same by exact E. by destruct p.
Qed.

(** The outcome of an instruction that replaces the data of the top of the stack by
    [n] when [n] is a 32-bit integer. *)
Definition exact_result (s : MachineState) (x y : LispObj) (n : Z) : outcome Goto * MachineState :=
  if both_fixnums x y then
    if fits_s32 n then (Ok NextInstruction, write_sp 0 (set_DATA n x) s)
    else (Ok InstructionException, s)
  else (Ok (numeric_exception x y), s).

Lemma add_fits_spec x y : is_s32 x -> is_s32 y -> add_fits x y = fits_s32 (x + y).
Proof. intros. unfold add_fits. by apply add_overflow_test. Qed.
Lemma sub_fits_spec x y : is_s32 x -> is_s32 y -> sub_fits x y = fits_s32 (x - y).
Proof. intros. unfold sub_fits. by apply sub_overflow_test. Qed.

Lemma exact_checked s x y result fits n :
  stack_at s 0 = Some x -> operand_value s = Some y ->
  fits (DATAs x) (DATAs y) = fits_s32 n ->
  (fits_s32 n = true -> result (DATAs x) (DATAs y) = n) ->
  checked_fixnum result fits s = exact_result s x y n.
Proof.
  intros Hx Hy Hf Hr. rewrite (run_checked_fixnum _ _ _ Hx Hy). unfold exact_result.
  rewrite Hf. destruct (fits_s32 n); [by rewrite Hr | done].
Qed.

(** ** Addition, subtraction, multiplication *)

(** C21. ExecuteAdd: on two fixnums it replaces the data of the top of the stack by the
    exact sum when the sum is a 32-bit integer, and otherwise takes the exception with
    nothing changed; on other operands it goes to the exception label the types select. *)
Theorem ExecuteAdd_exact s x y :
  stack_at s 0 = Some x -> operand_value s = Some y ->
  ExecuteAdd s = exact_result s x y (DATAs x + DATAs y).
Proof.
  intros Hx Hy. apply exact_checked; try done.
  - apply add_fits_spec; apply DATAs_range.
  - intros H%fits_s32_spec. by apply s32_small.
Qed.

Lemma ExecuteAdd_exact_witness :
  ExecuteAdd (two_operands (fixnum (2 ^ 31 - 1)) (fixnum 1)) =
  (Ok InstructionException, two_operands (fixnum (2 ^ 31 - 1)) (fixnum 1)).
Proof. by rewrite (ExecuteAdd_exact _ (fixnum (2 ^ 31 - 1)) (fixnum 1)). Defined.

(** ExecuteSub: the difference is exact or the exception is taken, as for ExecuteAdd. *)
Theorem ExecuteSub_exact s x y :
  stack_at s 0 = Some x -> operand_value s = Some y ->
  ExecuteSub s = exact_result s x y (DATAs x - DATAs y).
Proof.
  intros Hx Hy. apply exact_checked; try done.
  - apply sub_fits_spec; apply DATAs_range.
  - intros H%fits_s32_spec. by apply s32_small.
Qed.

Lemma ExecuteSub_exact_witness :
  ExecuteSub (two_operands (fixnum (- 2 ^ 31)) (fixnum 1)) =
  (Ok InstructionException, two_operands (fixnum (- 2 ^ 31)) (fixnum 1)).
Proof. by rewrite (ExecuteSub_exact _ (fixnum (- 2 ^ 31)) (fixnum 1)). Defined.

(** C34. ExecuteMultiply: the 64-bit product is stored when it is a 32-bit integer, and the
    exception is taken otherwise. *)
Theorem ExecuteMultiply_exact s x y :
  stack_at s 0 = Some x -> operand_value s = Some y ->
  ExecuteMultiply s = exact_result s x y (DATAs x * DATAs y).
Proof.
  intros Hx Hy. apply exact_checked; try done. unfold fits_s32, int_min, int_max.
  f_equal. zcase; lia.
Qed.

Lemma ExecuteMultiply_exact_witness :
  ExecuteMultiply (two_operands (fixnum (-50000)) (fixnum 40000)) =
  (Ok NextInstruction, write_sp 0 (fixnum (-2000000000)) (two_operands (fixnum (-50000)) (fixnum 40000))).
Proof. by rewrite (ExecuteMultiply_exact _ (fixnum (-50000)) (fixnum 40000)). Defined.

(** ** Division *)

(** The outcome of a division that returns two values. *)
Definition division_result (s : MachineState) (x y : LispObj) (q r : Z) : outcome Goto * MachineState :=
  if both_fixnums x y then
    if DATAs y =? 0 then (Ok IllegalOperand, s)
    else if (DATAs x =? - 2 ^ 31) && (DATAs y =? -1) then (Ok InstructionException, s)
    else (Ok NextInstruction, push (obj TypeFixnum r) (write_sp 0 (obj TypeFixnum q) s))
  else (Ok (numeric_exception x y), s).

Section division.
Context (s : MachineState) (x y : LispObj).
Hypotheses (Hx : stack_at s 0 = Some x) (Hy : operand_value s = Some y)
           (Hroom : is_Some (stack_at s 1)).

Lemma run_two_values q r :
  two_values q r s = (Ok NextInstruction, push (obj TypeFixnum r) (write_sp 0 (obj TypeFixnum q) s)).
Proof.
  unfold two_values. apply run_next. erewrite bind_Ok by (apply run_SetFixnum; eauto).
  apply run_PushFixnum. by apply stack_at_Some_write_sp.
Qed.

(** A division is right when its body is, on the truncated quotient and remainder. *)
Lemma run_divide body q r :
  (DATAs y <> 0 ->
   body (Z.quot (DATAs x) (DATAs y)) (Z.rem (DATAs x) (DATAs y)) (DATAs y) s = two_values q r s) ->
  divide_fixnums body s = division_result s x y q r.
Proof.
  intros Hb. unfold divide_fixnums, division_result. rewrite (run_binary_fixnum _ _ _ Hx Hy).
  destruct (both_fixnums x y); [|done]. cbv zeta. unfold int_min.
  destruct (Z.eqb_spec (DATAs y) 0) as [|Hne]; [done|]. case_match; [done|].
  replace (DATAs x - _) with (Z.rem (DATAs x) (DATAs y)).
  - rewrite Hb by done. apply run_two_values.
  - pose proof (Z.quot_rem' (DATAs x) (DATAs y)). lia.
Qed.
End division.

Lemma eqb_leb_0 r y : y <> 0 -> r <> 0 -> Bool.eqb (0 <=? r) (0 <=? y) = (0 <? r * y).
Proof. intros. destruct (Z.leb_spec 0 r), (Z.leb_spec 0 y), (Z.ltb_spec 0 (r * y)); simpl; nia. Qed.

(** The quotient and remainder toward minus infinity, from the truncated ones. *)
Definition away_p (r y : Z) : bool := negb (r =? 0) && negb (0 <? r * y).

Lemma floor_of_quot x y : y <> 0 ->
  x / y = (if away_p (Z.rem x y) y then Z.quot x y - 1 else Z.quot x y) /\
  x mod y = (if away_p (Z.rem x y) y then Z.rem x y + y else Z.rem x y).
Proof.
  intros Hy. pose proof (Z.quot_rem' x y) as E.
  pose proof (Z.rem_bound_abs x y Hy) as B.
  set (q := Z.quot x y) in *. set (r := Z.rem x y) in *.
  assert (forall q' r', x = y * q' + r' -> (0 <= r' < y \/ y < r' <= 0) -> x / y = q' /\ x mod y = r') as U.
  { intros q' r' E' B'. split; symmetry; [by apply (Z.div_unique x y q' r') | by apply (Z.mod_unique x y q' r')]. }
  unfold away_p. destruct (Z.eqb_spec r 0); simpl; [apply U; lia|].
  destruct (Z.ltb_spec 0 (r * y)); simpl; apply U; nia.
Qed.

(** ExecuteFloor is division toward minus infinity: the top of the stack becomes the
    floor of the quotient and the remainder, which has the sign of the divisor, is
    pushed.  A zero divisor is an illegal operand, and the overflowing quotient takes
    the exception. *)
Theorem ExecuteFloor_correct s x y :
  stack_at s 0 = Some x -> operand_value s = Some y -> is_Some (stack_at s 1) ->
  ExecuteFloor s = division_result s x y (DATAs x / DATAs y) (DATAs x mod DATAs y).
Proof.
  intros Hx Hy Hr. apply run_divide; [done..|]. intros Hne.
  destruct (floor_of_quot (DATAs x) (DATAs y) Hne) as [-> ->]. unfold away_p.
  destruct (Z.eqb_spec (Z.rem (DATAs x) (DATAs y)) 0) as [E|E]; [done|].
  rewrite eqb_leb_0 by done. by destruct (_ <? _).
Qed.

Lemma ExecuteFloor_correct_witness :
  ExecuteFloor (two_operands (fixnum (-7)) (fixnum 2)) =
  (Ok NextInstruction, push (fixnum 1) (write_sp 0 (fixnum (-4)) (two_operands (fixnum (-7)) (fixnum 2)))).
Proof. rewrite (ExecuteFloor_correct _ (fixnum (-7)) (fixnum 2)); [reflexivity..|by eexists]. Defined.

(** ExecuteCeiling is division toward plus infinity, with the remainder that goes with it. *)
Theorem ExecuteCeiling_correct s x y :
  stack_at s 0 = Some x -> operand_value s = Some y -> is_Some (stack_at s 1) ->
  ExecuteCeiling s =
  division_result s x y (- (- DATAs x / DATAs y)) (DATAs x + DATAs y * (- DATAs x / DATAs y)).
Proof.
  intros Hx Hy Hr. apply run_divide; [done..|]. intros Hne.
  set (a := DATAs x). set (b := DATAs y) in *.
  destruct (floor_of_quot (- a) b Hne) as [-> _]. rewrite Z.quot_opp_l, Z.rem_opp_l by done.
  pose proof (Z.quot_rem' a b) as D. unfold away_p. set (q := Z.quot a b) in *. set (r := Z.rem a b) in *.
  destruct (Z.eqb_spec r 0) as [E|E].
  - replace (- r =? 0) with true by lia. simpl. f_equal; lia.
  - replace (- r =? 0) with false by lia. rewrite eqb_leb_0 by done.
    destruct (Z.ltb_spec 0 (r * b)); destruct (Z.ltb_spec 0 (- r * b)); simpl; try nia; f_equal; lia.
Qed.

Lemma ExecuteCeiling_correct_witness :
  ExecuteCeiling (two_operands (fixnum 7) (fixnum 2)) =
  (Ok NextInstruction, push (fixnum (-1)) (write_sp 0 (fixnum 4) (two_operands (fixnum 7) (fixnum 2)))).
Proof. rewrite (ExecuteCeiling_correct _ (fixnum 7) (fixnum 2)); [reflexivity..|by eexists]. Defined.

(** ExecuteTruncate is division toward zero: the remainder has the sign of the dividend. *)
Theorem ExecuteTruncate_correct s x y :
  stack_at s 0 = Some x -> operand_value s = Some y -> is_Some (stack_at s 1) ->
  ExecuteTruncate s = division_result s x y (Z.quot (DATAs x) (DATAs y)) (Z.rem (DATAs x) (DATAs y)).
Proof. intros Hx Hy Hr. by apply run_divide. Qed.

Lemma ExecuteTruncate_correct_witness :
  ExecuteTruncate (two_operands (fixnum (-7)) (fixnum 2)) =
  (Ok NextInstruction, push (fixnum (-1)) (write_sp 0 (fixnum (-3)) (two_operands (fixnum (-7)) (fixnum 2)))).
Proof. rewrite (ExecuteTruncate_correct _ (fixnum (-7)) (fixnum 2)); [reflexivity..|by eexists]. Defined.

(** ** Rounding *)

(** [q] is the integer nearest to [x / y], the even one of two. *)
Definition nearest_even (x y q : Z) : Prop :=
  2 * Z.abs (x - q * y) <= Z.abs y /\ (2 * Z.abs (x - q * y) = Z.abs y -> Z.even q = true).

Definition same_sign (x y : Z) : Prop := (0 <= x /\ 0 < y) \/ (x <= 0 /\ y < 0).

Lemma round_up_nearest x y : is_s32 x -> is_s32 y -> same_sign x y ->
  let q := Z.quot x y in
  nearest_even x y (if round_up_p q (Z.rem x y) y then q + 1 else q).
Proof.
  intros Hx Hy Hs q. unfold same_sign, is_s32 in *.
  pose proof (Z.quot_rem' x y) as E. fold q in E.
  assert (Hr : (0 <= Z.rem x y < y /\ 0 < y) \/ (y < Z.rem x y <= 0 /\ y < 0)).
  { destruct Hs as [[? ?]|[? ?]]; [left | right]; (split; [|lia]).
    - by apply Z.rem_bound_pos.
    - pose proof (Z.rem_nonpos x y). pose proof (Z.rem_bound_abs x y). lia. }
  set (r := Z.rem x y) in *. unfold round_up_p. rewrite s32_small by (unfold is_s32; lia).
  assert (Hq : x - q * y = r) by lia. assert (Hq1 : x - (q + 1) * y = r - y) by lia.
  unfold nearest_even. destruct (Z.eqb_spec (y - r - r) 0) as [T|T].
  - destruct (Z.odd q) eqn:O; rewrite ?Hq, ?Hq1.
    + split; [lia|]. intros _. by rewrite Z.even_add, <- Z.negb_odd, O.
    + split; [lia|]. intros _. by rewrite <- Z.negb_odd, O.
  - destruct (Z.ltb_spec 0 y);
      [destruct (Z.ltb_spec (y - r - r) 0) | destruct (Z.ltb_spec 0 (y - r - r))];
      rewrite ?Hq, ?Hq1; split; lia.
Qed.

(** Rounding up happens only when the operands differ, so that [*op2] is still the
    divisor after the quotient is stored on the top of the stack. *)
Lemma operand_after_store s x y q :
  stack_at s 0 = Some x -> operand_value s = Some y -> x <> y ->
  operand_value (write_sp 0 q s) = Some y.
Proof.
  intros Hx Hy Hne. unfold operand_value, stack_at in *. simpl.
  destruct (op2 (regs s)) as [i| |]; [|done..]. rewrite nth_upd_ne; [done|].
  intros E. rewrite E in Hx. congruence.
Qed.

Lemma round_up_ne x y q r : r = x - y * q -> q = Z.quot x y -> is_s32 y -> y <> 0 ->
  round_up_p q r y = true -> x <> y.
Proof.
  intros -> -> Hy H0 H ->. revert H. rewrite Z.quot_same by done. unfold round_up_p.
  replace (y - (y - y * 1) - (y - y * 1)) with y by lia. rewrite s32_small by done.
  zcase; done || lia.
Qed.

(** C35. ExecuteRound: on fixnums of the same sign with a divisor that is not zero and a
    quotient that does not overflow, the top of the stack becomes the nearest integer to the quotient, the even one of two, and the
    matching remainder is pushed. *)
Theorem ExecuteRound_nearest s x y :
  stack_at s 0 = Some x -> operand_value s = Some y -> is_Some (stack_at s 1) ->
  both_fixnums x y = true -> same_sign (DATAs x) (DATAs y) ->
  (DATAs x = - 2 ^ 31 -> DATAs y <> -1) ->
  exists q, nearest_even (DATAs x) (DATAs y) q /\
    ExecuteRound s =
    (Ok NextInstruction,
     push (obj TypeFixnum (DATAs x - q * DATAs y)) (write_sp 0 (obj TypeFixnum q) s)).
Proof.
  intros Hx Hy Hroom B Hs Ho. eexists. split.
  { by apply round_up_nearest; [apply DATAs_range..|]. }
  unfold ExecuteRound, divide_fixnums. rewrite (run_binary_fixnum _ _ _ Hx Hy), B. cbv zeta.
  assert (DATAs y <> 0) as H0 by (unfold same_sign in Hs; lia).
  destruct (Z.eqb_spec (DATAs y) 0); [done|].
  replace ((DATAs x =? int_min) && (DATAs y =? -1)) with false
    by (unfold int_min; destruct (Z.eqb_spec (DATAs x) (- 2 ^ 31)), (Z.eqb_spec (DATAs y) (-1)); naive_solver).
  set (q := Z.quot (DATAs x) (DATAs y)).
  replace (DATAs x - DATAs y * q) with (Z.rem (DATAs x) (DATAs y))
    by (pose proof (Z.quot_rem' (DATAs x) (DATAs y)); unfold q; lia).
  pose proof (Z.quot_rem' (DATAs x) (DATAs y)) as E.
  destruct (round_up_p q _ _) eqn:U.
  - assert (x <> y) as Hne.
    { intros ->. by apply (round_up_ne (DATAs y) (DATAs y) q (Z.rem (DATAs y) (DATAs y)) ltac:(unfold q; lia) eq_refl (DATAs_range y)) in U. }
    erewrite bind_Ok by (apply run_SetFixnum; eauto).
    erewrite bind_Ok by (apply run_op2_get, (operand_after_store _ x y); done).
    apply run_next. erewrite run_PushFixnum by (by apply stack_at_Some_write_sp).
    do 3 f_equal. unfold q in *. lia.
  - rewrite (run_two_values s x) by done. do 3 f_equal. unfold q. lia.
Qed.

Lemma ExecuteRound_nearest_witness :
  exists q, nearest_even 14 4 q /\
  ExecuteRound (two_operands (fixnum 14) (fixnum 4)) =
  (Ok NextInstruction, push (fixnum (14 - q * 4)) (write_sp 0 (fixnum q) (two_operands (fixnum 14) (fixnum 4)))).
Proof.
  apply (ExecuteRound_nearest _ (fixnum 14) (fixnum 4)); try reflexivity; [by eexists| |].
  - left. by vm_compute.
  - done.
Defined.

(** * Shifts, rotations and the double-length product as operations on 32-bit words. *)

(** The instruction replaces the top of the stack by some [o] that satisfies [P]. *)
Definition replaces_top (i : Emu Goto) (s : MachineState) (P : LispObj -> Prop) : Prop :=
  exists o, i s = (Ok NextInstruction, write_sp 0 o s) /\ P o.

Lemma replaces_same i s x (P : LispObj -> Prop) :
  stack_at s 0 = Some x -> i s = (Ok NextInstruction, s) -> P x -> replaces_top i s P.
Proof. intros Hx E H. exists x. by rewrite write_sp_same by done. Qed.

Lemma fixnum_of_both x y : both_fixnums x y = true -> TypeFixnumP (TAG x) = true.
Proof. intros [H _]%andb_true_iff. by rewrite TypeFixnumP_spec. Qed.

Lemma run_shl_s32 x n s : 0 <= n < 32 -> shl_s32 x n s = (Ok (s32 (Z.shiftl x n)), s).
Proof. intros H. unfold shl_s32, shift_count_ok. by replace ((0 <=? n) && (n <? 32)) with true by lia. Qed.
Lemma run_shl_u32 x n s : 0 <= n < 32 -> shl_u32 x n s = (Ok (u32 (Z.shiftl x n)), s).
Proof. intros H. unfold shl_u32, shift_count_ok. by replace ((0 <=? n) && (n <? 32)) with true by lia. Qed.
Lemma run_shr_32 x n s : 0 <= n < 32 -> shr_32 x n s = (Ok (Z.shiftr x n), s).
Proof. intros H. unfold shr_32, shift_count_ok. by replace ((0 <=? n) && (n <? 32)) with true by lia. Qed.

Lemma shiftl_pos_neg x n : 0 < n -> Z.shiftl x (- n) = Z.shiftr x n.
Proof. intros. by rewrite Z.shiftl_opp_r. Qed.

Lemma is_s32_shiftr x n : is_s32 x -> 0 <= n -> is_s32 (Z.shiftr x n).
Proof.
  intros [H1 H2] Hn. rewrite Z.shiftr_div_pow2 by done.
  assert (0 < 2 ^ n) by (apply Z.pow_pos_nonneg; lia).
  split; [apply Z.div_le_lower_bound; nia | apply Z.div_lt_upper_bound; nia].
Qed.

Section shifts.
Context (s : MachineState) (x y : LispObj).
Hypotheses (Hx : stack_at s 0 = Some x) (Hy : operand_value s = Some y)
           (Hb : both_fixnums x y = true).

Lemma replaces_fixnum i n (P : LispObj -> Prop) :
  i s = next (SetFixnum n) s -> P (obj TypeFixnum n) -> replaces_top i s P.
Proof.
  intros E H. eexists. rewrite E. split; [|exact H]. apply run_next, run_SetFixnum. eauto.
Qed.

Lemma replaces_data i n (P : LispObj -> Prop) :
  i s = next (sp_set_DATA 0 n) s -> P (set_DATA n x) -> replaces_top i s P.
Proof. intros E H. eexists. rewrite E. split; [|exact H]. by apply run_next, run_sp_set_DATA. Qed.

(** C36. ExecuteAsh: for a count from -31 to 31 whose exact result is a 32-bit integer, the top
    of the stack becomes the fixnum shifted arithmetically: multiplied by the power of
    two for a left shift, the floor of the quotient for a right shift. *)
Theorem ExecuteAsh_exact :
  -31 <= DATAs y <= 31 -> is_s32 (Z.shiftl (DATAs x) (DATAs y)) ->
  replaces_top ExecuteAsh s (fun o =>
    DATAs o = Z.shiftl (DATAs x) (DATAs y) /\ TypeFixnumP (TAG o) = true).
Proof.
  intros Hc Hf. pose proof (run_binary_fixnum s x y Hx Hy) as R. rewrite Hb in R.
  unfold ExecuteAsh. destruct (Z.eqb_spec (DATAs y) 0) as [E0|E0];
    [|destruct (Z.eqb_spec (DATAs x) 0) as [E1|E1]].
  1,2: apply (replaces_same _ _ x); [done | rewrite R; cbv zeta | split; [|by eapply fixnum_of_both]].
  - by rewrite E0.
  - by rewrite E0.
  - by rewrite E1, orb_true_r.
  - by rewrite E1, Z.shiftl_0_l.
  - destruct (Z.ltb_spec 0 (DATAs y)) as [P|P].
    + apply (replaces_fixnum _ (Z.shiftl (DATAs x) (DATAs y))); [|split; [by apply DATAs_fixnum | done]].
      rewrite R. cbv zeta. replace ((DATAs y =? 0) || (DATAs x =? 0)) with false by lia.
      replace (0 <? DATAs y) with true by lia.
      erewrite bind_Ok by (apply run_shl_s32; lia). rewrite s32_small by done.
      rewrite Z.shiftl_mul_pow2 by lia.
      assert (0 < 2 ^ DATAs y) by (apply Z.pow_pos_nonneg; lia).
      replace (DATAs x * 2 ^ DATAs y =? 0) with false by nia.
      replace (DATAs x * 2 ^ DATAs y <? 0) with (DATAs x <? 0) by (zcase; nia).
      by rewrite eqb_reflx.
    + apply (replaces_fixnum _ (Z.shiftl (DATAs x) (DATAs y))); [|split; [by apply DATAs_fixnum | done]].
      rewrite R. cbv zeta. replace ((DATAs y =? 0) || (DATAs x =? 0)) with false by lia.
      replace (0 <? DATAs y) with false by lia.
      erewrite bind_Ok by (apply run_shr_32; lia).
      by rewrite <- Z.shiftl_opp_r, Z.opp_involutive.
Qed.

Lemma u32_shiftl_far d n : 31 < n -> u32 (Z.shiftl d n) = 0.
Proof.
  intros H. unfold u32. rewrite Z.shiftl_mul_pow2 by lia.
  replace (2 ^ n) with (2 ^ (n - 32) * 2 ^ 32) by (rewrite <- Z.pow_add_r; f_equal; lia).
  by rewrite Z.mul_assoc, Z.mod_mul.
Qed.
Lemma shiftr_far d n : is_u32 d -> 32 <= n -> Z.shiftr d n = 0.
Proof.
  intros [H1 H2] H. rewrite Z.shiftr_div_pow2 by lia. apply Z.div_small.
  split; [done|]. eapply Z.lt_le_trans; [exact H2|]. apply Z.pow_le_mono_r; lia.
Qed.

(** ExecuteLsh: for every fixnum count, the top of the stack becomes the word shifted
    logically, with zeros shifted in and the bits beyond the word dropped. *)
Theorem ExecuteLsh_correct :
  is_u32 (DATA x) ->
  replaces_top ExecuteLsh s (fun o => DATA o = u32 (Z.shiftl (DATA x) (DATAs y))).
Proof.
  intros Hw. pose proof (run_fixnums_or_illegal s x y Hx Hy) as R. rewrite Hb in R.
  unfold ExecuteLsh. destruct (Z.eqb_spec (DATAs y) 0) as [E0|E0].
  { apply (replaces_same _ _ x); [done|rewrite R; cbv zeta|]; rewrite E0; [done|].
    by rewrite Z.shiftl_0_r, u32_small. }
  destruct (Z.ltb_spec 31 (DATAs y)) as [Hl|Hl]; [|destruct (Z.ltb_spec (DATAs y) (-31)) as [Hr|Hr]].
  1,2: apply (replaces_fixnum _ 0); [rewrite R; cbv zeta|].
  - replace (DATAs y =? 0) with false by lia. by replace (31 <? DATAs y) with true by lia.
  - by rewrite u32_shiftl_far.
  - replace (DATAs y =? 0) with false by lia. replace (31 <? DATAs y) with false by lia.
    by replace (DATAs y <? -31) with true by lia.
  - replace (DATAs y) with (- - DATAs y) by lia. rewrite Z.shiftl_opp_r.
    by rewrite shiftr_far by (done || lia).
  - destruct (Z.ltb_spec 0 (DATAs y)) as [P|P].
    + apply (replaces_fixnum _ (u32 (Z.shiftl (DATA x) (DATAs y)))); [|apply u32_idem].
      rewrite R. cbv zeta. replace (DATAs y =? 0) with false by lia.
      replace (31 <? DATAs y) with false by lia. replace (DATAs y <? -31) with false by lia.
      replace (0 <? DATAs y) with true by lia. cbn [orb]. by erewrite bind_Ok by (apply run_shl_u32; lia).
    + apply (replaces_fixnum _ (Z.shiftr (DATA x) (- DATAs y))).
      * rewrite R. cbv zeta. replace (DATAs y =? 0) with false by lia.
        replace (31 <? DATAs y) with false by lia. replace (DATAs y <? -31) with false by lia.
        replace (0 <? DATAs y) with false by lia. cbn [orb]. by erewrite bind_Ok by (apply run_shr_32; lia).
      * simpl. by rewrite <- Z.shiftl_opp_r, Z.opp_involutive.
Qed.

(** ExecuteRot: for every fixnum count, bit [i] of the result is bit [i - count], taken
    modulo 32, of the word on the top of the stack. *)
Theorem ExecuteRot_correct :
  is_u32 (DATA x) ->
  replaces_top ExecuteRot s (fun o => forall i, 0 <= i < 32 ->
    Z.testbit (DATA o) i = Z.testbit (DATA x) ((i - DATAs y) mod 32)).
Proof.
  intros Hw. pose proof (run_fixnums_or_illegal s x y Hx Hy) as R. rewrite Hb in R.
  unfold ExecuteRot.
  assert (Hp : Z.land (DATAs y) 31 = DATAs y mod 32) by (by rewrite <- (Z.land_ones _ 5)).
  pose proof (Z.mod_pos_bound (DATAs y) 32 ltac:(lia)) as B.
  pose proof (Z.div_mod (DATAs y) 32 ltac:(lia)) as D. set (p := DATAs y mod 32) in *.
  assert (Hm : forall i, (i - DATAs y) mod 32 = (i - p) mod 32).
  { intros i. replace (i - DATAs y) with (i - p + (- (DATAs y / 32)) * 32) by lia.
    by rewrite Z.mod_add. }
  destruct (Z.eqb_spec p 0) as [E0|E0].
  { apply (replaces_same _ _ x); [done|rewrite R; cbv zeta; rewrite Hp, E0; done|].
    intros i Hi. rewrite Hm, E0, Z.sub_0_r, Z.mod_small by done. done. }
  apply (replaces_data _ (Z.lor (u32 (Z.shiftl (DATA x) p)) (Z.shiftr (DATA x) (32 - p)))).
  { rewrite R. cbv zeta. rewrite Hp. replace (p =? 0) with false by lia.
    erewrite bind_Ok by (apply run_shl_u32; lia). by erewrite bind_Ok by (apply run_shr_32; lia). }
  intros i Hi. cbn [DATA set_DATA]. rewrite Hm, u32_testbit, Z.lor_spec, u32_testbit by lia.
  replace (i <? 32) with true by lia. simpl. rewrite Z.shiftr_spec, Z.shiftl_spec by lia.
  destruct (Z.leb_spec p i) as [Hle|Hlt].
  - rewrite (Z.mod_small (i - p)) by lia. rewrite (testbit_above _ 32 (i + _)) by (apply Hw || lia).
    apply orb_false_r.
  - rewrite Z.testbit_neg_r by lia. simpl. f_equal.
    replace (i - p) with (i - p + 32 + (-1) * 32) by lia. rewrite Z.mod_add by lia.
    rewrite Z.mod_small by lia. lia.
Qed.

(** ExecuteMultiplyBignumStep: the two words it leaves are the low and the high half of the
    unsigned 64-bit product of the operands. *)
Theorem ExecuteMultiplyBignumStep_product :
  is_Some (stack_at s 1) -> is_u32 (DATA x) -> is_u32 (DATA y) ->
  exists low high, low + 2 ^ 32 * high = DATA x * DATA y /\ is_u32 low /\ is_u32 high /\
    ExecuteMultiplyBignumStep s =
    (Ok NextInstruction, push (obj TypeFixnum high) (write_sp 0 (obj TypeFixnum low) s)).
Proof.
  intros Hroom Hwx Hwy. pose proof (run_fixnums_or_illegal s x y Hx Hy) as R. rewrite Hb in R.
  set (v := DATA y * DATA x).
  exists (v mod 2 ^ 32), (v / 2 ^ 32).
  assert (0 <= v < 2 ^ 32 * 2 ^ 32) as Hv by (unfold is_u32, v in *; nia).
  assert (is_u32 (v / 2 ^ 32)) as Hh by (split; [apply Z.div_pos | apply Z.div_lt_upper_bound]; lia).
  split; [pose proof (Z.div_mod v (2 ^ 32)); unfold v in *; lia|]. split; [apply u32_range|].
  split; [done|]. unfold ExecuteMultiplyBignumStep. rewrite R. cbv zeta. fold v.
  change 0xFFFFFFFF with (Z.ones 32). rewrite !Z.land_ones, Z.shiftr_div_pow2 by lia.
  rewrite (Z.mod_small (v / 2 ^ 32)) by apply Hh.
  apply run_next. erewrite bind_Ok by (apply run_SetFixnum; eauto).
  apply run_PushFixnum. by apply stack_at_Some_write_sp.
Qed.
End shifts.

Lemma ExecuteAsh_exact_witness :
  replaces_top ExecuteAsh (two_operands (fixnum (-5)) (fixnum (-1))) (fun o =>
    DATAs o = -3 /\ TypeFixnumP (TAG o) = true).
Proof. apply (ExecuteAsh_exact _ (fixnum (-5)) (fixnum (-1))); by vm_compute. Defined.

Lemma ExecuteLsh_correct_witness :
  replaces_top ExecuteLsh (two_operands (fixnum (-1)) (fixnum 40)) (fun o => DATA o = 0).
Proof. apply (ExecuteLsh_correct _ (fixnum (-1)) (fixnum 40)); by vm_compute. Defined.

Lemma ExecuteRot_correct_witness :
  replaces_top ExecuteRot (two_operands (fixnum 1) (fixnum (-1))) (fun o => forall i, 0 <= i < 32 ->
    Z.testbit (DATA o) i = Z.testbit 1 ((i - -1) mod 32)).
Proof. apply (ExecuteRot_correct _ (fixnum 1) (fixnum (-1))); by vm_compute. Defined.

Lemma ExecuteMultiplyBignumStep_product_witness :
  exists low high, low + 2 ^ 32 * high = (2 ^ 32 - 1) * 16 /\ is_u32 low /\ is_u32 high /\
    ExecuteMultiplyBignumStep (two_operands (fixnum (-1)) (fixnum 16)) =
    (Ok NextInstruction, push (fixnum high) (write_sp 0 (fixnum low) (two_operands (fixnum (-1)) (fixnum 16)))).
Proof.
  apply (ExecuteMultiplyBignumStep_product _ (fixnum (-1)) (fixnum 16)); try by vm_compute.
  by eexists.
Defined.
