(* ===== verification/CycleSpec.v ===== *)
(** The memory as the sequencer sees it: an abstract map from addresses to words, the
    interface a word memory offers, its two implementations (raw memory, and memory behind the
    stack cache), and the memory cycles specified on the abstract map. Then coherence of the
    cached memory: MemoryReadInternal follows the forwarding chain of the abstract memory, and
    StoreContents writes where it ends. *)

From S2P Require Export ArithSpec.
#[local] Open Scope vlm_scope.

(** ** Views *)

(** The word at an address of the memory arrays; [None] on a missing page. *)
Definition raw_word (s : MachineState) (a : Z) : option LispObj :=
  if Created s a then Some (fetch s a) else None.

(** The word the sequencer reads at [a]: the cached one if there is one. *)
Definition word_of (s : MachineState) (a : Z) : option LispObj :=
  if in_stack_cache (ps s) a then nth_Z (StackCache (ps s)) (stack_cache_index (ps s) a)
  else raw_word s a.

(** The state after a trap at [a]. *)
Definition trapped (a : Z) (s : MachineState) : MachineState :=
  set_trap_vma (set_DATA a (trap_vma s)) s.

(** [m] ends in [r] and changes nothing but [memory_vma], and for a trap [trap_vma]. *)
Definition ends {A} (m : Emu A) (s : MachineState) (r : outcome A) (t : MachineState -> MachineState) : Prop :=
  exists v, m s = (r, t (set_memory_vma v s)).

(** What a word memory promises: reads return the view or fault without changing it,
    and a write changes the view at one address. *)
Class WordMemory (view : MachineState -> Z -> option LispObj)
    (read : Z -> Dest -> Emu LispObj) (write : Z -> LispObj -> Emu unit) : Prop := {
  read_word s a o : view s a = Some o -> ends (read a to_local) s (Ok o) id;
  read_fault s a : wf_state s -> is_u32 a -> view s a = None ->
    ends (read a to_local) s (LongJmp PageNotResidentTrapVector) (trapped a);
  view_vma s a v : view (set_memory_vma v s) a = view s a;
  write_word s a o :
    wf_state s -> is_u32 a -> Created s a = true -> wf_obj o -> is_u8 (TAG o) ->
    exists s', write a o s = (Ok tt, s') /\ wf_state s' /\
      VMAttributeTable s' = VMAttributeTable s /\
      forall b, is_u32 b -> view s' b = if b =? a then Some o else view s b
}.

(** ** The raw memory *)

Lemma run_touch a s : Created s a = true -> touch a s = (Ok tt, s).
Proof. intros E. unfold touch. by rewrite run_bind_gets, E. Qed.

Lemma run_touch_fault a s : Created s a = false ->
  touch a s = (LongJmp PageNotResidentTrapVector, trapped (memory_vma s) s).
Proof. intros E. unfold touch. by rewrite run_bind_gets, E. Qed.

Lemma Created_ext s s' a : VMAttributeTable s = VMAttributeTable s' -> Created s a = Created s' a.
Proof. unfold Created. by intros ->. Qed.

Lemma fetch_store s a b d t :
  fetch (set_TagSpace (<[a := t]> (TagSpace s)) (set_DataSpace (<[a := d]> (DataSpace s)) s)) b =
  if b =? a then MkObj t d else fetch s b.
Proof.
  unfold fetch, word_at. simpl. destruct (Z.eqb_spec b a) as [->|Hne].
  - by rewrite !lookup_insert_eq.
  - by rewrite !lookup_insert_ne by congruence.
Qed.

Lemma wf_after {A} (m : Emu A) (Q : A -> Prop) s r s' : returns wf_state m Q -> wf_state s -> m s = (r, s') -> wf_state s'.
Proof. intros Hm Hs E. destruct (Hm s Hs) as [H1 _]. by rewrite E in H1. Qed.

(** The state after storing [o] at [a]. *)
Definition stored (a : Z) (o : LispObj) (s : MachineState) : MachineState :=
  set_TagSpace (<[a := TAG o]> (TagSpace s)) (set_DataSpace (<[a := DATA o]> (DataSpace s)) s).

Lemma raw_word_stored s a o b : Created s a = true ->
  raw_word (stored a o s) b = if b =? a then Some o else raw_word s b.
Proof.
  intros Hc. unfold raw_word, stored. rewrite fetch_store.
  destruct (Z.eqb_spec b a) as [->|]; [|done].
  rewrite (Created_ext _ s) by done. rewrite Hc. by destruct o.
Qed.

Lemma run_VirtualMemoryWrite s a o :
  Created s a = true -> is_u32 (DATA o) -> is_u8 (TAG o) ->
  VirtualMemoryWrite a o s = (Ok tt, stored a o (set_memory_vma (u32 a) s)).
Proof.
  intros Hc Hd Ht. unfold VirtualMemoryWrite, set_mem_vma. rewrite run_bind_modify.
  erewrite bind_Ok by (by apply run_touch). unfold store_data, store_tag.
  rewrite run_bind_modify, (u32_small _ Hd), (u8_small _ Ht). done.
Qed.

#[export] Instance raw_memory : WordMemory raw_word VirtualMemoryRead VirtualMemoryWrite.
Proof.
  split.
  - intros s a o E. unfold raw_word in E. destruct (Created s a) eqn:C; [|done].
    exists (u32 a). unfold VirtualMemoryRead, set_mem_vma. rewrite run_bind_modify.
    erewrite bind_Ok by (by apply run_touch). rewrite run_bind_gets. by injection E as <-.
  - intros s a Hs Ha E. unfold raw_word in E. destruct (Created s a) eqn:C; [done|].
    exists (u32 a). unfold VirtualMemoryRead, set_mem_vma. rewrite run_bind_modify.
    erewrite bind_LongJmp by (by apply run_touch_fault). simpl. by rewrite u32_small.
  - done.
  - intros s a o Hs Ha Hc Ho Ht. eexists. split; [|split; [|split]].
    + apply run_VirtualMemoryWrite; [done | apply Ho | done].
    + eapply wf_after; [apply (ok_VirtualMemoryWrite a o) | exact Hs |].
      apply run_VirtualMemoryWrite; [done | apply Ho | done].
    + done.
    + intros b Hb. rewrite raw_word_stored by done. done.
Qed.

(** ** Behind the stack cache *)

Lemma in_stack_cache_spec p a :
  is_u32 (StackCacheBase p) -> is_u32 a -> length (StackCache p) = 1024%nat ->
  in_stack_cache p a = true -> in_bounds (StackCache p) (stack_cache_index p a) = true.
Proof.
  intros Hb Ha Hl Hi. apply in_bounds_spec. unfold in_stack_cache in Hi. rewrite Hl.
  pose proof (u32_range (a - StackCacheBase p)). unfold stack_cache_index, is_u32, StackCacheSize, PageSize in *.
  lia.
Qed.

Lemma stack_cache_index_inj p a b :
  is_u32 a -> is_u32 b -> stack_cache_index p a = stack_cache_index p b -> a = b.
Proof.
  unfold stack_cache_index. intros Ha Hb E.
  destruct (u32_mod_spec (a - StackCacheBase p)) as [q [E1 _]].
  destruct (u32_mod_spec (b - StackCacheBase p)) as [q' [E2 _]].
  unfold is_u32 in *. nia.
Qed.

Lemma set_memory_vma_same s : set_memory_vma (memory_vma s) s = s.
Proof. by destruct s. Qed.

Lemma word_of_write_stack s a b o : wf_state s -> is_u32 a -> is_u32 b ->
  in_stack_cache (ps s) a = true ->
  word_of (write_stack (stack_cache_index (ps s) a) o s) b = if b =? a then Some o else word_of s b.
Proof.
  intros Hs Ha Hb Hi.
  assert (in_bounds (StackCache (ps s)) (stack_cache_index (ps s) a) = true) as B.
  { apply in_stack_cache_spec; eauto with vlm_range. }
  unfold word_of. simpl.
  change (in_stack_cache (set_StackCache _ (ps s)) b) with (in_stack_cache (ps s) b).
  destruct (Z.eqb_spec b a) as [->|Hne].
  - rewrite Hi. change (stack_cache_index (set_StackCache _ (ps s)) a) with (stack_cache_index (ps s) a).
    by rewrite nth_upd, Z.eqb_refl, B.
  - case_match; [|done].
    change (stack_cache_index (set_StackCache _ (ps s)) b) with (stack_cache_index (ps s) b).
    apply nth_upd_ne. intros E. apply stack_cache_index_inj in E; congruence.
Qed.

Lemma word_of_stored s a o b : Created s a = true ->
  (in_stack_cache (ps s) a = true -> word_of s a = Some o) ->
  word_of (stored a o s) b = if b =? a then Some o else word_of s b.
Proof.
  intros Hc Hi. unfold word_of in *. simpl.
  change (raw_word (stored a o s) b) with (raw_word (stored a o s) b).
  destruct (in_stack_cache (ps s) b) eqn:E.
  - destruct (Z.eqb_spec b a) as [->|]; [|done]. rewrite E in Hi. by apply Hi.
  - by apply raw_word_stored.
Qed.

#[export] Instance cached_memory : WordMemory word_of ReadVirtualMemory WriteVirtualMemory.
Proof.
  split.
  - intros s a o E. unfold word_of in E. unfold ReadVirtualMemory.
    destruct (in_stack_cache (ps s) a) eqn:I.
    + exists (memory_vma s). rewrite run_bind_gets, I, set_memory_vma_same.
      by erewrite bind_Ok by (by apply run_stack_get).
    + destruct (read_word (WordMemory := raw_memory) _ _ _ E) as [v Hv].
      exists v. by rewrite run_bind_gets, I, Hv.
  - intros s a Hs Ha E. unfold word_of in E. unfold ReadVirtualMemory.
    destruct (in_stack_cache (ps s) a) eqn:I.
    + apply in_stack_cache_spec in I; eauto with vlm_range.
      apply nth_Z_is_Some in I as [? ?]. congruence.
    + destruct (read_fault (WordMemory := raw_memory) _ _ Hs Ha E) as [v Hv].
      exists v. by rewrite run_bind_gets, I, Hv.
  - done.
  - intros s a o Hs Ha Hc Ho Ht. unfold WriteVirtualMemory.
    assert (forall s0, wf_state s0 -> Created s0 a = true ->
              (in_stack_cache (ps s0) a = true -> word_of s0 a = Some o) ->
              exists s', VirtualMemoryWrite a o s0 = (Ok tt, s') /\ wf_state s' /\
                VMAttributeTable s' = VMAttributeTable s0 /\
                forall b, is_u32 b -> word_of s' b = if b =? a then Some o else word_of s0 b) as W.
    { intros s0 Hs0 Hc0 Hi0. eexists. split; [|split; [|split]].
      - apply run_VirtualMemoryWrite; [done | apply Ho | done].
      - eapply wf_after; [apply (ok_VirtualMemoryWrite a o) | exact Hs0 |].
        apply run_VirtualMemoryWrite; [done | apply Ho | done].
      - done.
      - intros b Hb. by rewrite word_of_stored. }
    destruct (in_stack_cache (ps s) a) eqn:I.
    + assert (in_bounds (StackCache (ps s)) (stack_cache_index (ps s) a) = true) as B.
      { apply in_stack_cache_spec; eauto with vlm_range. }
      pose proof (run_stack_put (stack_cache_index (ps s) a) o s B) as P.
      destruct (W (write_stack (stack_cache_index (ps s) a) o s)) as [s' [E [Hs' [Ht' V]]]].
      * eapply wf_after; [by apply ok_stack_put | exact Hs | exact P].
      * done.
      * intros _. rewrite word_of_write_stack by done. by rewrite Z.eqb_refl.
      * exists s'. rewrite run_bind_gets, I. unfold when. erewrite bind_Ok by exact P.
        do 3 (split; [done|]). intros b Hb. rewrite V, word_of_write_stack by done.
        by destruct (b =? a).
    + destruct (W s) as [s' [E [Hs' [Ht' V]]]]; [done|done|congruence|].
      exists s'. rewrite run_bind_gets, I. unfold when. rewrite run_bind_ret. done.
Qed.

(** * Coherence of the cached memory, and the memory cycles: MemoryReadInternal follows the
    forwarding chain of the abstract memory, and StoreContents writes where it ends. *)

(** ** Any word memory *)

Section any_memory.
Context {view read write} `{WordMemory view read write}.

Lemma read_after_write s a o b :
  wf_state s -> is_u32 a -> is_u32 b -> Created s a = true -> wf_obj o -> is_u8 (TAG o) ->
  is_Some (view s b) ->
  exists s', write a o s = (Ok tt, s') /\
    Some (read b to_local s').1 = Ok <$> (if b =? a then Some o else view s b).
Proof.
  intros Hs Ha Hb Hc Ho Ht [w Hw]. destruct (write_word s a o) as [s' [E [_ [_ V]]]]; [done..|].
  exists s'. split; [done|]. specialize (V b Hb).
  destruct (b =? a); [|rewrite Hw in V |- *]; by destruct (read_word _ _ _ V) as [v ->].
Qed.
End any_memory.

(** C15. Coherence of the stack cache: after WriteVirtualMemory at [a], ReadVirtualMemory
    returns the object written at [a], and at every other address what it held before,
    whether the addresses are in the stack cache or only in memory. *)
Theorem WriteVirtualMemory_coherent s a o b :
  wf_state s -> is_u32 a -> is_u32 b -> Created s a = true -> wf_obj o -> is_u8 (TAG o) ->
  is_Some (word_of s b) ->
  exists s', WriteVirtualMemory a o s = (Ok tt, s') /\
    Some (ReadVirtualMemory b to_local s').1 = Ok <$> (if b =? a then Some o else word_of s b).
Proof. apply read_after_write. Qed.

(** ** The forwarding chain *)

(** How a memory cycle ends. *)
Inductive ChainEnd :=
| Found (vma : Z) (o : LispObj)       (* the word [o], read at [vma] *)
| Trapped (vector vma : Z)            (* a memory trap at [vma] *)
| NoAction.                           (* a word the cycle has no case for: exit(1) *)

(** The action of the table without the transport bit. *)
Definition action_of (cycle : Z) (o : LispObj) : option Z :=
  (fun a => Z.ldiff a MemoryActionTransport) <$> memory_action cycle (TagType (TAG o)).

(** [follows view cycle n a e]: a memory cycle that starts at [a] takes [n] indirections
    and ends in [e]. *)
Inductive follows (view : Z -> option LispObj) (cycle : Z) : nat -> Z -> ChainEnd -> Prop :=
| follows_missing a :
    view a = None -> follows view cycle 0 a (Trapped PageNotResidentTrapVector a)
| follows_word a o :
    view a = Some o -> action_of cycle o = Some 0 -> follows view cycle 0 a (Found a o)
| follows_error a o :
    view a = Some o -> action_of cycle o = Some MemoryActionTrap ->
    follows view cycle 0 a (Trapped ErrorTrapVector a)
| follows_monitor a o :
    view a = Some o -> action_of cycle o = Some MemoryActionMonitor ->
    follows view cycle 0 a (Trapped MonitorTrapVector a)
| follows_transform a o :
    view a = Some o -> action_of cycle o = Some MemoryActionTransform ->
    follows view cycle 0 a (Found a (set_TAG (MergeCdr (TAG o) TypeExternalValueCellPointer) o))
| follows_no_action a o :
    view a = Some o -> action_of cycle o = Some MemoryActionBinding ->
    follows view cycle 0 a NoAction
| follows_indirect n a o e :
    view a = Some o -> action_of cycle o = Some MemoryActionIndirect ->
    follows view cycle n (DATA o) e -> follows view cycle (S n) a e.

Definition chain_outcome (e : ChainEnd) : outcome (Z * LispObj) :=
  match e with
  | Found a o => Ok (a, o)
  | Trapped vector _ => LongJmp vector
  | NoAction => Exited 1
  end.
Definition chain_state (e : ChainEnd) : MachineState -> MachineState :=
  match e with Trapped _ a => trapped a | _ => id end.

(** The transport test never holds. *)
Lemma transport_test_false a : transport_test a = false.
Proof. unfold transport_test. change (Z.lor _ _ =? _) with false. by rewrite Z.land_0_r. Qed.

Lemma MemoryActionTable_actions :
  Forall (fun a => In (Z.ldiff a MemoryActionTransport) [0; 8; 2; 16; 32; 1]) MemoryActionTable.
Proof. repeat (apply Forall_cons_2; [vm_compute; tauto|]). apply Forall_nil_2. Qed.

Lemma action_of_cases cycle o : 0 <= cycle < 12 ->
  exists a, action_of cycle o = Some a /\ In a [0; 8; 2; 16; 32; 1].
Proof.
  intros Hc. unfold action_of, memory_action. pose proof (TagType_range (TAG o)).
  assert (is_Some (nth_Z MemoryActionTable (cycle * 64 + TagType (TAG o)))) as [a E].
  { apply nth_Z_is_Some, in_bounds_spec. change (length MemoryActionTable) with 768%nat. lia. }
  rewrite E. eexists. split; [done|].
  exact (Forall_nth_Z _ _ _ _ MemoryActionTable_actions E).
Qed.

Section cycles.
Context {env : Environment}.
Context {view : MachineState -> Z -> option LispObj} {write : Z -> LispObj -> Emu unit}.
Context `{!WordMemory view ReadVirtualMemory write}.

(** One turn, by the kind of word found. *)
Lemma read_turn_missing s cycle a : wf_state s -> is_u32 a -> view s a = None ->
  ends (memory_read_turn to_local cycle a) s (LongJmp PageNotResidentTrapVector) (trapped a).
Proof.
  intros Hs Ha E. destruct (read_fault _ _ Hs Ha E) as [v Hv]. exists v.
  unfold memory_read_turn. by erewrite bind_LongJmp by exact Hv.
Qed.

Lemma read_turn_word s cycle a o act : view s a = Some o -> action_of cycle o = Some act ->
  exists v, memory_read_turn to_local cycle a s =
    (if act =? 0 then ret (inr (a, o))
     else if act =? MemoryActionTrap then TakeMemoryTrap ErrorTrapVector a
     else if act =? MemoryActionTransform then
       ret (inr (a, set_TAG (MergeCdr (TAG o) TypeExternalValueCellPointer) o))
     else if act =? MemoryActionMonitor then TakeMemoryTrap MonitorTrapVector a
     else if act =? MemoryActionIndirect then ret (inl (DATA o))
     else c_exit 1) (set_memory_vma v s).
Proof.
  intros E Ha. destruct (read_word _ _ _ E) as [v Hv]. exists v.
  unfold memory_read_turn. erewrite bind_Ok by exact Hv.
  unfold action_of in Ha. destruct (memory_action cycle (TagType (TAG o))) as [a0|]; [|done].
  injection Ha as <-. rewrite (run_bind_option a0) by done.
  rewrite transport_test_false, run_bind_ret. cbv zeta.
  by repeat case_match.
Qed.

Lemma set_memory_vma_twice v v' s : set_memory_vma v (set_memory_vma v' s) = set_memory_vma v s.
Proof. done. Qed.

Lemma loop_done {A B} n (body : A -> Emu (A + B)) a s b s' :
  body a s = (Ok (inr b), s') -> loop (S n) body a s = (Ok b, s').
Proof. intros E. simpl. by erewrite bind_Ok by exact E. Qed.
Lemma loop_more {A B} n (body : A -> Emu (A + B)) a s a' s' :
  body a s = (Ok (inl a'), s') -> loop (S n) body a s = loop n body a' s'.
Proof. intros E. simpl. by erewrite bind_Ok by exact E. Qed.
Lemma loop_stop {A B} n (body : A -> Emu (A + B)) a s v s' :
  body a s = (LongJmp v, s') -> loop (S n) body a s = (LongJmp v, s').
Proof. intros E. simpl. by erewrite bind_LongJmp by exact E. Qed.
Lemma loop_exit {A B} n (body : A -> Emu (A + B)) a s v s' :
  body a s = (Exited v, s') -> loop (S n) body a s = (Exited v, s').
Proof. intros E. simpl. unfold bind. by rewrite E. Qed.

Lemma view_wf s a o : wf_state s -> view s a = Some o -> wf_obj o.
Proof.
  intros Hs E. destruct (read_word _ _ _ E) as [v Hv].
  destruct (ok_ReadVirtualMemory a to_local ok_to_local s Hs) as [_ H].
  rewrite Hv in H. by apply H.
Qed.

Lemma wf_vma v s : is_u32 v -> wf_state s -> wf_state (set_memory_vma v s).
Proof. apply wf_set_memory_vma. Qed.

Lemma run_chain w s cycle n a e fuel :
  follows w cycle n a e -> (forall b, view s b = w b) -> wf_state s -> is_u32 a -> (n < fuel)%nat ->
  ends (loop fuel (memory_read_turn to_local cycle) a) s (chain_outcome e) (chain_state e).
Proof.
  intros F. revert s fuel.
  induction F as [a Hw|a o Hw Hact|a o Hw Hact|a o Hw Hact|a o Hw Hact|a o Hw Hact|n a o e Hw Hact F IH];
    intros s fuel Hv Hs Ha Hf; (destruct fuel as [|fuel]; [lia|]); rewrite <- Hv in Hw;
    [destruct (read_turn_missing s cycle a Hs Ha Hw) as [v Hr]
    |destruct (read_turn_word s cycle a o _ Hw Hact) as [v Hr]..].
  - exists v. by apply loop_stop.
  - exists v. by apply loop_done.
  - exists v. by apply loop_stop.
  - exists v. by apply loop_stop.
  - exists v. by apply loop_done.
  - exists v. by apply loop_exit.
  - assert (wf_state (set_memory_vma v s)) as Hs'.
    { eapply wf_after; [apply ok_memory_read_turn, ok_to_local | exact Hs | exact Hr]. }
    destruct (IH (set_memory_vma v s) fuel) as [v' Hv']; [|done| |lia|].
    + intros b. by rewrite view_vma.
    + apply wf_DATA. exact (view_wf _ _ _ Hs Hw).
    + exists v'. by erewrite loop_more by exact Hr.
Qed.

(** Every chain ends within [n] indirections, or the loop uses up [n] turns. *)
Lemma chain_or_fuel w s cycle fuel a :
  0 <= cycle < 12 -> (forall b, view s b = w b) -> wf_state s -> is_u32 a ->
  (exists n e, (n < fuel)%nat /\ follows w cycle n a e) \/
  (loop fuel (memory_read_turn to_local cycle) a s).1 = OutOfFuel.
Proof.
  intros Hc. revert s a. induction fuel as [|fuel IH]; intros s a Hv Hs Ha; [by right|].
  destruct (w a) as [o|] eqn:Hw.
  2: { left. exists 0%nat. eexists. split; [lia|]. by apply follows_missing. }
  destruct (action_of_cases cycle o Hc) as [act [Hact Hin]]. simpl in Hin.
  destruct Hin as [<-|[<-|[<-|[<-|[<-|[<-|[]]]]]]];
    try (left; exists 0%nat; eexists; split; [lia|]; econstructor; by eauto).
  pose proof Hw as Hw'. rewrite <- Hv in Hw'.
  destruct (read_turn_word s cycle a o _ Hw' Hact) as [v Hr].
  destruct (IH (set_memory_vma v s) (DATA o)) as [[n [e [Hn F]]]|Hout].
  - intros b. by rewrite view_vma.
  - eapply wf_after; [apply ok_memory_read_turn, ok_to_local | exact Hs | exact Hr].
  - apply wf_DATA. exact (view_wf _ _ _ Hs Hw').
  - left. exists (S n), e. split; [lia|]. by eapply follows_indirect.
  - right. by erewrite loop_more by exact Hr.
Qed.
End cycles.

Section reads.
Context {env : Environment}.

(** C20. MemoryReadInternal: if the chain of forwarding words from [a] ends within the loop
    bound, the read ends as the chain does: with the final address and word, with the
    trap the chain runs into (page fault, error or monitor) reported at its address, or
    with exit(1); and nothing else changes. *)
Theorem MemoryReadInternal_follows s cycle n a e :
  wf_state s -> is_u32 a -> follows (word_of s) cycle n a e -> (n < loop_fuel)%nat ->
  ends (MemoryReadInternal a to_local cycle) s (chain_outcome e) (chain_state e).
Proof. intros Hs Ha F Hn. by apply (run_chain (word_of s) s cycle n a). Qed.

End reads.

(** ** Stores *)

Lemma MergeCdr_u8 a b : is_u8 (MergeCdr a b).
Proof.
  unfold MergeCdr, TagCdrMask, TagTypeMask.
  assert (0 <= Z.lor (Z.land a 192) (Z.land b 63)) as H0.
  { apply Z.lor_nonneg. split; apply Z.land_nonneg; right; lia. }
  split; [done|]. apply range_of_testbit; [lia | done|]. intros i Hi.
  by rewrite Z.lor_spec, !Z.land_spec, (testbit_above 192 8), (testbit_above 63 8), !andb_false_r by lia.
Qed.

Section stores.
Context {env : Environment}.

(** C23. StoreContents: the object is stored at the end of the forwarding chain, where it takes
    the type and data of the object and keeps the cdr code of the word it replaces; no
    other word changes. *)
Theorem StoreContents_correct s a object cycle n a' dest :
  wf_state s -> is_u32 a -> is_u32 a' -> wf_obj object -> Created s a' = true ->
  follows (word_of s) cycle n a (Found a' dest) -> (n < loop_fuel)%nat ->
  exists s', StoreContents a object cycle s = (Ok tt, s') /\ wf_state s' /\
    forall b, is_u32 b -> word_of s' b =
      if b =? a' then Some (obj (MergeCdr (TAG dest) (TAG object)) (DATA object)) else word_of s b.
Proof.
  intros Hs Ha Ha' Ho Hc F Hn.
  destruct (run_chain (word_of s) s cycle n a _ loop_fuel F ltac:(done) Hs Ha Hn) as [v Hv].
  assert (wf_state (set_memory_vma v s)) as Hs'.
  { eapply wf_after; [apply (ok_MemoryReadInternal a to_local cycle), ok_to_local | exact Hs | exact Hv]. }
  assert (is_u8 (TAG (obj (MergeCdr (TAG dest) (TAG object)) (DATA object)))) as Ht.
  { simpl. rewrite u32_small; [apply MergeCdr_u8|].
    pose proof (MergeCdr_u8 (TAG dest) (TAG object)). unfold is_u8, is_u32 in *. lia. }
  destruct (write_word (WordMemory := cached_memory) (set_memory_vma v s) a'
              (obj (MergeCdr (TAG dest) (TAG object)) (DATA object)) Hs' Ha' Hc (wf_obj_obj _ _) Ht)
    as [s' [E [W [_ V]]]].
  exists s'. split; [|split; [done|]].
  - unfold StoreContents, MemoryReadInternal. by erewrite bind_Ok by exact Hv.
  - intros b Hb. rewrite V by done. by rewrite view_vma.
Qed.
End stores.

(** ** At work *)

(** A word at 0x1000 forwards to a fixnum at 0x2004. *)
Definition forwarding_machine : MachineState :=
  poke 0x1000 (MkObj (Z.lor 64 TypeOneQForward) 0x2004)
    (poke 0x2004 (MkObj (Z.lor 128 TypeFixnum) 7) sample_machine).

Lemma wf_forwarding_machine : wf_state forwarding_machine.
Proof. repeat apply wf_poke; [by vm_compute..|]. apply wf_sample_machine. Qed.

Lemma forwarding_chain cycle : cycle = CycleDataRead \/ cycle = CycleDataWrite ->
  follows (word_of forwarding_machine) cycle 1 0x1000 (Found 0x2004 (MkObj (Z.lor 128 TypeFixnum) 7)).
Proof.
  intros [-> | ->]; (eapply follows_indirect; [vm_compute; reflexivity..|]);
    apply follows_word; vm_compute; reflexivity.
Qed.

Lemma WriteVirtualMemory_coherent_witness :
  exists s', WriteVirtualMemory 0x2004 (fixnum 9) forwarding_machine = (Ok tt, s') /\
    Some (ReadVirtualMemory 0x2004 to_local s').1 = Some (Ok (fixnum 9)).
Proof.
  apply (WriteVirtualMemory_coherent forwarding_machine 0x2004 (fixnum 9) 0x2004);
    [apply wf_forwarding_machine | by vm_compute.. | by eexists].
Defined.

Lemma MemoryReadInternal_follows_witness :
  ends (MemoryReadInternal 0x1000 to_local CycleDataRead) forwarding_machine
    (Ok (0x2004, MkObj (Z.lor 128 TypeFixnum) 7)) id.
Proof.
  apply (MemoryReadInternal_follows forwarding_machine CycleDataRead 1 0x1000 (Found 0x2004 _));
    [apply wf_forwarding_machine | by vm_compute | apply forwarding_chain; by left |].
  apply Nat.ltb_lt. by vm_compute.
Defined.


Lemma StoreContents_correct_witness :
  exists s', StoreContents 0x1000 (fixnum 9) CycleDataWrite forwarding_machine = (Ok tt, s') /\
    wf_state s' /\
    forall b, is_u32 b -> word_of s' b =
      if b =? 0x2004 then Some (MkObj (Z.lor 128 TypeFixnum) 9) else word_of forwarding_machine b.
Proof.
  apply (StoreContents_correct forwarding_machine 0x1000 (fixnum 9) CycleDataWrite 1 0x2004
           (MkObj (Z.lor 128 TypeFixnum) 7));
    [apply wf_forwarding_machine | by vm_compute | by vm_compute | by vm_compute | by vm_compute
    | apply forwarding_chain; by right |].
  apply Nat.ltb_lt. by vm_compute.
Defined.
