(* ===== verification/ListSpec.v ===== *)
(** Cdr-coded lists: what a list in memory represents, and CarCdrInternal, Member and
    Assoc on represented lists. *)

From S2P Require Export CycleSpec.
#[local] Open Scope vlm_scope.

Section representation.
Context {env : Environment}.

(** [reads view cycle a a' o]: a memory cycle from [a] finds [o] at [a']. *)
Definition reads (view : Z -> option LispObj) (cycle a a' : Z) (o : LispObj) : Prop :=
  exists n, (n < loop_fuel)%nat /\ follows view cycle n a (Found a' o).

(** The cdr of the cell at [a], given by the cdr code of its word. *)
Inductive cdr_of (view : Z -> option LispObj) (a : Z) : LispObj -> Prop :=
| cdr_of_nil vma w :
    reads view CycleCdr a vma w -> TagCdr (TAG w) = CdrNil -> cdr_of view a ObjectNIL
| cdr_of_next vma w :
    reads view CycleCdr a vma w -> TagCdr (TAG w) = CdrNext ->
    cdr_of view a (obj TypeList (vma + 1))
| cdr_of_normal vma w vma' w' :
    reads view CycleCdr a vma w -> TagCdr (TAG w) = CdrNormal ->
    reads view CycleDataRead (u32 (vma + 1)) vma' w' ->
    cdr_of view a (strip_cdr w').

(** [list_at view l xs]: the object [l] is the list of the objects [xs]. *)
Inductive list_at (view : Z -> option LispObj) : LispObj -> list LispObj -> Prop :=
| list_nil l : TagType (TAG l) = TypeNIL -> list_at view l []
| list_cons l a' w rest xs :
    TagType (TAG l) = TypeList ->
    reads view CycleDataRead (DATA l) a' w ->
    cdr_of view (DATA l) rest ->
    list_at view rest xs ->
    list_at view l (strip_cdr w :: xs).

(** ** Reading *)

Lemma run_reads s cycle a a' o :
  wf_state s -> is_u32 a -> reads (word_of s) cycle a a' o ->
  ends (MemoryReadInternal a to_local cycle) s (Ok (a', o)) id.
Proof.
  intros Hs Ha [n [Hn F]]. by apply (run_chain (word_of s) s cycle n a (Found a' o)).
Qed.

Lemma ends_Ok_bind {A B} (m : Emu A) (k : A -> Emu B) s a r t :
  ends m s (Ok a) id ->
  (forall v, wf_state (set_memory_vma v s) -> ends (k a) (set_memory_vma v s) r t) ->
  (forall v, m s = (Ok a, set_memory_vma v s) -> wf_state (set_memory_vma v s)) ->
  ends (bind m k) s r t.
Proof.
  intros [v Hv] Hk Hw. destruct (Hk v (Hw v Hv)) as [v' Hv'].
  exists v'. erewrite bind_Ok by exact Hv. exact Hv'.
Qed.

Lemma ends_ret {A} (a : A) s : ends (ret a) s (Ok a) id.
Proof. exists (memory_vma s). by rewrite set_memory_vma_same. Qed.

(** A memory read, then the rest. *)
Lemma ends_read {B} cycle a a' o (k : Z * LispObj -> Emu B) s r t :
  wf_state s -> is_u32 a -> reads (word_of s) cycle a a' o ->
  (forall v, wf_state (set_memory_vma v s) -> ends (k (a', o)) (set_memory_vma v s) r t) ->
  ends (bind (MemoryReadInternal a to_local cycle) k) s r t.
Proof.
  intros Hs Ha Hr Hk. eapply ends_Ok_bind; [by apply run_reads | exact Hk |].
  intros v E. eapply wf_after; [apply ok_MemoryReadInternal, ok_to_local | exact Hs | exact E].
Qed.

Lemma run_CarInternal s l a' w :
  wf_state s -> wf_obj l -> TagType (TAG l) = TypeList ->
  reads (word_of s) CycleDataRead (DATA l) a' w ->
  ends (CarInternal l to_local) s (Ok (Some (strip_cdr w))) id.
Proof.
  intros Hs Hl Ht Hr. unfold CarInternal. rewrite Ht. simpl.
  eapply ends_read; [done | apply Hl | exact Hr |]. intros v _. apply ends_ret.
Qed.

Lemma run_CdrInternal s l rest :
  wf_state s -> wf_obj l -> TagType (TAG l) = TypeList ->
  cdr_of (word_of s) (DATA l) rest ->
  ends (CdrInternal l to_local) s (Ok (Some rest)) id.
Proof.
  intros Hs Hl Ht Hc. unfold CdrInternal. rewrite Ht. cbn -[MemoryReadCdr to_local].
  destruct Hc as [vma w Hr E|vma w Hr E|vma w vma' w' Hr E Hr'];
    (eapply ends_read; [done | apply Hl | exact Hr |]); intros v Hv; rewrite E; simpl.
  - apply ends_ret.
  - apply ends_ret.
  - eapply ends_read; [done | apply u32_range | exact Hr' |]. intros v' _. apply ends_ret.
Qed.

Lemma run_CarCdrInternal s l x xs :
  wf_state s -> wf_obj l -> list_at (word_of s) l (x :: xs) ->
  exists rest, ends (CarCdrInternal l) s (Ok (Some (x, rest))) id /\
    wf_obj x /\ wf_obj rest /\ list_at (word_of s) rest xs.
Proof.
  intros Hs Hl H. inversion H as [|l' a' w rest xs' Ht Hr Hc Hrest]; subst. exists rest.
  assert (ends (CarCdrInternal l) s (Ok (Some (strip_cdr w, rest))) id) as E.
  { unfold CarCdrInternal. rewrite TypeEqualP_spec, Ht. change (_ =? _) with false.
    eapply ends_Ok_bind; [by eapply run_CarInternal | |].
    + intros v Hv. eapply ends_Ok_bind; [by apply run_CdrInternal | intros; apply ends_ret |].
      intros v' E. eapply wf_after; [apply ok_CdrInternal, ok_to_local | exact Hv | exact E].
    + intros v E. eapply wf_after; [apply ok_CarInternal, ok_to_local | exact Hs | exact E]. }
  split; [done|]. destruct E as [v Hv]. destruct (ok_CarCdrInternal l s Hs) as [_ W].
  rewrite Hv in W. by destruct (W (Some (strip_cdr w, rest))).
Qed.

(** C16. CarCdrInternal on a list: it returns the first element, and an object that represents
    the rest of the list, whichever way the cells are cdr-coded. *)
Theorem CarCdrInternal_list s l x xs :
  wf_state s -> wf_obj l -> list_at (word_of s) l (x :: xs) ->
  exists rest, ends (CarCdrInternal l) s (Ok (Some (x, rest))) id /\
    wf_obj rest /\ list_at (word_of s) rest xs.
Proof. intros Hs Hl H. destruct (run_CarCdrInternal _ _ _ _ Hs Hl H) as [rest [E [_ W]]]. by exists rest. Qed.

(** ** Searching *)

Lemma run_AllowSequenceBreaks s : suspend s = 0 -> AllowSequenceBreaks s = (Ok tt, s).
Proof. intros E. unfold AllowSequenceBreaks. by rewrite run_bind_gets, E. Qed.

Lemma run_again s o : suspend s = 0 -> again o s = (Ok (inl o), s).
Proof. intros E. unfold again. by erewrite bind_Ok by (by apply run_AllowSequenceBreaks). Qed.

Lemma run_leave (m : Emu unit) s s' : m s = (Ok tt, s') -> leave (next m) s = (Ok (inr NextInstruction), s').
Proof. intros E. unfold leave. by erewrite bind_Ok by (by apply run_next). Qed.

Lemma list_at_nil_inv view l : list_at view l [] -> TagType (TAG l) = TypeNIL.
Proof. by inversion 1. Qed.
Lemma list_at_cons_inv view l x xs : list_at view l (x :: xs) -> TagType (TAG l) = TypeList.
Proof. by inversion 1. Qed.

(** The result of Member on the list [l] of [xs]: NIL, or the tail of [l] that starts
    with the first element that is EQ to [x]. *)
Definition member_result (view : Z -> option LispObj) (x l : LispObj) (xs : list LispObj) (r : LispObj) : Prop :=
  (Forall (fun y => ObjectEqP y x = false) xs /\ r = ObjectNIL) \/
  (exists xs1 y xs2 l', xs = xs1 ++ y :: xs2 /\ Forall (fun z => ObjectEqP z x = false) xs1 /\
     ObjectEqP y x = true /\ list_at view l' (y :: xs2) /\ r = StoreCdrNext l').

Lemma run_member s x xs l fuel :
  wf_state s -> suspend s = 0 -> stack_at s 0 = Some x -> wf_obj l ->
  list_at (word_of s) l xs -> (length xs < fuel)%nat ->
  exists r, ends (loop fuel member_turn l) s (Ok NextInstruction) (write_sp 0 r) /\
    member_result (word_of s) x l xs r.
Proof.
  intros Hs Hz Hx. revert l fuel s Hs Hz Hx.
  induction xs as [|y xs IH]; intros l fuel s Hs Hz Hx Hl Hlist Hf;
    (destruct fuel as [|fuel]; [simpl in Hf; lia|]).
  - exists ObjectNIL. split; [|by left]. exists (memory_vma s). apply loop_done.
    unfold member_turn. rewrite (list_at_nil_inv _ _ Hlist). simpl.
    rewrite set_memory_vma_same. apply run_leave. apply run_sp_put. eauto.
  - destruct (run_CarCdrInternal s l y xs Hs Hl Hlist) as [rest [[v E] [_ [Hrest Hr]]]].
    assert (wf_state (set_memory_vma v s)) as Hv.
    { eapply wf_after; [apply ok_CarCdrInternal | exact Hs | exact E]. }
    assert (forall r s', (if ObjectEqP y x then leave (next (SetObject l)) else again rest)
                           (set_memory_vma v s) = (r, s') -> member_turn l s = (r, s')) as T.
    { intros r s' Hrun. unfold member_turn. rewrite (list_at_cons_inv _ _ _ _ Hlist).
      change (TypeList =? TypeNIL) with false. cbv iota. erewrite bind_Ok by exact E. cbv beta iota.
      erewrite bind_Ok by (by apply (run_sp_get 0 x)). exact Hrun. }
    destruct (ObjectEqP y x) eqn:Heq.
    + exists (StoreCdrNext l). split; [exists v | right; exists [], y, xs, l; by repeat split].
      apply loop_done, T, run_leave, run_SetObject. exists x. exact Hx.
    + destruct (IH rest fuel (set_memory_vma v s)) as [r [[v' E'] H]]; [done..|simpl in Hf; lia|].
      exists r. split.
      * exists v'. erewrite loop_more by (by apply T, run_again). exact E'.
      * destruct H as [[H ->]|[xs1 [z [xs2 [l' [-> [H1 H2]]]]]]]; [by left; split; [constructor|]|].
        right. exists (y :: xs1), z, xs2, l'. split; [done|]. split; [by constructor | exact H2].
Qed.

(** C28. ExecuteMember on a list with no sequence break pending: the top of the stack becomes
    NIL when no element is EQ to it, and otherwise the tail of the list that starts
    with the first one; nothing else changes. *)
Theorem ExecuteMember_correct s x l xs :
  wf_state s -> suspend s = 0 -> stack_at s 0 = Some x -> operand_value s = Some l ->
  extended_number_p x = false -> list_at (word_of s) l xs -> (length xs < loop_fuel)%nat ->
  exists r, ends ExecuteMember s (Ok NextInstruction) (write_sp 0 r) /\
    member_result (word_of s) x l xs r.
Proof.
  intros Hs Hz Hx Hl He Hlist Hf.
  destruct (run_member s x xs l loop_fuel) as [r [[v E] H]]; [done|done|done|by eapply wf_operand_value|done..|].
  exists r. split; [exists v | done]. unfold ExecuteMember, search_list.
  erewrite bind_Ok by (by apply run_sp_get). rewrite He.
  by erewrite bind_Ok by (by apply run_op2_get).
Qed.

(** ** Association lists *)

(** An entry of an association list is NIL, which is skipped, or a list whose first
    element is the key. *)
Inductive entry_key (view : Z -> option LispObj) : LispObj -> option LispObj -> Prop :=
| entry_skipped e : TagType (TAG e) = TypeNIL -> entry_key view e None
| entry_pair e a w :
    TagType (TAG e) = TypeList -> reads view CycleDataRead (DATA e) a w ->
    entry_key view e (Some (strip_cdr w)).

(** The first entry whose key is EQ to [x], with its cdr code cleared. *)
Fixpoint find_entry (x : LispObj) (xs : list LispObj) (keys : list (option LispObj)) : LispObj :=
  match xs, keys with
  | e :: xs, Some k :: keys => if ObjectEqP k x then StoreCdrNext e else find_entry x xs keys
  | _ :: xs, None :: keys => find_entry x xs keys
  | _, _ => ObjectNIL
  end.

Lemma run_assoc s x xs keys l fuel :
  wf_state s -> suspend s = 0 -> stack_at s 0 = Some x -> wf_obj l ->
  list_at (word_of s) l xs -> Forall2 (entry_key (word_of s)) xs keys -> (length xs < fuel)%nat ->
  ends (loop fuel assoc_turn l) s (Ok NextInstruction) (write_sp 0 (find_entry x xs keys)).
Proof.
  intros Hs Hz Hx. revert keys l fuel s Hs Hz Hx.
  induction xs as [|e xs IH]; intros keys l fuel s Hs Hz Hx Hl Hlist Hk Hf;
    (destruct fuel as [|fuel]; [simpl in Hf; lia|]).
  - exists (memory_vma s). apply loop_done.
    unfold assoc_turn. rewrite (list_at_nil_inv _ _ Hlist). simpl.
    rewrite set_memory_vma_same. apply run_leave. apply run_sp_put. eauto.
  - destruct (run_CarCdrInternal s l e xs Hs Hl Hlist) as [rest [[v E] [We [Hrest Hr]]]].
    assert (wf_state (set_memory_vma v s)) as Hv.
    { eapply wf_after; [apply ok_CarCdrInternal | exact Hs | exact E]. }
    inversion Hk as [|? k ? keys' Hkey Hkeys]; subst.
    destruct Hkey as [e Te|e a w Te Hread].
    + destruct (IH keys' rest fuel (set_memory_vma v s)) as [v' E']; [done..|simpl in Hf; lia|].
      exists v'. erewrite loop_more; [exact E'|]. unfold assoc_turn.
      rewrite (list_at_cons_inv _ _ _ _ Hlist). change (TypeList =? TypeNIL) with false. cbv iota.
      erewrite bind_Ok by exact E. cbv beta iota zeta. rewrite Te. by apply run_again.
    + destruct (run_CarInternal (set_memory_vma v s) e a w Hv We Te Hread) as [v1 E1].
      assert (wf_state (set_memory_vma v1 s)) as Hv1.
      { eapply wf_after; [apply (ok_CarInternal e to_local), ok_to_local | exact Hv | exact E1]. }
      assert (forall r s', (if ObjectEqP (strip_cdr w) x then leave (next (SetObject e)) else again rest)
                             (set_memory_vma v1 s) = (r, s') -> assoc_turn l s = (r, s')) as T.
      { intros r s' Hrun. unfold assoc_turn. rewrite (list_at_cons_inv _ _ _ _ Hlist).
        change (TypeList =? TypeNIL) with false. cbv iota. erewrite bind_Ok by exact E. cbv beta iota. rewrite Te.
        change (TypeList =? TypeNIL) with false. change (TypeList =? TypeList) with true. cbv zeta iota.
        erewrite bind_Ok by exact E1. cbv beta iota. erewrite bind_Ok by (by apply (run_sp_get 0 x)). exact Hrun. }
      cbn [find_entry]. destruct (ObjectEqP (strip_cdr w) x) eqn:Heq.
      * exists v1. apply loop_done, T, run_leave, run_SetObject. exists x. exact Hx.
      * destruct (IH keys' rest fuel (set_memory_vma v1 s)) as [v' E']; [done..|simpl in Hf; lia|].
        exists v'. erewrite loop_more by (by apply T, run_again). exact E'.
Qed.

(** ExecuteAssoc on an association list with no sequence break pending: the top of the
    stack becomes the first entry whose key is EQ to it, or NIL; entries that are NIL
    are skipped, and nothing else changes. *)
Theorem ExecuteAssoc_correct s x l xs keys :
  wf_state s -> suspend s = 0 -> stack_at s 0 = Some x -> operand_value s = Some l ->
  extended_number_p x = false -> list_at (word_of s) l xs ->
  Forall2 (entry_key (word_of s)) xs keys -> (length xs < loop_fuel)%nat ->
  ends ExecuteAssoc s (Ok NextInstruction) (write_sp 0 (find_entry x xs keys)).
Proof.
  intros Hs Hz Hx Hl He Hlist Hk Hf.
  destruct (run_assoc s x xs keys l loop_fuel) as [v E]; [done|done|done|by eapply wf_operand_value|done..|].
  exists v. unfold ExecuteAssoc, search_list.
  erewrite bind_Ok by (by apply run_sp_get). rewrite He.
  by erewrite bind_Ok by (by apply run_op2_get).
Qed.
End representation.

(** ** At work *)

Definition word (cdr type data : Z) : LispObj := MkObj (Z.lor (Z.shiftl cdr 6) type) data.

(** The list (10 20 30) at 0x1000: two words in a row, and a third cell elsewhere. *)
Definition list_memory (s : MachineState) : MachineState :=
  poke 0x1000 (word CdrNext TypeFixnum 10)
   (poke 0x1001 (word CdrNormal TypeFixnum 20)
    (poke 0x1002 (word CdrNil TypeList 0x1800)
     (poke 0x1800 (word CdrNil TypeFixnum 30) s))).

(** The association list ((10 . 7)) at 0x2000, its entry a list at 0x1000. *)
Definition alist_memory (s : MachineState) : MachineState :=
  poke 0x2000 (word CdrNil TypeList 0x1000) (list_memory s).

Definition list_object (a : Z) : LispObj := MkObj TypeList a.

Definition list_machine (x : LispObj) : MachineState := list_memory (two_operands x (list_object 0x1000)).
Definition alist_machine (x : LispObj) : MachineState := alist_memory (two_operands x (list_object 0x2000)).

Lemma wf_list_machine x : wf_obj x -> wf_state (list_machine x).
Proof. intros. repeat apply wf_poke; [by vm_compute..|]. by apply wf_two_operands; [|by vm_compute]. Qed.
Lemma wf_alist_machine x : wf_obj x -> wf_state (alist_machine x).
Proof. intros. repeat apply wf_poke; [by vm_compute..|]. by apply wf_two_operands; [|by vm_compute]. Qed.

Ltac read_word_here :=
  exists 0%nat; split; [apply Nat.ltb_lt; vm_compute; reflexivity | apply follows_word; vm_compute; reflexivity].

Lemma list_machine_cells (view : Z -> option LispObj) :
  view 0x1000 = Some (word CdrNext TypeFixnum 10) ->
  view 0x1001 = Some (word CdrNormal TypeFixnum 20) ->
  view 0x1002 = Some (word CdrNil TypeList 0x1800) ->
  view 0x1800 = Some (word CdrNil TypeFixnum 30) ->
  list_at view (list_object 0x1000) [fixnum 10; fixnum 20; fixnum 30].
Proof.
  intros E0 E1 E2 E3.
  assert (R : forall cycle a w, cycle = CycleDataRead \/ cycle = CycleCdr -> view a = Some w ->
                action_of cycle w = Some 0 -> reads view cycle a a w).
  { intros cycle a w _ E A. exists 0%nat.
    split; [apply Nat.ltb_lt; vm_compute; reflexivity | by apply follows_word]. }
  apply (list_cons _ _ 0x1000 (word CdrNext TypeFixnum 10) (list_object 0x1001)); [done|apply R; auto| |].
  { eapply (cdr_of_next _ _ 0x1000); [apply R; eauto | done]. }
  apply (list_cons _ _ 0x1001 (word CdrNormal TypeFixnum 20) (list_object 0x1800)); [done|apply R; auto| |].
  { eapply (cdr_of_normal _ _ 0x1001 _ 0x1002 (word CdrNil TypeList 0x1800));
      [apply R; eauto | done | apply R; auto]. }
  apply (list_cons _ _ 0x1800 (word CdrNil TypeFixnum 30) ObjectNIL); [done|apply R; auto| |by constructor].
  eapply (cdr_of_nil _ _ 0x1800); [apply R; eauto | done].
Qed.

Lemma CarCdrInternal_list_witness :
  exists rest, ends (CarCdrInternal (list_object 0x1000)) (list_machine (fixnum 20))
      (Ok (Some (fixnum 10, rest))) id /\
    wf_obj rest /\ list_at (word_of (list_machine (fixnum 20))) rest [fixnum 20; fixnum 30].
Proof.
  apply (CarCdrInternal_list (list_machine (fixnum 20)) (list_object 0x1000));
    [by apply wf_list_machine | by vm_compute |].
  apply list_machine_cells; by vm_compute.
Defined.

Lemma ExecuteMember_correct_witness :
  exists r, ends ExecuteMember (list_machine (fixnum 20)) (Ok NextInstruction) (write_sp 0 r) /\
    member_result (word_of (list_machine (fixnum 20))) (fixnum 20) (list_object 0x1000)
      [fixnum 10; fixnum 20; fixnum 30] r.
Proof.
  apply (ExecuteMember_correct (list_machine (fixnum 20)) (fixnum 20) (list_object 0x1000));
    [by apply wf_list_machine | done | by vm_compute | done | done | |].
  - apply list_machine_cells; by vm_compute.
  - apply Nat.ltb_lt. by vm_compute.
Defined.

Lemma ExecuteAssoc_correct_witness :
  ends ExecuteAssoc (alist_machine (fixnum 10)) (Ok NextInstruction) (write_sp 0 (list_object 0x1000)).
Proof.
  apply (ExecuteAssoc_correct (alist_machine (fixnum 10)) (fixnum 10) (list_object 0x2000)
           [list_object 0x1000] [Some (fixnum 10)]);
    [by apply wf_alist_machine | done | by vm_compute | done | done | | |].
  - apply (list_cons _ _ 0x2000 (word CdrNil TypeList 0x1000) ObjectNIL);
      [done | read_word_here | | by constructor].
    eapply (cdr_of_nil _ _ 0x2000); [read_word_here | done].
  - constructor; [|constructor].
    apply (entry_pair _ _ 0x1000 (word CdrNext TypeFixnum 10)); [done | read_word_here].
  - apply Nat.ltb_lt. by vm_compute.
Defined.
