(* ===== verification/SystemSpec.v ===== *)
(** The system as a whole: startup and every reachable state of the sequencer keep the
    invariant, and startup enters the function the system vector names. *)

From S2P Require Export ListSpec.
#[local] Open Scope vlm_scope.

Section system.
Context {env : Environment}.
Context (junk : Z -> InstructionCacheLine).
Hypothesis (Hjunk : forall i, wf_line (junk i)).

(** ** Startup keeps the invariant *)

Lemma wf_reset_cache t :
  map_Forall (fun i l => 0 <= i < InstructionCacheSize /\ wf_line l) t ->
  map_Forall (fun i l => 0 <= i < InstructionCacheSize /\ wf_line l) (reset_cache junk t).
Proof.
  intros Ht. unfold reset_cache.
  assert (Forall (fun i => 0 <= i < InstructionCacheSize) (subscripts 2048)) as Hr.
  { apply Forall_fmap, Forall_forall. intros i Hi. apply elem_of_seq in Hi.
    unfold InstructionCacheSize. simpl. lia. }
  assert (forall i, wf_line (default (junk i) (t !! i))) as Hd.
  { intros i. destruct (t !! i) eqn:E; [|by apply Hjunk]. by destruct (Ht _ _ E). }
  induction (subscripts 2048) as [|i l IH]; [done|]. inversion Hr; subst. cbn [fold_right].
  apply map_Forall_insert_2; [|by apply IH]. split; [done|].
  apply wf_set_cl_pc; [by destruct (Z.odd i) | apply Hd].
Qed.

Lemma wf_initial_processor p : wf_ps p -> wf_ps (initial_processor junk p).
Proof.
  intros Hp. unfold initial_processor.
  repeat first [ apply wf_set_StackCacheLimit | apply wf_set_running | apply wf_set_instruction_count
               | apply wf_set_InstructionCache | apply wf_set_StackCacheBase | apply wf_set_StackCache
               | apply wf_set_ps_fp | apply wf_set_ps_sp | apply wf_set_ps_lp | apply wf_set_control
               | apply wf_set_ps_pc | apply wf_set_continuation ];
    try exact Hp; try (apply is_u32_const; reflexivity); try (split; apply is_u32_const; reflexivity).
  - apply wf_reset_cache, Hp.
  - apply wf_initial_stack.
Qed.
Hint Resolve wf_initial_processor : vlm_range.

Lemma wf_fake_continuation p : wf_ps p -> wf_obj (set_TAG (Z.lor (TAG (continuation p)) 192) (continuation p)).
Proof. eauto with vlm_range. Qed.
Hint Resolve wf_fake_continuation ok_put_control : vlm_inv.

Lemma ok_PushOneFakeFrame : ok PushOneFakeFrame.
Proof. ok_all. Qed.
Lemma ok_PopOneFakeFrame : ok PopOneFakeFrame.
Proof. ok_all. Qed.
Hint Resolve ok_PushOneFakeFrame ok_PopOneFakeFrame : vlm_inv.
Lemma ok_InitializeIvoryProcessor : ok (InitializeIvoryProcessor junk).
Proof. ok_all. Qed.
Lemma ok_startup_function : ok startup_function.
Proof. ok_all. Qed.
Hint Resolve ok_InitializeIvoryProcessor ok_startup_function : vlm_inv.
Lemma wf_StartMachine s : wf_state s -> wf_state (StartMachine s).
Proof. intros. by apply wf_set_suspend, wf_set_run. Qed.
Hint Resolve wf_StartMachine : vlm_range.
Lemma ok_IvoryProcessorSystemStartup b : ok (IvoryProcessorSystemStartup junk b).
Proof. ok_all. Qed.
Lemma wf_entry_registers p : wf_ps p ->
  wf_regs (MkRegisters (ps_sp p) (ps_sp p) (ps_fp p) (ps_lp p) (ps_pc p) CPNone OpNone (MkObj TypeFixnum 0)).
Proof. intros Hp. constructor; [apply Hp | by vm_compute]. Qed.
Hint Resolve wf_entry_registers : vlm_range.
Lemma ok_enter_sequencer : ok enter_sequencer.
Proof. ok_all. Qed.

End system.

(** *** A machine that boots: the system vector holds a compiled function *)

Definition bare_line (_ : Z) : InstructionCacheLine := InstructionCacheLookupCPRepresentation.
Definition boot_machine : MachineState :=
  poke 0xf8041002 (MkObj TypeCompiledFunction 0x2000) sample_machine.

Lemma wf_bare_line i : wf_line (bare_line i).
Proof. constructor; by vm_compute. Qed.
Lemma wf_boot_machine : wf_state boot_machine.
Proof. apply wf_poke; [by vm_compute | apply wf_sample_machine]. Qed.

Lemma pair_with_first {A B} (x : A * B) a : x.1 = a -> exists b, x = (a, b).
Proof. destruct x. intros <-. by eexists. Qed.

Lemma boot_machine_boots :
  exists s, (IvoryProcessorSystemStartup bare_line true ;; enter_sequencer) boot_machine = (Ok AtLookup, s).
Proof. apply pair_with_first. by vm_compute. Qed.

