(* ===== verification/FrameSpec.v ===== *)
(** Frames: the control register, calls and returns, and the fake frames of startup. *)

From S2P Require Export SystemSpec.
#[local] Open Scope vlm_scope.

(** ** The control register *)

(** The fields of the control register: how each is read, written, and its width. *)
Record ControlField := MkControlField { field_read : Z -> Z; field_write : Z -> Z -> Z; field_width : Z }.

Definition control_fields : list ControlField :=
  [ MkControlField ReadControlArgumentSize WriteControlArgumentSize 8;
    MkControlField ReadControlExtraArgument WriteControlExtraArgument 1;
    MkControlField ReadControlCallerFrameSize WriteControlCallerFrameSize 8;
    MkControlField ReadControlApply WriteControlApply 1;
    MkControlField ReadControlValueDisposition WriteControlValueDisposition 2;
    MkControlField ReadControlCallStarted WriteControlCallStarted 1;
    MkControlField ReadControlCleanupInProgress WriteControlCleanupInProgress 1;
    MkControlField ReadControlTrapOnExit WriteControlTrapOnExit 1;
    MkControlField ReadControlCleanupBindings WriteControlCleanupBindings 1;
    MkControlField ReadControlCleanupCatch WriteControlCleanupCatch 1;
    MkControlField ReadControlTracePending WriteControlTracePending 1;
    MkControlField ReadControlCallTrace WriteControlCallTrace 1;
    MkControlField ReadControlInstructionTrace WriteControlInstructionTrace 1;
    MkControlField ReadControlTrapMode WriteControlTrapMode 2 ].

(** Every index of the table. *)
Ltac each_field i H :=
  destruct i as [|i]; cbn in H; [injection H as <- | first [discriminate H | each_field i H]].

(** The fields of the control register are independent: writing one and reading it back
    gives the value reduced to the width of the field, and reads every other field as
    it was. *)
Theorem control_fields_independent i j f g c x :
  control_fields !! i = Some f -> control_fields !! j = Some g ->
  field_read g (field_write f c x) =
  if decide (i = j) then x mod 2 ^ field_width f else field_read g c.
Proof.
  intros Hi Hj. each_field i Hi; each_field j Hj;
    cbn [field_read field_write field_width]; (destruct (decide _) as [E|E]);
    first [ discriminate E | exfalso; by apply E
          | apply ldb_dpb_same; lia | apply ldb_dpb_disjoint; lia ].
Qed.

Lemma control_fields_independent_witness :
  ReadControlCallerFrameSize (WriteControlTrapMode (WriteControlCallerFrameSize 0 300) 2) = 44.
Proof.
  rewrite (control_fields_independent 13 2 (MkControlField ReadControlTrapMode WriteControlTrapMode 2)
             (MkControlField ReadControlCallerFrameSize WriteControlCallerFrameSize 8)); reflexivity.
Defined.

(** ** The control word of a call *)

Lemma call_control_testbit c operand a f i :
  0 <= a < 256 -> 0 <= f < 256 -> 0 <= i < 32 ->
  Z.testbit (call_control c operand 0 a (- f) false) i =
    (Z.testbit c i && negb (Z.testbit 122683391 i)) || (Z.testbit a i)
    || (Z.testbit 786432 i && Z.testbit operand (i - 10)) || (Z.testbit f (i - 9)).
Proof.
  intros Ha Hf Hi. unfold call_control.
  replace (a - 0) with a by lia. replace (0 - - f) with f by lia.
  rewrite u32_testbit by lia. replace (i <? 32) with true by lia.
  rewrite !Z.lor_spec, Z.ldiff_spec, !Z.shiftl_spec by lia.
  change (Z.lor ControlApply _) with 122683391. rewrite Z.bits_0, orb_false_r.
  destruct (Z.leb_spec 10 i).
  - rewrite Z.land_spec. replace (Z.testbit 768 (i - 10)) with (Z.testbit 786432 i).
    + cbn [andb]. by rewrite (andb_comm (Z.testbit operand _)).
    + change 786432 with (Z.shiftl 768 10). by rewrite Z.shiftl_spec by lia.
  - rewrite !(Z.testbit_neg_r _ (i - 10)) by lia. by rewrite !andb_false_r.
Qed.

(** A field is read bit by bit. *)
Lemma ldb_of_bits ss pp z n : 0 <= ss -> 0 <= pp -> 0 <= n < 2 ^ ss ->
  (forall i, 0 <= i < ss -> Z.testbit z (i + pp) = Z.testbit n i) -> ldb ss pp z = n.
Proof.
  intros Hs Hp Hn H. bits_ext i Hi. rewrite ldb_testbit by lia.
  destruct (Z.ltb_spec i ss); [by apply H|]. symmetry. apply (testbit_above _ ss); lia.
Qed.

Lemma testbit_byte a i : 0 <= a < 256 -> 8 <= i -> Z.testbit a i = false.
Proof. intros. by apply (testbit_above _ 8); lia. Qed.

(** [i] is one of the indices below [n]: try each. *)
Ltac each_bit i n :=
  lazymatch n with
  | O => exfalso; lia
  | S ?m =>
      let k := constr:(Z.of_nat m) in
      let k := eval vm_compute in k in
      destruct (Z.eq_dec i k) as [-> | ?]; [ | each_bit i m ]
  end.

Section call_control_fields.
Context (c operand op1 op2 fp : Z).
Hypotheses (Ha : 0 <= op2 - op1 < 256) (Hf : 0 <= op1 - fp < 256).
Let w := call_control c operand op1 op2 fp false.

Lemma call_control_bit i : 0 <= i < 32 ->
  Z.testbit w i =
    (Z.testbit c i && negb (Z.testbit 122683391 i)) || (Z.testbit (op2 - op1) i)
    || (Z.testbit 786432 i && Z.testbit operand (i - 10)) || (Z.testbit (op1 - fp) (i - 9)).
Proof.
  intros Hi. rewrite <- call_control_testbit by done. unfold w, call_control.
  replace (op2 - op1 - 0) with (op2 - op1) by lia.
  by replace (0 - - (op1 - fp)) with (op1 - fp) by lia.
Qed.

(** The bits of a field that starts at [pp], given the bits of the two constants there. *)
Lemma call_field ss pp n cleared moved :
  0 <= ss -> 0 <= pp -> pp + ss <= 32 -> 0 <= n < 2 ^ ss ->
  (forall i, 0 <= i < ss -> Z.testbit 122683391 (i + pp) = cleared) ->
  (forall i, 0 <= i < ss -> Z.testbit 786432 (i + pp) = moved) ->
  (forall i, 0 <= i < ss ->
     (Z.testbit c (i + pp) && negb cleared) || Z.testbit (op2 - op1) (i + pp)
     || (moved && Z.testbit operand (i + pp - 10)) || Z.testbit (op1 - fp) (i + pp - 9) = Z.testbit n i) ->
  ldb ss pp w = n.
Proof.
  intros Hs Hp Hr Hn Hc Hm H. apply ldb_of_bits; [done..|]. intros i Hi.
  rewrite call_control_bit, Hc, Hm by lia. by apply H.
Qed.

Ltac constant_bits n := intros i Hi; each_bit i n; reflexivity.

Lemma call_argument_size : ReadControlArgumentSize w = op2 - op1.
Proof.
  apply (call_field _ _ _ true false); [lia..|done|constant_bits 8%nat|constant_bits 8%nat|].
  intros i Hi. rewrite (Z.testbit_neg_r (op1 - fp)), Z.add_0_r by lia. simpl.
  by rewrite andb_false_r, !orb_false_r.
Qed.
Lemma call_frame_size : ReadControlCallerFrameSize w = op1 - fp.
Proof.
  apply (call_field _ _ _ true false); [lia..|done|constant_bits 8%nat|constant_bits 8%nat|].
  intros i Hi. rewrite (testbit_byte (op2 - op1)) by lia. simpl.
  rewrite andb_false_r. simpl. f_equal. lia.
Qed.
Lemma call_disposition : ReadControlValueDisposition w = ldb 2 8 operand.
Proof.
  apply (call_field _ _ _ true true); [lia..|apply ldb_range; lia|constant_bits 2%nat|constant_bits 2%nat|].
  intros i Hi. rewrite (testbit_byte (op2 - op1)), (testbit_byte (op1 - fp)), ldb_testbit by lia.
  replace (i <? 2) with true by lia. simpl. rewrite andb_false_r, orb_false_r. simpl. f_equal. lia.
Qed.
Lemma call_cleanup_bits : ReadControlCleanupBits w = 0.
Proof.
  apply (call_field _ _ _ true false); [lia..|lia|constant_bits 3%nat|constant_bits 3%nat|].
  intros i Hi. rewrite (testbit_byte (op2 - op1)), (testbit_byte (op1 - fp)), Z.bits_0 by lia.
  simpl. by rewrite andb_false_r.
Qed.
Lemma call_apply : ReadControlApply w = 0.
Proof.
  apply (call_field _ _ _ true false); [lia..|lia|constant_bits 1%nat|constant_bits 1%nat|].
  intros i Hi. rewrite (testbit_byte (op2 - op1)), (testbit_byte (op1 - fp)), Z.bits_0 by lia.
  simpl. by rewrite andb_false_r.
Qed.
Lemma call_trap_mode : ReadControlTrapMode w = ReadControlTrapMode c.
Proof.
  apply (call_field _ _ _ false false); [lia..|apply ldb_range; lia|constant_bits 2%nat|constant_bits 2%nat|].
  intros i Hi. unfold ReadControlTrapMode.
  rewrite (testbit_byte (op2 - op1)), (testbit_byte (op1 - fp)), ldb_testbit by lia.
  replace (i <? 2) with true by lia. simpl. by rewrite andb_true_r, !orb_false_r.
Qed.
End call_control_fields.

(** The control word a finished call builds: the argument size and the caller's frame
    size are those of the new frame, the value disposition comes from the operand,
    nothing is marked for cleanup, and the trap mode is the caller's. *)
Theorem call_control_fields_correct c operand op1 op2 fp :
  0 <= op2 - op1 < 256 -> 0 <= op1 - fp < 256 ->
  let w := call_control c operand op1 op2 fp false in
  ReadControlArgumentSize w = op2 - op1 /\ ReadControlCallerFrameSize w = op1 - fp /\
  ReadControlValueDisposition w = ldb 2 8 operand /\ ReadControlCleanupBits w = 0 /\
  ReadControlApply w = 0 /\ ReadControlTrapMode w = ReadControlTrapMode c.
Proof.
  intros Ha Hf w. split; [by apply call_argument_size|]. split; [by apply call_frame_size|].
  split; [by apply call_disposition|]. split; [by apply call_cleanup_bits|].
  split; [by apply call_apply | by apply call_trap_mode].
Qed.

Lemma call_control_fields_correct_witness :
  let w := call_control 0xC0000000 0x102 7 10 4 false in
  ReadControlArgumentSize w = 3 /\ ReadControlCallerFrameSize w = 3 /\
  ReadControlValueDisposition w = 1 /\ ReadControlCleanupBits w = 0 /\
  ReadControlApply w = 0 /\ ReadControlTrapMode w = 3.
Proof. apply (call_control_fields_correct 0xC0000000 0x102 7 10 4); lia. Defined.

(** ** Calls and returns *)

(** The two words a call saves, the continuation and the control word, as stored. *)
Definition saved_continuation (p : ProcessorState) : LispObj :=
  obj (u8 (Z.lor (TAG (continuation p)) 192)) (DATA (continuation p)).
Definition saved_control (p : ProcessorState) : LispObj := obj (u8 (Z.lor TypeFixnum 192)) (control p).

Lemma run_assign_ps f s : assign_ps f s = (Ok tt, upd_ps f s).
Proof. done. Qed.
Lemma run_assign_regs f s : assign_regs f s = (Ok tt, upd_regs f s).
Proof. done. Qed.
Lemma run_put_control f s :
  put_control f s = (Ok tt, upd_ps (fun p => set_control (f (control p)) p) s).
Proof. done. Qed.

Lemma stack_at_push k o s : is_Some (stack_at s 1) ->
  stack_at (push o s) k = if k =? 0 then Some o else stack_at s (1 + k).
Proof.
  intros H. unfold push. rewrite stack_at_move_sp. destruct (Z.eqb_spec k 0) as [->|Hk].
  - by apply stack_at_write_sp_eq.
  - apply stack_at_write_sp_ne. lia.
Qed.

Lemma stack_at_push_Some k o s : is_Some (stack_at (push o s) k) <-> is_Some (stack_at s (1 + k)).
Proof. unfold push. by rewrite stack_at_move_sp, stack_at_Some_write_sp. Qed.

Definition call_started (target : LispObj) (p : ProcessorState) : ProcessorState :=
  set_continuation target
    (set_control (Z.ldiff (Z.lor (control p) ControlCallStarted) ControlExtraArgument) p).

Lemma run_start_call target s : is_Some (stack_at s 1) -> is_Some (stack_at s 2) ->
  start_call target None s =
  (Ok NextInstruction,
   upd_ps (call_started target) (push (saved_control (ps s)) (push (saved_continuation (ps s)) s))).
Proof.
  intros H1 H2. unfold start_call. rewrite run_bind_gets. unfold PushContinuation, PushControl.
  erewrite bind_Ok by (by apply run_PushConstant).
  erewrite bind_Ok by (apply run_PushConstant; by apply stack_at_push_Some).
  erewrite bind_Ok by apply run_put_control.
  by erewrite bind_Ok by apply run_assign_ps.
Qed.

(** [s'] has the registers of the frame of [s], and the words of its stack at [i] and
    [i + 1]: what instructions that only work above the frame keep. *)
Definition keeps_frame (i : Z) (s s' : MachineState) : Prop :=
  fp (regs s') = fp (regs s) /\ control (ps s') = control (ps s) /\
  continuation (ps s') = continuation (ps s) /\
  nth_Z (StackCache (ps s')) i = nth_Z (StackCache (ps s)) i /\
  nth_Z (StackCache (ps s')) (i + 1) = nth_Z (StackCache (ps s)) (i + 1).

(** The state a finished call enters. *)
Definition call_entered (line : InstructionCacheLine) (op1 op2 : Z) (s : MachineState) : MachineState :=
  upd_ps (fun p => set_continuation (cl_next_pc line)
            (set_control (call_control (control p) (cl_operand line) op1 op2 (fp (regs s)) false) p))
   (upd_regs (fun r => set_pc (continuation (ps s)) (set_lp op2 (set_fp op1 (set_op2 (OpStack op2) r)))) s).

Lemma current_line_ext s s' l :
  cp (regs s') = cp (regs s) -> InstructionCache (ps s') = InstructionCache (ps s) ->
  current_line s = (Ok l, s) -> current_line s' = (Ok l, s').
Proof.
  intros Hc Hi. unfold current_line, get_reg, get_ps. rewrite !run_bind_gets, Hc.
  destruct (cp (regs s)); try done.
  - rewrite !run_bind_gets, Hi. by destruct (_ !! _) as [l'|]; [intros [= <-]|].
  - by intros [= <-].
Qed.

Lemma run_finish_call size line s op1 op2 :
  current_line s = (Ok line, s) -> ReadControlExtraArgument (control (ps s)) = 0 ->
  op1 = sp (regs s) - size -> op2 = sp (regs s) + 1 -> op1 <= StackCacheLimit (ps s) ->
  finish_call size false s = (Ok InstructionCacheLookup, call_entered line op1 op2 s).
Proof.
  intros Hl He -> -> Hlim. unfold finish_call, cp_operand. rewrite run_bind_assoc.
  erewrite bind_Ok by exact Hl. rewrite run_bind_ret, !run_bind_gets. cbv zeta. rewrite He, Z.sub_0_r.
  erewrite bind_Ok by apply run_assign_regs. erewrite bind_Ok by apply run_put_control.
  unfold FinishCallInternal.
  erewrite bind_Ok by apply run_assign_regs. erewrite bind_Ok by apply run_assign_regs.
  rewrite run_bind_gets. erewrite bind_Ok by apply run_assign_regs.
  unfold cp_next_pc. rewrite run_bind_assoc.
  match goal with |- bind _ _ ?s1 = _ =>
    assert (current_line s1 = (Ok line, s1)) as E by (by apply (current_line_ext s))
  end.
  erewrite bind_Ok by exact E. rewrite run_bind_ret. erewrite bind_Ok by apply run_assign_ps.
  unfold scroll_up_if. cbn [StackCacheLimit ps upd_regs upd_ps set_regs set_ps set_control].
  replace (_ <? _) with false by lia. done.
Qed.

(** The state after a frame is popped: the caller's registers are back, from the frame
    size and the two saved words. *)
Definition frame_popped (framesize saved : Z) (cont : LispObj) (s : MachineState) : MachineState :=
  upd_ps (fun p => set_control saved (set_continuation cont p))
   (upd_regs (fun r =>
      set_lp (fp r - framesize + ReadControlArgumentSize saved)
        (set_fp (fp r - framesize) (set_sp (fp r - 1) (set_pc (continuation (ps s)) r)))) s).

Section returns.
Context {env : Environment}.

Lemma run_fp_get k o s : nth_Z (StackCache (ps s)) (fp (regs s) + k) = Some o -> fp_get k s = (Ok o, s).
Proof. intros E. unfold fp_get, get_reg. rewrite run_bind_gets. by apply run_stack_get. Qed.

Lemma run_pop_frame disp framesize saved cont s :
  disp <> ValueDispositionReturn -> nth_Z (StackCache (ps s)) (fp (regs s)) = Some cont ->
  pop_frame disp framesize saved s = (Ok tt, frame_popped framesize saved cont s).
Proof.
  intros Hd Hc. unfold pop_frame, get_ps. rewrite run_bind_gets.
  replace (disp =? ValueDispositionReturn) with false by lia. unfold when. cbn [negb].
  erewrite bind_Ok by apply run_assign_regs.
  erewrite bind_Ok by (apply run_fp_get; rewrite Z.add_0_r; exact Hc).
  unfold put_continuation. erewrite bind_Ok by apply run_assign_ps.
  do 3 (erewrite bind_Ok by apply run_assign_regs). done.
Qed.

Lemma run_cleanup_none s : ReadControlCleanupBits (control (ps s)) = 0 -> cleanup_frame s = (Ok None, s).
Proof. intros E. unfold cleanup_frame, get_ps. by rewrite run_bind_gets, E. Qed.

(** What a single-value return leaves above the caller's frame. *)
Definition returned_value (disp : Z) (v : LispObj) (s : MachineState) : MachineState :=
  if disp =? ValueDispositionValue then push (StoreCdrNext v) s
  else if disp =? ValueDispositionMultiple then push (obj TypeFixnum 1) (push (StoreCdrNext v) s)
  else s.

Lemma run_return_single v cont saved s :
  let c := control (ps s) in
  let disp := ReadControlValueDisposition c in
  let framesize := ReadControlCallerFrameSize c in
  loop_fuel <> O -> disp <> ValueDispositionReturn -> ReadControlCleanupBits c = 0 ->
  nth_Z (StackCache (ps s)) (fp (regs s)) = Some cont ->
  nth_Z (StackCache (ps s)) (fp (regs s) + 1) = Some saved ->
  framesize <= fp (regs s) ->
  ReturnSingleInternal v s =
  (Ok InstructionCacheLookup, returned_value disp v (frame_popped framesize (DATA saved) cont s)).
Proof.
  intros c disp framesize Hfuel Hd Hb Hc Hs Hf. unfold ReturnSingleInternal.
  destruct loop_fuel as [|n]; [done|]. apply loop_done.
  unfold return_single_turn, get_ps. rewrite run_bind_gets. cbv zeta.
  erewrite bind_Ok by (by apply run_fp_get). erewrite bind_Ok by (by apply run_cleanup_none).
  cbv beta iota. rewrite run_bind_gets. fold c. fold disp. fold framesize.
  erewrite bind_Ok by (by apply run_pop_frame).
  set (s1 := frame_popped _ _ _ _).
  assert (forall k, k = 1 \/ k = 2 -> is_Some (stack_at s1 k)) as Hroom.
  { intros k Hk. unfold stack_at. simpl.
    destruct Hk as [-> | ->]; [replace (_ - 1 + 1) with (fp (regs s)) by lia
                              | replace (_ - 1 + 2) with (fp (regs s) + 1) by lia]; eauto. }
  assert (forall s2, fp (regs s2) = fp (regs s1) -> after_return disp s2 = (Ok (inr InstructionCacheLookup), s2)) as A.
  { intros s2 E. unfold after_return, underflow_check, get_reg. rewrite run_bind_assoc, run_bind_gets, E.
    unfold scroll_down_if. simpl. replace (_ <? 0) with false by lia. unfold when. rewrite run_bind_ret.
    by replace (disp =? ValueDispositionReturn) with false by lia. }
  unfold returned_value. destruct (disp =? ValueDispositionValue).
  - erewrite bind_Ok by (apply run_PushObject, Hroom; by left). by apply A.
  - destruct (disp =? ValueDispositionMultiple); [|rewrite run_bind_ret; by apply A].
    rewrite run_bind_assoc. erewrite bind_Ok by (apply run_PushObject, Hroom; by left).
    erewrite bind_Ok by (apply run_PushFixnum, stack_at_push_Some, Hroom; by right). by apply A.
Qed.
End returns.

(** The number of words a single-value return leaves. *)
Definition value_count (disp : Z) : Z :=
  if disp =? ValueDispositionValue then 1 else if disp =? ValueDispositionMultiple then 2 else 0.

Lemma returned_value_below disp v s k :
  k <= sp (regs s) ->
  nth_Z (StackCache (ps (returned_value disp v s))) k = nth_Z (StackCache (ps s)) k.
Proof.
  intros Hk. unfold returned_value. repeat case_match; simpl; rewrite ?nth_upd_ne by lia; done.
Qed.

Lemma returned_value_regs disp v s :
  fp (regs (returned_value disp v s)) = fp (regs s) /\ lp (regs (returned_value disp v s)) = lp (regs s) /\
  pc (regs (returned_value disp v s)) = pc (regs s) /\
  sp (regs (returned_value disp v s)) = sp (regs s) + value_count disp /\
  control (ps (returned_value disp v s)) = control (ps s) /\
  continuation (ps (returned_value disp v s)) = continuation (ps s).
Proof. unfold returned_value, value_count. repeat case_match; simpl; repeat split; lia. Qed.

Lemma not_extra c : ReadControlExtraArgument (Z.ldiff (Z.lor c ControlCallStarted) ControlExtraArgument) = 0.
Proof.
  apply ldb_of_bits; [lia..|]. intros i Hi. replace i with 0 by lia.
  rewrite Z.ldiff_spec by lia. simpl. by rewrite andb_false_r.
Qed.

Lemma run_FinishCallN line s n :
  current_line s = (Ok line, s) -> ReadControlExtraArgument (control (ps s)) = 0 ->
  ldb 8 0 (cl_operand line) = n -> sp (regs s) - n <= StackCacheLimit (ps s) ->
  ExecuteFinishCallN s =
  (Ok InstructionCacheLookup, call_entered line (sp (regs s) - n) (sp (regs s) + 1) s).
Proof.
  intros Hl He Hn Hlim. unfold ExecuteFinishCallN, cp_operand. rewrite run_bind_assoc.
  erewrite bind_Ok by exact Hl. rewrite run_bind_ret, Hn. by apply run_finish_call.
Qed.

(** The two saved words, and the room for them, at the start of a call. *)
Lemma saved_words target s : is_Some (stack_at s 1) -> is_Some (stack_at s 2) ->
  let s1 := upd_ps (call_started target) (push (saved_control (ps s)) (push (saved_continuation (ps s)) s)) in
  nth_Z (StackCache (ps s1)) (sp (regs s) + 1) = Some (saved_continuation (ps s)) /\
  nth_Z (StackCache (ps s1)) (sp (regs s) + 1 + 1) = Some (saved_control (ps s)).
Proof.
  intros H1 H2 s1.
  assert (is_Some (stack_at (push (saved_continuation (ps s)) s) 1)) as H by (by apply stack_at_push_Some).
  split.
  - transitivity (stack_at (push (saved_control (ps s)) (push (saved_continuation (ps s)) s)) (-1)).
    + unfold stack_at. f_equal. simpl. lia.
    + by rewrite !stack_at_push.
  - transitivity (stack_at (push (saved_control (ps s)) (push (saved_continuation (ps s)) s)) 0).
    + unfold stack_at. f_equal. simpl. lia.
    + by rewrite !stack_at_push.
Qed.

Lemma DATA_saved_control p : wf_ps p -> DATA (saved_control p) = control p.
Proof. intros H. simpl. apply u32_small. by apply wf_control. Qed.

Section call_return.
Context {env : Environment}.

(** C14. A call and its return: from the start of a call, through any instructions that push
    [n] arguments and keep the frame under construction, the finishing instruction
    enters the target with the new frame; and from any later state that still has that
    frame, with its cleanup bits clear, a single-value return restores the caller's
    registers, continues after the call, leaves the value, and keeps the caller's stack. *)
Theorem call_return s target s1 s1' line n v :
  let i := sp (regs s) + 1 in
  let disp := ldb 2 8 (cl_operand line) in
  wf_state s -> loop_fuel <> O -> is_Some (stack_at s 1) -> is_Some (stack_at s 2) ->
  start_call target None s = (Ok NextInstruction, s1) ->
  keeps_frame i s1 s1' -> sp (regs s1') = sp (regs s1) + n ->
  current_line s1' = (Ok line, s1') -> ldb 8 0 (cl_operand line) = n + 1 -> 0 <= n < 254 ->
  0 <= fp (regs s) -> 0 <= i - fp (regs s) < 256 -> i <= StackCacheLimit (ps s1') ->
  disp <> ValueDispositionReturn ->
  exists s2, ExecuteFinishCallN s1' = (Ok InstructionCacheLookup, s2) /\
    pc (regs s2) = target /\ fp (regs s2) = i /\ lp (regs s2) = i + 2 + n /\
    forall s2', keeps_frame i s2 s2' ->
    exists s3, ReturnSingleInternal v s2' = (Ok InstructionCacheLookup, s3) /\
      fp (regs s3) = fp (regs s) /\
      lp (regs s3) = fp (regs s) + ReadControlArgumentSize (control (ps s)) /\
      pc (regs s3) = cl_next_pc line /\
      control (ps s3) = control (ps s) /\
      continuation (ps s3) = saved_continuation (ps s) /\
      sp (regs s3) = sp (regs s) + value_count disp /\
      (disp = ValueDispositionValue -> stack_at s3 0 = Some (StoreCdrNext v)) /\
      forall k, k < i -> nth_Z (StackCache (ps s3)) k = nth_Z (StackCache (ps s2')) k.
Proof.
  intros i disp Hs Hfuel H1 H2 E1 [Kfp [Kc [Kk [K0 K1]]]] Hsp Hl Hn Hn' Hfp Hfs Hlim Hd.
  rewrite run_start_call in E1 by done. injection E1 as <-.
  destruct (saved_words target s H1 H2) as [W0 W1]. fold i in W0, W1.
  rewrite <- K0 in W0. rewrite <- K1 in W1.
  cbn [fp sp regs ps upd_ps set_ps push move_sp upd_regs set_regs write_sp write_stack set_sp
       call_started control continuation set_continuation set_control] in Kfp, Kc, Kk, Hsp.
  assert (Eop : sp (regs s1') - (n + 1) = i) by lia.
  eexists. split.
  { apply run_FinishCallN; [exact Hl | rewrite Kc; apply not_extra | exact Hn | lia]. }
  rewrite Eop. split; [exact Kk|]. split; [done|]. split; [simpl; lia|].
  intros s2' [Rfp [Rc [Rk [R0 R1]]]].
  change (fp (regs (call_entered _ _ _ _))) with i in Rfp.
  change (continuation (ps (call_entered _ _ _ _))) with (cl_next_pc line) in Rk.
  change (StackCache (ps (call_entered _ _ _ _))) with (StackCache (ps s1')) in R0, R1.
  rewrite W0 in R0. rewrite W1 in R1.
  set (w := call_control (control (ps s1')) (cl_operand line) i (sp (regs s1') + 1) (fp (regs s1')) false).
  change (control (ps (call_entered _ _ _ _))) with w in Rc.
  assert (ReadControlValueDisposition (control (ps s2')) = disp) as Fd
    by (rewrite Rc; apply call_disposition; lia).
  assert (ReadControlCallerFrameSize (control (ps s2')) = i - fp (regs s)) as Ff
    by (rewrite Rc, <- Kfp; apply call_frame_size; lia).
  eexists. split.
  { apply (run_return_single v (saved_continuation (ps s)) (saved_control (ps s)) s2');
      [done | by rewrite Fd | rewrite Rc; apply call_cleanup_bits; lia | by rewrite Rfp | by rewrite Rfp
      | rewrite Ff, Rfp; lia]. }
  rewrite Fd, Ff, DATA_saved_control by apply Hs.
  set (s3 := frame_popped _ _ _ _).
  destruct (returned_value_regs disp v s3) as [-> [-> [-> [-> [-> ->]]]]].
  simpl. rewrite Rfp, Rk. do 6 (split; [lia || done|]). split.
  - intros E. unfold returned_value. rewrite E, Z.eqb_refl.
    rewrite stack_at_push; [done|]. unfold stack_at. simpl.
    replace (_ - 1 + 1) with i by lia. eauto.
  - intros k Hk. rewrite returned_value_below; [done|]. simpl. lia.
Qed.
End call_return.

(** ** At work *)

(** The machine of a call: its instruction is line 0, finishing a call of one argument
    for its value. *)
Definition call_line : InstructionCacheLine :=
  MkInstructionCacheLine (MkObj TypeEvenPC 0x1000) (MkObj TypeOddPC 0x1000) DispatchFinishCallN 0x102 0 CPLookup.
Definition call_machine : MachineState :=
  upd_ps (set_InstructionCache (<[0 := call_line]> ∅)) (upd_regs (set_cp (CPLine 0)) sample_machine).
Definition call_target : LispObj := MkObj TypeEvenPC 0x3000.

Lemma wf_call_machine : wf_state call_machine.
Proof.
  apply wf_upd_ps; [|apply wf_upd_regs; [eauto with vlm_range | apply wf_sample_machine]].
  intros p Hp. apply wf_set_InstructionCache; [|done].
  apply map_Forall_insert_2; [|apply map_Forall_empty]. split; [by vm_compute|].
  constructor; by vm_compute.
Qed.

Definition call_started_machine : MachineState := (start_call call_target None call_machine).2.
Definition call_pushed_machine : MachineState := push (fixnum 5) call_started_machine.

Lemma call_return_witness :
  exists s2, ExecuteFinishCallN call_pushed_machine = (Ok InstructionCacheLookup, s2) /\
    pc (regs s2) = call_target /\
    exists s3, ReturnSingleInternal (fixnum 9) s2 = (Ok InstructionCacheLookup, s3) /\
      pc (regs s3) = MkObj TypeOddPC 0x1000 /\ stack_at s3 0 = Some (fixnum 9).
Proof.
  destruct (call_return call_machine call_target call_started_machine call_pushed_machine
              call_line 1 (fixnum 9)) as [s2 [E [P [_ [_ R]]]]].
  - apply wf_call_machine.
  - apply sample_fuel.
  - eexists. by vm_compute.
  - eexists. by vm_compute.
  - by vm_compute.
  - unfold keeps_frame. do 4 (split; [by vm_compute|]). by vm_compute.
  - by vm_compute.
  - by vm_compute.
  - by vm_compute.
  - by vm_compute.
  - by vm_compute.
  - by vm_compute.
  - by vm_compute.
  - by vm_compute.
  - exists s2. split; [done|]. split; [done|].
    destruct (R s2) as [s3 [E3 [_ [_ [Hp [_ [_ [_ [V _]]]]]]]]]; [by repeat split|].
    exists s3. split; [done|]. split; [exact Hp|]. by apply V.
Defined.
