(* ===== verification/VMSpec.v ===== *)
(** The virtual memory: creation of a range of pages, block transfer, and the scrolling
    of the stack cache. *)

From S2P Require Export FrameSpec.
#[local] Open Scope vlm_scope.

(** ** Creating pages *)

(** An address by its page and the offset in it. *)
Definition address (page off : Z) : Z := u32 (page * MemoryPageSize + off).

Definition page_exists (t : gmap Z Z) (page : Z) : bool := VMExists (attribute_of t page).

Lemma MemoryPageNumber_div a : MemoryPageNumber a = a / MemoryPageSize.
Proof. unfold MemoryPageNumber, MemoryAddressPageShift. by rewrite Z.shiftr_div_pow2. Qed.

Lemma MemoryPageNumber_address p off : 0 <= off < MemoryPageSize -> 0 <= p < 2 ^ 19 ->
  MemoryPageNumber (address p off) = p.
Proof.
  intros Ho Hp. rewrite MemoryPageNumber_div. unfold address, MemoryPageSize in *.
  rewrite u32_small by (unfold is_u32; lia). rewrite Z.div_add_l by lia. rewrite Z.div_small; lia.
Qed.

Lemma address_next p off : u32 (address p off + MemoryPageSize) = address (p + 1) off.
Proof. unfold address. rewrite u32_add_l. f_equal. lia. Qed.
Lemma address_add p n off : u32 (address p off + n * MemoryPageSize) = address (p + n) off.
Proof. unfold address. rewrite u32_add_l. f_equal. lia. Qed.

Lemma VMCreatedDefault_exists : VMExists VMCreatedDefault = true.
Proof. done. Qed.

(** The attribute table with the pages from [p] up to [p + n] marked as created. *)
Definition marked (t : gmap Z Z) (p n : Z) (t' : gmap Z Z) : Prop :=
  forall j, t' !! j = if decide (p <= j < p + n) then Some VMCreatedDefault else t !! j.

Section ensure.
Context {env : Environment}.
Context (off : Z) (Hoff : 0 <= off < MemoryPageSize).

Lemma Created_address s p : 0 <= p < 2 ^ 19 ->
  Created s (address p off) = page_exists (VMAttributeTable s) p.
Proof. intros Hp. unfold Created, created_in. by rewrite MemoryPageNumber_address. Qed.

Lemma run_ensure_missing k n pages p s :
  (Z.to_nat pages < k)%nat -> 0 <= pages -> 0 <= p -> p + pages <= 2 ^ 19 ->
  exists m t', 0 <= m <= pages /\
    ensure_missing k n pages (address p off) s =
      (Ok (n + m, pages - m, address (p + m) off), set_VMAttributeTable t' s) /\
    marked (VMAttributeTable s) p m t' /\
    (forall j, p <= j < p + m -> page_exists (VMAttributeTable s) j = false) /\
    (m < pages -> page_exists (VMAttributeTable s) (p + m) = true).
Proof.
  revert n pages p s. induction k as [|k IH]; intros n pages p s Hk Hp0 Hp Hr; [lia|].
  cbn [ensure_missing]. rewrite run_bind_gets.
  assert (forall t', t' = VMAttributeTable s -> set_VMAttributeTable t' s = s) as Hid.
  { intros ? ->. by destruct s. }
  destruct (Z.eqb_spec pages 0) as [E0|E0].
  { rewrite andb_false_r. exists 0, (VMAttributeTable s). rewrite Hid, !Z.add_0_r by done.
    split; [lia|]. split; [by rewrite Z.sub_0_r|]. split; [|split; [intros; lia | lia]].
    intros j. by rewrite decide_False by lia. }
  rewrite Created_address by lia. cbn [negb]. rewrite andb_true_r.
  destruct (page_exists (VMAttributeTable s) p) eqn:Ex; cbn [negb].
  { exists 0, (VMAttributeTable s). rewrite Hid, !Z.add_0_r by done.
    split; [lia|]. split; [by rewrite Z.sub_0_r|]. split; [|split; [intros; lia | by intros _]].
    intros j. by rewrite decide_False by lia. }
  unfold SetCreated. rewrite run_bind_modify, MemoryPageNumber_address, address_next by lia.
  set (s1 := set_VMAttributeTable _ s).
  destruct (IH (n + 1) (pages - 1) (p + 1) s1) as [m [t' [Hm [E [M [N X]]]]]]; [lia..|].
  assert (forall j, j <> p -> page_exists (VMAttributeTable s1) j = page_exists (VMAttributeTable s) j) as Same.
  { intros j Hj. unfold page_exists, attribute_of. simpl. by rewrite lookup_insert_ne. }
  exists (m + 1), t'. split; [lia|]. split; [|split; [|split]].
  - rewrite E. replace (p + 1 + m) with (p + (m + 1)) by lia.
    replace (n + 1 + m) with (n + (m + 1)) by lia. by replace (pages - 1 - m) with (pages - (m + 1)) by lia.
  - intros j. rewrite M. simpl. destruct (decide (p + 1 <= j < p + 1 + m)).
    + by rewrite decide_True by lia.
    + destruct (decide (j = p)) as [->|Hj].
      * by rewrite lookup_insert_eq, decide_True by lia.
      * by rewrite lookup_insert_ne, decide_False by lia.
  - intros j Hj. destruct (decide (j = p)) as [->|Hne]; [done|]. rewrite <- Same by done. apply N. lia.
  - intros Hlt. replace (p + (m + 1)) with (p + 1 + m) by lia. rewrite <- Same by lia. apply X. lia.
Qed.

Lemma run_ensure_skip k pages p base s :
  (Z.to_nat pages < k)%nat -> 0 <= pages -> 0 <= p -> p + pages <= 2 ^ 19 ->
  exists m, 0 <= m <= pages /\
    ensure_skip k pages (address p off) (address p base) s =
      (Ok (pages - m, address (p + m) off, address (p + m) base), s) /\
    (forall j, p <= j < p + m -> page_exists (VMAttributeTable s) j = true) /\
    (pages <> 0 -> page_exists (VMAttributeTable s) p = true -> 0 < m).
Proof.
  revert pages p. induction k as [|k IH]; intros pages p Hk Hp0 Hp Hr; [lia|].
  cbn [ensure_skip]. rewrite run_bind_gets.
  destruct (Z.eqb_spec pages 0) as [E0|E0].
  { rewrite andb_false_r. exists 0. rewrite !Z.add_0_r.
    split; [lia|]. split; [by rewrite Z.sub_0_r|]. split; [intros; lia | done]. }
  rewrite Created_address by lia. cbn [negb]. rewrite andb_true_r.
  destruct (page_exists (VMAttributeTable s) p) eqn:Ex.
  2: { exists 0. rewrite !Z.add_0_r. split; [lia|]. split; [by rewrite Z.sub_0_r|].
       split; [intros; lia | done]. }
  rewrite !address_next. destruct (IH (pages - 1) (p + 1)) as [m [Hm [E [N _]]]]; [lia..|].
  exists (m + 1). split; [lia|]. split; [|split; [|lia]].
  - rewrite E. replace (p + 1 + m) with (p + (m + 1)) by lia.
    by replace (pages - 1 - m) with (pages - (m + 1)) by lia.
  - intros j Hj. destruct (decide (j = p)) as [->|Hne]; [done|]. apply N. lia.
Qed.

(** ** The whole range *)

(** Page [j] is one of the [n] pages from [p] and is missing in [s]. *)
Definition missing (s : MachineState) (p n j : Z) : Prop :=
  p <= j < p + n /\ page_exists (VMAttributeTable s) j = false.
#[local] Instance missing_dec s p n j : Decision (missing s p n j).
Proof. unfold missing. apply _. Defined.

(** [s'] is [s] with the missing pages among the [n] from [p] created, and zero. *)
Record ensured (p n : Z) (s s' : MachineState) : Prop := {
  ensured_attributes j : VMAttributeTable s' !! j =
    if decide (missing s p n j) then Some VMCreatedDefault else VMAttributeTable s !! j;
  ensured_data a : DataSpace s' !! a =
    if decide (missing s p n (a / MemoryPageSize)) then None else DataSpace s !! a;
  ensured_tags a : TagSpace s' !! a =
    if decide (missing s p n (a / MemoryPageSize)) then None else TagSpace s !! a;
  ensured_rest :
    s' = set_TagSpace (TagSpace s') (set_DataSpace (DataSpace s')
           (set_VMAttributeTable (VMAttributeTable s') s))
}.

Lemma lookup_clear_range base len (m : gmap Z Z) a :
  clear_range base len m !! a = if decide (base <= a < base + len) then None else m !! a.
Proof.
  unfold clear_range. destruct (decide (base <= a < base + len)) as [H|H].
  - apply map_lookup_filter_None. right. intros x Hx. simpl. tauto.
  - destruct (m !! a) as [x|] eqn:E.
    + by apply map_lookup_filter_Some.
    + apply map_lookup_filter_None. by left.
Qed.

Lemma page_range p n a : p * MemoryPageSize <= a < p * MemoryPageSize + n * MemoryPageSize <->
  p <= a / MemoryPageSize < p + n.
Proof.
  unfold MemoryPageSize. pose proof (Z.div_mod a 8192 ltac:(lia)).
  pose proof (Z.mod_pos_bound a 8192 ltac:(lia)). lia.
Qed.

Lemma ensured_0 p s : ensured p 0 s s.
Proof.
  assert (forall j, ~ missing s p 0 j) as H by (intros j [? _]; lia).
  constructor; intros; try (by rewrite decide_False by apply H). by destruct s.
Qed.

Lemma page_exists_ensured p n s s' j : ensured p n s s' ->
  page_exists (VMAttributeTable s') j =
  bool_decide (p <= j < p + n) || page_exists (VMAttributeTable s) j.
Proof.
  intros H. unfold page_exists, attribute_of at 1. rewrite (ensured_attributes _ _ _ _ H).
  destruct (decide (missing s p n j)) as [[H1 H2]|H1].
  - by rewrite bool_decide_eq_true_2.
  - case_bool_decide as B; [|done]. fold (page_exists (VMAttributeTable s) j).
    destruct (page_exists (VMAttributeTable s) j) eqn:E; [|by destruct H1].
    unfold page_exists, attribute_of in E. by rewrite E.
Qed.

Lemma ensured_trans p n m s1 s2 s3 : 0 <= n -> 0 <= m ->
  ensured p n s1 s2 -> ensured (p + n) m s2 s3 -> ensured p (n + m) s1 s3.
Proof.
  intros Hn Hm H1 H2.
  assert (forall j, missing s1 p (n + m) j <-> missing s1 p n j \/ missing s2 (p + n) m j) as E.
  { intros j. unfold missing. rewrite (page_exists_ensured _ _ _ _ j H1).
    case_bool_decide; simpl; split; intros; intuition (try lia); try discriminate. }
  constructor.
  - intros j. rewrite (ensured_attributes _ _ _ _ H2), (ensured_attributes _ _ _ _ H1).
    repeat case_decide; try done; exfalso; rewrite E in *; tauto.
  - intros a. rewrite (ensured_data _ _ _ _ H2), (ensured_data _ _ _ _ H1).
    repeat case_decide; try done; exfalso; rewrite E in *; tauto.
  - intros a. rewrite (ensured_tags _ _ _ _ H2), (ensured_tags _ _ _ _ H1).
    repeat case_decide; try done; exfalso; rewrite E in *; tauto.
  - rewrite (ensured_rest _ _ _ _ H2) at 1. by rewrite (ensured_rest _ _ _ _ H1) at 1.
Qed.

Hypothesis (Hmap : forall base n, mmap_succeeds base n = true).

(** One run of missing pages: they are marked first and mapped then. *)
Lemma ensured_run p n s t' : 0 <= p -> 0 < n -> p + n <= 2 ^ 19 ->
  marked (VMAttributeTable s) p n t' ->
  (forall j, p <= j < p + n -> page_exists (VMAttributeTable s) j = false) ->
  exists s', map_pages (address p 0) n (set_VMAttributeTable t' s) = (Ok tt, s') /\ ensured p n s s'.
Proof.
  intros Hp Hn Hr M N. eexists. split; [unfold map_pages; rewrite Hmap; reflexivity|].
  assert (address p 0 = p * MemoryPageSize) as E.
  { unfold address, MemoryPageSize. rewrite u32_small; unfold is_u32; lia. }
  assert (forall j, missing s p n j <-> p <= j < p + n) as Hm.
  { intros j. unfold missing. split; [tauto|]. intros H. by split; [|apply N]. }
  constructor; simpl.
  - intros j. rewrite M. repeat case_decide; try done; exfalso; rewrite Hm in *; tauto.
  - intros a. rewrite lookup_clear_range, E.
    repeat case_decide; try done; exfalso; rewrite Hm, <- page_range in *; tauto.
  - intros a. rewrite lookup_clear_range, E.
    repeat case_decide; try done; exfalso; rewrite Hm, <- page_range in *; tauto.
  - by destruct s.
Qed.

Lemma ensured_present p m s :
  (forall j, p <= j < p + m -> page_exists (VMAttributeTable s) j = true) -> ensured p m s s.
Proof.
  intros N. assert (forall j, ~ missing s p m j) as H.
  { intros j [H1 H2]. by rewrite N in H2. }
  constructor; intros; try (by rewrite decide_False by apply H). by destruct s.
Qed.

Lemma run_ensure_runs k pages p s :
  (Z.to_nat pages + 2 <= k)%nat -> 0 <= pages -> 0 <= p -> p + pages <= 2 ^ 19 ->
  exists s', ensure_runs k pages (address p off) (address p 0) s = (Ok (address (p + pages) off), s') /\
    ensured p pages s s'.
Proof.
  revert pages p s. induction k as [|k IH]; intros pages p s Hk Hp0 Hp Hr; [lia|].
  cbn [ensure_runs]. destruct (Z.eqb_spec pages 0) as [->|E0].
  { rewrite Z.add_0_r. exists s. split; [done | apply ensured_0]. }
  destruct (run_ensure_missing k 0 pages p s) as [n [t' [Hn [E [M [N X]]]]]]; [lia..|].
  rewrite Z.add_0_l in E. erewrite bind_Ok by exact E. cbv beta iota.
  assert (exists s1, (if n =? 0 then ret tt else map_pages (address p 0) n)
                       (set_VMAttributeTable t' s) = (Ok tt, s1) /\ ensured p n s s1) as [s1 [E1 H1]].
  { destruct (Z.eqb_spec n 0) as [->|Hne]; [|by apply ensured_run; [lia..|done|done]].
    eexists. split; [reflexivity|]. replace (set_VMAttributeTable t' s) with s; [apply ensured_0|].
    assert (t' = VMAttributeTable s) as ->; [|by destruct s].
    apply map_eq. intros j. rewrite M. by rewrite decide_False by lia. }
  erewrite bind_Ok by exact E1. cbv zeta.
  replace (if n =? 0 then address p 0 else u32 (address p 0 + n * MemoryPageSize))
    with (address (p + n) 0)
    by (destruct (Z.eqb_spec n 0) as [->|]; [by rewrite Z.add_0_r | by rewrite address_add]).
  destruct (run_ensure_skip k (pages - n) (p + n) 0 s1) as [m [Hm [E2 [Nm Xm]]]]; [lia..|].
  erewrite bind_Ok by exact E2. cbv beta iota.
  assert (0 < n + m) as Hpos.
  { destruct (Z.eq_dec n 0) as [->|]; [|lia]. enough (0 < m) by lia. apply Xm; [lia|].
    rewrite (page_exists_ensured _ _ _ _ _ H1). rewrite X by lia. apply orb_true_r. }
  destruct (IH (pages - n - m) (p + n + m) s1) as [s' [E3 H3]]; [lia..|].
  exists s'. rewrite E3. split; [by replace (p + n + m + (pages - n - m)) with (p + pages) by lia|].
  replace pages with (n + (m + (pages - n - m))) by lia.
  apply (ensured_trans _ _ _ _ s1); [lia..|done|].
  apply (ensured_trans _ _ _ _ s1); [lia..|by apply ensured_present|done].
Qed.
End ensure.

(** What creation does to the words of memory. *)
Lemma raw_word_ensured p n s s' a : ensured p n s s' ->
  raw_word s' a =
  match raw_word s a with
  | Some o => Some o
  | None => if bool_decide (p <= a / MemoryPageSize < p + n) then Some (MkObj 0 0) else None
  end.
Proof.
  intros H. unfold raw_word, Created, created_in. rewrite !MemoryPageNumber_div.
  change (VMExists (attribute_of ?t (a / MemoryPageSize))) with (page_exists t (a / MemoryPageSize)).
  rewrite (page_exists_ensured _ _ _ _ _ H). unfold fetch, word_at.
  rewrite (ensured_data _ _ _ _ H), (ensured_tags _ _ _ _ H).
  destruct (decide (missing s p n (a / MemoryPageSize))) as [[B E]|N].
  - by rewrite E, bool_decide_eq_true_2.
  - destruct (page_exists (VMAttributeTable s) (a / MemoryPageSize)) eqn:E; [by rewrite orb_true_r|].
    case_bool_decide as B; [|done]. by destruct N.
Qed.

Lemma ceiling_spec count d : 0 <= count -> 0 < d -> ceiling count d = (count + (d - 1)) / d.
Proof. intros. unfold ceiling. by rewrite Z.quot_div_nonneg by lia. Qed.

Section range.
Context {env : Environment}.

(** The pages EnsureVirtualAddressRange looks at. *)
Definition range_pages (vma count : Z) (page : Z) : Prop :=
  vma / MemoryPageSize <= page < vma / MemoryPageSize + ceiling count MemoryPageSize.

Lemma run_EnsureVirtualAddressRange s vma count :
  (forall base n, mmap_succeeds base n = true) -> is_u32 vma -> 0 <= count ->
  vma / MemoryPageSize + ceiling count MemoryPageSize <= 2 ^ 19 ->
  exists s' v, EnsureVirtualAddressRange vma count s = (Ok v, s') /\
    ensured (vma / MemoryPageSize) (ceiling count MemoryPageSize) s s'.
Proof.
  intros Hmap [Hv Hv'] Hc Hr.
  pose proof (Z.mod_pos_bound vma MemoryPageSize ltac:(unfold MemoryPageSize; lia)) as B.
  pose proof (Z.div_mod vma MemoryPageSize ltac:(unfold MemoryPageSize; lia)) as D.
  assert (0 <= vma / MemoryPageSize * MemoryPageSize) as Hbase.
  { apply Z.mul_nonneg_nonneg; [apply Z.div_pos|]; unfold MemoryPageSize; lia. }
  assert (0 <= ceiling count MemoryPageSize) as Hpages.
  { rewrite ceiling_spec by (unfold MemoryPageSize; lia). apply Z.div_pos; unfold MemoryPageSize; lia. }
  destruct (run_ensure_runs (vma mod MemoryPageSize) B Hmap (Z.to_nat (ceiling count MemoryPageSize) + 2)
              (ceiling count MemoryPageSize) (vma / MemoryPageSize) s) as [s' [E H]];
    [lia | done | apply Z.div_pos; unfold MemoryPageSize; lia | done |].
  exists s'. eexists. split; [|exact H]. unfold EnsureVirtualAddressRange. rewrite <- E. clear E. f_equal.
  - unfold address. rewrite u32_small by (unfold is_u32; lia). lia.
  - unfold address, MemoryPageOffset. change (MemoryPageSize - 1) with (Z.ones 13).
    rewrite Z.land_ones by lia. change (2 ^ 13) with MemoryPageSize.
    rewrite u32_small; unfold is_u32; lia.
Qed.

End range.


(** ** Block transfer *)

(** Words written from a list. *)
Definition from_list (l : list LispObj) (k : Z) : Emu LispObj := of_option (nth_Z l k).

Lemma run_write_block n a k l s :
  (forall i, 0 <= i < Z.of_nat n -> Created s (a + i) = true) ->
  (forall i, 0 <= i < Z.of_nat n -> exists o, nth_Z l (k + i) = Some o /\ wf_obj o /\ is_u8 (TAG o)) ->
  exists s', write_block n a k (from_list l) s = (Ok tt, s') /\
    ps s' = ps s /\ regs s' = regs s /\
    forall b, raw_word s' b = if bool_decide (a <= b < a + Z.of_nat n) then nth_Z l (k + (b - a)) else raw_word s b.
Proof.
  revert a k s. induction n as [|n IH]; intros a k s Hc Hl.
  { exists s. split; [done|]. split; [done|]. split; [done|]. intros b. by rewrite bool_decide_eq_false_2 by lia. }
  destruct (Hl 0) as [o [Ho [[_ Hd] Ht]]]; [lia|]. rewrite Z.add_0_r in Ho.
  assert (Created s a = true) as Hca by (rewrite <- (Z.add_0_r a); apply Hc; lia).
  cbn [write_block]. unfold from_list at 1. rewrite (run_bind_option o) by done.
  erewrite bind_Ok by (by apply run_touch). unfold store_data, store_tag, set_mem_vma.
  rewrite !run_bind_modify, run_bind_gets, run_bind_modify, (u32_small _ Hd), (u8_small _ Ht).
  match goal with |- context [write_block n _ _ _ ?x] => set (s1 := x) end.
  assert (forall b, raw_word s1 b = if b =? a then Some o else raw_word s b) as V.
  { intros b. change (raw_word s1 b) with (raw_word (stored a o s) b). by apply raw_word_stored. }
  destruct (IH (a + 1) (k + 1) s1) as [s' [E [Hp [Hr V']]]].
  - intros i Hi. change (Created s1 (a + 1 + i)) with (Created s (a + 1 + i)).
    replace (a + 1 + i) with (a + (1 + i)) by lia. apply Hc. lia.
  - intros i Hi. replace (k + 1 + i) with (k + (1 + i)) by lia. apply Hl. lia.
  - exists s'. split; [done|]. split; [by rewrite Hp|]. split; [by rewrite Hr|].
    intros b. rewrite V', V. destruct (Z.eqb_spec b a) as [->|Hne].
    + rewrite bool_decide_eq_false_2 by lia. rewrite bool_decide_eq_true_2 by lia.
      by rewrite Z.sub_diag, Z.add_0_r.
    + repeat case_bool_decide; try lia; [f_equal; lia | done].
Qed.

(** VirtualMemoryWriteBlock: the words of the block are stored in order at the addresses
    from [vma] on, and every other word of memory is unchanged. *)
Theorem VirtualMemoryWriteBlock_stores s vma l :
  let count := Z.of_nat (length l) in
  0 <= vma -> vma + count < 2 ^ 32 -> Forall (fun o => wf_obj o /\ is_u8 (TAG o)) l ->
  (forall a, vma <= a < vma + count -> Created s a = true) ->
  exists s', VirtualMemoryWriteBlock vma (from_list l) count s = (Ok tt, s') /\
    forall a, raw_word s' a =
      if bool_decide (vma <= a < vma + count) then nth_Z l (a - vma) else raw_word s a.
Proof.
  intros count Hv Hr Hl Hc. unfold VirtualMemoryWriteBlock, set_mem_vma. rewrite run_bind_modify.
  assert (block_length vma count = length l) as ->.
  { unfold block_length. rewrite u32_small by (unfold is_u32; lia). lia. }
  destruct (run_write_block (length l) vma 0 l (set_memory_vma (u32 vma) s)) as [s' [E [_ [_ V]]]].
  - intros i Hi. apply (Hc (vma + i)). lia.
  - intros i Hi. rewrite Z.add_0_l. destruct (nth_Z l i) as [o|] eqn:Ho.
    + exists o. split; [done|]. exact (Forall_nth_Z _ _ _ _ Hl Ho).
    + apply nth_Z_None in Ho. apply not_true_iff_false in Ho. destruct Ho. by apply in_bounds_spec.
  - exists s'. split; [done|]. intros a. rewrite V. by rewrite Z.add_0_l.
Qed.

Lemma VirtualMemoryWriteBlock_stores_witness :
  exists s', VirtualMemoryWriteBlock 0x1000 (from_list [fixnum 1; fixnum 2]) 2 forwarding_machine = (Ok tt, s') /\
    raw_word s' 0x1001 = Some (fixnum 2).
Proof.
  destruct (VirtualMemoryWriteBlock_stores forwarding_machine 0x1000 [fixnum 1; fixnum 2]) as [s' [E V]].
  - done.
  - done.
  - repeat constructor; by vm_compute.
  - intros a Ha. assert (a = 0x1000 \/ a = 0x1001) as [-> | ->] by (simpl in Ha; lia); by vm_compute.
  - exists s'. split; [exact E|]. rewrite V. by vm_compute.
Defined.

(** ** Scrolling *)

Lemma lookup_copy_page dst src l k : length l = 1024%nat -> (dst < 4)%nat -> (src < 4)%nat ->
  copy_page dst src l !! k =
  if decide (dst * 256 <= k < dst * 256 + 256)%nat then l !! (k - dst * 256 + src * 256)%nat else l !! k.
Proof.
  intros Hl Hd Hs. unfold copy_page.
  assert (length (take (dst * 256) l) = (dst * 256)%nat) as L1 by (rewrite length_take; lia).
  assert (length (take 256 (drop (src * 256) l)) = 256%nat) as L2 by (rewrite length_take, length_drop; lia).
  destruct (decide (k < dst * 256)%nat) as [H1|H1].
  - rewrite lookup_app_l by lia. rewrite lookup_take_lt by lia. by rewrite decide_False by lia.
  - rewrite lookup_app_r, L1 by lia. destruct (decide (k < dst * 256 + 256)%nat) as [H2|H2].
    + rewrite lookup_app_l by lia. rewrite lookup_take_lt, lookup_drop, decide_True by lia. f_equal. lia.
    + rewrite lookup_app_r, L2 by lia. rewrite lookup_drop, decide_False by lia. f_equal. lia.
Qed.

Lemma length_copy_page dst src l : length l = 1024%nat -> (dst < 4)%nat -> (src < 4)%nat ->
  length (copy_page dst src l) = 1024%nat.
Proof. intros. unfold copy_page. rewrite !length_app, !length_take, !length_drop. lia. Qed.

(** Scrolling down moves every page up by one. *)
Lemma nth_scroll_down l k : length l = 1024%nat -> 256 <= k < 1024 ->
  nth_Z (scroll_down_pages l) k = nth_Z l (k - 256).
Proof.
  intros Hl Hk. unfold nth_Z. replace (0 <=? k) with true by lia. replace (0 <=? k - 256) with true by lia.
  unfold scroll_down_pages, scroll_subscripts. cbn [fold_left].
  rewrite !lookup_copy_page by (repeat apply length_copy_page; lia).
  repeat case_decide; try lia; f_equal; lia.
Qed.

Lemma length_scroll_down l : length l = 1024%nat -> length (scroll_down_pages l) = 1024%nat.
Proof. intros. cbn [scroll_down_pages scroll_subscripts fold_left]. repeat apply length_copy_page; lia. Qed.

(** C37. StackCacheScrollUp does not keep the cache: its copies run from the last page down, so
    every page of the cache becomes a copy of the old last page. *)
Theorem scroll_up_pages_all_last l k : length l = 1024%nat -> 0 <= k < 1024 ->
  nth_Z (scroll_up_pages l) k = nth_Z l (768 + k mod 256).
Proof.
  intros Hl Hk. unfold nth_Z. pose proof (Z.mod_pos_bound k 256 ltac:(lia)).
  replace (0 <=? k) with true by lia. replace (0 <=? 768 + k mod 256) with true by lia.
  unfold scroll_up_pages, scroll_subscripts. cbn [fold_left].
  rewrite !lookup_copy_page by (repeat apply length_copy_page; lia).
  pose proof (Z.div_mod k 256 ltac:(lia)).
  repeat case_decide; try lia; f_equal; lia.
Qed.

Lemma scroll_up_pages_all_last_witness :
  nth_Z (scroll_up_pages initial_stack) 0 = nth_Z initial_stack 768.
Proof. rewrite (scroll_up_pages_all_last initial_stack 0); [reflexivity | reflexivity | lia]. Defined.

Lemma run_read_block n a k s :
  (forall i, 0 <= i < Z.of_nat n -> Created s (a + i) = true) ->
  0 <= k -> k + Z.of_nat n <= Z.of_nat (length (StackCache (ps s))) ->
  exists v l, read_block n a k to_stack s =
      (Ok tt, set_memory_vma v (upd_ps (set_StackCache l) s)) /\
    length l = length (StackCache (ps s)) /\
    forall j, nth_Z l j =
      if bool_decide (k <= j < k + Z.of_nat n) then Some (fetch s (a + (j - k))) else nth_Z (StackCache (ps s)) j.
Proof.
  revert a k s. induction n as [|n IH]; intros a k s Hc Hk Hl.
  { exists (memory_vma s), (StackCache (ps s)). split; [by destruct s as [[]]|]. split; [done|].
    intros j. by rewrite bool_decide_eq_false_2 by lia. }
  cbn [read_block]. erewrite bind_Ok by (apply run_touch; rewrite <- (Z.add_0_r a); apply Hc; lia).
  rewrite run_bind_gets. unfold to_stack at 1.
  erewrite bind_Ok by (apply run_stack_put, in_bounds_spec; lia).
  rewrite run_bind_gets. unfold set_mem_vma. rewrite run_bind_modify.
  set (s1 := set_memory_vma _ _).
  destruct (IH (a + 1) (k + 1) s1) as [v [l [E [L V]]]].
  - intros i Hi. change (Created s1 (a + 1 + i)) with (Created s (a + 1 + i)).
    replace (a + 1 + i) with (a + (1 + i)) by lia. apply Hc. lia.
  - lia.
  - simpl. rewrite upd_Z_length. lia.
  - exists v, l. split; [by rewrite E|]. split; [rewrite L; apply upd_Z_length|].
    intros j. rewrite V. change (fetch s1) with (fetch s).
    destruct (Z.eq_dec j k) as [->|Hne].
    + rewrite bool_decide_eq_false_2 by lia. rewrite bool_decide_eq_true_2 by lia. simpl.
      rewrite nth_upd_eq by lia. by rewrite Z.sub_diag, Z.add_0_r.
    + repeat case_bool_decide; try lia; [do 2 f_equal; lia|]. simpl. apply nth_upd_ne. lia.
Qed.


