(* ===== verification/StartSpec.v ===== *)
(** Startup: the fake frames, and the entry into the system's first function. *)

From S2P Require Export VMSpec.
#[local] Open Scope vlm_scope.

(** ** Fake frames *)

Definition fake_control (framesize : Z) : Z :=
  WriteControlCallerFrameSize (WriteControlArgumentSize 0 2) framesize.

(** The state after a fake frame is pushed. *)
Definition fake_pushed (p : ProcessorState) : ProcessorState :=
  let f := ps_sp p + 1 in
  set_ps_sp (f + 1) (set_ps_fp f (set_continuation (ps_pc p)
    (set_control (fake_control (f - ps_fp p))
      (set_StackCache (upd_Z (upd_Z (StackCache p) f
          (set_TAG (Z.lor (TAG (continuation p)) 192) (continuation p)))
        (f + 1) (obj (Z.lor 192 TypeFixnum) (control p))) p)))).

Lemma run_PushOneFakeFrame s :
  in_bounds (StackCache (ps s)) (ps_sp (ps s) + 1) = true ->
  in_bounds (StackCache (ps s)) (ps_sp (ps s) + 1 + 1) = true ->
  PushOneFakeFrame s = (Ok tt, upd_ps fake_pushed s).
Proof.
  intros H1 H2. unfold PushOneFakeFrame. rewrite run_bind_gets. cbv zeta.
  erewrite bind_Ok by (by apply run_stack_put).
  erewrite bind_Ok by (apply run_stack_put; simpl; by rewrite in_bounds_upd).
  do 3 (erewrite bind_Ok by apply run_put_control).
  do 2 (erewrite bind_Ok by apply run_assign_ps). done.
Qed.

(** The state after a frame with the saved words [c] and [w] is popped. *)
Definition fake_popped (c w : LispObj) (p : ProcessorState) : ProcessorState :=
  let f := ps_fp p in
  let fp' := f - ReadControlCallerFrameSize (control p) in
  set_ps_lp (fp' + ReadControlArgumentSize (DATA w))
    (set_control (DATA w) (set_continuation c (set_ps_pc (continuation p)
      (set_ps_fp fp' (set_ps_sp (f - 1) p))))).

Lemma run_PopOneFakeFrame s c w :
  nth_Z (StackCache (ps s)) (ps_fp (ps s)) = Some c ->
  nth_Z (StackCache (ps s)) (ps_fp (ps s) + 1) = Some w ->
  PopOneFakeFrame s = (Ok tt, upd_ps (fake_popped c w) s).
Proof.
  intros Hc Hw. unfold PopOneFakeFrame. rewrite run_bind_gets. cbv zeta.
  do 3 (erewrite bind_Ok by apply run_assign_ps).
  erewrite bind_Ok by (by apply run_stack_get).
  erewrite bind_Ok by apply run_assign_ps.
  erewrite bind_Ok by (by apply run_stack_get).
  erewrite bind_Ok by apply run_put_control.
  unfold upd_ps, fake_popped. simpl. reflexivity.
Qed.

Lemma fake_frame_size n : 0 <= n < 256 -> ReadControlCallerFrameSize (fake_control n) = n.
Proof.
  intros H. unfold fake_control, ReadControlCallerFrameSize, WriteControlCallerFrameSize.
  rewrite ldb_dpb_same by lia. by apply Z.mod_small.
Qed.

(** The two words a fake frame saves. *)
Lemma fake_pushed_words p :
  in_bounds (StackCache p) (ps_sp p + 1) = true -> in_bounds (StackCache p) (ps_sp p + 1 + 1) = true ->
  nth_Z (StackCache (fake_pushed p)) (ps_sp p + 1) =
    Some (set_TAG (Z.lor (TAG (continuation p)) 192) (continuation p)) /\
  nth_Z (StackCache (fake_pushed p)) (ps_sp p + 1 + 1) = Some (obj (Z.lor 192 TypeFixnum) (control p)).
Proof.
  intros H1%in_bounds_spec H2%in_bounds_spec. simpl. split.
  - rewrite nth_upd_ne by lia. by apply nth_upd_eq.
  - apply nth_upd_eq. by rewrite upd_Z_length.
Qed.

(** PopOneFakeFrame undoes PushOneFakeFrame: the stack, frame and local pointers, the program
    counter and the control register are those of before; the continuation has its two
    cdr-code bits set, and of the stack only the two words above its top have changed. *)
Theorem PopOneFakeFrame_PushOneFakeFrame s :
  let p := ps s in
  wf_state s -> in_bounds (StackCache p) (ps_sp p + 1) = true ->
  in_bounds (StackCache p) (ps_sp p + 1 + 1) = true ->
  0 <= ps_sp p + 1 - ps_fp p < 256 -> ps_lp p = ps_fp p + ReadControlArgumentSize (control p) ->
  exists stack,
    (PushOneFakeFrame ;; PopOneFakeFrame) s =
    (Ok tt, upd_ps (fun p => set_continuation (set_TAG (Z.lor (TAG (continuation p)) 192) (continuation p))
                               (set_StackCache stack p)) s) /\
    forall i, i <> ps_sp p + 1 -> i <> ps_sp p + 1 + 1 -> nth_Z stack i = nth_Z (StackCache p) i.
Proof.
  intros p Hs H1 H2 Hf Hlp. destruct (fake_pushed_words p H1 H2) as [W1 W2].
  exists (StackCache (fake_pushed p)). split.
  - erewrite bind_Ok by (by apply run_PushOneFakeFrame).
    erewrite run_PopOneFakeFrame; [|exact W1|exact W2].
    unfold upd_ps. simpl. fold p. unfold fake_popped. simpl. rewrite fake_frame_size by done.
    rewrite (u32_small (control p)) by apply Hs.
    replace (ps_sp p + 1 - (ps_sp p + 1 - ps_fp p)) with (ps_fp p) by lia.
    replace (ps_sp p + 1 - 1) with (ps_sp p) by lia. rewrite <- Hlp. by destruct s as [[]].
  - intros i Hi1 Hi2. simpl. by rewrite !nth_upd_ne by congruence.
Qed.

Lemma PopOneFakeFrame_PushOneFakeFrame_witness :
  exists stack,
    (PushOneFakeFrame ;; PopOneFakeFrame) (upd_ps (set_control 2) sample_machine) =
    (Ok tt, upd_ps (fun p => set_continuation (MkObj (Z.lor 192 TypeEvenPC) 0) (set_StackCache stack p))
              (upd_ps (set_control 2) sample_machine)) /\
    forall i, i <> 6 -> i <> 7 -> nth_Z stack i = nth_Z initial_stack i.
Proof.
  apply (PopOneFakeFrame_PushOneFakeFrame (upd_ps (set_control 2) sample_machine));
    [|by vm_compute..].
  apply wf_upd_ps; [|apply wf_sample_machine]. intros p Hp. apply wf_set_control; [by vm_compute | done].
Defined.

(** ** Startup *)

Section startup.
Context {env : Environment}.
Context (junk : Z -> InstructionCacheLine).
Hypothesis (Hmap : forall base n, mmap_succeeds base n = true).

(** The processor InitializeIvoryProcessor leaves: two fake frames on a fresh stack. *)
Definition started_processor (p : ProcessorState) : ProcessorState :=
  fake_pushed (fake_pushed (initial_processor junk p)).

Lemma run_InitializeIvoryProcessor s :
  exists s', InitializeIvoryProcessor junk s = (Ok tt, s') /\
    ps s' = started_processor (ps s) /\
    (forall a o, raw_word s a = Some o -> raw_word s' a = Some o).
Proof.
  unfold InitializeIvoryProcessor. erewrite bind_Ok by apply run_assign_ps.
  do 2 (erewrite bind_Ok by (apply run_PushOneFakeFrame; vm_compute; reflexivity)).
  set (s1 := upd_ps fake_pushed _).
  destruct (run_EnsureVirtualAddressRange s1 0xf8000100 0xf00 Hmap) as [s2 [v2 [E2 H2]]];
    [by vm_compute | done | by vm_compute |].
  erewrite bind_Ok by exact E2.
  destruct (run_EnsureVirtualAddressRange s2 0xf8062000 0x9e000 Hmap) as [s3 [v3 [E3 H3]]];
    [by vm_compute | done | by vm_compute |].
  exists s3. erewrite bind_Ok by exact E3. split; [done|]. split.
  - rewrite (ensured_rest _ _ _ _ H3). simpl. by rewrite (ensured_rest _ _ _ _ H2).
  - intros a o Ho. rewrite (raw_word_ensured _ _ _ _ a H3), (raw_word_ensured _ _ _ _ a H2).
    change (raw_word s1 a) with (raw_word s a). by rewrite Ho.
Qed.

(** The two pops that enter the first function, from the state InitializeIvoryProcessor left
    with the function's entry written where the second pop will find the new continuation. *)
Definition entered (d : Z) (s : MachineState) : Prop :=
  ps_pc (ps s) = MkObj (Z.lor 192 TypeEvenPC) d /\
  ps_fp (ps s) = 4 /\ ps_sp (ps s) = 5 /\ ps_lp (ps s) = 6 /\
  ReadControlTrapMode (control (ps s)) = TrapModeFEP /\
  StackCacheBase (ps s) = InitialStackCacheBase /\ run s = true /\ suspend s = 0.

Lemma ps_upd_ps f s : ps (upd_ps f s) = f (ps s).
Proof. done. Qed.
Lemma fake_popped_pc c w p : ps_pc (fake_popped c w p) = continuation p.
Proof. done. Qed.
Lemma fake_popped_continuation c w p : continuation (fake_popped c w p) = c.
Proof. done. Qed.
Lemma ps_StartMachine s : ps (StartMachine s) = ps s.
Proof. done. Qed.

(** The processor with the entry [o] in the slot of the second frame's continuation, and
    after the first of the two pops. *)
Definition primed_processor (o : LispObj) (p : ProcessorState) : ProcessorState :=
  set_StackCache (upd_Z (StackCache (started_processor p)) 8 o) (started_processor p).
Definition half_entered (o : LispObj) (p : ProcessorState) : ProcessorState :=
  fake_popped o (obj (Z.lor 192 TypeFixnum) (fake_control 2)) (primed_processor o p).

Lemma primed_words o p :
  nth_Z (StackCache (primed_processor o p)) (ps_fp (primed_processor o p)) = Some o /\
  nth_Z (StackCache (primed_processor o p)) (ps_fp (primed_processor o p) + 1) =
    Some (obj (Z.lor 192 TypeFixnum) (fake_control 2)).
Proof. by vm_compute. Qed.

Lemma half_entered_words o p :
  nth_Z (StackCache (half_entered o p)) (ps_fp (half_entered o p)) =
    Some (MkObj (Z.lor 192 TypeNIL) 0) /\
  nth_Z (StackCache (half_entered o p)) (ps_fp (half_entered o p) + 1) =
    Some (obj (Z.lor 192 TypeFixnum) (control (initial_processor junk p))).
Proof. by vm_compute. Qed.

Lemma run_enter_first_function s p d :
  ps s = started_processor p -> u32 d = d ->
  exists s', ((stack_put 8 (obj (Z.lor 192 TypeEvenPC) d) ;; PopOneFakeFrame ;; PopOneFakeFrame ;;
              modify StartMachine ;; ret true) s = (Ok true, s')) /\ entered d s'.
Proof.
  intros P2 Hd.
  erewrite bind_Ok by (apply run_stack_put; rewrite P2; vm_compute; reflexivity).
  set (o := obj (Z.lor 192 TypeEvenPC) d).
  assert (ps (write_stack 8 o s) = primed_processor o p) as E1
    by (unfold write_stack; rewrite ps_upd_ps, P2; reflexivity).
  generalize dependent (write_stack 8 o s). intros t Et.
  destruct (primed_words o p) as [A1 A2]. rewrite <- Et in A1, A2.
  erewrite bind_Ok by (exact (run_PopOneFakeFrame t _ _ A1 A2)).
  set (u := upd_ps _ t).
  assert (ps u = half_entered o p) as Eu by (unfold u; rewrite ps_upd_ps, Et; reflexivity).
  clearbody u. destruct (half_entered_words o p) as [B1 B2]. rewrite <- Eu in B1, B2.
  erewrite bind_Ok by (exact (run_PopOneFakeFrame u _ _ B1 B2)).
  eexists. split; [reflexivity|]. unfold entered. rewrite ps_StartMachine, ps_upd_ps, Eu, fake_popped_pc.
  split; [|by vm_compute]. unfold half_entered. rewrite fake_popped_continuation.
  unfold o, obj. by rewrite Hd.
Qed.

End startup.

