(* ===== verification/Queues.v ===== *)
(** The single-producer single-consumer rings of life-support/queues.c, shared by the guest
    and the host threads without a lock. Each routine is given as the sequence of its
    accesses to the index the other side writes, so that the two sides can be interleaved
    at every such access. *)

From S2P Require Export Effect Word.
#[local] Open Scope vlm_scope.

(** ** The header and the element array *)

(* life-support/embed.h:315-324 EmbQueue *)
Record EmbQueue (area : Type) := MkEmbQueue {
  element_size : Z;
  queue_size : Z;
  put_index : Z;
  take_index : Z;
  signal : Z;
  first_element : area
}.
Arguments MkEmbQueue {area}.
Arguments element_size {area}.
Arguments queue_size {area}.
Arguments put_index {area}.
Arguments take_index {area}.
Arguments signal {area}.
Arguments first_element {area}.

Section setters.
Context {area : Type}.
Implicit Types q : EmbQueue area.
Definition set_put_index v q :=
  MkEmbQueue (element_size q) (queue_size q) v (take_index q) (signal q) (first_element q).
Definition set_take_index v q :=
  MkEmbQueue (element_size q) (queue_size q) (put_index q) v (signal q) (first_element q).
Definition set_signal v q :=
  MkEmbQueue (element_size q) (queue_size q) (put_index q) (take_index q) v (first_element q).
Definition set_first_element (v : area) q :=
  MkEmbQueue (element_size q) (queue_size q) (put_index q) (take_index q) (signal q) v.
End setters.

(** How the routines view the memory from [first_element] on: an array of bytes or words, or
    of records of [element_size] bytes that are copied by memcpy. [None] is an access
    outside the array. *)
Class ElementArray (area elt : Type) := {
  read_element : Z -> area -> Z -> option elt;
  write_element : Z -> area -> Z -> elt -> option area
}.

(** [element_array[i]], of bytes or words. *)
#[export] Instance plain_array {A} : ElementArray (list A) A := {
  read_element _ a i := nth_Z a i;
  write_element _ a i e := if in_bounds a i then Some (upd_Z a i e) else None
}.

(** [memcpy] of [qp->element_size] bytes at [&element_array[i * qp->element_size]]. *)
Definition record_inside (size : Z) (a : list Z) (i : Z) : bool :=
  (0 <=? size) && (0 <=? i * size) && (i * size + size <=? Z.of_nat (length a)).

#[export] Instance record_array : ElementArray (list Z) (list Z) | 10 := {
  read_element size a i :=
    if record_inside size a i
    then Some (take (Z.to_nat size) (drop (Z.to_nat (i * size)) a)) else None;
  write_element size a i e :=
    if (Z.of_nat (length e) =? size) && record_inside size a i
    then Some (take (Z.to_nat (i * size)) a ++ e ++ drop (Z.to_nat (i * size + size)) a) else None
}.

Section operations.
Context {area elt : Type} `{ElementArray area elt}.
Implicit Types (q : EmbQueue area) (e : elt).

(** A new queue over the memory EmbCommAreaAlloc returned. *)
(* life-support/queues.c:23-35 CreateQueue *)
Definition CreateQueue (memory : area) (nElements elementSize : Z) : EmbQueue area :=
  MkEmbQueue elementSize nElements 0 0 (-1) memory.

(* life-support/queues.c:40-49 EmbQueueSpace *)
Definition EmbQueueSpace q : Z :=
  let put := put_index q in
  let take := take_index q in
  if put <? take then s32 (take - put - 1) else s32 (take - put - 1 + queue_size q).

(* life-support/queues.c:54-63 EmbQueueFilled *)
Definition EmbQueueFilled q : Z :=
  let put := put_index q in
  let take := take_index q in
  if take <=? put then s32 (put - take) else s32 (put - take + queue_size q).

(** [i++; if (i >= qp->queue_size) i = 0;] *)
(* life-support/queues.c:79-82 put *)
Definition next_index q (i : Z) : Z := if queue_size q <=? i + 1 then 0 else i + 1.

(** [memcpy] of several consecutive elements. *)
Fixpoint write_elements (size : Z) (a : area) (i : Z) (l : list elt) : option area :=
  match l with
  | [] => Some a
  | e :: l' =>
      match write_element size a i e with
      | None => None
      | Some a' => write_elements size a' (i + 1) l'
      end
  end.

Fixpoint read_elements (size : Z) (a : area) (i : Z) (n : nat) : option (list elt) :=
  match n with
  | O => Some []
  | S n' =>
      match read_element size a i, read_elements size a (i + 1) n' with
      | Some e, Some l => Some (e :: l)
      | _, _ => None
      end
  end.

(** ** The producer *)

(** Where the producer is: the locals of the routine it is in, at its next access to the
    index the consumer writes or to the index it publishes. *)
Inductive Producer :=
| PutIdle
| PutWait (put original_put : Z) (e : elt)      (* the element is in place; at the waiting loop *)
| PutStore (put original_put : Z) (e : elt)     (* past the loop; about to store put_index *)
| PutLoop (put original_put actual_length : Z) (buffer : list elt)   (* at the head of the transfer loop *)
| PutStoreMany (put original_put actual_length : Z) (copied buffer : list elt)   (* about to store put_index *)
| PutCheck (original_put actual_length : Z).    (* about to load take_index for the signal *)

(** Up to the first load of [take_index]: the element is copied to the put index. *)
(* life-support/queues.c:68-82 EmbQueuePut *)
Definition EmbQueuePut q e : option (EmbQueue area * Producer) :=
  let put := put_index q in
  match write_element (element_size q) (first_element q) put e with
  | None => None
  | Some a => Some (set_first_element a q, PutWait (next_index q put) put e)
  end.

(** The number of elements of one contiguous block, given a load of [take_index]. *)
(* life-support/queues.c:255-262 count *)
Definition put_count q (put take length : Z) : Z :=
  let count := if put <? take then take - put - 1
               else if take =? 0 then queue_size q - put - 1
               else queue_size q - put in
  if length <? count then length else count.

(* life-support/queues.c:242-251 put_index *)
Definition EmbQueuePutMany q (buffer : list elt) : Producer :=
  PutLoop (put_index q) (put_index q) 0 buffer.

(** A turn of the transfer loop up to the store of the put index. *)
(* life-support/queues.c:251-268 memcpy *)
Definition put_block q (put orig actual : Z) (buffer : list elt) : option (EmbQueue area * Producer) :=
  let count := put_count q put (take_index q) (Z.of_nat (length buffer)) in
  if count <? 0 then None else
  let n := Z.to_nat count in
  match write_elements (element_size q) (first_element q) put (firstn n buffer) with
  | None => None
  | Some a =>
      let put' := put + count in
      Some (set_first_element a q,
            PutStoreMany (if put' =? queue_size q then 0 else put') orig (actual + count)
              (firstn n buffer) (skipn n buffer))
  end.

(** The next access. The last component of the result is [Some (n, s)] when the routine
    returns: [n] elements were put by a transfer, and [s] is the signal it sent, if any. *)
(* life-support/queues.c:84-91 QueueStore *)
Definition producer_step q (p : Producer) : option (EmbQueue area * Producer * option (Z * option Z)) :=
  match p with
  | PutIdle => None
  | PutWait put orig e =>
      Some (q, if put =? take_index q then PutWait put orig e else PutStore put orig e, None)
  | PutStore put orig e => Some (set_put_index put q, PutCheck orig 0, None)
  | PutLoop put orig actual [] => Some (q, PutCheck orig actual, None)
  | PutLoop put orig actual buffer =>
      match put_block q put orig actual buffer with
      | None => None
      | Some (q', p') => Some (q', p', None)
      end
  | PutStoreMany put orig actual copied buffer =>
      Some (set_put_index put q, PutLoop put orig actual buffer, None)
  | PutCheck orig actual =>
      Some (q, PutIdle, Some (actual, if orig =? take_index q then Some (signal q) else None))
  end.

(** ** The consumer *)

Inductive Consumer :=
| TakeIdle
| TakeStore (take : Z) (e : elt)                    (* the element is copied; about to store take_index *)
| TakeLoop (take length : Z) (taken : list elt)     (* at the head of the transfer loop *)
| TakeStoreMany (take length : Z) (copied taken : list elt).   (* about to store take_index *)

(** EmbQueueTake up to the store of [take_index]; [inl tt] is the return of FALSE. *)
(* life-support/queues.c:155-176 EmbQueueTake *)
Definition EmbQueueTake q : option (unit + Consumer) :=
  let put := put_index q in
  let take := take_index q in
  if put =? take then Some (inl tt) else
  match read_element (element_size q) (first_element q) take with
  | None => None
  | Some e => Some (inr (TakeStore (next_index q take) e))
  end.

(* life-support/queues.c:340-345 count *)
Definition take_count q (put take length : Z) : Z :=
  let count := if take <=? put then put - take else queue_size q - take in
  if length <? count then length else count.

(* life-support/queues.c:328-333 take_index *)
Definition EmbQueueTakeMany q (length : Z) : Consumer := TakeLoop (take_index q) length [].

(** The next access; [Some l] in the result is the return with the elements [l]. *)
(* life-support/queues.c:336-356 QueueStore *)
Definition consumer_step q (c : Consumer) : option (EmbQueue area * Consumer * option (list elt)) :=
  match c with
  | TakeIdle => None
  | TakeStore take e => Some (set_take_index take q, TakeIdle, Some [e])
  | TakeLoop take length taken =>
      if length <=? 0 then Some (q, TakeIdle, Some taken) else
      let count := take_count q (put_index q) take length in
      if count <? 0 then None else
      match read_elements (element_size q) (first_element q) take (Z.to_nat count) with
      | None => None
      | Some l =>
          let take' := take + count in
          Some (q, TakeStoreMany (if take' =? queue_size q then 0 else take') (length - count) l
                     (taken ++ l), None)
      end
  | TakeStoreMany take length copied taken => Some (set_take_index take q, TakeLoop take length taken, None)
  end.

(** ** One side alone *)

(** A routine run to its return while the other side does nothing; [None] when it has not
    returned within the bound or has left the array. *)
Fixpoint run_producer (fuel : nat) q (p : Producer) : option (EmbQueue area * (Z * option Z)) :=
  match fuel with
  | O => None
  | S n =>
      match producer_step q p with
      | None => None
      | Some (q', _, Some r) => Some (q', r)
      | Some (q', p', None) => run_producer n q' p'
      end
  end.

Fixpoint run_consumer (fuel : nat) q (c : Consumer) : option (EmbQueue area * list elt) :=
  match fuel with
  | O => None
  | S n =>
      match consumer_step q c with
      | None => None
      | Some (q', _, Some l) => Some (q', l)
      | Some (q', c', None) => run_consumer n q' c'
      end
  end.

(** ** Resets *)

(* life-support/queues.c:415-420 ResetOutgoingQueue *)
Definition ResetOutgoingQueue q : EmbQueue area :=
  set_signal (-1) (set_take_index 0 (set_put_index 0 q)).

(** The queue of ResetIncomingQueue, and the signal whose handler it removes: only a queue
    beyond the host's buffer, at the guest address [guest], was created by the guest. *)
(* life-support/queues.c:399-409 ResetIncomingQueue *)
Definition ResetIncomingQueue (guest host_buffer_start host_buffer_size : Z) q : EmbQueue area * option Z :=
  let q' := set_take_index 0 (set_put_index 0 q) in
  if host_buffer_start + host_buffer_size <? guest then (set_signal (-1) q', Some (signal q))
  else (q', None).
End operations.
Arguments Producer : clear implicits.
Arguments Consumer : clear implicits.

(** ** The word and byte routines: the same text over arrays of words and of bytes *)

(* life-support/queues.c:97-108 EmbQueuePutWord *)
Definition EmbQueuePutWord (q : EmbQueue (list Z)) (elt : Z) : option (EmbQueue (list Z) * Producer Z) :=
  EmbQueuePut q elt.
(* life-support/queues.c:126-137 EmbQueuePutByte *)
Definition EmbQueuePutByte (q : EmbQueue (list Byte.byte)) (elt : Byte.byte) :
  option (EmbQueue (list Byte.byte) * Producer Byte.byte) := EmbQueuePut q elt.

(** An empty queue gives FALSE as the element. *)
(* life-support/queues.c:181-203 EmbQueueTakeWord *)
Definition EmbQueueTakeWord (q : EmbQueue (list Z)) : option (Z + Consumer Z) :=
  match EmbQueueTake (elt := Z) q with
  | None => None
  | Some (inl _) => Some (inl 0)
  | Some (inr c) => Some (inr c)
  end.
(* life-support/queues.c:208-230 EmbQueueTakeByte *)
Definition EmbQueueTakeByte (q : EmbQueue (list Byte.byte)) : option (Byte.byte + Consumer Byte.byte) :=
  match EmbQueueTake (elt := Byte.byte) q with
  | None => None
  | Some (inl _) => Some (inl Byte.x00)
  | Some (inr c) => Some (inr c)
  end.

(* life-support/queues.c:240-251 EmbQueuePutBytes *)
Definition EmbQueuePutBytes (q : EmbQueue (list Byte.byte)) (buffer : list Byte.byte) : Producer Byte.byte :=
  EmbQueuePutMany q buffer.
(* life-support/queues.c:283-294 EmbQueuePutWords *)
Definition EmbQueuePutWords (q : EmbQueue (list Z)) (buffer : list Z) : Producer Z := EmbQueuePutMany q buffer.
(* life-support/queues.c:326-336 EmbQueueTakeBytes *)
Definition EmbQueueTakeBytes (q : EmbQueue (list Byte.byte)) (length : Z) : Consumer Byte.byte :=
  EmbQueueTakeMany q length.
(* life-support/queues.c:362-372 EmbQueueTakeWords *)
Definition EmbQueueTakeWords (q : EmbQueue (list Z)) (length : Z) : Consumer Z := EmbQueueTakeMany q length.

(** ** The two sides together *)

Section system.
Context {area elt : Type} `{ElementArray area elt}.

(** The shared queue, the place of each side, the elements published by the producer and
    given up by the consumer so far, whether EmbSendSignal has been called since the
    consumer last woke, and whether the consumer is waiting for it. *)
Record QSystem := MkQSystem {
  sq : EmbQueue area;
  producer : Producer elt;
  consumer : Consumer elt;
  put_log : list elt;
  take_log : list elt;
  signalled : bool;
  asleep : bool
}.

(** The elements a step makes visible by storing [put_index], or frees by [take_index]. *)
Definition published (p : Producer elt) : list elt :=
  match p with
  | PutStore _ _ e => [e]
  | PutStoreMany _ _ _ copied _ => copied
  | _ => []
  end.
Definition consumed (c : Consumer elt) : list elt :=
  match c with
  | TakeStore _ e => [e]
  | TakeStoreMany _ _ copied _ => copied
  | _ => []
  end.

(** A step of either side. The consumer is a signal handler: it takes until the queue is
    empty and then waits to be woken, which clears its signal first; the polling thread
    may also wake it. [many] permits the transfers of several elements. *)
Inductive qstep (many : bool) : QSystem -> QSystem -> Prop :=
| qstep_put q c pl tl s w e q' p' :
    EmbQueuePut q e = Some (q', p') ->
    qstep many (MkQSystem q PutIdle c pl tl s w) (MkQSystem q' p' c pl tl s w)
| qstep_put_many q c pl tl s w buffer :
    many = true ->
    qstep many (MkQSystem q PutIdle c pl tl s w) (MkQSystem q (EmbQueuePutMany q buffer) c pl tl s w)
| qstep_producer q p c pl tl s w q' p' :
    producer_step q p = Some (q', p', None) ->
    qstep many (MkQSystem q p c pl tl s w) (MkQSystem q' p' c (pl ++ published p) tl s w)
| qstep_return q p c pl tl s w q' p' n sent :
    producer_step q p = Some (q', p', Some (n, sent)) ->
    qstep many (MkQSystem q p c pl tl s w)
      (MkQSystem q' p' c (pl ++ published p) tl (match sent with Some _ => true | None => s end) w)
| qstep_take q p pl tl s c' :
    EmbQueueTake q = Some (inr c') ->
    qstep many (MkQSystem q p TakeIdle pl tl s false) (MkQSystem q p c' pl tl s false)
| qstep_empty q p pl tl s :
    EmbQueueTake (elt := elt) q = Some (inl tt) ->
    qstep many (MkQSystem q p TakeIdle pl tl s false) (MkQSystem q p TakeIdle pl tl s true)
| qstep_take_many q p pl tl s n :
    many = true ->
    qstep many (MkQSystem q p TakeIdle pl tl s false)
      (MkQSystem q p (EmbQueueTakeMany q n) pl tl s false)
| qstep_consumer q p c pl tl s w q' c' r :
    consumer_step q c = Some (q', c', r) ->
    qstep many (MkQSystem q p c pl tl s w) (MkQSystem q' p c' pl (tl ++ consumed c) s w)
| qstep_wake q p c pl tl s :
    qstep many (MkQSystem q p c pl tl s true) (MkQSystem q p c pl tl false false).

Definition qinitial (memory : area) (nElements elementSize : Z) : QSystem :=
  MkQSystem (CreateQueue memory nElements elementSize) PutIdle TakeIdle [] [] false true.
End system.
Arguments QSystem : clear implicits.
