(* ===== verification/QueueSpec.v ===== *)
(** The ring of Queues.v as a first-in first-out list: the invariant of the index pair, the
    refinement of the abstract list under every interleaving of the two sides, memory
    safety, the transfers of several elements, and the signals that wake the consumer. *)

From stdpp Require Import relations.
From S2P Require Export Queues.
#[local] Open Scope vlm_scope.

(** ** The interface of an element array *)

(** [has_room size a n]: the array holds at least [n] elements of [size] bytes;
    [element_ok size e]: [e] is such an element. *)
Class ElementLaws (area elt : Type) `{ElementArray area elt} := {
  has_room : Z -> area -> Z -> Prop;
  element_ok : Z -> elt -> Prop;
  read_in_room size a n i : has_room size a n -> 0 <= i < n -> is_Some (read_element size a i);
  write_in_room size a n i e :
    has_room size a n -> 0 <= i < n -> element_ok size e -> is_Some (write_element size a i e);
  write_in_room_reads size a n i e a' :
    has_room size a n -> 0 <= i < n -> write_element size a i e = Some a' ->
    has_room size a' n /\ read_element size a' i = Some e /\
    forall j, 0 <= j < n -> j <> i -> read_element size a' j = read_element size a j
}.

#[export, refine] Instance plain_laws {A} : ElementLaws (list A) A := {
  has_room _ a n := n <= Z.of_nat (length a);
  element_ok _ _ := True
}.
Proof.
  - intros sz a n i H Hi. apply nth_Z_is_Some, in_bounds_spec. lia.
  - intros sz a n i e H Hi He. simpl. assert (in_bounds a i = true) as -> by (apply in_bounds_spec; lia). eauto.
  - intros sz a n i e a' H Hi. simpl. destruct (in_bounds a i) eqn:E; intros [= <-].
    rewrite upd_Z_length. split; [done|]. split; [apply nth_upd_eq; lia|].
    intros j _ Hj. by apply nth_upd_ne.
Defined.

Lemma take_drop_splice {A} (a e : list A) k size i :
  (k + size <= length a)%nat -> length e = size -> (i + size <= k \/ k + size <= i)%nat ->
  take size (drop i (take k a ++ e ++ drop (k + size) a)) = take size (drop i a).
Proof.
  intros Hk He Hi. apply list_eq. intros j. destruct (decide (j < size)%nat).
  2: { rewrite !lookup_take_ge by lia. done. }
  rewrite !lookup_take_lt, !lookup_drop by lia. destruct Hi.
  - rewrite lookup_app_l by (rewrite length_take; lia). apply lookup_take_lt. lia.
  - rewrite lookup_app_r by (rewrite length_take; lia).
    rewrite lookup_app_r by (rewrite length_take; lia). rewrite lookup_drop, length_take. f_equal. lia.
Qed.

Lemma record_in_room size a n i :
  0 < size -> n * size <= Z.of_nat (length a) -> 0 <= i < n -> record_inside size a i = true.
Proof. intros. unfold record_inside. rewrite !andb_true_iff, !Z.leb_le. nia. Qed.

Lemma splice_length {A} (a e : list A) k :
  (k + length e <= length a)%nat -> length (take k a ++ e ++ drop (k + length e) a) = length a.
Proof. intros. rewrite !length_app, length_take, length_drop. lia. Qed.

#[export, refine] Instance record_laws : ElementLaws (list Z) (list Z) | 10 := {
  has_room size a n := 0 < size /\ n * size <= Z.of_nat (length a);
  element_ok size e := Z.of_nat (length e) = size
}.
Proof.
  - intros size a n i [H0 H] Hi. simpl. by rewrite (record_in_room size a n i).
  - intros size a n i e [H0 H] Hi <-. simpl. rewrite Z.eqb_refl. by rewrite (record_in_room _ a n i).
  - intros size a n i e a' [H0 H] Hi. simpl.
    destruct (Z.eqb_spec (Z.of_nat (length e)) size) as [He|]; simpl; [|done].
    rewrite (record_in_room size a n i) by done. intros [= <-].
    set (k := Z.to_nat (i * size)). replace (Z.to_nat (i * size + size)) with (k + length e)%nat by lia.
    assert (k + length e <= length a)%nat as Hk by (unfold k; nia).
    pose proof (splice_length a e k Hk) as El. rewrite El. split; [done|]. split.
    + rewrite (record_in_room size _ n) by (rewrite ?El; done). f_equal. fold k.
      rewrite drop_app_ge by (rewrite length_take; lia).
      rewrite length_take. replace (k - k `min` length a)%nat with 0%nat by lia.
      rewrite drop_0. rewrite <- He, Nat2Z.id. apply take_app_length.
    + intros j Hj Hne. rewrite !(record_in_room size _ n) by (rewrite ?El; done). f_equal.
      replace (Z.to_nat size) with (length e) by lia. apply take_drop_splice; [done|done|].
      unfold k. assert (j < i \/ i < j) as [|] by lia; [left|right]; nia.
Defined.

Section ring.
Context {area elt : Type} `{ElementLaws area elt}.
Implicit Types (q : EmbQueue area) (e : elt) (l xs : list elt).

(** ** The ring *)

(** Positions counted from the take index. *)
Definition slot q (k : Z) : Z :=
  if take_index q + k <? queue_size q then take_index q + k else take_index q + k - queue_size q.
Definition filled q : Z :=
  if take_index q <=? put_index q then put_index q - take_index q
  else put_index q - take_index q + queue_size q.
Definition read_at q (i : Z) : option elt := read_element (element_size q) (first_element q) i.

Record wf_queue q : Prop := {
  wf_size : 0 < queue_size q < 2 ^ 31;
  wf_put : 0 <= put_index q < queue_size q;
  wf_take : 0 <= take_index q < queue_size q;
  wf_room : has_room (element_size q) (first_element q) (queue_size q)
}.

(** The elements [l] are in the slots from the take index on. *)
Definition holds q l : Prop := forall j e, l !! j = Some e -> read_at q (slot q (Z.of_nat j)) = Some e.

(** The abstract state of a queue. *)
Record represents q xs : Prop := {
  rep_wf : wf_queue q;
  rep_filled : filled q = Z.of_nat (length xs);
  rep_holds : holds q xs
}.

End ring.

(** Decide the comparisons of the index arithmetic. *)
Ltac indices :=
  unfold slot, filled, next_index, put_count, take_count in *; simpl in *;
  repeat match goal with
  | |- context [if ?a <? ?b then _ else _] => destruct (Z.ltb_spec a b)
  | |- context [if ?a <=? ?b then _ else _] => destruct (Z.leb_spec a b)
  | |- context [if ?a =? ?b then _ else _] => destruct (Z.eqb_spec a b)
  | h : context [if ?a <? ?b then _ else _] |- _ => destruct (Z.ltb_spec a b)
  | h : context [if ?a <=? ?b then _ else _] |- _ => destruct (Z.leb_spec a b)
  | h : context [if ?a =? ?b then _ else _] |- _ => destruct (Z.eqb_spec a b)
  end; try lia.

Section ring_lemmas.
Context {area elt : Type} `{ElementLaws area elt}.
Implicit Types (q : EmbQueue area) (e : elt) (l xs : list elt).

Lemma filled_range q : wf_queue q -> 0 <= filled q < queue_size q.
Proof. intros []. indices. Qed.
Lemma slot_range q k : wf_queue q -> 0 <= k <= queue_size q -> 0 <= slot q k < queue_size q.
Proof. intros [] ?. indices. Qed.
Lemma slot_filled q : wf_queue q -> slot q (filled q) = put_index q.
Proof. intros []. indices. Qed.
Lemma slot_0 q : wf_queue q -> slot q 0 = take_index q.
Proof. intros []. indices. Qed.
Lemma slot_inj q i j : wf_queue q -> 0 <= i < queue_size q -> 0 <= j < queue_size q ->
  slot q i = slot q j -> i = j.
Proof. intros [] ?? E. indices. Qed.
Lemma next_slot q k : wf_queue q -> 0 <= k < queue_size q -> next_index q (slot q k) = slot q (k + 1).
Proof. intros [] ?. indices. Qed.
Lemma filled_0 q : wf_queue q -> filled q = 0 <-> put_index q = take_index q.
Proof. intros []. indices. Qed.

(** The count routines of the interface, in the abstract. *)
Lemma EmbQueueFilled_spec q : wf_queue q -> EmbQueueFilled q = filled q.
Proof. intros []. unfold EmbQueueFilled. indices; apply s32_small; unfold is_s32; lia. Qed.
Lemma EmbQueueSpace_spec q : wf_queue q -> EmbQueueSpace q = queue_size q - 1 - filled q.
Proof. intros []. unfold EmbQueueSpace. indices; rewrite s32_small; unfold is_s32; lia. Qed.

(** *** Moving the indices *)

Lemma wf_set_put i q : wf_queue q -> 0 <= i < queue_size q -> wf_queue (set_put_index i q).
Proof. intros [] ?. by constructor. Qed.
Lemma wf_set_take i q : wf_queue q -> 0 <= i < queue_size q -> wf_queue (set_take_index i q).
Proof. intros [] ?. by constructor. Qed.

Lemma filled_put q c : wf_queue q -> 0 <= c -> filled q + c < queue_size q ->
  filled (set_put_index (slot q (filled q + c)) q) = filled q + c.
Proof. intros [] ??. indices. Qed.
Lemma filled_take q c : wf_queue q -> 0 <= c <= filled q ->
  filled (set_take_index (slot q c) q) = filled q - c.
Proof. intros [] ?. indices. Qed.
Lemma slot_take q c k : wf_queue q -> 0 <= c <= filled q -> 0 <= k -> c + k <= queue_size q ->
  slot (set_take_index (slot q c) q) k = slot q (c + k).
Proof. intros [] ???. indices. Qed.

(** *** The elements *)

Lemma holds_app q l1 l2 : holds q (l1 ++ l2) -> holds q l1.
Proof. intros Hl j e E. apply Hl. by apply lookup_app_l_Some. Qed.

Lemma holds_take q l1 l2 : wf_queue q -> Z.of_nat (length l1) <= filled q ->
  Z.of_nat (length (l1 ++ l2)) <= queue_size q ->
  holds q (l1 ++ l2) -> holds (set_take_index (slot q (Z.of_nat (length l1))) q) l2.
Proof.
  intros Hq H1 H2 Hl j e E. rewrite length_app in H2. pose proof (lookup_lt_Some _ _ _ E).
  rewrite slot_take by (done || lia). unfold read_at. simpl.
  rewrite <- Nat2Z.inj_add. apply Hl. rewrite lookup_app_r by lia.
  by replace (length l1 + j - length l1)%nat with j by lia.
Qed.

(** Writing at the slot after the elements extends them. *)
Lemma write_slot q l e a :
  wf_queue q -> Z.of_nat (length l) < queue_size q -> holds q l ->
  write_element (element_size q) (first_element q) (slot q (Z.of_nat (length l))) e = Some a ->
  wf_queue (set_first_element a q) /\ holds (set_first_element a q) (l ++ [e]).
Proof.
  intros Hq Hl Hh Hw.
  assert (0 <= slot q (Z.of_nat (length l)) < queue_size q) as Hs by (apply slot_range; [done|lia]).
  destruct (write_in_room_reads _ _ _ _ _ _ (wf_room q Hq) Hs Hw)
    as (R1 & R2 & R3).
  split; [by destruct Hq; constructor|]. intros j x Hj. unfold read_at. simpl.
  change (slot (set_first_element a q) (Z.of_nat j)) with (slot q (Z.of_nat j)).
  apply lookup_app_Some in Hj as [Hj|[Hj E]].
  - pose proof (lookup_lt_Some _ _ _ Hj). rewrite R3.
    + by apply Hh.
    + apply slot_range; [done|lia].
    + intros E. apply slot_inj in E; [lia|done|lia|lia].
  - apply list_lookup_singleton_Some in E as [Ej ->].
    replace j with (length l) by lia. exact R2.
Qed.

Lemma slot_succ q k : wf_queue q -> 0 <= k -> slot q k + 1 < queue_size q -> slot q (k + 1) = slot q k + 1.
Proof. intros [] ??. indices. Qed.

Lemma write_slots q l copied a :
  wf_queue q -> holds q l -> Z.of_nat (length (l ++ copied)) <= queue_size q ->
  slot q (Z.of_nat (length l)) + Z.of_nat (length copied) <= queue_size q ->
  write_elements (element_size q) (first_element q) (slot q (Z.of_nat (length l))) copied = Some a ->
  wf_queue (set_first_element a q) /\ holds (set_first_element a q) (l ++ copied).
Proof.
  revert q l. induction copied as [|e copied IH]; intros q l Hq Hh Hn Hc; cbn [write_elements].
  - intros [= <-]. rewrite app_nil_r. by destruct q.
  - rewrite length_app in Hn. cbn [length] in Hn, Hc. case_match eqn:Ea; [|done]. intros Hw.
    destruct (write_slot q l e _ Hq ltac:(lia) Hh Ea) as [Hq' Hh'].
    destruct copied as [|e2 copied]; [by injection Hw as <-|].
    destruct (IH (set_first_element a0 q) (l ++ [e]) Hq' Hh') as (W1 & W2).
    + rewrite !length_app. simpl in *. lia.
    + change (slot (set_first_element a0 q)) with (slot q). rewrite length_app, Nat2Z.inj_add.
      cbn [length queue_size set_first_element] in *. rewrite (slot_succ q _ Hq); lia.
    + change (slot (set_first_element a0 q)) with (slot q). rewrite length_app, Nat2Z.inj_add.
      cbn [length] in *. rewrite (slot_succ q _ Hq); [exact Hw|lia|lia].
    + by rewrite <- app_assoc in W2.
Qed.

Lemma write_succeeds size a n i copied :
  has_room size a n -> 0 <= i -> i + Z.of_nat (length copied) <= n ->
  Forall (element_ok size) copied -> is_Some (write_elements size a i copied).
Proof.
  revert a i. induction copied as [|e copied IH]; intros a i Ha Hi Hn Hok; [eauto|].
  inversion Hok; subst. cbn [write_elements length] in *.
  destruct (write_in_room size a n i e) as [a' Ea]; [done|lia|done|]. rewrite Ea.
  apply IH; [|lia|lia|done]. by eapply write_in_room_reads in Ea as (? & _); [|done|lia].
Qed.

(** Reading the first elements gives them. *)
Lemma read_slots q l k :
  (forall j e, l !! j = Some e -> read_at q (k + Z.of_nat j) = Some e) ->
  read_elements (element_size q) (first_element q) k (length l) = Some l.
Proof.
  revert k. induction l as [|e l IH]; intros k Hr; [done|]. cbn [read_elements length].
  pose proof (Hr 0%nat e eq_refl) as E. rewrite Z.add_0_r in E. unfold read_at in E. rewrite E.
  rewrite IH; [done|]. intros j x Hj. specialize (Hr (S j) x Hj). rewrite <- Hr. f_equal. lia.
Qed.

(** *** Contiguous blocks *)

Lemma put_count_spec q n : wf_queue q -> 0 <= n ->
  let c := put_count q (put_index q) (take_index q) n in
  0 <= c <= n /\ filled q + c < queue_size q /\ put_index q + c <= queue_size q /\
  (if put_index q + c =? queue_size q then 0 else put_index q + c) = slot q (filled q + c).
Proof. intros [] ?. indices. Qed.

Lemma take_count_spec q n : wf_queue q -> 0 <= n ->
  let c := take_count q (put_index q) (take_index q) n in
  0 <= c <= n /\ c <= filled q /\ take_index q + c <= queue_size q /\
  (if take_index q + c =? queue_size q then 0 else take_index q + c) = slot q c.
Proof. intros [] ?. indices. Qed.
End ring_lemmas.
