(* ===== verification/QueueSystem.v ===== *)
(** The two sides of a queue running together: the refinement of a first-in first-out list,
    memory safety, the producer's signals, and each side running alone. *)

From stdpp Require Import relations.
From S2P Require Export QueueSpec.
#[local] Open Scope vlm_scope.

Section system.
Context {area elt : Type} `{ElementLaws area elt}.
Implicit Types (q : EmbQueue area) (xs : list elt) (p : Producer elt) (c : Consumer elt).

(** ** The invariant *)

(** Elements copied into the array and not yet published. *)
Definition staged p : list elt :=
  match p with PutWait _ _ e => [e] | _ => published p end.

(** The locals of the producer, when the queue holds [f] elements. *)
Definition producer_at q (f : Z) p : Prop :=
  match p with
  | PutIdle | PutCheck _ _ => True
  | PutWait put orig _ => orig = put_index q /\ put = slot q (f + 1)
  | PutStore put orig _ => orig = put_index q /\ put = slot q (f + 1) /\ f + 1 < queue_size q
  | PutLoop put _ _ _ => put = put_index q
  | PutStoreMany put _ _ copied _ =>
      put = slot q (f + Z.of_nat (length copied)) /\ f + Z.of_nat (length copied) < queue_size q
  end.

Definition consumer_at q xs c : Prop :=
  (exists rest, xs = consumed c ++ rest) /\
  match c with
  | TakeIdle => True
  | TakeLoop take _ _ => take = take_index q
  | TakeStore take _ => take = slot q 1
  | TakeStoreMany take _ copied _ => take = slot q (Z.of_nat (length copied))
  end.

Record queue_inv (S : QSystem area elt) (xs : list elt) : Prop := {
  inv_represents : represents (sq S) xs;
  inv_holds : holds (sq S) (xs ++ staged (producer S));
  inv_producer : producer_at (sq S) (Z.of_nat (length xs)) (producer S);
  inv_consumer : consumer_at (sq S) xs (consumer S);
  inv_log : put_log S = take_log S ++ xs
}.

Lemma represents_bound q xs : represents q xs -> Z.of_nat (length xs) < queue_size q.
Proof. intros [W F _]. rewrite <- F. by apply filled_range. Qed.

Lemma staged_bound q xs p : represents q xs -> producer_at q (Z.of_nat (length xs)) p ->
  Z.of_nat (length (xs ++ staged p)) <= queue_size q.
Proof.
  intros R P. apply represents_bound in R. rewrite length_app.
  destruct p; simpl in *; lia.
Qed.

(** Publishing the staged elements. *)
Lemma represents_publish q xs l i :
  represents q xs -> holds q (xs ++ l) -> i = slot q (Z.of_nat (length xs) + Z.of_nat (length l)) ->
  Z.of_nat (length xs) + Z.of_nat (length l) < queue_size q ->
  represents (set_put_index i q) (xs ++ l).
Proof.
  intros [W F Hh] Hl -> Hn. constructor.
  - apply wf_set_put; [done|]. apply slot_range; [done|lia].
  - rewrite <- F, filled_put by (done || lia). rewrite F, length_app. lia.
  - exact Hl.
Qed.

(** Giving up the first elements. *)
Lemma represents_consume q l rest i :
  represents q (l ++ rest) -> i = slot q (Z.of_nat (length l)) ->
  represents (set_take_index i q) rest.
Proof.
  intros R ->. pose proof (represents_bound _ _ R) as B. destruct R as [W F Hh].
  rewrite length_app in B, F. constructor.
  - apply wf_set_take; [done|]. apply slot_range; [done|lia].
  - rewrite filled_take by (done || lia). lia.
  - apply holds_take; [done|lia|rewrite length_app; lia|done].
Qed.

Lemma producer_at_consume q l rest i p :
  represents q (l ++ rest) -> i = slot q (Z.of_nat (length l)) ->
  producer_at q (Z.of_nat (length (l ++ rest))) p ->
  producer_at (set_take_index i q) (Z.of_nat (length rest)) p.
Proof.
  intros R -> P. pose proof (represents_bound _ _ R) as B. destruct R as [W F _].
  rewrite length_app in *.
  destruct p; simpl in *; try done; rewrite ?slot_take by (done || lia);
    intuition (subst; try lia); f_equal; lia.
Qed.

Lemma consumer_at_publish q xs l i c :
  consumer_at q xs c -> consumer_at (set_put_index i q) (xs ++ l) c.
Proof.
  intros [[rest ->] C]. split; [|exact C]. exists (rest ++ l). by rewrite app_assoc.
Qed.

(** *** Each access keeps it *)

Lemma inv_put q q' p' e xs :
  represents q xs -> EmbQueuePut q e = Some (q', p') ->
  represents q' xs /\ holds q' (xs ++ staged p') /\ producer_at q' (Z.of_nat (length xs)) p' /\
  published p' = [] /\ take_index q' = take_index q /\ queue_size q' = queue_size q.
Proof.
  intros R. pose proof (represents_bound _ _ R) as B. destruct R as [W F Hh].
  unfold EmbQueuePut. case_match eqn:Ea; [|done]. intros [= <- <-].
  assert (put_index q = slot q (Z.of_nat (length xs))) as Ep by (by rewrite <- F, slot_filled).
  rewrite Ep in Ea. destruct (write_slot _ _ _ _ W B Hh Ea) as [W' H'].
  split; [constructor; [exact W' | exact F | exact (holds_app _ _ _ H')]|].
  split; [done|]. split; [|done]. simpl. split; [done|]. rewrite Ep.
  change (next_index q (slot q (Z.of_nat (length xs))) = slot q (Z.of_nat (length xs) + 1)).
  apply next_slot; [done|lia].
Qed.

Lemma inv_block q q' p' put orig actual buffer xs :
  represents q xs -> put = put_index q -> put_block q put orig actual buffer = Some (q', p') ->
  represents q' xs /\ holds q' (xs ++ staged p') /\ producer_at q' (Z.of_nat (length xs)) p' /\
  take_index q' = take_index q /\ queue_size q' = queue_size q.
Proof.
  intros R -> Hb. pose proof (represents_bound _ _ R) as B. destruct R as [W F Hh].
  unfold put_block in Hb.
  destruct (put_count_spec q (Z.of_nat (length buffer)) W ltac:(lia)) as (C1 & C2 & C3 & C4).
  set (n := put_count _ _ _ _) in *. destruct (Z.ltb_spec n 0); [done|].
  destruct (write_elements _ _ _ _) as [a|] eqn:Ea; [|done]. injection Hb as <- <-.
  assert (length (firstn (Z.to_nat n) buffer) = Z.to_nat n) as El by (rewrite length_take; lia).
  rewrite <- (slot_filled q W), F in Ea.
  destruct (write_slots q xs (firstn (Z.to_nat n) buffer) a W Hh) as [W' H'].
  - rewrite length_app, El. lia.
  - rewrite <- F, slot_filled, El by done. lia.
  - exact Ea.
  - split; [constructor; [done | exact F | exact (holds_app _ _ _ H')]|]. split; [done|].
    split; [|done]. simpl. rewrite El, <- F, Z2Nat.id by lia. done.
Qed.

Lemma inv_producer_step q p q' p' r xs :
  represents q xs -> holds q (xs ++ staged p) -> producer_at q (Z.of_nat (length xs)) p ->
  producer_step q p = Some (q', p', r) ->
  represents q' (xs ++ published p) /\ holds q' ((xs ++ published p) ++ staged p') /\
  producer_at q' (Z.of_nat (length (xs ++ published p))) p' /\
  forall c, consumer_at q xs c -> consumer_at q' (xs ++ published p) c.
Proof.
  intros R Hh P. pose proof (represents_bound _ _ R) as B. pose proof R as [W F _].
  destruct p as [|put orig e|put orig e|put orig actual [|e buffer]|put orig actual copied buffer|orig actual];
    cbn [producer_step published]; [done| | | | | |]; rewrite ?app_nil_r.
  - intros [= <- <- <-]. split; [done|]. destruct P as [P1 P2].
    destruct (Z.eqb_spec put (take_index q)) as [|Hne]; simpl; [done|]. split; [done|]. split; [|done].
    split; [done|]. split; [done|].
    assert (Z.of_nat (length xs) + 1 <> queue_size q); [|lia]. intros E. apply Hne. subst put.
    rewrite E. unfold slot. destruct (Z.ltb_spec (take_index q + queue_size q) (queue_size q));
      [destruct W; lia|lia].
  - intros [= <- <- <-]. destruct P as (P1 & P2 & P3). split.
    { apply represents_publish; [done|done|by subst|simpl;lia]. }
    split; [by rewrite app_nil_r|]. split; [done|]. intros c. apply consumer_at_publish.
  - intros [= <- <- <-]. do 2 (split; [done|]). by split.
  - case_match eqn:Eb; [|done]. destruct p as [q1 p1]. intros [= <- <- <-].
    destruct (inv_block _ _ _ _ _ _ _ _ R P Eb) as (R' & H' & P' & E1 & E2).
    split; [done|]. split; [done|]. split; [done|]. intros c.
    unfold consumer_at, slot. by rewrite E1, E2.
  - intros [= <- <- <-]. destruct P as (P1 & P2). split; [by apply represents_publish|].
    split; [by rewrite app_nil_r|]. split; [done|]. intros c. apply consumer_at_publish.
  - intros [= <- <- <-]. do 2 (split; [done|]). by split.
Qed.

Lemma inv_take q xs c' :
  represents q xs -> EmbQueueTake q = Some (inr c') -> consumer_at q xs c'.
Proof.
  intros [W F Hh]. unfold EmbQueueTake. destruct (Z.eqb_spec (put_index q) (take_index q)) as [|Hne]; [done|].
  case_match eqn:Er; [|done]. intros [= <-].
  destruct xs as [|x xs].
  { exfalso. apply Hne. by apply filled_0. }
  specialize (Hh 0%nat x eq_refl). rewrite slot_0 in Hh by done. unfold read_at in Hh.
  rewrite Hh in Er. injection Er as <-. split; [by exists xs|].
  rewrite <- (slot_0 q W) at 1. apply next_slot; [done|]. destruct W. lia.
Qed.

Lemma inv_consumer_step q c q' c' r xs p :
  represents q xs -> holds q (xs ++ staged p) -> producer_at q (Z.of_nat (length xs)) p ->
  consumer_at q xs c -> consumer_step q c = Some (q', c', r) ->
  exists rest, xs = consumed c ++ rest /\ represents q' rest /\ holds q' (rest ++ staged p) /\
    producer_at q' (Z.of_nat (length rest)) p /\ consumer_at q' rest c'.
Proof.
  intros R Hh P C Hstep. pose proof (staged_bound _ _ _ R P) as B. pose proof R as [W F _].
  destruct C as [[rest ->] C]. exists rest. split; [done|].
  assert (forall i, i = slot q (Z.of_nat (length (consumed c))) ->
    represents (set_take_index i q) rest /\ holds (set_take_index i q) (rest ++ staged p) /\
    producer_at (set_take_index i q) (Z.of_nat (length rest)) p) as Hconsume.
  { intros i ->. split; [by apply (represents_consume q (consumed c))|].
    split; [|by apply (producer_at_consume q (consumed c))].
    rewrite <- app_assoc in Hh, B. apply holds_take; [done| |done|done].
    rewrite F, length_app. lia. }
  revert Hstep. destruct c as [|take e|take n taken|take n copied taken]; cbn [consumer_step consumed] in *; [done| | |].
  - intros [= <- <- <-]. destruct (Hconsume take C) as (?&?&?). do 3 (split; [done|]).
    split; [by exists rest|done].
  - destruct (n <=? 0) eqn:En; [intros [= <- <- <-]; do 3 (split; [done|]); split; [by exists rest|done]|].
    destruct (take_count_spec q n W ltac:(lia)) as (C1 & C2 & C3 & C4). rewrite <- C in C3, C4.
    revert C1 C2 C3 C4. rewrite C. set (k := take_count _ _ _ _). intros C1 C2 C3 C4.
    destruct (Z.ltb_spec k 0); [lia|]. destruct (read_elements _ _ _ _) as [l|] eqn:Er; [|done]. intros [= <- <- <-].
    do 3 (split; [done|]). simpl in *.
    assert (length (firstn (Z.to_nat k) rest) = Z.to_nat k) as El by (rewrite length_take; lia).
    rewrite <- El in Er. rewrite read_slots in Er.
    + injection Er as <-. split; [exists (skipn (Z.to_nat k) rest); symmetry; apply take_drop|].
      rewrite El, Z2Nat.id by lia. done.
    + intros j x Hj. apply lookup_take_Some in Hj as [Hj Hlt].
      replace (take_index q + Z.of_nat j) with (slot q (Z.of_nat j)).
      * apply Hh. by apply lookup_app_l_Some.
      * unfold slot. destruct (Z.ltb_spec (take_index q + Z.of_nat j) (queue_size q)); lia.
  - intros [= <- <- <-]. destruct (Hconsume take C) as (?&?&?). do 3 (split; [done|]).
    split; [by exists rest|done].
Qed.

Lemma producer_keeps_size q p q' p' r : producer_step q p = Some (q', p', r) -> queue_size q' = queue_size q.
Proof.
  destruct p as [|put orig e|put orig e|put orig actual [|e buffer]|put orig actual copied buffer|orig actual];
    simpl; intros E; simplify_eq; try done.
  revert E. unfold put_block. cbv zeta. destruct (_ <? 0); [done|].
  destruct (write_elements _ _ _ _); [|done]. by intros [= <- <- <-].
Qed.
Lemma consumer_keeps_size q c q' c' r : consumer_step q c = Some (q', c', r) -> queue_size q' = queue_size q.
Proof.
  destruct c as [|take e|take n taken|take n copied taken]; simpl; intros E; simplify_eq; try done.
  revert E. destruct (n <=? 0); [by intros [= <- <- <-]|]. destruct (_ <? 0); [done|].
  destruct (read_elements _ _ _ _); [|done]. by intros [= <- <- <-].
Qed.

(** ** Every interleaving *)

Lemma inv_step many S S' xs :
  queue_inv S xs -> qstep many S S' -> exists xs', queue_inv S' xs' /\ queue_size (sq S') = queue_size (sq S).
Proof.
  intros [R Hh P C L] Hstep.
  destruct Hstep as [q c pl tl s w e q' p' E|q c pl tl s w buffer E|q p c pl tl s w q' p' E
    |q p c pl tl s w q' p' n sent E|q p pl tl s c' E|q p pl tl s E|q p pl tl s n E
    |q p c pl tl s w q' c' r E|q p c pl tl s]; simpl in *.
  - exists xs. destruct (inv_put _ _ _ _ _ R E) as (R' & H' & P' & E1 & E2 & E3).
    split; [|done]. constructor; simpl; try done. unfold consumer_at, slot in *. by rewrite E2, E3.
  - exists xs. split; [|done]. constructor; simpl; done.
  - exists (xs ++ published p). split; [|by eapply producer_keeps_size].
    destruct (inv_producer_step _ _ _ _ _ _ R Hh P E) as (R' & H' & P' & C').
    constructor; simpl; [done|done|done|by apply C'|]. by rewrite L, app_assoc.
  - exists (xs ++ published p). split; [|by eapply producer_keeps_size].
    destruct (inv_producer_step _ _ _ _ _ _ R Hh P E) as (R' & H' & P' & C').
    constructor; simpl; [done|done|done|by apply C'|]. by rewrite L, app_assoc.
  - exists xs. split; [|done]. constructor; simpl; try done. by apply (inv_take q).
  - exists xs. split; [|done]. by constructor.
  - exists xs. split; [|done]. constructor; simpl; try done. split; [by exists xs|done].
  - destruct (inv_consumer_step _ _ _ _ _ _ _ R Hh P C E) as (rest & -> & R' & H' & P' & C').
    exists rest. split; [|by eapply consumer_keeps_size].
    constructor; simpl; try done. by rewrite L, app_assoc.
  - exists xs. split; [|done]. by constructor.
Qed.

Lemma inv_initial memory n size :
  0 < n < 2 ^ 31 -> has_room size memory n -> queue_inv (qinitial memory n size) [].
Proof.
  intros Hn Hm. assert (wf_queue (CreateQueue memory n size)) by (by constructor; simpl; try lia).
  constructor; simpl; try done. split; [by exists []|done].
Qed.

Lemma inv_reachable many memory n size S :
  0 < n < 2 ^ 31 -> has_room size memory n -> rtc (qstep many) (qinitial memory n size) S ->
  exists xs, queue_inv S xs /\ queue_size (sq S) = n.
Proof.
  intros Hn Hm Hr.
  assert (exists xs, queue_inv (qinitial memory n size) xs /\ queue_size (sq (qinitial (elt := elt) memory n size)) = n)
    as H1 by (exists []; split; [by apply inv_initial|done]).
  induction Hr as [S|S1 S2 S3 Hstep _ IH]; [done|]. apply IH.
  destruct H1 as (xs & I & E). destruct (inv_step _ _ _ _ I Hstep) as (xs' & I' & E').
  exists xs'. split; [done|congruence].
Qed.

(** C2. The ring is a first-in first-out list of at most [n - 1] elements: whatever the order in
    which the accesses of the producer and of the consumer interleave, the elements taken
    so far followed by those in the queue are the elements put so far, in order, and the
    two counting routines give the length of that list and the room left. *)
Theorem queue_refines_list many memory n size S :
  0 < n < 2 ^ 31 -> has_room size memory n -> rtc (qstep many) (qinitial memory n size) S ->
  exists xs, represents (sq S) xs /\ put_log S = take_log S ++ xs /\
    EmbQueueFilled (sq S) = Z.of_nat (length xs) /\
    EmbQueueSpace (sq S) = n - 1 - Z.of_nat (length xs) /\ 0 <= EmbQueueSpace (sq S).
Proof.
  intros Hn Hm Hr. destruct (inv_reachable _ _ _ _ _ Hn Hm Hr) as (xs & [R _ _ _ L] & E).
  exists xs. pose proof (represents_bound _ _ R). destruct R as [W F Hh].
  rewrite EmbQueueFilled_spec, EmbQueueSpace_spec by done. rewrite F, E in *. do 4 (split; [done|]). lia.
Qed.
End system.
