(* ===== verification/QueueProgress.v ===== *)
(** Progress of the queues: no access leaves the element array, a transfer that fits returns
    and one that does not waits for the other side, and the signals that wake a sleeping
    consumer. *)

From stdpp Require Import relations.
From S2P Require Export QueueSystem.
#[local] Open Scope vlm_scope.

Section alone.
Context {area elt : Type} `{ElementLaws area elt}.
Implicit Types (q : EmbQueue area) (xs : list elt) (p : Producer elt) (c : Consumer elt).

(** ** The accesses are inside the array *)

(** The elements a producer still has to copy are elements of the queue's size. *)
Definition buffer_ok q p : Prop :=
  match p with
  | PutLoop _ _ _ buffer | PutStoreMany _ _ _ _ buffer => Forall (element_ok (element_size q)) buffer
  | _ => True
  end.

Lemma put_inside q xs e :
  represents q xs -> element_ok (element_size q) e -> is_Some (EmbQueuePut q e).
Proof.
  intros [W _ _] He. unfold EmbQueuePut.
  destruct (write_in_room _ _ _ (put_index q) e (wf_room q W)) as [a ->]; [apply W|done|]. eauto.
Qed.

Lemma take_inside q xs : represents q xs -> is_Some (EmbQueueTake (elt := elt) q).
Proof.
  intros [W _ _]. unfold EmbQueueTake. destruct (_ =? _); [eauto|].
  destruct (read_in_room _ _ _ (take_index q) (wf_room q W)) as [e ->]; [apply W|]. eauto.
Qed.

Lemma block_inside q put orig actual buffer :
  wf_queue q -> put = put_index q -> Forall (element_ok (element_size q)) buffer ->
  exists a, put_block q put orig actual buffer =
    let c := put_count q put (take_index q) (Z.of_nat (length buffer)) in
    Some (set_first_element a q,
      PutStoreMany (slot q (filled q + c)) orig (actual + c)
        (firstn (Z.to_nat c) buffer) (skipn (Z.to_nat c) buffer)).
Proof.
  intros W -> Hok. unfold put_block.
  destruct (put_count_spec q (Z.of_nat (length buffer)) W ltac:(lia)) as (C1 & C2 & C3 & C4).
  set (n := put_count _ _ _ _) in *. destruct (Z.ltb_spec n 0); [lia|]. rewrite C4.
  destruct (write_succeeds (element_size q) (first_element q) (queue_size q) (put_index q)
    (firstn (Z.to_nat n) buffer)) as [a ->].
  - apply W.
  - apply W.
  - rewrite length_take. lia.
  - by apply Forall_take.
  - by exists a.
Qed.

Lemma producer_inside q xs p :
  represents q xs -> producer_at q (Z.of_nat (length xs)) p -> buffer_ok q p -> p <> PutIdle ->
  is_Some (producer_step q p).
Proof.
  intros [W _ _] P Hok Hp.
  destruct p as [|put orig e|put orig e|put orig actual [|e buffer]|put orig actual copied buffer|orig actual];
    cbn [producer_step]; eauto; [done|].
  destruct (block_inside q put orig actual (e :: buffer) W P Hok) as [a ->]. eauto.
Qed.

Lemma consumer_inside q xs c :
  represents q xs -> consumer_at q xs c -> c <> TakeIdle -> is_Some (consumer_step q c).
Proof.
  intros [W F Hh] [_ C] Hc.
  destruct c as [|take e|take n taken|take n copied taken]; cbn [consumer_step]; eauto; [done|].
  destruct (Z.leb_spec n 0); [eauto|]. subst take.
  destruct (take_count_spec q n W ltac:(lia)) as (C1 & C2 & C3 & C4).
  set (k := take_count _ _ _ _) in *. destruct (Z.ltb_spec k 0); [lia|].
  assert (length (firstn (Z.to_nat k) xs) = Z.to_nat k) as El by (rewrite length_take; lia).
  rewrite <- El, read_slots; [eauto|].
  intros j x Hj. apply lookup_take_Some in Hj as [Hj Hlt].
  replace (take_index q + Z.of_nat j) with (slot q (Z.of_nat j)); [by apply Hh|].
  unfold slot. destruct (Z.ltb_spec (take_index q + Z.of_nat j) (queue_size q)); lia.
Qed.

(** ** One element *)

Lemma run_put_alone q xs e :
  represents q xs -> element_ok (element_size q) e -> Z.of_nat (length xs) < queue_size q - 1 ->
  exists q1 p1 q', EmbQueuePut q e = Some (q1, p1) /\
    run_producer 3 q1 p1 = Some (q', (0, match xs with [] => Some (signal q) | _ => None end)) /\
    represents q' (xs ++ [e]) /\ queue_size q' = queue_size q /\ signal q' = signal q.
Proof.
  intros R He Hn. destruct (put_inside _ _ _ R He) as [[q1 p1] E]. exists q1, p1.
  destruct (inv_put _ _ _ _ _ R E) as (R1 & H1 & P1 & _ & E2 & E3).
  unfold EmbQueuePut in E. destruct (write_element _ _ _ _) as [a|] eqn:Ea; [|done].
  injection E as <- <-. destruct P1 as [P1 P2]. simpl in P1, P2.
  exists (set_put_index (next_index q (put_index q)) (set_first_element a q)).
  split; [by unfold EmbQueuePut; rewrite Ea|]. cbn [run_producer producer_step].
  set (q1 := set_first_element a q) in *.
  assert (next_index q (put_index q) <> take_index q1) as Hne.
  { rewrite P2. intros Eq. pose proof R1 as [W1 F1 _]. rewrite <- (slot_0 q1 W1) in Eq.
    apply slot_inj in Eq; [lia|done| |]; unfold q1; simpl; lia. }
  apply Z.eqb_neq in Hne. rewrite Hne. split; [|split; [|done]].
  - do 3 f_equal. change (take_index (set_put_index (next_index q (put_index q)) q1)) with (take_index q).
    change (signal (set_put_index _ q1)) with (signal q). pose proof R as [W F _].
    destruct xs as [|x xs].
    + assert (put_index q = take_index q) as -> by (by apply filled_0). by rewrite Z.eqb_refl.
    + destruct (Z.eqb_spec (put_index q) (take_index q)) as [E0|]; [|done].
      apply filled_0 in E0; [simpl in F; lia|done].
  - apply represents_publish; [done|done|done|]. simpl. lia.
Qed.

(** EmbQueuePut with the consumer idle and room in the queue: it returns, the element is at the
    end of the list, and the consumer is signalled exactly when the list was empty. *)
Theorem EmbQueuePut_alone q xs e :
  represents q xs -> element_ok (element_size q) e -> Z.of_nat (length xs) < queue_size q - 1 ->
  exists q1 p1 q', EmbQueuePut q e = Some (q1, p1) /\
    run_producer 3 q1 p1 = Some (q', (0, match xs with [] => Some (signal q) | _ => None end)) /\
    represents q' (xs ++ [e]).
Proof.
  intros R He Hn. destruct (run_put_alone q xs e R He Hn) as (q1 & p1 & q' & E1 & E2 & E3 & _).
  by exists q1, p1, q'.
Qed.

(** EmbQueueTake of a queue that is not empty gives its first element. *)
Lemma run_take_alone q x xs :
  represents q (x :: xs) ->
  exists take q', EmbQueueTake q = Some (inr (TakeStore take x)) /\
    run_consumer 1 q (TakeStore take x) = Some (q', [x]) /\ represents q' xs /\
    queue_size q' = queue_size q /\ signal q' = signal q.
Proof.
  intros R. pose proof R as [W F Hh]. unfold EmbQueueTake.
  destruct (Z.eqb_spec (put_index q) (take_index q)) as [E0|].
  { apply filled_0 in E0; [simpl in F; lia|done]. }
  specialize (Hh 0%nat x eq_refl). rewrite slot_0 in Hh by done. unfold read_at in Hh. rewrite Hh.
  exists (next_index q (take_index q)), (set_take_index (next_index q (take_index q)) q).
  do 2 (split; [done|]). split; [|done]. apply (represents_consume q [x]); [done|].
  rewrite <- (slot_0 q W) at 1. apply next_slot; [done|]. destruct W. lia.
Qed.

(** EmbQueuePut on a full queue waits: alone, it never returns. *)
Theorem EmbQueuePut_full_waits q xs e q1 p1 fuel :
  represents q xs -> Z.of_nat (length xs) = queue_size q - 1 -> EmbQueuePut q e = Some (q1, p1) ->
  run_producer fuel q1 p1 = None.
Proof.
  intros R Hn E. destruct (inv_put _ _ _ _ _ R E) as (R1 & _ & P1 & _ & E2 & E3).
  unfold EmbQueuePut in E. destruct (write_element _ _ _ _) as [a|]; [|done].
  injection E as <- <-. destruct P1 as [_ P2]. simpl in P2.
  set (q1 := set_first_element a q) in *.
  assert (next_index q (put_index q) = take_index q1) as Eq.
  { rewrite P2, Hn. pose proof R1 as [W1 _ _]. unfold slot. change (queue_size q) with (queue_size q1).
    destruct (Z.ltb_spec (take_index q1 + (queue_size q1 - 1 + 1)) (queue_size q1)); [|lia].
    destruct W1. lia. }
  induction fuel as [|fuel IH]; [done|]. cbn [run_producer producer_step].
  rewrite Eq, Z.eqb_refl, <- Eq. exact IH.
Qed.

(** ** Several elements *)

Lemma put_count_pos q n : wf_queue q -> 0 < n -> filled q < queue_size q - 1 ->
  0 < put_count q (put_index q) (take_index q) n.
Proof. intros [] ??. indices. Qed.

Lemma take_count_pos q n : wf_queue q -> 0 < n -> 0 < filled q ->
  0 < take_count q (put_index q) (take_index q) n.
Proof. intros [] ??. indices. Qed.

(** One turn of the transfer loop of a put, and the store that ends it. *)
Lemma put_turn q xs orig actual buffer fuel :
  represents q xs -> buffer <> [] -> Forall (element_ok (element_size q)) buffer ->
  let n := Z.to_nat (put_count q (put_index q) (take_index q) (Z.of_nat (length buffer))) in
  exists q', run_producer (S (S fuel)) q (PutLoop (put_index q) orig actual buffer) =
      run_producer fuel q' (PutLoop (put_index q') orig (actual + Z.of_nat n) (skipn n buffer)) /\
    represents q' (xs ++ firstn n buffer) /\ (n <= length buffer)%nat /\
    take_index q' = take_index q /\ signal q' = signal q /\ element_size q' = element_size q /\
    queue_size q' = queue_size q.
Proof.
  intros R Hne Hok n. pose proof R as [W F Hh].
  destruct (block_inside q (put_index q) orig actual buffer W eq_refl Hok) as [a Ea].
  destruct (inv_block _ _ _ _ _ _ _ _ R eq_refl Ea) as (R1 & H1 & P1 & _ & _).
  destruct (put_count_spec q (Z.of_nat (length buffer)) W ltac:(lia)) as (C1 & C2 & _ & _).
  destruct buffer as [|e buffer]; [done|].
  assert (run_producer (S (S fuel)) q (PutLoop (put_index q) orig actual (e :: buffer)) =
    run_producer fuel (set_put_index (slot q (filled q + Z.of_nat n)) (set_first_element a q))
      (PutLoop (slot q (filled q + Z.of_nat n)) orig (actual + Z.of_nat n) (skipn n (e :: buffer)))) as Er.
  { cbn [run_producer producer_step]. rewrite Ea. cbv zeta. unfold n. by rewrite Z2Nat.id by lia. }
  eexists. split; [exact Er|]. destruct P1 as [P1 P2]. split; [|unfold n; split; [lia|done]].
  apply represents_publish; [done|done| |fold n in P2; unfold n in *; lia].
  fold n. rewrite F. f_equal. unfold n. rewrite length_take. lia.
Qed.

Lemma run_put_many k : forall q xs orig actual buffer,
  (length buffer <= k)%nat -> represents q xs -> Forall (element_ok (element_size q)) buffer ->
  Z.of_nat (length (xs ++ buffer)) < queue_size q ->
  exists q', run_producer (2 * k + 2) q (PutLoop (put_index q) orig actual buffer) =
      Some (q', (actual + Z.of_nat (length buffer),
                 if orig =? take_index q then Some (signal q) else None)) /\
    represents q' (xs ++ buffer).
Proof.
  induction k as [|k IH]; intros q xs orig actual buffer Hk R Hok Hn.
  - destruct buffer; [|simpl in Hk; lia]. exists q. simpl. by rewrite Z.add_0_r, app_nil_r.
  - replace (2 * S k + 2)%nat with (S (S (2 * k + 2))) by lia.
    destruct (decide (buffer = [])) as [->|Hne].
    { exists q. rewrite app_nil_r. cbn [length]. by rewrite Z.add_0_r. }
    destruct (put_turn q xs orig actual buffer (2 * k + 2) R Hne Hok) as (q1 & E & R1 & Hle & E1 & E2 & E3 & E4).
    set (n := Z.to_nat _) in *. rewrite E. pose proof R as [W F _].
    assert (0 < n)%nat as Hpos.
    { destruct buffer as [|e buffer]; [done|]. rewrite length_app in Hn. cbn [length] in Hn.
      assert (0 < put_count q (put_index q) (take_index q) (Z.of_nat (length (e :: buffer)))); [|lia].
      apply put_count_pos; [done|simpl; lia|lia]. }
    destruct (IH q1 (xs ++ firstn n buffer) orig (actual + Z.of_nat n) (skipn n buffer)) as (q' & E' & R').
    + rewrite length_drop. lia.
    + done.
    + rewrite E3. by apply Forall_drop.
    + rewrite <- app_assoc, take_drop, E4. exact Hn.
    + exists q'. rewrite E', E1, E2, length_drop. split; [do 3 f_equal; lia|].
      by rewrite <- app_assoc, take_drop in R'.
Qed.

(** The transfers of several elements, alone: a put of elements that fit returns with all of
    them, in order, at the end of the list. *)
Theorem EmbQueuePutMany_alone q xs buffer :
  represents q xs -> Forall (element_ok (element_size q)) buffer ->
  Z.of_nat (length (xs ++ buffer)) < queue_size q ->
  exists q', run_producer (2 * length buffer + 2) q (EmbQueuePutMany q buffer) =
      Some (q', (Z.of_nat (length buffer), if EmbQueueFilled q =? 0 then Some (signal q) else None)) /\
    represents q' (xs ++ buffer).
Proof.
  intros R Hok Hn. destruct (run_put_many (length buffer) q xs (put_index q) 0 buffer) as (q' & E & R');
    [lia|done..|].
  exists q'. split; [|done]. unfold EmbQueuePutMany. rewrite E. do 3 f_equal.
  pose proof R as [W F _]. rewrite EmbQueueFilled_spec by done.
  destruct (Z.eqb_spec (put_index q) (take_index q)) as [E0|E0].
  - apply filled_0 in E0; [|done]. by rewrite E0.
  - destruct (Z.eqb_spec (filled q) 0) as [E1|]; [|done]. by apply filled_0 in E1.
Qed.

(** C38. A put of more elements than there is room for does not return while the consumer is idle:
    the routine waits, whatever the bound on its turns. *)
Theorem EmbQueuePutMany_waits q xs buffer fuel :
  represents q xs -> Forall (element_ok (element_size q)) buffer ->
  queue_size q <= Z.of_nat (length (xs ++ buffer)) ->
  run_producer fuel q (EmbQueuePutMany q buffer) = None.
Proof.
  unfold EmbQueuePutMany. generalize (put_index q) at 2 as orig. intros orig. generalize 0 as actual.
  revert q xs buffer. induction (lt_wf fuel) as [fuel _ IH]. intros q xs buffer actual R Hok Hn.
  pose proof (represents_bound _ _ R).
  assert (buffer <> []) as Hne by (intros ->; rewrite app_nil_r in Hn; lia).
  destruct fuel as [|[|fuel]]; [done| |].
  { destruct buffer as [|e buffer]; [done|]. cbn [run_producer producer_step].
    by destruct (put_block _ _ _ _ _) as [[? ?]|]. }
  destruct (put_turn q xs orig actual buffer fuel R Hne Hok) as (q1 & -> & R1 & Hle & _ & _ & E3 & E4).
  set (n := Z.to_nat _) in *. apply (IH fuel ltac:(lia) q1 (xs ++ firstn n buffer)).
  - done.
  - rewrite E3. by apply Forall_drop.
  - rewrite <- app_assoc, take_drop, E4. exact Hn.
Qed.

(** One turn of the transfer loop of a take, and the store that ends it. *)
Lemma take_turn q xs length taken fuel :
  represents q xs -> 0 < length ->
  let n := Z.to_nat (take_count q (put_index q) (take_index q) length) in
  exists q', run_consumer (S (S fuel)) q (TakeLoop (take_index q) length taken) =
      run_consumer fuel q' (TakeLoop (take_index q') (length - Z.of_nat n) (taken ++ firstn n xs)) /\
    represents q' (skipn n xs) /\ Z.of_nat n <= length /\ (n <= base.length xs)%nat.
Proof.
  intros R Hl n. pose proof R as [W F Hh].
  destruct (take_count_spec q length W ltac:(lia)) as (C1 & C2 & C3 & C4).
  assert (base.length (firstn n xs) = n) as El by (rewrite length_take; unfold n; lia).
  assert (read_elements (element_size q) (first_element q) (take_index q) n = Some (firstn n xs)) as Er.
  { rewrite <- El at 1. apply read_slots. intros j x Hj. apply lookup_take_Some in Hj as [Hj Hlt].
    replace (take_index q + Z.of_nat j) with (slot q (Z.of_nat j)); [by apply Hh|].
    unfold slot. destruct (Z.ltb_spec (take_index q + Z.of_nat j) (queue_size q)); lia. }
  exists (set_take_index (slot q (Z.of_nat n)) q). split; [|split; [|unfold n; lia]].
  - cbn [run_consumer consumer_step]. destruct (Z.leb_spec length 0); [lia|]. cbv zeta. fold n.
    destruct (Z.ltb_spec (take_count q (put_index q) (take_index q) length) 0); [lia|].
    rewrite Er, C4. cbn [run_consumer consumer_step]. unfold n. by rewrite Z2Nat.id by lia.
  - apply (represents_consume q (firstn n xs)); [by rewrite take_drop|by rewrite El].
Qed.

Lemma run_take_many k : forall n q xs taken,
  (n <= k)%nat -> represents q xs -> (n <= length xs)%nat ->
  exists q', run_consumer (2 * k + 1) q (TakeLoop (take_index q) (Z.of_nat n) taken) =
      Some (q', taken ++ firstn n xs) /\ represents q' (skipn n xs).
Proof.
  induction k as [|k IH]; intros n q xs taken Hk R Hn.
  { replace n with O by lia. exists q. by rewrite take_0, app_nil_r. }
  replace (2 * S k + 1)%nat with (S (S (2 * k + 1))) by lia.
  destruct (decide (n = O)) as [->|Hne]; [exists q; by rewrite take_0, app_nil_r|].
  destruct (take_turn q xs (Z.of_nat n) taken (2 * k + 1) R ltac:(lia)) as (q1 & E & R1 & L1 & L2).
  set (m := Z.to_nat _) in *. rewrite E.
  assert (0 < m)%nat as Hpos.
  { pose proof R as [W F _].
    assert (0 < take_count q (put_index q) (take_index q) (Z.of_nat n)); [|lia].
    apply take_count_pos; [done|lia|lia]. }
  replace (Z.of_nat n - Z.of_nat m) with (Z.of_nat (n - m)) by lia.
  destruct (IH (n - m)%nat q1 (skipn m xs) (taken ++ firstn m xs)) as (q' & E' & R').
  - lia.
  - done.
  - rewrite length_drop. lia.
  - exists q'. rewrite E'. rewrite drop_drop in R'. replace (m + (n - m))%nat with n in R' by lia.
    split; [|done]. do 2 f_equal. rewrite <- app_assoc. f_equal.
    rewrite <- (take_drop m (firstn n xs)), take_take, skipn_firstn_comm. f_equal. f_equal. lia.
Qed.

(** A take of no more elements than the queue holds returns with the first of them, in order,
    and leaves the others. *)
Theorem EmbQueueTakeMany_alone q xs n :
  represents q xs -> (n <= length xs)%nat ->
  exists q', run_consumer (2 * n + 1) q (EmbQueueTakeMany q (Z.of_nat n)) = Some (q', firstn n xs) /\
    represents q' (skipn n xs).
Proof. intros R Hn. by apply (run_take_many n n q xs []). Qed.

(** Elements put by a transfer into an empty queue come back, in order, from a take of as
    many, and leave it empty. *)
Theorem EmbQueueTakeMany_PutMany q buffer :
  represents q [] -> Forall (element_ok (element_size q)) buffer ->
  Z.of_nat (length buffer) < queue_size q ->
  exists q1 r q2, run_producer (2 * length buffer + 2) q (EmbQueuePutMany q buffer) = Some (q1, r) /\
    run_consumer (2 * length buffer + 1) q1 (EmbQueueTakeMany q1 (Z.of_nat (length buffer))) =
      Some (q2, buffer) /\ represents q2 [].
Proof.
  intros R Hok Hn.
  destruct (run_put_many (length buffer) q [] (put_index q) 0 buffer) as (q1 & E & R1); [lia|done..|].
  destruct (run_take_many (length buffer) (length buffer) q1 buffer []) as (q2 & E2 & R2); [lia|done|lia|].
  rewrite firstn_all in E2. rewrite drop_all in R2. exists q1. eexists. exists q2. done.
Qed.
End alone.

(** ** Every interleaving *)

Section concurrent.
Context {area elt : Type} `{ElementLaws area elt}.

(** Safety for the word and byte queues, whose every element fits. *)
Hypothesis (Hall : forall size e, element_ok size e).

(** C26. The queue routines never leave the element array and never copy a negative number of
    elements, whatever the interleaving: at every reachable state each side can take its
    next step, and an idle side can begin a new operation. *)
Theorem queue_steps_inside many memory n size (S : QSystem area elt) :
  0 < n < 2 ^ 31 -> has_room size memory n -> rtc (qstep many) (qinitial memory n size) S ->
  (producer S <> PutIdle -> is_Some (producer_step (sq S) (producer S))) /\
  (consumer S <> TakeIdle -> is_Some (consumer_step (sq S) (consumer S))) /\
  (forall e, is_Some (EmbQueuePut (sq S) e)) /\ is_Some (EmbQueueTake (elt := elt) (sq S)).
Proof.
  intros Hn Hm Hr. destruct (inv_reachable _ _ _ _ _ Hn Hm Hr) as (xs & [R Hh P C L] & _).
  split; [|split; [|split]].
  - intros Hp. apply (producer_inside _ xs); [done|done| |done].
    assert (forall l, Forall (element_ok (element_size (sq S))) l) by (intros; by apply Forall_true).
    unfold buffer_ok. destruct (producer S); auto.
  - by apply (consumer_inside _ xs).
  - intros e. by apply (put_inside _ xs).
  - by apply (take_inside _ xs).
Qed.

(** ** Signals *)

(** Where the producer of single elements can be while the consumer sleeps unsignalled. *)
Definition wake_inv (S : QSystem area elt) : Prop :=
  match producer S with PutLoop _ _ _ _ | PutStoreMany _ _ _ _ _ => False | _ => True end /\
  (asleep S = true -> consumer S = TakeIdle /\
    (signalled S = true \/ put_index (sq S) = take_index (sq S) \/
     exists n, producer S = PutCheck (take_index (sq S)) n)).

Lemma wake_step S S' xs :
  queue_inv S xs -> wake_inv S -> qstep false S S' -> wake_inv S'.
Proof.
  intros [[W F _] _ P _ _] [Hp Hw] Hstep.
  destruct Hstep as [q c pl tl s w e q' p' E|q c pl tl s w buffer E|q p c pl tl s w q' p' E
    |q p c pl tl s w q' p' n sent E|q p pl tl s c' E|q p pl tl s E|q p pl tl s n E
    |q p c pl tl s w q' c' r E|q p c pl tl s]; unfold wake_inv in *; simpl in *; try done.
  - unfold EmbQueuePut in E. destruct (write_element _ _ _ _); [|done]. injection E as <- <-.
    split; [done|]. intros Hs. destruct (Hw Hs) as [H1 [H2|[H2|[n H2]]]]; [|..|done]; auto.
  - destruct p as [|put orig e|put orig e| | |orig actual]; simpl in *; try done.
    + injection E as <- <-. split; [by destruct (_ =? _)|]. intros Hs.
      destruct (Hw Hs) as [H1 [H2|[H2|[n H2]]]]; [|..|done]; auto.
    + injection E as <- <-. split; [done|]. intros Hs. destruct P as [P1 _].
      destruct (Hw Hs) as [H1 [H2|[H2|[n H2]]]]; [|..|done]; split; auto.
      right. right. exists 0. simpl. congruence.
  - destruct p as [|put orig e|put orig e| | |orig actual]; simpl in *; try done.
    injection E as <- <- <- <-. split; [done|]. intros Hs.
    destruct (Hw Hs) as [H1 [H2|[H2|[m H2]]]]; split; auto.
    + left. by case_match.
    + left. injection H2 as ->. by rewrite Z.eqb_refl.
  - unfold EmbQueueTake in E. destruct (Z.eqb_spec (put_index q) (take_index q)); [|by case_match].
    split; auto.
  - split; [done|]. intros Hs. destruct (Hw Hs) as [-> _]. done.
Qed.

End concurrent.

(** ** A queue of words *)

Definition four_words : list Z := [0; 0; 0; 0].
Definition word_queue : EmbQueue (list Z) := CreateQueue four_words 4 4.

Lemma represents_create {area elt : Type} `{ElementLaws area elt} (memory : area) n size :
  0 < n < 2 ^ 31 -> has_room size memory n -> represents (elt := elt) (CreateQueue memory n size) [].
Proof. intros Hn Hm. constructor; [by constructor; simpl; try lia|done..]. Qed.

Lemma word_queue_empty : represents (elt := Z) word_queue [].
Proof. by apply represents_create. Qed.

(** One step of a concrete run. *)
Ltac queue_step c := eapply rtc_l; [eapply c; vm_compute; reflexivity|]; cbn.

(** C40. A transfer of several elements can lose a wakeup: when the consumer empties the queue
    between two blocks of one transfer and goes to sleep, the producer publishes the second
    block and returns without a signal, since it compares the take index with the put index
    of before the first block. *)
Theorem put_many_loses_wakeup :
  exists S : QSystem (list Z) Z, rtc (qstep true) (qinitial [0; 0] 2 4) S /\
    asleep S = true /\ producer S = PutIdle /\ signalled S = false /\ EmbQueueFilled (sq S) = 1.
Proof.
  eexists. split.
  - eapply rtc_l; [apply (qstep_put_many true _ _ _ _ _ _ [7; 8]); reflexivity|].
    do 2 queue_step (@qstep_producer (list Z) Z). eapply rtc_l; [apply qstep_wake|].
    queue_step (@qstep_take (list Z) Z). queue_step (@qstep_consumer (list Z) Z).
    eapply rtc_l; [apply qstep_empty; vm_compute; reflexivity|].
    do 3 queue_step (@qstep_producer (list Z) Z). queue_step (@qstep_return (list Z) Z). apply rtc_refl.
  - by vm_compute.
Qed.

(** A run that puts 7 and is about to publish it. *)
Lemma seven_staged :
  rtc (qstep false) (qinitial four_words 4 4)
    (MkQSystem (MkEmbQueue 4 4 0 0 (-1) [7; 0; 0; 0]) (PutStore 1 0 7) TakeIdle [] [] false true).
Proof.
  eapply rtc_l; [apply (qstep_put _ _ _ _ _ _ _ 7); reflexivity|].
  eapply rtc_l; [|apply rtc_refl]. by apply (qstep_producer false _ (PutWait 1 0 7)).
Qed.

(** ... and the state after the put has returned, with the signal it sent. *)
Lemma seven_put :
  rtc (qstep false) (qinitial four_words 4 4)
    (MkQSystem (MkEmbQueue 4 4 1 0 (-1) [7; 0; 0; 0]) PutIdle TakeIdle [7] [] true true).
Proof.
  etrans; [exact seven_staged|].
  eapply rtc_l; [apply (qstep_producer false _ (PutStore 1 0 7)); reflexivity|].
  eapply rtc_l; [|apply rtc_refl].
  by apply (qstep_return false _ (PutCheck 0 0) _ [7] [] false true _ _ 0 (Some (-1))).
Qed.

Lemma queue_refines_list_witness :
  exists xs, [7] = [] ++ xs /\ EmbQueueFilled (MkEmbQueue 4 4 1 0 (-1) [7; 0; 0; 0]) = Z.of_nat (length xs).
Proof.
  destruct (queue_refines_list false four_words 4 4 _ ltac:(done) ltac:(by vm_compute) seven_put)
    as (xs & _ & E & F & _).
  by exists xs.
Defined.

Lemma queue_steps_inside_witness :
  is_Some (producer_step (elt := Z) (MkEmbQueue 4 4 0 0 (-1) [7; 0; 0; 0]) (PutStore 1 0 7)).
Proof.
  destruct (queue_steps_inside (H := plain_array) (H0 := plain_laws) (fun _ _ => I) false four_words 4 4 _ ltac:(done)
    ltac:(by vm_compute) seven_staged) as (P & _).
  by apply P.
Defined.


Lemma EmbQueuePut_alone_witness :
  exists q1 p1 q', EmbQueuePut word_queue 7 = Some (q1, p1) /\
    run_producer 3 q1 p1 = Some (q', (0, Some (-1))) /\ represents (elt := Z) q' [7].
Proof. apply (EmbQueuePut_alone word_queue [] 7 word_queue_empty); by vm_compute. Defined.

Lemma EmbQueuePut_full_waits_witness :
  run_producer 1000 (MkEmbQueue 4 1 0 0 (-1) [7]) (PutWait 0 0 7) = None.
Proof.
  apply (EmbQueuePut_full_waits (CreateQueue [0] 1 4) [] 7); [by apply represents_create|done..].
Defined.

Lemma EmbQueuePutMany_alone_witness :
  exists q', run_producer 8 word_queue (EmbQueuePutMany word_queue [1; 2; 3]) =
      Some (q', (3, Some (-1))) /\ represents q' [1; 2; 3].
Proof.
  apply (EmbQueuePutMany_alone word_queue [] [1; 2; 3] word_queue_empty); [|by vm_compute].
  by apply Forall_true.
Defined.

Lemma EmbQueuePutMany_waits_witness :
  run_producer 1000 word_queue (EmbQueuePutMany word_queue [1; 2; 3; 4]) = None.
Proof.
  apply (EmbQueuePutMany_waits word_queue [] [1; 2; 3; 4] 1000 word_queue_empty); [|by vm_compute].
  by apply Forall_true.
Defined.

Definition three_queue : EmbQueue (list Z) := MkEmbQueue 4 4 1 2 (-1) [30; 0; 10; 20].
Lemma three_queue_represents : represents (elt := Z) three_queue [10; 20; 30].
Proof.
  constructor; [by constructor | done |].
  intros j e Hj. do 3 (destruct j as [|j]; [by injection Hj as <-|]). done.
Qed.

Lemma EmbQueueTakeMany_alone_witness :
  exists q', run_consumer 7 three_queue (EmbQueueTakeMany three_queue 3) = Some (q', [10; 20; 30]) /\
    represents (elt := Z) q' [].
Proof. apply (EmbQueueTakeMany_alone three_queue [10; 20; 30] 3 three_queue_represents). simpl. lia. Defined.

(** Two records of three bytes. *)
Lemma EmbQueueTakeMany_PutMany_witness :
  exists q1 r q2, run_producer 6 (CreateQueue (replicate 12 0) 3 3)
      (EmbQueuePutMany (CreateQueue (replicate 12 0) 3 3) [[1; 2; 3]; [4; 5; 6]]) = Some (q1, r) /\
    run_consumer 5 q1 (EmbQueueTakeMany q1 2) = Some (q2, [[1; 2; 3]; [4; 5; 6]]) /\
    represents (elt := list Z) q2 [].
Proof.
  apply (EmbQueueTakeMany_PutMany (CreateQueue (replicate 12 0) 3 3) [[1; 2; 3]; [4; 5; 6]]).
  - by apply represents_create.
  - by repeat constructor.
  - by vm_compute.
Defined.
