(* ===== verification/LifeState.v ===== *)
(** The communications area of Life Support and the host's side of it: life-support/embed.h.
    Guest pointers (EmbPtr, word offsets in the area) name queues, channels and buffers;
    the host's heap is a map from addresses to the records malloc returned. *)

From S2P Require Export Queues.

(** ** Constants *)

Definition NSignals : Z := 32. (* life-support/embed.h:23 NSignals *)
Definition NullEmbPtr : Z := -1. (* life-support/embed.h:293 NullEmbPtr *)
Definition CommandQueueSize : Z := 5. (* include/VLM_configuration.h:90 CommandQueueSize *)

(* life-support/embed.h:256-266 ResetRequest *)
Inductive ResetRequest :=
| ReadNVRAMResetRequest
| WriteNVRAMResetRequest
| AreYouThereResetRequest
| BootResetRequest
| DevicePROMResetRequest
| FEPResetRequest
| NoResetRequest
| LispResetRequest
| OtherResetRequest (code : Z).

(* life-support/embed.h:269-279 GuestStatus *)
Inductive GuestStatus :=
| NonexistentGuestStatus
| BrokenGuestStatus
| UninitializedGuestStatus
| InitializingGuestStatus
| InitializedGuestStatus
| StartedGuestStatus
| CrashedGuestStatus
| RunningGuestStatus.

Definition HaltedFEPStatus : Z := 0xFF. (* life-support/embed.h:284 HaltedFEPStatus *)
Definition RunningFEPStatus : Z := 0. (* life-support/embed.h:285 RunningFEPStatus *)
Definition IdleFEPStatus : Z := 1. (* life-support/embed.h:286 IdleFEPStatus *)

(** Error codes of errno.h. *)
Definition ESUCCESS : Z := 0.
Definition EINTR : Z := 4.
Definition ENXIO : Z := 6.
Definition ENOMEM : Z := 12.
Definition EINVAL : Z := 22.
Definition EROFS : Z := 30.

(** ** Signal handlers *)

(** The functions InstallSignalHandler is given; the argument is a guest pointer or the
    address of a heap record. *)
Inductive HandlerFunction :=
| NullSignalHandler
| ExecuteGuestCommandsHandler
| SendMBINBuffersHandler
| DiskLifeHandler
| OtherHandler (n : Z).

(* life-support/embed.h:25-32 SignalHandler *)
Record SignalHandler := MkSignalHandler {
  handlerThreadSetup : bool;
  sh_signal : Z;
  handlerFunction : option HandlerFunction;
  handlerArgument : option Z
}.

Definition set_handlerThreadSetup (v : bool) (h : SignalHandler) : SignalHandler :=
  MkSignalHandler v (sh_signal h) (handlerFunction h) (handlerArgument h).
Definition set_sh_signal (v : Z) (h : SignalHandler) : SignalHandler :=
  MkSignalHandler (handlerThreadSetup h) v (handlerFunction h) (handlerArgument h).
Definition set_handlerFunction (v : option HandlerFunction) (h : SignalHandler) : SignalHandler :=
  MkSignalHandler (handlerThreadSetup h) (sh_signal h) v (handlerArgument h).
Definition set_handlerArgument (v : option Z) (h : SignalHandler) : SignalHandler :=
  MkSignalHandler (handlerThreadSetup h) (sh_signal h) (handlerFunction h) v.

(** ** Channels *)

Definition EmbMessageChannelCommandSubtype : Z := 2. (* life-support/embed.h:767 EmbMessageChannelCommandSubtype *)
Definition EmbMessageChannelMBINSubtype : Z := 3. (* life-support/embed.h:768 EmbMessageChannelMBINSubtype *)

(** The part of a message channel after its header; [subtypeData] is the heap address that
    [subtypeData0] and [subtypeData1] hold, [None] for NULL. *)
(* life-support/embed.h:748-763 EmbMessageChannel *)
Record EmbMessageChannel := MkEmbMessageChannel {
  subtype : Z;
  guestToHostQueue : Z;
  guestToHostReturnQueue : Z;
  guestToHostImpulse : Z;
  hostToGuestQueue : Z;
  hostToGuestSupplyQueue : Z;
  hostToGuestImpulse : Z;
  subtypeData : option Z
}.

Definition set_subtype (v : Z) (c : EmbMessageChannel) : EmbMessageChannel :=
  MkEmbMessageChannel v (guestToHostQueue c) (guestToHostReturnQueue c) (guestToHostImpulse c)
    (hostToGuestQueue c) (hostToGuestSupplyQueue c) (hostToGuestImpulse c) (subtypeData c).
Definition set_guestToHostQueue (v : Z) (c : EmbMessageChannel) : EmbMessageChannel :=
  MkEmbMessageChannel (subtype c) v (guestToHostReturnQueue c) (guestToHostImpulse c) (hostToGuestQueue c)
    (hostToGuestSupplyQueue c) (hostToGuestImpulse c) (subtypeData c).
Definition set_guestToHostReturnQueue (v : Z) (c : EmbMessageChannel) : EmbMessageChannel :=
  MkEmbMessageChannel (subtype c) (guestToHostQueue c) v (guestToHostImpulse c) (hostToGuestQueue c)
    (hostToGuestSupplyQueue c) (hostToGuestImpulse c) (subtypeData c).
Definition set_guestToHostImpulse (v : Z) (c : EmbMessageChannel) : EmbMessageChannel :=
  MkEmbMessageChannel (subtype c) (guestToHostQueue c) (guestToHostReturnQueue c) v (hostToGuestQueue c)
    (hostToGuestSupplyQueue c) (hostToGuestImpulse c) (subtypeData c).
Definition set_hostToGuestQueue (v : Z) (c : EmbMessageChannel) : EmbMessageChannel :=
  MkEmbMessageChannel (subtype c) (guestToHostQueue c) (guestToHostReturnQueue c) (guestToHostImpulse c) v
    (hostToGuestSupplyQueue c) (hostToGuestImpulse c) (subtypeData c).
Definition set_hostToGuestSupplyQueue (v : Z) (c : EmbMessageChannel) : EmbMessageChannel :=
  MkEmbMessageChannel (subtype c) (guestToHostQueue c) (guestToHostReturnQueue c) (guestToHostImpulse c)
    (hostToGuestQueue c) v (hostToGuestImpulse c) (subtypeData c).
Definition set_hostToGuestImpulse (v : Z) (c : EmbMessageChannel) : EmbMessageChannel :=
  MkEmbMessageChannel (subtype c) (guestToHostQueue c) (guestToHostReturnQueue c) (guestToHostImpulse c)
    (hostToGuestQueue c) (hostToGuestSupplyQueue c) v (subtypeData c).
Definition set_subtypeData (v : option Z) (c : EmbMessageChannel) : EmbMessageChannel :=
  MkEmbMessageChannel (subtype c) (guestToHostQueue c) (guestToHostReturnQueue c) (guestToHostImpulse c)
    (hostToGuestQueue c) (hostToGuestSupplyQueue c) (hostToGuestImpulse c) v.

(** The part of a disk channel after its header. *)
(* life-support/embed.h:368-392 EmbDiskChannel *)
Record EmbDiskChannel := MkEmbDiskChannel {
  number_of_pages : Z;
  command_queue : Z;
  status_queue : Z;
  read_only : bool;
  hostState : option Z;
  blocksize : Z
}.

Definition set_number_of_pages (v : Z) (c : EmbDiskChannel) : EmbDiskChannel :=
  MkEmbDiskChannel v (command_queue c) (status_queue c) (read_only c) (hostState c) (blocksize c).
Definition set_command_queue (v : Z) (c : EmbDiskChannel) : EmbDiskChannel :=
  MkEmbDiskChannel (number_of_pages c) v (status_queue c) (read_only c) (hostState c) (blocksize c).
Definition set_status_queue (v : Z) (c : EmbDiskChannel) : EmbDiskChannel :=
  MkEmbDiskChannel (number_of_pages c) (command_queue c) v (read_only c) (hostState c) (blocksize c).
Definition set_read_only (v : bool) (c : EmbDiskChannel) : EmbDiskChannel :=
  MkEmbDiskChannel (number_of_pages c) (command_queue c) (status_queue c) v (hostState c) (blocksize c).
Definition set_hostState (v : option Z) (c : EmbDiskChannel) : EmbDiskChannel :=
  MkEmbDiskChannel (number_of_pages c) (command_queue c) (status_queue c) (read_only c) v (blocksize c).
Definition set_blocksize (v : Z) (c : EmbDiskChannel) : EmbDiskChannel :=
  MkEmbDiskChannel (number_of_pages c) (command_queue c) (status_queue c) (read_only c) (hostState c) v.

(** The types of channels; the other devices have a reset routine of their own. *)
(* life-support/embed.h:351-361 EmbChannelType *)
Inductive ChannelBody :=
| EmbDiskChannelType (c : EmbDiskChannel)
| EmbConsoleChannelType
| EmbNetworkChannelType
| EmbRPCChannelType
| EmbSCSIChannelType
| EmbColdLoadChannelType
| EmbHostFileChannelType
| EmbMessageChannelType (c : EmbMessageChannel)
| OtherChannelType (code : Z).

(** Every channel: its type, its unit and the next channel in the list of all channels. *)
(* life-support/embed.h:342-348 EmbChannel *)
Record EmbChannel := MkEmbChannel {
  channel_type : ChannelBody;
  unit_number : Z;
  next_channel : Z
}.

Definition set_channel_type (v : ChannelBody) (c : EmbChannel) : EmbChannel :=
  MkEmbChannel v (unit_number c) (next_channel c).
Definition set_unit_number (v : Z) (c : EmbChannel) : EmbChannel :=
  MkEmbChannel (channel_type c) v (next_channel c).
Definition set_next_channel (v : Z) (c : EmbChannel) : EmbChannel :=
  MkEmbChannel (channel_type c) (unit_number c) v.

(** EmbCommandChannel and EmbMBINChannel: the link to the next active channel and the queues,
    as guest pointers. *)
(* life-support/embed.h:778-784 EmbMessageSubtypeDataHeader *)
Record SubtypeData := MkSubtypeData {
  nextActiveChannel : option Z;
  messageChannel : Z;
  sd_guestToHostQueue : Z;
  sd_guestToHostReturnQueue : Z;
  sd_hostToGuestQueue : Z;
  sd_hostToGuestSupplyQueue : Z
}.

Definition set_nextActiveChannel (v : option Z) (d : SubtypeData) : SubtypeData :=
  MkSubtypeData v (messageChannel d) (sd_guestToHostQueue d) (sd_guestToHostReturnQueue d)
    (sd_hostToGuestQueue d) (sd_hostToGuestSupplyQueue d).
Definition set_messageChannel (v : Z) (d : SubtypeData) : SubtypeData :=
  MkSubtypeData (nextActiveChannel d) v (sd_guestToHostQueue d) (sd_guestToHostReturnQueue d)
    (sd_hostToGuestQueue d) (sd_hostToGuestSupplyQueue d).
Definition set_sd_guestToHostQueue (v : Z) (d : SubtypeData) : SubtypeData :=
  MkSubtypeData (nextActiveChannel d) (messageChannel d) v (sd_guestToHostReturnQueue d)
    (sd_hostToGuestQueue d) (sd_hostToGuestSupplyQueue d).
Definition set_sd_guestToHostReturnQueue (v : Z) (d : SubtypeData) : SubtypeData :=
  MkSubtypeData (nextActiveChannel d) (messageChannel d) (sd_guestToHostQueue d) v (sd_hostToGuestQueue d)
    (sd_hostToGuestSupplyQueue d).
Definition set_sd_hostToGuestQueue (v : Z) (d : SubtypeData) : SubtypeData :=
  MkSubtypeData (nextActiveChannel d) (messageChannel d) (sd_guestToHostQueue d)
    (sd_guestToHostReturnQueue d) v (sd_hostToGuestSupplyQueue d).
Definition set_sd_hostToGuestSupplyQueue (v : Z) (d : SubtypeData) : SubtypeData :=
  MkSubtypeData (nextActiveChannel d) (messageChannel d) (sd_guestToHostQueue d)
    (sd_guestToHostReturnQueue d) (sd_hostToGuestQueue d) v.

(* life-support/embed.h:396-405 DiskChannelState *)
Record DiskChannelState := MkDiskChannelState {
  command_queue_ptr : Z;
  status_queue_ptr : Z;
  error_pending : bool;
  fd : Z;
  state_blocksize : Z
}.

Definition set_command_queue_ptr (v : Z) (d : DiskChannelState) : DiskChannelState :=
  MkDiskChannelState v (status_queue_ptr d) (error_pending d) (fd d) (state_blocksize d).
Definition set_status_queue_ptr (v : Z) (d : DiskChannelState) : DiskChannelState :=
  MkDiskChannelState (command_queue_ptr d) v (error_pending d) (fd d) (state_blocksize d).
Definition set_error_pending (v : bool) (d : DiskChannelState) : DiskChannelState :=
  MkDiskChannelState (command_queue_ptr d) (status_queue_ptr d) v (fd d) (state_blocksize d).
Definition set_fd (v : Z) (d : DiskChannelState) : DiskChannelState :=
  MkDiskChannelState (command_queue_ptr d) (status_queue_ptr d) (error_pending d) v (state_blocksize d).
Definition set_state_blocksize (v : Z) (d : DiskChannelState) : DiskChannelState :=
  MkDiskChannelState (command_queue_ptr d) (status_queue_ptr d) (error_pending d) (fd d) v.

(** ** Buffers *)

Definition EmbCommandBufferStartMBIN : Z := 1. (* life-support/embed.h:827 EmbCommandBufferStartMBIN *)

(* life-support/embed.h:834-844 EmbCommandBuffer *)
Record EmbCommandBuffer := MkEmbCommandBuffer {
  opcode : Z;
  resultCode : Z;
  mbinChannel : Z
}.

Definition set_opcode (v : Z) (b : EmbCommandBuffer) : EmbCommandBuffer :=
  MkEmbCommandBuffer v (resultCode b) (mbinChannel b).
Definition set_resultCode (v : Z) (b : EmbCommandBuffer) : EmbCommandBuffer :=
  MkEmbCommandBuffer (opcode b) v (mbinChannel b).
Definition set_mbinChannel (v : Z) (b : EmbCommandBuffer) : EmbCommandBuffer :=
  MkEmbCommandBuffer (opcode b) (resultCode b) v.

(* life-support/embed.h:439-445 EmbDiskCmd *)
Inductive EmbDiskCmd := ReadCmd | WriteCmd | ResetCmd | InitializeCmd | OtherCmd (code : Z).
(* life-support/embed.h:447-452 EmbDiskStatus *)
Inductive EmbDiskStatus := WonStatus | LostStatus | AbortStatus | OtherStatus (code : Z).

(** [addresses] are the pairs of a buffer and its number of words. *)
(* life-support/embed.h:491-502 EmbDiskQueueElement *)
Record EmbDiskQueueElement := MkEmbDiskQueueElement {
  cmd : EmbDiskCmd;
  page : Z;
  count : Z;
  n_addresses : Z;
  status : EmbDiskStatus;
  error_code : Z;
  addresses : list (Z * Z)
}.

Definition set_cmd (v : EmbDiskCmd) (b : EmbDiskQueueElement) : EmbDiskQueueElement :=
  MkEmbDiskQueueElement v (page b) (count b) (n_addresses b) (status b) (error_code b) (addresses b).
Definition set_page (v : Z) (b : EmbDiskQueueElement) : EmbDiskQueueElement :=
  MkEmbDiskQueueElement (cmd b) v (count b) (n_addresses b) (status b) (error_code b) (addresses b).
Definition set_count (v : Z) (b : EmbDiskQueueElement) : EmbDiskQueueElement :=
  MkEmbDiskQueueElement (cmd b) (page b) v (n_addresses b) (status b) (error_code b) (addresses b).
Definition set_n_addresses (v : Z) (b : EmbDiskQueueElement) : EmbDiskQueueElement :=
  MkEmbDiskQueueElement (cmd b) (page b) (count b) v (status b) (error_code b) (addresses b).
Definition set_status (v : EmbDiskStatus) (b : EmbDiskQueueElement) : EmbDiskQueueElement :=
  MkEmbDiskQueueElement (cmd b) (page b) (count b) (n_addresses b) v (error_code b) (addresses b).
Definition set_error_code (v : Z) (b : EmbDiskQueueElement) : EmbDiskQueueElement :=
  MkEmbDiskQueueElement (cmd b) (page b) (count b) (n_addresses b) (status b) v (addresses b).
Definition set_addresses (v : list (Z * Z)) (b : EmbDiskQueueElement) : EmbDiskQueueElement :=
  MkEmbDiskQueueElement (cmd b) (page b) (count b) (n_addresses b) (status b) (error_code b) v.

(** The calls to the file system made for the disks, with the file offset; the name of a file
    is the bytes of its buffer. *)
Inductive DiskRequest :=
| DiskOpen (name : list Z) (readOnly create : bool)
| DiskSeek (fd : Z) (offset : Z)
| DiskTransfer (write : bool) (fd : Z) (offset : Z) (iovs : list (Z * Z))
| DiskTruncate (fd : Z) (size : Z)
| DiskClose (fd : Z).

(** ** The communications area *)

(** The locks are [true] while the thread that runs holds them. The heap of the host and the
    buffers of the guest are maps. The last fields count the broadcasts on the conditions
    and the interrupts sent to the emulator. *)
(* life-support/embed.h:42-233 EmbCommArea *)
Record EmbCommArea := MkEmbCommArea {
  guest_to_host_signals : Z;
  live_guest_to_host_signals : Z;
  host_to_guest_signals : Z;
  live_host_to_guest_signals : Z;
  reawaken : Z;
  useSignalLocks : bool;
  signalHandler : list SignalHandler;
  host_buffer_start : Z;
  host_buffer_size : Z;
  channel_table : Z;
  command_channel : Z;
  activeMBINChannel : option Z;
  clock_signal : Z;
  clock_interval : Z;
  reset_request : ResetRequest;
  spy_status : Z;
  fep_status : Z;
  guestStatus : GuestStatus;
  pollTime : Z;
  pollClockTime : Z;
  clockTime : Z;
  restart_applications : Z;
  resetRequestCount : Z;
  inhibitDisk : bool;
  disk_log : list DiskRequest;
  signalLock : bool;
  wakeupLock : bool;
  clockLock : bool;
  queues : gmap Z (EmbQueue (list Z));
  channels : gmap Z EmbChannel;
  subtypes : gmap Z SubtypeData;
  diskStates : gmap Z DiskChannelState;
  commands : gmap Z EmbCommandBuffer;
  diskCommands : gmap Z EmbDiskQueueElement;
  signal_broadcasts : Z;
  wakeup_broadcasts : Z;
  clock_broadcasts : Z;
  emulator_interrupts : Z
}.

Definition set_guest_to_host_signals (v : Z) (a : EmbCommArea) : EmbCommArea :=
  MkEmbCommArea v (live_guest_to_host_signals a) (host_to_guest_signals a) (live_host_to_guest_signals a)
    (reawaken a) (useSignalLocks a) (signalHandler a) (host_buffer_start a) (host_buffer_size a)
    (channel_table a) (command_channel a) (activeMBINChannel a) (clock_signal a) (clock_interval a)
    (reset_request a) (spy_status a) (fep_status a) (guestStatus a) (pollTime a) (pollClockTime a)
    (clockTime a) (restart_applications a) (resetRequestCount a) (inhibitDisk a) (disk_log a) (signalLock a)
    (wakeupLock a) (clockLock a) (queues a) (channels a) (subtypes a) (diskStates a) (commands a)
    (diskCommands a) (signal_broadcasts a) (wakeup_broadcasts a) (clock_broadcasts a)
    (emulator_interrupts a).
Definition set_live_guest_to_host_signals (v : Z) (a : EmbCommArea) : EmbCommArea :=
  MkEmbCommArea (guest_to_host_signals a) v (host_to_guest_signals a) (live_host_to_guest_signals a)
    (reawaken a) (useSignalLocks a) (signalHandler a) (host_buffer_start a) (host_buffer_size a)
    (channel_table a) (command_channel a) (activeMBINChannel a) (clock_signal a) (clock_interval a)
    (reset_request a) (spy_status a) (fep_status a) (guestStatus a) (pollTime a) (pollClockTime a)
    (clockTime a) (restart_applications a) (resetRequestCount a) (inhibitDisk a) (disk_log a) (signalLock a)
    (wakeupLock a) (clockLock a) (queues a) (channels a) (subtypes a) (diskStates a) (commands a)
    (diskCommands a) (signal_broadcasts a) (wakeup_broadcasts a) (clock_broadcasts a)
    (emulator_interrupts a).
Definition set_host_to_guest_signals (v : Z) (a : EmbCommArea) : EmbCommArea :=
  MkEmbCommArea (guest_to_host_signals a) (live_guest_to_host_signals a) v (live_host_to_guest_signals a)
    (reawaken a) (useSignalLocks a) (signalHandler a) (host_buffer_start a) (host_buffer_size a)
    (channel_table a) (command_channel a) (activeMBINChannel a) (clock_signal a) (clock_interval a)
    (reset_request a) (spy_status a) (fep_status a) (guestStatus a) (pollTime a) (pollClockTime a)
    (clockTime a) (restart_applications a) (resetRequestCount a) (inhibitDisk a) (disk_log a) (signalLock a)
    (wakeupLock a) (clockLock a) (queues a) (channels a) (subtypes a) (diskStates a) (commands a)
    (diskCommands a) (signal_broadcasts a) (wakeup_broadcasts a) (clock_broadcasts a)
    (emulator_interrupts a).
Definition set_live_host_to_guest_signals (v : Z) (a : EmbCommArea) : EmbCommArea :=
  MkEmbCommArea (guest_to_host_signals a) (live_guest_to_host_signals a) (host_to_guest_signals a) v
    (reawaken a) (useSignalLocks a) (signalHandler a) (host_buffer_start a) (host_buffer_size a)
    (channel_table a) (command_channel a) (activeMBINChannel a) (clock_signal a) (clock_interval a)
    (reset_request a) (spy_status a) (fep_status a) (guestStatus a) (pollTime a) (pollClockTime a)
    (clockTime a) (restart_applications a) (resetRequestCount a) (inhibitDisk a) (disk_log a) (signalLock a)
    (wakeupLock a) (clockLock a) (queues a) (channels a) (subtypes a) (diskStates a) (commands a)
    (diskCommands a) (signal_broadcasts a) (wakeup_broadcasts a) (clock_broadcasts a)
    (emulator_interrupts a).
Definition set_reawaken (v : Z) (a : EmbCommArea) : EmbCommArea :=
  MkEmbCommArea (guest_to_host_signals a) (live_guest_to_host_signals a) (host_to_guest_signals a)
    (live_host_to_guest_signals a) v (useSignalLocks a) (signalHandler a) (host_buffer_start a)
    (host_buffer_size a) (channel_table a) (command_channel a) (activeMBINChannel a) (clock_signal a)
    (clock_interval a) (reset_request a) (spy_status a) (fep_status a) (guestStatus a) (pollTime a)
    (pollClockTime a) (clockTime a) (restart_applications a) (resetRequestCount a) (inhibitDisk a)
    (disk_log a) (signalLock a) (wakeupLock a) (clockLock a) (queues a) (channels a) (subtypes a)
    (diskStates a) (commands a) (diskCommands a) (signal_broadcasts a) (wakeup_broadcasts a)
    (clock_broadcasts a) (emulator_interrupts a).
Definition set_useSignalLocks (v : bool) (a : EmbCommArea) : EmbCommArea :=
  MkEmbCommArea (guest_to_host_signals a) (live_guest_to_host_signals a) (host_to_guest_signals a)
    (live_host_to_guest_signals a) (reawaken a) v (signalHandler a) (host_buffer_start a)
    (host_buffer_size a) (channel_table a) (command_channel a) (activeMBINChannel a) (clock_signal a)
    (clock_interval a) (reset_request a) (spy_status a) (fep_status a) (guestStatus a) (pollTime a)
    (pollClockTime a) (clockTime a) (restart_applications a) (resetRequestCount a) (inhibitDisk a)
    (disk_log a) (signalLock a) (wakeupLock a) (clockLock a) (queues a) (channels a) (subtypes a)
    (diskStates a) (commands a) (diskCommands a) (signal_broadcasts a) (wakeup_broadcasts a)
    (clock_broadcasts a) (emulator_interrupts a).
Definition set_signalHandler (v : list SignalHandler) (a : EmbCommArea) : EmbCommArea :=
  MkEmbCommArea (guest_to_host_signals a) (live_guest_to_host_signals a) (host_to_guest_signals a)
    (live_host_to_guest_signals a) (reawaken a) (useSignalLocks a) v (host_buffer_start a)
    (host_buffer_size a) (channel_table a) (command_channel a) (activeMBINChannel a) (clock_signal a)
    (clock_interval a) (reset_request a) (spy_status a) (fep_status a) (guestStatus a) (pollTime a)
    (pollClockTime a) (clockTime a) (restart_applications a) (resetRequestCount a) (inhibitDisk a)
    (disk_log a) (signalLock a) (wakeupLock a) (clockLock a) (queues a) (channels a) (subtypes a)
    (diskStates a) (commands a) (diskCommands a) (signal_broadcasts a) (wakeup_broadcasts a)
    (clock_broadcasts a) (emulator_interrupts a).
Definition set_host_buffer_start (v : Z) (a : EmbCommArea) : EmbCommArea :=
  MkEmbCommArea (guest_to_host_signals a) (live_guest_to_host_signals a) (host_to_guest_signals a)
    (live_host_to_guest_signals a) (reawaken a) (useSignalLocks a) (signalHandler a) v (host_buffer_size a)
    (channel_table a) (command_channel a) (activeMBINChannel a) (clock_signal a) (clock_interval a)
    (reset_request a) (spy_status a) (fep_status a) (guestStatus a) (pollTime a) (pollClockTime a)
    (clockTime a) (restart_applications a) (resetRequestCount a) (inhibitDisk a) (disk_log a) (signalLock a)
    (wakeupLock a) (clockLock a) (queues a) (channels a) (subtypes a) (diskStates a) (commands a)
    (diskCommands a) (signal_broadcasts a) (wakeup_broadcasts a) (clock_broadcasts a)
    (emulator_interrupts a).
Definition set_host_buffer_size (v : Z) (a : EmbCommArea) : EmbCommArea :=
  MkEmbCommArea (guest_to_host_signals a) (live_guest_to_host_signals a) (host_to_guest_signals a)
    (live_host_to_guest_signals a) (reawaken a) (useSignalLocks a) (signalHandler a) (host_buffer_start a) v
    (channel_table a) (command_channel a) (activeMBINChannel a) (clock_signal a) (clock_interval a)
    (reset_request a) (spy_status a) (fep_status a) (guestStatus a) (pollTime a) (pollClockTime a)
    (clockTime a) (restart_applications a) (resetRequestCount a) (inhibitDisk a) (disk_log a) (signalLock a)
    (wakeupLock a) (clockLock a) (queues a) (channels a) (subtypes a) (diskStates a) (commands a)
    (diskCommands a) (signal_broadcasts a) (wakeup_broadcasts a) (clock_broadcasts a)
    (emulator_interrupts a).
Definition set_channel_table (v : Z) (a : EmbCommArea) : EmbCommArea :=
  MkEmbCommArea (guest_to_host_signals a) (live_guest_to_host_signals a) (host_to_guest_signals a)
    (live_host_to_guest_signals a) (reawaken a) (useSignalLocks a) (signalHandler a) (host_buffer_start a)
    (host_buffer_size a) v (command_channel a) (activeMBINChannel a) (clock_signal a) (clock_interval a)
    (reset_request a) (spy_status a) (fep_status a) (guestStatus a) (pollTime a) (pollClockTime a)
    (clockTime a) (restart_applications a) (resetRequestCount a) (inhibitDisk a) (disk_log a) (signalLock a)
    (wakeupLock a) (clockLock a) (queues a) (channels a) (subtypes a) (diskStates a) (commands a)
    (diskCommands a) (signal_broadcasts a) (wakeup_broadcasts a) (clock_broadcasts a)
    (emulator_interrupts a).
Definition set_command_channel (v : Z) (a : EmbCommArea) : EmbCommArea :=
  MkEmbCommArea (guest_to_host_signals a) (live_guest_to_host_signals a) (host_to_guest_signals a)
    (live_host_to_guest_signals a) (reawaken a) (useSignalLocks a) (signalHandler a) (host_buffer_start a)
    (host_buffer_size a) (channel_table a) v (activeMBINChannel a) (clock_signal a) (clock_interval a)
    (reset_request a) (spy_status a) (fep_status a) (guestStatus a) (pollTime a) (pollClockTime a)
    (clockTime a) (restart_applications a) (resetRequestCount a) (inhibitDisk a) (disk_log a) (signalLock a)
    (wakeupLock a) (clockLock a) (queues a) (channels a) (subtypes a) (diskStates a) (commands a)
    (diskCommands a) (signal_broadcasts a) (wakeup_broadcasts a) (clock_broadcasts a)
    (emulator_interrupts a).
Definition set_activeMBINChannel (v : option Z) (a : EmbCommArea) : EmbCommArea :=
  MkEmbCommArea (guest_to_host_signals a) (live_guest_to_host_signals a) (host_to_guest_signals a)
    (live_host_to_guest_signals a) (reawaken a) (useSignalLocks a) (signalHandler a) (host_buffer_start a)
    (host_buffer_size a) (channel_table a) (command_channel a) v (clock_signal a) (clock_interval a)
    (reset_request a) (spy_status a) (fep_status a) (guestStatus a) (pollTime a) (pollClockTime a)
    (clockTime a) (restart_applications a) (resetRequestCount a) (inhibitDisk a) (disk_log a) (signalLock a)
    (wakeupLock a) (clockLock a) (queues a) (channels a) (subtypes a) (diskStates a) (commands a)
    (diskCommands a) (signal_broadcasts a) (wakeup_broadcasts a) (clock_broadcasts a)
    (emulator_interrupts a).
Definition set_clock_signal (v : Z) (a : EmbCommArea) : EmbCommArea :=
  MkEmbCommArea (guest_to_host_signals a) (live_guest_to_host_signals a) (host_to_guest_signals a)
    (live_host_to_guest_signals a) (reawaken a) (useSignalLocks a) (signalHandler a) (host_buffer_start a)
    (host_buffer_size a) (channel_table a) (command_channel a) (activeMBINChannel a) v (clock_interval a)
    (reset_request a) (spy_status a) (fep_status a) (guestStatus a) (pollTime a) (pollClockTime a)
    (clockTime a) (restart_applications a) (resetRequestCount a) (inhibitDisk a) (disk_log a) (signalLock a)
    (wakeupLock a) (clockLock a) (queues a) (channels a) (subtypes a) (diskStates a) (commands a)
    (diskCommands a) (signal_broadcasts a) (wakeup_broadcasts a) (clock_broadcasts a)
    (emulator_interrupts a).
Definition set_clock_interval (v : Z) (a : EmbCommArea) : EmbCommArea :=
  MkEmbCommArea (guest_to_host_signals a) (live_guest_to_host_signals a) (host_to_guest_signals a)
    (live_host_to_guest_signals a) (reawaken a) (useSignalLocks a) (signalHandler a) (host_buffer_start a)
    (host_buffer_size a) (channel_table a) (command_channel a) (activeMBINChannel a) (clock_signal a) v
    (reset_request a) (spy_status a) (fep_status a) (guestStatus a) (pollTime a) (pollClockTime a)
    (clockTime a) (restart_applications a) (resetRequestCount a) (inhibitDisk a) (disk_log a) (signalLock a)
    (wakeupLock a) (clockLock a) (queues a) (channels a) (subtypes a) (diskStates a) (commands a)
    (diskCommands a) (signal_broadcasts a) (wakeup_broadcasts a) (clock_broadcasts a)
    (emulator_interrupts a).
Definition set_reset_request (v : ResetRequest) (a : EmbCommArea) : EmbCommArea :=
  MkEmbCommArea (guest_to_host_signals a) (live_guest_to_host_signals a) (host_to_guest_signals a)
    (live_host_to_guest_signals a) (reawaken a) (useSignalLocks a) (signalHandler a) (host_buffer_start a)
    (host_buffer_size a) (channel_table a) (command_channel a) (activeMBINChannel a) (clock_signal a)
    (clock_interval a) v (spy_status a) (fep_status a) (guestStatus a) (pollTime a) (pollClockTime a)
    (clockTime a) (restart_applications a) (resetRequestCount a) (inhibitDisk a) (disk_log a) (signalLock a)
    (wakeupLock a) (clockLock a) (queues a) (channels a) (subtypes a) (diskStates a) (commands a)
    (diskCommands a) (signal_broadcasts a) (wakeup_broadcasts a) (clock_broadcasts a)
    (emulator_interrupts a).
Definition set_spy_status (v : Z) (a : EmbCommArea) : EmbCommArea :=
  MkEmbCommArea (guest_to_host_signals a) (live_guest_to_host_signals a) (host_to_guest_signals a)
    (live_host_to_guest_signals a) (reawaken a) (useSignalLocks a) (signalHandler a) (host_buffer_start a)
    (host_buffer_size a) (channel_table a) (command_channel a) (activeMBINChannel a) (clock_signal a)
    (clock_interval a) (reset_request a) v (fep_status a) (guestStatus a) (pollTime a) (pollClockTime a)
    (clockTime a) (restart_applications a) (resetRequestCount a) (inhibitDisk a) (disk_log a) (signalLock a)
    (wakeupLock a) (clockLock a) (queues a) (channels a) (subtypes a) (diskStates a) (commands a)
    (diskCommands a) (signal_broadcasts a) (wakeup_broadcasts a) (clock_broadcasts a)
    (emulator_interrupts a).
Definition set_fep_status (v : Z) (a : EmbCommArea) : EmbCommArea :=
  MkEmbCommArea (guest_to_host_signals a) (live_guest_to_host_signals a) (host_to_guest_signals a)
    (live_host_to_guest_signals a) (reawaken a) (useSignalLocks a) (signalHandler a) (host_buffer_start a)
    (host_buffer_size a) (channel_table a) (command_channel a) (activeMBINChannel a) (clock_signal a)
    (clock_interval a) (reset_request a) (spy_status a) v (guestStatus a) (pollTime a) (pollClockTime a)
    (clockTime a) (restart_applications a) (resetRequestCount a) (inhibitDisk a) (disk_log a) (signalLock a)
    (wakeupLock a) (clockLock a) (queues a) (channels a) (subtypes a) (diskStates a) (commands a)
    (diskCommands a) (signal_broadcasts a) (wakeup_broadcasts a) (clock_broadcasts a)
    (emulator_interrupts a).
Definition set_guestStatus (v : GuestStatus) (a : EmbCommArea) : EmbCommArea :=
  MkEmbCommArea (guest_to_host_signals a) (live_guest_to_host_signals a) (host_to_guest_signals a)
    (live_host_to_guest_signals a) (reawaken a) (useSignalLocks a) (signalHandler a) (host_buffer_start a)
    (host_buffer_size a) (channel_table a) (command_channel a) (activeMBINChannel a) (clock_signal a)
    (clock_interval a) (reset_request a) (spy_status a) (fep_status a) v (pollTime a) (pollClockTime a)
    (clockTime a) (restart_applications a) (resetRequestCount a) (inhibitDisk a) (disk_log a) (signalLock a)
    (wakeupLock a) (clockLock a) (queues a) (channels a) (subtypes a) (diskStates a) (commands a)
    (diskCommands a) (signal_broadcasts a) (wakeup_broadcasts a) (clock_broadcasts a)
    (emulator_interrupts a).
Definition set_pollTime (v : Z) (a : EmbCommArea) : EmbCommArea :=
  MkEmbCommArea (guest_to_host_signals a) (live_guest_to_host_signals a) (host_to_guest_signals a)
    (live_host_to_guest_signals a) (reawaken a) (useSignalLocks a) (signalHandler a) (host_buffer_start a)
    (host_buffer_size a) (channel_table a) (command_channel a) (activeMBINChannel a) (clock_signal a)
    (clock_interval a) (reset_request a) (spy_status a) (fep_status a) (guestStatus a) v (pollClockTime a)
    (clockTime a) (restart_applications a) (resetRequestCount a) (inhibitDisk a) (disk_log a) (signalLock a)
    (wakeupLock a) (clockLock a) (queues a) (channels a) (subtypes a) (diskStates a) (commands a)
    (diskCommands a) (signal_broadcasts a) (wakeup_broadcasts a) (clock_broadcasts a)
    (emulator_interrupts a).
Definition set_pollClockTime (v : Z) (a : EmbCommArea) : EmbCommArea :=
  MkEmbCommArea (guest_to_host_signals a) (live_guest_to_host_signals a) (host_to_guest_signals a)
    (live_host_to_guest_signals a) (reawaken a) (useSignalLocks a) (signalHandler a) (host_buffer_start a)
    (host_buffer_size a) (channel_table a) (command_channel a) (activeMBINChannel a) (clock_signal a)
    (clock_interval a) (reset_request a) (spy_status a) (fep_status a) (guestStatus a) (pollTime a) v
    (clockTime a) (restart_applications a) (resetRequestCount a) (inhibitDisk a) (disk_log a) (signalLock a)
    (wakeupLock a) (clockLock a) (queues a) (channels a) (subtypes a) (diskStates a) (commands a)
    (diskCommands a) (signal_broadcasts a) (wakeup_broadcasts a) (clock_broadcasts a)
    (emulator_interrupts a).
Definition set_clockTime (v : Z) (a : EmbCommArea) : EmbCommArea :=
  MkEmbCommArea (guest_to_host_signals a) (live_guest_to_host_signals a) (host_to_guest_signals a)
    (live_host_to_guest_signals a) (reawaken a) (useSignalLocks a) (signalHandler a) (host_buffer_start a)
    (host_buffer_size a) (channel_table a) (command_channel a) (activeMBINChannel a) (clock_signal a)
    (clock_interval a) (reset_request a) (spy_status a) (fep_status a) (guestStatus a) (pollTime a)
    (pollClockTime a) v (restart_applications a) (resetRequestCount a) (inhibitDisk a) (disk_log a)
    (signalLock a) (wakeupLock a) (clockLock a) (queues a) (channels a) (subtypes a) (diskStates a)
    (commands a) (diskCommands a) (signal_broadcasts a) (wakeup_broadcasts a) (clock_broadcasts a)
    (emulator_interrupts a).
Definition set_restart_applications (v : Z) (a : EmbCommArea) : EmbCommArea :=
  MkEmbCommArea (guest_to_host_signals a) (live_guest_to_host_signals a) (host_to_guest_signals a)
    (live_host_to_guest_signals a) (reawaken a) (useSignalLocks a) (signalHandler a) (host_buffer_start a)
    (host_buffer_size a) (channel_table a) (command_channel a) (activeMBINChannel a) (clock_signal a)
    (clock_interval a) (reset_request a) (spy_status a) (fep_status a) (guestStatus a) (pollTime a)
    (pollClockTime a) (clockTime a) v (resetRequestCount a) (inhibitDisk a) (disk_log a) (signalLock a)
    (wakeupLock a) (clockLock a) (queues a) (channels a) (subtypes a) (diskStates a) (commands a)
    (diskCommands a) (signal_broadcasts a) (wakeup_broadcasts a) (clock_broadcasts a)
    (emulator_interrupts a).
Definition set_resetRequestCount (v : Z) (a : EmbCommArea) : EmbCommArea :=
  MkEmbCommArea (guest_to_host_signals a) (live_guest_to_host_signals a) (host_to_guest_signals a)
    (live_host_to_guest_signals a) (reawaken a) (useSignalLocks a) (signalHandler a) (host_buffer_start a)
    (host_buffer_size a) (channel_table a) (command_channel a) (activeMBINChannel a) (clock_signal a)
    (clock_interval a) (reset_request a) (spy_status a) (fep_status a) (guestStatus a) (pollTime a)
    (pollClockTime a) (clockTime a) (restart_applications a) v (inhibitDisk a) (disk_log a) (signalLock a)
    (wakeupLock a) (clockLock a) (queues a) (channels a) (subtypes a) (diskStates a) (commands a)
    (diskCommands a) (signal_broadcasts a) (wakeup_broadcasts a) (clock_broadcasts a)
    (emulator_interrupts a).
Definition set_inhibitDisk (v : bool) (a : EmbCommArea) : EmbCommArea :=
  MkEmbCommArea (guest_to_host_signals a) (live_guest_to_host_signals a) (host_to_guest_signals a)
    (live_host_to_guest_signals a) (reawaken a) (useSignalLocks a) (signalHandler a) (host_buffer_start a)
    (host_buffer_size a) (channel_table a) (command_channel a) (activeMBINChannel a) (clock_signal a)
    (clock_interval a) (reset_request a) (spy_status a) (fep_status a) (guestStatus a) (pollTime a)
    (pollClockTime a) (clockTime a) (restart_applications a) (resetRequestCount a) v (disk_log a)
    (signalLock a) (wakeupLock a) (clockLock a) (queues a) (channels a) (subtypes a) (diskStates a)
    (commands a) (diskCommands a) (signal_broadcasts a) (wakeup_broadcasts a) (clock_broadcasts a)
    (emulator_interrupts a).
Definition set_disk_log (v : list DiskRequest) (a : EmbCommArea) : EmbCommArea :=
  MkEmbCommArea (guest_to_host_signals a) (live_guest_to_host_signals a) (host_to_guest_signals a)
    (live_host_to_guest_signals a) (reawaken a) (useSignalLocks a) (signalHandler a) (host_buffer_start a)
    (host_buffer_size a) (channel_table a) (command_channel a) (activeMBINChannel a) (clock_signal a)
    (clock_interval a) (reset_request a) (spy_status a) (fep_status a) (guestStatus a) (pollTime a)
    (pollClockTime a) (clockTime a) (restart_applications a) (resetRequestCount a) (inhibitDisk a) v
    (signalLock a) (wakeupLock a) (clockLock a) (queues a) (channels a) (subtypes a) (diskStates a)
    (commands a) (diskCommands a) (signal_broadcasts a) (wakeup_broadcasts a) (clock_broadcasts a)
    (emulator_interrupts a).
Definition set_signalLock (v : bool) (a : EmbCommArea) : EmbCommArea :=
  MkEmbCommArea (guest_to_host_signals a) (live_guest_to_host_signals a) (host_to_guest_signals a)
    (live_host_to_guest_signals a) (reawaken a) (useSignalLocks a) (signalHandler a) (host_buffer_start a)
    (host_buffer_size a) (channel_table a) (command_channel a) (activeMBINChannel a) (clock_signal a)
    (clock_interval a) (reset_request a) (spy_status a) (fep_status a) (guestStatus a) (pollTime a)
    (pollClockTime a) (clockTime a) (restart_applications a) (resetRequestCount a) (inhibitDisk a)
    (disk_log a) v (wakeupLock a) (clockLock a) (queues a) (channels a) (subtypes a) (diskStates a)
    (commands a) (diskCommands a) (signal_broadcasts a) (wakeup_broadcasts a) (clock_broadcasts a)
    (emulator_interrupts a).
Definition set_wakeupLock (v : bool) (a : EmbCommArea) : EmbCommArea :=
  MkEmbCommArea (guest_to_host_signals a) (live_guest_to_host_signals a) (host_to_guest_signals a)
    (live_host_to_guest_signals a) (reawaken a) (useSignalLocks a) (signalHandler a) (host_buffer_start a)
    (host_buffer_size a) (channel_table a) (command_channel a) (activeMBINChannel a) (clock_signal a)
    (clock_interval a) (reset_request a) (spy_status a) (fep_status a) (guestStatus a) (pollTime a)
    (pollClockTime a) (clockTime a) (restart_applications a) (resetRequestCount a) (inhibitDisk a)
    (disk_log a) (signalLock a) v (clockLock a) (queues a) (channels a) (subtypes a) (diskStates a)
    (commands a) (diskCommands a) (signal_broadcasts a) (wakeup_broadcasts a) (clock_broadcasts a)
    (emulator_interrupts a).
Definition set_clockLock (v : bool) (a : EmbCommArea) : EmbCommArea :=
  MkEmbCommArea (guest_to_host_signals a) (live_guest_to_host_signals a) (host_to_guest_signals a)
    (live_host_to_guest_signals a) (reawaken a) (useSignalLocks a) (signalHandler a) (host_buffer_start a)
    (host_buffer_size a) (channel_table a) (command_channel a) (activeMBINChannel a) (clock_signal a)
    (clock_interval a) (reset_request a) (spy_status a) (fep_status a) (guestStatus a) (pollTime a)
    (pollClockTime a) (clockTime a) (restart_applications a) (resetRequestCount a) (inhibitDisk a)
    (disk_log a) (signalLock a) (wakeupLock a) v (queues a) (channels a) (subtypes a) (diskStates a)
    (commands a) (diskCommands a) (signal_broadcasts a) (wakeup_broadcasts a) (clock_broadcasts a)
    (emulator_interrupts a).
Definition set_queues (v : gmap Z (EmbQueue (list Z))) (a : EmbCommArea) : EmbCommArea :=
  MkEmbCommArea (guest_to_host_signals a) (live_guest_to_host_signals a) (host_to_guest_signals a)
    (live_host_to_guest_signals a) (reawaken a) (useSignalLocks a) (signalHandler a) (host_buffer_start a)
    (host_buffer_size a) (channel_table a) (command_channel a) (activeMBINChannel a) (clock_signal a)
    (clock_interval a) (reset_request a) (spy_status a) (fep_status a) (guestStatus a) (pollTime a)
    (pollClockTime a) (clockTime a) (restart_applications a) (resetRequestCount a) (inhibitDisk a)
    (disk_log a) (signalLock a) (wakeupLock a) (clockLock a) v (channels a) (subtypes a) (diskStates a)
    (commands a) (diskCommands a) (signal_broadcasts a) (wakeup_broadcasts a) (clock_broadcasts a)
    (emulator_interrupts a).
Definition set_channels (v : gmap Z EmbChannel) (a : EmbCommArea) : EmbCommArea :=
  MkEmbCommArea (guest_to_host_signals a) (live_guest_to_host_signals a) (host_to_guest_signals a)
    (live_host_to_guest_signals a) (reawaken a) (useSignalLocks a) (signalHandler a) (host_buffer_start a)
    (host_buffer_size a) (channel_table a) (command_channel a) (activeMBINChannel a) (clock_signal a)
    (clock_interval a) (reset_request a) (spy_status a) (fep_status a) (guestStatus a) (pollTime a)
    (pollClockTime a) (clockTime a) (restart_applications a) (resetRequestCount a) (inhibitDisk a)
    (disk_log a) (signalLock a) (wakeupLock a) (clockLock a) (queues a) v (subtypes a) (diskStates a)
    (commands a) (diskCommands a) (signal_broadcasts a) (wakeup_broadcasts a) (clock_broadcasts a)
    (emulator_interrupts a).
Definition set_subtypes (v : gmap Z SubtypeData) (a : EmbCommArea) : EmbCommArea :=
  MkEmbCommArea (guest_to_host_signals a) (live_guest_to_host_signals a) (host_to_guest_signals a)
    (live_host_to_guest_signals a) (reawaken a) (useSignalLocks a) (signalHandler a) (host_buffer_start a)
    (host_buffer_size a) (channel_table a) (command_channel a) (activeMBINChannel a) (clock_signal a)
    (clock_interval a) (reset_request a) (spy_status a) (fep_status a) (guestStatus a) (pollTime a)
    (pollClockTime a) (clockTime a) (restart_applications a) (resetRequestCount a) (inhibitDisk a)
    (disk_log a) (signalLock a) (wakeupLock a) (clockLock a) (queues a) (channels a) v (diskStates a)
    (commands a) (diskCommands a) (signal_broadcasts a) (wakeup_broadcasts a) (clock_broadcasts a)
    (emulator_interrupts a).
Definition set_diskStates (v : gmap Z DiskChannelState) (a : EmbCommArea) : EmbCommArea :=
  MkEmbCommArea (guest_to_host_signals a) (live_guest_to_host_signals a) (host_to_guest_signals a)
    (live_host_to_guest_signals a) (reawaken a) (useSignalLocks a) (signalHandler a) (host_buffer_start a)
    (host_buffer_size a) (channel_table a) (command_channel a) (activeMBINChannel a) (clock_signal a)
    (clock_interval a) (reset_request a) (spy_status a) (fep_status a) (guestStatus a) (pollTime a)
    (pollClockTime a) (clockTime a) (restart_applications a) (resetRequestCount a) (inhibitDisk a)
    (disk_log a) (signalLock a) (wakeupLock a) (clockLock a) (queues a) (channels a) (subtypes a) v
    (commands a) (diskCommands a) (signal_broadcasts a) (wakeup_broadcasts a) (clock_broadcasts a)
    (emulator_interrupts a).
Definition set_commands (v : gmap Z EmbCommandBuffer) (a : EmbCommArea) : EmbCommArea :=
  MkEmbCommArea (guest_to_host_signals a) (live_guest_to_host_signals a) (host_to_guest_signals a)
    (live_host_to_guest_signals a) (reawaken a) (useSignalLocks a) (signalHandler a) (host_buffer_start a)
    (host_buffer_size a) (channel_table a) (command_channel a) (activeMBINChannel a) (clock_signal a)
    (clock_interval a) (reset_request a) (spy_status a) (fep_status a) (guestStatus a) (pollTime a)
    (pollClockTime a) (clockTime a) (restart_applications a) (resetRequestCount a) (inhibitDisk a)
    (disk_log a) (signalLock a) (wakeupLock a) (clockLock a) (queues a) (channels a) (subtypes a)
    (diskStates a) v (diskCommands a) (signal_broadcasts a) (wakeup_broadcasts a) (clock_broadcasts a)
    (emulator_interrupts a).
Definition set_diskCommands (v : gmap Z EmbDiskQueueElement) (a : EmbCommArea) : EmbCommArea :=
  MkEmbCommArea (guest_to_host_signals a) (live_guest_to_host_signals a) (host_to_guest_signals a)
    (live_host_to_guest_signals a) (reawaken a) (useSignalLocks a) (signalHandler a) (host_buffer_start a)
    (host_buffer_size a) (channel_table a) (command_channel a) (activeMBINChannel a) (clock_signal a)
    (clock_interval a) (reset_request a) (spy_status a) (fep_status a) (guestStatus a) (pollTime a)
    (pollClockTime a) (clockTime a) (restart_applications a) (resetRequestCount a) (inhibitDisk a)
    (disk_log a) (signalLock a) (wakeupLock a) (clockLock a) (queues a) (channels a) (subtypes a)
    (diskStates a) (commands a) v (signal_broadcasts a) (wakeup_broadcasts a) (clock_broadcasts a)
    (emulator_interrupts a).
Definition set_signal_broadcasts (v : Z) (a : EmbCommArea) : EmbCommArea :=
  MkEmbCommArea (guest_to_host_signals a) (live_guest_to_host_signals a) (host_to_guest_signals a)
    (live_host_to_guest_signals a) (reawaken a) (useSignalLocks a) (signalHandler a) (host_buffer_start a)
    (host_buffer_size a) (channel_table a) (command_channel a) (activeMBINChannel a) (clock_signal a)
    (clock_interval a) (reset_request a) (spy_status a) (fep_status a) (guestStatus a) (pollTime a)
    (pollClockTime a) (clockTime a) (restart_applications a) (resetRequestCount a) (inhibitDisk a)
    (disk_log a) (signalLock a) (wakeupLock a) (clockLock a) (queues a) (channels a) (subtypes a)
    (diskStates a) (commands a) (diskCommands a) v (wakeup_broadcasts a) (clock_broadcasts a)
    (emulator_interrupts a).
Definition set_wakeup_broadcasts (v : Z) (a : EmbCommArea) : EmbCommArea :=
  MkEmbCommArea (guest_to_host_signals a) (live_guest_to_host_signals a) (host_to_guest_signals a)
    (live_host_to_guest_signals a) (reawaken a) (useSignalLocks a) (signalHandler a) (host_buffer_start a)
    (host_buffer_size a) (channel_table a) (command_channel a) (activeMBINChannel a) (clock_signal a)
    (clock_interval a) (reset_request a) (spy_status a) (fep_status a) (guestStatus a) (pollTime a)
    (pollClockTime a) (clockTime a) (restart_applications a) (resetRequestCount a) (inhibitDisk a)
    (disk_log a) (signalLock a) (wakeupLock a) (clockLock a) (queues a) (channels a) (subtypes a)
    (diskStates a) (commands a) (diskCommands a) (signal_broadcasts a) v (clock_broadcasts a)
    (emulator_interrupts a).
Definition set_clock_broadcasts (v : Z) (a : EmbCommArea) : EmbCommArea :=
  MkEmbCommArea (guest_to_host_signals a) (live_guest_to_host_signals a) (host_to_guest_signals a)
    (live_host_to_guest_signals a) (reawaken a) (useSignalLocks a) (signalHandler a) (host_buffer_start a)
    (host_buffer_size a) (channel_table a) (command_channel a) (activeMBINChannel a) (clock_signal a)
    (clock_interval a) (reset_request a) (spy_status a) (fep_status a) (guestStatus a) (pollTime a)
    (pollClockTime a) (clockTime a) (restart_applications a) (resetRequestCount a) (inhibitDisk a)
    (disk_log a) (signalLock a) (wakeupLock a) (clockLock a) (queues a) (channels a) (subtypes a)
    (diskStates a) (commands a) (diskCommands a) (signal_broadcasts a) (wakeup_broadcasts a) v
    (emulator_interrupts a).
Definition set_emulator_interrupts (v : Z) (a : EmbCommArea) : EmbCommArea :=
  MkEmbCommArea (guest_to_host_signals a) (live_guest_to_host_signals a) (host_to_guest_signals a)
    (live_host_to_guest_signals a) (reawaken a) (useSignalLocks a) (signalHandler a) (host_buffer_start a)
    (host_buffer_size a) (channel_table a) (command_channel a) (activeMBINChannel a) (clock_signal a)
    (clock_interval a) (reset_request a) (spy_status a) (fep_status a) (guestStatus a) (pollTime a)
    (pollClockTime a) (clockTime a) (restart_applications a) (resetRequestCount a) (inhibitDisk a)
    (disk_log a) (signalLock a) (wakeupLock a) (clockLock a) (queues a) (channels a) (subtypes a)
    (diskStates a) (commands a) (diskCommands a) (signal_broadcasts a) (wakeup_broadcasts a)
    (clock_broadcasts a) v.
