(* ===== verification/Signals.v ===== *)
(** Signals between the guest and the host: life-support/signals.c. A routine runs from the
    moment it has a lock to the moment it gives it up, so each is a state transformer; the
    threads are interleaved at those points. *)

From S2P Require Export LifeState.
#[local] Open Scope vlm_scope.

Abbreviation Life := (M EmbCommArea).

(** ** Locks and conditions *)

(** pthread_mutex_lock of a default mutex: undefined when the thread already holds it. *)
Definition mutex_lock (held : EmbCommArea -> bool) (set : bool -> EmbCommArea -> EmbCommArea) : Life unit :=
  h <- gets held ;; if (h : bool) then undefined else modify (set true).
Definition mutex_unlock (held : EmbCommArea -> bool) (set : bool -> EmbCommArea -> EmbCommArea) : Life unit :=
  h <- gets held ;; if (h : bool) then modify (set false) else undefined.

Definition lock_signals : Life unit := mutex_lock signalLock set_signalLock.
Definition unlock_signals : Life unit := mutex_unlock signalLock set_signalLock.

(** The lock of a routine that is also called during initialisation, when the lock is held. *)
Definition when_locking (m : Life unit) : Life unit := u <- gets useSignalLocks ;; when u m.

Definition broadcast_signals : Life unit := modify (fun a => set_signal_broadcasts (signal_broadcasts a + 1) a).
Definition broadcast_wakeup : Life unit := modify (fun a => set_wakeup_broadcasts (wakeup_broadcasts a + 1) a).
Definition SendInterruptToEmulator : Life unit :=
  modify (fun a => set_emulator_interrupts (emulator_interrupts a + 1) a).

(** [1 << i], as a SignalMask. *)
(* life-support/signals.c:51 signal *)
Definition signal_mask (i : Z) : Z := u32 (Z.shiftl 1 i).

Definition assign_handler (i : Z) (f : SignalHandler -> SignalHandler) : Life unit :=
  t <- gets signalHandler ;;
  h <- of_option (nth_Z t i) ;;
  modify (set_signalHandler (upd_Z t i (f h))).

(** ** The handler table *)

(* life-support/signals.c:16-34 InitializeSignalHandlers *)
Definition InitializeSignalHandlers : Life unit :=
  modify (set_guest_to_host_signals 0) ;;
  modify (set_live_guest_to_host_signals 0) ;;
  modify (set_host_to_guest_signals 0) ;;
  modify (set_live_host_to_guest_signals 0) ;;
  modify (set_reawaken 0) ;;
  modify (set_useSignalLocks false) ;;
  modify (set_signalHandler (replicate (Z.to_nat NSignals) (MkSignalHandler false 0 None None))).

(** The table entry of a new handler; a thread is created where there is none. *)
(* life-support/signals.c:53-86 signalHandler *)
Definition install_at (i : Z) (f : HandlerFunction) (arg : Z) : Life unit :=
  modify (fun a => set_live_guest_to_host_signals
                     (Z.lor (live_guest_to_host_signals a) (signal_mask i)) a) ;;
  assign_handler i (set_sh_signal (signal_mask i)) ;;
  assign_handler i (set_handlerFunction (Some f)) ;;
  assign_handler i (set_handlerArgument (Some arg)) ;;
  assign_handler i (set_handlerThreadSetup true).

(** [for (i = 0; i < NSignals; i++)]: the first signal that is not live, or [NSignals]. *)
(* life-support/signals.c:49-87 NSignals *)
Fixpoint install_loop (n : nat) (i : Z) (f : HandlerFunction) (arg : Z) : Life Z :=
  match n with
  | O => ret i
  | S n' =>
      live <- gets live_guest_to_host_signals ;;
      if Z.land live (signal_mask i) =? 0 then install_at i f arg ;; ret i
      else install_loop n' (i + 1) f arg
  end.

(** A full table ends the program. *)
(* life-support/signals.c:39-99 InstallSignalHandler *)
Definition InstallSignalHandler (f : HandlerFunction) (arg : Z) : Life Z :=
  when_locking lock_signals ;;
  i <- install_loop (Z.to_nat NSignals) 0 f arg ;;
  when_locking unlock_signals ;;
  if i <? NSignals then ret i else c_exit 1.

(* life-support/signals.c:104-108 SendInterruptToLifeSupport *)
Definition SendInterruptToLifeSupport : Life unit := broadcast_signals.

(** Called by the emulator with the trap mode of its control register; [true] when it goes to
    wait on the wakeup condition, for a second at most. *)
(* life-support/signals.c:115-162 WaitForLifeSupport *)
Definition WaitForLifeSupport (control : Z) : Life bool :=
  pending <- gets host_to_guest_signals ;;
  if negb (pending =? 0) && negb (Z.land (Z.shiftr control 30) 3 =? 3) then
    SendInterruptToEmulator ;; ret false
  else
    mutex_lock wakeupLock set_wakeupLock ;;
    mutex_unlock wakeupLock set_wakeupLock ;;
    ret true.

(* life-support/signals.c:169-194 EmbSendSignal *)
Definition EmbSendSignal (signal : Z) : Life unit :=
  mutex_lock wakeupLock set_wakeupLock ;;
  when ((-1 <? signal) && (signal <? NSignals))
    (modify (fun a => set_host_to_guest_signals (Z.lor (host_to_guest_signals a) (signal_mask signal)) a) ;;
     SendInterruptToEmulator) ;;
  broadcast_wakeup ;;
  mutex_unlock wakeupLock set_wakeupLock.

(** A shift by a count that is not a bit of an [int] is undefined. *)
(* life-support/signals.c:200-211 SignalLater *)
Definition SignalLater (signal : Z) : Life unit :=
  lock_signals ;;
  (if (0 <=? signal) && (signal <? NSignals)
   then modify (fun a => set_reawaken (Z.lor (reawaken a) (signal_mask signal)) a)
   else undefined) ;;
  unlock_signals.

(** The mask of a signal out of range is computed but not used. *)
(* life-support/signals.c:223-252 RemoveSignalHandler *)
Definition RemoveSignalHandler (signal : Z) : Life unit :=
  let mask := signal_mask signal in
  if (signal <? 0) || (NSignals <=? signal) then ret tt else
  when_locking lock_signals ;;
  modify (fun a => set_live_guest_to_host_signals (Z.ldiff (live_guest_to_host_signals a) mask) a) ;;
  modify (fun a => set_reawaken (Z.ldiff (reawaken a) mask) a) ;;
  modify (fun a => set_guest_to_host_signals (Z.lor (guest_to_host_signals a) mask) a) ;;
  t <- gets signalHandler ;;
  h <- of_option (nth_Z t signal) ;;
  when (handlerThreadSetup h)
    (assign_handler signal (set_handlerFunction (Some NullSignalHandler)) ;;
     assign_handler signal (set_handlerArgument None)) ;;
  when_locking unlock_signals.

(** Every handler thread is cancelled and joined. *)
(* life-support/signals.c:257-269 TerminateSignalHandlers *)
Definition TerminateSignalHandlers : Life unit :=
  modify (fun a => set_signalHandler (set_handlerThreadSetup false <$> signalHandler a) a).

(** One turn of the loop of a handler's thread, which holds the signal lock: the function it
    calls, with the lock released, or [None] when it waits for the signal condition. *)
(* life-support/signals.c:275-304 SignalHandlerTopLevel *)
Definition SignalHandlerTopLevel (i : Z) : Life (option (HandlerFunction * option Z)) :=
  t <- gets signalHandler ;;
  h <- of_option (nth_Z t i) ;;
  pending <- gets guest_to_host_signals ;;
  if negb (Z.land pending (sh_signal h) =? 0) then
    modify (set_guest_to_host_signals (Z.ldiff pending (sh_signal h))) ;;
    f <- of_option (handlerFunction h) ;;
    ret (Some (f, handlerArgument h))
  else ret None.
