(* ===== verification/MessageChannels.v ===== *)
(** Message channels and the host's queue routines on the communications area:
    life-support/message_channels.c. *)

From S2P Require Export Signals.
#[local] Open Scope vlm_scope.

(** ** Queues in the area *)

Definition queue_at (p : Z) : Life (EmbQueue (list Z)) := t <- gets queues ;; of_option (t !! p).
Definition put_queue_at (p : Z) (q : EmbQueue (list Z)) : Life unit :=
  modify (fun a => set_queues (<[p := q]> (queues a)) a).

Definition queue_space (p : Z) : Life Z := q <- queue_at p ;; ret (EmbQueueSpace q).
Definition queue_filled (p : Z) : Life Z := q <- queue_at p ;; ret (EmbQueueFilled q).

(** EmbQueueTakeWord while the other side does nothing. *)
Definition take_word (p : Z) : Life Z :=
  q <- queue_at p ;;
  r <- of_option (EmbQueueTakeWord q) ;;
  match r with
  | inl e => ret e
  | inr c =>
      match run_consumer 1 q c with
      | Some (q', [e]) => put_queue_at p q' ;; ret e
      | _ => undefined
      end
  end.

(** EmbQueuePutWord while the other side does nothing: a full queue is never left. *)
Definition put_word (p : Z) (e : Z) : Life unit :=
  q <- queue_at p ;;
  '(q1, c) <- of_option (EmbQueuePutWord q e) ;;
  match run_producer 3 q1 c with
  | Some (q2, (_, sent)) =>
      put_queue_at p q2 ;;
      match sent with Some n => EmbSendSignal n | None => ret tt end
  | None => out_of_fuel
  end.

(** ** Channels *)

Definition channel_at (p : Z) : Life EmbChannel := t <- gets channels ;; of_option (t !! p).
Definition message_channel_at (p : Z) : Life EmbMessageChannel :=
  c <- channel_at p ;;
  match channel_type c with EmbMessageChannelType m => ret m | _ => undefined end.
Definition assign_message_channel (p : Z) (f : EmbMessageChannel -> EmbMessageChannel) : Life unit :=
  c <- channel_at p ;;
  m <- message_channel_at p ;;
  modify (fun a => set_channels (<[p := set_channel_type (EmbMessageChannelType (f m)) c]> (channels a)) a).

(** The record that SubtypeData (channel) points to, with its address. *)
(* life-support/message_channels.c:21-22 SubtypeData *)
Definition SubtypeData_of (p : Z) : Life (Z * SubtypeData) :=
  m <- message_channel_at p ;;
  d <- of_option (subtypeData m) ;;
  t <- gets subtypes ;;
  s <- of_option (t !! d) ;;
  ret (d, s).
Definition assign_subtype (d : Z) (f : SubtypeData -> SubtypeData) : Life unit :=
  t <- gets subtypes ;;
  s <- of_option (t !! d) ;;
  modify (set_subtypes (<[d := f s]> t)).

Section channels.
(** What malloc returns for a subtype record, given the heap. *)
Context (malloc : gmap Z SubtypeData -> option Z).
(** A bound on the channels a traversal of the active list visits. *)
Context (fuel : nat).

(** *** The list of active channels *)

(* life-support/message_channels.c:72-80 messageChannel *)
Fixpoint poll_loop (n : nat) (p : option Z) : Life unit :=
  match p with
  | None => ret tt
  | Some p =>
      match n with
      | O => out_of_fuel
      | S n' =>
          m <- message_channel_at p ;;
          '(_, d) <- SubtypeData_of p ;;
          q <- queue_at (guestToHostQueue m) ;;
          when (negb (guestToHostImpulse m =? 0) && negb (signal q =? -1))
            (modify (fun a => set_guest_to_host_signals
                                (Z.lor (guest_to_host_signals a) (signal_mask (signal q))) a)) ;;
          poll_loop n' (nextActiveChannel d)
      end
  end.

(* life-support/message_channels.c:63-81 PollMessageChannels *)
Definition PollMessageChannels : Life unit :=
  c <- gets command_channel ;;
  if c =? NullEmbPtr then ret tt else poll_loop fuel (Some c).

(* life-support/message_channels.c:93-103 messageChannel *)
Fixpoint thread_loop (n : nat) (theChannel : Z) (p : option Z) : Life unit :=
  match p with
  | None => ret tt
  | Some p =>
      match n with
      | O => out_of_fuel
      | S n' =>
          '(h, d) <- SubtypeData_of p ;;
          match nextActiveChannel d with
          | None => assign_subtype h (set_nextActiveChannel (Some theChannel))
          | Some p' => thread_loop n' theChannel (Some p')
          end
      end
  end.

(* life-support/message_channels.c:86-104 ThreadActiveMessageChannel *)
Definition ThreadActiveMessageChannel (theChannel : Z) : Life unit :=
  '(h, _) <- SubtypeData_of theChannel ;;
  assign_subtype h (set_nextActiveChannel None) ;;
  c <- gets command_channel ;;
  thread_loop fuel theChannel (Some c).

(* life-support/message_channels.c:115-127 messageChannel *)
Fixpoint unthread_loop (n : nat) (theChannel : Z) (p : option Z) : Life unit :=
  match p with
  | None => ret tt
  | Some p =>
      match n with
      | O => out_of_fuel
      | S n' =>
          '(h, d) <- SubtypeData_of p ;;
          if bool_decide (nextActiveChannel d = Some theChannel) then
            '(h', d') <- SubtypeData_of theChannel ;;
            assign_subtype h (set_nextActiveChannel (nextActiveChannel d')) ;;
            assign_subtype h' (set_nextActiveChannel None)
          else unthread_loop n' theChannel (nextActiveChannel d)
      end
  end.

(* life-support/message_channels.c:109-128 UnthreadMessageChannel *)
Definition UnthreadMessageChannel (theChannel : Z) : Life unit :=
  c <- gets command_channel ;; unthread_loop fuel theChannel (Some c).

(** *** The command channel *)

(** The command channel at the guest pointer [cp], its two queues and its heap record at [cc]:
    what EmbCommAreaAlloc and malloc returned; the area starts zeroed. *)
(* life-support/message_channels.c:27-58 InitializeMessageChannels *)
Definition InitializeMessageChannels (cp queue return_queue : Z) (memory : list Z) : Life unit :=
  heap <- gets subtypes ;;
  next <- gets channel_table ;;
  modify (set_command_channel cp) ;;
  modify (set_channel_table cp) ;;
  cc <- (match malloc heap with Some cc => ret cc | None => c_exit 1 end) ;;
  modify (set_subtypes (<[cc := MkSubtypeData None cp queue return_queue NullEmbPtr NullEmbPtr]> heap)) ;;
  modify (fun a => set_channels (<[cp := MkEmbChannel (EmbMessageChannelType
    (MkEmbMessageChannel EmbMessageChannelCommandSubtype queue return_queue 0 NullEmbPtr NullEmbPtr 0
      (Some cc))) 0 next]> (channels a)) a) ;;
  put_queue_at queue (CreateQueue memory CommandQueueSize 4) ;;
  n <- InstallSignalHandler ExecuteGuestCommandsHandler cc ;;
  put_queue_at queue (set_signal n (CreateQueue memory CommandQueueSize 4)) ;;
  put_queue_at return_queue (CreateQueue memory CommandQueueSize 4).

Definition assign_command (p : Z) (f : EmbCommandBuffer -> EmbCommandBuffer) : Life unit :=
  t <- gets commands ;;
  b <- of_option (t !! p) ;;
  modify (set_commands (<[p := f b]> t)).

(** Activate a channel the guest created. *)
(* life-support/message_channels.c:158-185 EmbCommandBufferStartMBIN *)
Definition start_MBIN (command : Z) (chan : Z) : Life unit :=
  heap <- gets subtypes ;;
  match malloc heap with
  | None => assign_command command (set_resultCode ENOMEM)
  | Some h =>
      m <- message_channel_at chan ;;
      modify (set_subtypes (<[h := MkSubtypeData None chan (guestToHostQueue m)
        (guestToHostReturnQueue m) (hostToGuestQueue m) (hostToGuestSupplyQueue m)]> heap)) ;;
      assign_message_channel chan (set_subtypeData (Some h)) ;;
      ThreadActiveMessageChannel chan ;;
      modify (set_activeMBINChannel (Some h)) ;;
      n <- InstallSignalHandler SendMBINBuffersHandler h ;;
      q <- queue_at (guestToHostQueue m) ;;
      put_queue_at (guestToHostQueue m) (set_signal n q) ;;
      assign_command command (set_resultCode ESUCCESS)
  end.

(** One command taken from the queue. *)
(* life-support/message_channels.c:151-193 commandPtr *)
Definition execute_command (commandPtr resultsQueue : Z) : Life unit :=
  if commandPtr =? 0 then ret tt else
  t <- gets commands ;;
  b <- of_option (t !! commandPtr) ;;
  (if opcode b =? EmbCommandBufferStartMBIN then start_MBIN commandPtr (mbinChannel b)
   else assign_command commandPtr (set_resultCode EINVAL)) ;;
  put_word resultsQueue commandPtr.

(* life-support/message_channels.c:143-194 EmbQueueFilled *)
Definition guest_commands_turn (commandQueue resultsQueue : Z) (_ : unit) : Life (unit + unit) :=
  n <- queue_filled commandQueue ;;
  if n =? 0 then ret (inr tt) else
  space <- queue_space resultsQueue ;;
  if space =? 0 then
    q <- queue_at commandQueue ;; SignalLater (signal q) ;; ret (inr tt)
  else
    commandPtr <- take_word commandQueue ;;
    execute_command commandPtr resultsQueue ;;
    ret (inl tt).

(** The handler of the command channel, with its record at the heap address [cc]. *)
(* life-support/message_channels.c:133-195 ExecuteGuestCommands *)
Definition ExecuteGuestCommands (cc : Z) : Life unit :=
  t <- gets subtypes ;;
  d <- of_option (t !! cc) ;;
  loop fuel (guest_commands_turn (sd_guestToHostQueue d) (sd_guestToHostReturnQueue d)) tt.
End channels.

(** ** Reset *)

(** ResetIncomingQueue and ResetOutgoingQueue, applied to the queue at a guest pointer. *)
(* life-support/queues.c:399-409 RemoveSignalHandler *)
Definition reset_incoming (p : Z) : Life unit :=
  q <- queue_at p ;;
  start <- gets host_buffer_start ;; size <- gets host_buffer_size ;;
  let '(q', removed) := ResetIncomingQueue p start size q in
  match removed with Some n => RemoveSignalHandler n | None => ret tt end ;;
  put_queue_at p q'.
(* life-support/queues.c:415-420 ResetOutgoingQueue *)
Definition reset_outgoing (p : Z) : Life unit :=
  q <- queue_at p ;; put_queue_at p (ResetOutgoingQueue q).

(* life-support/message_channels.c:200-238 ResetMessageChannel *)
Definition ResetMessageChannel (p : Z) : Life unit :=
  start <- gets host_buffer_start ;; size <- gets host_buffer_size ;;
  let allocatedByVLM := start + size <? p in
  assign_message_channel p (set_guestToHostImpulse 0) ;;
  assign_message_channel p (set_hostToGuestImpulse 0) ;;
  '(h, _) <- SubtypeData_of p ;;
  assign_subtype h (set_nextActiveChannel None) ;;
  m <- message_channel_at p ;;
  (if subtype m =? EmbMessageChannelCommandSubtype then
     reset_incoming (guestToHostQueue m) ;;
     reset_outgoing (guestToHostReturnQueue m)
   else if subtype m =? EmbMessageChannelMBINSubtype then
     reset_incoming (guestToHostQueue m) ;;
     reset_outgoing (guestToHostReturnQueue m) ;;
     reset_incoming (hostToGuestSupplyQueue m) ;;
     reset_outgoing (hostToGuestQueue m) ;;
     active <- gets activeMBINChannel ;;
     when (allocatedByVLM && bool_decide (active = Some h)) (modify (set_activeMBINChannel None))
   else ret tt) ;;
  when allocatedByVLM
    (modify (fun a => set_subtypes (delete h (subtypes a)) a) ;;
     assign_message_channel p (set_subtypeData None)).
