(* ===== verification/Polling.v ===== *)
(** Periodic activities: the status of the guest, its reset requests and the polling thread
    (life-support/polling.c). *)

From S2P Require Export MessageChannels.
#[local] Open Scope vlm_scope.

(** ** The status of the guest *)

(* life-support/polling.c:22-25 VLMIsRunning *)
Definition VLMIsRunning (a : EmbCommArea) : bool :=
  (spy_status a =? 0) && negb (fep_status a =? HaltedFEPStatus).

(* life-support/polling.c:28-31 VLMIsRunningLisp *)
Definition VLMIsRunningLisp (a : EmbCommArea) : bool :=
  VLMIsRunning a && (fep_status a =? IdleFEPStatus).

(** The cold load window is told of the status; that is not modelled. *)
(* life-support/polling.c:34-69 UpdateVLMStatus *)
Definition UpdateVLMStatus (a : EmbCommArea) : EmbCommArea :=
  match guestStatus a with
  | NonexistentGuestStatus | BrokenGuestStatus => a
  | UninitializedGuestStatus | InitializingGuestStatus =>
      set_guestStatus (if VLMIsRunningLisp a then RunningGuestStatus
                       else if VLMIsRunning a then InitializedGuestStatus
                       else guestStatus a) a
  | InitializedGuestStatus | StartedGuestStatus =>
      set_guestStatus (if VLMIsRunningLisp a then RunningGuestStatus
                       else if VLMIsRunning a then guestStatus a
                       else InitializingGuestStatus) a
  | CrashedGuestStatus | RunningGuestStatus =>
      set_guestStatus (if VLMIsRunningLisp a then RunningGuestStatus
                       else if VLMIsRunning a then CrashedGuestStatus
                       else InitializingGuestStatus) a
  end.

(** ** Resets *)

Section polling.
Context (malloc : gmap Z SubtypeData -> option Z) (fuel : nat).
(** The reset routines of the consoles, networks and cold load streams. *)
Context (ResetConsoleChannel ResetNetworkChannel ResetColdLoadChannel : Z -> Life unit).
Context (ResetDiskChannel : Z -> Life unit).

(* life-support/polling.c:82-120 channel *)
Definition reset_channel (fullReset : bool) (p : Z) (c : EmbChannel) : Life unit :=
  match channel_type c with
  | EmbDiskChannelType _ => when fullReset (ResetDiskChannel p)
  | EmbConsoleChannelType => when fullReset (ResetConsoleChannel p)
  | EmbNetworkChannelType => when fullReset (ResetNetworkChannel p)
  | EmbColdLoadChannelType => ResetColdLoadChannel p
  | EmbMessageChannelType _ => when fullReset (ResetMessageChannel p)
  | _ => ret tt
  end.

(* life-support/polling.c:79-121 channelP *)
Fixpoint reset_loop (n : nat) (fullReset : bool) (p : Z) : Life unit :=
  if p =? NullEmbPtr then ret tt else
  match n with
  | O => out_of_fuel
  | S n' =>
      c <- channel_at p ;;
      reset_channel fullReset p c ;;
      c <- channel_at p ;;
      reset_loop n' fullReset (next_channel c)
  end.

(* life-support/polling.c:74-127 ResetCommArea *)
Definition ResetCommArea (fullReset : bool) : Life unit :=
  p <- gets channel_table ;; reset_loop fuel fullReset p.

(* life-support/polling.c:132-166 ProcessResetRequest *)
Definition ProcessResetRequest : Life unit :=
  r <- gets reset_request ;;
  match r with
  | FEPResetRequest => ResetCommArea false
  | LispResetRequest =>
      ResetCommArea true ;;
      modify (fun a => set_resetRequestCount (resetRequestCount a + 1) a) ;;
      modify (set_restart_applications 1)
  | _ => ret tt
  end ;;
  modify (set_reset_request NoResetRequest).

(** ** The polling thread *)

Definition OneSecond : Z := 1000000000. (* life-support/polling.c:12 OneSecond *)
Definition OneQuarterSecond : Z := 250000000. (* life-support/polling.c:13 OneQuarterSecond *)
Definition OneEighthSecond : Z := 125000000. (* life-support/polling.c:14 OneEighthSecond *)

(** Wake every handler, or those that asked to be called again. *)
(* life-support/polling.c:191-210 reawaken *)
Definition poll_signals : Life unit :=
  r <- gets reset_request ;;
  t <- gets pollTime ;;
  again <- gets reawaken ;;
  match r with
  | NoResetRequest =>
      if OneQuarterSecond <? t then
        modify (set_pollTime 0) ;;
        modify (fun a => set_guest_to_host_signals
                           (Z.lor (guest_to_host_signals a) (live_guest_to_host_signals a)) a) ;;
        broadcast_signals
      else if negb (again =? 0) then
        modify (fun a => set_guest_to_host_signals (Z.lor (guest_to_host_signals a) again) a) ;;
        modify (set_reawaken 0) ;;
        broadcast_signals
      else ret tt
  | _ => ProcessResetRequest
  end.

(** The interval clock, with the nanoseconds slept since the last turn. *)
(* life-support/polling.c:214-226 pollClockTime *)
Definition poll_clock (slept : Z) : Life unit :=
  i <- gets clock_interval ;;
  when (0 <? i)
    (modify (fun a => set_pollClockTime (pollClockTime a - slept) a) ;;
     t <- gets pollClockTime ;;
     when (t <=? 0)
       (n <- gets clock_signal ;; EmbSendSignal n ;;
        modify (set_pollClockTime (s32 (1000 * i))))).

(** One turn of the polling loop, after a sleep of [slept] nanoseconds; it returns the length of
    its own sleep. The sleep computed from the clock's interval is overwritten before use. *)
(* life-support/polling.c:183-244 pollingSleep *)
Definition IvoryLifePolling (slept : Z) : Life Z :=
  lock_signals ;;
  modify (fun a => set_pollTime (pollTime a + slept) a) ;;
  PollMessageChannels fuel ;;
  poll_signals ;;
  unlock_signals ;;
  poll_clock slept ;;
  modify UpdateVLMStatus ;;
  ret OneEighthSecond.

(** The interval timer: how long a turn of its loop waits, in seconds and nanoseconds, [None]
    for ever. *)
(* life-support/polling.c:277-281 OneSecond *)
Fixpoint split_seconds (n : nat) (sec nsec : Z) : option (Z * Z) :=
  match n with
  | O => None
  | S n' =>
      if OneSecond <=? nsec then split_seconds n' (sec + 1) (nsec - OneSecond) else Some (sec, nsec)
  end.

(* life-support/polling.c:273-292 clockTime *)
Definition timer_wait (a : EmbCommArea) : option (option (Z * Z)) :=
  if 0 <=? clockTime a then Some (split_seconds fuel 0 (1000 * clockTime a)) else None.

(** The end of the turn, under the clock lock: [timed_out] tells how the wait ended. *)
(* life-support/polling.c:294-298 ETIMEDOUT *)
Definition timer_turn (timed_out : bool) : Life unit :=
  when timed_out
    (n <- gets clock_signal ;; EmbSendSignal n ;; modify (set_clockTime (-1))).

(* life-support/polling.c:311-322 SetIntervalTimer *)
Definition SetIntervalTimer (relativeTimeout : Z) : Life unit :=
  mutex_lock clockLock set_clockLock ;;
  modify (set_clockTime relativeTimeout) ;;
  modify (fun a => set_clock_broadcasts (clock_broadcasts a + 1) a) ;;
  mutex_unlock clockLock set_clockLock.
End polling.
