(* ===== verification/Disks.v ===== *)
(** Disk channels: life-support/disks.c. The file system is a parameter: its answer to each
    call, given the calls made so far, which are kept in a log. *)

From S2P Require Export MessageChannels.
#[local] Open Scope vlm_scope.

Definition NIOVectors : Z := 32. (* life-support/embed.h:366 NIOVectors *)
Definition DiskPageSize : Z := 8192. (* life-support/disks.c:26 DiskPageSize *)
Definition RequestBlockSizeVersion : Z := 4711. (* life-support/disks.c:30 RequestBlockSizeVersion *)
Definition CreateIfNotFound : Z := 0. (* life-support/embed.h:422 CreateIfNotFound *)
Definition Type_HeaderI : Z := 3. (* emulator/aihead.h:15 Type_HeaderI *)
Definition Type_String : Z := 23. (* emulator/aihead.h:55 Type_String *)
Definition Array_LengthMask : Z := 32767. (* emulator/aihead.h:203 Array_LengthMask *)

(** What Lisp asks for, with the tag of the word of the file name; the result is what the
    routine returns. *)
(* life-support/embed.h:409-418 AttachDiskChannelRequest *)
Record AttachDiskChannelRequest := MkAttachDiskChannelRequest {
  diskChannel : Z;
  filename_tag : Z;
  filename : Z;
  ifNotFoundAction : Z;
  minimumLength : Z;
  blockSize : Z
}.

Section disks.
(** What the calls return: an error number as a negative integer, or the number of bytes. *)
Context (lseek : list DiskRequest -> Z -> Z -> Z).
Context (transfer : list DiskRequest -> bool -> Z -> Z -> list (Z * Z) -> Z).
(** The size of the file or a negative error number, and an error number or 0. *)
Context (fstat : list DiskRequest -> Z -> Z) (ftruncate : list DiskRequest -> Z -> Z -> Z).
(** A file descriptor or a negative error number. *)
Context (open : list DiskRequest -> list Z -> bool -> bool -> Z).
(** The words of the guest's memory, tag and data, which nothing here writes; the version of the
    communications area, which is set once; where malloc puts the state of a channel, and for
    which sizes it finds room. *)
Context (guest : Z -> option (Z * Z)) (version : Z) (malloc_state : option Z) (malloc_succeeds : Z -> bool).
Context (fuel : nat).

Definition log_request (r : DiskRequest) : Life unit :=
  modify (fun a => set_disk_log (disk_log a ++ [r]) a).

Definition disk_channel_at (p : Z) : Life EmbDiskChannel :=
  c <- channel_at p ;;
  match channel_type c with EmbDiskChannelType d => ret d | _ => undefined end.
Definition disk_state_at (h : Z) : Life DiskChannelState := t <- gets diskStates ;; of_option (t !! h).
Definition assign_disk_state (h : Z) (f : DiskChannelState -> DiskChannelState) : Life unit :=
  d <- disk_state_at h ;; modify (fun a => set_diskStates (<[h := f d]> (diskStates a)) a).
Definition disk_command_at (p : Z) : Life EmbDiskQueueElement := t <- gets diskCommands ;; of_option (t !! p).
Definition assign_disk_command (p : Z) (f : EmbDiskQueueElement -> EmbDiskQueueElement) : Life unit :=
  b <- disk_command_at p ;; modify (fun a => set_diskCommands (<[p := f b]> (diskCommands a)) a).

(** ** The transfer of one command *)

(** The lengths are of type size_t, their sum of type ssize_t. *)
Definition u64 (z : Z) : Z := z mod 2 ^ 64.
Definition s64 (z : Z) : Z := if u64 z <? 2 ^ 63 then u64 z else u64 z - 2 ^ 64.

(** The vectors of the next system call: at most [NIOVectors] of the address pairs, each made
    accessible first. *)
(* life-support/disks.c:385-398 nVectors *)
Definition io_vectors (nVectors : Z) (pairs : list (Z * Z)) : option (list (Z * Z)) :=
  let n := Z.to_nat nVectors in
  if (n <=? length pairs)%nat
  then Some ((fun '(address, n_words) => (address, u64 (n_words * 4))) <$> firstn n pairs) else None.

(* life-support/disks.c:391-395 nBytes *)
Definition total_bytes (iovs : list (Z * Z)) : Z := s64 (foldr (fun v n => v.2 + n) 0 iovs).

(** One turn of the loop over the address pairs, at the file offset [offset]; the state of the
    loop is the number of pairs left, the pairs, and the offset. *)
(* life-support/disks.c:383-440 nAddresses *)
Definition io_turn (write : bool) (fd : Z) (l : Z * list (Z * Z) * Z) : Life (Z * list (Z * Z) * Z + Z) :=
  let '(nAddresses, pairs, offset) := l in
  if nAddresses <=? 0 then ret (inr 0) else
  let nVectors := if NIOVectors <? nAddresses then NIOVectors else nAddresses in
  iovs <- of_option (io_vectors nVectors pairs) ;;
  let nBytes := total_bytes iovs in
  log <- gets disk_log ;;
  log_request (DiskTransfer write fd offset iovs) ;;
  let actualBytes := transfer log write fd offset iovs in
  if actualBytes <? 0 then ret (inr (- actualBytes))
  else if negb (actualBytes =? nBytes) then ret (inr EINTR)
  else ret (inl (nAddresses - nVectors, skipn (Z.to_nat nVectors) pairs, offset + actualBytes)).

(** The page check adds two 32-bit integers. *)
(* life-support/disks.c:363-443 DoDiskIO *)
Definition DoDiskIO (channel : EmbDiskChannel) (state : DiskChannelState) (b : EmbDiskQueueElement)
    (write : bool) : Life Z :=
  if (page b <? 0) || (number_of_pages channel <? s32 (page b + count b)) then ret EINVAL else
  let startingOffset := page b * blocksize channel in
  log <- gets disk_log ;;
  log_request (DiskSeek (fd state) startingOffset) ;;
  let r := lseek log (fd state) startingOffset in
  if r <? 0 then ret (- r)
  else loop fuel (io_turn write (fd state)) (n_addresses b, addresses b, startingOffset).

(** ** Commands *)

(** A read or a write. *)
(* life-support/disks.c:316-336 ReadCmd *)
Definition read_or_write (channel : EmbDiskChannel) (h : Z) (commandPtr : Z) (write : bool) : Life unit :=
  d <- disk_state_at h ;;
  if error_pending d then assign_disk_command commandPtr (set_status AbortStatus)
  else if fd d =? -1 then
    assign_disk_command commandPtr (set_status LostStatus) ;;
    assign_disk_command commandPtr (set_error_code ENXIO)
  else
    b <- disk_command_at commandPtr ;;
    e <- DoDiskIO channel d b write ;;
    assign_disk_command commandPtr (set_error_code e) ;;
    if e =? 0 then assign_disk_command commandPtr (set_status WonStatus)
    else
      assign_disk_command commandPtr (set_status LostStatus) ;;
      assign_disk_state h (set_error_pending true).

(* life-support/disks.c:302-354 command *)
Definition execute_disk_command (channel : EmbDiskChannel) (h : Z) (commandPtr : Z) : Life unit :=
  b <- disk_command_at commandPtr ;;
  match cmd b with
  | WriteCmd =>
      if read_only channel then
        assign_disk_command commandPtr (set_status LostStatus) ;;
        assign_disk_command commandPtr (set_error_code EROFS)
      else read_or_write channel h commandPtr true
  | ReadCmd => read_or_write channel h commandPtr false
  | ResetCmd | InitializeCmd =>
      assign_disk_state h (set_error_pending false) ;;
      assign_disk_command commandPtr (set_status WonStatus)
  | OtherCmd _ =>
      assign_disk_command commandPtr (set_status LostStatus) ;;
      assign_disk_command commandPtr (set_error_code ENXIO)
  end.

(* life-support/disks.c:285-357 commandQueue *)
Definition disk_life_turn (p h : Z) (_ : unit) : Life (unit + unit) :=
  d <- disk_state_at h ;;
  n <- queue_filled (command_queue_ptr d) ;;
  if n =? 0 then ret (inr tt) else
  inhibited <- gets inhibitDisk ;;
  space <- queue_space (status_queue_ptr d) ;;
  if (inhibited : bool) || (space =? 0) then
    q <- queue_at (command_queue_ptr d) ;; SignalLater (signal q) ;; ret (inr tt)
  else
    commandPtr <- take_word (command_queue_ptr d) ;;
    when (negb (commandPtr =? 0))
      (c <- disk_channel_at p ;;
       execute_disk_command c h commandPtr ;;
       put_word (status_queue_ptr d) commandPtr) ;;
    ret (inl tt).

(* life-support/disks.c:277-358 DiskLife *)
Definition DiskLife (p : Z) : Life unit :=
  c <- disk_channel_at p ;;
  h <- of_option (hostState c) ;;
  loop fuel (disk_life_turn p h) tt.

(** ** Channels *)

(** A negative length from Lisp counts blocks. *)
(* life-support/disks.c:189-193 sizeInBytes *)
Definition size_in_bytes (newLength : Z) : Z := if newLength <? 0 then - newLength * DiskPageSize else newLength.

(** The result of the request: an error number. *)
(* life-support/disks.c:183-231 GrowDiskPartition *)
Definition GrowDiskPartition (p newLength : Z) : Life Z :=
  c <- disk_channel_at p ;;
  h <- of_option (hostState c) ;;
  d <- disk_state_at h ;;
  if fd d =? -1 then ret EINVAL else
  log <- gets disk_log ;;
  let size := fstat log (fd d) in
  if size <? 0 then ret (- size) else
  let wanted := size_in_bytes newLength in
  grown <- (if size <? wanted then
              log_request (DiskTruncate (fd d) wanted) ;;
              let e := ftruncate log (fd d) wanted in
              ret (if e =? 0 then inl wanted else inr e)
            else ret (inl size)) ;;
  match grown with
  | inr e => ret e
  | inl size =>
      if blocksize c =? 0 then undefined else
      let pages := s32 (Z.quot size (blocksize c)) in
      b <- channel_at p ;;
      modify (fun a => set_channels
        (<[p := set_channel_type (EmbDiskChannelType (set_number_of_pages pages c)) b]> (channels a)) a) ;;
      ret ESUCCESS
  end.

Definition put_disk_channel (p : Z) (c : EmbDiskChannel) : Life unit :=
  b <- channel_at p ;;
  modify (fun a => set_channels (<[p := set_channel_type (EmbDiskChannelType c) b]> (channels a)) a).

(** In bytes; asked for in words. *)
(* life-support/disks.c:70-77 blocksize *)
Definition attach_blocksize (request : AttachDiskChannelRequest) : Z :=
  if (version =? RequestBlockSizeVersion) && (0 <? blockSize request) && (blockSize request <=? 4096)
  then blockSize request * 4 else 2048 * 4.

(** The bytes of [n] words. *)
Fixpoint guest_bytes (n : nat) (vma : Z) : option (list Z) :=
  match n with
  | O => Some []
  | S n' =>
      match guest vma, guest_bytes n' (u32 (vma + 1)) with
      | Some (_, d), Some l => Some (u8 d :: u8 (Z.shiftr d 8) :: u8 (Z.shiftr d 16) :: u8 (Z.shiftr d 24) :: l)
      | _, _ => None
      end
  end.
(** The name, a simple string of Lisp, or an error number. *)
(* life-support/disks.c:78-114 filenameHeader *)
Definition attach_filename (request : AttachDiskChannelRequest) : Life (Z + list Z) :=
  if negb (filename_tag request =? Type_String) then ret (inl EINVAL) else
  '(tag, data) <- of_option (guest (u32 (filename request))) ;;
  if negb (Z.land tag 0x3F =? Type_HeaderI) then ret (inl EINVAL) else
  if negb (Z.ldiff data Array_LengthMask =? 0x50000000) then ret (inl EINVAL) else
  let filenameSize := Z.land data Array_LengthMask in
  if negb (malloc_succeeds (filenameSize + 1)) then ret (inl ENOMEM) else
  bytes <- of_option (guest_bytes (Z.to_nat ((filenameSize + 3) / 4)) (u32 (filename request + 1))) ;;
  ret (inr (firstn (Z.to_nat filenameSize) bytes ++ [0])).

(** The file grows to the size asked for, if any; its size then, or an error number. *)
(* life-support/disks.c:147-165 sizeInBytes *)
Definition attach_size (f size : Z) (request : AttachDiskChannelRequest) : Life (Z + Z) :=
  let wanted := size_in_bytes (minimumLength request) in
  if negb (minimumLength request =? 0) && (size <? wanted) then
    log <- gets disk_log ;;
    log_request (DiskTruncate f wanted) ;;
    let e := ftruncate log f wanted in
    ret (if e =? 0 then inr wanted else inl e)
  else ret (inr size).

(** The channel joins the list of channels, and its queue gets a signal. *)
(* life-support/disks.c:168-174 channel_table *)
Definition link_channel (request : AttachDiskChannelRequest) (h size : Z) : Life unit :=
  let p := diskChannel request in
  c <- disk_channel_at p ;;
  put_disk_channel p (set_number_of_pages (s32 (Z.quot size (blocksize c))) c) ;;
  first <- gets channel_table ;;
  b <- channel_at p ;;
  modify (fun a => set_channels (<[p := set_next_channel first b]> (channels a)) a) ;;
  modify (set_channel_table p) ;;
  signal <- InstallSignalHandler DiskLifeHandler p ;;
  d <- disk_state_at h ;;
  q <- queue_at (command_queue_ptr d) ;;
  put_queue_at (command_queue_ptr d) (set_signal signal q).

(** The result of the request: an error number. *)
(* life-support/disks.c:42-177 AttachDiskChannel *)
Definition AttachDiskChannel (request : AttachDiskChannelRequest) : Life Z :=
  let p := diskChannel request in
  c <- disk_channel_at p ;;
  match malloc_state with
  | None => ret ENOMEM
  | Some h =>
      put_disk_channel p (set_hostState (Some h) c) ;;
      let d := MkDiskChannelState (command_queue c) (status_queue c) false (-1) (attach_blocksize request) in
      modify (fun a => set_diskStates (<[h := d]> (diskStates a)) a) ;;
      c <- disk_channel_at p ;;
      put_disk_channel p (set_blocksize (attach_blocksize request) c) ;;
      name <- attach_filename request ;;
      match name with
      | inl e => ret e
      | inr name =>
          let create := ifNotFoundAction request =? CreateIfNotFound in
          log <- gets disk_log ;;
          log_request (DiskOpen name (read_only c) create) ;;
          let f := open log name (read_only c) create in
          if f <? 0 then ret (- f) else
          assign_disk_state h (set_fd f) ;;
          log <- gets disk_log ;;
          let size := fstat log f in
          if size <? 0 then log_request (DiskClose f) ;; ret (- size) else
          size <- attach_size f size request ;;
          match size with
          | inl e => log_request (DiskClose f) ;; ret e
          | inr size => link_channel request h size ;; ret ESUCCESS
          end
      end
  end.

(* life-support/disks.c:474-483 TerminateDiskChannel *)
Definition close_disk (h : Z) : Life unit :=
  d <- disk_state_at h ;;
  when (negb (fd d =? -1)) (log_request (DiskClose (fd d)) ;; assign_disk_state h (set_fd (-1))).

(* life-support/disks.c:448-468 ResetDiskChannel *)
Definition ResetDiskChannel (p : Z) : Life unit :=
  c <- disk_channel_at p ;;
  h <- of_option (hostState c) ;;
  d <- disk_state_at h ;;
  reset_incoming (command_queue_ptr d) ;;
  reset_outgoing (status_queue_ptr d) ;;
  assign_disk_state h (set_error_pending false) ;;
  start <- gets host_buffer_start ;; size <- gets host_buffer_size ;;
  when (start + size <? p) (close_disk h).

(** The list of channels after [p], without [q]. *)
(* life-support/disks.c:259-271 channelPtr *)
Fixpoint unlink_loop (n : nat) (q : Z) (prev p : Z) : Life unit :=
  if p =? NullEmbPtr then ret tt else
  match n with
  | O => out_of_fuel
  | S n' =>
      if q =? p then
        c <- channel_at q ;;
        if prev =? NullEmbPtr then modify (set_channel_table (next_channel c))
        else
          b <- channel_at prev ;;
          modify (fun a => set_channels (<[prev := set_next_channel (next_channel c) b]> (channels a)) a)
      else
        c <- channel_at p ;; unlink_loop n' q p (next_channel c)
  end.

(* life-support/disks.c:237-272 DetachDiskChannel *)
Definition DetachDiskChannel (p : Z) : Life unit :=
  c <- disk_channel_at p ;;
  h <- of_option (hostState c) ;;
  d <- disk_state_at h ;;
  q <- queue_at (command_queue_ptr d) ;;
  RemoveSignalHandler (signal q) ;;
  q <- queue_at (command_queue_ptr d) ;;
  put_queue_at (command_queue_ptr d) (set_signal (-1) q) ;;
  close_disk h ;;
  first <- gets channel_table ;;
  unlink_loop fuel p NullEmbPtr first.

(** Every disk channel's file is closed. *)
(* life-support/disks.c:493-499 channel *)
Fixpoint terminate_loop (n : nat) (p : Z) : Life unit :=
  if p =? NullEmbPtr then ret tt else
  match n with
  | O => out_of_fuel
  | S n' =>
      c <- channel_at p ;;
      match channel_type c with
      | EmbDiskChannelType d => h <- of_option (hostState d) ;; close_disk h
      | _ => ret tt
      end ;;
      terminate_loop n' (next_channel c)
  end.

(* life-support/disks.c:488-500 TerminateDiskChannels *)
Definition TerminateDiskChannels : Life unit :=
  first <- gets channel_table ;; terminate_loop fuel first.
End disks.
