(* ===== verification/SignalSpec.v ===== *)
(** The signal table of Life Support: allocation of signals, delivery to the handlers' threads,
    removal, and the status of the guest. *)

From S2P Require Export Polling.
#[local] Open Scope vlm_scope.

(** ** Masks *)

Lemma signal_mask_testbit i j : 0 <= i < 32 -> 0 <= j -> Z.testbit (signal_mask i) j = (j =? i).
Proof.
  intros Hi Hj. unfold signal_mask. rewrite u32_testbit, Z.shiftl_spec by lia.
  destruct (Z.eqb_spec j i) as [->|].
  - rewrite Z.sub_diag. destruct (Z.ltb_spec i 32); [done|lia].
  - destruct (Z.ltb_spec j 32); [|done]. destruct (decide (j < i)).
    + by rewrite Z.testbit_neg_r by lia.
    + apply (testbit_above 1 1); lia.
Qed.

Lemma land_signal_mask z i : 0 <= i < 32 -> (Z.land z (signal_mask i) =? 0) = negb (Z.testbit z i).
Proof.
  intros Hi. assert (forall j, 0 <= j -> Z.testbit (Z.land z (signal_mask i)) j = (j =? i) && Z.testbit z i) as E.
  { intros j Hj. rewrite Z.land_spec, signal_mask_testbit by lia.
    destruct (Z.eqb_spec j i) as [->|]; [by rewrite andb_true_r|by rewrite andb_false_r]. }
  destruct (Z.testbit z i) eqn:B; simpl.
  - apply Z.eqb_neq. intros E0. specialize (E i ltac:(lia)). rewrite E0, Z.bits_0, Z.eqb_refl in E. done.
  - apply Z.eqb_eq. bits_ext j Hj. rewrite E, andb_false_r, Z.bits_0 by lia. done.
Qed.

Lemma lor_signal_mask z i j : 0 <= i < 32 -> 0 <= j ->
  Z.testbit (Z.lor z (signal_mask i)) j = Z.testbit z j || (j =? i).
Proof. intros. by rewrite Z.lor_spec, signal_mask_testbit. Qed.
Lemma ldiff_signal_mask z i j : 0 <= i < 32 -> 0 <= j ->
  Z.testbit (Z.ldiff z (signal_mask i)) j = Z.testbit z j && negb (j =? i).
Proof. intros. by rewrite Z.ldiff_spec, signal_mask_testbit. Qed.

(** ** Running the routines *)

Lemma run_assign_handler i f h a :
  nth_Z (signalHandler a) i = Some h ->
  assign_handler i f a = (Ok tt, set_signalHandler (upd_Z (signalHandler a) i (f h)) a).
Proof. intros E. unfold assign_handler. rewrite run_bind_gets, E. done. Qed.

Lemma run_lock held set a : held a = false -> mutex_lock held set a = (Ok tt, set true a).
Proof. intros E. unfold mutex_lock. by rewrite run_bind_gets, E. Qed.
Lemma run_unlock held set a : held a = true -> mutex_unlock held set a = (Ok tt, set false a).
Proof. intros E. unfold mutex_unlock. by rewrite run_bind_gets, E. Qed.

(** The table after the handler [f] with the argument [arg] has taken the signal [i]. *)
Definition installed (i : Z) (f : HandlerFunction) (arg : Z) (a : EmbCommArea) : EmbCommArea :=
  set_signalHandler (upd_Z (signalHandler a) i (MkSignalHandler true (signal_mask i) (Some f) (Some arg)))
    (set_live_guest_to_host_signals (Z.lor (live_guest_to_host_signals a) (signal_mask i)) a).

Lemma run_install_at i f arg a :
  is_Some (nth_Z (signalHandler a) i) -> install_at i f arg a = (Ok tt, installed i f arg a).
Proof.
  intros [h E]. unfold install_at, installed. pose proof (nth_Z_bounds _ _ _ E).
  erewrite bind_Ok by reflexivity.
  erewrite bind_Ok by (by apply run_assign_handler). simpl.
  do 2 (erewrite bind_Ok by (apply run_assign_handler; simpl; rewrite nth_upd_eq by done; reflexivity);
        cbn [set_signalHandler signalHandler]; rewrite upd_Z_twice).
  erewrite run_assign_handler by (simpl; rewrite nth_upd_eq by done; reflexivity).
  cbn [set_signalHandler signalHandler]. rewrite upd_Z_twice. by destruct h, a.
Qed.

(** ** The signal table *)

(** Every live signal has a handler, whose thread exists and waits for that signal. *)
Record signal_table (a : EmbCommArea) : Prop := {
  table_length : length (signalHandler a) = 32%nat;
  table_live i : 0 <= i < 32 -> Z.testbit (live_guest_to_host_signals a) i = true ->
    exists f arg, nth_Z (signalHandler a) i = Some (MkSignalHandler true (signal_mask i) (Some f) arg)
}.

Lemma table_entry a i : signal_table a -> 0 <= i < 32 -> is_Some (nth_Z (signalHandler a) i).
Proof. intros [L _] Hi. apply nth_Z_is_Some, in_bounds_spec. lia. Qed.

Lemma signal_table_installed i f arg a :
  signal_table a -> 0 <= i < 32 -> signal_table (installed i f arg a).
Proof.
  intros [L H] Hi. constructor; [by simpl; rewrite upd_Z_length|]. intros j Hj Hl. simpl in *.
  destruct (Z.eq_dec j i) as [->|Hne].
  - exists f, (Some arg). apply nth_upd_eq. lia.
  - rewrite nth_upd_ne by done. apply H; [done|].
    rewrite lor_signal_mask in Hl by lia. by apply Z.eqb_neq in Hne; rewrite Hne, orb_false_r in Hl.
Qed.

Lemma run_install_loop n : forall i f arg a,
  signal_table a -> 0 <= i -> i + Z.of_nat n = 32 ->
  (exists k, i <= k < 32 /\ Z.testbit (live_guest_to_host_signals a) k = false /\
     (forall j, i <= j < k -> Z.testbit (live_guest_to_host_signals a) j = true) /\
     install_loop n i f arg a = (Ok k, installed k f arg a)) \/
  ((forall j, i <= j < 32 -> Z.testbit (live_guest_to_host_signals a) j = true) /\
   install_loop n i f arg a = (Ok 32, a)).
Proof.
  induction n as [|n IH]; intros i f arg a T Hi Hn.
  { right. split; [intros; lia|]. simpl. unfold ret. do 2 f_equal. lia. }
  cbn [install_loop]. rewrite run_bind_gets, land_signal_mask by lia.
  destruct (Z.testbit (live_guest_to_host_signals a) i) eqn:Ei; cbn [negb].
  - destruct (IH (i + 1) f arg a T ltac:(lia) ltac:(lia)) as [(k & K1 & K2 & K3 & K4)|(A & K4)].
    + left. exists k. split; [lia|]. split; [done|]. split; [|done].
      intros j Hj. destruct (Z.eq_dec j i) as [->|]; [done|]. apply K3. lia.
    + right. split; [|done]. intros j Hj. destruct (Z.eq_dec j i) as [->|]; [done|]. apply A. lia.
  - left. exists i. split; [lia|]. split; [done|]. split; [intros; lia|].
    erewrite bind_Ok by (apply run_install_at, table_entry; [done|lia]). done.
Qed.

(** The routines that take the lock themselves can. *)
Definition unlocked (a : EmbCommArea) : Prop := useSignalLocks a = true -> signalLock a = false.

Lemma run_when_locking m a :
  useSignalLocks a = false -> when_locking m a = (Ok tt, a).
Proof. intros E. unfold when_locking. by rewrite run_bind_gets, E. Qed.
Lemma run_when_locking_true m a :
  useSignalLocks a = true -> when_locking m a = m a.
Proof. intros E. unfold when_locking. by rewrite run_bind_gets, E. Qed.

(** A critical section that keeps the lock and the flag, between the two lock calls. *)
Lemma run_locked {A B} (m : Life A) (k : A -> Life B) a r f :
  unlocked a -> (forall b, useSignalLocks (f b) = useSignalLocks b /\ signalLock (f b) = signalLock b) ->
  (forall l, f (set_signalLock l a) = set_signalLock l (f a)) ->
  (forall l, m (set_signalLock l a) = (Ok r, f (set_signalLock l a))) ->
  (when_locking lock_signals ;; x <- m ;; when_locking unlock_signals ;; k x) a = k r (f a).
Proof.
  intros U F C E. destruct (useSignalLocks a) eqn:Eu.
  - erewrite bind_Ok by (rewrite run_when_locking_true by done; by apply run_lock, U).
    erewrite bind_Ok by apply E.
    erewrite bind_Ok by (rewrite run_when_locking_true by (by destruct (F (set_signalLock true a)) as [-> _]);
      apply run_unlock; by destruct (F (set_signalLock true a)) as [_ ->]).
    rewrite C. f_equal. pose proof (U Eu) as El. destruct (F a) as [_ Fl]. rewrite El in Fl.
    destruct (f a). simpl in *. by rewrite Fl.
  - erewrite bind_Ok by (by apply run_when_locking).
    assert (m a = (Ok r, f a)) as Em.
    { specialize (E (signalLock a)). by destruct a. }
    erewrite bind_Ok by exact Em.
    erewrite bind_Ok by (apply run_when_locking; by destruct (F a) as [-> _]). done.
Qed.

(** The lowest signal that is not live is installed. *)
Lemma run_InstallSignalHandler i f arg a :
  signal_table a -> unlocked a -> 0 <= i < 32 -> Z.testbit (live_guest_to_host_signals a) i = false ->
  (forall j, 0 <= j < i -> Z.testbit (live_guest_to_host_signals a) j = true) ->
  InstallSignalHandler f arg a = (Ok i, installed i f arg a).
Proof.
  intros T U I1 I2 I3. unfold InstallSignalHandler. rewrite (run_locked _ _ a i (installed i f arg)); try done.
  - destruct (Z.ltb_spec i NSignals); [done|unfold NSignals in *; lia].
  - intros l. destruct (run_install_loop 32 0 f arg (set_signalLock l a)) as [(j & J1 & J2 & J3 & Ej)|(J1 & _)]; [by destruct T|lia|lia| |].
    + simpl in J2, J3. assert (j = i) as ->; [|exact Ej].
      destruct (Z.lt_trichotomy i j) as [|[|]]; [|done|].
      * rewrite J3 in I2 by lia. done.
      * rewrite I3 in J2 by lia. done.
    + simpl in J1. rewrite J1 in I2 by lia. done.
Qed.

(** C30. InstallSignalHandler takes the lowest signal that is not live, makes it live and gives its
    entry the handler and a thread, leaving the other entries and the locks as they were;
    with all 32 signals live it ends the program. *)
Theorem InstallSignalHandler_correct f arg a :
  signal_table a -> unlocked a ->
  (exists i, 0 <= i < 32 /\ Z.testbit (live_guest_to_host_signals a) i = false /\
     (forall j, 0 <= j < i -> Z.testbit (live_guest_to_host_signals a) j = true) /\
     InstallSignalHandler f arg a = (Ok i, installed i f arg a) /\ signal_table (installed i f arg a)) \/
  ((forall j, 0 <= j < 32 -> Z.testbit (live_guest_to_host_signals a) j = true) /\
   InstallSignalHandler f arg a = (Exited 1, a)).
Proof.
  intros T U. destruct (run_install_loop 32 0 f arg a T ltac:(lia) ltac:(lia)) as [(i & I1 & I2 & I3 & E)|(I1 & E)].
  - left. exists i. do 3 (split; [done|]). split; [|by apply signal_table_installed]. by apply run_InstallSignalHandler.
  - right. split; [done|]. unfold InstallSignalHandler.
    rewrite (run_locked _ _ a 32 (fun a => a)); try done.
    intros l. destruct (run_install_loop 32 0 f arg (set_signalLock l a)) as [(j & J1 & J2 & J3 & Ej)|(J1 & Ej)]; [by destruct T|lia|lia| |exact Ej].
    simpl in J2. rewrite I1 in J2 by lia. done.
Qed.

(** ** Delivery *)

Lemma run_handler_turn a i f arg :
  0 <= i < 32 -> nth_Z (signalHandler a) i = Some (MkSignalHandler true (signal_mask i) (Some f) arg) ->
  SignalHandlerTopLevel i a =
  if Z.testbit (guest_to_host_signals a) i
  then (Ok (Some (f, arg)), set_guest_to_host_signals (Z.ldiff (guest_to_host_signals a) (signal_mask i)) a)
  else (Ok None, a).
Proof.
  intros Hi E. unfold SignalHandlerTopLevel. rewrite run_bind_gets.
  rewrite (run_bind_option _ _ _ _ E), run_bind_gets. cbn [sh_signal].
  rewrite land_signal_mask by done. by destruct (Z.testbit _ i).
Qed.

Definition no_reset (a : EmbCommArea) : Prop := reset_request a = NoResetRequest.

Lemma run_poll_signals fuel rc rn rl rd a : no_reset a ->
  exists g t r b, poll_signals fuel rc rn rl rd a =
    (Ok tt, set_guest_to_host_signals g (set_pollTime t (set_reawaken r (set_signal_broadcasts b a)))) /\
    (OneQuarterSecond < pollTime a -> forall i, 0 <= i < 32 ->
       Z.testbit g i = Z.testbit (guest_to_host_signals a) i || Z.testbit (live_guest_to_host_signals a) i) /\
    (pollTime a <= OneQuarterSecond -> forall i, 0 <= i < 32 ->
       Z.testbit g i = Z.testbit (guest_to_host_signals a) i || Z.testbit (reawaken a) i).
Proof.
  intros N. unfold poll_signals. rewrite !run_bind_gets, N.
  destruct (Z.ltb_spec OneQuarterSecond (pollTime a)).
  - exists (Z.lor (guest_to_host_signals a) (live_guest_to_host_signals a)), 0, (reawaken a),
      (signal_broadcasts a + 1). split; [by destruct a|]. split; [|lia]. intros _ i Hi. apply Z.lor_spec.
  - destruct (Z.eqb_spec (reawaken a) 0) as [E|E].
    + exists (guest_to_host_signals a), (pollTime a), (reawaken a), (signal_broadcasts a).
      split; [by destruct a|]. split; [lia|]. intros _ i Hi. by rewrite E, Z.bits_0, orb_false_r.
    + exists (Z.lor (guest_to_host_signals a) (reawaken a)), (pollTime a), 0, (signal_broadcasts a + 1).
      split; [by destruct a|]. split; [lia|]. intros _ i Hi. apply Z.lor_spec.
Qed.

(** C24. No guest signal is lost for good: a turn of the polling loop that finds more than a
    quarter of a second gone, and no reset requested, leaves every live signal pending, so
    that the next turn of each handler's thread calls its function. *)
Theorem poll_rouses_every_handler fuel rc rn rl rd a i :
  signal_table a -> no_reset a -> OneQuarterSecond < pollTime a ->
  0 <= i < 32 -> Z.testbit (live_guest_to_host_signals a) i = true ->
  exists f arg a', nth_Z (signalHandler a) i = Some (MkSignalHandler true (signal_mask i) (Some f) arg) /\
    (poll_signals fuel rc rn rl rd ;; SignalHandlerTopLevel i) a = (Ok (Some (f, arg)), a') /\
    Z.testbit (guest_to_host_signals a') i = false.
Proof.
  intros T N Ht Hi L. destruct (table_live a T i Hi L) as (f & arg & E). exists f, arg.
  destruct (run_poll_signals fuel rc rn rl rd a N) as (g & t & r & b & Ep & Hg & _).
  eexists. split; [done|]. erewrite bind_Ok by exact Ep. rewrite (run_handler_turn _ i f arg) by done.
  cbn [set_guest_to_host_signals guest_to_host_signals]. rewrite (Hg Ht i Hi), L, orb_true_r.
  split; [done|]. cbn [set_guest_to_host_signals guest_to_host_signals].
  rewrite ldiff_signal_mask, Z.eqb_refl by lia. apply andb_false_r.
Qed.

Lemma run_SignalLater a i : 0 <= i < 32 -> signalLock a = false ->
  SignalLater i a = (Ok tt, set_reawaken (Z.lor (reawaken a) (signal_mask i)) a).
Proof.
  intros Hi U. unfold SignalLater. erewrite bind_Ok by (by apply run_lock).
  assert ((0 <=? i) && (i <? NSignals) = true) as ->
    by (unfold NSignals; rewrite andb_true_iff, Z.leb_le, Z.ltb_lt; lia).
  rewrite run_bind_modify. unfold unlock_signals. rewrite run_unlock by done.
  destruct a. simpl in *. by rewrite U.
Qed.

(** SignalLater: a live handler that asks to be called again is called after the next turn of
    the polling loop, as long as no reset is requested. *)
Theorem SignalLater_retried fuel rc rn rl rd a i :
  signal_table a -> no_reset a -> signalLock a = false ->
  0 <= i < 32 -> Z.testbit (live_guest_to_host_signals a) i = true ->
  exists f arg a', nth_Z (signalHandler a) i = Some (MkSignalHandler true (signal_mask i) (Some f) arg) /\
    (SignalLater i ;; poll_signals fuel rc rn rl rd ;; SignalHandlerTopLevel i) a = (Ok (Some (f, arg)), a').
Proof.
  intros T N U Hi L. destruct (table_live a T i Hi L) as (f & arg & E). exists f, arg.
  pose proof (run_SignalLater a i Hi U) as El.
  set (a1 := set_reawaken (Z.lor (reawaken a) (signal_mask i)) a) in *.
  destruct (run_poll_signals fuel rc rn rl rd a1 N) as (g & t & r & b & Ep & Hg1 & Hg2).
  eexists. split; [done|]. erewrite bind_Ok by exact El.
  erewrite bind_Ok by exact Ep. rewrite (run_handler_turn _ i f arg) by done.
  cbn [set_guest_to_host_signals guest_to_host_signals].
  assert (Z.testbit g i = true) as ->; [|done].
  destruct (Z.lt_ge_cases OneQuarterSecond (pollTime a1)) as [Ht|Ht].
  - rewrite (Hg1 Ht i Hi). unfold a1. simpl. by rewrite L, orb_true_r.
  - rewrite (Hg2 Ht i Hi). unfold a1. simpl. rewrite lor_signal_mask, Z.eqb_refl by lia.
    by rewrite !orb_true_r.
Qed.

(** ** Removal *)

Definition removed (i : Z) (h : SignalHandler) (a : EmbCommArea) : EmbCommArea :=
  set_signalHandler (upd_Z (signalHandler a) i h)
   (set_guest_to_host_signals (Z.lor (guest_to_host_signals a) (signal_mask i))
    (set_reawaken (Z.ldiff (reawaken a) (signal_mask i))
     (set_live_guest_to_host_signals (Z.ldiff (live_guest_to_host_signals a) (signal_mask i)) a))).

Lemma run_RemoveSignalHandler a i f arg :
  0 <= i < 32 -> nth_Z (signalHandler a) i = Some (MkSignalHandler true (signal_mask i) (Some f) arg) ->
  unlocked a ->
  RemoveSignalHandler i a =
    (Ok tt, removed i (MkSignalHandler true (signal_mask i) (Some NullSignalHandler) None) a).
Proof.
  intros Hi E U. pose proof (nth_Z_bounds _ _ _ E). unfold RemoveSignalHandler.
  assert ((i <? 0) || (NSignals <=? i) = false) as ->
    by (unfold NSignals; rewrite orb_false_iff, Z.ltb_ge, Z.leb_gt; lia).
  destruct (useSignalLocks a) eqn:Eu.
  - erewrite bind_Ok by (rewrite run_when_locking_true by done; by apply run_lock, U).
    rewrite !run_bind_modify, run_bind_gets. rewrite (run_bind_option _ _ _ _ E). cbn [handlerThreadSetup when].
    rewrite run_bind_assoc. erewrite bind_Ok by (apply run_assign_handler; exact E).
    erewrite bind_Ok by (apply run_assign_handler; simpl; rewrite nth_upd_eq by done; reflexivity).
    rewrite run_when_locking_true by done. unfold unlock_signals. rewrite run_unlock by done.
    cbn [set_signalHandler signalHandler]. rewrite upd_Z_twice. pose proof (U Eu) as El.
    unfold removed. destruct a. simpl in *. by rewrite El.
  - erewrite bind_Ok by (by apply run_when_locking).
    rewrite !run_bind_modify, run_bind_gets. rewrite (run_bind_option _ _ _ _ E). cbn [handlerThreadSetup when].
    rewrite run_bind_assoc. erewrite bind_Ok by (apply run_assign_handler; exact E).
    erewrite bind_Ok by (apply run_assign_handler; simpl; rewrite nth_upd_eq by done; reflexivity).
    rewrite run_when_locking by done.
    cbn [set_signalHandler signalHandler]. rewrite upd_Z_twice. unfold removed. by destruct a.
Qed.

(** RemoveSignalHandler after InstallSignalHandler: the signal is free again and no other
    signal's state has changed; the thread is left with one pending signal, for which it
    calls the null handler. *)
Theorem RemoveSignalHandler_installed f arg a i :
  signal_table a -> unlocked a -> 0 <= i < 32 -> Z.testbit (live_guest_to_host_signals a) i = false ->
  exists a', RemoveSignalHandler i (installed i f arg a) = (Ok tt, a') /\ signal_table a' /\
    live_guest_to_host_signals a' = live_guest_to_host_signals a /\
    (forall j, j <> i -> nth_Z (signalHandler a') j = nth_Z (signalHandler a) j) /\
    exists a'', SignalHandlerTopLevel i a' = (Ok (Some (NullSignalHandler, None)), a'') /\
      Z.testbit (guest_to_host_signals a'') i = false.
Proof.
  intros T U Hi L. pose proof (table_length a T) as Tl.
  eexists. split; [apply (run_RemoveSignalHandler _ i f (Some arg)); [done| |done]|].
  { simpl. apply nth_upd_eq. lia. }
  assert (Z.ldiff (Z.lor (live_guest_to_host_signals a) (signal_mask i)) (signal_mask i) =
          live_guest_to_host_signals a) as El.
  { bits_ext j Hj. rewrite ldiff_signal_mask, lor_signal_mask by lia.
    destruct (Z.eqb_spec j i) as [->|]; [by rewrite L, andb_false_r|by rewrite orb_false_r, andb_true_r]. }
  split; [|split; [exact El|split]].
  - constructor; [by simpl; rewrite !upd_Z_length|]. intros j Hj. simpl. rewrite El. intros Lj.
    assert (j <> i) by congruence. rewrite !nth_upd_ne by done. by apply T.
  - intros j Hj. simpl. by rewrite !nth_upd_ne by done.
  - eexists. rewrite (run_handler_turn _ i NullSignalHandler None) by
      (done || (simpl; apply nth_upd_eq; rewrite upd_Z_length; lia)).
    cbn [removed set_signalHandler set_guest_to_host_signals guest_to_host_signals].
    rewrite lor_signal_mask, Z.eqb_refl, orb_true_r by lia. split; [done|]. simpl.
    rewrite ldiff_signal_mask, Z.eqb_refl by lia. apply andb_false_r.
Qed.

(** ** The status of the guest *)

(** What the polling thread sees: the spy's status and the front end's. *)
Definition observe (i : Z * Z) (a : EmbCommArea) : EmbCommArea :=
  UpdateVLMStatus (set_fep_status i.2 (set_spy_status i.1 a)).
Definition is_running (i : Z * Z) : bool := (i.1 =? 0) && negb (i.2 =? HaltedFEPStatus).
Definition is_lisp (i : Z * Z) : bool := is_running i && (i.2 =? IdleFEPStatus).

(** Whether Lisp has run since the machine was last seen stopped; the latest comes first. *)
Fixpoint lisp_since_stop (h : list (Z * Z)) : bool :=
  match h with
  | [] => false
  | i :: h' => is_lisp i || (is_running i && lisp_since_stop h')
  end.

(** The meaning of the status, from the whole history of observations. *)
Definition history_status (h : list (Z * Z)) : GuestStatus :=
  match h with
  | [] => UninitializedGuestStatus
  | i :: h' =>
      if is_lisp i then RunningGuestStatus
      else if is_running i then
        if lisp_since_stop h' then CrashedGuestStatus else InitializedGuestStatus
      else if existsb is_running h' then InitializingGuestStatus else UninitializedGuestStatus
  end.

Lemma lisp_is_running i : is_lisp i = true -> is_running i = true.
Proof. unfold is_lisp. by intros [? _]%andb_true_iff. Qed.

Lemma lisp_since_running h : lisp_since_stop h = true -> existsb is_running h = true.
Proof.
  induction h as [|i h IH]; [done|]. simpl. rewrite orb_true_iff, andb_true_iff.
  intros [H%lisp_is_running|[H _]]; by rewrite H.
Qed.

Lemma observe_status i a :
  guestStatus (observe i a) =
  match guestStatus a with
  | NonexistentGuestStatus | BrokenGuestStatus => guestStatus a
  | UninitializedGuestStatus | InitializingGuestStatus =>
      if is_lisp i then RunningGuestStatus else if is_running i then InitializedGuestStatus else guestStatus a
  | InitializedGuestStatus | StartedGuestStatus =>
      if is_lisp i then RunningGuestStatus else if is_running i then guestStatus a else InitializingGuestStatus
  | CrashedGuestStatus | RunningGuestStatus =>
      if is_lisp i then RunningGuestStatus else if is_running i then CrashedGuestStatus
      else InitializingGuestStatus
  end.
Proof.
  unfold observe, UpdateVLMStatus. cbn [guestStatus set_fep_status set_spy_status].
  by destruct (guestStatus a) eqn:E; simpl; rewrite ?E.
Qed.

(** C31. The guest's status is what its comments say, as a function of everything the polling
    thread has seen since Life Support started: running when Lisp runs now; crashed when the
    front end runs and Lisp had been running since the machine was last stopped; initialized
    when the front end runs and Lisp had not; and otherwise initializing, once anything has
    run. *)
Theorem UpdateVLMStatus_history h a :
  guestStatus a = UninitializedGuestStatus ->
  guestStatus (foldr observe a h) = history_status h.
Proof.
  intros Ha. induction h as [|i h IH]; [done|]. cbn [foldr]. rewrite observe_status, IH.
  destruct h as [|j h]; simpl; [by destruct (is_lisp i), (is_running i)|].
  destruct (is_lisp i) eqn:Li; [by repeat case_match|].
  destruct (is_lisp j) eqn:Lj; [by rewrite (lisp_is_running j Lj); destruct (is_running i)|].
  destruct (is_running j) eqn:Rj; simpl.
  - by destruct (lisp_since_stop h), (is_running i).
  - by destruct (existsb is_running h), (is_running i).
Qed.

(** ** Sample states *)

(** Nothing has been installed; the signal table is as InitializeSignalHandlers leaves it. *)
Definition idle_area : EmbCommArea :=
  MkEmbCommArea 0 0 0 0 0 true (replicate 32 (MkSignalHandler false 0 None None)) 1000 500
    NullEmbPtr NullEmbPtr None 0 0 NoResetRequest 0 0 UninitializedGuestStatus (OneQuarterSecond + 1) 0 0 0 0
    false [] false false false ∅ ∅ ∅ ∅ ∅ ∅ 0 0 0 0.

Lemma idle_table : signal_table idle_area.
Proof. constructor; [done|]. intros i Hi. simpl. by rewrite Z.bits_0. Qed.
Lemma idle_unlocked : unlocked idle_area.
Proof. done. Qed.

(** The first signal belongs to a disk. *)
Definition disk_area : EmbCommArea := installed 0 DiskLifeHandler 7 idle_area.
Lemma disk_area_table : signal_table disk_area.
Proof. by apply signal_table_installed; [apply idle_table|]. Qed.

Lemma InstallSignalHandler_correct_witness :
  InstallSignalHandler SendMBINBuffersHandler 9 disk_area =
  (Ok 1, installed 1 SendMBINBuffersHandler 9 disk_area).
Proof.
  destruct (InstallSignalHandler_correct SendMBINBuffersHandler 9 disk_area disk_area_table idle_unlocked)
    as [(i & Hi & L & B & E & _)|[B _]].
  - assert (i = 1) as ->; [|exact E].
    destruct (Z.lt_trichotomy i 1) as [Hl|[|Hl]]; [|done|].
    + assert (i = 0) as -> by lia. exfalso. by vm_compute in L.
    + specialize (B 1 ltac:(lia)). exfalso. by vm_compute in B.
  - specialize (B 1 ltac:(lia)). exfalso. by vm_compute in B.
Defined.

Lemma poll_rouses_every_handler_witness :
  exists a', (poll_signals 5 (fun _ => ret tt) (fun _ => ret tt) (fun _ => ret tt) (fun _ => ret tt) ;;
              SignalHandlerTopLevel 0) disk_area = (Ok (Some (DiskLifeHandler, Some 7)), a').
Proof.
  destruct (poll_rouses_every_handler 5 (fun _ => ret tt) (fun _ => ret tt) (fun _ => ret tt) (fun _ => ret tt)
    disk_area 0 disk_area_table) as (f & arg & a' & E & R & _); [done|by vm_compute|done|done|].
  injection E as <- <-. by exists a'.
Defined.

Lemma SignalLater_retried_witness :
  exists a', (SignalLater 0 ;; poll_signals 5 (fun _ => ret tt) (fun _ => ret tt) (fun _ => ret tt) (fun _ => ret tt) ;;
              SignalHandlerTopLevel 0) (set_pollTime 0 disk_area) = (Ok (Some (DiskLifeHandler, Some 7)), a').
Proof.
  destruct (SignalLater_retried 5 (fun _ => ret tt) (fun _ => ret tt) (fun _ => ret tt) (fun _ => ret tt)
    (set_pollTime 0 disk_area) 0) as (f & arg & a' & E & R); [by destruct disk_area_table|done|done|done|done|].
  injection E as <- <-. by exists a'.
Defined.

Lemma RemoveSignalHandler_installed_witness :
  exists a', RemoveSignalHandler 0 disk_area = (Ok tt, a') /\ live_guest_to_host_signals a' = 0.
Proof.
  destruct (RemoveSignalHandler_installed DiskLifeHandler 7 idle_area 0 idle_table idle_unlocked)
    as (a' & E & _ & L & _); [done|done|]. by exists a'.
Defined.

(** The machine starts, Lisp runs, then only the front end. *)
Lemma UpdateVLMStatus_history_witness :
  guestStatus (foldr observe idle_area [(0, RunningFEPStatus); (0, IdleFEPStatus); (0, RunningFEPStatus)]) =
  CrashedGuestStatus.
Proof. exact (UpdateVLMStatus_history _ idle_area eq_refl). Defined.
