(* ===== verification/ChannelSpec.v ===== *)
(** The list of active message channels as an abstract list, and the reset of a channel that
    the guest created. *)

From S2P Require Export SignalSpec.
#[local] Open Scope vlm_scope.

(** ** The active list *)

(** The channel [c] is a message channel whose record, at the heap address [h], is [d]. *)
Record has_record (a : EmbCommArea) (c h : Z) (d : SubtypeData) : Prop := {
  record_channel : exists e m, channels a !! c = Some e /\
    channel_type e = EmbMessageChannelType m /\ subtypeData m = Some h;
  record_data : subtypes a !! h = Some d;
  record_back : messageChannel d = c
}.

(** From [p], the records are linked in the order of the list. *)
Fixpoint active_list (a : EmbCommArea) (p : option Z) (l : list Z) : Prop :=
  match l with
  | [] => p = None
  | c :: l' => p = Some c /\ exists h d, has_record a c h d /\ active_list a (nextActiveChannel d) l'
  end.

Lemma run_message_channel_at a c e m :
  channels a !! c = Some e -> channel_type e = EmbMessageChannelType m ->
  message_channel_at c a = (Ok m, a).
Proof.
  intros E1 E2. unfold message_channel_at, channel_at. rewrite run_bind_assoc, run_bind_gets.
  by rewrite (run_bind_option _ _ _ _ E1), E2.
Qed.

Lemma run_SubtypeData_of a c h d : has_record a c h d -> SubtypeData_of c a = (Ok (h, d), a).
Proof.
  intros [(e & m & E1 & E2 & E3) E4 _]. unfold SubtypeData_of.
  erewrite bind_Ok by (by eapply run_message_channel_at).
  rewrite (run_bind_option _ _ _ _ E3), run_bind_gets. by rewrite (run_bind_option _ _ _ _ E4).
Qed.

Definition with_record (h : Z) (d : SubtypeData) (a : EmbCommArea) : EmbCommArea :=
  set_subtypes (<[h := d]> (subtypes a)) a.

Lemma run_assign_subtype a h d f :
  subtypes a !! h = Some d -> assign_subtype h f a = (Ok tt, with_record h (f d) a).
Proof. intros E. unfold assign_subtype. rewrite run_bind_gets. by rewrite (run_bind_option _ _ _ _ E). Qed.

(** Two channels never share a record. *)
Lemma record_ne a c1 h1 d1 c2 h2 d2 : has_record a c1 h1 d1 -> has_record a c2 h2 d2 -> c1 <> c2 -> h1 <> h2.
Proof. intros [_ E1 B1] [_ E2 B2] Hne ->. rewrite E1 in E2. congruence. Qed.

Lemma record_fun a c h1 d1 h2 d2 : has_record a c h1 d1 -> has_record a c h2 d2 -> h1 = h2 /\ d1 = d2.
Proof.
  intros [(e1 & m1 & E1 & E2 & E3) E4 _] [(e2 & m2 & F1 & F2 & F3) F4 _].
  rewrite E1 in F1. injection F1 as <-. rewrite E2 in F2. injection F2 as <-.
  rewrite E3 in F3. injection F3 as <-. rewrite E4 in F4. by injection F4 as <-.
Qed.

Lemma record_with_same a c h d d' :
  has_record a c h d -> messageChannel d' = c -> has_record (with_record h d' a) c h d'.
Proof. intros [E1 E2 E3] B. constructor; [exact E1 | apply lookup_insert_eq | done]. Qed.
Lemma record_with_other a c h d h' d' :
  has_record a c h d -> h <> h' -> has_record (with_record h' d' a) c h d.
Proof. intros [E1 E2 E3] Hne. constructor; [exact E1 | simpl; by rewrite lookup_insert_ne | done]. Qed.

(** A list that does not contain the channel of a record is not affected by the record. *)
Lemma active_with_other a p l c h d d' :
  has_record a c h d -> c ∉ l -> active_list a p l -> active_list (with_record h d' a) p l.
Proof.
  intros R. revert p. induction l as [|c1 l IH]; intros p Hc; [done|]. intros (-> & h1 & d1 & R1 & Hl).
  rewrite not_elem_of_cons in Hc. destruct Hc as [Hc1 Hc2]. split; [done|]. exists h1, d1.
  split; [|by apply IH]. apply record_with_other; [done|]. exact (record_ne _ _ _ _ _ _ _ R1 R (not_eq_sym Hc1)).
Qed.

(** The link of the last record. *)
Lemma run_thread_loop l : forall a p fuel c h d,
  active_list a p l -> NoDup l -> l <> [] -> (length l <= fuel)%nat -> has_record a c h d ->
  nextActiveChannel d = None -> c ∉ l ->
  exists h1 d1, h1 <> h /\ subtypes a !! h1 = Some d1 /\ nextActiveChannel d1 = None /\
    thread_loop fuel c p a = (Ok tt, with_record h1 (set_nextActiveChannel (Some c) d1) a) /\
    active_list (with_record h1 (set_nextActiveChannel (Some c) d1) a) p (l ++ [c]).
Proof.
  induction l as [|c1 l IH]; [done|].
  intros a p fuel c h d (-> & h1 & d1 & R1 & Hl) Hnd _ Hf R Hd Hc.
  destruct fuel as [|fuel]; [simpl in Hf; lia|]. simpl in Hf. apply NoDup_cons in Hnd as [Hc1 Hnd].
  apply not_elem_of_cons in Hc as [Hne Hc]. cbn [thread_loop].
  erewrite bind_Ok by (by apply run_SubtypeData_of). cbv beta iota.
  assert (h1 <> h) as Hh by exact (record_ne _ _ _ _ _ _ _ R1 R (not_eq_sym Hne)).
  destruct l as [|c2 l].
  - simpl in Hl. rewrite Hl. exists h1, d1. split; [done|]. split; [apply R1|]. split; [done|].
    split; [apply run_assign_subtype, R1|]. split; [done|].
    exists h1, (set_nextActiveChannel (Some c) d1). split; [eapply record_with_same; [exact R1|apply R1]|].
    split; [done|]. exists h, d. split; [|done]. by apply record_with_other.
  - destruct Hl as (Ep & Hl). rewrite Ep.
    destruct (IH a (Some c2) fuel c h d (conj eq_refl Hl) Hnd ltac:(done) ltac:(lia) R Hd Hc)
      as (h2 & d2 & Hh2 & E2 & N2 & Er & Ha).
    exists h2, d2. split; [done|]. split; [done|]. split; [done|]. split; [exact Er|].
    split; [done|]. exists h1, d1. split; [|by rewrite Ep].
    apply record_with_other; [done|]. intros <-. destruct R1 as [_ E1 B1]. rewrite E1 in E2.
    injection E2 as <-. congruence.
Qed.

Lemma run_thread fuel a l c h d :
  active_list a (Some (command_channel a)) l -> NoDup l -> (length l <= fuel)%nat ->
  has_record a c h d -> c ∉ l ->
  exists a', ThreadActiveMessageChannel fuel c a = (Ok tt, a') /\
    active_list a' (Some (command_channel a)) (l ++ [c]) /\ channels a' = channels a /\
    command_channel a' = command_channel a /\ has_record a' c h (set_nextActiveChannel None d).
Proof.
  intros Hl Hnd Hf R Hc. set (d0 := set_nextActiveChannel None d).
  assert (l <> []) as Hne by (by destruct l).
  assert (has_record (with_record h d0 a) c h d0) as R0 by (eapply record_with_same; [exact R|apply R]).
  destruct (run_thread_loop l (with_record h d0 a) (Some (command_channel a)) fuel c h d0)
    as (h1 & d1 & Hh & _ & _ & Er & Ha); try done.
  - by eapply active_with_other.
  - eexists. split; [|split; [exact Ha|split; [done|split; [done|by apply record_with_other]]]].
    unfold ThreadActiveMessageChannel.
    erewrite bind_Ok by (by apply run_SubtypeData_of). cbv beta iota.
    erewrite bind_Ok by (apply run_assign_subtype, R). rewrite run_bind_gets. exact Er.
Qed.

(** The record before [c] is linked past it. *)
Lemma run_unthread_loop l1 : forall a p fuel c l2 h d,
  active_list a p (l1 ++ c :: l2) -> NoDup (l1 ++ c :: l2) -> l1 <> [] -> (length l1 <= fuel)%nat ->
  has_record a c h d ->
  exists a', unthread_loop fuel c p a = (Ok tt, a') /\ channels a' = channels a /\
    command_channel a' = command_channel a /\ active_list a' p (l1 ++ l2) /\
    has_record a' c h (set_nextActiveChannel None d) /\
    (forall c' h' d', has_record a c' h' d' -> c' ∉ l1 ++ [c] -> has_record a' c' h' d').
Proof.
  induction l1 as [|c1 l1 IH]; [done|].
  intros a p fuel c l2 h d (-> & h1 & d1 & R1 & Hl) Hnd _ Hf R.
  destruct fuel as [|fuel]; [simpl in Hf; lia|]. simpl in Hf. apply NoDup_cons in Hnd as [Hc1 Hnd].
  assert (c1 <> c) as Hne by (intros ->; apply Hc1; apply elem_of_app; right; by left).
  assert (h1 <> h) as Hh by exact (record_ne _ _ _ _ _ _ _ R1 R Hne).
  cbn [unthread_loop app]. destruct l1 as [|c2 l1]; simpl in Hl.
  - destruct Hl as (Ep & h' & d' & R' & Hl). destruct (record_fun _ _ _ _ _ _ R R') as [<- <-].
    eexists. erewrite bind_Ok by (by apply run_SubtypeData_of). cbv beta iota.
    rewrite bool_decide_eq_true_2 by done.
    erewrite bind_Ok by (by apply run_SubtypeData_of). cbv beta iota.
    erewrite bind_Ok by (apply run_assign_subtype, R1).
    split; [apply run_assign_subtype; simpl; rewrite lookup_insert_ne by done; apply R|].
    do 2 (split; [done|]). simpl in Hc1, Hnd. apply NoDup_cons in Hnd as [Hc Hnd].
    apply not_elem_of_cons in Hc1 as [_ Hc1]. split.
    + split; [done|]. exists h1, (set_nextActiveChannel (nextActiveChannel d) d1). split.
      * apply record_with_other; [|done]. eapply record_with_same; [exact R1|apply R1].
      * apply (active_with_other _ _ _ c h d); [by apply record_with_other; [|done]|done|].
        by apply (active_with_other _ _ _ c1 h1 d1).
    + split; [eapply record_with_same; [by apply record_with_other; [exact R|]|]; apply R|].
      intros c' h' d' R2 [Hn1 [Hn2 _]%not_elem_of_cons]%not_elem_of_cons.
      apply record_with_other; [apply record_with_other; [done|]|].
      * exact (record_ne _ _ _ _ _ _ _ R2 R1 Hn1).
      * exact (record_ne _ _ _ _ _ _ _ R2 R Hn2).
  - destruct Hl as (Ep & Hl). erewrite bind_Ok by (by apply run_SubtypeData_of). cbv beta iota.
    rewrite bool_decide_eq_false_2 by (rewrite Ep; intros [= ->]; apply NoDup_cons in Hnd as [Hc _];
      apply Hc, elem_of_app; right; by left).
    rewrite Ep. destruct (IH a (Some c2) fuel c l2 h d (conj eq_refl Hl) Hnd ltac:(done) ltac:(lia) R)
      as (a' & Er & E1 & E2 & Ha & R' & Rest).
    exists a'. split; [exact Er|]. do 2 (split; [done|]). split; [|split; [done|]].
    + split; [done|]. exists h1, d1. split; [|by rewrite Ep]. apply Rest; [done|].
      intros [Hin|Hin%list_elem_of_singleton]%elem_of_app; [|done].
      apply Hc1. change (c1 ∈ (c2 :: l1) ++ c :: l2). apply elem_of_app. by left.
    + intros c' h' d' R2 [_ Hn]%not_elem_of_cons. by apply (Rest c' h' d').
Qed.

(** C32. UnthreadMessageChannel takes an active channel, which is not the command channel at the
    head, out of the active list and clears its link; unthreading what has just been
    threaded gives the list of before. *)
Theorem UnthreadMessageChannel_threaded fuel a l c h d :
  active_list a (Some (command_channel a)) l -> NoDup l -> (length l <= fuel)%nat ->
  has_record a c h d -> c ∉ l ->
  exists a1 a2, ThreadActiveMessageChannel fuel c a = (Ok tt, a1) /\
    UnthreadMessageChannel fuel c a1 = (Ok tt, a2) /\
    active_list a1 (Some (command_channel a)) (l ++ [c]) /\
    active_list a2 (Some (command_channel a)) l /\
    has_record a2 c h (set_nextActiveChannel None d) /\ channels a2 = channels a.
Proof.
  intros Hl Hnd Hf R Hc.
  destruct (run_thread fuel a l c h d Hl Hnd Hf R Hc) as (a1 & E1 & H1 & C1 & P1 & R1).
  destruct (run_unthread_loop l a1 (Some (command_channel a)) fuel c [] h (set_nextActiveChannel None d))
    as (a2 & E2 & C2 & P2 & H2 & R2 & _); try done.
  - apply NoDup_app. split; [done|]. split; [|apply NoDup_singleton].
    intros x Hx ->%list_elem_of_singleton. done.
  - by destruct l.
  - exists a1, a2. split; [done|]. split.
    { unfold UnthreadMessageChannel. rewrite run_bind_gets, P1. exact E2. }
    split; [done|]. rewrite app_nil_r in H2. split; [done|]. split; [done|]. congruence.
Qed.

(** ** Reset *)

Lemma run_queue_at a p q : queues a !! p = Some q -> queue_at p a = (Ok q, a).
Proof. intros E. unfold queue_at. rewrite run_bind_gets. by rewrite E. Qed.

Lemma run_bind_undefined {A B} (m : Life A) (k : A -> Life B) a :
  (m a).1 = Undefined -> (bind m k a).1 = Undefined.
Proof. unfold bind. by destruct (m a) as [[]?]. Qed.

Definition with_message (c : Z) (e : EmbChannel) (m : EmbMessageChannel) (a : EmbCommArea) : EmbCommArea :=
  set_channels (<[c := set_channel_type (EmbMessageChannelType m) e]> (channels a)) a.

Lemma run_assign_message_channel a c e m f :
  channels a !! c = Some e -> channel_type e = EmbMessageChannelType m ->
  assign_message_channel c f a = (Ok tt, with_message c e (f m) a).
Proof.
  intros E1 E2. unfold assign_message_channel.
  erewrite bind_Ok by (unfold channel_at; rewrite run_bind_gets, E1; reflexivity).
  erewrite bind_Ok by (by eapply run_message_channel_at). done.
Qed.

(** The lock is held: removing the handler of a queue beyond the host's buffer locks it again. *)
Lemma reset_incoming_relocks a p q :
  queues a !! p = Some q -> host_buffer_start a + host_buffer_size a < p -> 0 <= signal q < 32 ->
  useSignalLocks a = true -> signalLock a = true -> (reset_incoming p a).1 = Undefined.
Proof.
  intros Eq Hp Hs Hu Hl. unfold reset_incoming. erewrite bind_Ok by (by apply run_queue_at).
  rewrite !run_bind_gets. unfold ResetIncomingQueue.
  assert ((host_buffer_start a + host_buffer_size a <? p) = true) as -> by (by apply Z.ltb_lt).
  apply run_bind_undefined. unfold RemoveSignalHandler.
  assert ((signal q <? 0) || (NSignals <=? signal q) = false) as ->
    by (unfold NSignals; rewrite orb_false_iff, Z.ltb_ge, Z.leb_gt; lia).
  apply run_bind_undefined. rewrite run_when_locking_true by done.
  unfold lock_signals, mutex_lock. by rewrite run_bind_gets, Hl.
Qed.


(** ** Sample states *)

(** A command channel and an MBIN channel, each with its record. *)
Definition message_channel (sub q h : Z) : EmbMessageChannel :=
  MkEmbMessageChannel sub q NullEmbPtr 0 NullEmbPtr NullEmbPtr 0 (Some h).
Definition channels_area : EmbCommArea :=
  set_command_channel 10 (set_channel_table 20
    (set_channels {[10 := MkEmbChannel (EmbMessageChannelType (message_channel EmbMessageChannelCommandSubtype 1100 100)) 0 NullEmbPtr;
                    20 := MkEmbChannel (EmbMessageChannelType (message_channel EmbMessageChannelMBINSubtype 5000 200)) 0 10]}
    (set_subtypes {[100 := MkSubtypeData None 10 1100 NullEmbPtr NullEmbPtr NullEmbPtr;
                    200 := MkSubtypeData None 20 5000 NullEmbPtr NullEmbPtr NullEmbPtr]}
    (set_queues {[5000 := set_signal 3 (CreateQueue [0; 0] 2 4)]} idle_area)))).

Definition mbin_data : SubtypeData := MkSubtypeData None 20 5000 NullEmbPtr NullEmbPtr NullEmbPtr.

Lemma channels_area_record : has_record channels_area 20 200 mbin_data.
Proof. constructor; [by do 2 eexists|done|done]. Qed.
Lemma channels_area_active : active_list channels_area (Some 10) [10].
Proof. split; [done|]. do 2 eexists. split; [constructor; [by do 2 eexists|done|done]|done]. Qed.

Lemma UnthreadMessageChannel_threaded_witness :
  exists a1 a2, ThreadActiveMessageChannel 5 20 channels_area = (Ok tt, a1) /\
    UnthreadMessageChannel 5 20 a1 = (Ok tt, a2) /\
    active_list a1 (Some 10) [10; 20] /\ active_list a2 (Some 10) [10].
Proof.
  destruct (UnthreadMessageChannel_threaded 5 channels_area [10] 20 200 mbin_data channels_area_active)
    as (a1 & a2 & E1 & E2 & H1 & H2 & _); [apply NoDup_singleton|simpl; lia|apply channels_area_record| |].
  - by intros ?%list_elem_of_singleton.
  - by exists a1, a2.
Defined.

