(* ===== verification/DiskSpec.v ===== *)
(** Disk channels: a transfer stays within the pages of its command and covers its buffers in
    order, and the handler answers the commands of its queue in order, each once. *)

From S2P Require Export Disks ChannelSpec QueueProgress.
#[local] Open Scope vlm_scope.

(** ** Transfers *)

(** The bytes of a list of buffers. *)
Definition buffer_bytes (pairs : list (Z * Z)) : Z := foldr (fun p n => 4 * p.2 + n) 0 pairs.
Definition buffers_ok (pairs : list (Z * Z)) : Prop := Forall (fun p => 0 <= p.2 < 2 ^ 31) pairs.
Definition vectors (pairs : list (Z * Z)) : list (Z * Z) := (fun p => (p.1, 4 * p.2)) <$> pairs.

Lemma buffer_bytes_app p1 p2 : buffer_bytes (p1 ++ p2) = buffer_bytes p1 + buffer_bytes p2.
Proof. induction p1 as [|[] p1 IH]; simpl; [done|]. unfold buffer_bytes in *. simpl. lia. Qed.

Lemma buffer_bytes_bound pairs : buffers_ok pairs ->
  0 <= buffer_bytes pairs <= 2 ^ 33 * Z.of_nat (length pairs).
Proof.
  induction 1 as [|[a n] pairs Hp _ IH]; simpl in *; [lia|]. unfold buffer_bytes in *. simpl. lia.
Qed.

Lemma s64_small z : 0 <= z < 2 ^ 63 -> s64 z = z.
Proof.
  intros H. unfold s64, u64. rewrite Z.mod_small by lia. by destruct (Z.ltb_spec z (2 ^ 63)); [|lia].
Qed.

Lemma io_vectors_ok pairs : buffers_ok pairs ->
  (fun '(address, n_words) => (address, u64 (n_words * 4))) <$> pairs = vectors pairs.
Proof.
  unfold vectors. induction 1 as [|[a n] pairs Hp _ IH]; [done|]. rewrite !fmap_cons, IH. simpl in Hp.
  f_equal. f_equal. unfold u64. rewrite Z.mod_small by lia. simpl. lia.
Qed.

Lemma total_bytes_vectors pairs : buffers_ok pairs -> (length pairs <= 32)%nat ->
  total_bytes (vectors pairs) = buffer_bytes pairs.
Proof.
  intros H Hl. unfold total_bytes.
  assert (foldr (fun v n => v.2 + n) 0 (vectors pairs) = buffer_bytes pairs) as ->.
  { clear. induction pairs as [|[a n] pairs IH]; [done|]. unfold buffer_bytes in *. simpl. by rewrite IH. }
  apply s64_small. pose proof (buffer_bytes_bound pairs H). lia.
Qed.

(** A request that lies within the bytes [lo] to [hi] of the file. *)
Definition within (lo hi : Z) (r : DiskRequest) : Prop :=
  match r with
  | DiskTransfer _ _ offset iovs => lo <= offset /\ offset + total_bytes iovs <= hi
  | DiskSeek _ offset => lo <= offset <= hi
  | _ => False
  end.
(** The vectors of the transfers, in order. *)
Definition transferred (l : list DiskRequest) : list (Z * Z) :=
  l ≫= (fun r => match r with DiskTransfer _ _ _ iovs => iovs | _ => [] end).

Section disks.
Context (lseek : list DiskRequest -> Z -> Z -> Z).
Context (transfer : list DiskRequest -> bool -> Z -> Z -> list (Z * Z) -> Z).

Definition logged (new : list DiskRequest) (a : EmbCommArea) : EmbCommArea :=
  set_disk_log (disk_log a ++ new) a.

Lemma logged_logged n1 n2 a : logged n2 (logged n1 a) = logged (n1 ++ n2) a.
Proof. unfold logged. simpl. by rewrite <- app_assoc; destruct a. Qed.

Lemma run_io_loop fuel : forall pairs n offset a write fd,
  n = Z.of_nat (length pairs) -> buffers_ok pairs -> (length pairs < fuel)%nat -> 0 <= offset ->
  exists r new, loop fuel (io_turn transfer write fd) (n, pairs, offset) a = (Ok r, logged new a) /\
    Forall (within offset (offset + buffer_bytes pairs)) new /\
    (r = 0 -> transferred new = vectors pairs).
Proof.
  induction fuel as [|fuel IH]; intros pairs n offset a write fd -> Hok Hf Ho; [lia|]. cbn [loop].
  unfold io_turn at 1. destruct (Z.leb_spec (Z.of_nat (length pairs)) 0) as [Hn|Hn].
  { destruct pairs; [|simpl in Hn; lia]. exists 0, []. split; [|split; [constructor|done]].
    unfold logged. by rewrite app_nil_r; destruct a. }
  set (k := if NIOVectors <? Z.of_nat (length pairs) then NIOVectors else Z.of_nat (length pairs)).
  assert (0 < k <= 32 /\ k <= Z.of_nat (length pairs)) as Hk
    by (unfold k, NIOVectors; destruct (Z.ltb_spec 32 (Z.of_nat (length pairs))); lia).
  unfold io_vectors. assert ((Z.to_nat k <=? length pairs)%nat = true) as -> by (apply Nat.leb_le; lia).
  set (p1 := firstn (Z.to_nat k) pairs). set (p2 := skipn (Z.to_nat k) pairs).
  assert (pairs = p1 ++ p2) as Ep by (symmetry; apply take_drop).
  assert (length p1 = Z.to_nat k) as L1 by (unfold p1; rewrite length_take; lia).
  assert (length p2 = length pairs - Z.to_nat k)%nat as L2 by (unfold p2; rewrite length_drop; lia).
  assert (buffers_ok p1 /\ buffers_ok p2) as [O1 O2] by (rewrite Ep in Hok; by apply Forall_app in Hok).
  rewrite io_vectors_ok by done. cbn [of_option]. rewrite !run_bind_assoc, run_bind_ret, run_bind_assoc, run_bind_gets.
  unfold log_request. rewrite run_bind_assoc, run_bind_modify.
  change (set_disk_log (disk_log a ++ _) a) with (logged [DiskTransfer write fd offset (vectors p1)] a).
  rewrite total_bytes_vectors by (done || lia).
  assert (buffer_bytes pairs = buffer_bytes p1 + buffer_bytes p2) as Eb by (rewrite Ep at 1; apply buffer_bytes_app).
  pose proof (buffer_bytes_bound p1 O1). pose proof (buffer_bytes_bound p2 O2).
  assert (within offset (offset + buffer_bytes pairs) (DiskTransfer write fd offset (vectors p1))) as Hw
    by (simpl; rewrite total_bytes_vectors by (done || lia); lia).
  set (actual := transfer _ _ _ _ _). destruct (Z.ltb_spec actual 0).
  { exists (- actual), [DiskTransfer write fd offset (vectors p1)]. split; [done|].
    split; [by apply Forall_singleton|lia]. }
  destruct (Z.eqb_spec actual (buffer_bytes p1)) as [Ea|]; cbn [negb].
  2: { exists EINTR, [DiskTransfer write fd offset (vectors p1)]. split; [done|].
       split; [by apply Forall_singleton|done]. }
  rewrite run_bind_ret.
  destruct (IH p2 (Z.of_nat (length pairs) - k) (offset + actual)
    (logged [DiskTransfer write fd offset (vectors p1)] a) write fd) as (r & new & Er & Hw2 & Ht);
    [lia|done|lia|lia|].
  exists r, (DiskTransfer write fd offset (vectors p1) :: new). split.
  { rewrite Er, logged_logged. done. }
  split.
  - constructor; [done|]. eapply Forall_impl; [exact Hw2|]. intros [] ; simpl; try done; lia.
  - intros Hr. change (vectors p1 ++ transferred new = vectors pairs). rewrite Ht by done.
    unfold vectors. by rewrite Ep, fmap_app.
Qed.

Context (fuel : nat).

(** A command whose address pairs are as many as it says and small enough to add up. *)
Record command_ok (b : EmbDiskQueueElement) : Prop := {
  command_pairs : n_addresses b = Z.of_nat (length (addresses b));
  command_buffers : buffers_ok (addresses b);
  command_fuel : (length (addresses b) < fuel)%nat
}.

Lemma run_DoDiskIO c d b write a : command_ok b -> 0 <= blocksize c ->
  exists r new, DoDiskIO lseek transfer fuel c d b write a = (Ok r, logged new a) /\
    Forall (within (page b * blocksize c) (page b * blocksize c + buffer_bytes (addresses b))) new /\
    (r = 0 -> transferred new = vectors (addresses b)) /\
    (new <> [] -> 0 <= page b /\ s32 (page b + count b) <= number_of_pages c).
Proof.
  intros [C1 C2 C3] Hbs. unfold DoDiskIO. destruct (Z.ltb_spec (page b) 0) as [|Hp]; cbn [orb].
  { exists EINVAL, []. split; [|done]. unfold logged. by rewrite app_nil_r; destruct a. }
  destruct (Z.ltb_spec (number_of_pages c) (s32 (page b + count b))) as [|Hs].
  { exists EINVAL, []. split; [|done]. unfold logged. by rewrite app_nil_r; destruct a. }
  rewrite run_bind_gets. unfold log_request. rewrite run_bind_modify.
  change (set_disk_log _ a) with (logged [DiskSeek (fd d) (page b * blocksize c)] a).
  pose proof (buffer_bytes_bound _ C2).
  assert (within (page b * blocksize c) (page b * blocksize c + buffer_bytes (addresses b))
            (DiskSeek (fd d) (page b * blocksize c))) as Hw by (simpl; lia).
  destruct (_ <? 0) eqn:El.
  { exists (- lseek (disk_log a) (fd d) (page b * blocksize c)), [DiskSeek (fd d) (page b * blocksize c)].
    split; [done|]. split; [by apply Forall_singleton|]. apply Z.ltb_lt in El. split; [lia|done]. }
  destruct (run_io_loop fuel (addresses b) (n_addresses b) (page b * blocksize c)
    (logged [DiskSeek (fd d) (page b * blocksize c)] a) write (fd d)) as (r & new & Er & Hw2 & Ht);
    [done|done|done|nia|].
  exists r, (DiskSeek (fd d) (page b * blocksize c) :: new). rewrite Er, logged_logged.
  split; [done|]. split; [by constructor|]. done.
Qed.


(** ** Commands *)

(** Only the disks' own state has changed. *)
Definition same_but_disk (a a' : EmbCommArea) : Prop :=
  a' = set_disk_log (disk_log a') (set_diskStates (diskStates a') (set_diskCommands (diskCommands a') a)).

Lemma same_but_disk_trans a1 a2 a3 : same_but_disk a1 a2 -> same_but_disk a2 a3 -> same_but_disk a1 a3.
Proof. unfold same_but_disk. intros E2 E3. rewrite E3, E2. by destruct a1. Qed.

Definition answered_status (s : EmbDiskStatus) : bool :=
  match s with WonStatus | LostStatus | AbortStatus => true | OtherStatus _ => false end.

(** The command [x] is answered, and its buffers are those of [b]. *)
Definition answered (a : EmbCommArea) (x : Z) (b : EmbDiskQueueElement) : Prop :=
  exists b', diskCommands a !! x = Some b' /\ answered_status (status b') = true /\
    addresses b' = addresses b /\ n_addresses b' = n_addresses b.

Lemma run_disk_command_at a x b : diskCommands a !! x = Some b -> disk_command_at x a = (Ok b, a).
Proof. intros E. unfold disk_command_at. by rewrite run_bind_gets, E. Qed.
Lemma run_disk_state_at a h d : diskStates a !! h = Some d -> disk_state_at h a = (Ok d, a).
Proof. intros E. unfold disk_state_at. by rewrite run_bind_gets, E. Qed.

Definition with_command (x : Z) (b : EmbDiskQueueElement) (a : EmbCommArea) : EmbCommArea :=
  set_diskCommands (<[x := b]> (diskCommands a)) a.
Definition with_disk_state (h : Z) (d : DiskChannelState) (a : EmbCommArea) : EmbCommArea :=
  set_diskStates (<[h := d]> (diskStates a)) a.

Lemma run_assign_disk_command a x b f : diskCommands a !! x = Some b ->
  assign_disk_command x f a = (Ok tt, with_command x (f b) a).
Proof. intros E. unfold assign_disk_command. by erewrite bind_Ok by (by apply run_disk_command_at). Qed.
Lemma run_assign_disk_state a h d f : diskStates a !! h = Some d ->
  assign_disk_state h f a = (Ok tt, with_disk_state h (f d) a).
Proof. intros E. unfold assign_disk_state. by erewrite bind_Ok by (by apply run_disk_state_at). Qed.

Lemma with_command_lookup a x b : diskCommands (with_command x b a) !! x = Some b.
Proof. apply lookup_insert_eq. Qed.

(** What one command does: it is answered; the others, the queues of the channel and everything
    else are untouched. *)
Record command_done (h x : Z) (d : DiskChannelState) (b : EmbDiskQueueElement) (a a' : EmbCommArea) : Prop := {
  done_answered : answered a' x b;
  done_others y : y <> x -> diskCommands a' !! y = diskCommands a !! y;
  done_state : exists e, diskStates a' !! h = Some (set_error_pending e d);
  done_rest : same_but_disk a a'
}.

Lemma command_done_intro h x d b a e new b' :
  answered_status (status b') = true -> addresses b' = addresses b -> n_addresses b' = n_addresses b ->
  command_done h x d b a (with_disk_state h (set_error_pending e d) (with_command x b' (logged new a))).
Proof.
  intros H1 H2 H3. constructor.
  - exists b'. split; [apply lookup_insert_eq|done].
  - intros y Hy. simpl. by apply lookup_insert_ne.
  - exists e. apply lookup_insert_eq.
  - by destruct a.
Qed.

Lemma with_command_twice x b1 b2 a : with_command x b2 (with_command x b1 a) = with_command x b2 a.
Proof. unfold with_command. simpl. by rewrite insert_insert_eq; destruct a. Qed.
Lemma with_disk_state_same h d a : diskStates a !! h = Some d ->
  with_disk_state h (set_error_pending (error_pending d) d) a = a.
Proof.
  intros E. unfold with_disk_state. replace (set_error_pending (error_pending d) d) with d by (by destruct d).
  rewrite insert_id by done. by destruct a.
Qed.
Lemma logged_nil a : logged [] a = a.
Proof. unfold logged. rewrite app_nil_r. by destruct a. Qed.

Lemma command_done_keep h x d b a new b' :
  diskStates a !! h = Some d ->
  answered_status (status b') = true -> addresses b' = addresses b -> n_addresses b' = n_addresses b ->
  command_done h x d b a (with_command x b' (logged new a)).
Proof.
  intros E H1 H2 H3. rewrite <- (with_disk_state_same h d (with_command x b' (logged new a))) by done.
  by apply command_done_intro.
Qed.

Ltac command_step :=
  erewrite bind_Ok by (apply run_assign_disk_command; first [eassumption | apply lookup_insert_eq]).
Ltac command_last :=
  rewrite (run_assign_disk_command _ _ _ _ (with_command_lookup _ _ _)), ?with_command_twice.

Lemma run_read_or_write c h x d b write a :
  diskStates a !! h = Some d -> diskCommands a !! x = Some b -> command_ok b -> 0 <= blocksize c ->
  exists a', read_or_write lseek transfer fuel c h x write a = (Ok tt, a') /\ command_done h x d b a a'.
Proof.
  intros Ed Eb Hb Hc. unfold read_or_write. erewrite bind_Ok by (by apply run_disk_state_at).
  destruct (error_pending d) eqn:Ep.
  { eexists. split; [by apply run_assign_disk_command|].
    rewrite <- (logged_nil a) at 2. by apply command_done_keep. }
  destruct (Z.eqb_spec (fd d) (-1)).
  { eexists. split; [by command_step; command_last|].
    rewrite <- (logged_nil a) at 2. by apply command_done_keep. }
  erewrite bind_Ok by (by apply run_disk_command_at).
  destruct (run_DoDiskIO c d b write a Hb Hc) as (r & new & Er & _).
  erewrite bind_Ok by exact Er.
  erewrite bind_Ok by (by apply run_assign_disk_command).
  destruct (r =? 0).
  - eexists. split; [by command_last|]. by apply command_done_keep.
  - eexists. split; [command_step; rewrite with_command_twice; by apply run_assign_disk_state|].
    by apply command_done_intro.
Qed.

Lemma run_execute_disk_command c h x d b a :
  diskStates a !! h = Some d -> diskCommands a !! x = Some b -> command_ok b -> 0 <= blocksize c ->
  exists a', execute_disk_command lseek transfer fuel c h x a = (Ok tt, a') /\ command_done h x d b a a'.
Proof.
  intros Ed Eb Hb Hc. unfold execute_disk_command. erewrite bind_Ok by (by apply run_disk_command_at).
  assert (exists a', (assign_disk_state h (set_error_pending false) ;;
      assign_disk_command x (set_status WonStatus)) a = (Ok tt, a') /\ command_done h x d b a a') as Hreset.
  { eexists. split.
    - erewrite bind_Ok by (by apply run_assign_disk_state). by apply run_assign_disk_command.
    - pose proof (command_done_intro h x d b a false [] (set_status WonStatus b) eq_refl eq_refl eq_refl) as D.
      rewrite logged_nil in D. exact D. }
  destruct (cmd b); try exact Hreset.
  - by apply run_read_or_write.
  - destruct (read_only c); [|by apply run_read_or_write].
    eexists. split; [by command_step; command_last|]. rewrite <- (logged_nil a) at 2. by apply command_done_keep.
  - eexists. split; [by command_step; command_last|]. rewrite <- (logged_nil a) at 2. by apply command_done_keep.
Qed.

(** ** The handler *)

(** A queue of words at a guest pointer, as the list it holds. *)
Definition word_queue_at (a : EmbCommArea) (p : Z) (n sig : Z) (xs : list Z) : Prop :=
  exists q, queues a !! p = Some q /\ represents (elt := Z) q xs /\ queue_size q = n /\ signal q = sig.

Definition with_queue (p : Z) (q : EmbQueue (list Z)) (a : EmbCommArea) : EmbCommArea :=
  set_queues (<[p := q]> (queues a)) a.

Lemma word_queue_with p q a n s xs :
  represents (elt := Z) q xs -> queue_size q = n -> signal q = s ->
  word_queue_at (with_queue p q a) p n s xs.
Proof. intros. exists q. split; [apply lookup_insert_eq|done]. Qed.
Lemma word_queue_with_other p p' q a n s xs :
  p <> p' -> word_queue_at a p' n s xs -> word_queue_at (with_queue p q a) p' n s xs.
Proof. intros Hne (q' & E & H). exists q'. split; [simpl; by rewrite lookup_insert_ne|done]. Qed.

Lemma run_queue_filled a p n s xs : word_queue_at a p n s xs ->
  queue_filled p a = (Ok (Z.of_nat (length xs)), a).
Proof.
  intros (q & E & [W F _] & _). unfold queue_filled. erewrite bind_Ok by (by apply run_queue_at).
  by rewrite EmbQueueFilled_spec, F by done.
Qed.
Lemma run_queue_space a p n s xs : word_queue_at a p n s xs ->
  queue_space p a = (Ok (n - 1 - Z.of_nat (length xs)), a).
Proof.
  intros (q & E & [W F _] & <- & _). unfold queue_space. erewrite bind_Ok by (by apply run_queue_at).
  by rewrite EmbQueueSpace_spec, F by done.
Qed.

Lemma run_take_word a p n s x xs : word_queue_at a p n s (x :: xs) ->
  exists q, take_word p a = (Ok x, with_queue p q a) /\ word_queue_at (with_queue p q a) p n s xs.
Proof.
  intros (q & E & R & <- & <-). destruct (run_take_alone q x xs R) as (take & q' & E1 & E2 & R' & E3 & E4).
  exists q'. split; [|by apply word_queue_with]. unfold take_word.
  erewrite bind_Ok by (by apply run_queue_at). unfold EmbQueueTakeWord. rewrite E1. cbn [of_option].
  rewrite run_bind_ret, E2. done.
Qed.

(** The state after EmbSendSignal. *)
Definition signal_sent (n : Z) (a : EmbCommArea) : EmbCommArea :=
  let a' := if (-1 <? n) && (n <? NSignals)
            then set_emulator_interrupts (emulator_interrupts a + 1)
                   (set_host_to_guest_signals (Z.lor (host_to_guest_signals a) (signal_mask n)) a)
            else a in
  set_wakeup_broadcasts (wakeup_broadcasts a + 1) a'.

Lemma run_EmbSendSignal n a : wakeupLock a = false -> EmbSendSignal n a = (Ok tt, signal_sent n a).
Proof.
  intros Hl. unfold EmbSendSignal. erewrite bind_Ok by (by apply run_lock). unfold signal_sent.
  destruct ((-1 <? n) && (n <? NSignals)); cbn [when].
  - rewrite run_bind_assoc, run_bind_modify. unfold SendInterruptToEmulator, broadcast_wakeup.
    rewrite !run_bind_modify. rewrite run_unlock by done. by destruct a; simpl in *; subst.
  - rewrite run_bind_ret. unfold broadcast_wakeup. rewrite run_bind_modify.
    rewrite run_unlock by done. by destruct a; simpl in *; subst.
Qed.

(** Only the queues, and the signals sent to the guest, have changed. *)
Definition same_but_queues (a a' : EmbCommArea) : Prop :=
  a' = set_queues (queues a') (set_host_to_guest_signals (host_to_guest_signals a')
        (set_wakeup_broadcasts (wakeup_broadcasts a') (set_emulator_interrupts (emulator_interrupts a') a))).

Lemma run_put_word a p n s xs x : word_queue_at a p n s xs -> wakeupLock a = false ->
  Z.of_nat (length xs) < n - 1 ->
  exists a', put_word p x a = (Ok tt, a') /\ word_queue_at a' p n s (xs ++ [x]) /\
    (forall p', p' <> p -> queues a' !! p' = queues a !! p') /\ same_but_queues a a'.
Proof.
  intros (q & E & R & <- & <-) Hl Hn.
  destruct (run_put_alone q xs x R I Hn) as (q1 & p1 & q' & E1 & E2 & R' & E3 & E4).
  unfold put_word. erewrite bind_Ok by (by apply run_queue_at).
  unfold EmbQueuePutWord. rewrite E1. cbn [of_option]. rewrite run_bind_ret, E2.
  assert (forall a', queues a' = queues (with_queue p q' a) -> word_queue_at a' p (queue_size q) (signal q) (xs ++ [x]) /\
    (forall p', p' <> p -> queues a' !! p' = queues a !! p')) as Hq.
  { intros a' Ea. split.
    - exists q'. rewrite Ea. split; [apply lookup_insert_eq|done].
    - intros p' Hp. rewrite Ea. simpl. by apply lookup_insert_ne. }
  change (put_queue_at p q') with (modify (S := EmbCommArea) (with_queue p q')). rewrite run_bind_modify.
  destruct xs as [|y xs].
  - rewrite run_EmbSendSignal by done. eexists. split; [done|].
    destruct (Hq (signal_sent (signal q) (with_queue p q' a))) as [H1 H2].
    { unfold signal_sent. by destruct (_ && _). }
    do 2 (split; [done|]). unfold same_but_queues, signal_sent. by destruct (_ && _), a.
  - eexists. split; [done|]. destruct (Hq (with_queue p q' a) eq_refl) as [H1 H2].
    do 2 (split; [done|]). by destruct a.
Qed.

(** *** The state between two commands *)

Section handler.
Context (p h cq rq nc nr sc sr : Z) (c : EmbDiskChannel).

Definition command_buffer (a : EmbCommArea) (x : Z) : Prop :=
  x <> 0 /\ exists b, diskCommands a !! x = Some b /\ command_ok b.
Definition is_answered (a : EmbCommArea) (x : Z) : Prop :=
  exists b, diskCommands a !! x = Some b /\ answered_status (status b) = true.

(** The channel [c] at [p] with its record at [h], its queues holding the commands [xs] and the
    answered commands [ys]; no lock is held and the disks are not inhibited. *)
Record disk_ready (a : EmbCommArea) (xs ys : list Z) : Prop := {
  ready_channel : exists e, channels a !! p = Some e /\ channel_type e = EmbDiskChannelType c;
  ready_state : exists d, diskStates a !! h = Some d /\ command_queue_ptr d = cq /\ status_queue_ptr d = rq;
  ready_commands : word_queue_at a cq nc sc xs;
  ready_status : word_queue_at a rq nr sr ys;
  ready_locks : wakeupLock a = false /\ signalLock a = false /\ inhibitDisk a = false;
  ready_buffers : Forall (command_buffer a) xs
}.

Hypothesis (Hc : hostState c = Some h) (Hb : 0 <= blocksize c) (Hne : cq <> rq) (Hsc : 0 <= sc < 32).

Lemma ready_take a x xs ys q :
  disk_ready a (x :: xs) ys -> word_queue_at (with_queue cq q a) cq nc sc xs ->
  disk_ready (with_queue cq q a) xs ys.
Proof.
  intros [] Hq. constructor; try done; [by apply word_queue_with_other|].
  by inversion ready_buffers0.
Qed.

Lemma ready_done a a' x b d xs ys :
  disk_ready a xs ys -> diskStates a !! h = Some d -> diskCommands a !! x = Some b -> command_ok b ->
  command_done h x d b a a' -> disk_ready a' xs ys /\ is_answered a' x /\
  (forall y, is_answered a y -> is_answered a' y).
Proof.
  intros [R1 (d' & E & C1 & C2) R3 R4 R5 R6] Ed Eb Ho [(b' & A1 & A2 & A3 & A4) O (e & S) D].
  rewrite Ed in E. injection E as <-. split; [|split].
  - constructor.
    + rewrite D. exact R1.
    + by eexists.
    + unfold word_queue_at. rewrite D. exact R3.
    + unfold word_queue_at. rewrite D. exact R4.
    + rewrite D. exact R5.
    + eapply Forall_impl; [exact R6|]. intros y [Hy (by' & E & Hby)]. split; [done|].
      destruct (decide (y = x)) as [->|Hyx]; [|exists by'; by rewrite O].
      exists b'. split; [done|]. destruct Ho as [P1 P2 P3]. constructor; rewrite ?A3, ?A4; done.
  - by exists b'.
  - intros y (by' & E & Hby). destruct (decide (y = x)) as [->|Hyx]; [by exists b'|].
    exists by'. by rewrite O.
Qed.

Lemma ready_put a a' x xs ys :
  disk_ready a xs ys -> word_queue_at a' rq nr sr (ys ++ [x]) ->
  (forall p', p' <> rq -> queues a' !! p' = queues a !! p') -> same_but_queues a a' ->
  disk_ready a' xs (ys ++ [x]) /\ diskCommands a' = diskCommands a.
Proof.
  intros [R1 R2 R3 R4 R5 R6] Hq Ho Hs. split; [|by rewrite Hs].
  constructor; try done.
  - rewrite Hs. exact R1.
  - rewrite Hs. exact R2.
  - unfold word_queue_at. by rewrite Ho.
  - rewrite Hs. exact R5.
  - rewrite Hs. exact R6.
Qed.

Lemma run_disk_channel_at a xs ys : disk_ready a xs ys -> disk_channel_at p a = (Ok c, a).
Proof.
  intros [(e & E1 & E2)]. unfold disk_channel_at, channel_at. rewrite run_bind_assoc, run_bind_gets.
  rewrite E1. cbn [of_option]. by rewrite run_bind_ret, E2.
Qed.

(** One command: it moves from the queue of commands to the queue of answers, answered. *)
Lemma run_disk_turn a x xs ys :
  disk_ready a (x :: xs) ys -> Z.of_nat (length ys) < nr - 1 ->
  exists a', disk_life_turn lseek transfer fuel p h tt a = (Ok (inl tt), a') /\
    disk_ready a' xs (ys ++ [x]) /\ is_answered a' x /\ (forall y, is_answered a y -> is_answered a' y).
Proof.
  intros R Hn. pose proof R as [_ (d & Ed & Ec & Er) R3 R4 (L1 & L2 & L3) R6].
  inversion R6 as [|? ? [Hx (b & Eb & Ho)] _]; subst x0 l.
  destruct (run_take_word a cq nc sc x xs R3) as (q & Et & Hq).
  pose proof (ready_take a x xs ys q R Hq) as R1.
  destruct (run_execute_disk_command c h x d b (with_queue cq q a) Ed Eb Ho Hb) as (a2 & E2 & D2).
  destruct (ready_done _ _ x b d xs ys R1 Ed Eb Ho D2) as (R2 & A2 & K2).
  destruct (run_put_word a2 rq nr sr ys x) as (a3 & E3 & Q3 & O3 & S3);
    [apply R2|apply R2|done|].
  destruct (ready_put _ _ x xs ys R2 Q3 O3 S3) as [R3' E3'].
  exists a3. split; [|split; [done|split]].
  - unfold disk_life_turn. erewrite bind_Ok by (by apply run_disk_state_at). rewrite Ec, Er.
    erewrite bind_Ok by (by eapply run_queue_filled).
    destruct (Z.eqb_spec (Z.of_nat (length (x :: xs))) 0) as [E0|_]; [simpl in E0; lia|].
    rewrite run_bind_gets, L3. erewrite bind_Ok by (by eapply run_queue_space).
    destruct (Z.eqb_spec (nr - 1 - Z.of_nat (length ys)) 0); [lia|]. cbn [orb].
    erewrite bind_Ok by exact Et. apply Z.eqb_neq in Hx. rewrite Hx. cbn [negb when].
    rewrite run_bind_assoc. erewrite bind_Ok by (by eapply run_disk_channel_at).
    rewrite run_bind_assoc. erewrite bind_Ok by exact E2. by erewrite bind_Ok by exact E3.
  - unfold is_answered. by rewrite E3'.
  - intros y Hy. unfold is_answered. rewrite E3'. by apply K2.
Qed.

Lemma run_disk_loop n : forall a xs ys,
  disk_ready a xs ys -> (length xs < n)%nat -> Z.of_nat (length ys) <= nr - 1 ->
  exists a', loop n (disk_life_turn lseek transfer fuel p h) tt a = (Ok tt, a') /\
    let k := Nat.min (length xs) (Z.to_nat (nr - 1 - Z.of_nat (length ys))) in
    disk_ready a' (skipn k xs) (ys ++ firstn k xs) /\
    Forall (is_answered a') (firstn k xs) /\ (forall y, is_answered a y -> is_answered a' y) /\
    ((k < length xs)%nat -> Z.testbit (reawaken a') sc = true).
Proof.
  induction n as [|n IH]; intros a xs ys R Hn Hy; [lia|]. cbn [loop].
  destruct xs as [|x xs].
  { exists a. simpl. rewrite app_nil_r. split; [|split; [done|split; [constructor|split; [done|lia]]]].
    pose proof R as [_ (d & Ed & Ec & Er) R3 _ _ _]. unfold disk_life_turn. rewrite run_bind_assoc.
    erewrite bind_Ok by (by apply run_disk_state_at). rewrite Ec, run_bind_assoc.
    by erewrite bind_Ok by (by eapply run_queue_filled). }
  destruct (Z.eq_dec (Z.of_nat (length ys)) (nr - 1)) as [Hfull|Hroom].
  - rewrite Hfull, Z.sub_diag. simpl Z.to_nat. rewrite Nat.min_0_r. cbn [skipn firstn]. rewrite app_nil_r.
    pose proof R as [_ (d & Ed & Ec & Er) R3 R4 (L1 & L2 & L3) _]. pose proof R3 as (q & Eq & _ & _ & Es).
    eexists (set_reawaken (Z.lor (reawaken a) (signal_mask sc)) a). split; [|split; [|split; [constructor|split]]].
    + unfold disk_life_turn. rewrite run_bind_assoc.
      erewrite bind_Ok by (by apply run_disk_state_at). rewrite Ec, Er, run_bind_assoc.
      erewrite bind_Ok by (by eapply run_queue_filled).
      destruct (Z.eqb_spec (Z.of_nat (length (x :: xs))) 0) as [E0|_]; [simpl in E0; lia|].
      rewrite run_bind_assoc, run_bind_gets, L3, run_bind_assoc.
      erewrite bind_Ok by (by eapply run_queue_space). rewrite Hfull, Z.sub_diag. cbn [Z.eqb orb].
      rewrite run_bind_assoc. erewrite bind_Ok by (by apply run_queue_at). rewrite Es, run_bind_assoc.
      erewrite bind_Ok by (by apply run_SignalLater). done.
    + destruct R. by constructor.
    + done.
    + intros _. simpl. rewrite lor_signal_mask, Z.eqb_refl by lia. apply orb_true_r.
  - destruct (run_disk_turn a x xs ys R ltac:(lia)) as (a1 & E1 & R1 & A1 & K1).
    destruct (IH a1 xs (ys ++ [x]) R1) as (a2 & E2 & H); [simpl in Hn; lia|rewrite length_app; simpl; lia|].
    exists a2. split; [by erewrite bind_Ok by exact E1|]. cbv zeta in H |- *.
    rewrite length_app in H. simpl length in *.
    replace (Z.to_nat (nr - 1 - Z.of_nat (length ys))) with
      (S (Z.to_nat (nr - 1 - Z.of_nat (length ys + 1)))) by lia.
    rewrite <- Nat.succ_min_distr. cbn [skipn firstn]. destruct H as (H1 & H2 & H3 & H4).
    split; [by rewrite <- app_assoc in H1|]. split; [constructor; [by apply H3|done]|].
    split; [by intros y Hy'; apply H3, K1|]. intros Hk. apply H4. lia.
Qed.

(** C18. DiskLife answers the commands of its queue: it moves as many of them, in order, as the
    queue of answers has room for, each with a final status; when some are left it asks for the
    signal to be sent again, so that they are not forgotten. It always ends, whatever the file
    system answers. *)
Theorem DiskLife_answers a xs ys :
  disk_ready a xs ys -> (length xs < fuel)%nat -> Z.of_nat (length ys) <= nr - 1 ->
  exists a', DiskLife lseek transfer fuel p a = (Ok tt, a') /\
    let k := Nat.min (length xs) (Z.to_nat (nr - 1 - Z.of_nat (length ys))) in
    disk_ready a' (skipn k xs) (ys ++ firstn k xs) /\
    Forall (is_answered a') (firstn k xs) /\
    ((k < length xs)%nat -> Z.testbit (reawaken a') sc = true).
Proof.
  intros R Hn Hy. destruct (run_disk_loop fuel a xs ys R Hn Hy) as (a' & E & H1 & H2 & _ & H4).
  exists a'. split; [|done]. unfold DiskLife. erewrite bind_Ok by (by eapply run_disk_channel_at).
  rewrite Hc. cbn [of_option]. by rewrite run_bind_ret.
Qed.
End handler.
End disks.

(** ** A sample disk *)

(** A file system that does all it is asked to. *)
Definition sample_lseek (log : list DiskRequest) (fd offset : Z) : Z := offset.
Definition sample_transfer (log : list DiskRequest) (write : bool) (fd offset : Z) (iovs : list (Z * Z)) : Z :=
  total_bytes iovs.

(** A partition of ten pages, with its handler on signal 3, and a command that reads two of them
    into two buffers. *)
Definition sample_disk : EmbDiskChannel := MkEmbDiskChannel 10 2000 2100 false (Some 100) DiskPageSize.
Definition sample_state : DiskChannelState := MkDiskChannelState 2000 2100 false 5 DiskPageSize.
Definition sample_command : EmbDiskQueueElement :=
  MkEmbDiskQueueElement ReadCmd 4 2 2 (OtherStatus 0) 0 [(3000, 2048); (6000, 2048)].
Definition sample_area : EmbCommArea :=
  set_channels {[10 := MkEmbChannel (EmbDiskChannelType sample_disk) 0 NullEmbPtr]}
   (set_diskStates {[100 := sample_state]}
   (set_diskCommands {[7 := sample_command]}
   (set_queues {[2000 := MkEmbQueue 4 4 1 0 3 [7; 0; 0; 0]; 2100 := MkEmbQueue 4 4 0 0 4 [0; 0; 0; 0]]} idle_area))).

Lemma sample_command_ok : command_ok 10 sample_command.
Proof. constructor; [done| |simpl; lia]. repeat constructor; done. Qed.

Lemma sample_ready : disk_ready 10 10 100 2000 2100 4 4 3 4 sample_disk sample_area [7] [].
Proof.
  constructor.
  - by eexists.
  - by exists sample_state.
  - exists (MkEmbQueue 4 4 1 0 3 [7; 0; 0; 0]). split; [done|]. split; [|done].
    constructor; [by constructor|done|]. intros j e Hj. destruct j; [by injection Hj as <-|done].
  - exists (MkEmbQueue 4 4 0 0 4 [0; 0; 0; 0]). split; [done|]. split; [|done].
    constructor; [by constructor|done|]. intros j e Hj. by destruct j.
  - done.
  - apply Forall_singleton. split; [done|]. exists sample_command. split; [done|]. apply sample_command_ok.
Qed.


Lemma DiskLife_answers_witness :
  exists a', DiskLife sample_lseek sample_transfer 10 10 sample_area = (Ok tt, a') /\ is_answered a' 7.
Proof.
  destruct (DiskLife_answers sample_lseek sample_transfer 10 10 100 2000 2100 4 4 3 4 sample_disk
    eq_refl ltac:(done) ltac:(done) ltac:(done) sample_area [7] [] sample_ready) as (a' & E & _ & A & _);
    [simpl; lia|done|].
  exists a'. split; [exact E|]. change (Forall (is_answered a') [7]) in A. by inversion A.
Defined.
