(* ===== verification/PageState.v ===== *)
(** The state of the memory of the assembly and stub emulators: emulator/memory.c and memory.h,
    in the variant for macOS, which protects the pages of DataSpace.

    The hardware is a map of the wads (runs of eight pages) that are mapped. A fresh wad holds
    tags 0 and data [FFFFFFFF], so the maps of a wad hold the words written since, and a
    protection for each of its pages; the tags stay readable and writable. *)

From S2P Require Export Effect Word.
#[local] Open Scope vlm_scope.

(** ** Constants *)

Definition VMAttribute_AccessFault : Z := 1. (* emulator/aihead.h:1051 VMAttribute_AccessFault *)
Definition VMAttribute_WriteFault : Z := 2. (* emulator/aihead.h:1053 VMAttribute_WriteFault *)
Definition VMAttribute_TransportFault : Z := 4. (* emulator/aihead.h:1055 VMAttribute_TransportFault *)
Definition VMAttribute_TransportDisable : Z := 8. (* emulator/aihead.h:1057 VMAttribute_TransportDisable *)
Definition VMAttribute_Ephemeral : Z := 16. (* emulator/aihead.h:1059 VMAttribute_Ephemeral *)
Definition VMAttribute_Modified : Z := 32. (* emulator/aihead.h:1061 VMAttribute_Modified *)
Definition VMAttribute_Exists : Z := 64. (* emulator/aihead.h:1063 VMAttribute_Exists *)
Definition MemoryPage_Size : Z := 8192. (* emulator/aihead.h:1067 MemoryPage_Size *)
Definition MemoryPage_AddressShift : Z := 13. (* emulator/aihead.h:1069 MemoryPage_AddressShift *)
Definition Type_GCForward : Z := 37. (* emulator/aihead.h:83 Type_GCForward *)
Definition Cdr_Nil : Z := 1. (* emulator/aihead.h:139 Cdr_Nil *)
Definition MemoryWad_AddressShift : Z := 16. (* emulator/memory.c:189 MemoryWad_AddressShift *)
Definition MemoryWad_Size : Z := 65536. (* emulator/memory.c:190 MemoryWad_Size *)
Definition ResidentPages_Size : Z := 16384. (* emulator/memory.c:140 ResidentPages_Size *)
(** The protections of mman.h; PROT_EXEC is neutralised on macOS. *)
Definition PROT_NONE : Z := 0.
Definition PROT_READ : Z := 1.
Definition PROT_WRITE : Z := 2.
Definition PROT_EXEC : Z := 0. (* emulator/memory.c:17 PROT_EXEC *)

(** ** Words *)

(* emulator/ivoryrep.h:11-20 _LispObj *)
Record LispObjRecord := MakeLispObj { LispObjTag : Z; LispObjData : Z }.

(** ** The coprocessor's registers *)

(* emulator/memory.h:103-113 _VMState *)
Record VMState := MkVMState {
  CommandRegister : Z;
  AddressRegister : Z;
  ExtentRegister : Z;
  AttributesRegister : Z;
  DestinationRegister : Z;
  DataRegister : LispObjRecord;
  MaskRegisterLow : Z;
  MaskRegisterHigh : Z
}.

Definition set_CommandRegister (v : Z) (r : VMState) : VMState :=
  MkVMState v (AddressRegister r) (ExtentRegister r) (AttributesRegister r) (DestinationRegister r)
    (DataRegister r) (MaskRegisterLow r) (MaskRegisterHigh r).
Definition set_AddressRegister (v : Z) (r : VMState) : VMState :=
  MkVMState (CommandRegister r) v (ExtentRegister r) (AttributesRegister r) (DestinationRegister r)
    (DataRegister r) (MaskRegisterLow r) (MaskRegisterHigh r).
Definition set_ExtentRegister (v : Z) (r : VMState) : VMState :=
  MkVMState (CommandRegister r) (AddressRegister r) v (AttributesRegister r) (DestinationRegister r)
    (DataRegister r) (MaskRegisterLow r) (MaskRegisterHigh r).
Definition set_AttributesRegister (v : Z) (r : VMState) : VMState :=
  MkVMState (CommandRegister r) (AddressRegister r) (ExtentRegister r) v (DestinationRegister r)
    (DataRegister r) (MaskRegisterLow r) (MaskRegisterHigh r).
Definition set_DestinationRegister (v : Z) (r : VMState) : VMState :=
  MkVMState (CommandRegister r) (AddressRegister r) (ExtentRegister r) (AttributesRegister r) v
    (DataRegister r) (MaskRegisterLow r) (MaskRegisterHigh r).
Definition set_DataRegister (v : LispObjRecord) (r : VMState) : VMState :=
  MkVMState (CommandRegister r) (AddressRegister r) (ExtentRegister r) (AttributesRegister r)
    (DestinationRegister r) v (MaskRegisterLow r) (MaskRegisterHigh r).
Definition set_MaskRegisterLow (v : Z) (r : VMState) : VMState :=
  MkVMState (CommandRegister r) (AddressRegister r) (ExtentRegister r) (AttributesRegister r)
    (DestinationRegister r) (DataRegister r) v (MaskRegisterHigh r).
Definition set_MaskRegisterHigh (v : Z) (r : VMState) : VMState :=
  MkVMState (CommandRegister r) (AddressRegister r) (ExtentRegister r) (AttributesRegister r)
    (DestinationRegister r) (DataRegister r) (MaskRegisterLow r) v.

(** ** Memory *)

(* emulator/memory.c:190-193 MemoryWad_Size *)
Record Wad := MkWad {
  wad_tags : gmap Z Z;
  wad_data : gmap Z Z;
  wad_protection : list Z
}.

Definition set_wad_tags (v : gmap Z Z) (w : Wad) : Wad :=
  MkWad v (wad_data w) (wad_protection w).
Definition set_wad_data (v : gmap Z Z) (w : Wad) : Wad :=
  MkWad (wad_tags w) v (wad_protection w).
Definition set_wad_protection (v : list Z) (w : Wad) : Wad :=
  MkWad (wad_tags w) (wad_data w) v.

(** The attribute table, the mapped wads, the fields of the processor that the memory system
    uses, the pages that have faulted, the last faulting address (a data address or a tag
    address) and how often it has faulted in a row. *)
(* emulator/memory.c:138-163 VMAttributeTable *)
Record VMMemory := MkVMMemory {
  VMAttributeTable : gmap Z Z;
  wads : gmap Z Wad;
  stackcachebasevma : Z;
  scovlimit : Z;
  stackcachedata : list LispObjRecord;
  zoneoldspace : Z;
  ephemeraloldspace : Z;
  faultvma : Z;
  EnableIDS : bool;
  ResidentPages : list Z;
  ResidentPagesPointer : Z;
  ResidentPagesWrap : bool;
  ResidentPagesScan : Z;
  last_vma : option (bool * Z);
  times : Z;
  memory_vma : Z;
  VM : VMState
}.

Definition set_VMAttributeTable (v : gmap Z Z) (s : VMMemory) : VMMemory :=
  MkVMMemory v (wads s) (stackcachebasevma s) (scovlimit s) (stackcachedata s) (zoneoldspace s)
    (ephemeraloldspace s) (faultvma s) (EnableIDS s) (ResidentPages s) (ResidentPagesPointer s)
    (ResidentPagesWrap s) (ResidentPagesScan s) (last_vma s) (times s) (memory_vma s) (VM s).
Definition set_wads (v : gmap Z Wad) (s : VMMemory) : VMMemory :=
  MkVMMemory (VMAttributeTable s) v (stackcachebasevma s) (scovlimit s) (stackcachedata s) (zoneoldspace s)
    (ephemeraloldspace s) (faultvma s) (EnableIDS s) (ResidentPages s) (ResidentPagesPointer s)
    (ResidentPagesWrap s) (ResidentPagesScan s) (last_vma s) (times s) (memory_vma s) (VM s).
Definition set_stackcachebasevma (v : Z) (s : VMMemory) : VMMemory :=
  MkVMMemory (VMAttributeTable s) (wads s) v (scovlimit s) (stackcachedata s) (zoneoldspace s)
    (ephemeraloldspace s) (faultvma s) (EnableIDS s) (ResidentPages s) (ResidentPagesPointer s)
    (ResidentPagesWrap s) (ResidentPagesScan s) (last_vma s) (times s) (memory_vma s) (VM s).
Definition set_scovlimit (v : Z) (s : VMMemory) : VMMemory :=
  MkVMMemory (VMAttributeTable s) (wads s) (stackcachebasevma s) v (stackcachedata s) (zoneoldspace s)
    (ephemeraloldspace s) (faultvma s) (EnableIDS s) (ResidentPages s) (ResidentPagesPointer s)
    (ResidentPagesWrap s) (ResidentPagesScan s) (last_vma s) (times s) (memory_vma s) (VM s).
Definition set_stackcachedata (v : list LispObjRecord) (s : VMMemory) : VMMemory :=
  MkVMMemory (VMAttributeTable s) (wads s) (stackcachebasevma s) (scovlimit s) v (zoneoldspace s)
    (ephemeraloldspace s) (faultvma s) (EnableIDS s) (ResidentPages s) (ResidentPagesPointer s)
    (ResidentPagesWrap s) (ResidentPagesScan s) (last_vma s) (times s) (memory_vma s) (VM s).
Definition set_zoneoldspace (v : Z) (s : VMMemory) : VMMemory :=
  MkVMMemory (VMAttributeTable s) (wads s) (stackcachebasevma s) (scovlimit s) (stackcachedata s) v
    (ephemeraloldspace s) (faultvma s) (EnableIDS s) (ResidentPages s) (ResidentPagesPointer s)
    (ResidentPagesWrap s) (ResidentPagesScan s) (last_vma s) (times s) (memory_vma s) (VM s).
Definition set_ephemeraloldspace (v : Z) (s : VMMemory) : VMMemory :=
  MkVMMemory (VMAttributeTable s) (wads s) (stackcachebasevma s) (scovlimit s) (stackcachedata s)
    (zoneoldspace s) v (faultvma s) (EnableIDS s) (ResidentPages s) (ResidentPagesPointer s)
    (ResidentPagesWrap s) (ResidentPagesScan s) (last_vma s) (times s) (memory_vma s) (VM s).
Definition set_faultvma (v : Z) (s : VMMemory) : VMMemory :=
  MkVMMemory (VMAttributeTable s) (wads s) (stackcachebasevma s) (scovlimit s) (stackcachedata s)
    (zoneoldspace s) (ephemeraloldspace s) v (EnableIDS s) (ResidentPages s) (ResidentPagesPointer s)
    (ResidentPagesWrap s) (ResidentPagesScan s) (last_vma s) (times s) (memory_vma s) (VM s).
Definition set_EnableIDS (v : bool) (s : VMMemory) : VMMemory :=
  MkVMMemory (VMAttributeTable s) (wads s) (stackcachebasevma s) (scovlimit s) (stackcachedata s)
    (zoneoldspace s) (ephemeraloldspace s) (faultvma s) v (ResidentPages s) (ResidentPagesPointer s)
    (ResidentPagesWrap s) (ResidentPagesScan s) (last_vma s) (times s) (memory_vma s) (VM s).
Definition set_ResidentPages (v : list Z) (s : VMMemory) : VMMemory :=
  MkVMMemory (VMAttributeTable s) (wads s) (stackcachebasevma s) (scovlimit s) (stackcachedata s)
    (zoneoldspace s) (ephemeraloldspace s) (faultvma s) (EnableIDS s) v (ResidentPagesPointer s)
    (ResidentPagesWrap s) (ResidentPagesScan s) (last_vma s) (times s) (memory_vma s) (VM s).
Definition set_ResidentPagesPointer (v : Z) (s : VMMemory) : VMMemory :=
  MkVMMemory (VMAttributeTable s) (wads s) (stackcachebasevma s) (scovlimit s) (stackcachedata s)
    (zoneoldspace s) (ephemeraloldspace s) (faultvma s) (EnableIDS s) (ResidentPages s) v
    (ResidentPagesWrap s) (ResidentPagesScan s) (last_vma s) (times s) (memory_vma s) (VM s).
Definition set_ResidentPagesWrap (v : bool) (s : VMMemory) : VMMemory :=
  MkVMMemory (VMAttributeTable s) (wads s) (stackcachebasevma s) (scovlimit s) (stackcachedata s)
    (zoneoldspace s) (ephemeraloldspace s) (faultvma s) (EnableIDS s) (ResidentPages s)
    (ResidentPagesPointer s) v (ResidentPagesScan s) (last_vma s) (times s) (memory_vma s) (VM s).
Definition set_ResidentPagesScan (v : Z) (s : VMMemory) : VMMemory :=
  MkVMMemory (VMAttributeTable s) (wads s) (stackcachebasevma s) (scovlimit s) (stackcachedata s)
    (zoneoldspace s) (ephemeraloldspace s) (faultvma s) (EnableIDS s) (ResidentPages s)
    (ResidentPagesPointer s) (ResidentPagesWrap s) v (last_vma s) (times s) (memory_vma s) (VM s).
Definition set_last_vma (v : option (bool * Z)) (s : VMMemory) : VMMemory :=
  MkVMMemory (VMAttributeTable s) (wads s) (stackcachebasevma s) (scovlimit s) (stackcachedata s)
    (zoneoldspace s) (ephemeraloldspace s) (faultvma s) (EnableIDS s) (ResidentPages s)
    (ResidentPagesPointer s) (ResidentPagesWrap s) (ResidentPagesScan s) v (times s) (memory_vma s) (VM s).
Definition set_times (v : Z) (s : VMMemory) : VMMemory :=
  MkVMMemory (VMAttributeTable s) (wads s) (stackcachebasevma s) (scovlimit s) (stackcachedata s)
    (zoneoldspace s) (ephemeraloldspace s) (faultvma s) (EnableIDS s) (ResidentPages s)
    (ResidentPagesPointer s) (ResidentPagesWrap s) (ResidentPagesScan s) (last_vma s) v (memory_vma s)
    (VM s).
Definition set_memory_vma (v : Z) (s : VMMemory) : VMMemory :=
  MkVMMemory (VMAttributeTable s) (wads s) (stackcachebasevma s) (scovlimit s) (stackcachedata s)
    (zoneoldspace s) (ephemeraloldspace s) (faultvma s) (EnableIDS s) (ResidentPages s)
    (ResidentPagesPointer s) (ResidentPagesWrap s) (ResidentPagesScan s) (last_vma s) (times s) v (VM s).
Definition set_VM (v : VMState) (s : VMMemory) : VMMemory :=
  MkVMMemory (VMAttributeTable s) (wads s) (stackcachebasevma s) (scovlimit s) (stackcachedata s)
    (zoneoldspace s) (ephemeraloldspace s) (faultvma s) (EnableIDS s) (ResidentPages s)
    (ResidentPagesPointer s) (ResidentPagesWrap s) (ResidentPagesScan s) (last_vma s) (times s)
    (memory_vma s) v.

Abbreviation Mem := (M VMMemory).
