(* ===== verification/PageTable.v ===== *)
(** The page attributes and protections of emulator/memory.c: creation and destruction of pages,
    the protection derived from the attributes, and the handler of memory faults. A section
    that runs under the protection lock is atomic. *)

From S2P Require Export PageState.
#[local] Open Scope vlm_scope.

(** ** Addresses *)

Definition MemoryPageNumber (vma : Z) : Z := Z.shiftr vma MemoryPage_AddressShift. (* emulator/memory.c:154 MemoryPageNumber *)
Definition MemoryPageOffset (vma : Z) : Z := Z.land vma (MemoryPage_Size - 1). (* emulator/memory.c:155 MemoryPageOffset *)
Definition PageNumberMemory (vpn : Z) : Z := u32 (Z.shiftl vpn MemoryPage_AddressShift). (* emulator/memory.c:156 PageNumberMemory *)
Definition MemoryWadNumber (vma : Z) : Z := Z.shiftr vma MemoryWad_AddressShift. (* emulator/memory.c:191 MemoryWadNumber *)
Definition MemoryWadOffset (vma : Z) : Z := Z.land vma (MemoryWad_Size - 1). (* emulator/memory.c:192 MemoryWadOffset *)

(** ** Attributes *)

Definition has (a bits : Z) : bool := negb (Z.land a bits =? 0).
Definition VMAccessFault (a : Z) : bool := has a VMAttribute_AccessFault. (* emulator/memory.h:44 VMAccessFault *)
Definition VMWriteFault (a : Z) : bool := has a VMAttribute_WriteFault. (* emulator/memory.h:45 VMWriteFault *)
Definition VMTransportFault (a : Z) : bool := has a VMAttribute_TransportFault. (* emulator/memory.h:46 VMTransportFault *)
Definition VMTransportDisable (a : Z) : bool := has a VMAttribute_TransportDisable. (* emulator/memory.h:47 VMTransportDisable *)
Definition VMEphemeral (a : Z) : bool := has a VMAttribute_Ephemeral. (* emulator/memory.h:48 VMEphemeral *)
Definition VMModified (a : Z) : bool := has a VMAttribute_Modified. (* emulator/memory.h:49 VMModified *)
Definition VMExists (a : Z) : bool := has a VMAttribute_Exists. (* emulator/memory.h:50 VMExists *)
Definition SetVMTransportFault (a : Z) : Z := Z.lor a VMAttribute_TransportFault. (* emulator/memory.h:54 SetVMTransportFault *)
Definition SetVMTransportDisable (a : Z) : Z := Z.lor a VMAttribute_TransportDisable. (* emulator/memory.h:55 SetVMTransportDisable *)
Definition SetVMEphemeral (a : Z) : Z := Z.lor a VMAttribute_Ephemeral. (* emulator/memory.h:56 SetVMEphemeral *)
Definition ClearVMTransportFault (a : Z) : Z := Z.ldiff a VMAttribute_TransportFault. (* emulator/memory.h:62 ClearVMTransportFault *)
Definition ClearVMTransportDisable (a : Z) : Z := Z.ldiff a VMAttribute_TransportDisable. (* emulator/memory.h:63 ClearVMTransportDisable *)
Definition ClearVMEphemeral (a : Z) : Z := Z.ldiff a VMAttribute_Ephemeral. (* emulator/memory.h:64 ClearVMEphemeral *)

(* emulator/memory.c:173 fault_mask *)
Definition fault_mask : Z :=
  Z.lor VMAttribute_TransportFault (Z.lor VMAttribute_WriteFault VMAttribute_AccessFault).

(** The table has an entry for each of the [2^19] pages; it starts zeroed. *)
Definition table_entries : Z := 2 ^ 19.
Definition attribute_at (vpn : Z) (s : VMMemory) : Z := default 0 (VMAttributeTable s !! vpn).
Definition in_table (vpn : Z) : bool := (0 <=? vpn) && (vpn <? table_entries).
Definition read_attribute (vpn : Z) : Mem Z :=
  if in_table vpn then gets (attribute_at vpn) else undefined.
Definition write_attribute (vpn a : Z) : Mem unit :=
  if in_table vpn then modify (fun s => set_VMAttributeTable (<[vpn := a]> (VMAttributeTable s)) s)
  else undefined.

(* emulator/memory.c:172 Created *)
Definition Created (vma : Z) (s : VMMemory) : bool := VMExists (attribute_at (MemoryPageNumber vma) s).

(** Eight attribute bytes read as one integer, under the mask of the Exists bits. *)
(* emulator/memory.c:195-196 WadCreated *)
Definition wad_created (wad : Z) (s : VMMemory) : bool :=
  existsb (fun i => VMExists (attribute_at (8 * wad + Z.of_nat i) s)) (seq 0 8).
Definition WadCreated (vma : Z) (s : VMMemory) : bool := wad_created (MemoryWadNumber vma) s.

(* emulator/memory.c:211-214 VirtualAddressWadMappedP *)
Definition VirtualAddressWadMappedP (vma : Z) : Mem bool := gets (WadCreated vma).

(** ** Protections *)

(* emulator/memory.c:1616-1635 ComputeProtection *)
Definition ComputeProtection (attr : Z) : Z :=
  let attr := if VMTransportDisable attr then ClearVMTransportFault attr else attr in
  if negb (Z.land attr (Z.lor VMAttribute_Exists (Z.lor VMAttribute_TransportFault VMAttribute_AccessFault))
           =? VMAttribute_Exists)
  then PROT_NONE
  else if negb (Z.land attr (Z.lor VMAttribute_Modified (Z.lor VMAttribute_Ephemeral VMAttribute_WriteFault))
                =? Z.lor VMAttribute_Modified VMAttribute_Ephemeral)
  then Z.lor PROT_READ PROT_EXEC
  else Z.lor PROT_READ (Z.lor PROT_WRITE PROT_EXEC).

(** The protection the hardware gives the data of a page; [None] when its wad is not mapped. *)
Definition page_in_wad (vpn : Z) : Z := Z.land vpn 7.
Definition hardware (vpn : Z) (s : VMMemory) : option Z :=
  match wads s !! Z.shiftr vpn 3 with
  | Some w => nth_Z (wad_protection w) (page_in_wad vpn)
  | None => None
  end.

(** mprotect of the data of one page. The address space that no wad occupies is reserved. *)
Definition mprotect (vpn prot : Z) : Mem unit :=
  s <- gets wads ;;
  w <- of_option (s !! Z.shiftr vpn 3) ;;
  modify (set_wads (<[Z.shiftr vpn 3 := set_wad_protection
    (upd_Z (wad_protection w) (page_in_wad vpn) prot) w]> s)).

(* emulator/memory.c:1637-1684 AdjustProtection *)
Definition AdjustProtection (vma new_attr : Z) : Mem unit :=
  oa <- read_attribute (MemoryPageNumber vma) ;;
  let new := ComputeProtection new_attr in
  let old := if negb (VMExists oa) && VMExists new_attr then Z.lnot new else ComputeProtection oa in
  when (negb (old =? new)) (mprotect (MemoryPageNumber vma) new) ;;
  write_attribute (MemoryPageNumber vma) new_attr.

(* emulator/memory.c:174 DefaultAttributes *)
Definition DefaultAttributes (faultp worldp : bool) (s : VMMemory) : Z :=
  Z.lor (Z.lor (Z.lor VMAttribute_Exists VMAttribute_Ephemeral) (if faultp then VMAttribute_AccessFault else 0))
        (if EnableIDS s && worldp then 0 else VMAttribute_Modified).

(* emulator/memory.c:176-179 SetCreated *)
Definition SetCreated (vma : Z) (faultp worldp : bool) : Mem unit :=
  a <- gets (DefaultAttributes faultp worldp) ;; AdjustProtection vma a.
(* emulator/memory.c:181-184 ClearCreated *)
Definition ClearCreated (vma : Z) : Mem unit := AdjustProtection vma 0.

(** ** Creation and destruction *)

(** A wad as the two calls of mmap and the initialisation of its data leave it. *)
Definition fresh_wad (prot : Z) : Wad := MkWad ∅ ∅ (replicate 8 prot).

Section system_calls.
(** Whether the host can map a wad, and whether it can replace one by a reservation. When it
    cannot, nothing of the wad changes. *)
Context (mmap_wad reserve_wad : Z -> bool).

(* emulator/memory.c:216-306 EnsureVirtualAddress *)
Definition EnsureVirtualAddress (vma : Z) (faultp : bool) : Mem Z :=
  attr <- read_attribute (MemoryPageNumber vma) ;;
  if VMExists attr then
    when (negb (VMModified attr)) (AdjustProtection vma (Z.lor attr VMAttribute_Modified)) ;;
    ret MemoryPage_Size
  else
    created <- gets (WadCreated vma) ;;
    if created : bool then SetCreated vma faultp false ;; ret MemoryPage_Size
    else
      attr <- gets (DefaultAttributes faultp false) ;;
      if mmap_wad (MemoryWadNumber vma) then
        modify (fun s => set_wads
          (<[MemoryWadNumber vma := fresh_wad (ComputeProtection attr)]> (wads s)) s) ;;
        write_attribute (MemoryPageNumber vma) attr ;;
        ret MemoryPage_Size
      else ret 0.

(* emulator/memory.c:308-358 DestroyVirtualAddress *)
Definition DestroyVirtualAddress (vma : Z) : Mem Z :=
  created <- gets (Created vma) ;;
  when created (ClearCreated vma) ;;
  let result := if created : bool then MemoryPage_Size else 0 in
  wad <- gets (WadCreated vma) ;;
  if wad : bool then ret result
  else if reserve_wad (MemoryWadNumber vma) then
    modify (fun s => set_wads (delete (MemoryWadNumber vma) (wads s)) s) ;; ret result
  else ret 0.

(** The number of pages that the words from [vma] touch, in 32-bit unsigned arithmetic. *)
(* emulator/memory.c:363 pages *)
Definition page_count (vma count : Z) : Z :=
  Z.quot (u32 (count + MemoryPageOffset vma + (MemoryPage_Size - 1))) MemoryPage_Size.

Fixpoint ensure_pages (pages : nat) (vma : Z) (faultp : bool) (result : Z) : Mem Z :=
  match pages with
  | O => ret result
  | S n =>
      r <- EnsureVirtualAddress vma faultp ;;
      ensure_pages n (u32 (vma + MemoryPage_Size)) faultp (u32 (result + r))
  end.

(* emulator/memory.c:360-369 EnsureVirtualAddressRange *)
Definition EnsureVirtualAddressRange (vma count : Z) (faultp : bool) : Mem Z :=
  ensure_pages (Z.to_nat (page_count vma count)) vma faultp 0.

Fixpoint destroy_pages (pages : nat) (vma result : Z) : Mem Z :=
  match pages with
  | O => ret result
  | S n =>
      created <- gets (Created vma) ;;
      r <- (if created : bool then DestroyVirtualAddress vma else ret 0) ;;
      destroy_pages n (u32 (vma + MemoryPage_Size)) (u32 (result + r))
  end.

(* emulator/memory.c:371-383 DestroyVirtualAddressRange *)
Definition DestroyVirtualAddressRange (vma count : Z) : Mem Z :=
  destroy_pages (Z.to_nat (page_count vma count)) vma 0.
End system_calls.

(** ** Buffers of system calls *)

Fixpoint grant_pages (pages : nat) (vma : Z) : Mem unit :=
  match pages with
  | O => ret tt
  | S n =>
      attr <- read_attribute (MemoryPageNumber vma) ;;
      let new_attr := Z.lor attr (Z.lor VMAttribute_Ephemeral VMAttribute_Modified) in
      when (VMExists attr && negb (VMAccessFault attr))
        (let new_attr := if VMTransportFault new_attr then SetVMTransportDisable new_attr else new_attr in
         when (negb (new_attr =? attr)) (AdjustProtection vma new_attr)) ;;
      grant_pages n (u32 (vma + MemoryPage_Size))
  end.

(* emulator/memory.c:660-684 EnsureVirtualMemoryAccessible *)
Definition EnsureVirtualMemoryAccessible (vma count : Z) : Mem unit :=
  grant_pages (Z.to_nat (page_count vma (if 0 <? count then count else 0))) (vma - MemoryPageOffset vma).

(** ** Faults *)

(** The branch edges of the interpreter's memory accesses, by instruction address. *)
(* emulator/memory.c:1980-1993 VMExtableLookup *)
Fixpoint extable_search (n : nat) (vm_extable : list (Z * Z)) (pc lo hi : Z) : option Z :=
  match n with
  | O => None
  | S n' =>
      if lo <? hi then
        let mid := lo + Z.shiftr (hi - lo) 1 in
        match nth_Z vm_extable mid with
        | None => None
        | Some (insn, target) =>
            if insn <? pc then extable_search n' vm_extable pc (mid + 1) hi
            else if pc <? insn then extable_search n' vm_extable pc lo mid
            else Some target
        end
      else Some 0
  end.
(* emulator/memory.c:1980-1993 VMExtableLookup *)
Definition VMExtableLookup (vm_extable : list (Z * Z)) (pc : Z) : option Z :=
  extable_search (S (length vm_extable)) vm_extable pc 0 (Z.of_nat (length vm_extable)).

Section faults.
Context (vm_extable : list (Z * Z)).

(** The program counter the interpreter goes on at. *)
(* emulator/memory.c:2001-2010 DeliverDecodeFault *)
Definition DeliverDecodeFault (pc vma : Z) : Mem Z :=
  target <- of_option (VMExtableLookup vm_extable pc) ;;
  modify (set_faultvma vma) ;;
  if target =? 0 then c_exit 1 else ret target.

(* emulator/memory.c:2073-2081 ResidentPagesPointer *)
Definition note_resident (vma : Z) : Mem unit :=
  s <- gets ResidentPagesPointer ;;
  pages <- gets ResidentPages ;;
  if in_bounds pages s then
    modify (set_ResidentPages (upd_Z pages s vma)) ;;
    let ptr := s + 1 in
    if ResidentPages_Size <=? ptr
    then modify (set_ResidentPagesWrap true) ;; modify (set_ResidentPagesPointer 0)
    else modify (set_ResidentPagesPointer ptr)
  else undefined.

(** A fault at an address of DataSpace ([data]) or of TagSpace, by the emulator's thread or by
    another. [None]: the access is tried again; [Some pc]: the interpreter goes on at [pc]. *)
(* emulator/memory.c:2021-2101 segv_handler *)
Definition segv_handler (emu_thread data : bool) (pc vma : Z) : Mem (option Z) :=
  attr <- read_attribute (MemoryPageNumber vma) ;;
  last <- gets last_vma ;;
  (if bool_decide (last = Some (data, vma))
   then modify (fun s => set_times (times s + 1) s)
   else modify (set_last_vma (Some (data, vma))) ;; modify (set_times 1)) ;;
  n <- gets times ;;
  if bool_decide (last = Some (data, vma)) && (10 <? n) then
    if emu_thread then target <- DeliverDecodeFault pc vma ;; ret (Some target) else c_exit 1
  else
    let a := Z.land attr (Z.lor fault_mask (Z.lor VMAttribute_TransportDisable VMAttribute_Exists)) in
    if (a =? VMAttribute_Exists) || (a =? Z.lor VMAttribute_Exists VMAttribute_TransportDisable)
       || (a =? Z.lor VMAttribute_Exists (Z.lor VMAttribute_TransportDisable VMAttribute_TransportFault))
    then
      note_resident vma ;;
      AdjustProtection vma (Z.lor attr (Z.lor VMAttribute_Ephemeral VMAttribute_Modified)) ;;
      ret None
    else if emu_thread then target <- DeliverDecodeFault pc vma ;; ret (Some target) else c_exit 1.

(** ** Accesses *)

(** Whether the hardware lets an access through: data by its page's protection, tags in any
    mapped wad. *)
Definition allowed (data write : bool) (vma : Z) (s : VMMemory) : bool :=
  match hardware (MemoryPageNumber vma) s with
  | None => false
  | Some prot => negb data || has prot (if write then PROT_WRITE else PROT_READ)
  end.

(** An instruction that accesses memory: it is tried again after each fault that the handler
    repairs. [None] when it goes through, [Some pc] when the fault is Lisp's. *)
Definition access_turn (emu_thread data write : bool) (pc vma : Z) (_ : unit) : Mem (unit + option Z) :=
  ok <- gets (allowed data write vma) ;;
  if ok : bool then ret (inr None) else
  r <- segv_handler emu_thread data pc vma ;;
  ret (match r with None => inl tt | Some target => inr (Some target) end).

(** The handler gives up after ten faults in a row at one address. *)
Definition access (emu_thread data write : bool) (pc vma : Z) : Mem (option Z) :=
  loop 12 (access_turn emu_thread data write pc vma) tt.
End faults.
