(* ===== verification/PageSpec.v ===== *)
(** The attribute table decides the protection of every page: each operation keeps the two in
    step, and the fault handler lets through exactly the accesses the attributes allow. *)

From S2P Require Export PageTable.
#[local] Open Scope vlm_scope.

(** ** Attribute bytes *)

(** A decidable fact about a byte holds when it does for each of the 256. *)
Lemma byte_all (f : Z -> bool) : forallb f (seqZ 0 256) = true -> forall a, 0 <= a < 256 -> f a = true.
Proof.
  intros H a Ha. rewrite forallb_forall in H. apply H, list_elem_of_In, elem_of_seqZ. lia.
Qed.

Ltac by_bytes :=
  match goal with
  | H : 0 <= ?a < 256 |- ?l = ?r =>
      apply (bool_decide_eq_true_1 (l = r));
      revert a H; apply byte_all; by vm_compute
  end.

(** The accesses that the attributes of a page allow without telling Lisp. *)
Definition may_read (a : Z) : bool :=
  VMExists a && negb (VMAccessFault a) && (negb (VMTransportFault a) || VMTransportDisable a).
Definition may_write (a : Z) : bool := may_read a && negb (VMWriteFault a).
(** Those that need not even be noted. *)
Definition noted (a : Z) : bool := VMEphemeral a && VMModified a.
Definition note (a : Z) : Z := Z.lor a (Z.lor VMAttribute_Ephemeral VMAttribute_Modified).

Lemma ComputeProtection_spec a : 0 <= a < 256 ->
  ComputeProtection a =
  (if may_write a && noted a then 3 else if may_read a then PROT_READ else PROT_NONE).
Proof. intros Ha. by_bytes. Qed.

Lemma protection_gone a : 0 <= a < 256 -> VMExists a = false -> ComputeProtection a = PROT_NONE.
Proof. intros Ha E. rewrite ComputeProtection_spec by done. unfold may_write, may_read. by rewrite E. Qed.

Lemma note_byte a : 0 <= a < 256 -> 0 <= note a < 256.
Proof.
  intros Ha. cut ((0 <=? note a) && (note a <? 256) = true); [rewrite andb_true_iff, Z.leb_le, Z.ltb_lt; lia|].
  by_bytes.
Qed.
Lemma note_exists a : 0 <= a < 256 -> VMExists (note a) = VMExists a.
Proof. intros Ha. by_bytes. Qed.
Lemma note_may_read a : 0 <= a < 256 -> may_read (note a) = may_read a.
Proof. intros Ha. by_bytes. Qed.
Lemma note_may_write a : 0 <= a < 256 -> may_write (note a) = may_write a.
Proof. intros Ha. by_bytes. Qed.
Lemma note_noted a : 0 <= a < 256 -> noted (note a) = true.
Proof. intros Ha. by_bytes. Qed.

(** The faults that the handler repairs are those on pages that allow writes. *)
Definition repairable (attr : Z) : bool :=
  let a := Z.land attr (Z.lor fault_mask (Z.lor VMAttribute_TransportDisable VMAttribute_Exists)) in
  (a =? VMAttribute_Exists) || (a =? Z.lor VMAttribute_Exists VMAttribute_TransportDisable)
  || (a =? Z.lor VMAttribute_Exists (Z.lor VMAttribute_TransportDisable VMAttribute_TransportFault)).
Lemma repairable_spec a : 0 <= a < 256 -> repairable a = may_write a.
Proof. intros Ha. by_bytes. Qed.

(** ** Addresses *)

Definition is_page (vpn : Z) : Prop := 0 <= vpn < table_entries.

Lemma page_number vma : MemoryPageNumber vma = vma / 2 ^ 13.
Proof. unfold MemoryPageNumber. by rewrite Z.shiftr_div_pow2. Qed.
Lemma page_offset vma : MemoryPageOffset vma = vma mod 2 ^ 13.
Proof. unfold MemoryPageOffset. change (MemoryPage_Size - 1) with (Z.ones 13). by rewrite Z.land_ones. Qed.
Lemma page_in_table vma : is_u32 vma -> is_page (MemoryPageNumber vma).
Proof.
  unfold is_u32, is_page, table_entries. rewrite page_number. intros H.
  split; [apply Z.div_pos; lia|apply Z.div_lt_upper_bound; lia].
Qed.
Lemma in_table_spec vpn : in_table vpn = true <-> is_page vpn.
Proof. unfold in_table, is_page. by rewrite andb_true_iff, Z.leb_le, Z.ltb_lt. Qed.
Lemma page_in_wad_range vpn : 0 <= page_in_wad vpn < 8.
Proof. unfold page_in_wad. change 7 with (Z.ones 3). rewrite Z.land_ones by lia. apply Z.mod_pos_bound. lia. Qed.
Lemma page_split vpn : vpn = 8 * Z.shiftr vpn 3 + page_in_wad vpn.
Proof.
  unfold page_in_wad. change 7 with (Z.ones 3). rewrite Z.land_ones, Z.shiftr_div_pow2 by lia.
  change (2 ^ 3) with 8. apply Z.div_mod. lia.
Qed.
Lemma wad_of_page vma : MemoryWadNumber vma = Z.shiftr (MemoryPageNumber vma) 3.
Proof. unfold MemoryWadNumber, MemoryPageNumber. by rewrite Z.shiftr_shiftr by done. Qed.

(** ** The invariant *)

(** The protection of a page that exists is the one its attributes ask for. *)
Record page_inv (s : VMMemory) : Prop := {
  inv_byte vpn : 0 <= attribute_at vpn s < 256;
  inv_protection vpn : VMExists (attribute_at vpn s) = true ->
    hardware vpn s = Some (ComputeProtection (attribute_at vpn s));
  inv_wads n w : wads s !! n = Some w -> length (wad_protection w) = 8%nat;
  inv_resident : Z.of_nat (length (ResidentPages s)) = ResidentPages_Size /\ 0 <= ResidentPagesPointer s < ResidentPages_Size
}.

(** The two updates of AdjustProtection. *)
Definition with_attribute (vpn a : Z) (s : VMMemory) : VMMemory :=
  set_VMAttributeTable (<[vpn := a]> (VMAttributeTable s)) s.
Definition with_protection (vpn prot : Z) (s : VMMemory) : VMMemory :=
  set_wads (alter (fun w => set_wad_protection (upd_Z (wad_protection w) (page_in_wad vpn) prot) w)
                  (Z.shiftr vpn 3) (wads s)) s.

Lemma attribute_with_eq vpn a s : attribute_at vpn (with_attribute vpn a s) = a.
Proof. unfold attribute_at. simpl. by rewrite lookup_insert_eq. Qed.
Lemma attribute_with_ne vpn vpn' a s : vpn <> vpn' ->
  attribute_at vpn' (with_attribute vpn a s) = attribute_at vpn' s.
Proof. intros. unfold attribute_at. simpl. by rewrite lookup_insert_ne. Qed.
Lemma hardware_with_eq vpn prot s p :
  (forall n w, wads s !! n = Some w -> length (wad_protection w) = 8%nat) ->
  hardware vpn s = Some p -> hardware vpn (with_protection vpn prot s) = Some prot.
Proof.
  intros L. unfold hardware. simpl. rewrite lookup_alter_eq.
  destruct (wads s !! Z.shiftr vpn 3) as [w|] eqn:E; [|done]. simpl. intros _.
  pose proof (page_in_wad_range vpn). apply nth_upd_eq. rewrite (L _ _ E). lia.
Qed.
Lemma hardware_with_ne vpn vpn' prot s : vpn <> vpn' ->
  hardware vpn' (with_protection vpn prot s) = hardware vpn' s.
Proof.
  intros Hne. unfold hardware. simpl. destruct (Z.eq_dec (Z.shiftr vpn 3) (Z.shiftr vpn' 3)) as [E|E].
  - rewrite <- E, lookup_alter_eq. destruct (wads s !! Z.shiftr vpn 3) as [w|]; [|done]. simpl.
    apply nth_upd_ne. intros E'. apply Hne. by rewrite (page_split vpn), (page_split vpn'), E, E'.
  - by rewrite lookup_alter_ne.
Qed.

Lemma hardware_with_attribute vpn vpn' a s : hardware vpn' (with_attribute vpn a s) = hardware vpn' s.
Proof. done. Qed.

(** The hardware of a page whose wad is mapped. *)
Lemma hardware_mapped vpn s w : page_inv s -> wads s !! Z.shiftr vpn 3 = Some w -> is_Some (hardware vpn s).
Proof.
  intros I E. unfold hardware. rewrite E. apply nth_Z_is_Some, in_bounds_spec.
  rewrite (inv_wads s I _ _ E). pose proof (page_in_wad_range vpn). lia.
Qed.

(** An attribute byte that may be stored. *)
Definition attribute_ok (a : Z) : Prop := 0 <= a < 256.

Lemma attribute_ok_at vpn s : page_inv s -> attribute_ok (attribute_at vpn s).
Proof. intros I. apply I. Qed.
Lemma attribute_ok_0 : attribute_ok 0.
Proof. done. Qed.

(** The one way the invariant is re-established: the protection follows the attributes. *)
Lemma page_inv_adjusted vpn a s : page_inv s -> attribute_ok a ->
  (VMExists a = true -> hardware vpn s <> None) ->
  page_inv (with_attribute vpn a (with_protection vpn (ComputeProtection a) s)).
Proof.
  intros [B P W R] Ha Hw. constructor; [| | |done].
  - intros v. destruct (decide (vpn = v)) as [->|]; [by rewrite attribute_with_eq|]. rewrite attribute_with_ne by done. apply B.
  - intros v. destruct (decide (vpn = v)) as [->|].
    + rewrite attribute_with_eq, hardware_with_attribute. intros E. destruct (hardware v s) as [p|] eqn:Eh; [|by destruct (Hw E)].
      by apply (hardware_with_eq v _ s p).
    + rewrite attribute_with_ne by done. intros E. rewrite hardware_with_attribute, hardware_with_ne by done. by apply P.
  - intros n w. simpl. destruct (decide (n = Z.shiftr vpn 3)) as [->|].
    + rewrite lookup_alter_eq. destruct (wads s !! _) as [w'|] eqn:E; [|done]. intros [= <-]. simpl.
      rewrite upd_Z_length. by apply (W _ _ E).
    + rewrite lookup_alter_ne by done. apply W.
Qed.

(** A page whose protection is right already. *)
Lemma page_inv_attribute vpn a s : page_inv s -> attribute_ok a ->
  (VMExists a = true -> hardware vpn s = Some (ComputeProtection a)) -> page_inv (with_attribute vpn a s).
Proof.
  intros [B P W R] Ha Hw. constructor; [| |done|done].
  - intros v. destruct (decide (vpn = v)) as [->|]; [by rewrite attribute_with_eq|]. rewrite attribute_with_ne by done. apply B.
  - intros v. destruct (decide (vpn = v)) as [->|]; [by rewrite attribute_with_eq|].
    rewrite attribute_with_ne by done. apply P.
Qed.

(** ** AdjustProtection *)

Lemma run_read_attribute vpn s : is_page vpn -> read_attribute vpn s = (Ok (attribute_at vpn s), s).
Proof. intros H%in_table_spec. unfold read_attribute. by rewrite H. Qed.
Lemma run_write_attribute vpn a s : is_page vpn -> write_attribute vpn a s = (Ok tt, with_attribute vpn a s).
Proof. intros H%in_table_spec. unfold write_attribute. by rewrite H. Qed.

Lemma run_mprotect vpn prot s w : wads s !! Z.shiftr vpn 3 = Some w ->
  mprotect vpn prot s = (Ok tt, with_protection vpn prot s).
Proof.
  intros E. unfold mprotect. rewrite run_bind_gets, E. cbn [of_option]. rewrite run_bind_ret.
  unfold modify, with_protection. do 2 f_equal. apply map_eq. intros n.
  destruct (decide (n = Z.shiftr vpn 3)) as [->|].
  - by rewrite lookup_insert_eq, lookup_alter_eq, E.
  - by rewrite lookup_insert_ne, lookup_alter_ne.
Qed.

Lemma with_protection_same vpn prot s : hardware vpn s = Some prot -> with_protection vpn prot s = s.
Proof.
  unfold hardware, with_protection. intros E. destruct s. simpl in *. unfold set_wads. simpl. f_equal.
  apply map_eq. intros n. destruct (decide (n = Z.shiftr vpn 3)) as [->|]; [|by rewrite lookup_alter_ne].
  rewrite lookup_alter_eq. destruct (wads !! Z.shiftr vpn 3) as [w|]; [|done]. simpl. f_equal.
  rewrite upd_Z_same by done. by destruct w.
Qed.

(** The whole effect on a page of a mapped wad. *)
Definition adjusted (vpn a : Z) (s : VMMemory) : VMMemory :=
  with_attribute vpn a (with_protection vpn (ComputeProtection a) s).

Lemma run_AdjustProtection vma a s :
  page_inv s -> is_page (MemoryPageNumber vma) -> attribute_ok a -> hardware (MemoryPageNumber vma) s <> None ->
  VMExists a || VMExists (attribute_at (MemoryPageNumber vma) s) = true ->
  AdjustProtection vma a s = (Ok tt, adjusted (MemoryPageNumber vma) a s).
Proof.
  intros I Hp Ha Hw He. set (vpn := MemoryPageNumber vma) in *.
  unfold AdjustProtection. fold vpn. erewrite bind_Ok by (by apply run_read_attribute).
  assert (exists w, wads s !! Z.shiftr vpn 3 = Some w) as [w Ew]
    by (unfold hardware in Hw; destruct (wads s !! _); [by eexists|done]).
  set (old := if negb _ && _ then _ else _).
  destruct (Z.eqb_spec old (ComputeProtection a)) as [E|E]; cbn [negb when].
  - rewrite run_bind_ret, run_write_attribute by done. unfold adjusted. rewrite with_protection_same; [done|].
    destruct (VMExists (attribute_at vpn s)) eqn:Eo.
    + subst old. cbn [negb andb] in E. rewrite (inv_protection s I _ Eo). by rewrite E.
    + exfalso. rewrite orb_false_r in He. subst old. rewrite He in E. cbn [negb andb] in E.
      unfold Z.lnot, Z.pred in E. lia.
  - erewrite bind_Ok by (by eapply run_mprotect). by rewrite run_write_attribute.
Qed.

Lemma hardware_None_gone vpn s : page_inv s -> hardware vpn s = None -> VMExists (attribute_at vpn s) = false.
Proof.
  intros I E. apply not_true_iff_false. intros Ee.
  by rewrite (inv_protection s I _ Ee) in E.
Qed.

Lemma ok_AdjustProtection vma a : attribute_ok a -> returns page_inv (AdjustProtection vma a) (fun _ => True).
Proof.
  intros Ha s I. split; [|done]. destruct (in_table (MemoryPageNumber vma)) eqn:Et;
    [|by unfold AdjustProtection, read_attribute, bind; rewrite Et].
  apply in_table_spec in Et. set (vpn := MemoryPageNumber vma) in *.
  destruct (VMExists a || VMExists (attribute_at vpn s)) eqn:Ee.
  - destruct (hardware vpn s) as [p|] eqn:Eh.
    + rewrite run_AdjustProtection by (fold vpn; rewrite ?Eh; done). apply page_inv_adjusted; [done..|].
      fold vpn. by rewrite Eh.
    + pose proof (hardware_None_gone vpn s I Eh) as E0. rewrite E0, orb_false_r in Ee.
      unfold AdjustProtection. fold vpn. erewrite bind_Ok by (by apply run_read_attribute).
      rewrite E0, Ee. cbn [negb andb].
      destruct (Z.eqb_spec (Z.lnot (ComputeProtection a)) (ComputeProtection a)) as [E|_];
        [unfold Z.lnot, Z.pred in E; lia|]. cbn [negb when].
      unfold mprotect. rewrite !run_bind_assoc, run_bind_gets.
      destruct (wads s !! Z.shiftr vpn 3) as [w|] eqn:Ew; [|done].
      by destruct (hardware_mapped vpn s w I Ew) as [? E]; rewrite Eh in E.
  - apply orb_false_iff in Ee as [E1 E2]. unfold AdjustProtection. fold vpn.
    erewrite bind_Ok by (by apply run_read_attribute). rewrite E1, E2. rewrite andb_false_r.
    rewrite (protection_gone _ Ha E1), (protection_gone _ (inv_byte s I vpn) E2). rewrite Z.eqb_refl. cbn [negb when].
    rewrite run_bind_ret, run_write_attribute by done. apply page_inv_attribute; [done..|]. by rewrite E1.
Qed.

(** ** Preservation *)

Lemma ok_read_attribute vpn : returns page_inv (read_attribute vpn) attribute_ok.
Proof.
  apply returns_if; [|by apply returns_undefined]. apply returns_gets. intros s I. by apply attribute_ok_at.
Qed.

Lemma DefaultAttributes_ok f w s : attribute_ok (DefaultAttributes f w s) /\ VMExists (DefaultAttributes f w s) = true.
Proof. unfold DefaultAttributes, attribute_ok. by destruct f, w, (EnableIDS s). Qed.

Lemma lor_byte a b : 0 <= a < 256 -> 0 <= b < 256 -> 0 <= Z.lor a b < 256.
Proof.
  intros Ha Hb. split; [apply Z.lor_nonneg; lia|]. change 256 with (2 ^ 8).
  apply range_of_testbit; [lia|apply Z.lor_nonneg; lia|]. intros i Hi.
  rewrite Z.lor_spec, (testbit_above a 8), (testbit_above b 8) by (change (2 ^ 8) with 256; lia). done.
Qed.

Lemma has_lor a b k : has (Z.lor a b) k = has a k || has b k.
Proof.
  unfold has. rewrite Z.land_lor_distr_l. destruct (Z.eqb_spec (Z.land a k) 0) as [->|Ha].
  - by rewrite Z.lor_0_l.
  - destruct (Z.eqb_spec (Z.lor (Z.land a k) (Z.land b k)) 0) as [E|]; [|done].
    by apply Z.lor_eq_0_iff in E as [? _].
Qed.

Lemma attribute_ok_lor a b : attribute_ok a -> 0 <= b < 256 -> attribute_ok (Z.lor a b).
Proof. apply lor_byte. Qed.

Lemma page_ok_SetCreated vma f w : returns page_inv (SetCreated vma f w) (fun _ => True).
Proof.
  eapply returns_bind; [by apply (returns_gets _ _ attribute_ok); intros s _; apply DefaultAttributes_ok|].
  intros a Ha. by apply ok_AdjustProtection.
Qed.

Lemma page_ok_ClearCreated vma : returns page_inv (ClearCreated vma) (fun _ => True).
Proof. exact (ok_AdjustProtection vma 0 attribute_ok_0). Qed.

Lemma WadCreated_false vma s vpn : WadCreated vma s = false -> Z.shiftr vpn 3 = MemoryWadNumber vma ->
  VMExists (attribute_at vpn s) = false.
Proof.
  unfold WadCreated, wad_created. intros H E. apply not_true_iff_false. intros Ee.
  apply not_true_iff_false in H. apply H, existsb_exists. exists (Z.to_nat (page_in_wad vpn)).
  pose proof (page_in_wad_range vpn). split; [apply in_seq; lia|].
  rewrite Z2Nat.id by lia. rewrite <- E, <- page_split. done.
Qed.

Section system_calls.
Context (mmap_wad reserve_wad : Z -> bool).

Lemma page_inv_fresh vma prot s : page_inv s -> WadCreated vma s = false ->
  page_inv (set_wads (<[MemoryWadNumber vma := fresh_wad prot]> (wads s)) s).
Proof.
  intros [B P W R] Hc. constructor; try done.
  - intros vpn E. change (attribute_at vpn _) with (attribute_at vpn s) in *. unfold hardware. simpl.
    rewrite lookup_insert_ne; [by apply P|]. intros En. symmetry in En.
    by rewrite (WadCreated_false vma s vpn Hc En) in E.
  - intros n w. simpl. destruct (decide (n = MemoryWadNumber vma)) as [->|].
    + rewrite lookup_insert_eq. by intros [= <-].
    + rewrite lookup_insert_ne by done. apply W.
Qed.

Lemma hardware_fresh vma prot s :
  hardware (MemoryPageNumber vma) (set_wads (<[MemoryWadNumber vma := fresh_wad prot]> (wads s)) s) = Some prot.
Proof.
  unfold hardware. simpl. rewrite wad_of_page, lookup_insert_eq. unfold fresh_wad. cbn [wad_protection].
  pose proof (page_in_wad_range (MemoryPageNumber vma)). unfold nth_Z.
  destruct (Z.leb_spec 0 (page_in_wad (MemoryPageNumber vma))); [|lia]. apply lookup_replicate. split; [done|lia].
Qed.

Lemma page_ok_EnsureVirtualAddress vma f : returns page_inv (EnsureVirtualAddress mmap_wad vma f) (fun _ => True).
Proof.
  intros s I. split; [|done]. unfold EnsureVirtualAddress.
  destruct (in_table (MemoryPageNumber vma)) eqn:Et; [|by unfold read_attribute, bind; rewrite Et].
  apply in_table_spec in Et. erewrite bind_Ok by (by apply run_read_attribute).
  destruct (VMExists (attribute_at (MemoryPageNumber vma) s)) eqn:Ee.
  - apply (returns_preserves page_inv _ (fun _ => True)); [|done].
    eapply (returns_bind _ _ _ (fun _ => True)); [apply returns_when; [|done]|intros; by apply returns_ret].
    apply ok_AdjustProtection, attribute_ok_lor; [by apply attribute_ok_at|done].
  - rewrite run_bind_gets. destruct (WadCreated vma s) eqn:Ew.
    + apply (returns_preserves page_inv _ (fun _ => True)); [|done].
      eapply returns_bind; [apply page_ok_SetCreated|intros; by apply returns_ret].
    + rewrite run_bind_gets. destruct (mmap_wad (MemoryWadNumber vma)); [|done].
      rewrite run_bind_modify. erewrite bind_Ok by (by apply run_write_attribute).
      destruct (DefaultAttributes_ok f false s). apply page_inv_attribute; [by apply page_inv_fresh|done|].
      intros _. apply hardware_fresh.
Qed.

Lemma page_ok_DestroyVirtualAddress vma : returns page_inv (DestroyVirtualAddress reserve_wad vma) (fun _ => True).
Proof.
  eapply returns_bind; [by apply (returns_gets _ _ (fun _ => True))|]. intros c _.
  eapply (returns_bind _ _ _ (fun _ => True)); [apply returns_when; [apply page_ok_ClearCreated|done]|]. intros _ _.
  intros s I. split; [|done]. rewrite run_bind_gets. destruct (WadCreated vma s) eqn:Ew; [done|].
  destruct (reserve_wad (MemoryWadNumber vma)); [|done]. rewrite run_bind_modify.
  destruct I as [B P W R]. constructor; try done.
  - intros vpn E. change (attribute_at vpn _) with (attribute_at vpn s) in *. unfold hardware. simpl.
    rewrite lookup_delete_ne; [by apply P|]. intros En. symmetry in En.
    by rewrite (WadCreated_false vma s vpn Ew En) in E.
  - intros n w. simpl. rewrite lookup_delete_Some. intros [_ E]. by eapply W.
Qed.

Lemma ok_ensure_pages n : forall vma f r, returns page_inv (ensure_pages mmap_wad n vma f r) (fun _ => True).
Proof.
  induction n as [|n IH]; intros vma f r; [by apply returns_ret|].
  eapply returns_bind; [apply page_ok_EnsureVirtualAddress|]. intros. apply IH.
Qed.

Lemma page_ok_destroy_pages n : forall vma r, returns page_inv (destroy_pages reserve_wad n vma r) (fun _ => True).
Proof.
  induction n as [|n IH]; intros vma r; [by apply returns_ret|].
  eapply returns_bind; [by apply (returns_gets _ _ (fun _ => True))|]. intros c _.
  eapply (returns_bind _ _ _ (fun _ => True)); [|intros; apply IH].
  apply returns_if; [apply page_ok_DestroyVirtualAddress|by apply returns_ret].
Qed.
End system_calls.

Lemma ok_grant_pages n : forall vma, returns page_inv (grant_pages n vma) (fun _ => True).
Proof.
  induction n as [|n IH]; intros vma; [by apply returns_ret|]. cbn [grant_pages].
  eapply returns_bind; [apply ok_read_attribute|]. intros a Ha.
  eapply (returns_bind _ _ _ (fun _ => True)); [|intros; apply IH].
  destruct (VMExists a) eqn:Ee; [|by apply returns_ret].
  destruct (VMAccessFault a); [by apply returns_ret|]. cbn [negb andb when].
  apply returns_when; [|done]. apply ok_AdjustProtection.
  assert (attribute_ok (note a)) by (by apply attribute_ok_lor).
  destruct (VMTransportFault _); [|done]. by apply attribute_ok_lor.
Qed.

(** ** The fault handler *)

Section faults.
Context (vm_extable : list (Z * Z)).

Lemma ok_DeliverDecodeFault pc vma :
  returns page_inv (DeliverDecodeFault vm_extable pc vma) (fun t => t <> 0).
Proof.
  eapply returns_bind; [by apply (returns_of_option _ _ (fun _ => True))|]. intros t _.
  eapply returns_bind; [by apply (returns_modify _ _ (fun _ => True)); [|done]; intros s []|]. intros _ _.
  destruct (Z.eqb_spec t 0); [apply returns_exit|by apply returns_ret].
Qed.

Lemma ok_note_resident vma : returns page_inv (note_resident vma) (fun _ => True).
Proof.
  intros s I. split; [|done]. unfold note_resident. rewrite !run_bind_gets.
  destruct (in_bounds _ _); [|done]. rewrite run_bind_modify.
  destruct I as [B P W [R1 R2]]. destruct (Z.leb_spec ResidentPages_Size (ResidentPagesPointer s + 1)).
  - constructor; try done. simpl. rewrite upd_Z_length. split; [done|]. unfold ResidentPages_Size. lia.
  - constructor; try done. simpl. rewrite upd_Z_length. split; [done|lia].
Qed.

Lemma page_ok_segv_handler emu data pc vma :
  returns page_inv (segv_handler vm_extable emu data pc vma) (fun _ => True).
Proof.
  assert (forall t, returns page_inv (if emu then x <- DeliverDecodeFault vm_extable pc t;; ret (Some x)
    else c_exit 1) (fun _ => True)) as Hd.
  { intros t. apply returns_if; [|apply returns_exit].
    eapply returns_bind; [apply ok_DeliverDecodeFault|intros; by apply returns_ret]. }
  eapply returns_bind; [apply ok_read_attribute|]. intros a Ha.
  eapply returns_bind; [by apply (returns_gets _ _ (fun _ => True))|]. intros l _.
  eapply returns_bind with (Q := fun _ => True).
  { apply returns_if; [by apply returns_modify; [intros s []|]|].
    eapply returns_bind with (Q := fun _ => True); [by apply returns_modify; [intros s []|]|].
    intros. by apply returns_modify; [intros s []|]. }
  intros _ _. eapply returns_bind; [by apply (returns_gets _ _ (fun _ => True))|]. intros n _.
  apply returns_if; [apply Hd|]. cbv zeta. apply returns_if; [|apply Hd].
  eapply returns_bind; [apply ok_note_resident|]. intros _ _.
  eapply returns_bind; [by apply ok_AdjustProtection, attribute_ok_lor|intros; by apply returns_ret].
Qed.

Lemma ok_access emu data write pc vma : returns page_inv (access vm_extable emu data write pc vma) (fun _ => True).
Proof.
  apply (returns_loop _ _ _ _ (fun _ => True)); [|done]. intros [] _.
  eapply returns_bind; [by apply (returns_gets _ _ (fun _ => True))|]. intros ok _.
  apply returns_if; [by apply returns_ret|].
  eapply returns_bind; [apply page_ok_segv_handler|]. intros [] _; by apply returns_ret.
Qed.
End faults.

(** ** Which accesses go through *)

(** Everything but the bookkeeping of faults. *)
Definition memory_of (s : VMMemory) : gmap Z (gmap Z Z * gmap Z Z) :=
  (fun w => (wad_tags w, wad_data w)) <$> wads s.

Lemma memory_of_protection vpn prot s : memory_of (with_protection vpn prot s) = memory_of s.
Proof.
  apply map_eq. intros n. unfold memory_of. simpl. rewrite !lookup_fmap.
  destruct (decide (n = Z.shiftr vpn 3)) as [->|]; [|by rewrite lookup_alter_ne].
  rewrite lookup_alter_eq. by destruct (wads s !! _).
Qed.

Section accesses.
Context (vm_extable : list (Z * Z)).

(** The state after the handler's bookkeeping. *)
Definition fault_counted (data : bool) (vma : Z) (s : VMMemory) : VMMemory :=
  if bool_decide (last_vma s = Some (data, vma)) then set_times (times s + 1) s
  else set_times 1 (set_last_vma (Some (data, vma)) s).

(** The fault does not repeat an address that has just faulted ten times. *)
Definition not_repeated (data : bool) (vma : Z) (s : VMMemory) : Prop :=
  last_vma s = Some (data, vma) -> times s < 10.

Lemma fault_counted_inv data vma s : page_inv s -> page_inv (fault_counted data vma s).
Proof. intros []. unfold fault_counted. by destruct (bool_decide _). Qed.
Lemma fault_counted_same data vma s :
  VMAttributeTable (fault_counted data vma s) = VMAttributeTable s /\ wads (fault_counted data vma s) = wads s.
Proof. unfold fault_counted. by destruct (bool_decide _). Qed.

Definition noted_resident (vma : Z) (s : VMMemory) : VMMemory := (note_resident vma s).2.
Lemma run_note_resident vma s : page_inv s ->
  note_resident vma s = (Ok tt, noted_resident vma s) /\ page_inv (noted_resident vma s) /\
  VMAttributeTable (noted_resident vma s) = VMAttributeTable s /\ wads (noted_resident vma s) = wads s.
Proof.
  intros I. pose proof (inv_resident s I) as [R1 R2]. unfold noted_resident.
  split; [|split; [by apply (ok_note_resident vma s I)|]]; unfold note_resident;
    rewrite !run_bind_gets;
    (assert (in_bounds (ResidentPages s) (ResidentPagesPointer s) = true) as -> by (apply in_bounds_spec; lia));
    rewrite run_bind_modify; by destruct (_ <=? _).
Qed.

(** A fault on a page that allows writes is noted and repaired. *)
Definition repaired (data : bool) (vma : Z) (s : VMMemory) : VMMemory :=
  adjusted (MemoryPageNumber vma) (note (attribute_at (MemoryPageNumber vma) s))
    (noted_resident vma (fault_counted data vma s)).

Lemma run_segv_repair emu data pc vma s :
  page_inv s -> is_page (MemoryPageNumber vma) -> not_repeated data vma s ->
  may_write (attribute_at (MemoryPageNumber vma) s) = true ->
  segv_handler vm_extable emu data pc vma s = (Ok None, repaired data vma s) /\ page_inv (repaired data vma s).
Proof.
  intros I Hp Hr Hw. set (vpn := MemoryPageNumber vma) in *. set (a := attribute_at vpn s) in *.
  pose proof (inv_byte s I vpn) as Ha. fold a in Ha.
  assert (VMExists a = true) as Ee by (unfold may_write, may_read in Hw; by destruct (VMExists a)).
  set (s1 := fault_counted data vma s). pose proof (fault_counted_inv data vma s I) as I1. fold s1 in I1.
  destruct (run_note_resident vma s1 I1) as (En & I2 & T2 & W2). set (s2 := noted_resident vma s1) in *.
  destruct (fault_counted_same data vma s) as [T1 W1]. fold s1 in T1, W1.
  assert (attribute_at vpn s2 = a) as Ea by (unfold attribute_at; by rewrite T2, T1).
  assert (hardware vpn s2 <> None) as Hh by (rewrite (inv_protection s2 I2) by (by rewrite Ea); done).
  assert (attribute_ok (note a)) as On by (by apply note_byte).
  split; [|by apply page_inv_adjusted].
  unfold segv_handler. fold vpn. erewrite bind_Ok by (by apply run_read_attribute). fold a.
  rewrite run_bind_gets.
  assert ((if bool_decide (last_vma s = Some (data, vma)) then modify (fun s => set_times (times s + 1) s)
    else modify (set_last_vma (Some (data, vma))) ;; modify (set_times 1)) s = (Ok tt, s1)) as E1
    by (unfold s1, fault_counted; by destruct (bool_decide _)).
  erewrite bind_Ok by exact E1. rewrite run_bind_gets.
  assert (bool_decide (last_vma s = Some (data, vma)) && (10 <? times s1) = false) as ->.
  { unfold s1, fault_counted. destruct (bool_decide (last_vma s = Some (data, vma))) eqn:Eb; [|done].
    apply bool_decide_eq_true in Eb. cbn [andb set_times times]. apply Z.ltb_ge. specialize (Hr Eb). lia. }
  cbv zeta. fold (repairable a). rewrite repairable_spec, Hw by done.
  erewrite bind_Ok by exact En. fold (note a).
  erewrite bind_Ok; [done|]. apply run_AdjustProtection; try done. by rewrite note_exists, Ee.
Qed.

Lemma run_segv_deliver data pc vma s t :
  page_inv s -> is_page (MemoryPageNumber vma) ->
  may_write (attribute_at (MemoryPageNumber vma) s) = false ->
  VMExtableLookup vm_extable pc = Some t -> t <> 0 ->
  segv_handler vm_extable true data pc vma s = (Ok (Some t), set_faultvma vma (fault_counted data vma s)).
Proof.
  intros I Hp Hw Et Hn. pose proof (inv_byte s I (MemoryPageNumber vma)) as Ha.
  assert (forall s', (x <- DeliverDecodeFault vm_extable pc vma;; ret (Some x)) s' =
    (Ok (Some t), set_faultvma vma s')) as Ed.
  { intros s'. unfold DeliverDecodeFault. rewrite Et, run_bind_assoc. cbn [of_option].
    rewrite run_bind_ret, run_bind_assoc, run_bind_modify. apply Z.eqb_neq in Hn. by rewrite Hn. }
  unfold segv_handler. erewrite bind_Ok by (by apply run_read_attribute). rewrite run_bind_gets.
  set (s1 := fault_counted data vma s).
  assert ((if bool_decide (last_vma s = Some (data, vma)) then modify (fun s => set_times (times s + 1) s)
    else modify (set_last_vma (Some (data, vma))) ;; modify (set_times 1)) s = (Ok tt, s1)) as E1
    by (unfold s1, fault_counted; by destruct (bool_decide _)).
  erewrite bind_Ok by exact E1. rewrite run_bind_gets.
  destruct (_ && _); [apply Ed|]. cbv zeta.
  change (_ || _) with (repairable (attribute_at (MemoryPageNumber vma) s)).
  rewrite repairable_spec, Hw by done. apply Ed.
Qed.

(** What the hardware lets through on a page that exists. *)
Definition free (write : bool) (a : Z) : bool := if write then may_write a && noted a else may_read a.

Lemma allowed_exists write vma s : page_inv s -> VMExists (attribute_at (MemoryPageNumber vma) s) = true ->
  allowed true write vma s = free write (attribute_at (MemoryPageNumber vma) s).
Proof.
  intros I E. unfold allowed. rewrite (inv_protection s I _ E). simpl negb. cbn [orb].
  pose proof (inv_byte s I (MemoryPageNumber vma)) as Hb. rewrite ComputeProtection_spec by done.
  set (a := attribute_at _ s) in *. unfold free, may_write.
  by destruct write, (may_read a), (negb (VMWriteFault a)), (noted a).
Qed.

Lemma note_same a : 0 <= a < 256 -> noted a = true -> note a = a.
Proof.
  intros Ha Hn. cut (implb (noted a) (note a =? a) = true); [rewrite Hn; simpl; by rewrite Z.eqb_eq|].
  clear Hn. by_bytes.
Qed.

Lemma with_attribute_same vpn s : attribute_at vpn (with_attribute vpn (attribute_at vpn s) s) = attribute_at vpn s.
Proof. apply attribute_with_eq. Qed.

End accesses.
