(* ===== verification/PageMemory.v ===== *)
(** The words of memory as emulator/memory.c reads and writes them: single accesses, blocks,
    searches and copies. Every access goes through the hardware, and so through the fault
    handler. *)

From S2P Require Export PageTable.
#[local] Open Scope vlm_scope.

(** ** Words *)

(** The word a mapped wad holds. *)
Definition tag_at (vma : Z) (s : VMMemory) : Z :=
  match wads s !! MemoryWadNumber vma with Some w => default 0 (wad_tags w !! vma) | None => 0 end.
Definition data_at (vma : Z) (s : VMMemory) : Z :=
  match wads s !! MemoryWadNumber vma with Some w => default 0xFFFFFFFF (wad_data w !! vma) | None => 0 end.
Definition with_tag (vma v : Z) (s : VMMemory) : VMMemory :=
  set_wads (alter (fun w => set_wad_tags (<[vma := v]> (wad_tags w)) w) (MemoryWadNumber vma) (wads s)) s.
Definition with_data (vma v : Z) (s : VMMemory) : VMMemory :=
  set_wads (alter (fun w => set_wad_data (<[vma := v]> (wad_data w)) w) (MemoryWadNumber vma) (wads s)) s.

Definition u64 (z : Z) : Z := z mod 2 ^ 64.

(* emulator/memory.c:146 VMAinStackCacheP *)
Definition VMAinStackCacheP (vma : Z) (s : VMMemory) : bool := u64 (vma - stackcachebasevma s) <? scovlimit s.

Section memory.
(** The interpreter's accesses, and an address in the C code, which has none. *)
Context (vm_extable : list (Z * Z)) (host_pc : Z).

(** An access by the C code in the emulator's thread. *)
Definition touch (data write : bool) (vma : Z) : Mem unit :=
  r <- access vm_extable true data write host_pc vma ;;
  match r with None => ret tt | Some _ => undefined end.
Definition load_tag (vma : Z) : Mem Z := touch false false vma ;; gets (tag_at vma).
Definition load_data (vma : Z) : Mem Z := touch true false vma ;; gets (data_at vma).
Definition store_tag (vma v : Z) : Mem unit := touch false true vma ;; modify (with_tag vma (u8 v)).
Definition store_data (vma v : Z) : Mem unit := touch true true vma ;; modify (with_data vma (u32 v)).

(** ** Single words *)

(** A page whose protection forbids the access is opened for it, and closed again. *)
(* emulator/memory.c:542-578 VirtualMemoryReadUncached *)
Definition VirtualMemoryReadUncached (vma : Z) : Mem LispObjRecord :=
  attr <- read_attribute (MemoryPageNumber vma) ;;
  let protected := negb (has (ComputeProtection attr) PROT_READ) in
  when protected (mprotect (MemoryPageNumber vma) PROT_READ) ;;
  t <- load_tag vma ;;
  d <- load_data vma ;;
  when protected (mprotect (MemoryPageNumber vma) (ComputeProtection attr)) ;;
  ret (MakeLispObj t d).

(* emulator/memory.c:581-588 VirtualMemoryRead *)
Definition VirtualMemoryRead (address : Z) : Mem LispObjRecord :=
  cached <- gets (VMAinStackCacheP address) ;;
  if cached : bool then
    stack <- gets stackcachedata ;; base <- gets stackcachebasevma ;;
    of_option (nth_Z stack (address - base))
  else VirtualMemoryReadUncached address.

(* emulator/memory.c:591-625 VirtualMemoryWriteUncached *)
Definition VirtualMemoryWriteUncached (vma : Z) (object : LispObjRecord) : Mem unit :=
  attr <- read_attribute (MemoryPageNumber vma) ;;
  let protected := negb (has (ComputeProtection attr) PROT_WRITE) in
  when protected (mprotect (MemoryPageNumber vma) (Z.lor PROT_READ PROT_WRITE)) ;;
  store_data vma (LispObjData object) ;;
  store_tag vma (LispObjTag object) ;;
  when protected (mprotect (MemoryPageNumber vma) (ComputeProtection attr)).

(* emulator/memory.c:628-636 VirtualMemoryWrite *)
Definition VirtualMemoryWrite (address : Z) (object : LispObjRecord) : Mem unit :=
  cached <- gets (VMAinStackCacheP address) ;;
  if cached : bool then
    stack <- gets stackcachedata ;; base <- gets stackcachebasevma ;;
    if in_bounds stack (address - base)
    then modify (set_stackcachedata (upd_Z stack (address - base) object)) else undefined
  else VirtualMemoryWriteUncached address object.

(** ** Blocks *)

(** The words from [vma] to the end address, which is computed in 32 bits. *)
(* emulator/memory.c:691-694 edata *)
Definition block_length (vma count : Z) : nat := Z.to_nat (u32 (vma + count) - vma).

Fixpoint read_words (n : nat) (vma : Z) : Mem (list LispObjRecord) :=
  match n with
  | O => ret []
  | S n' =>
      t <- load_tag vma ;; d <- load_data vma ;;
      modify (fun s => set_memory_vma (u32 (memory_vma s + 1)) s) ;;
      l <- read_words n' (vma + 1) ;; ret (MakeLispObj t d :: l)
  end.
(* emulator/memory.c:687-696 VirtualMemoryReadBlockUncached *)
Definition VirtualMemoryReadBlockUncached (vma count : Z) : Mem (list LispObjRecord) :=
  read_words (block_length vma count) vma.

(** The words below the stack cache, as the first part of a block. *)
(* emulator/memory.c:701-703 pc *)
Definition words_below (address count : Z) (s : VMMemory) : Z :=
  if u64 (address + count - 1) <? stackcachebasevma s then count else s32 (stackcachebasevma s - address).

Fixpoint read_cached (n : nat) (address count : Z) : Mem (list LispObjRecord * Z * Z) :=
  match n with
  | O => ret ([], address, count)
  | S n' =>
      cached <- gets (VMAinStackCacheP address) ;;
      if (cached : bool) && (0 <? count) then
        o <- VirtualMemoryRead address ;;
        '(l, a, c) <- read_cached n' (u32 (address + 1)) (count - 1) ;;
        ret (o :: l, a, c)
      else ret ([], address, count)
  end.

(* emulator/memory.c:699-717 VirtualMemoryReadBlock *)
Definition VirtualMemoryReadBlock (address count : Z) : Mem (list LispObjRecord) :=
  base <- gets stackcachebasevma ;;
  '(l1, address, count) <- (if address <? base then
      pc <- gets (words_below address count) ;;
      l <- VirtualMemoryReadBlockUncached address pc ;;
      ret (l, u32 (address + pc), count - pc)
    else ret ([], address, count)) ;;
  '(l2, address, count) <- read_cached (Z.to_nat count) address count ;;
  l3 <- (if 0 <? count then VirtualMemoryReadBlockUncached address count else ret []) ;;
  ret (l1 ++ l2 ++ l3).

(** The objects of the block are those at the pointer; a block longer than them is undefined. *)
Fixpoint write_words (n : nat) (vma : Z) (objects : list LispObjRecord) : Mem unit :=
  match n with
  | O => ret tt
  | S n' =>
      match objects with
      | [] => undefined
      | o :: objects' =>
          store_data vma (LispObjData o) ;; store_tag vma (LispObjTag o) ;;
          modify (fun s => set_memory_vma (u32 (memory_vma s + 1)) s) ;;
          write_words n' (vma + 1) objects'
      end
  end.
(* emulator/memory.c:720-732 VirtualMemoryWriteBlockUncached *)
Definition VirtualMemoryWriteBlockUncached (vma : Z) (objects : list LispObjRecord) (count : Z) : Mem unit :=
  write_words (block_length vma count) vma objects.

Fixpoint write_cached (n : nat) (address : Z) (objects : list LispObjRecord) (count : Z) :
    Mem (list LispObjRecord * Z * Z) :=
  match n with
  | O => ret (objects, address, count)
  | S n' =>
      cached <- gets (VMAinStackCacheP address) ;;
      if (cached : bool) && (0 <? count) then
        match objects with
        | [] => undefined
        | o :: objects' =>
            VirtualMemoryWrite address o ;;
            write_cached n' (u32 (address + 1)) objects' (count - 1)
        end
      else ret (objects, address, count)
  end.

(* emulator/memory.c:735-754 VirtualMemoryWriteBlock *)
Definition VirtualMemoryWriteBlock (address : Z) (objects : list LispObjRecord) (count : Z) : Mem unit :=
  base <- gets stackcachebasevma ;;
  '(objects, address, count) <- (if address <? base then
      pc <- gets (words_below address count) ;;
      VirtualMemoryWriteBlockUncached address objects pc ;;
      ret (skipn (Z.to_nat pc) objects, u32 (address + pc), count - pc)
    else ret (objects, address, count)) ;;
  '(objects, address, count) <- write_cached (Z.to_nat count) address objects count ;;
  when (0 <? count) (VirtualMemoryWriteBlockUncached address objects count).

(** memset and the loops over data: consecutive stores. *)
Fixpoint fill_tags (n : nat) (vma v : Z) : Mem unit :=
  match n with O => ret tt | S n' => store_tag vma v ;; fill_tags n' (vma + 1) v end.
Fixpoint fill_data (n : nat) (vma v increment : Z) : Mem unit :=
  match n with
  | O => ret tt
  | S n' => store_data vma v ;; fill_data n' (vma + 1) (u32 (v + increment)) increment
  end.

(** A memset of a negative number of bytes is undefined. Only the fill with zeros has its length
    from [count]. *)
(* emulator/memory.c:757-783 VirtualMemoryWriteBlockConstantUncached *)
Definition VirtualMemoryWriteBlockConstantUncached (vma : Z) (object : LispObjRecord)
    (count increment : Z) : Mem unit :=
  if count <? 0 then undefined else
  fill_tags (Z.to_nat count) vma (LispObjTag object) ;;
  if (increment =? 0) && (LispObjData object =? 0) then fill_data (Z.to_nat count) vma 0 0
  else fill_data (block_length vma count) vma (LispObjData object) increment.

Definition advance (object : LispObjRecord) (n : Z) : LispObjRecord :=
  MakeLispObj (LispObjTag object) (u32 (LispObjData object + n)).

Fixpoint fill_cached (n : nat) (address : Z) (object : LispObjRecord) (count increment : Z) :
    Mem (LispObjRecord * Z * Z) :=
  match n with
  | O => ret (object, address, count)
  | S n' =>
      cached <- gets (VMAinStackCacheP address) ;;
      if (cached : bool) && (0 <? count) then
        VirtualMemoryWrite address object ;;
        fill_cached n' (u32 (address + 1)) (advance object increment) (count - 1) increment
      else ret (object, address, count)
  end.

(* emulator/memory.c:786-806 VirtualMemoryWriteBlockConstant *)
Definition VirtualMemoryWriteBlockConstant (address : Z) (object : LispObjRecord) (count increment : Z) : Mem unit :=
  base <- gets stackcachebasevma ;;
  '(object, address, count) <- (if address <? base then
      pc <- gets (words_below address count) ;;
      VirtualMemoryWriteBlockConstantUncached address object pc increment ;;
      ret (advance object (pc * increment), u32 (address + pc), count - pc)
    else ret (object, address, count)) ;;
  '(object, address, count) <- fill_cached (Z.to_nat count) address object count increment ;;
  when (0 <? count) (VirtualMemoryWriteBlockConstantUncached address object count increment).

(** ** Searches and copies *)

(* emulator/memory.c:202 TagType *)
Definition TagType (tag : Z) : Z := Z.land tag 0x3f.

Fixpoint search_words (n : nat) (vma ctag cdata : Z) : Mem (option Z) :=
  match n with
  | O => ret None
  | S n' =>
      t <- load_tag vma ;;
      if TagType (Z.lxor ctag t) =? 0 then
        d <- load_data vma ;;
        if d =? cdata then ret (Some vma) else search_words n' (vma + 1) ctag cdata
      else search_words n' (vma + 1) ctag cdata
  end.
(** The address found, or none. *)
(* emulator/memory.c:810-833 VirtualMemorySearch *)
Definition VirtualMemorySearch (vma : Z) (object : LispObjRecord) (count : Z) : Mem (option Z) :=
  search_words (block_length vma count) vma (LispObjTag object) (LispObjData object).

Fixpoint load_tags (n : nat) (vma : Z) : Mem (list Z) :=
  match n with O => ret [] | S n' => t <- load_tag vma ;; l <- load_tags n' (vma + 1) ;; ret (t :: l) end.
Fixpoint load_datas (n : nat) (vma : Z) : Mem (list Z) :=
  match n with O => ret [] | S n' => t <- load_data vma ;; l <- load_datas n' (vma + 1) ;; ret (t :: l) end.
Fixpoint store_tags (vma : Z) (l : list Z) : Mem unit :=
  match l with [] => ret tt | t :: l' => store_tag vma t ;; store_tags (vma + 1) l' end.
Fixpoint store_datas (vma : Z) (l : list Z) : Mem unit :=
  match l with [] => ret tt | t :: l' => store_data vma t ;; store_datas (vma + 1) l' end.

(** memmove: the source is read whole before the destination is written. *)
(* emulator/memory.c:836-846 VirtualMemoryCopy *)
Definition VirtualMemoryCopy (from to count : Z) : Mem bool :=
  if count <? 0 then undefined else
  tags <- load_tags (Z.to_nat count) from ;;
  store_tags to tags ;;
  datas <- load_datas (Z.to_nat count) from ;;
  store_datas to datas ;;
  ret true.

(** memccpy: the bytes up to the first [c], which is copied too; [true] when there is one. *)
Fixpoint copy_tags_until (n : nat) (c from to : Z) : Mem bool :=
  match n with
  | O => ret false
  | S n' =>
      t <- load_tag from ;; store_tag to t ;;
      if t =? c then ret true else copy_tags_until n' c (from + 1) (to + 1)
  end.
Fixpoint copy_and_forward (n : nat) (from to : Z) (forward : Z) : Mem unit :=
  match n with
  | O => ret tt
  | S n' =>
      d <- load_data from ;; store_data to d ;; store_data from forward ;;
      copy_and_forward n' (from + 1) (to + 1) (u32 (forward + 1))
  end.
(* emulator/memory.c:1047-1070 VirtualMemoryCopyandForward *)
Definition VirtualMemoryCopyandForward (from to count : Z) : Mem bool :=
  if count <? 0 then undefined else
  found <- copy_tags_until (Z.to_nat count) Type_GCForward from to ;;
  if found : bool then ret false else
  fill_tags (Z.to_nat count) from (Z.lor Type_GCForward (Z.shiftl Cdr_Nil 6)) ;;
  copy_and_forward (block_length from count) from to to ;;
  ret true.
End memory.
