(* ===== verification/PageScan.v ===== *)
(** The garbage collector's side of emulator/memory.c: flips, searches by type and by cdr code,
    and the scans for references to oldspace. Then the commands of the virtual-memory
    coprocessor, and the steps of the memory system that they and the interpreter make. *)

From S2P Require Export PageMemory.
#[local] Open Scope vlm_scope.

(** ** Flips *)

(** The new attributes of a page, for an ephemeral flip. *)
(* emulator/memory.c:882-898 faultp *)
Definition ephemeral_flip (faultp : bool) (a : Z) : Z :=
  if negb faultp then SetVMTransportDisable (SetVMTransportFault a)
  else if VMEphemeral a then ClearVMTransportDisable (SetVMTransportFault a)
  else ClearVMTransportFault (ClearVMTransportDisable a).
(* emulator/memory.c:917-922 faultp *)
Definition dynamic_flip (faultp : bool) (a : Z) : Z :=
  let a := SetVMTransportFault a in
  if negb faultp then SetVMTransportDisable a else ClearVMTransportDisable a.

(* emulator/memory.c:870-903 vma *)
Fixpoint enable_pages (n : nat) (flip : Z -> Z) (vpn vma : Z) : Mem unit :=
  match n with
  | O => ret tt
  | S n' =>
      oa <- read_attribute vpn ;;
      when (VMExists oa) (let a := flip oa in when (negb (a =? oa)) (AdjustProtection vma a)) ;;
      enable_pages n' flip (vpn + 1) (u32 (vma + MemoryPage_Size))
  end.

(* emulator/memory.c:854-930 VirtualMemoryEnable *)
Definition VirtualMemoryEnable (vma count : Z) (faultp : bool) : Mem unit :=
  let elimit := MemoryPageNumber (u64 (vma + count + MemoryPage_Size - 1)) in
  let elimit := if table_entries <? elimit then table_entries else elimit in
  z <- gets zoneoldspace ;;
  let vpn := MemoryPageNumber vma in
  enable_pages (Z.to_nat (elimit - vpn)) (if z =? 0 then ephemeral_flip faultp else dynamic_flip faultp)
    vpn vma.

(** ** Searches of tags, eight at a time *)

Section scans.
Context (vm_extable : list (Z * Z)) (host_pc : Z) (fuel : nat).

(** Eight tags read as one little-endian integer, at the group's index in TagSpace. *)
Definition tag_bits (base : Z) (s : VMMemory) : Z :=
  foldr (fun i z => Z.lor (Z.shiftl (u8 (tag_at (base + Z.of_nat i) s)) (8 * Z.of_nat i)) z) 0 (seq 0 8).
Definition load_tags8 (group : Z) : Mem Z :=
  touch vm_extable host_pc false false (8 * group) ;; gets (tag_bits (8 * group)).

(** The words of a group from [thisvma] up to [nextvma], and the first that passes the test among
    the addresses asked for. *)
(* emulator/memory.c:1007-1018 thisvma *)
Fixpoint group_up (n : nat) (test : Z -> bool) (startvma limitvma nextvma tagbits thisvma : Z) : option Z :=
  match n with
  | O => None
  | S n' =>
      if thisvma <? nextvma then
        if test tagbits && ((startvma <=? thisvma) && (thisvma <? limitvma)) then Some thisvma
        else group_up n' test startvma limitvma nextvma (Z.shiftr tagbits 8) (u32 (thisvma + 1))
      else None
  end.
(* emulator/memory.c:1026-1037 thisvma *)
Fixpoint group_down (n : nat) (test : Z -> bool) (startvma limitvma nextvma tagbits thisvma : Z) : option Z :=
  match n with
  | O => None
  | S n' =>
      if nextvma <? thisvma then
        if test tagbits && ((thisvma <=? startvma) && (limitvma <? thisvma)) then Some thisvma
        else group_down n' test startvma limitvma nextvma (u64 (Z.shiftl tagbits 8)) (u32 (thisvma - 1))
      else None
  end.

(** The loop over groups; [prepare] is what is done to the integer first. *)
(* emulator/memory.c:1004-1019 thisvma *)
Definition search_up_turn (prepare : Z -> Z) (test : Z -> bool) (startvma limitvma : Z)
    (l : Z * Z * Z) : Mem (Z * Z * Z + option Z) :=
  let '(group, thisvma, nextvma) := l in
  if thisvma <? limitvma then
    if 2 ^ 29 <=? group then undefined else
    tags <- load_tags8 group ;;
    match group_up 8 test startvma limitvma nextvma (prepare tags) thisvma with
    | Some vma => ret (inr (Some vma))
    | None => ret (inl (group + 1, nextvma, u32 (nextvma + 8)))
    end
  else ret (inr None).
(* emulator/memory.c:1023-1038 thisvma *)
Definition search_down_turn (prepare : Z -> Z) (test : Z -> bool) (startvma limitvma : Z)
    (l : Z * Z * Z) : Mem (Z * Z * Z + option Z) :=
  let '(group, thisvma, nextvma) := l in
  if limitvma <? thisvma then
    if group <? 0 then undefined else
    tags <- load_tags8 group ;;
    match group_down 8 test startvma limitvma nextvma (prepare tags) thisvma with
    | Some vma => ret (inr (Some vma))
    | None => ret (inl (group - 1, nextvma, u32 (nextvma - 8)))
    end
  else ret (inr None).

(* emulator/memory.c:994-1002 thisvma *)
Definition search_tags (prepare : Z -> Z) (up down : Z -> bool) (startvma count : Z) : Mem (option Z) :=
  let limitvma := u32 (startvma + count) in
  if 0 <? count then
    let thisvma := Z.ldiff startvma 7 in
    loop fuel (search_up_turn prepare up startvma limitvma)
      (Z.shiftr thisvma 3, thisvma, u32 (thisvma + 8))
  else
    let thisvma := Z.lor startvma 7 in
    loop fuel (search_down_turn prepare down startvma limitvma)
      (Z.shiftr thisvma 3, thisvma, u32 (thisvma - 8)).

Definition in_mask (mask bits : Z) : bool := Z.odd (Z.shiftr mask bits).
Definition s64 (z : Z) : Z := if u64 z <? 2 ^ 63 then u64 z else u64 z - 2 ^ 64.

(** The shift is of a signed integer. *)
(* emulator/memory.c:933-987 VirtualMemorySearchCDR *)
Definition VirtualMemorySearchCDR (startvma count cdr_mask : Z) : Mem (option Z) :=
  search_tags (fun tags => u64 (Z.shiftr (s64 tags) 6))
    (fun tagbits => in_mask cdr_mask (Z.land tagbits 3))
    (fun tagbits => in_mask cdr_mask (Z.land (Z.shiftr tagbits 56) 3)) startvma count.

(* emulator/memory.c:990-1042 VirtualMemorySearchType *)
Definition VirtualMemorySearchType (startvma count type_mask : Z) : Mem (option Z) :=
  search_tags (fun tags => tags)
    (fun tagbits => in_mask type_mask (Z.land tagbits 0x3f))
    (fun tagbits => in_mask type_mask (Z.land (Z.shiftr tagbits 56) 0x3f)) startvma count.

(** ** References to oldspace *)

(* emulator/memory.c:1149 pointertypes *)
Definition pointertypes : Z := 0x0000FFF4FFFFF8F7.
Definition PointerP (tag : Z) : bool := Z.odd (Z.shiftr pointertypes (Z.land tag 0x3f)). (* emulator/memory.c:1074 PointerP *)
Definition EphemeralAddressP (vma : Z) : bool := Z.shiftr vma 27 =? 0. (* emulator/memory.c:198 EphemeralAddressP *)
Definition AddressZoneNumber (vma : Z) : Z := Z.land (Z.shiftr vma 27) 0x1f. (* emulator/memory.c:201 AddressZoneNumber *)
Definition ZoneOldspaceP (vma oldbits : Z) : bool := Z.odd (Z.shiftr oldbits (AddressZoneNumber vma)). (* emulator/memory.c:1075 ZoneOldspaceP *)
Definition EphemeralOldspaceP (vma oldbits : Z) : bool := Z.odd (Z.shiftr oldbits (Z.shiftr vma 21)). (* emulator/memory.c:1077 EphemeralOldspaceP *)

(** The bits of the ephemeral levels, inverted for the lower half. *)
(* emulator/memory.c:1160-1161 ephemeraloldbits *)
Definition ephemeraloldbits (s : VMMemory) : Z :=
  Z.lor (Z.shiftl (ephemeraloldspace s) 32) (Z.ldiff 0xFFFFFFFF (ephemeraloldspace s)).

(** Whether a word refers to oldspace. *)
(* emulator/memory.c:1181-1192 word *)
Definition oldspace_reference (word : Z) (s : VMMemory) : bool :=
  if EphemeralAddressP word then EphemeralOldspaceP word (ephemeraloldbits s)
  else ZoneOldspaceP word (zoneoldspace s).

(* emulator/memory.c:1104-1127 tag *)
Fixpoint slow_scan (n : nat) (vma : Z) : Mem (option Z) :=
  match n with
  | O => ret None
  | S n' =>
      tag <- load_tag vm_extable host_pc vma ;;
      if PointerP tag then
        d <- load_data vm_extable host_pc vma ;;
        old <- gets (oldspace_reference d) ;;
        if old : bool then ret (Some vma) else slow_scan n' (vma + 1)
      else slow_scan n' (vma + 1)
  end.
(** The warning on inaccessible memory is not modelled. *)
(* emulator/memory.c:1084-1129 SlowScanPage *)
Definition SlowScanPage (scanvma count : Z) : Mem (option Z) := slow_scan (Z.to_nat count) scanvma.

(** How the words of a group end: go on with the next group, [goto done], or a reference. *)
Inductive ScanResult :=
| ScanOn (ephemeral : bool)
| ScanDone
| ScanFound (vma : Z).

(* emulator/memory.c:1169-1203 tagbits *)
Fixpoint scan_group (n : nat) (update : bool) (scanvma endvma tagbits thisvma : Z) (ephemeral : bool) :
    Mem ScanResult :=
  match n with
  | O => ret (ScanOn ephemeral)
  | S n' =>
      let on e := scan_group n' update scanvma endvma (Z.shiftr tagbits 8) (thisvma + 1) e in
      if PointerP tagbits then
        if update then
          if ephemeral then ret ScanDone
          else
            word <- load_data vm_extable host_pc thisvma ;;
            if EphemeralAddressP word then ret ScanDone else on false
        else
          word <- load_data vm_extable host_pc thisvma ;;
          let ephemeral := ephemeral || EphemeralAddressP word in
          old <- gets (oldspace_reference word) ;;
          if (old : bool) && ((scanvma <=? thisvma) && (thisvma <? endvma))
          then ret (ScanFound thisvma) else on ephemeral
      else on ephemeral
  end.

(* emulator/memory.c:1152-1166 limitvma *)
Definition scan_turn (update : bool) (scanvma endvma limitvma : Z) (l : Z * bool) : Mem (Z * bool + ScanResult) :=
  let '(thisvma, ephemeral) := l in
  if thisvma <? limitvma then
    if 2 ^ 32 <=? thisvma then undefined else
    tags <- load_tags8 (Z.shiftr thisvma 3) ;;
    r <- scan_group 8 update scanvma endvma tags thisvma ephemeral ;;
    match r with
    | ScanOn e => ret (inl (thisvma + 8, e))
    | _ => ret (inr r)
    end
  else ret (inr (ScanOn ephemeral)).

(** The attributes of a page that has been scanned. *)
(* emulator/memory.c:1225-1233 ephemeral *)
Definition scanned (ephemeral : bool) (a : Z) : Z :=
  let a := ClearVMTransportDisable (ClearVMTransportFault a) in
  if ephemeral then SetVMEphemeral a else ClearVMEphemeral a.
(* emulator/memory.c:1222-1240 update *)
Definition finish_page (scanvma : Z) (ephemeral : bool) : Mem (option Z) :=
  oa <- read_attribute (MemoryPageNumber scanvma) ;;
  let a := scanned ephemeral oa in
  when (negb (a =? oa)) (AdjustProtection scanvma a) ;;
  ret None.

(** The address of a reference to oldspace; [None] once the whole page is scanned. *)
(* emulator/memory.c:1134-1243 ScanPage *)
Definition ScanPage (scanvma count : Z) (update : bool) : Mem (option Z) :=
  let startvma := scanvma - MemoryPageOffset scanvma in
  let endvma := scanvma + count in
  r <- loop fuel (scan_turn update scanvma endvma endvma) (Z.ldiff scanvma 7, false) ;;
  match r with
  | ScanFound vma => ret (Some vma)
  | ScanDone => finish_page scanvma true
  | ScanOn ephemeral =>
      if update then finish_page scanvma ephemeral
      else
        r <- loop fuel (scan_turn true scanvma endvma scanvma) (Z.ldiff startvma 7, ephemeral) ;;
        match r with
        | ScanFound vma => ret (Some vma)
        | ScanDone => finish_page scanvma true
        | ScanOn ephemeral => finish_page scanvma ephemeral
        end
  end.

(** One page of a scan: its faults are disabled first, even when it is not scanned. *)
(* emulator/memory.c:1280-1364 attr *)
Definition scan_range_turn (slowp update : bool) (mask : Z) (l : Z * Z * Z * Z) :
    Mem (Z * Z * Z * Z + option Z) :=
  let '(vpn, scanvma, count, whack) := l in
  if 0 <? count then
    a <- read_attribute vpn ;;
    let disable := VMTransportFault a && negb (VMTransportDisable a) in
    let a := if disable then SetVMTransportDisable a else a in
    when disable (AdjustProtection scanvma a) ;;
    found <- (if Z.land a mask =? mask then
                if slowp then SlowScanPage scanvma whack else ScanPage scanvma whack update
              else if negb slowp then
                a <- read_attribute vpn ;;
                write_attribute vpn (ClearVMTransportDisable (ClearVMTransportFault a)) ;;
                ret None
              else ret None) ;;
    match found with
    | Some vma => ret (inr (Some vma))
    | None =>
        let count := count - whack in
        ret (inl (vpn + 1, u32 (scanvma + whack), count,
                  if MemoryPage_Size <? count then MemoryPage_Size else count))
    end
  else ret (inr None).

(* emulator/memory.c:1245-1367 VirtualMemoryScan *)
Definition VirtualMemoryScan (vma count : Z) (slowp : bool) : Mem (option Z) :=
  z <- gets zoneoldspace ;;
  let whack := MemoryPage_Size - MemoryPageOffset vma in
  let mask := if slowp then VMAttribute_Exists
              else if z =? 0 then Z.lor VMAttribute_Ephemeral VMAttribute_TransportFault
              else Z.lor VMAttribute_Exists VMAttribute_TransportFault in
  let again := (count =? 0) && (MemoryPageOffset vma =? 0) in
  let scanvma := if again then u32 (vma - MemoryPage_Size) else vma in
  let count := if again then MemoryPage_Size else count in
  loop fuel (scan_range_turn slowp again mask)
    (MemoryPageNumber scanvma, scanvma, count, if count <? whack then count else whack).

(** ** Searches of the attribute table *)

(** The wads without a page are skipped. *)
(* emulator/memory.c:1379-1381 wad *)
Definition skip_wads_turn (l : Z * Z) : Mem (Z * Z + Z * Z) :=
  let '(wad, n) := l in
  if (wad <? 2 ^ 16) && (0 <? n) then
    created <- gets (wad_created wad) ;;
    if created : bool then ret (inr (wad, n)) else ret (inl (wad + 1, n - MemoryWad_Size))
  else ret (inr (wad, n)).
(* emulator/memory.c:1386-1403 attr *)
Definition pht_turn (mask : Z) (sense : bool) (l : Z * Z) : Mem (Z * Z + option Z) :=
  let '(attr, n) := l in
  if (attr <? table_entries) && (0 <? n) then
    a <- read_attribute attr ;;
    if eqb (Z.land a mask =? mask) sense then ret (inr (Some (PageNumberMemory attr)))
    else ret (inl (attr + 1, n - MemoryPage_Size))
  else ret (inr None).

(* emulator/memory.c:1370-1405 VirtualMemoryPHTScan *)
Definition VirtualMemoryPHTScan (vma count mask : Z) (sense : bool) : Mem (option Z) :=
  '(wad, n) <- loop fuel skip_wads_turn (MemoryWadNumber vma, count + MemoryPageOffset vma) ;;
  let attr := if MemoryPageNumber vma <? 8 * wad then 8 * wad else MemoryPageNumber vma in
  loop fuel (pht_turn (u8 mask) sense) (attr, n).

(* emulator/memory.c:1417-1440 scan *)
Definition resident_turn (mask : Z) (sense : bool) (escan scan : Z) : Mem (Z + option (Z * Z)) :=
  if scan <? escan then
    pages <- gets ResidentPages ;;
    vma <- of_option (nth_Z pages scan) ;;
    a <- read_attribute (MemoryPageNumber vma) ;;
    if eqb (Z.land a mask =? mask) sense then
      modify (set_ResidentPagesScan (scan + 1)) ;; ret (inr (Some (vma, escan - scan)))
    else ret (inl (scan + 1))
  else ret (inr None).

(** The page and the number of pages left to look at. *)
(* emulator/memory.c:1410-1445 VirtualMemoryResidentScan *)
Definition VirtualMemoryResidentScan (mask : Z) (sense : bool) : Mem (option (Z * Z)) :=
  scan <- gets ResidentPagesScan ;; wrap <- gets ResidentPagesWrap ;; ptr <- gets ResidentPagesPointer ;;
  r <- loop fuel (resident_turn (u8 mask) sense (if wrap : bool then ResidentPages_Size else ptr)) scan ;;
  match r with
  | Some p => ret (Some p)
  | None =>
      modify (set_ResidentPagesPointer 0) ;; modify (set_ResidentPagesScan 0) ;;
      modify (set_ResidentPagesWrap false) ;;
      ret None
  end.
End scans.

(** * The commands of the virtual-memory coprocessor of emulator/memory.c, and the steps of the
    memory system that they and the interpreter make. *)

(** ** The command word *)

(* emulator/memory.h:68-88 VMOpcode *)
Inductive VMOpcode :=
| VMOpcodeLookup | VMOpcodeCreate | VMOpcodeDestroy
| VMOpcodeReadAttributes | VMOpcodeWriteAttributes
| VMOpcodeFill | VMOpcodeSearch | VMOpcodeCopy
| VMOpcodeScan | VMOpcodeEnable | VMOpcodePHTScan | VMOpcodeCopyandForward
| VMOpcodeResidentScan | VMOpcodeSearchType | VMOpcodeSearchCDR.

(* emulator/memory.h:68-88 VMOpcode *)
Definition opcode_of (n : Z) : option VMOpcode :=
  nth_Z [VMOpcodeLookup; VMOpcodeCreate; VMOpcodeDestroy; VMOpcodeReadAttributes; VMOpcodeWriteAttributes;
         VMOpcodeFill; VMOpcodeSearch; VMOpcodeCopy; VMOpcodeScan; VMOpcodeEnable; VMOpcodePHTScan;
         VMOpcodeCopyandForward; VMOpcodeResidentScan; VMOpcodeSearchType; VMOpcodeSearchCDR] n.

(* emulator/memory.h:98 VMCommandOpcode *)
Definition VMCommandOpcode (command : Z) : option VMOpcode := opcode_of (s32 (ldb 13 19 (u32 command))).
(* emulator/memory.h:99 VMCommandOperand *)
Definition VMCommandOperand (command : Z) : Z := s32 (ldb 19 0 (u32 command)).
(* emulator/memory.h:101 SetVMReplyResult *)
Definition SetVMReplyResult (reply : Z) (result : bool) : Z :=
  s32 (dpb (if result then 0 else 1) 13 19 (u32 reply)).

Definition vm_register {A} (f : VMState -> A) : Mem A := gets (fun s => f (VM s)).
Definition set_vm_register (f : VMState -> VMState) : Mem unit := modify (fun s => set_VM (f (VM s)) s).
Definition truth (operand : Z) : bool := negb (operand =? 0).

Section commands.
Context (mmap_wad reserve_wad : Z -> bool) (vm_extable : list (Z * Z)) (host_pc : Z) (fuel : nat).

(** A search that leaves its address in the register when it succeeds. *)
Definition reply_address (r : option Z) : Mem Z :=
  match r with
  | Some vma => set_vm_register (set_AddressRegister vma) ;; ret (SetVMReplyResult 0 true)
  | None => ret (SetVMReplyResult 0 false)
  end.

(* emulator/memory.c:1462-1480 VMOpcodeCreate *)
Definition command_create (operand : Z) : Mem Z :=
  vma <- vm_register AddressRegister ;;
  words <- vm_register ExtentRegister ;;
  let words := s32 words in
  created <- gets (WadCreated vma) ;;
  (if (created : bool) && (u32 (MemoryPageOffset vma + words) <=? MemoryPage_Size)
   then SetCreated vma (truth operand) false ;; set_vm_register (set_ExtentRegister MemoryPage_Size)
   else r <- EnsureVirtualAddressRange mmap_wad vma words (truth operand) ;;
        set_vm_register (set_ExtentRegister r)) ;;
  ret (SetVMReplyResult (MemoryPageNumber vma) true).

(* emulator/memory.c:1500-1527 VMOpcodeWriteAttributes *)
Definition command_write_attributes (command vpn : Z) : Mem Z :=
  attr <- read_attribute vpn ;;
  let exists_p := VMExists attr in
  nattr <- vm_register AttributesRegister ;;
  let nattr := Z.lor (Z.ldiff (u8 nattr) (Z.lor VMAttribute_Exists VMAttribute_Modified))
                     (Z.land attr (Z.lor VMAttribute_Exists VMAttribute_Modified)) in
  when (exists_p && negb (Z.lxor attr nattr =? 0)) (AdjustProtection (PageNumberMemory vpn) nattr) ;;
  ret (SetVMReplyResult command exists_p).

(* emulator/memory.c:1450-1612 VMCommand *)
Definition VMCommand (command : Z) : Mem Z :=
  let operand := VMCommandOperand command in
  vma <- vm_register AddressRegister ;;
  extent <- vm_register ExtentRegister ;;
  match VMCommandOpcode command with
  | Some VMOpcodeLookup =>
      a <- read_attribute (MemoryPageNumber vma) ;;
      ret (SetVMReplyResult (MemoryPageNumber vma) (VMExists a))
  | Some VMOpcodeCreate => command_create operand
  | Some VMOpcodeDestroy =>
      r <- DestroyVirtualAddressRange reserve_wad vma extent ;;
      set_vm_register (set_ExtentRegister r) ;;
      ret (SetVMReplyResult 0 true)
  | Some VMOpcodeReadAttributes =>
      attr <- read_attribute operand ;;
      when (VMExists attr) (set_vm_register (set_AttributesRegister attr)) ;;
      ret (SetVMReplyResult command (VMExists attr))
  | Some VMOpcodeWriteAttributes => command_write_attributes command operand
  | Some VMOpcodeFill =>
      d <- vm_register DataRegister ;;
      VirtualMemoryWriteBlockConstant vm_extable host_pc vma d (s32 extent) operand ;;
      ret (SetVMReplyResult 0 true)
  | Some VMOpcodeSearch =>
      d <- vm_register DataRegister ;;
      r <- VirtualMemorySearch vm_extable host_pc vma d (s32 extent) ;; reply_address r
  | Some VMOpcodeCopy =>
      to <- vm_register DestinationRegister ;;
      r <- VirtualMemoryCopy vm_extable host_pc vma to (s32 extent) ;;
      ret (SetVMReplyResult 0 r)
  | Some VMOpcodeScan =>
      r <- VirtualMemoryScan vm_extable host_pc fuel vma (s32 extent) (truth operand) ;; reply_address r
  | Some VMOpcodeEnable =>
      VirtualMemoryEnable vma (s32 extent) (truth operand) ;; ret (SetVMReplyResult 0 true)
  | Some VMOpcodePHTScan =>
      m <- vm_register AttributesRegister ;;
      r <- VirtualMemoryPHTScan fuel vma extent m (truth operand) ;; reply_address r
  | Some VMOpcodeCopyandForward =>
      to <- vm_register DestinationRegister ;;
      r <- VirtualMemoryCopyandForward vm_extable host_pc vma to (s32 extent) ;;
      ret (SetVMReplyResult 0 r)
  | Some VMOpcodeResidentScan =>
      m <- vm_register AttributesRegister ;;
      r <- VirtualMemoryResidentScan fuel m (truth operand) ;;
      match r with
      | Some (vma, count) =>
          set_vm_register (set_AddressRegister vma) ;; set_vm_register (set_ExtentRegister count) ;;
          ret (SetVMReplyResult 0 true)
      | None => ret (SetVMReplyResult 0 false)
      end
  | Some VMOpcodeSearchType =>
      high <- vm_register MaskRegisterHigh ;; low <- vm_register MaskRegisterLow ;;
      r <- VirtualMemorySearchType vm_extable host_pc fuel vma (s32 extent) (Z.lor (Z.shiftl high 32) low) ;;
      reply_address r
  | Some VMOpcodeSearchCDR =>
      low <- vm_register MaskRegisterLow ;;
      r <- VirtualMemorySearchCDR vm_extable host_pc fuel vma (s32 extent) low ;; reply_address r
  | None => ret (SetVMReplyResult 0 false)
  end.
End commands.
