(* ===== verification/PageInvariant.v ===== *)
(** The invariant of the page table over every operation of the memory system. *)

From S2P Require Export PageSpec PageScan.
#[local] Open Scope vlm_scope.

(** ** Words do not change protections *)

Lemma hardware_with_tag vma v vpn s : hardware vpn (with_tag vma v s) = hardware vpn s.
Proof.
  unfold hardware. simpl. destruct (decide (Z.shiftr vpn 3 = MemoryWadNumber vma)) as [->|];
    [|by rewrite lookup_alter_ne]. rewrite lookup_alter_eq. by destruct (wads s !! _).
Qed.
Lemma hardware_with_data vma v vpn s : hardware vpn (with_data vma v s) = hardware vpn s.
Proof.
  unfold hardware. simpl. destruct (decide (Z.shiftr vpn 3 = MemoryWadNumber vma)) as [->|];
    [|by rewrite lookup_alter_ne]. rewrite lookup_alter_eq. by destruct (wads s !! _).
Qed.

(** The invariant of all pages but one, whose protection has been changed for a moment. *)
Record open_inv (vpn : Z) (s : VMMemory) : Prop := {
  open_byte v : 0 <= attribute_at v s < 256;
  open_mapped : hardware vpn s <> None;
  open_protection v : v <> vpn -> VMExists (attribute_at v s) = true ->
    hardware v s = Some (ComputeProtection (attribute_at v s));
  open_wads n w : wads s !! n = Some w -> length (wad_protection w) = 8%nat;
  open_resident : Z.of_nat (length (ResidentPages s)) = ResidentPages_Size /\
    0 <= ResidentPagesPointer s < ResidentPages_Size
}.

Lemma alter_wads_length (f : Wad -> Wad) (m : gmap Z Wad) n :
  (forall w, length (wad_protection (f w)) = length (wad_protection w)) ->
  (forall k w, m !! k = Some w -> length (wad_protection w) = 8%nat) ->
  forall k w, alter f n m !! k = Some w -> length (wad_protection w) = 8%nat.
Proof.
  intros Hf Hm k w. destruct (decide (k = n)) as [->|]; [|rewrite lookup_alter_ne by done; apply Hm].
  rewrite lookup_alter_eq. destruct (m !! n) as [w'|] eqn:E; [|done]. intros [= <-]. rewrite Hf. by apply (Hm n).
Qed.

Lemma open_with_tag vpn vma v s : open_inv vpn s -> open_inv vpn (with_tag vma v s).
Proof.
  intros [B M P W R]. constructor; [done|by rewrite hardware_with_tag| | |done].
  - intros x. rewrite hardware_with_tag. apply P.
  - by apply alter_wads_length.
Qed.
Lemma open_with_data vpn vma v s : open_inv vpn s -> open_inv vpn (with_data vma v s).
Proof.
  intros [B M P W R]. constructor; [done|by rewrite hardware_with_data| | |done].
  - intros x. rewrite hardware_with_data. apply P.
  - by apply alter_wads_length.
Qed.
Lemma page_inv_with_tag vma v s : page_inv s -> page_inv (with_tag vma v s).
Proof.
  intros [B P W R]. constructor; [done| | |done].
  - intros x. rewrite hardware_with_tag. apply P.
  - by apply alter_wads_length.
Qed.
Lemma page_inv_with_data vma v s : page_inv s -> page_inv (with_data vma v s).
Proof.
  intros [B P W R]. constructor; [done| | |done].
  - intros x. rewrite hardware_with_data. apply P.
  - by apply alter_wads_length.
Qed.

Lemma open_page vpn prot s : page_inv s -> hardware vpn s <> None -> open_inv vpn (with_protection vpn prot s).
Proof.
  intros [B P W R] M. constructor; [done| | | |done].
  - destruct (hardware vpn s) as [p|] eqn:E; [|done]. by rewrite (hardware_with_eq vpn prot s p W E).
  - intros v Hv. rewrite hardware_with_ne by done. apply P.
  - apply alter_wads_length; [|done]. intros w. apply upd_Z_length.
Qed.
Lemma close_page vpn s : open_inv vpn s ->
  page_inv (with_protection vpn (ComputeProtection (attribute_at vpn s)) s).
Proof.
  intros [B M P W R]. constructor; [done| | |done].
  - intros v. destruct (decide (v = vpn)) as [->|].
    + intros _. destruct (hardware vpn s) as [p|] eqn:E; [|done]. by apply (hardware_with_eq vpn _ s p W E).
    + rewrite hardware_with_ne by done. by apply P.
  - apply alter_wads_length; [|done]. intros w. apply upd_Z_length.
Qed.

(** ** Memory *)

(** The leaves of a preservation proof, and its steps: one for each construct of the monad. *)
Create HintDb vlm_page.
#[export] Hint Constants Opaque : vlm_page.
#[export] Hint Resolve ok_AdjustProtection page_ok_SetCreated page_ok_ClearCreated page_ok_EnsureVirtualAddress
  page_ok_DestroyVirtualAddress ok_ensure_pages page_ok_destroy_pages ok_grant_pages ok_access page_ok_segv_handler : vlm_page.

(** A field that the page table does not depend on. *)
Ltac other_field := apply returns_modify; [intros ? []; by constructor|done].
Ltac get_any := eapply returns_bind; [by apply (returns_gets _ _ (fun _ => True))|intros ? _].

Ltac page_step :=
  cbv zeta; cbn beta iota;
  match goal with
  | |- returns _ (bind (gets _) _) _ => get_any
  | |- returns _ (bind (read_attribute _) _) _ => eapply returns_bind; [apply ok_read_attribute|intros ? ?]
  | |- returns _ (bind _ _) _ => eapply (returns_bind _ _ _ (fun _ => True)); [|intros ? _]
  | |- returns _ (if _ then _ else _) _ => apply returns_if
  | |- returns _ (when _ _) _ => apply returns_when; [|done]
  | |- returns _ (match ?x with _ => _ end) _ => destruct x
  | |- returns _ (gets _) _ => by apply returns_gets
  | |- returns _ (ret _) _ => by apply returns_ret
  | |- returns _ undefined _ => apply returns_undefined
  | |- returns _ out_of_fuel _ => apply returns_out_of_fuel
  | |- returns _ (of_option _) _ => by apply returns_of_option
  | |- returns _ (modify _) _ => other_field
  | |- returns _ (loop _ _ _) _ => apply (returns_loop _ _ _ _ (fun _ => True)); [intros ? _|done]
  | |- returns _ _ _ => solve [eauto with vlm_page]
  end.
Ltac page_steps := repeat page_step.

Section memory.
Context (vm_extable : list (Z * Z)) (host_pc : Z).

Lemma page_ok_touch data write vma : returns page_inv (touch vm_extable host_pc data write vma) (fun _ => True).
Proof.
  eapply returns_bind; [apply ok_access|]. intros [] _; [apply returns_undefined|by apply returns_ret].
Qed.
Lemma ok_load_tag vma : returns page_inv (load_tag vm_extable host_pc vma) (fun _ => True).
Proof. eapply returns_bind; [apply page_ok_touch|]. intros _ _. by apply returns_gets. Qed.
Lemma ok_load_data vma : returns page_inv (load_data vm_extable host_pc vma) (fun _ => True).
Proof. eapply returns_bind; [apply page_ok_touch|]. intros _ _. by apply returns_gets. Qed.
Lemma page_ok_store_tag vma v : returns page_inv (store_tag vm_extable host_pc vma v) (fun _ => True).
Proof.
  eapply returns_bind; [apply page_ok_touch|]. intros _ _. apply returns_modify; [|done].
  intros s. apply page_inv_with_tag.
Qed.
Lemma page_ok_store_data vma v : returns page_inv (store_data vm_extable host_pc vma v) (fun _ => True).
Proof.
  eapply returns_bind; [apply page_ok_touch|]. intros _ _. apply returns_modify; [|done].
  intros s. apply page_inv_with_data.
Qed.

(** An access that the hardware allows. *)
Lemma page_run_touch data write vma s : allowed data write vma s = true ->
  touch vm_extable host_pc data write vma s = (Ok tt, s).
Proof.
  intros E. unfold touch, access. cbn [loop]. unfold access_turn at 1.
  by rewrite !run_bind_assoc, run_bind_gets, E.
Qed.

Lemma allowed_tag write vma s : hardware (MemoryPageNumber vma) s <> None -> allowed false write vma s = true.
Proof. unfold allowed. by destruct (hardware _ s). Qed.

Lemma ok_VirtualMemoryReadUncached vma :
  returns page_inv (VirtualMemoryReadUncached vm_extable host_pc vma) (fun _ => True).
Proof.
  intros s I. split; [|done]. unfold VirtualMemoryReadUncached. set (vpn := MemoryPageNumber vma).
  destruct (in_table vpn) eqn:Et; [|by unfold read_attribute, bind; rewrite Et].
  apply in_table_spec in Et. erewrite bind_Ok by (by apply run_read_attribute).
  destruct (negb (has _ PROT_READ)) eqn:Ep; cbn [when].
  - destruct (wads s !! Z.shiftr vpn 3) as [w|] eqn:Ew; [|unfold mprotect, bind; simpl; by rewrite Ew].
    pose proof (hardware_mapped vpn s w I Ew) as [p Eh].
    erewrite bind_Ok by (by eapply run_mprotect). set (s1 := with_protection vpn PROT_READ s).
    assert (hardware vpn s1 = Some PROT_READ) as E1 by (by apply (hardware_with_eq _ _ s p (inv_wads s I))).
    assert (open_inv vpn s1) as O1 by (apply open_page; [done|by rewrite Eh]).
    unfold load_tag. rewrite run_bind_assoc.
    erewrite bind_Ok by (apply page_run_touch, allowed_tag; fold vpn; by rewrite E1). rewrite run_bind_gets.
    unfold load_data. rewrite run_bind_assoc.
    erewrite bind_Ok by (apply page_run_touch; unfold allowed; fold vpn; by rewrite E1). rewrite run_bind_gets.
    unfold hardware in E1. destruct (wads s1 !! Z.shiftr vpn 3) as [w1|] eqn:Ew1; [|done].
    erewrite bind_Ok by (by eapply run_mprotect).
    exact (close_page vpn s1 O1).
  - rewrite run_bind_ret. apply (returns_preserves page_inv _ (fun _ => True)); [|done].
    eapply returns_bind; [apply ok_load_tag|]. intros t _.
    eapply returns_bind; [apply ok_load_data|]. intros d _. by apply returns_ret.
Qed.

Lemma page_ok_VirtualMemoryRead vma : returns page_inv (VirtualMemoryRead vm_extable host_pc vma) (fun _ => True).
Proof.
  get_any. apply returns_if; [|apply ok_VirtualMemoryReadUncached]. get_any. get_any. by apply returns_of_option.
Qed.

Lemma ok_VirtualMemoryWriteUncached vma o :
  returns page_inv (VirtualMemoryWriteUncached vm_extable host_pc vma o) (fun _ => True).
Proof.
  intros s I. split; [|done]. unfold VirtualMemoryWriteUncached. set (vpn := MemoryPageNumber vma).
  destruct (in_table vpn) eqn:Et; [|by unfold read_attribute, bind; rewrite Et].
  apply in_table_spec in Et. erewrite bind_Ok by (by apply run_read_attribute).
  destruct (negb (has _ PROT_WRITE)) eqn:Ep; cbn [when].
  - destruct (wads s !! Z.shiftr vpn 3) as [w|] eqn:Ew; [|unfold mprotect, bind; simpl; by rewrite Ew].
    pose proof (hardware_mapped vpn s w I Ew) as [p Eh].
    erewrite bind_Ok by (by eapply run_mprotect). set (s1 := with_protection vpn (Z.lor PROT_READ PROT_WRITE) s).
    assert (hardware vpn s1 = Some 3) as E1 by (by apply (hardware_with_eq _ _ s p (inv_wads s I))).
    assert (open_inv vpn s1) as O1 by (apply open_page; [done|by rewrite Eh]).
    unfold store_data. rewrite run_bind_assoc.
    erewrite bind_Ok by (apply page_run_touch; unfold allowed; fold vpn; by rewrite E1). rewrite run_bind_modify.
    set (s2 := with_data vma _ s1).
    assert (hardware vpn s2 = Some 3) as E2 by (by unfold s2; rewrite hardware_with_data).
    unfold store_tag. rewrite run_bind_assoc.
    erewrite bind_Ok by (apply page_run_touch, allowed_tag; fold vpn; by rewrite E2). rewrite run_bind_modify.
    set (s3 := with_tag vma _ s2).
    assert (hardware vpn s3 = Some 3) as E3 by (by unfold s3; rewrite hardware_with_tag).
    assert (open_inv vpn s3) as O3 by (by apply open_with_tag, open_with_data).
    unfold hardware in E3. destruct (wads s3 !! Z.shiftr vpn 3) as [w3|] eqn:Ew3; [|done].
    erewrite run_mprotect by done. exact (close_page vpn s3 O3).
  - rewrite run_bind_ret. apply (returns_preserves page_inv _ (fun _ => True)); [|done].
    eapply returns_bind; [apply page_ok_store_data|]. intros t _.
    eapply returns_bind; [apply page_ok_store_tag|]. intros d _. by apply returns_ret.
Qed.

Lemma page_ok_VirtualMemoryWrite vma o : returns page_inv (VirtualMemoryWrite vm_extable host_pc vma o) (fun _ => True).
Proof.
  get_any. apply returns_if; [|apply ok_VirtualMemoryWriteUncached]. get_any. get_any.
  apply returns_if; [other_field|apply returns_undefined].
Qed.

#[local] Hint Resolve page_ok_touch ok_load_tag ok_load_data page_ok_store_tag page_ok_store_data page_ok_VirtualMemoryRead
  page_ok_VirtualMemoryWrite : vlm_page.

Lemma page_ok_read_words n : forall vma, returns page_inv (read_words vm_extable host_pc n vma) (fun _ => True).
Proof. induction n; intros; simpl; page_steps. Qed.
Lemma ok_read_cached n : forall a c, returns page_inv (read_cached vm_extable host_pc n a c) (fun _ => True).
Proof. induction n; intros; simpl; page_steps. Qed.
Lemma page_ok_write_words n : forall vma l, returns page_inv (write_words vm_extable host_pc n vma l) (fun _ => True).
Proof. induction n; intros; simpl; page_steps. Qed.
Lemma ok_write_cached n : forall a l c, returns page_inv (write_cached vm_extable host_pc n a l c) (fun _ => True).
Proof. induction n; intros; simpl; page_steps. Qed.
Lemma page_ok_fill_tags n : forall vma v, returns page_inv (fill_tags vm_extable host_pc n vma v) (fun _ => True).
Proof. induction n; intros; simpl; page_steps. Qed.
Lemma page_ok_fill_data n : forall vma v i, returns page_inv (fill_data vm_extable host_pc n vma v i) (fun _ => True).
Proof. induction n; intros; simpl; page_steps. Qed.
Lemma ok_fill_cached n : forall a o c i, returns page_inv (fill_cached vm_extable host_pc n a o c i) (fun _ => True).
Proof. induction n; intros; simpl; page_steps. Qed.
Lemma ok_search_words n : forall v t d, returns page_inv (search_words vm_extable host_pc n v t d) (fun _ => True).
Proof. induction n; intros; simpl; page_steps. Qed.
Lemma ok_load_tags n : forall v, returns page_inv (load_tags vm_extable host_pc n v) (fun _ => True).
Proof. induction n; intros; simpl; page_steps. Qed.
Lemma ok_load_datas n : forall v, returns page_inv (load_datas vm_extable host_pc n v) (fun _ => True).
Proof. induction n; intros; simpl; page_steps. Qed.
Lemma ok_store_tags l : forall v, returns page_inv (store_tags vm_extable host_pc v l) (fun _ => True).
Proof. induction l; intros; simpl; page_steps. Qed.
Lemma ok_store_datas l : forall v, returns page_inv (store_datas vm_extable host_pc v l) (fun _ => True).
Proof. induction l; intros; simpl; page_steps. Qed.
Lemma ok_copy_tags_until n : forall c f t, returns page_inv (copy_tags_until vm_extable host_pc n c f t) (fun _ => True).
Proof. induction n; intros; simpl; page_steps. Qed.
Lemma ok_copy_and_forward n : forall f t w, returns page_inv (copy_and_forward vm_extable host_pc n f t w) (fun _ => True).
Proof. induction n; intros; simpl; page_steps. Qed.
#[local] Hint Resolve page_ok_read_words ok_read_cached page_ok_write_words ok_write_cached page_ok_fill_tags page_ok_fill_data
  ok_fill_cached ok_search_words ok_load_tags ok_load_datas ok_store_tags ok_store_datas ok_copy_tags_until
  ok_copy_and_forward : vlm_page.

Lemma page_ok_VirtualMemoryReadBlock a c : returns page_inv (VirtualMemoryReadBlock vm_extable host_pc a c) (fun _ => True).
Proof. unfold VirtualMemoryReadBlock, VirtualMemoryReadBlockUncached. page_steps. Qed.
Lemma page_ok_VirtualMemoryWriteBlock a l c :
  returns page_inv (VirtualMemoryWriteBlock vm_extable host_pc a l c) (fun _ => True).
Proof. unfold VirtualMemoryWriteBlock, VirtualMemoryWriteBlockUncached. page_steps. Qed.
Lemma page_ok_VirtualMemoryWriteBlockConstant a o c i :
  returns page_inv (VirtualMemoryWriteBlockConstant vm_extable host_pc a o c i) (fun _ => True).
Proof. unfold VirtualMemoryWriteBlockConstant, VirtualMemoryWriteBlockConstantUncached. page_steps. Qed.
Lemma page_ok_VirtualMemorySearch v o c : returns page_inv (VirtualMemorySearch vm_extable host_pc v o c) (fun _ => True).
Proof. unfold VirtualMemorySearch. page_steps. Qed.
Lemma page_ok_VirtualMemoryCopy f t c : returns page_inv (VirtualMemoryCopy vm_extable host_pc f t c) (fun _ => True).
Proof. unfold VirtualMemoryCopy. page_steps. Qed.
Lemma ok_VirtualMemoryCopyandForward f t c :
  returns page_inv (VirtualMemoryCopyandForward vm_extable host_pc f t c) (fun _ => True).
Proof. unfold VirtualMemoryCopyandForward. page_steps. Qed.

(** ** Flips and scans *)

Lemma flip_byte (f : Z -> Z) : forallb (fun a => (0 <=? f a) && (f a <? 256)) (seqZ 0 256) = true ->
  forall a, attribute_ok a -> attribute_ok (f a).
Proof.
  intros H a Ha. apply (byte_all _ H) in Ha. apply andb_true_iff in Ha as [?%Z.leb_le ?%Z.ltb_lt].
  by split.
Qed.

Lemma page_ok_enable_pages n flip : (forall a, attribute_ok a -> attribute_ok (flip a)) ->
  forall vpn vma, returns page_inv (enable_pages n flip vpn vma) (fun _ => True).
Proof.
  intros Hf. induction n as [|n IH]; intros; [by apply returns_ret|]. cbn [enable_pages].
  eapply returns_bind; [apply ok_read_attribute|]. intros a Ha.
  eapply (returns_bind _ _ _ (fun _ => True)); [|intros; apply IH].
  apply returns_when; [|done]. cbv zeta. apply returns_when; [|done]. by apply ok_AdjustProtection, Hf.
Qed.

Lemma ok_VirtualMemoryEnable vma c f : returns page_inv (VirtualMemoryEnable vma c f) (fun _ => True).
Proof.
  unfold VirtualMemoryEnable. page_step. apply page_ok_enable_pages. destruct (_ =? 0), f; by apply flip_byte.
Qed.

Lemma ok_load_tags8 g : returns page_inv (load_tags8 vm_extable host_pc g) (fun _ => True).
Proof. unfold load_tags8. page_steps. Qed.
#[local] Hint Resolve ok_load_tags8 : vlm_page.

Lemma page_ok_search_tags fuel prepare up down v c :
  returns page_inv (search_tags vm_extable host_pc fuel prepare up down v c) (fun _ => True).
Proof. unfold search_tags, search_up_turn, search_down_turn. page_steps. Qed.

Lemma ok_slow_scan n : forall v, returns page_inv (slow_scan vm_extable host_pc n v) (fun _ => True).
Proof. induction n; intros; simpl; page_steps. Qed.
Lemma ok_scan_group n : forall u s e t v h, returns page_inv (scan_group vm_extable host_pc n u s e t v h) (fun _ => True).
Proof.
  induction n as [|n IH]; intros; [by apply returns_ret|]. cbn [scan_group]. cbv zeta.
  apply returns_if; [|apply IH]. apply returns_if.
  - apply returns_if; [by apply returns_ret|]. eapply returns_bind; [apply ok_load_data|]. intros d _.
    apply returns_if; [by apply returns_ret|apply IH].
  - eapply returns_bind; [apply ok_load_data|]. intros d _. get_any.
    apply returns_if; [by apply returns_ret|apply IH].
Qed.
#[local] Hint Resolve page_ok_search_tags ok_slow_scan ok_scan_group : vlm_page.

Lemma ok_finish_page v h : returns page_inv (finish_page v h) (fun _ => True).
Proof.
  unfold finish_page. page_steps. apply ok_AdjustProtection. revert a H. destruct h; by apply flip_byte.
Qed.
#[local] Hint Resolve ok_finish_page : vlm_page.
Lemma ok_ScanPage fuel v c u : returns page_inv (ScanPage vm_extable host_pc fuel v c u) (fun _ => True).
Proof. unfold ScanPage, scan_turn. page_steps. Qed.
#[local] Hint Resolve ok_ScanPage : vlm_page.

(** A successful AdjustProtection leaves the new attributes. *)
Lemma AdjustProtection_attribute vma a s s' :
  AdjustProtection vma a s = (Ok tt, s') -> attribute_at (MemoryPageNumber vma) s' = a.
Proof.
  unfold AdjustProtection. intros (oa & s1 & E1 & H)%bind_inv_Ok.
  apply bind_inv_Ok in H as (u & s2 & E2 & H). unfold write_attribute in H.
  destruct (in_table _); [|done]. injection H as <-. apply attribute_with_eq.
Qed.

(** The claim of the code's comment: clearing both transport bits of a page whose faults are
    disabled does not change its protection. *)
Lemma clear_transport a : 0 <= a < 256 -> VMTransportFault a && negb (VMTransportDisable a) = false ->
  0 <= ClearVMTransportDisable (ClearVMTransportFault a) < 256 /\
  VMExists (ClearVMTransportDisable (ClearVMTransportFault a)) = VMExists a /\
  ComputeProtection (ClearVMTransportDisable (ClearVMTransportFault a)) = ComputeProtection a.
Proof.
  intros Ha. set (f := fun a => let b := ClearVMTransportDisable (ClearVMTransportFault a) in
    (VMTransportFault a && negb (VMTransportDisable a)) ||
    ((0 <=? b) && (b <? 256) && eqb (VMExists b) (VMExists a) && (ComputeProtection b =? ComputeProtection a))).
  assert (f a = true) as H by (revert a Ha; apply byte_all; by vm_compute). intros E.
  unfold f in H. cbv zeta in H. rewrite E in H. cbn [orb] in H. rewrite !andb_true_iff in H.
  destruct H as [[[?%Z.leb_le ?%Z.ltb_lt] ?%Bool.eqb_prop] ?%Z.eqb_eq]. by split_and!.
Qed.

Definition scan_position (l : Z * Z * Z * Z) : Prop :=
  let '(vpn, scanvma, count, whack) := l in
  0 < count -> (in_table vpn = true -> vpn = MemoryPageNumber scanvma) /\
    whack = Z.min count (MemoryPage_Size - MemoryPageOffset scanvma).

Lemma scan_position_next vpn scanvma count whack :
  scan_position (vpn, scanvma, count, whack) -> in_table vpn = true -> 0 < count ->
  scan_position (vpn + 1, u32 (scanvma + whack), count - whack,
    if MemoryPage_Size <? count - whack then MemoryPage_Size else count - whack).
Proof.
  intros P Et Hc. destruct (P Hc) as [Hv Hw]. specialize (Hv Et). intros Hc'.
  apply in_table_spec in Et. unfold is_page, table_entries in Et.
  rewrite page_number in Hv. rewrite page_offset in Hw.
  pose proof (Z.mod_pos_bound scanvma (2 ^ 13) ltac:(lia)). unfold MemoryPage_Size in *.
  assert (whack = 8192 - scanvma mod 2 ^ 13) as Ew by lia.
  assert (scanvma + whack = 8192 * (vpn + 1)) as Es.
  { pose proof (Z.div_mod scanvma (2 ^ 13) ltac:(lia)). change (2 ^ 13) with 8192 in *. lia. }
  assert (MemoryPageOffset (u32 (scanvma + whack)) = 0) as Eo.
  { rewrite page_offset, Es. unfold u32. destruct (Z.eq_dec (vpn + 1) (2 ^ 19)) as [->|]; [done|].
    rewrite (Z.mod_small _ (2 ^ 32)) by lia. change (2 ^ 13) with 8192.
    rewrite Z.mul_comm. by apply Z.mod_mul. }
  split.
  - intros Et'%in_table_spec. unfold is_page, table_entries in Et'. rewrite page_number, Es, u32_small.
    + change (2 ^ 13) with 8192. rewrite Z.mul_comm, Z.div_mul by lia. done.
    + unfold is_u32. lia.
  - rewrite Eo. destruct (Z.ltb_spec 8192 (count - whack)); lia.
Qed.

Lemma ok_scan_range_turn fuel slowp update mask l : scan_position l ->
  returns page_inv (scan_range_turn vm_extable host_pc fuel slowp update mask l)
    (fun r => match r with inl l' => scan_position l' | inr _ => True end).
Proof.
  destruct l as [[[vpn scanvma] count] whack]. intros P. unfold scan_range_turn.
  destruct (Z.ltb_spec 0 count) as [Hc|Hc]; [|by apply returns_ret]. intros s I.
  destruct (in_table vpn) eqn:Et; [|unfold read_attribute, bind; rewrite Et; by split].
  destruct (P Hc) as [Hv _]. specialize (Hv Et).
  erewrite bind_Ok by (apply run_read_attribute; by apply in_table_spec). cbv zeta.
  pose proof (inv_byte s I vpn) as Hb. set (a := attribute_at vpn s) in *.
  set (disable := VMTransportFault a && negb (VMTransportDisable a)).
  set (a1 := if disable then SetVMTransportDisable a else a).
  assert (attribute_ok a1) as H1 by (unfold a1; destruct disable; [by apply attribute_ok_lor|exact Hb]).
  assert (VMTransportFault a1 && negb (VMTransportDisable a1) = false) as Hq.
  { unfold a1, disable. destruct (VMTransportFault a && negb (VMTransportDisable a)) eqn:E; [|done].
    unfold SetVMTransportDisable, VMTransportDisable. rewrite has_lor, orb_true_r. apply andb_false_r. }
  assert (returns page_inv (when disable (AdjustProtection scanvma a1)) (fun _ => True)) as Hw
    by (apply returns_when; [by apply ok_AdjustProtection|done]).
  destruct (Hw s I) as [I1 _].
  destruct (when disable (AdjustProtection scanvma a1) s) as [[[]| | | |] s1] eqn:E1;
    [rewrite (bind_Ok _ _ _ _ _ E1)|unfold bind; rewrite E1; by split..].
  simpl in I1. assert (attribute_at vpn s1 = a1) as Ea.
  { unfold a1 in *. destruct disable eqn:Ed; simpl in E1; [|by injection E1 as <-].
    rewrite Hv. by apply (AdjustProtection_attribute _ _ _ _ E1). }
  set (found := if Z.land a1 mask =? mask then _ else _).
  assert (page_inv (found s1).2) as I2.
  { unfold found. destruct (_ =? mask).
    - destruct slowp; [by apply ok_slow_scan|by apply ok_ScanPage].
    - destruct slowp; [done|]. cbn [negb]. erewrite bind_Ok by (apply run_read_attribute; by apply in_table_spec).
      erewrite bind_Ok by (apply run_write_attribute; by apply in_table_spec). simpl. rewrite Ea.
      destruct (clear_transport a1 H1 Hq) as (B & Ee & Ep). apply page_inv_attribute; [done|done|].
      rewrite Ee, Ep, <- Ea. apply (inv_protection s1 I1). }
  destruct (found s1) as [[[vma|]| | | |] s2] eqn:E2;
    [rewrite (bind_Ok _ _ _ _ _ E2); split; [done|by intros r [= <-]]|rewrite (bind_Ok _ _ _ _ _ E2)|unfold bind; rewrite E2; by split..].
  split; [done|]. intros r [= <-]. by apply scan_position_next.
Qed.

Lemma page_ok_VirtualMemoryScan fuel vma count slowp :
  returns page_inv (VirtualMemoryScan vm_extable host_pc fuel vma count slowp) (fun _ => True).
Proof.
  unfold VirtualMemoryScan. get_any. cbv zeta.
  set (scanvma := if _ && _ then u32 _ else vma). set (n := if _ && _ then MemoryPage_Size else count).
  apply (returns_loop _ _ _ _ scan_position).
  - intros l P. eapply returns_weaken; [by apply ok_scan_range_turn|]. by intros [].
  - intros Hn. split; [done|].
    assert (MemoryPageOffset vma = MemoryPageOffset scanvma) as ->.
    { unfold scanvma. destruct (count =? 0); [|done]. destruct (Z.eqb_spec (MemoryPageOffset vma) 0) as [E|]; [|done].
      simpl. rewrite E, page_offset. rewrite page_offset in E. unfold u32, MemoryPage_Size.
      change 8192 with (2 ^ 13). symmetry.
      change (2 ^ 32) with (2 ^ 13 * 2 ^ 19). rewrite Z.mod_mod_divide by (by exists (2 ^ 19)).
      rewrite Zminus_mod, E. done. }
    destruct (Z.ltb_spec n (MemoryPage_Size - MemoryPageOffset scanvma)); lia.
Qed.

(** ** Commands *)

Context (mmap_wad reserve_wad : Z -> bool) (fuel : nat).
#[local] Hint Resolve page_ok_VirtualMemoryReadBlock page_ok_VirtualMemoryWriteBlock page_ok_VirtualMemoryWriteBlockConstant
  page_ok_VirtualMemorySearch page_ok_VirtualMemoryCopy ok_VirtualMemoryCopyandForward ok_VirtualMemoryEnable
  page_ok_VirtualMemoryScan : vlm_page.

Lemma page_ok_EnsureVirtualAddressRange v c f :
  returns page_inv (EnsureVirtualAddressRange mmap_wad v c f) (fun _ => True).
Proof. apply ok_ensure_pages. Qed.
Lemma page_ok_DestroyVirtualAddressRange v c :
  returns page_inv (DestroyVirtualAddressRange reserve_wad v c) (fun _ => True).
Proof. apply page_ok_destroy_pages. Qed.
Lemma ok_EnsureVirtualMemoryAccessible v c : returns page_inv (EnsureVirtualMemoryAccessible v c) (fun _ => True).
Proof. apply ok_grant_pages. Qed.
Lemma ok_set_vm_register f : returns page_inv (set_vm_register f) (fun _ => True).
Proof. unfold set_vm_register. other_field. Qed.
Lemma ok_vm_register {A} (f : VMState -> A) : returns page_inv (vm_register f) (fun _ => True).
Proof. by apply returns_gets. Qed.
#[local] Hint Resolve page_ok_EnsureVirtualAddressRange page_ok_DestroyVirtualAddressRange ok_EnsureVirtualMemoryAccessible
  ok_set_vm_register ok_vm_register : vlm_page.

Lemma ok_reply_address r : returns page_inv (reply_address r) (fun _ => True).
Proof. unfold reply_address. page_steps. Qed.
Lemma ok_PHTScan v c m b : returns page_inv (VirtualMemoryPHTScan fuel v c m b) (fun _ => True).
Proof. unfold VirtualMemoryPHTScan, skip_wads_turn, pht_turn. page_steps. Qed.
Lemma ok_ResidentScan m b : returns page_inv (VirtualMemoryResidentScan fuel m b) (fun _ => True).
Proof.
  unfold VirtualMemoryResidentScan, resident_turn. page_steps.
  apply returns_modify; [|done]. intros s [B P W [R1 R2]]. by constructor.
Qed.
Lemma ok_command_create o : returns page_inv (command_create mmap_wad o) (fun _ => True).
Proof. unfold command_create. page_steps. Qed.
#[local] Hint Resolve ok_reply_address ok_PHTScan ok_ResidentScan ok_command_create : vlm_page.

Lemma land_byte a b : 0 <= a < 256 -> 0 <= Z.land a b < 256.
Proof.
  intros Ha. split; [apply Z.land_nonneg; lia|]. change 256 with (2 ^ 8).
  apply range_of_testbit; [lia|apply Z.land_nonneg; lia|]. intros i Hi.
  by rewrite Z.land_spec, (testbit_above a 8) by (change (2 ^ 8) with 256; lia).
Qed.
Lemma ldiff_byte a b : 0 <= a < 256 -> 0 <= Z.ldiff a b < 256.
Proof.
  intros Ha. split; [apply Z.ldiff_nonneg; lia|]. change 256 with (2 ^ 8).
  apply range_of_testbit; [lia|apply Z.ldiff_nonneg; lia|]. intros i Hi.
  by rewrite Z.ldiff_spec, (testbit_above a 8) by (change (2 ^ 8) with 256; lia).
Qed.

Lemma ok_command_write_attributes c vpn : returns page_inv (command_write_attributes c vpn) (fun _ => True).
Proof.
  unfold command_write_attributes. eapply returns_bind; [apply ok_read_attribute|]. intros a Ha. cbv zeta.
  eapply returns_bind; [apply ok_vm_register|]. intros n _.
  eapply (returns_bind _ _ _ (fun _ => True)); [|intros; by apply returns_ret].
  apply returns_when; [|done]. apply ok_AdjustProtection, lor_byte; [|by apply land_byte].
  apply ldiff_byte. apply u8_range.
Qed.
#[local] Hint Resolve ok_command_write_attributes : vlm_page.

Lemma page_ok_VMCommand c : returns page_inv (VMCommand mmap_wad reserve_wad vm_extable host_pc fuel c) (fun _ => True).
Proof.
  unfold VMCommand. cbv zeta. do 2 (eapply returns_bind; [apply ok_vm_register|intros ? _]).
  destruct (VMCommandOpcode c) as [[]|]; unfold VirtualMemorySearchType, VirtualMemorySearchCDR; page_steps.
Qed.
End memory.

(** ** The system *)

Section system.
Context (mmap_wad reserve_wad : Z -> bool) (vm_extable : list (Z * Z)) (host_pc : Z) (fuel : nat).

(** The fields that the attribute table and the hardware do not depend on. *)
Definition same_pages (s s' : VMMemory) : Prop :=
  VMAttributeTable s' = VMAttributeTable s /\ wads s' = wads s /\
  ResidentPages s' = ResidentPages s /\ ResidentPagesPointer s' = ResidentPagesPointer s.

(** What the memory goes through: commands of the coprocessor, accesses by the interpreter and by
    other threads, stores that the hardware has let through, the routines of Life Support, and
    changes of the processor's registers. *)
Inductive memory_step (s : VMMemory) : VMMemory -> Prop :=
| step_command c : memory_step s (VMCommand mmap_wad reserve_wad vm_extable host_pc fuel c s).2
| step_access emu data write pc vma : memory_step s (access vm_extable emu data write pc vma s).2
| step_store_data vma v : allowed true true vma s = true -> memory_step s (with_data vma (u32 v) s)
| step_store_tag vma v : allowed false true vma s = true -> memory_step s (with_tag vma (u8 v) s)
| step_accessible vma count : memory_step s (EnsureVirtualMemoryAccessible vma count s).2
| step_read vma : memory_step s (VirtualMemoryRead vm_extable host_pc vma s).2
| step_write vma o : memory_step s (VirtualMemoryWrite vm_extable host_pc vma o s).2
| step_read_block vma n : memory_step s (VirtualMemoryReadBlock vm_extable host_pc vma n s).2
| step_write_block vma l n : memory_step s (VirtualMemoryWriteBlock vm_extable host_pc vma l n s).2
| step_processor s' : same_pages s s' -> memory_step s s'.

(** Nothing has been created. *)
Record memory_initial (s : VMMemory) : Prop := {
  initial_table : VMAttributeTable s = ∅;
  initial_wads : wads s = ∅;
  initial_resident : Z.of_nat (length (ResidentPages s)) = ResidentPages_Size /\ ResidentPagesPointer s = 0
}.

Lemma page_inv_initial s : memory_initial s -> page_inv s.
Proof.
  intros [T W [R1 R2]].
  assert (forall v, attribute_at v s = 0) as E by (intros v; unfold attribute_at; by rewrite T, lookup_empty).
  constructor.
  - intros v. rewrite E. lia.
  - intros v. by rewrite E.
  - intros n w. by rewrite W, lookup_empty.
  - by rewrite R1, R2.
Qed.

Lemma page_inv_step s s' : page_inv s -> memory_step s s' -> page_inv s'.
Proof.
  intros I [].
  - by apply page_ok_VMCommand.
  - by apply ok_access.
  - by apply page_inv_with_data.
  - by apply page_inv_with_tag.
  - by apply ok_EnsureVirtualMemoryAccessible.
  - by apply page_ok_VirtualMemoryRead.
  - by apply page_ok_VirtualMemoryWrite.
  - by apply page_ok_VirtualMemoryReadBlock.
  - by apply page_ok_VirtualMemoryWriteBlock.
  - destruct H as (T & W & R1 & R2). destruct I as [B P Wl R].
    constructor; unfold attribute_at, hardware in *; rewrite ?T, ?W, ?R1, ?R2; done.
Qed.

(** C3. The attribute table is authoritative: in every state the memory reaches, the hardware
    protects a page that exists exactly as its attributes say, so a page that can be written
    without a fault is one the collector knows to hold modified and possibly ephemeral words. *)
Theorem memory_lockstep s0 s : memory_initial s0 -> rtc memory_step s0 s ->
  forall vpn, VMExists (attribute_at vpn s) = true ->
    hardware vpn s = Some (ComputeProtection (attribute_at vpn s)) /\
    (forall vma, MemoryPageNumber vma = vpn -> allowed true true vma s = true ->
       VMEphemeral (attribute_at vpn s) = true /\ VMModified (attribute_at vpn s) = true).
Proof.
  intros I0 H. apply page_inv_initial in I0.
  assert (page_inv s) as I by (induction H as [|a b c Hs _ IH]; [done|by eapply IH, page_inv_step]).
  intros vpn E. split; [by apply (inv_protection s I)|]. intros vma <- Ha.
  rewrite allowed_exists in Ha by done. unfold free, noted in Ha. rewrite !andb_true_iff in Ha. tauto.
Qed.
End system.

(** A page created by the coprocessor: its attributes ask for no fault. *)
Definition no_registers : VMState := MkVMState 0 (2 ^ 20) 1 0 0 (MakeLispObj 0 0) 0 0.
Definition empty_memory : VMMemory :=
  MkVMMemory ∅ ∅ 0 0 [] 0 0 0 false (replicate (Z.to_nat ResidentPages_Size) 0) 0 false 0 None 0 0 no_registers.
Definition create_command : Z := Z.shiftl 1 19.
Definition all_mapped (wad : Z) : bool := true.

Lemma empty_memory_initial : memory_initial empty_memory.
Proof.
  constructor; [done|done|]. split; [|done].
  change (Z.of_nat (length (replicate (Z.to_nat ResidentPages_Size) 0)) = ResidentPages_Size).
  by rewrite length_replicate.
Qed.

Lemma memory_lockstep_witness :
  hardware 128 (VMCommand all_mapped all_mapped [] 0 9 create_command empty_memory).2 = Some 3.
Proof.
  apply (memory_lockstep all_mapped all_mapped [] 0 9 empty_memory
    (VMCommand all_mapped all_mapped [] 0 9 create_command empty_memory).2 empty_memory_initial); [|by vm_compute].
  apply rtc_once, step_command.
Defined.
