(* ===== verification/PageScanSpec.v ===== *)
(** The scan of a page finds the first reference to oldspace, or leaves the page's attributes
    saying exactly whether it holds an ephemeral reference. *)

From S2P Require Export PageInvariant.
#[local] Open Scope vlm_scope.

(** ** Words of a page *)

Definition pointer_at (v : Z) (s : VMMemory) : bool := PointerP (tag_at v s).
(** A reference to oldspace, and a reference to an ephemeral address. *)
Definition refers (v : Z) (s : VMMemory) : bool := pointer_at v s && oldspace_reference (data_at v s) s.
Definition ephemeral_at (v : Z) (s : VMMemory) : bool := pointer_at v s && EphemeralAddressP (data_at v s).

Lemma PointerP_land t t' : Z.land t 0x3f = Z.land t' 0x3f -> PointerP t = PointerP t'.
Proof. unfold PointerP. by intros ->. Qed.

(** The bits of the [i]th of eight bytes. *)
Lemma tag_bits_testbit (f : nat -> Z) n m j : 0 <= j ->
  Z.testbit (foldr (fun i z => Z.lor (Z.shiftl (u8 (f i)) (8 * Z.of_nat i)) z) 0 (seq m n)) j =
  (Z.of_nat m * 8 <=? j) && (j <? Z.of_nat (m + n) * 8) && Z.testbit (f (Z.to_nat (j / 8))) (j mod 8).
Proof.
  intros Hj. revert m. induction n as [|n IH]; intros m.
  - simpl. rewrite Z.bits_0. destruct (Z.leb_spec (Z.of_nat m * 8) j), (Z.ltb_spec j (Z.of_nat (m + 0) * 8)); try done. lia.
  - cbn [seq foldr]. rewrite Z.lor_spec, Z.shiftl_spec, IH by done.
    pose proof (Z.div_mod j 8 ltac:(lia)). pose proof (Z.mod_pos_bound j 8 ltac:(lia)).
    destruct (Z.ltb_spec j (8 * Z.of_nat m)) as [Hl|Hl].
    + rewrite (Z.testbit_neg_r _ (j - _)) by lia. cbn [orb].
      destruct (Z.leb_spec (Z.of_nat (S m) * 8) j), (Z.leb_spec (Z.of_nat m * 8) j); try lia; done.
    + rewrite u8_testbit by lia.
      destruct (Z.ltb_spec (j - 8 * Z.of_nat m) 8) as [Hin|Hin].
      * assert (j / 8 = Z.of_nat m) as Eq by lia. assert (j mod 8 = j - 8 * Z.of_nat m) as Em by lia.
        rewrite Eq, Nat2Z.id, Em.
        destruct (Z.leb_spec (Z.of_nat (S m) * 8) j); [lia|]. cbn [andb]. rewrite orb_false_r.
        destruct (Z.leb_spec (Z.of_nat m * 8) j), (Z.ltb_spec j (Z.of_nat (m + S n) * 8)); try lia; done.
      * cbn [andb orb].
        destruct (Z.leb_spec (Z.of_nat (S m) * 8) j), (Z.ltb_spec j (Z.of_nat (S m + n) * 8)),
          (Z.leb_spec (Z.of_nat m * 8) j), (Z.ltb_spec j (Z.of_nat (m + S n) * 8)); try lia; done.
Qed.

(** Shifting the eight tags right brings each under the mask in turn. *)
Lemma tag_bits_nth base s i : 0 <= i < 8 ->
  Z.land (Z.shiftr (tag_bits base s) (8 * i)) 0x3f = Z.land (tag_at (base + i) s) 0x3f.
Proof.
  intros Hi. bits_ext j Hj. rewrite !Z.land_spec, Z.shiftr_spec by done.
  change 0x3f with (Z.ones 6).
  destruct (decide (j < 6)) as [Hl|Hl].
  - unfold tag_bits. rewrite (tag_bits_testbit (fun i => tag_at (base + Z.of_nat i) s)) by lia.
    assert ((j + 8 * i) / 8 = i) as -> by (rewrite Z.mul_comm, Z.div_add, Z.div_small; lia).
    assert ((j + 8 * i) mod 8 = j) as -> by (rewrite Z.mul_comm, Z.mod_add, Z.mod_small; lia).
    rewrite Z2Nat.id by lia.
    destruct (Z.leb_spec (Z.of_nat 0 * 8) (j + 8 * i)), (Z.ltb_spec (j + 8 * i) (Z.of_nat (0 + 8) * 8)); try lia; done.
  - rewrite (Z.ones_spec_high 6 j), !andb_false_r by lia. done.
Qed.

(** ** Reading a page *)

Section page.
Context (vm_extable : list (Z * Z)) (host_pc : Z) (s : VMMemory) (start : Z).

(** The page at [start] can be read without a fault. *)
Record readable : Prop := {
  readable_start : 0 <= start /\ start + MemoryPage_Size <= 2 ^ 32;
  readable_aligned : (MemoryPage_Size | start);
  readable_data vma : start <= vma < start + MemoryPage_Size -> allowed true false vma s = true
}.
Hypothesis R : readable.

Definition on_page (vma : Z) : Prop := start <= vma < start + MemoryPage_Size.

Lemma run_load_data vma : on_page vma -> load_data vm_extable host_pc vma s = (Ok (data_at vma s), s).
Proof. intros H. unfold load_data. by erewrite bind_Ok by (by apply page_run_touch, R). Qed.

Lemma allowed_tags vma : on_page vma -> allowed false false vma s = true.
Proof.
  intros H. pose proof (readable_data R vma H) as A. unfold allowed in *. by destruct (hardware _ s).
Qed.

Lemma run_load_tags8 vma : on_page vma -> (8 | vma) ->
  load_tags8 vm_extable host_pc (Z.shiftr vma 3) s = (Ok (tag_bits vma s), s).
Proof.
  intros H [k ->]. unfold load_tags8. rewrite Z.shiftr_div_pow2 by done. change (2 ^ 3) with 8.
  rewrite Z.div_mul by done. rewrite (Z.mul_comm 8 k). by erewrite bind_Ok by (by apply page_run_touch, allowed_tags).
Qed.

(** What is left of a group's tags, from the word at [thisvma] on. *)
Definition tags_of (n : nat) (tagbits thisvma : Z) : Prop :=
  forall i, 0 <= i < Z.of_nat n -> PointerP (Z.shiftr tagbits (8 * i)) = pointer_at (thisvma + i) s.

Lemma tags_of_group base : tags_of 8 (tag_bits base s) base.
Proof. intros i Hi. by apply PointerP_land, tag_bits_nth. Qed.
Lemma tags_of_head n t v : tags_of (S n) t v -> PointerP t = pointer_at v s.
Proof. intros H. specialize (H 0 ltac:(lia)). by rewrite Z.add_0_r, Z.shiftr_0_r in H. Qed.
Lemma tags_of_tail n t v : tags_of (S n) t v -> tags_of n (Z.shiftr t 8) (v + 1).
Proof.
  intros H i Hi. rewrite Z.shiftr_shiftr by lia. rewrite <- Z.add_assoc, <- (H (1 + i)) by lia. f_equal. f_equal. lia.
Qed.

(** ** Groups *)

Definition some_ephemeral (lo hi : Z) : Prop := exists u, lo <= u < hi /\ ephemeral_at u s = true.

(** The words of a group when the page is searched. *)
Lemma run_scan_group n : forall scanvma endvma tagbits v e,
  tags_of n tagbits v -> (forall u, v <= u < v + Z.of_nat n -> on_page u) ->
  exists r, scan_group vm_extable host_pc n false scanvma endvma tagbits v e s = (Ok r, s) /\
    match r with
    | ScanFound w => v <= w < v + Z.of_nat n /\ scanvma <= w < endvma /\ refers w s = true /\
        (forall u, v <= u < w -> scanvma <= u < endvma -> refers u s = false)
    | ScanOn e' => (forall u, v <= u < v + Z.of_nat n -> scanvma <= u < endvma -> refers u s = false) /\
        (e' = true <-> e = true \/ some_ephemeral v (v + Z.of_nat n))
    | ScanDone => False
    end.
Proof.
  induction n as [|n IH]; intros scanvma endvma tagbits v e Ht Hp.
  { exists (ScanOn e). split; [done|]. split; [intros; lia|]. split; [by left|].
    intros [?|(u & Hu & _)]; [done|lia]. }
  assert (on_page v) as Hv by (apply Hp; lia).
  assert (forall u, v + 1 <= u < v + 1 + Z.of_nat n -> on_page u) as Hp' by (intros; apply Hp; lia).
  pose proof (tags_of_head _ _ _ Ht) as Eh. pose proof (tags_of_tail _ _ _ Ht) as Ht'.
  cbn [scan_group]. cbv zeta. rewrite Eh.
  (* The word itself, then the rest. *)
  assert (forall e1, refers v s = false \/ ~ (scanvma <= v < endvma) ->
    (e1 = true <-> e = true \/ ephemeral_at v s = true) ->
    exists r, scan_group vm_extable host_pc n false scanvma endvma (Z.shiftr tagbits 8) (v + 1) e1 s = (Ok r, s) /\
    match r with
    | ScanFound w => v <= w < v + Z.of_nat (S n) /\ scanvma <= w < endvma /\ refers w s = true /\
        (forall u, v <= u < w -> scanvma <= u < endvma -> refers u s = false)
    | ScanOn e' => (forall u, v <= u < v + Z.of_nat (S n) -> scanvma <= u < endvma -> refers u s = false) /\
        (e' = true <-> e = true \/ some_ephemeral v (v + Z.of_nat (S n)))
    | ScanDone => False
    end) as Hrest.
  { intros e1 Hno He. destruct (IH scanvma endvma _ (v + 1) e1 Ht' Hp') as (r & Er & Hr).
    exists r. split; [exact Er|]. destruct r as [e'| |w]; [|done|].
    - destruct Hr as [H1 H2]. split.
      + intros u Hu Hin. destruct (Z.eq_dec u v) as [->|]; [by destruct Hno|]. apply H1; lia.
      + rewrite H2, He. unfold some_ephemeral. split.
        * intros [[?|?]|(u & Hu & E)]; [by left|right; exists v; split; [lia|done]|right; exists u; split; [lia|done]].
        * intros [?|(u & Hu & E)]; [by left; left|]. destruct (Z.eq_dec u v) as [->|]; [left; by right|].
          right. exists u. split; [lia|done].
    - destruct Hr as (H1 & H2 & H3 & H4). split; [lia|]. do 2 (split; [done|]).
      intros u Hu Hin. destruct (Z.eq_dec u v) as [->|]; [by destruct Hno|]. apply H4; lia. }
  destruct (pointer_at v s) eqn:Ep.
  - erewrite bind_Ok by (by apply run_load_data). rewrite run_bind_gets.
    destruct (oldspace_reference (data_at v s) s && ((scanvma <=? v) && (v <? endvma))) eqn:Ef.
    + rewrite !andb_true_iff, Z.leb_le, Z.ltb_lt in Ef. destruct Ef as [Eo [? ?]]. exists (ScanFound v).
      split; [done|]. split; [lia|]. split; [done|]. split; [unfold refers; by rewrite Ep|intros; lia].
    + apply Hrest.
      * unfold refers. rewrite Ep. cbn [andb]. rewrite !andb_false_iff, Z.leb_gt, Z.ltb_ge in Ef.
        destruct Ef as [?|[?|?]]; [by left|right; lia|right; lia].
      * unfold ephemeral_at. rewrite Ep, orb_true_iff. done.
  - apply Hrest; unfold refers, ephemeral_at; rewrite Ep; [by left|]. split; [by left|]. by intros [].
Qed.

(** The words of a group when only the page's ephemeral bit is sought. *)
Definition final (r : ScanResult) : Prop := match r with ScanOn e => e = true | ScanDone => True | ScanFound _ => False end.

Lemma run_update_group n : forall scanvma endvma tagbits v e,
  tags_of n tagbits v -> (forall u, v <= u < v + Z.of_nat n -> on_page u) ->
  exists r, scan_group vm_extable host_pc n true scanvma endvma tagbits v e s = (Ok r, s) /\
    (forall w, r <> ScanFound w) /\ (r = ScanDone -> e = true \/ some_ephemeral v (v + Z.of_nat n)) /\
    (final r <-> e = true \/ some_ephemeral v (v + Z.of_nat n)).
Proof.
  induction n as [|n IH]; intros scanvma endvma tagbits v e Ht Hp.
  { exists (ScanOn e). split; [done|]. split; [done|]. split; [done|]. split; [by left|].
    intros [?|(u & Hu & _)]; [done|lia]. }
  assert (on_page v) as Hv by (apply Hp; lia).
  assert (forall u, v + 1 <= u < v + 1 + Z.of_nat n -> on_page u) as Hp' by (intros; apply Hp; lia).
  pose proof (tags_of_head _ _ _ Ht) as Eh. pose proof (tags_of_tail _ _ _ Ht) as Ht'.
  assert (some_ephemeral v (v + Z.of_nat (S n)) <->
          ephemeral_at v s = true \/ some_ephemeral (v + 1) (v + 1 + Z.of_nat n)) as Hs.
  { unfold some_ephemeral. split.
    - intros (u & Hu & E). destruct (Z.eq_dec u v) as [->|]; [by left|]. right. exists u. split; [lia|done].
    - intros [E|(u & Hu & E)]; [exists v|exists u]; (split; [lia|done]). }
  assert (forall e1, (e1 = true <-> e = true \/ ephemeral_at v s = true) ->
    exists r, scan_group vm_extable host_pc n true scanvma endvma (Z.shiftr tagbits 8) (v + 1) e1 s = (Ok r, s) /\
    (forall w, r <> ScanFound w) /\ (r = ScanDone -> e = true \/ some_ephemeral v (v + Z.of_nat (S n))) /\
    (final r <-> e = true \/ some_ephemeral v (v + Z.of_nat (S n)))) as Hrest.
  { intros e1 He. destruct (IH scanvma endvma _ (v + 1) e1 Ht' Hp') as (r & Er & Hn & Hd & Hf).
    exists r. split; [exact Er|]. split; [done|]. split; [|by rewrite Hf, He, Hs; tauto].
    intros E. specialize (Hd E). rewrite He in Hd. rewrite Hs. tauto. }
  cbn [scan_group]. cbv zeta. rewrite Eh. destruct (pointer_at v s) eqn:Ep.
  - destruct e eqn:Ee.
    + exists ScanDone. split; [done|]. split; [done|]. split; [by left|]. split; [by left|done].
    + erewrite bind_Ok by (by apply run_load_data).
      destruct (EphemeralAddressP (data_at v s)) eqn:Ea.
      * assert (ephemeral_at v s = true) as Ev by (unfold ephemeral_at; by rewrite Ep).
        exists ScanDone. rewrite Hs. split; [done|]. split; [done|]. split; [tauto|]. split; [tauto|done].
      * apply Hrest. unfold ephemeral_at. rewrite Ep, Ea. split; [done|]. by intros [].
  - apply Hrest. unfold ephemeral_at. rewrite Ep. split; [by left|]. by intros [].
Qed.

(** ** Loops over groups *)

Lemma some_ephemeral_app lo mid hi : lo <= mid <= hi ->
  some_ephemeral lo hi <-> some_ephemeral lo mid \/ some_ephemeral mid hi.
Proof.
  intros H. unfold some_ephemeral. split.
  - intros (u & Hu & E). destruct (Z.lt_ge_cases u mid); [left|right]; exists u; (split; [lia|done]).
  - intros [(u & Hu & E)|(u & Hu & E)]; exists u; (split; [lia|done]).
Qed.

Lemma below_2_32 v : on_page v -> (2 ^ 32 <=? v) = false.
Proof. intros H. apply Z.leb_gt. destruct R as [[_ ?] _ _]. unfold on_page in H. lia. Qed.

Lemma run_search_loop fuel : forall scanvma endvma v e,
  (8 | v) -> (8 | endvma) -> start <= v <= endvma -> endvma <= start + MemoryPage_Size ->
  endvma - v < 8 * Z.of_nat fuel ->
  exists r, loop fuel (scan_turn vm_extable host_pc false scanvma endvma endvma) (v, e) s = (Ok r, s) /\
    match r with
    | ScanFound w => v <= w < endvma /\ scanvma <= w /\ refers w s = true /\
        (forall u, v <= u < w -> scanvma <= u -> refers u s = false)
    | ScanOn e' => (forall u, v <= u < endvma -> scanvma <= u -> refers u s = false) /\
        (e' = true <-> e = true \/ some_ephemeral v endvma)
    | ScanDone => False
    end.
Proof.
  induction fuel as [|fuel IH]; intros scanvma endvma v e Av Ae Hv He Hf; [lia|]. cbn [loop].
  unfold scan_turn at 1. destruct (Z.ltb_spec v endvma) as [Hl|Hl].
  2: { exists (ScanOn e). split; [done|]. split; [intros; lia|]. split; [by left|].
       intros [?|(u & Hu & _)]; [done|lia]. }
  assert (v + 8 <= endvma) as H8 by (destruct Av as [k ->], Ae as [j ->]; lia).
  assert (forall u, v <= u < v + Z.of_nat 8 -> on_page u) as Hp by (intros u Hu; unfold on_page; lia).
  rewrite below_2_32 by (apply Hp; lia). rewrite run_bind_assoc.
  erewrite bind_Ok by (apply run_load_tags8; [apply Hp; lia|done]). rewrite run_bind_assoc.
  destruct (run_scan_group 8 scanvma endvma (tag_bits v s) v e (tags_of_group v) Hp) as (r & Er & Hr).
  erewrite bind_Ok by exact Er. change (Z.of_nat 8) with 8 in Hr. destruct r as [e'| |w].
  - rewrite run_bind_ret. destruct Hr as [H1 H2].
    destruct (IH scanvma endvma (v + 8) e') as (r2 & Er2 & Hr2); try (done || lia).
    { by apply Z.divide_add_r; [|exists 1]. }
    exists r2. split; [exact Er2|]. destruct r2 as [e2| |w2]; [|done|].
    + destruct Hr2 as [H3 H4]. split.
      * intros u Hu Hs. destruct (Z.lt_ge_cases u (v + 8)); [apply H1; lia|apply H3; lia].
      * rewrite H4, H2, (some_ephemeral_app v (v + 8) endvma) by lia. tauto.
    + destruct Hr2 as (H3 & H4 & H5 & H6). split; [lia|]. do 2 (split; [done|]).
      intros u Hu Hs. destruct (Z.lt_ge_cases u (v + 8)); [apply H1; lia|apply H6; lia].
  - done.
  - rewrite run_bind_ret. exists (ScanFound w). split; [done|]. destruct Hr as (H1 & H2 & H3 & H4).
    split; [lia|]. split; [lia|]. split; [done|]. intros u Hu Hs. apply H4; lia.
Qed.

Lemma run_update_loop fuel : forall scanvma endvma limit hi v e,
  (8 | v) -> (8 | hi) -> hi - 8 < limit <= hi -> start <= v -> v - 8 < limit -> hi <= start + MemoryPage_Size ->
  hi - v < 8 * Z.of_nat fuel ->
  exists r, loop fuel (scan_turn vm_extable host_pc true scanvma endvma limit) (v, e) s = (Ok r, s) /\
    (forall w, r <> ScanFound w) /\ (final r <-> e = true \/ some_ephemeral v hi).
Proof.
  induction fuel as [|fuel IH]; intros scanvma endvma limit hi v e Av Ah Hh Hv Hvl He Hf.
  { exfalso. destruct Av as [k ->], Ah as [j ->]. lia. }
  cbn [loop]. unfold scan_turn at 1. destruct (Z.ltb_spec v limit) as [Hl|Hl].
  2: { exists (ScanOn e). split; [done|]. split; [done|]. split; [by left|].
       intros [?|(u & Hu & _)]; [done|]. destruct Av as [k ->], Ah as [j ->]. lia. }
  assert (v + 8 <= hi) as H8 by (destruct Av as [k ->], Ah as [j ->]; lia).
  assert (forall u, v <= u < v + Z.of_nat 8 -> on_page u) as Hp by (intros u Hu; unfold on_page; lia).
  rewrite below_2_32 by (apply Hp; lia). rewrite run_bind_assoc.
  erewrite bind_Ok by (apply run_load_tags8; [apply Hp; lia|done]). rewrite run_bind_assoc.
  destruct (run_update_group 8 scanvma endvma (tag_bits v s) v e (tags_of_group v) Hp) as (r & Er & Hn & Hd & Hr).
  erewrite bind_Ok by exact Er. change (Z.of_nat 8) with 8 in *.
  pose proof (some_ephemeral_app v (v + 8) hi ltac:(lia)) as Ea.
  destruct r as [e'| |w]; [| |by destruct (Hn w)].
  - rewrite run_bind_ret. destruct (IH scanvma endvma limit hi (v + 8) e') as (r2 & Er2 & Hn2 & Hr2); try (done || lia).
    { by apply Z.divide_add_r; [|exists 1]. }
    exists r2. split; [exact Er2|]. split; [done|]. simpl in Hr. rewrite Hr2, Hr, Ea. tauto.
  - rewrite run_bind_ret. exists ScanDone. split; [done|]. split; [done|]. specialize (Hd eq_refl).
    rewrite Ea. simpl. tauto.
Qed.
End page.

(** ** The page *)

Lemma scanned_ok e a : attribute_ok a -> attribute_ok (scanned e a).
Proof. destruct e; by apply flip_byte. Qed.
Lemma scanned_exists e a : 0 <= a < 256 -> VMExists (scanned e a) = VMExists a.
Proof. intros Ha. destruct e; by_bytes. Qed.
Lemma scanned_ephemeral e a : 0 <= a < 256 -> VMEphemeral (scanned e a) = e.
Proof. intros Ha. destruct e; by_bytes. Qed.

Lemma run_finish_page v e s : page_inv s -> is_page (MemoryPageNumber v) ->
  VMExists (attribute_at (MemoryPageNumber v) s) = true ->
  exists s', finish_page v e s = (Ok None, s') /\ page_inv s' /\ memory_of s' = memory_of s /\
    attribute_at (MemoryPageNumber v) s' = scanned e (attribute_at (MemoryPageNumber v) s) /\
    (forall p, p <> MemoryPageNumber v -> attribute_at p s' = attribute_at p s).
Proof.
  intros I Hp Ee. set (vpn := MemoryPageNumber v) in *. set (a := attribute_at vpn s) in *.
  pose proof (inv_byte s I vpn : 0 <= a < 256) as Ha.
  unfold finish_page. fold vpn. erewrite bind_Ok by (by apply run_read_attribute). fold a. cbv zeta.
  destruct (Z.eqb_spec (scanned e a) a) as [E|E]; cbn [negb when].
  - rewrite run_bind_ret. exists s. do 3 (split; [done|]). by rewrite E.
  - exists (adjusted vpn (scanned e a) s).
    assert (hardware vpn s <> None) as Hh by (by rewrite (inv_protection s I _ Ee)).
    split; [|split; [|split; [|split]]].
    + erewrite bind_Ok; [done|]. apply run_AdjustProtection; try done; [by apply scanned_ok|].
      fold vpn a. by rewrite Ee, orb_true_r.
    + apply page_inv_adjusted; [done|by apply scanned_ok|done].
    + apply memory_of_protection.
    + apply attribute_with_eq.
    + intros p Hn. unfold adjusted. by rewrite attribute_with_ne.
Qed.

Lemma ldiff_7 v : Z.ldiff v 7 = 8 * (v / 8).
Proof.
  change 7 with (Z.ones 3). rewrite Z.ldiff_ones_r, Z.shiftl_mul_pow2, Z.shiftr_div_pow2 by lia.
  change (2 ^ 3) with 8. lia.
Qed.

(** C13. ScanPage, from an address of a page that can be read to the page's end, returns the first
    reference to oldspace from there on and changes nothing; or there is none, and it leaves the
    page without transport faults and marked ephemeral exactly when some word of the page,
    before or after the address, is a reference to an ephemeral address. *)
Theorem ScanPage_correct vm_extable host_pc fuel s start scanvma :
  page_inv s -> readable s start -> start <= scanvma < start + MemoryPage_Size ->
  VMExists (attribute_at (MemoryPageNumber scanvma) s) = true -> (1024 < fuel)%nat ->
  let last := start + MemoryPage_Size in
  let vpn := MemoryPageNumber scanvma in
  (exists w, ScanPage vm_extable host_pc fuel scanvma (last - scanvma) false s = (Ok (Some w), s) /\
     scanvma <= w < last /\ refers w s = true /\ (forall u, scanvma <= u < w -> refers u s = false)) \/
  ((forall u, scanvma <= u < last -> refers u s = false) /\
   exists e s', ScanPage vm_extable host_pc fuel scanvma (last - scanvma) false s = (Ok None, s') /\
     (e = true <-> exists u, start <= u < last /\ ephemeral_at u s = true) /\
     attribute_at vpn s' = scanned e (attribute_at vpn s) /\ page_inv s' /\ memory_of s' = memory_of s /\
     (forall p, p <> vpn -> attribute_at p s' = attribute_at p s)).
Proof.
  intros I R Hs Ee Hf last vpn. destruct (readable_start s start R) as [H0 H1].
  destruct (readable_aligned s start R) as [k Ek]. unfold MemoryPage_Size in *.
  assert (scanvma - MemoryPageOffset scanvma = start) as Est.
  { rewrite page_offset. change (2 ^ 13) with 8192.
    pose proof (Z.div_mod scanvma 8192 ltac:(lia)). pose proof (Z.mod_pos_bound scanvma 8192 ltac:(lia)). lia. }
  assert (is_page vpn) as Hp by (apply page_in_table; unfold is_u32; lia).
  assert (8 * (scanvma / 8) <= scanvma < 8 * (scanvma / 8) + 8) as H8
    by (pose proof (Z.div_mod scanvma 8 ltac:(lia)); pose proof (Z.mod_pos_bound scanvma 8 ltac:(lia)); lia).
  assert (start <= 8 * (scanvma / 8)) as Hlow by lia.
  assert ((8 | last)) as Al by (exists (1024 * (k + 1)); lia).
  assert ((8 | 8 * (scanvma / 8))) as Av by (by exists (scanvma / 8); lia).
  unfold ScanPage. rewrite Est. replace (scanvma + (last - scanvma)) with last by lia. cbv zeta.
  rewrite !ldiff_7.
  destruct (run_search_loop vm_extable host_pc s start R fuel scanvma last (8 * (scanvma / 8)) false Av Al)
    as (r & Er & Hr); [lia|unfold last, MemoryPage_Size; lia|lia|].
  erewrite bind_Ok by exact Er. destruct r as [e| |w]; [|done|].
  - right. destruct Hr as [Hno He]. split; [intros u Hu; apply Hno; lia|].
    set (hi := if scanvma =? 8 * (scanvma / 8) then scanvma else 8 * (scanvma / 8) + 8).
    assert ((8 | hi) /\ hi - 8 < scanvma <= hi /\ hi <= last) as (Ah & Hh & Hl).
    { unfold hi. destruct (Z.eqb_spec scanvma (8 * (scanvma / 8))) as [E|E].
      - rewrite E at 1. split; [done|lia].
      - split; [by exists (scanvma / 8 + 1); lia|]. split; [lia|]. destruct Al as [j Ej]. lia. }
    replace (8 * (start / 8)) with start by (rewrite Ek; replace (k * 8192) with (k * 1024 * 8) by lia;
      rewrite Z.div_mul by lia; lia).
    destruct (run_update_loop vm_extable host_pc s start R fuel scanvma last scanvma hi start e)
      as (r2 & Er2 & Hn2 & Hr2); [exists (k * 1024); lia|done|lia|lia|lia|unfold last, MemoryPage_Size in *; lia|lia|].
    erewrite bind_Ok by exact Er2.
    assert (forall b : bool, (b = true <-> final r2) ->
      (b = true <-> exists u, start <= u < last /\ ephemeral_at u s = true)) as Hb.
    { intros b ->. rewrite Hr2, He. split.
      - intros [[?|(u & Hu & E)]|(u & Hu & E)]; [done|exists u; split; [lia|done]..].
      - intros (u & Hu & E). destruct (Z.lt_ge_cases u hi); [right|left; right]; exists u; split; (lia || done). }
    destruct r2 as [e2| |w2]; [| |by destruct (Hn2 w2)].
    + destruct (run_finish_page scanvma e2 s I Hp Ee) as (s' & Es & I' & M' & A' & O').
      exists e2, s'. split; [done|]. split; [by apply Hb|done].
    + destruct (run_finish_page scanvma true s I Hp Ee) as (s' & Es & I' & M' & A' & O').
      exists true, s'. split; [done|]. split; [by apply Hb|done].
  - left. exists w. destruct Hr as (W1 & W2 & W3 & W4). split; [done|]. split; [lia|]. split; [done|].
    intros u Hu. apply W4; lia.
Qed.

(** ** A page in use *)

(** The memory with one page, at 2^20, written once: a reference to an ephemeral address. *)
Definition one_page : VMMemory := (VMCommand all_mapped all_mapped [] 0 9 create_command empty_memory).2.
Definition page_start : Z := 2 ^ 20.
(** The page after the collector has cleared its attributes. *)
Definition cleared_page : VMMemory := (AdjustProtection page_start VMAttribute_Exists one_page).2.

Lemma one_page_inv : page_inv one_page.
Proof. apply page_ok_VMCommand, page_inv_initial, empty_memory_initial. Qed.
Lemma cleared_page_inv : page_inv cleared_page.
Proof. apply (ok_AdjustProtection page_start VMAttribute_Exists); [done|apply one_page_inv]. Qed.

Lemma number_on_page vma : page_start <= vma < page_start + MemoryPage_Size -> MemoryPageNumber vma = 128.
Proof.
  unfold page_start, MemoryPage_Size, MemoryPageNumber, MemoryPage_AddressShift. intros H.
  rewrite Z.shiftr_div_pow2 by done. symmetry. apply Z.div_unique with (vma - 2 ^ 20); lia.
Qed.
Lemma cleared_page_readable : readable cleared_page page_start.
Proof.
  constructor.
  - done.
  - by exists 128.
  - intros vma H. unfold allowed. rewrite (number_on_page vma H).
    assert (hardware 128 cleared_page = Some 1) as -> by (by vm_compute). done.
Qed.

Lemma no_references vma : page_start <= vma < page_start + MemoryPage_Size -> refers vma cleared_page = false.
Proof.
  intros H. unfold refers, data_at. rewrite wad_of_page, (number_on_page vma H).
  assert (wad_data <$> wads cleared_page !! Z.shiftr 128 3 = Some ∅) as E by (by vm_compute).
  destruct (wads cleared_page !! Z.shiftr 128 3) as [w|]; [|done]. simpl in E. injection E as E. rewrite E.
  change (pointer_at vma cleared_page && oldspace_reference 0xFFFFFFFF cleared_page = false).
  assert (oldspace_reference 0xFFFFFFFF cleared_page = false) as -> by (by vm_compute). apply andb_false_r.
Qed.

Lemma ScanPage_correct_witness :
  exists e s', ScanPage [] 0 1025 page_start MemoryPage_Size false cleared_page = (Ok None, s') /\
    attribute_at 128 s' = scanned e VMAttribute_Exists.
Proof.
  destruct (ScanPage_correct [] 0 1025 cleared_page page_start page_start cleared_page_inv cleared_page_readable)
    as [(w & _ & H)|(_ & e & s' & E & _ & A & _)]; [done|by vm_compute|lia| |].
  - destruct H as (Hw & Hr & _). by rewrite no_references in Hr.
  - exists e, s'. split; [exact E|]. clear E. rewrite (number_on_page page_start) in A by done.
    assert (attribute_at 128 cleared_page = VMAttribute_Exists) as Ea by (by vm_compute). by rewrite Ea in A.
Defined.

