(* ===== verification/WorldState.v ===== *)
(** World files: the data of src/world_tools.c, and the part of the host it works on. A file is
    the bytes written to it; a descriptor is open on a file at an offset; the World structures
    and the load maps they point to are kept by identifier.

    The directory maps names to files, so a file that is renamed or replaced stays open. *)

From S2P Require Export PageMemory.
#[local] Open Scope vlm_scope.

(** ** The format *)

Definition VLMWorldFormat : Z := 0. (* include/world_tools.h:83 VLMWorldFormat *)
Definition IvoryWorldFormat : Z := 1. (* include/world_tools.h:84 IvoryWorldFormat *)
Definition LoadMapDataPages : Z := 0. (* include/world_tools.h:40 LoadMapDataPages *)
Definition LoadMapConstant : Z := 1. (* include/world_tools.h:41 LoadMapConstant *)
Definition LoadMapConstantIncremented : Z := 2. (* include/world_tools.h:42 LoadMapConstantIncremented *)
Definition LoadMapCopy : Z := 3. (* include/world_tools.h:43 LoadMapCopy *)
Definition VersionAndArchitectureQ : Z := 0. (* include/world_tools.h:89 VersionAndArchitectureQ *)
Definition VLMWorldFileCookie : Z := 2743765384. (* include/world_tools.h:96 VLMWorldFileCookie *)
Definition VLMWorldFileCookieSwapped : Z := 2290715299. (* include/world_tools.h:97 VLMWorldFileCookieSwapped *)
Definition VLMPageSizeQs : Z := 8192. (* include/world_tools.h:98 VLMPageSizeQs *)
Definition VLMBlockSize : Z := 8192. (* include/world_tools.h:99 VLMBlockSize *)
Definition VLMBlocksPerDataPage : Z := 4. (* include/world_tools.h:100 VLMBlocksPerDataPage *)
Definition VLMBlocksPerTagsPage : Z := 1. (* include/world_tools.h:101 VLMBlocksPerTagsPage *)
Definition VLMMaximumHeaderBlocks : Z := 14. (* include/world_tools.h:102 VLMMaximumHeaderBlocks *)
Definition VLMDataPageSizeBytes : Z := 4 * VLMPageSizeQs. (* include/world_tools.h:103 VLMDataPageSizeBytes *)
Definition VLMTagsPageSizeBytes : Z := VLMPageSizeQs. (* include/world_tools.h:104 VLMTagsPageSizeBytes *)
Definition VLMVersion1AndArchitecture : Z := 8388736. (* include/world_tools.h:106 VLMVersion1AndArchitecture *)
Definition VLMWorldFileV1WiredCountQ : Z := 1. (* include/world_tools.h:107 VLMWorldFileV1WiredCountQ *)
Definition VLMWorldFileV1UnwiredCountQ : Z := 0. (* include/world_tools.h:108 VLMWorldFileV1UnwiredCountQ *)
Definition VLMWorldFileV1PageBasesQ : Z := 3. (* include/world_tools.h:109 VLMWorldFileV1PageBasesQ *)
Definition VLMWorldFileV1FirstSysoutQ : Z := 0. (* include/world_tools.h:110 VLMWorldFileV1FirstSysoutQ *)
Definition VLMWorldFileV1FirstMapQ : Z := 8. (* include/world_tools.h:111 VLMWorldFileV1FirstMapQ *)
Definition VLMVersion2AndArchitecture : Z := 8388737. (* include/world_tools.h:113 VLMVersion2AndArchitecture *)
Definition VLMWorldFileV2WiredCountQ : Z := 1. (* include/world_tools.h:114 VLMWorldFileV2WiredCountQ *)
Definition VLMWorldFileV2UnwiredCountQ : Z := 0. (* include/world_tools.h:115 VLMWorldFileV2UnwiredCountQ *)
Definition VLMWorldFileV2PageBasesQ : Z := 2. (* include/world_tools.h:116 VLMWorldFileV2PageBasesQ *)
Definition VLMWorldFileV2FirstSysoutQ : Z := 3. (* include/world_tools.h:117 VLMWorldFileV2FirstSysoutQ *)
Definition VLMWorldFileV2FirstMapQ : Z := 8. (* include/world_tools.h:118 VLMWorldFileV2FirstMapQ *)
Definition IvoryWorldFileCookie : Z := 1665812808. (* include/world_tools.h:139 IvoryWorldFileCookie *)
Definition IvoryPageSizeQs : Z := 256. (* include/world_tools.h:143 IvoryPageSizeQs *)
Definition IvoryPageSizeBytes : Z := 1280. (* include/world_tools.h:144 IvoryPageSizeBytes *)
Definition IvoryWorldFileWiredCountQ : Z := 1. (* include/world_tools.h:145 IvoryWorldFileWiredCountQ *)
Definition IvoryWorldFileUnwiredCountQ : Z := 2. (* include/world_tools.h:146 IvoryWorldFileUnwiredCountQ *)
Definition IvoryWorldFileFirstSysoutQ : Z := 0. (* include/world_tools.h:147 IvoryWorldFileFirstSysoutQ *)
Definition IvoryWorldFileFirstMapQ : Z := 8. (* include/world_tools.h:148 IvoryWorldFileFirstMapQ *)
Definition Type_HeaderI : Z := 3. (* emulator/aihead.h:15 Type_HeaderI *)
Definition Type_Fixnum : Z := 8. (* emulator/aihead.h:25 Type_Fixnum *)
Definition Type_SmallRatio : Z := 9. (* emulator/aihead.h:27 Type_SmallRatio *)
Definition Type_SingleFloat : Z := 10. (* emulator/aihead.h:29 Type_SingleFloat *)
Definition Type_Array : Z := 22. (* emulator/aihead.h:53 Type_Array *)
Definition Type_String : Z := 23. (* emulator/aihead.h:55 Type_String *)
Definition Type_Locative : Z := 25. (* emulator/aihead.h:59 Type_Locative *)
Definition Type_Character : Z := 35. (* emulator/aihead.h:79 Type_Character *)
Definition Cdr_Normal : Z := 2. (* emulator/aihead.h:141 Cdr_Normal *)
Definition Array_LengthMask : Z := 32767. (* emulator/aihead.h:203 Array_LengthMask *)
Definition SystemCommAreaAddress : Z := 0xF8041100. (* emulator/SystemComm.h:11 SystemCommAreaAddress *)

(** Characters of names, as bytes. *)
Definition Pathname : Type := list Z.
Definition VLMWorldSuffix : Pathname := [46; 118; 108; 111; 100]. (* include/world_tools.h:94 VLMWorldSuffix *)
Definition IvoryWorldSuffix : Pathname := [46; 105; 108; 111; 100]. (* include/world_tools.h:136 IvoryWorldSuffix *)

(** ** Load maps and worlds *)

(* include/world_tools.h:19-34 LoadMapEntry *)
Record LoadMapEntry := MkLoadMapEntry {
  address : Z;
  op_count : Z;
  op_opcode : Z;
  entry_data : LispObjRecord;
  entry_world : Z
}.

Definition set_address (v : Z) (e : LoadMapEntry) : LoadMapEntry :=
  MkLoadMapEntry v (op_count e) (op_opcode e) (entry_data e) (entry_world e).
Definition set_op_count (v : Z) (e : LoadMapEntry) : LoadMapEntry :=
  MkLoadMapEntry (address e) v (op_opcode e) (entry_data e) (entry_world e).
Definition set_op_opcode (v : Z) (e : LoadMapEntry) : LoadMapEntry :=
  MkLoadMapEntry (address e) (op_count e) v (entry_data e) (entry_world e).
Definition set_entry_data (v : LispObjRecord) (e : LoadMapEntry) : LoadMapEntry :=
  MkLoadMapEntry (address e) (op_count e) (op_opcode e) v (entry_world e).
Definition set_entry_world (v : Z) (e : LoadMapEntry) : LoadMapEntry :=
  MkLoadMapEntry (address e) (op_count e) (op_opcode e) (entry_data e) v.

(** The merged map of a world: not computed, the world's own map, or a map of its own. *)
Inductive MergedMap :=
| NoMap
| SharedMap
| OwnMap (l : list LoadMapEntry).

(* include/world_tools.h:49-76 World *)
Record World := MkWorld {
  pathname : Pathname;
  fd : Z;
  format : Z;
  byteSwapped : bool;
  vlmDataPageBase : Z;
  vlmTagsPageBase : Z;
  vlmDataPage : option (list Z);
  vlmTagsPage : option (list Z);
  ivoryDataPage : option (list Z);
  currentPageNumber : Z;
  currentQNumber : Z;
  parentWorld : option Z;
  sysoutGeneration : Z;
  sysoutTimestamp1 : Z;
  sysoutTimestamp2 : Z;
  sysoutParentTimestamp1 : Z;
  sysoutParentTimestamp2 : Z;
  nWiredMapEntries : Z;
  wiredMapEntries : option (list LoadMapEntry);
  nMergedWiredMapEntries : Z;
  mergedWiredMapEntries : MergedMap;
  nUnwiredMapEntries : Z;
  unwiredMapEntries : option (list LoadMapEntry);
  nMergedUnwiredMapEntries : Z;
  mergedUnwiredMapEntries : MergedMap
}.

Definition set_pathname (v : Pathname) (w : World) : World :=
  MkWorld v (fd w) (format w) (byteSwapped w) (vlmDataPageBase w) (vlmTagsPageBase w) (vlmDataPage w)
    (vlmTagsPage w) (ivoryDataPage w) (currentPageNumber w) (currentQNumber w) (parentWorld w)
    (sysoutGeneration w) (sysoutTimestamp1 w) (sysoutTimestamp2 w) (sysoutParentTimestamp1 w)
    (sysoutParentTimestamp2 w) (nWiredMapEntries w) (wiredMapEntries w) (nMergedWiredMapEntries w)
    (mergedWiredMapEntries w) (nUnwiredMapEntries w) (unwiredMapEntries w) (nMergedUnwiredMapEntries w)
    (mergedUnwiredMapEntries w).
Definition set_fd (v : Z) (w : World) : World :=
  MkWorld (pathname w) v (format w) (byteSwapped w) (vlmDataPageBase w) (vlmTagsPageBase w) (vlmDataPage w)
    (vlmTagsPage w) (ivoryDataPage w) (currentPageNumber w) (currentQNumber w) (parentWorld w)
    (sysoutGeneration w) (sysoutTimestamp1 w) (sysoutTimestamp2 w) (sysoutParentTimestamp1 w)
    (sysoutParentTimestamp2 w) (nWiredMapEntries w) (wiredMapEntries w) (nMergedWiredMapEntries w)
    (mergedWiredMapEntries w) (nUnwiredMapEntries w) (unwiredMapEntries w) (nMergedUnwiredMapEntries w)
    (mergedUnwiredMapEntries w).
Definition set_format (v : Z) (w : World) : World :=
  MkWorld (pathname w) (fd w) v (byteSwapped w) (vlmDataPageBase w) (vlmTagsPageBase w) (vlmDataPage w)
    (vlmTagsPage w) (ivoryDataPage w) (currentPageNumber w) (currentQNumber w) (parentWorld w)
    (sysoutGeneration w) (sysoutTimestamp1 w) (sysoutTimestamp2 w) (sysoutParentTimestamp1 w)
    (sysoutParentTimestamp2 w) (nWiredMapEntries w) (wiredMapEntries w) (nMergedWiredMapEntries w)
    (mergedWiredMapEntries w) (nUnwiredMapEntries w) (unwiredMapEntries w) (nMergedUnwiredMapEntries w)
    (mergedUnwiredMapEntries w).
Definition set_byteSwapped (v : bool) (w : World) : World :=
  MkWorld (pathname w) (fd w) (format w) v (vlmDataPageBase w) (vlmTagsPageBase w) (vlmDataPage w)
    (vlmTagsPage w) (ivoryDataPage w) (currentPageNumber w) (currentQNumber w) (parentWorld w)
    (sysoutGeneration w) (sysoutTimestamp1 w) (sysoutTimestamp2 w) (sysoutParentTimestamp1 w)
    (sysoutParentTimestamp2 w) (nWiredMapEntries w) (wiredMapEntries w) (nMergedWiredMapEntries w)
    (mergedWiredMapEntries w) (nUnwiredMapEntries w) (unwiredMapEntries w) (nMergedUnwiredMapEntries w)
    (mergedUnwiredMapEntries w).
Definition set_vlmDataPageBase (v : Z) (w : World) : World :=
  MkWorld (pathname w) (fd w) (format w) (byteSwapped w) v (vlmTagsPageBase w) (vlmDataPage w)
    (vlmTagsPage w) (ivoryDataPage w) (currentPageNumber w) (currentQNumber w) (parentWorld w)
    (sysoutGeneration w) (sysoutTimestamp1 w) (sysoutTimestamp2 w) (sysoutParentTimestamp1 w)
    (sysoutParentTimestamp2 w) (nWiredMapEntries w) (wiredMapEntries w) (nMergedWiredMapEntries w)
    (mergedWiredMapEntries w) (nUnwiredMapEntries w) (unwiredMapEntries w) (nMergedUnwiredMapEntries w)
    (mergedUnwiredMapEntries w).
Definition set_vlmTagsPageBase (v : Z) (w : World) : World :=
  MkWorld (pathname w) (fd w) (format w) (byteSwapped w) (vlmDataPageBase w) v (vlmDataPage w)
    (vlmTagsPage w) (ivoryDataPage w) (currentPageNumber w) (currentQNumber w) (parentWorld w)
    (sysoutGeneration w) (sysoutTimestamp1 w) (sysoutTimestamp2 w) (sysoutParentTimestamp1 w)
    (sysoutParentTimestamp2 w) (nWiredMapEntries w) (wiredMapEntries w) (nMergedWiredMapEntries w)
    (mergedWiredMapEntries w) (nUnwiredMapEntries w) (unwiredMapEntries w) (nMergedUnwiredMapEntries w)
    (mergedUnwiredMapEntries w).
Definition set_vlmDataPage (v : option (list Z)) (w : World) : World :=
  MkWorld (pathname w) (fd w) (format w) (byteSwapped w) (vlmDataPageBase w) (vlmTagsPageBase w) v
    (vlmTagsPage w) (ivoryDataPage w) (currentPageNumber w) (currentQNumber w) (parentWorld w)
    (sysoutGeneration w) (sysoutTimestamp1 w) (sysoutTimestamp2 w) (sysoutParentTimestamp1 w)
    (sysoutParentTimestamp2 w) (nWiredMapEntries w) (wiredMapEntries w) (nMergedWiredMapEntries w)
    (mergedWiredMapEntries w) (nUnwiredMapEntries w) (unwiredMapEntries w) (nMergedUnwiredMapEntries w)
    (mergedUnwiredMapEntries w).
Definition set_vlmTagsPage (v : option (list Z)) (w : World) : World :=
  MkWorld (pathname w) (fd w) (format w) (byteSwapped w) (vlmDataPageBase w) (vlmTagsPageBase w)
    (vlmDataPage w) v (ivoryDataPage w) (currentPageNumber w) (currentQNumber w) (parentWorld w)
    (sysoutGeneration w) (sysoutTimestamp1 w) (sysoutTimestamp2 w) (sysoutParentTimestamp1 w)
    (sysoutParentTimestamp2 w) (nWiredMapEntries w) (wiredMapEntries w) (nMergedWiredMapEntries w)
    (mergedWiredMapEntries w) (nUnwiredMapEntries w) (unwiredMapEntries w) (nMergedUnwiredMapEntries w)
    (mergedUnwiredMapEntries w).
Definition set_ivoryDataPage (v : option (list Z)) (w : World) : World :=
  MkWorld (pathname w) (fd w) (format w) (byteSwapped w) (vlmDataPageBase w) (vlmTagsPageBase w)
    (vlmDataPage w) (vlmTagsPage w) v (currentPageNumber w) (currentQNumber w) (parentWorld w)
    (sysoutGeneration w) (sysoutTimestamp1 w) (sysoutTimestamp2 w) (sysoutParentTimestamp1 w)
    (sysoutParentTimestamp2 w) (nWiredMapEntries w) (wiredMapEntries w) (nMergedWiredMapEntries w)
    (mergedWiredMapEntries w) (nUnwiredMapEntries w) (unwiredMapEntries w) (nMergedUnwiredMapEntries w)
    (mergedUnwiredMapEntries w).
Definition set_currentPageNumber (v : Z) (w : World) : World :=
  MkWorld (pathname w) (fd w) (format w) (byteSwapped w) (vlmDataPageBase w) (vlmTagsPageBase w)
    (vlmDataPage w) (vlmTagsPage w) (ivoryDataPage w) v (currentQNumber w) (parentWorld w)
    (sysoutGeneration w) (sysoutTimestamp1 w) (sysoutTimestamp2 w) (sysoutParentTimestamp1 w)
    (sysoutParentTimestamp2 w) (nWiredMapEntries w) (wiredMapEntries w) (nMergedWiredMapEntries w)
    (mergedWiredMapEntries w) (nUnwiredMapEntries w) (unwiredMapEntries w) (nMergedUnwiredMapEntries w)
    (mergedUnwiredMapEntries w).
Definition set_currentQNumber (v : Z) (w : World) : World :=
  MkWorld (pathname w) (fd w) (format w) (byteSwapped w) (vlmDataPageBase w) (vlmTagsPageBase w)
    (vlmDataPage w) (vlmTagsPage w) (ivoryDataPage w) (currentPageNumber w) v (parentWorld w)
    (sysoutGeneration w) (sysoutTimestamp1 w) (sysoutTimestamp2 w) (sysoutParentTimestamp1 w)
    (sysoutParentTimestamp2 w) (nWiredMapEntries w) (wiredMapEntries w) (nMergedWiredMapEntries w)
    (mergedWiredMapEntries w) (nUnwiredMapEntries w) (unwiredMapEntries w) (nMergedUnwiredMapEntries w)
    (mergedUnwiredMapEntries w).
Definition set_parentWorld (v : option Z) (w : World) : World :=
  MkWorld (pathname w) (fd w) (format w) (byteSwapped w) (vlmDataPageBase w) (vlmTagsPageBase w)
    (vlmDataPage w) (vlmTagsPage w) (ivoryDataPage w) (currentPageNumber w) (currentQNumber w) v
    (sysoutGeneration w) (sysoutTimestamp1 w) (sysoutTimestamp2 w) (sysoutParentTimestamp1 w)
    (sysoutParentTimestamp2 w) (nWiredMapEntries w) (wiredMapEntries w) (nMergedWiredMapEntries w)
    (mergedWiredMapEntries w) (nUnwiredMapEntries w) (unwiredMapEntries w) (nMergedUnwiredMapEntries w)
    (mergedUnwiredMapEntries w).
Definition set_sysoutGeneration (v : Z) (w : World) : World :=
  MkWorld (pathname w) (fd w) (format w) (byteSwapped w) (vlmDataPageBase w) (vlmTagsPageBase w)
    (vlmDataPage w) (vlmTagsPage w) (ivoryDataPage w) (currentPageNumber w) (currentQNumber w)
    (parentWorld w) v (sysoutTimestamp1 w) (sysoutTimestamp2 w) (sysoutParentTimestamp1 w)
    (sysoutParentTimestamp2 w) (nWiredMapEntries w) (wiredMapEntries w) (nMergedWiredMapEntries w)
    (mergedWiredMapEntries w) (nUnwiredMapEntries w) (unwiredMapEntries w) (nMergedUnwiredMapEntries w)
    (mergedUnwiredMapEntries w).
Definition set_sysoutTimestamp1 (v : Z) (w : World) : World :=
  MkWorld (pathname w) (fd w) (format w) (byteSwapped w) (vlmDataPageBase w) (vlmTagsPageBase w)
    (vlmDataPage w) (vlmTagsPage w) (ivoryDataPage w) (currentPageNumber w) (currentQNumber w)
    (parentWorld w) (sysoutGeneration w) v (sysoutTimestamp2 w) (sysoutParentTimestamp1 w)
    (sysoutParentTimestamp2 w) (nWiredMapEntries w) (wiredMapEntries w) (nMergedWiredMapEntries w)
    (mergedWiredMapEntries w) (nUnwiredMapEntries w) (unwiredMapEntries w) (nMergedUnwiredMapEntries w)
    (mergedUnwiredMapEntries w).
Definition set_sysoutTimestamp2 (v : Z) (w : World) : World :=
  MkWorld (pathname w) (fd w) (format w) (byteSwapped w) (vlmDataPageBase w) (vlmTagsPageBase w)
    (vlmDataPage w) (vlmTagsPage w) (ivoryDataPage w) (currentPageNumber w) (currentQNumber w)
    (parentWorld w) (sysoutGeneration w) (sysoutTimestamp1 w) v (sysoutParentTimestamp1 w)
    (sysoutParentTimestamp2 w) (nWiredMapEntries w) (wiredMapEntries w) (nMergedWiredMapEntries w)
    (mergedWiredMapEntries w) (nUnwiredMapEntries w) (unwiredMapEntries w) (nMergedUnwiredMapEntries w)
    (mergedUnwiredMapEntries w).
Definition set_sysoutParentTimestamp1 (v : Z) (w : World) : World :=
  MkWorld (pathname w) (fd w) (format w) (byteSwapped w) (vlmDataPageBase w) (vlmTagsPageBase w)
    (vlmDataPage w) (vlmTagsPage w) (ivoryDataPage w) (currentPageNumber w) (currentQNumber w)
    (parentWorld w) (sysoutGeneration w) (sysoutTimestamp1 w) (sysoutTimestamp2 w) v
    (sysoutParentTimestamp2 w) (nWiredMapEntries w) (wiredMapEntries w) (nMergedWiredMapEntries w)
    (mergedWiredMapEntries w) (nUnwiredMapEntries w) (unwiredMapEntries w) (nMergedUnwiredMapEntries w)
    (mergedUnwiredMapEntries w).
Definition set_sysoutParentTimestamp2 (v : Z) (w : World) : World :=
  MkWorld (pathname w) (fd w) (format w) (byteSwapped w) (vlmDataPageBase w) (vlmTagsPageBase w)
    (vlmDataPage w) (vlmTagsPage w) (ivoryDataPage w) (currentPageNumber w) (currentQNumber w)
    (parentWorld w) (sysoutGeneration w) (sysoutTimestamp1 w) (sysoutTimestamp2 w)
    (sysoutParentTimestamp1 w) v (nWiredMapEntries w) (wiredMapEntries w) (nMergedWiredMapEntries w)
    (mergedWiredMapEntries w) (nUnwiredMapEntries w) (unwiredMapEntries w) (nMergedUnwiredMapEntries w)
    (mergedUnwiredMapEntries w).
Definition set_nWiredMapEntries (v : Z) (w : World) : World :=
  MkWorld (pathname w) (fd w) (format w) (byteSwapped w) (vlmDataPageBase w) (vlmTagsPageBase w)
    (vlmDataPage w) (vlmTagsPage w) (ivoryDataPage w) (currentPageNumber w) (currentQNumber w)
    (parentWorld w) (sysoutGeneration w) (sysoutTimestamp1 w) (sysoutTimestamp2 w)
    (sysoutParentTimestamp1 w) (sysoutParentTimestamp2 w) v (wiredMapEntries w) (nMergedWiredMapEntries w)
    (mergedWiredMapEntries w) (nUnwiredMapEntries w) (unwiredMapEntries w) (nMergedUnwiredMapEntries w)
    (mergedUnwiredMapEntries w).
Definition set_wiredMapEntries (v : option (list LoadMapEntry)) (w : World) : World :=
  MkWorld (pathname w) (fd w) (format w) (byteSwapped w) (vlmDataPageBase w) (vlmTagsPageBase w)
    (vlmDataPage w) (vlmTagsPage w) (ivoryDataPage w) (currentPageNumber w) (currentQNumber w)
    (parentWorld w) (sysoutGeneration w) (sysoutTimestamp1 w) (sysoutTimestamp2 w)
    (sysoutParentTimestamp1 w) (sysoutParentTimestamp2 w) (nWiredMapEntries w) v (nMergedWiredMapEntries w)
    (mergedWiredMapEntries w) (nUnwiredMapEntries w) (unwiredMapEntries w) (nMergedUnwiredMapEntries w)
    (mergedUnwiredMapEntries w).
Definition set_nMergedWiredMapEntries (v : Z) (w : World) : World :=
  MkWorld (pathname w) (fd w) (format w) (byteSwapped w) (vlmDataPageBase w) (vlmTagsPageBase w)
    (vlmDataPage w) (vlmTagsPage w) (ivoryDataPage w) (currentPageNumber w) (currentQNumber w)
    (parentWorld w) (sysoutGeneration w) (sysoutTimestamp1 w) (sysoutTimestamp2 w)
    (sysoutParentTimestamp1 w) (sysoutParentTimestamp2 w) (nWiredMapEntries w) (wiredMapEntries w) v
    (mergedWiredMapEntries w) (nUnwiredMapEntries w) (unwiredMapEntries w) (nMergedUnwiredMapEntries w)
    (mergedUnwiredMapEntries w).
Definition set_mergedWiredMapEntries (v : MergedMap) (w : World) : World :=
  MkWorld (pathname w) (fd w) (format w) (byteSwapped w) (vlmDataPageBase w) (vlmTagsPageBase w)
    (vlmDataPage w) (vlmTagsPage w) (ivoryDataPage w) (currentPageNumber w) (currentQNumber w)
    (parentWorld w) (sysoutGeneration w) (sysoutTimestamp1 w) (sysoutTimestamp2 w)
    (sysoutParentTimestamp1 w) (sysoutParentTimestamp2 w) (nWiredMapEntries w) (wiredMapEntries w)
    (nMergedWiredMapEntries w) v (nUnwiredMapEntries w) (unwiredMapEntries w) (nMergedUnwiredMapEntries w)
    (mergedUnwiredMapEntries w).
Definition set_nUnwiredMapEntries (v : Z) (w : World) : World :=
  MkWorld (pathname w) (fd w) (format w) (byteSwapped w) (vlmDataPageBase w) (vlmTagsPageBase w)
    (vlmDataPage w) (vlmTagsPage w) (ivoryDataPage w) (currentPageNumber w) (currentQNumber w)
    (parentWorld w) (sysoutGeneration w) (sysoutTimestamp1 w) (sysoutTimestamp2 w)
    (sysoutParentTimestamp1 w) (sysoutParentTimestamp2 w) (nWiredMapEntries w) (wiredMapEntries w)
    (nMergedWiredMapEntries w) (mergedWiredMapEntries w) v (unwiredMapEntries w)
    (nMergedUnwiredMapEntries w) (mergedUnwiredMapEntries w).
Definition set_unwiredMapEntries (v : option (list LoadMapEntry)) (w : World) : World :=
  MkWorld (pathname w) (fd w) (format w) (byteSwapped w) (vlmDataPageBase w) (vlmTagsPageBase w)
    (vlmDataPage w) (vlmTagsPage w) (ivoryDataPage w) (currentPageNumber w) (currentQNumber w)
    (parentWorld w) (sysoutGeneration w) (sysoutTimestamp1 w) (sysoutTimestamp2 w)
    (sysoutParentTimestamp1 w) (sysoutParentTimestamp2 w) (nWiredMapEntries w) (wiredMapEntries w)
    (nMergedWiredMapEntries w) (mergedWiredMapEntries w) (nUnwiredMapEntries w) v
    (nMergedUnwiredMapEntries w) (mergedUnwiredMapEntries w).
Definition set_nMergedUnwiredMapEntries (v : Z) (w : World) : World :=
  MkWorld (pathname w) (fd w) (format w) (byteSwapped w) (vlmDataPageBase w) (vlmTagsPageBase w)
    (vlmDataPage w) (vlmTagsPage w) (ivoryDataPage w) (currentPageNumber w) (currentQNumber w)
    (parentWorld w) (sysoutGeneration w) (sysoutTimestamp1 w) (sysoutTimestamp2 w)
    (sysoutParentTimestamp1 w) (sysoutParentTimestamp2 w) (nWiredMapEntries w) (wiredMapEntries w)
    (nMergedWiredMapEntries w) (mergedWiredMapEntries w) (nUnwiredMapEntries w) (unwiredMapEntries w) v
    (mergedUnwiredMapEntries w).
Definition set_mergedUnwiredMapEntries (v : MergedMap) (w : World) : World :=
  MkWorld (pathname w) (fd w) (format w) (byteSwapped w) (vlmDataPageBase w) (vlmTagsPageBase w)
    (vlmDataPage w) (vlmTagsPage w) (ivoryDataPage w) (currentPageNumber w) (currentQNumber w)
    (parentWorld w) (sysoutGeneration w) (sysoutTimestamp1 w) (sysoutTimestamp2 w)
    (sysoutParentTimestamp1 w) (sysoutParentTimestamp2 w) (nWiredMapEntries w) (wiredMapEntries w)
    (nMergedWiredMapEntries w) (mergedWiredMapEntries w) (nUnwiredMapEntries w) (unwiredMapEntries w)
    (nMergedUnwiredMapEntries w) v.

(** ** The host *)

(** A file: how many bytes it has, and those that are not 0. *)
Record File := MkFile { file_size : Z; file_bytes : gmap Z Z }.
Record Descriptor := MkDescriptor { descriptor_file : Z; descriptor_offset : Z }.

(** The memory of the emulator; the directory, files and descriptors; the World structures; and
    the static variables of world_tools.c. *)
(* src/world_tools.c:833-864 originalWorld *)
Record HostState := MkHostState {
  memory : VMMemory;
  directory : gmap Pathname Z;
  inodes : gmap Z File;
  next_inode : Z;
  descriptors : gmap Z Descriptor;
  next_fd : Z;
  world_store : gmap Z World;
  next_world : Z;
  originalWorld : option Z;
  worlds : option (list (option Z));
  totalWorlds : Z;
  nWorlds : Z;
  scanningDir : Pathname
}.

Definition set_memory (v : VMMemory) (h : HostState) : HostState :=
  MkHostState v (directory h) (inodes h) (next_inode h) (descriptors h) (next_fd h) (world_store h)
    (next_world h) (originalWorld h) (worlds h) (totalWorlds h) (nWorlds h) (scanningDir h).
Definition set_directory (v : gmap Pathname Z) (h : HostState) : HostState :=
  MkHostState (memory h) v (inodes h) (next_inode h) (descriptors h) (next_fd h) (world_store h)
    (next_world h) (originalWorld h) (worlds h) (totalWorlds h) (nWorlds h) (scanningDir h).
Definition set_inodes (v : gmap Z File) (h : HostState) : HostState :=
  MkHostState (memory h) (directory h) v (next_inode h) (descriptors h) (next_fd h) (world_store h)
    (next_world h) (originalWorld h) (worlds h) (totalWorlds h) (nWorlds h) (scanningDir h).
Definition set_next_inode (v : Z) (h : HostState) : HostState :=
  MkHostState (memory h) (directory h) (inodes h) v (descriptors h) (next_fd h) (world_store h)
    (next_world h) (originalWorld h) (worlds h) (totalWorlds h) (nWorlds h) (scanningDir h).
Definition set_descriptors (v : gmap Z Descriptor) (h : HostState) : HostState :=
  MkHostState (memory h) (directory h) (inodes h) (next_inode h) v (next_fd h) (world_store h)
    (next_world h) (originalWorld h) (worlds h) (totalWorlds h) (nWorlds h) (scanningDir h).
Definition set_next_fd (v : Z) (h : HostState) : HostState :=
  MkHostState (memory h) (directory h) (inodes h) (next_inode h) (descriptors h) v (world_store h)
    (next_world h) (originalWorld h) (worlds h) (totalWorlds h) (nWorlds h) (scanningDir h).
Definition set_world_store (v : gmap Z World) (h : HostState) : HostState :=
  MkHostState (memory h) (directory h) (inodes h) (next_inode h) (descriptors h) (next_fd h) v
    (next_world h) (originalWorld h) (worlds h) (totalWorlds h) (nWorlds h) (scanningDir h).
Definition set_next_world (v : Z) (h : HostState) : HostState :=
  MkHostState (memory h) (directory h) (inodes h) (next_inode h) (descriptors h) (next_fd h) (world_store h)
    v (originalWorld h) (worlds h) (totalWorlds h) (nWorlds h) (scanningDir h).
Definition set_originalWorld (v : option Z) (h : HostState) : HostState :=
  MkHostState (memory h) (directory h) (inodes h) (next_inode h) (descriptors h) (next_fd h) (world_store h)
    (next_world h) v (worlds h) (totalWorlds h) (nWorlds h) (scanningDir h).
Definition set_worlds (v : option (list (option Z))) (h : HostState) : HostState :=
  MkHostState (memory h) (directory h) (inodes h) (next_inode h) (descriptors h) (next_fd h) (world_store h)
    (next_world h) (originalWorld h) v (totalWorlds h) (nWorlds h) (scanningDir h).
Definition set_totalWorlds (v : Z) (h : HostState) : HostState :=
  MkHostState (memory h) (directory h) (inodes h) (next_inode h) (descriptors h) (next_fd h) (world_store h)
    (next_world h) (originalWorld h) (worlds h) v (nWorlds h) (scanningDir h).
Definition set_nWorlds (v : Z) (h : HostState) : HostState :=
  MkHostState (memory h) (directory h) (inodes h) (next_inode h) (descriptors h) (next_fd h) (world_store h)
    (next_world h) (originalWorld h) (worlds h) (totalWorlds h) v (scanningDir h).
Definition set_scanningDir (v : Pathname) (h : HostState) : HostState :=
  MkHostState (memory h) (directory h) (inodes h) (next_inode h) (descriptors h) (next_fd h) (world_store h)
    (next_world h) (originalWorld h) (worlds h) (totalWorlds h) (nWorlds h) v.

Abbreviation Hst := (M HostState).

(** What the host decides: whether an allocation of so many bytes succeeds, whether a file can be
    opened, grown, and transferred to or from at an offset, and what a directory holds; and the
    parameters of the memory system. *)
Inductive ScanResult :=
| Entries (names : list Pathname)
| NoSuchDirectory
| ScanFails.

Class Host := {
  malloc_succeeds : Z -> bool;
  may_read_file : Pathname -> bool;
  may_write_file : Pathname -> bool;
  transfers : Z -> Z -> Z -> bool;
  grows : Z -> Z -> bool;
  scan_directory : Pathname -> ScanResult;
  renames : Pathname -> Pathname -> bool;
  mmap_wad : Z -> bool;
  reserve_wad : Z -> bool;
  vm_extable : list (Z * Z);
  host_pc : Z
}.
