(* ===== verification/WorldFile.v ===== *)
(** World files on the host: descriptors, closing and giving up, the pages and words of a file,
    opening and creating one, and writing its header and pages (src/world_tools.c). *)

From S2P Require Export WorldState.
#[local] Open Scope vlm_scope.

(** ** Bytes *)

(** A 32-bit word as four bytes, least significant first, and back. *)
Definition bytes_of_word (w : Z) : list Z :=
  [w mod 256; (w / 256) mod 256; (w / 65536) mod 256; (w / 16777216) mod 256].
Definition word_of_bytes (l : list Z) : option Z :=
  match l with [a; b; c; d] => Some (a + 256 * b + 65536 * c + 16777216 * d) | _ => None end.
Definition word_at (l : list Z) (offset : Z) : option Z :=
  if 0 <=? offset then word_of_bytes (firstn 4 (skipn (Z.to_nat offset) l)) else None.
(** [l[offset...] = bs]; [None] when a subscript is out of bounds. *)
Definition put_bytes (l : list Z) (offset : Z) (bs : list Z) : option (list Z) :=
  if (0 <=? offset) && (offset + Z.of_nat (length bs) <=? Z.of_nat (length l))
  then Some (firstn (Z.to_nat offset) l ++ bs ++ skipn (Z.to_nat offset + length bs) l) else None.

(** ** Files *)

Definition file_byte (f : File) (i : Z) : Z := default 0 (file_bytes f !! i).
Definition file_read (f : File) (offset : Z) (n : nat) : list Z :=
  map (fun i => file_byte f (offset + Z.of_nat i)) (seq 0 n).
Fixpoint write_bytes (offset : Z) (l : list Z) (m : gmap Z Z) : gmap Z Z :=
  match l with [] => m | b :: l' => write_bytes (offset + 1) l' (<[offset := b]> m) end.
Definition file_write (f : File) (offset : Z) (l : list Z) : File :=
  match l with
  | [] => f
  | _ => MkFile (Z.max (file_size f) (offset + Z.of_nat (length l))) (write_bytes offset l (file_bytes f))
  end.
(** What is cut off is gone; what is added is zeros. *)
Definition file_truncate (f : File) (n : Z) : File :=
  MkFile n (filter (fun ib => ib.1 < n) (file_bytes f)).

Section host.
Context {host : Host}.

Definition file_of (fd : Z) : Hst File :=
  ds <- gets descriptors ;; d <- of_option (ds !! fd) ;;
  fs <- gets inodes ;; of_option (fs !! descriptor_file d).
Definition offset_of (fd : Z) : Hst Z :=
  ds <- gets descriptors ;; d <- of_option (ds !! fd) ;; ret (descriptor_offset d).
Definition seek_to (fd offset : Z) : Hst unit :=
  ds <- gets descriptors ;; d <- of_option (ds !! fd) ;;
  modify (set_descriptors (<[fd := MkDescriptor (descriptor_file d) offset]> ds)).
Definition replace_file (fd : Z) (f : File) : Hst unit :=
  ds <- gets descriptors ;; d <- of_option (ds !! fd) ;;
  modify (fun h => set_inodes (<[descriptor_file d := f]> (inodes h)) h).

Definition open_descriptor (inode : Z) : Hst Z :=
  n <- gets next_fd ;;
  modify (fun h => set_next_fd (n + 1) (set_descriptors (<[n := MkDescriptor inode 0]> (descriptors h)) h)) ;;
  ret n.
(** open for reading, and for writing with the file created or emptied. *)
Definition open_read (path : Pathname) : Hst Z :=
  dir <- gets directory ;;
  match dir !! path with
  | Some inode => if may_read_file path then open_descriptor inode else ret (-1)
  | None => ret (-1)
  end.
Definition open_write (path : Pathname) : Hst Z :=
  if may_write_file path then
    dir <- gets directory ;;
    inode <- (match dir !! path with
              | Some i => ret i
              | None =>
                  n <- gets next_inode ;;
                  modify (fun h => set_next_inode (n + 1) (set_directory (<[path := n]> dir) h)) ;; ret n
              end) ;;
    modify (fun h => set_inodes (<[inode := MkFile 0 ∅]> (inodes h)) h) ;;
    open_descriptor inode
  else ret (-1).
Definition c_close (fd : Z) : Hst unit := modify (fun h => set_descriptors (delete fd (descriptors h)) h).

(** lseek from the start of the file: whether it arrives at [offset]. *)
Definition lseek (fd offset : Z) : Hst bool :=
  if offset <? 0 then ret false else seek_to fd offset ;; ret true.
(** A read or write whose caller gives up unless all of it is transferred. *)
Definition c_read (fd : Z) (n : nat) : Hst (option (list Z)) :=
  f <- file_of fd ;; offset <- offset_of fd ;;
  if (offset + Z.of_nat n <=? file_size f) && transfers fd offset (Z.of_nat n)
  then seek_to fd (offset + Z.of_nat n) ;; ret (Some (file_read f offset n))
  else ret None.
Definition c_write (fd : Z) (l : list Z) : Hst bool :=
  f <- file_of fd ;; offset <- offset_of fd ;;
  if transfers fd offset (Z.of_nat (length l))
  then replace_file fd (file_write f offset l) ;; seek_to fd (offset + Z.of_nat (length l)) ;; ret true
  else ret false.
Definition ftruncate (fd n : Z) : Hst bool :=
  f <- file_of fd ;;
  if (0 <=? n) && grows fd n then replace_file fd (file_truncate f n) ;; ret true else ret false.

(** ** Worlds *)

Definition world_at (w : Z) : Hst World := s <- gets world_store ;; of_option (s !! w).
Definition get_world {A} (f : World -> A) (w : Z) : Hst A := x <- world_at w ;; ret (f x).
Definition assign (w : Z) (f : World -> World) : Hst unit :=
  x <- world_at w ;; modify (fun h => set_world_store (<[w := f x]> (world_store h)) h).
(** A World structure with nothing set. *)
Definition unset_world : World :=
  MkWorld [] 0 0 false 0 0 None None None 0 0 None 0 0 0 0 0 0 None 0 NoMap 0 None 0 NoMap.
Definition new_world : Hst Z :=
  n <- gets next_world ;;
  modify (fun h => set_next_world (n + 1) (set_world_store (<[n := unset_world]> (world_store h)) h)) ;;
  ret n.
Definition free_world (w : Z) : Hst unit := modify (fun h => set_world_store (delete w (world_store h)) h).
Definition in_memory {A} (m : Mem A) : Hst A := fun h =>
  let (r, s) := m (memory h) in (r, set_memory s h).

Definition free_merged (m : MergedMap) : MergedMap := match m with SharedMap => SharedMap | _ => NoMap end.

(** ** Closing *)

(** The chain of parents ends: a world is not its own ancestor. *)
Fixpoint close_world (fuel : nat) (w : Z) (closeParents : bool) : Hst unit :=
  match fuel with
  | O => out_of_fuel
  | S n =>
      f <- get_world fd w ;;
      when (0 <? f) (c_close f ;; assign w (set_fd (-1))) ;;
      assign w (set_vlmDataPage None) ;;
      assign w (set_vlmTagsPage None) ;;
      assign w (set_ivoryDataPage None) ;;
      assign w (fun x => set_mergedWiredMapEntries (free_merged (mergedWiredMapEntries x)) x) ;;
      assign w (set_wiredMapEntries None) ;;
      assign w (fun x => set_mergedUnwiredMapEntries (free_merged (mergedUnwiredMapEntries x)) x) ;;
      assign w (set_unwiredMapEntries None) ;;
      when closeParents
        (p <- get_world parentWorld w ;;
         match p with
         | None => ret tt
         | Some p => close_world n p true ;; free_world p ;; assign w (set_parentWorld None)
         end)
  end.
(* src/world_tools.c:588-647 CloseWorldFile *)
Definition CloseWorldFile (w : Z) (closeParents : bool) : Hst unit :=
  s <- gets world_store ;; close_world (S (size s)) w closeParents.

(* src/utilities.c:83-109 vpunt *)
Definition vpunt {A} : Hst A := c_exit 1.
(* src/world_tools.c:24-28 PuntWorld *)
Definition PuntWorld {A} (w : Z) : Hst A := CloseWorldFile w true ;; vpunt.

(** ** Pages and words of a file in the Ivory format *)

(* src/world_tools.c:1524-1542 ReadIvoryWorldFilePage *)
Definition ReadIvoryWorldFilePage (w pageNumber : Z) : Hst unit :=
  current <- get_world currentPageNumber w ;;
  if current =? pageNumber then ret tt else
  let offset := s32 (pageNumber * IvoryPageSizeBytes) in
  f <- get_world fd w ;;
  arrived <- lseek f offset ;;
  if negb arrived then PuntWorld w else
  bytes <- c_read f (Z.to_nat IvoryPageSizeBytes) ;;
  match bytes with
  | None => PuntWorld w
  | Some l => assign w (set_ivoryDataPage (Some l)) ;; assign w (set_currentPageNumber pageNumber)
  end.

(** Four words share a group of twenty bytes: their tags, then their data. *)
(* src/world_tools.c:1557-1558 pointerOffset *)
Definition pointerOffset (qNumber : Z) : Z := 5 * Z.shiftr qNumber 2 + Z.land qNumber 3 + 1.
(* src/world_tools.c:1557-1558 tagOffset *)
Definition tagOffset (qNumber : Z) : Z := 4 * 5 * Z.shiftr qNumber 2 + Z.land qNumber 3.

(* src/world_tools.c:1570-1572 ivoryDataPage *)
Definition q_of_page (page : list Z) (qNumber : Z) : option LispObjRecord :=
  match nth_Z page (tagOffset qNumber), word_at page (4 * pointerOffset qNumber) with
  | Some t, Some d => Some (MakeLispObj t d)
  | _, _ => None
  end.
(* src/world_tools.c:1548-1577 ReadIvoryWorldFileQ *)
Definition ReadIvoryWorldFileQ (w qNumber : Z) : Hst LispObjRecord :=
  if (qNumber <? 0) || (IvoryPageSizeQs <=? qNumber) then PuntWorld w else
  page <- get_world ivoryDataPage w ;;
  page <- of_option page ;;
  of_option (q_of_page page qNumber).

Definition next_page_turn (w : Z) (_ : unit) : Hst (unit + unit) :=
  q <- get_world currentQNumber w ;;
  if IvoryPageSizeQs <=? q then
    p <- get_world currentPageNumber w ;;
    ReadIvoryWorldFilePage w (p + 1) ;;
    assign w (fun x => set_currentQNumber (currentQNumber x - IvoryPageSizeQs) x) ;;
    ret (inl tt)
  else ret (inr tt).
(* src/world_tools.c:1583-1594 ReadIvoryWorldFileNextQ *)
Definition ReadIvoryWorldFileNextQ (w : Z) : Hst LispObjRecord :=
  q <- get_world currentQNumber w ;;
  loop (S (Z.to_nat (q / IvoryPageSizeQs))) (next_page_turn w) tt ;;
  q <- get_world currentQNumber w ;;
  o <- ReadIvoryWorldFileQ w q ;;
  assign w (fun x => set_currentQNumber (currentQNumber x + 1) x) ;;
  ret o.

Definition empty_page : list Z := replicate (Z.to_nat IvoryPageSizeBytes) 0.
(* src/world_tools.c:1600-1605 PrepareToWriteIvoryWorldFilePage *)
Definition PrepareToWriteIvoryWorldFilePage (w pageNumber : Z) : Hst unit :=
  assign w (set_currentPageNumber pageNumber) ;;
  assign w (set_currentQNumber 0) ;;
  assign w (set_ivoryDataPage (Some empty_page)).

(* src/world_tools.c:1610-1629 WriteIvoryWorldFilePage *)
Definition WriteIvoryWorldFilePage (w : Z) : Hst unit :=
  q <- get_world currentQNumber w ;;
  if q =? 0 then ret tt else
  p <- get_world currentPageNumber w ;;
  let offset := s32 (p * IvoryPageSizeBytes) in
  f <- get_world fd w ;;
  arrived <- lseek f offset ;;
  if negb arrived then PuntWorld w else
  page <- get_world ivoryDataPage w ;;
  page <- of_option page ;;
  written <- c_write f page ;;
  if negb written then PuntWorld w else
  assign w (fun x => set_currentPageNumber (currentPageNumber x + 1) x) ;;
  p <- get_world currentPageNumber w ;;
  PrepareToWriteIvoryWorldFilePage w p.

(* src/world_tools.c:1656-1658 ivoryDataPage *)
Definition put_q (page : list Z) (qNumber : Z) (q : LispObjRecord) : option (list Z) :=
  match put_bytes page (tagOffset qNumber) [u8 (LispObjTag q)] with
  | Some page => put_bytes page (4 * pointerOffset qNumber) (bytes_of_word (LispObjData q))
  | None => None
  end.
(* src/world_tools.c:1635-1666 WriteIvoryWorldFileNextQ *)
Definition WriteIvoryWorldFileNextQ (w : Z) (q : LispObjRecord) : Hst unit :=
  n <- get_world currentQNumber w ;;
  when (IvoryPageSizeQs <=? n) (WriteIvoryWorldFilePage w) ;;
  n <- get_world currentQNumber w ;;
  page <- get_world ivoryDataPage w ;;
  page <- of_option page ;;
  page <- of_option (put_q page n q) ;;
  assign w (set_ivoryDataPage (Some page)) ;;
  assign w (fun x => set_currentQNumber (currentQNumber x + 1) x).

(** ** Pages and words of a byte-swapped file *)

(* include/swapbytes.h:52-55 bswap_32 *)
Definition bswap_32 (w : Z) : Z :=
  Z.lor (Z.lor (Z.shiftr (Z.land w 0xff000000) 24) (Z.shiftr (Z.land w 0x00ff0000) 8))
        (Z.lor (Z.shiftl (Z.land w 0x0000ff00) 8) (Z.shiftl (Z.land w 0x000000ff) 24)).

Definition malloc_page (w n : Z) : Hst unit := if malloc_succeeds n then ret tt else PuntWorld w.
(** A read of a page of so many bytes at a block of the file. *)
Definition read_page (w offset n : Z) : Hst (list Z) :=
  f <- get_world fd w ;;
  arrived <- lseek f offset ;;
  if negb arrived then PuntWorld w else
  bytes <- c_read f (Z.to_nat n) ;;
  match bytes with None => PuntWorld w | Some l => ret l end.

(* src/world_tools.c:1672-1712 ReadSwappedVLMWorldFilePage *)
Definition ReadSwappedVLMWorldFilePage (w pageNumber : Z) : Hst unit :=
  d <- get_world vlmDataPage w ;;
  (match d with
   | Some _ => ret tt
   | None =>
       malloc_page w VLMDataPageSizeBytes ;; assign w (set_vlmDataPage (Some [])) ;;
       malloc_page w VLMTagsPageSizeBytes ;; assign w (set_vlmTagsPage (Some [])) ;;
       assign w (set_currentPageNumber (-1))
   end) ;;
  current <- get_world currentPageNumber w ;;
  if current =? pageNumber then ret tt else
  db <- get_world vlmDataPageBase w ;; tb <- get_world vlmTagsPageBase w ;;
  let dataOffset := s32 (VLMBlockSize * s32 (db + s32 (pageNumber * VLMBlocksPerDataPage))) in
  let tagsOffset := s32 (VLMBlockSize * s32 (tb + s32 (pageNumber * VLMBlocksPerTagsPage))) in
  data <- read_page w dataOffset VLMDataPageSizeBytes ;;
  assign w (set_vlmDataPage (Some data)) ;;
  tags <- read_page w tagsOffset VLMTagsPageSizeBytes ;;
  assign w (set_vlmTagsPage (Some tags)) ;;
  assign w (set_currentPageNumber pageNumber).

(* src/world_tools.c:1718-1734 ReadSwappedVLMWorldFileQ *)
Definition ReadSwappedVLMWorldFileQ (w qNumber : Z) : Hst LispObjRecord :=
  if (qNumber <? 0) || (VLMPageSizeQs <=? qNumber) then PuntWorld w else
  data <- get_world vlmDataPage w ;; data <- of_option data ;;
  d <- of_option (word_at data (4 * qNumber)) ;;
  tags <- get_world vlmTagsPage w ;; tags <- of_option tags ;;
  t <- of_option (nth_Z tags qNumber) ;;
  ret (MakeLispObj t (bswap_32 d)).

Definition next_swapped_page_turn (w : Z) (_ : unit) : Hst (unit + unit) :=
  q <- get_world currentQNumber w ;;
  if VLMPageSizeQs <=? q then
    p <- get_world currentPageNumber w ;;
    ReadSwappedVLMWorldFilePage w (p + 1) ;;
    assign w (fun x => set_currentQNumber (currentQNumber x - VLMPageSizeQs) x) ;;
    ret (inl tt)
  else ret (inr tt).
(* src/world_tools.c:1740-1751 ReadSwappedVLMWorldFileNextQ *)
Definition ReadSwappedVLMWorldFileNextQ (w : Z) : Hst LispObjRecord :=
  q <- get_world currentQNumber w ;;
  loop (S (Z.to_nat (q / VLMPageSizeQs))) (next_swapped_page_turn w) tt ;;
  q <- get_world currentQNumber w ;;
  o <- ReadSwappedVLMWorldFileQ w q ;;
  assign w (fun x => set_currentQNumber (currentQNumber x + 1) x) ;;
  ret o.

(** ** Opening *)

(** The operation word of an entry: a count of 24 bits and an opcode of 8. *)
Definition op_word (e : LoadMapEntry) : Z := op_count e + 16777216 * op_opcode e.
Definition count_of (op : Z) : Z := op mod 16777216.
Definition opcode_of (op : Z) : Z := op / 16777216 mod 256.

Fixpoint read_entries (w : Z) (n : nat) : Hst (list LoadMapEntry) :=
  match n with
  | O => ret []
  | S n' =>
      a <- ReadIvoryWorldFileNextQ w ;;
      op <- ReadIvoryWorldFileNextQ w ;;
      q <- ReadIvoryWorldFileNextQ w ;;
      l <- read_entries w n' ;;
      ret (MkLoadMapEntry (LispObjData a) (count_of (LispObjData op)) (opcode_of (LispObjData op)) q w :: l)
  end.
(** The entries read, to be stored in the map. *)
(* src/world_tools.c:653-668 ReadLoadMap *)
Definition ReadLoadMap (w nMapEntries : Z) : Hst (list LoadMapEntry) :=
  read_entries w (Z.to_nat nMapEntries).

(** Where the header keeps its fields; 0 for a field a format does not have. *)
Record Layout := MkLayout {
  wiredCountQ : Z;
  unwiredCountQ : Z;
  pagesBaseQ : Z;
  firstSysoutQ : Z;
  firstMapQ : Z
}.
(* src/world_tools.c:404-411 IvoryWorldFileCookie *)
Definition ivory_layout : Layout :=
  MkLayout IvoryWorldFileWiredCountQ IvoryWorldFileUnwiredCountQ 0 IvoryWorldFileFirstSysoutQ IvoryWorldFileFirstMapQ.
(** The variables stay unset for another version. *)
(* src/world_tools.c:441-456 VLMVersion1AndArchitecture *)
Definition vlm_layout (version : Z) : option Layout :=
  if version =? VLMVersion1AndArchitecture then
    Some (MkLayout VLMWorldFileV1WiredCountQ VLMWorldFileV1UnwiredCountQ VLMWorldFileV1PageBasesQ
            VLMWorldFileV1FirstSysoutQ VLMWorldFileV1FirstMapQ)
  else if version =? VLMVersion2AndArchitecture then
    Some (MkLayout VLMWorldFileV2WiredCountQ VLMWorldFileV2UnwiredCountQ VLMWorldFileV2PageBasesQ
            VLMWorldFileV2FirstSysoutQ VLMWorldFileV2FirstMapQ)
  else None.

(** The format, whether it is byte-swapped, and the layout if the cookie tells. *)
(* src/world_tools.c:392-419 cookie *)
Definition format_of_cookie (cookie : Z) : option (Z * bool * option Layout) :=
  if cookie =? VLMWorldFileCookie then Some (VLMWorldFormat, false, None)
  else if cookie =? VLMWorldFileCookieSwapped then Some (VLMWorldFormat, true, None)
  else if cookie =? IvoryWorldFileCookie then Some (IvoryWorldFormat, false, Some ivory_layout)
  else None.

(** sizeof (LoadMapEntry), for the allocations. *)
Definition LoadMapEntry_size : Z := 24.
Definition allocate_map (n : Z) : bool := malloc_succeeds (n * LoadMapEntry_size mod 2 ^ 64).

(* src/world_tools.c:372-376 parentWorld *)
Definition reset_world (x : World) : World :=
  set_vlmDataPage None (set_vlmTagsPage None (set_ivoryDataPage None
    (set_wiredMapEntries None (set_unwiredMapEntries None
      (set_mergedWiredMapEntries NoMap (set_mergedUnwiredMapEntries NoMap (set_parentWorld None x))))))).

(* include/world_tools.h:122-131 VLMPageBases *)
Definition dataPageBase (pageBases : Z) : Z := pageBases mod 2 ^ 28.
Definition tagsPageBase (pageBases : Z) : Z := pageBases / 2 ^ 28.

(** Giving up, or only answering false. *)
Definition open_fails (w : Z) (puntOnErrors : bool) : Hst bool := if puntOnErrors then PuntWorld w else ret false.

(** The five words about the world's generation and ancestry. *)
(* src/world_tools.c:505-524 sysoutGeneration *)
Definition read_sysout (w firstSysoutQ : Z) : Hst unit :=
  if firstSysoutQ =? 0 then
    assign w (set_sysoutGeneration 0) ;;
    assign w (fun x => set_sysoutTimestamp1 0 (set_sysoutTimestamp2 0 x)) ;;
    assign w (fun x => set_sysoutParentTimestamp1 0 (set_sysoutParentTimestamp2 0 x))
  else
    assign w (set_currentQNumber firstSysoutQ) ;;
    q <- ReadIvoryWorldFileNextQ w ;; assign w (set_sysoutGeneration (LispObjData q)) ;;
    q <- ReadIvoryWorldFileNextQ w ;; assign w (set_sysoutTimestamp1 (LispObjData q)) ;;
    q <- ReadIvoryWorldFileNextQ w ;; assign w (set_sysoutTimestamp2 (LispObjData q)) ;;
    q <- ReadIvoryWorldFileNextQ w ;; assign w (set_sysoutParentTimestamp1 (LispObjData q)) ;;
    q <- ReadIvoryWorldFileNextQ w ;; assign w (set_sysoutParentTimestamp2 (LispObjData q)).

(** Allocate the map of [n] entries, if there are any; false when that fails. *)
Definition new_map (w n : Z) (store : option (list LoadMapEntry) -> World -> World) : Hst bool :=
  if n =? 0 then ret true
  else if allocate_map n then assign w (store (Some [])) ;; ret true else ret false.

(* src/world_tools.c:459-530 nWiredMapEntries *)
Definition read_header (w : Z) (puntOnErrors : bool) (layout : Layout) : Hst bool :=
  q <- ReadIvoryWorldFileQ w (wiredCountQ layout) ;;
  let nWired := s32 (LispObjData q) in
  assign w (set_nWiredMapEntries nWired) ;;
  allocated <- new_map w nWired set_wiredMapEntries ;;
  if negb allocated then open_fails w puntOnErrors else
  nUnwired <- (if unwiredCountQ layout =? 0 then ret 0
               else q <- ReadIvoryWorldFileQ w (unwiredCountQ layout) ;; ret (s32 (LispObjData q))) ;;
  assign w (set_nUnwiredMapEntries nUnwired) ;;
  allocated <- new_map w nUnwired set_unwiredMapEntries ;;
  if negb allocated then open_fails w puntOnErrors else
  fmt <- get_world format w ;;
  when (fmt =? VLMWorldFormat)
    (q <- ReadIvoryWorldFileQ w (pagesBaseQ layout) ;;
     assign w (set_vlmDataPageBase (dataPageBase (LispObjData q))) ;;
     assign w (set_vlmTagsPageBase (tagsPageBase (LispObjData q)))) ;;
  read_sysout w (firstSysoutQ layout) ;;
  assign w (set_currentQNumber (firstMapQ layout)) ;;
  wired <- ReadLoadMap w nWired ;;
  when (negb (nWired =? 0)) (assign w (set_wiredMapEntries (Some wired))) ;;
  unwired <- ReadLoadMap w nUnwired ;;
  when (negb (nUnwired =? 0)) (assign w (set_unwiredMapEntries (Some unwired))) ;;
  ret true.

(* src/world_tools.c:366-531 OpenWorldFile *)
Definition OpenWorldFile (w : Z) (puntOnErrors : bool) : Hst bool :=
  assign w reset_world ;;
  path <- get_world pathname w ;;
  f <- open_read path ;;
  assign w (set_fd f) ;;
  if f <? 0 then (if puntOnErrors then vpunt else ret false) else
  bytes <- c_read f 4 ;;
  match bytes with
  | None => open_fails w puntOnErrors
  | Some bytes =>
      cookie <- of_option (word_of_bytes bytes) ;;
      match format_of_cookie cookie with
      | None => open_fails w puntOnErrors
      | Some (fmt, swapped, layout) =>
          assign w (set_format fmt) ;;
          when (fmt =? VLMWorldFormat) (assign w (set_byteSwapped swapped)) ;;
          if negb (malloc_succeeds IvoryPageSizeBytes) then open_fails w puntOnErrors else
          assign w (set_ivoryDataPage (Some [])) ;;
          assign w (set_currentPageNumber (-1)) ;;
          ReadIvoryWorldFilePage w 0 ;;
          layout <- (match layout with
                     | Some l => ret l
                     | None =>
                         q <- ReadIvoryWorldFileQ w VersionAndArchitectureQ ;;
                         of_option (vlm_layout (LispObjData q))
                     end) ;;
          read_header w puntOnErrors layout
      end
  end.

(** ** Creating *)

(* src/world_tools.c:536-583 CreateWorldFile *)
Definition CreateWorldFile (w : Z) : Hst unit :=
  assign w reset_world ;;
  fmt <- get_world format w ;;
  if negb (fmt =? VLMWorldFormat) then vpunt else
  path <- get_world pathname w ;;
  f <- open_write path ;;
  assign w (set_fd f) ;;
  if f <? 0 then vpunt else
  if negb (malloc_succeeds IvoryPageSizeBytes) then PuntWorld w else
  assign w (set_ivoryDataPage (Some [])) ;;
  assign w (set_currentPageNumber (-1)) ;;
  nWired <- get_world nWiredMapEntries w ;;
  allocated <- new_map w nWired set_wiredMapEntries ;;
  if negb allocated then PuntWorld w else
  nUnwired <- get_world nUnwiredMapEntries w ;;
  allocated <- new_map w nUnwired set_unwiredMapEntries ;;
  if negb allocated then PuntWorld w else ret tt.

(** memcpy between arrays of entries: [dst[to...to+n] = src[from...from+n]]. *)
Definition copy_entries (dst : list LoadMapEntry) (to : Z) (src : list LoadMapEntry) (from n : Z) :
    option (list LoadMapEntry) :=
  if (0 <=? n) && (from + n <=? Z.of_nat (length src)) && (to + n <=? Z.of_nat (length dst))
  then Some (firstn (Z.to_nat to) dst ++ firstn (Z.to_nat n) (skipn (Z.to_nat from) src)
             ++ skipn (Z.to_nat (to + n)) dst)
  else None.
Definition unset_entry : LoadMapEntry := MkLoadMapEntry 0 0 0 (MakeLispObj 0 0) 0.

(** The words of an entry that is not page aligned, as constants of one word each. *)
Fixpoint constant_entries (n : nat) (e : LoadMapEntry) (j : Z) : Hst (list LoadMapEntry) :=
  match n with
  | O => ret []
  | S n' =>
      let a := u32 (address e + j) in
      q <- in_memory (VirtualMemoryRead vm_extable host_pc a) ;;
      l <- constant_entries n' e (j + 1) ;;
      ret (MkLoadMapEntry a 1 LoadMapConstant q 0 :: l)
  end.

(* src/world_tools.c:1299-1330 mapEntry *)
Definition canonicalize_turn (w : Z) (l : Z * Z) : Hst (Z * Z + Z) :=
  let '(i, pageNumber) := l in
  n <- get_world nWiredMapEntries w ;;
  if n <=? i then ret (inr pageNumber) else
  map <- get_world wiredMapEntries w ;; map <- of_option map ;;
  e <- of_option (nth_Z map i) ;;
  if Z.land (address e) (VLMPageSizeQs - 1) =? 0 then
    let pageCount := (op_count e + VLMPageSizeQs - 1) / VLMPageSizeQs in
    assign w (set_wiredMapEntries (Some (upd_Z map i (set_entry_data (MakeLispObj Type_Fixnum pageNumber) e)))) ;;
    ret (inl (i + 1, u32 (pageNumber + pageCount)))
  else
    let n' := n + op_count e - 1 in
    if negb (allocate_map n') then PuntWorld w else
    new <- of_option (copy_entries (replicate (Z.to_nat n') unset_entry) 0 map 0 i) ;;
    new <- of_option (copy_entries new (i + op_count e) map (i + 1) (n - i)) ;;
    words <- constant_entries (Z.to_nat (op_count e)) e 0 ;;
    new <- of_option (copy_entries new i words 0 (op_count e)) ;;
    assign w (set_nWiredMapEntries n') ;;
    assign w (set_wiredMapEntries (Some new)) ;;
    ret (inl (i + op_count e, pageNumber)).

(* src/world_tools.c:1285-1355 CanonicalizeVLMLoadMapEntries *)
Definition CanonicalizeVLMLoadMapEntries (fuel : nat) (w : Z) : Hst unit :=
  pageNumber <- loop fuel (canonicalize_turn w) (0, 0) ;;
  n <- get_world nWiredMapEntries w ;;
  let nQs := u32 (VLMWorldFileV2FirstMapQ + 3 * n) in
  let pageCount := u32 (nQs + IvoryPageSizeQs - 1) / IvoryPageSizeQs in
  let blockCount := u32 (u32 (pageCount * IvoryPageSizeBytes) + VLMBlockSize - 1) / VLMBlockSize in
  if VLMMaximumHeaderBlocks <? blockCount then PuntWorld w else
  assign w (set_vlmTagsPageBase blockCount) ;;
  assign w (set_vlmDataPageBase (s32 (blockCount + VLMBlocksPerTagsPage * pageNumber))).

(** ** Writing *)

(** The entries a loop over [n] of them visits. *)
Definition first_entries (n : Z) (map : option (list LoadMapEntry)) : option (list LoadMapEntry) :=
  if n <=? 0 then Some [] else
  match map with
  | Some l => if n <=? Z.of_nat (length l) then Some (firstn (Z.to_nat n) l) else None
  | None => None
  end.

(** The last entry with data pages decides the size of the file. *)
(* src/world_tools.c:1376-1390 nBlocks *)
Fixpoint preallocate (w : Z) (base : Z) (entries : list LoadMapEntry) : Hst unit :=
  match entries with
  | [] => ret tt
  | e :: rest =>
      if op_opcode e =? LoadMapDataPages then
        let nBlocks := u32 (base + u32 (u32 (LispObjData (entry_data e) + op_count e / VLMPageSizeQs + 1)
                                        * VLMBlocksPerDataPage)) in
        f <- get_world fd w ;;
        grown <- ftruncate f (nBlocks * VLMBlockSize) ;;
        if negb grown then PuntWorld w else ret tt
      else preallocate w base rest
  end.

(** The slot of the system communications area with this index. *)
(* emulator/SystemComm.h:23-24 ReadSystemCommSlot *)
Definition ReadSystemCommSlot (slot : Z) : Hst LispObjRecord :=
  in_memory (VirtualMemoryRead vm_extable host_pc (SystemCommAreaAddress + slot)).
Definition sysoutGenerationNumber : Z := 43. (* emulator/SystemComm.h:91 sysoutGenerationNumber *)
Definition sysoutTimestamp1_slot : Z := 44. (* emulator/SystemComm.h:92 sysoutTimestamp1 *)
Definition sysoutTimestamp2_slot : Z := 45. (* emulator/SystemComm.h:93 sysoutTimestamp2 *)
Definition sysoutParentTimestamp1_slot : Z := 46. (* emulator/SystemComm.h:94 sysoutParentTimestamp1 *)
Definition sysoutParentTimestamp2_slot : Z := 47. (* emulator/SystemComm.h:95 sysoutParentTimestamp2 *)

Definition normal (type : Z) : Z := Z.shiftl Cdr_Normal 6 + type.

Fixpoint write_entries (w : Z) (entries : list LoadMapEntry) : Hst unit :=
  match entries with
  | [] => ret tt
  | e :: rest =>
      WriteIvoryWorldFileNextQ w (MakeLispObj Type_Locative (address e)) ;;
      WriteIvoryWorldFileNextQ w (MakeLispObj Type_Fixnum (op_word e)) ;;
      WriteIvoryWorldFileNextQ w (entry_data e) ;;
      write_entries w rest
  end.

(* src/world_tools.c:1360-1442 WriteVLMWorldFileHeader *)
Definition WriteVLMWorldFileHeader (w : Z) : Hst unit :=
  n <- get_world nWiredMapEntries w ;;
  map <- get_world wiredMapEntries w ;;
  entries <- of_option (first_entries n map) ;;
  db <- get_world vlmDataPageBase w ;; tb <- get_world vlmTagsPageBase w ;;
  preallocate w db (rev entries) ;;
  PrepareToWriteIvoryWorldFilePage w 0 ;;
  let pageBases := db mod 2 ^ 28 + 2 ^ 28 * (tb mod 16) in
  WriteIvoryWorldFileNextQ w (MakeLispObj (normal Type_Fixnum) VLMVersion2AndArchitecture) ;;
  WriteIvoryWorldFileNextQ w (MakeLispObj (normal Type_SmallRatio) (u32 n)) ;;
  WriteIvoryWorldFileNextQ w (MakeLispObj (normal Type_SingleFloat) pageBases) ;;
  generation <- ReadSystemCommSlot sysoutGenerationNumber ;;
  WriteIvoryWorldFileNextQ w (MakeLispObj (normal Type_Character) (LispObjData generation)) ;;
  q <- ReadSystemCommSlot sysoutTimestamp1_slot ;; WriteIvoryWorldFileNextQ w q ;;
  q <- ReadSystemCommSlot sysoutTimestamp2_slot ;; WriteIvoryWorldFileNextQ w q ;;
  q <- ReadSystemCommSlot sysoutParentTimestamp1_slot ;; WriteIvoryWorldFileNextQ w q ;;
  q <- ReadSystemCommSlot sysoutParentTimestamp2_slot ;; WriteIvoryWorldFileNextQ w q ;;
  write_entries w entries ;;
  WriteIvoryWorldFilePage w.

(** A write of memory by the host: it reads the words, and fails where they cannot be read. *)
Fixpoint memory_readable (n : nat) (vma : Z) (s : VMMemory) : bool :=
  match n with O => true | S n' => allowed true false vma s && memory_readable n' (vma + 1) s end.
Definition data_bytes (vma : Z) (n : nat) (s : VMMemory) : list Z :=
  concat (map (fun i => bytes_of_word (data_at (vma + Z.of_nat i) s)) (seq 0 n)).
Definition tag_bytes (vma : Z) (n : nat) (s : VMMemory) : list Z :=
  map (fun i => tag_at (vma + Z.of_nat i) s) (seq 0 n).
(** Seek to a place in the file and write words of memory there. *)
Definition write_memory (w offset vma count : Z) (bytes : Z -> nat -> VMMemory -> list Z) : Hst unit :=
  f <- get_world fd w ;;
  arrived <- lseek f offset ;;
  if negb arrived then PuntWorld w else
  s <- gets memory ;;
  if memory_readable (Z.to_nat count) vma s then
    written <- c_write f (bytes vma (Z.to_nat count) s) ;;
    if negb written then PuntWorld w else ret tt
  else PuntWorld w.

Fixpoint write_pages (w : Z) (entries : list LoadMapEntry) : Hst unit :=
  match entries with
  | [] => ret tt
  | e :: rest =>
      when (op_opcode e =? LoadMapDataPages)
        (db <- get_world vlmDataPageBase w ;; tb <- get_world vlmTagsPageBase w ;;
         let pageNumber := LispObjData (entry_data e) in
         write_memory w (u32 (VLMBlockSize * u32 (db + u32 (pageNumber * VLMBlocksPerDataPage))))
           (address e) (op_count e) data_bytes ;;
         write_memory w (u32 (VLMBlockSize * u32 (tb + u32 (pageNumber * VLMBlocksPerTagsPage))))
           (address e) (op_count e) tag_bytes) ;;
      write_pages w rest
  end.
(* src/world_tools.c:1447-1518 WriteVLMWorldFilePages *)
Definition WriteVLMWorldFilePages (w : Z) : Hst unit :=
  n <- get_world nWiredMapEntries w ;;
  map <- get_world wiredMapEntries w ;;
  entries <- of_option (first_entries n map) ;;
  write_pages w entries.
End host.
