(* ===== verification/WorldMerge.v ===== *)
(** The ancestors of a world and its merged load map (src/world_tools.c): the search of the
    directories for parents, the chain they form, and the merge of a child's entries with those
    of its parent. *)

From S2P Require Export WorldFile.
#[local] Open Scope vlm_scope.

(** ** Merging two load maps *)

(** The state of the merge: the places in the two maps, whether the foreground entry has been
    copied, the background map (its entries are shortened in place) and the merged entries. *)
(* src/world_tools.c:1119-1124 fIndex *)
Record MergeState := MkMergeState {
  fIndex : Z;
  bIndex : Z;
  copiedForeground : bool;
  background : list LoadMapEntry;
  new : list LoadMapEntry
}.

(** The sum of the address and the count of an entry, in 32 bits. *)
Definition entry_end (e : LoadMapEntry) : Z := u32 (address e + op_count e).

Section host.
Context {host : Host}.

(* src/world_tools.c:1043-1063 CloseExtraWorlds *)
Fixpoint close_extra (l : list (option Z)) : Hst unit :=
  match l with
  | [] => ret tt
  | None :: l' => close_extra l'
  | Some w :: l' => CloseWorldFile w true ;; free_world w ;; close_extra l'
  end.
(* src/world_tools.c:1043-1063 CloseExtraWorlds *)
Definition CloseExtraWorlds : Hst unit :=
  l <- gets worlds ;;
  match l with
  | None => ret tt
  | Some l =>
      n <- gets nWorlds ;;
      if Z.of_nat (length l) <? n then undefined else
      close_extra (firstn (Z.to_nat n) l) ;;
      modify (set_worlds None) ;; modify (set_totalWorlds 0)
  end.

Definition punt_original {A} : Hst A :=
  CloseExtraWorlds ;; w <- gets originalWorld ;; w <- of_option w ;; PuntWorld w.

Section merge.
(** The foreground map, the lengths of both, the size of a page and of the allocated map. *)
Context (foreground : list LoadMapEntry) (nForeground nBackground pageSizeQs max : Z).

(** [new[actual++] = e]. *)
Definition append (e : LoadMapEntry) (st : MergeState) : Hst MergeState :=
  if Z.of_nat (length (new st)) <? max
  then ret (MkMergeState (fIndex st) (bIndex st) (copiedForeground st) (background st) (new st ++ [e]))
  else undefined.
Definition next_background (st : MergeState) : MergeState :=
  MkMergeState (fIndex st) (bIndex st + 1) (copiedForeground st) (background st) (new st).
Definition next_foreground (st : MergeState) : MergeState :=
  MkMergeState (fIndex st + 1) (bIndex st) false (background st) (new st).
Definition set_copied (st : MergeState) : MergeState :=
  MkMergeState (fIndex st) (bIndex st) true (background st) (new st).
Definition replace_background (b : LoadMapEntry) (st : MergeState) : MergeState :=
  MkMergeState (fIndex st) (bIndex st) (copiedForeground st) (upd_Z (background st) (bIndex st) b) (new st).

Definition background_entry (st : MergeState) : Hst LoadMapEntry := of_option (nth_Z (background st) (bIndex st)).

(** Background entries that are special or lie below the foreground entry. *)
(* src/world_tools.c:1158-1169 bIndex *)
Definition copy_below_turn (f : LoadMapEntry) (st : MergeState) : Hst (MergeState + MergeState) :=
  if bIndex st <? nBackground then
    b <- background_entry st ;;
    if negb (op_opcode b =? LoadMapDataPages) || ((address b <? address f) && (entry_end b <? address f))
    then st <- append b st ;; ret (inl (next_background st))
    else ret (inr st)
  else ret (inr st).

(** What is left of a background entry above a foreground entry, moved up to a page boundary;
    [None] when nothing is. *)
(* src/world_tools.c:1214-1238 oldAddress *)
Definition above_foreground (f b : LoadMapEntry) : option LoadMapEntry :=
  let oldAddress := address b in
  let new_address := entry_end f in
  let new_count := u32 (op_count b - u32 (entry_end f - oldAddress)) mod 16777216 in
  let slop := Z.land new_address (pageSizeQs - 1) in
  let moved_address := if slop =? 0 then new_address else u32 (new_address + u32 (pageSizeQs - slop)) in
  let moved_count := if slop =? 0 then new_count else u32 (new_count - slop) mod 16777216 in
  if negb (slop =? 0) && (moved_count <=? 0) then None
  else Some (MkLoadMapEntry moved_address moved_count (op_opcode b)
    (MakeLispObj (LispObjTag (entry_data b))
       (u32 (LispObjData (entry_data b) + u32 (moved_address - oldAddress) / pageSizeQs))) (entry_world b)).

(** The background entry overlaps the foreground entry, or lies above it. *)
(* src/world_tools.c:1184-1245 copiedForeground *)
Definition overlap (f : LoadMapEntry) (st : MergeState) : Hst MergeState :=
  b <- background_entry st ;;
  st <- (if address b <? address f
         then append (set_op_count (u32 (address f - address b) mod 16777216) b) st else ret st) ;;
  st <- (if copiedForeground st then ret st else st <- append f st ;; ret (set_copied st)) ;;
  if address b <? entry_end f then
    if entry_end f <? entry_end b then
      match above_foreground f b with
      | Some b' => ret (replace_background b' st)
      | None => punt_original
      end
    else ret (next_background st)
  else ret st.

(* src/world_tools.c:1156-1258 fIndex *)
Definition merge_turn (fuel : nat) (st : MergeState) : Hst (MergeState + MergeState) :=
  if fIndex st <? nForeground then
    f <- of_option (nth_Z foreground (fIndex st)) ;;
    st <- loop fuel (copy_below_turn f) st ;;
    st <- (if negb (op_opcode f =? LoadMapDataPages) && negb (copiedForeground st)
           then st <- append f st ;; ret (set_copied st)
           else overlap f st) ;;
    if nBackground <=? bIndex st then ret (inl (next_foreground st)) else
    b <- background_entry st ;;
    ret (inl (if entry_end f <=? address b then next_foreground st else st))
  else ret (inr st).

(** Background entries above the last foreground entry. *)
(* src/world_tools.c:1262-1267 bIndex *)
Definition copy_rest_turn (st : MergeState) : Hst (MergeState + MergeState) :=
  if bIndex st <? nBackground then
    b <- background_entry st ;; st <- append b st ;; ret (inl (next_background st))
  else ret (inr st).

Definition merge_loop (fuel : nat) (background : list LoadMapEntry) : Hst MergeState :=
  st <- loop fuel (merge_turn fuel) (MkMergeState 0 0 false background []) ;;
  loop fuel copy_rest_turn st.
End merge.

(** The merged map with its length, and the background map as the merge leaves it. *)
(* src/world_tools.c:1115-1275 MergeAMap *)
Definition MergeAMap (fuel : nat) (nForeground : Z) (foreground : list LoadMapEntry)
    (nBackground : Z) (background0 : list LoadMapEntry) :
    Hst (Z * option (list LoadMapEntry) * list LoadMapEntry) :=
  original <- gets originalWorld ;; original <- of_option original ;;
  fmt <- get_world format original ;;
  let pageSizeQs := if fmt =? VLMWorldFormat then VLMPageSizeQs else IvoryPageSizeQs in
  let max := s32 (nBackground + nForeground + nForeground) in
  if max =? 0 then ret (0, None, background0)
  else if negb (allocate_map max) then punt_original
  else
    st <- merge_loop foreground nForeground nBackground pageSizeQs max fuel background0 ;;
    ret (Z.of_nat (length (new st)), Some (new st), background st).

(** ** Merging the maps of a world and its ancestors *)

(** The entries a merged map has, and a merged map with other entries. *)
Definition merged_entries (own : option (list LoadMapEntry)) (m : MergedMap) : option (list LoadMapEntry) :=
  match m with NoMap => None | SharedMap => own | OwnMap l => Some l end.
Definition merged_of (l : option (list LoadMapEntry)) : MergedMap :=
  match l with Some l => OwnMap l | None => NoMap end.
(** An array the merge reads: none is an empty one. *)
Definition entries_of (l : option (list LoadMapEntry)) : list LoadMapEntry := default [] l.

Definition set_wired_background (l : list LoadMapEntry) (x : World) : World :=
  match mergedWiredMapEntries x with
  | SharedMap => set_wiredMapEntries ((fun _ => l) <$> wiredMapEntries x) x
  | OwnMap _ => set_mergedWiredMapEntries (OwnMap l) x
  | NoMap => x
  end.
Definition set_unwired_background (l : list LoadMapEntry) (x : World) : World :=
  match mergedUnwiredMapEntries x with
  | SharedMap => set_unwiredMapEntries ((fun _ => l) <$> unwiredMapEntries x) x
  | OwnMap _ => set_mergedUnwiredMapEntries (OwnMap l) x
  | NoMap => x
  end.

(** A base world: its merged maps are its own. *)
(* src/world_tools.c:844-850 nMergedWiredMapEntries *)
Definition share_maps (x : World) : World :=
  set_nMergedWiredMapEntries (nWiredMapEntries x)
    (set_mergedWiredMapEntries SharedMap
      (set_nMergedUnwiredMapEntries (nUnwiredMapEntries x)
        (set_mergedUnwiredMapEntries SharedMap x))).

(* src/world_tools.c:1069-1097 MergeParentLoadMap *)
Fixpoint MergeParentLoadMap (fuel : nat) (chain : nat) (w : Z) : Hst unit :=
  match chain with
  | O => out_of_fuel
  | S chain =>
      g <- get_world sysoutGeneration w ;;
      if g =? 0 then assign w share_maps else
      p <- get_world parentWorld w ;; p <- of_option p ;;
      MergeParentLoadMap fuel chain p ;;
      x <- world_at w ;; y <- world_at p ;;
      '(n, l, b) <- MergeAMap fuel (nWiredMapEntries x) (entries_of (wiredMapEntries x))
        (nMergedWiredMapEntries y) (entries_of (merged_entries (wiredMapEntries y) (mergedWiredMapEntries y))) ;;
      assign p (set_wired_background b) ;;
      assign w (set_nMergedWiredMapEntries n) ;; assign w (set_mergedWiredMapEntries (merged_of l)) ;;
      '(n, l, b) <- MergeAMap fuel (nUnwiredMapEntries x) (entries_of (unwiredMapEntries x))
        (nMergedUnwiredMapEntries y)
        (entries_of (merged_entries (unwiredMapEntries y) (mergedUnwiredMapEntries y))) ;;
      assign p (set_unwired_background b) ;;
      assign w (set_nMergedUnwiredMapEntries n) ;; assign w (set_mergedUnwiredMapEntries (merged_of l))
  end.

(** ** Finding the ancestors *)

Definition same_bytes (a b : list Z) : bool := bool_decide (a = b).
(** The longest path a candidate is copied to. *)
Definition POSIX_PATH_MAX : Z := 256.
Definition World_size : Z := 152.

(* src/world_tools.c:1023-1026 wiredMapEntries *)
Definition own_entries (w : Z) (x : World) : World :=
  set_wiredMapEntries (map (set_entry_world w) <$> wiredMapEntries x)
    (set_unwiredMapEntries (map (set_entry_world w) <$> unwiredMapEntries x) x).

Definition punt_candidate {A} (aWorld : Z) : Hst A :=
  CloseExtraWorlds ;; CloseWorldFile aWorld true ;;
  w <- gets originalWorld ;; w <- of_option w ;; PuntWorld w.

(** Room for another world in the array, and the world in it. *)
(* src/world_tools.c:996-1027 newTotalWorlds *)
Definition add_candidate (aWorld : Z) : Hst unit :=
  n <- gets nWorlds ;; total <- gets totalWorlds ;;
  when (n =? total)
    (if negb (malloc_succeeds (8 * (total + 32))) then punt_candidate aWorld
     else
       l <- gets worlds ;;
       modify (set_worlds (Some (default [] l))) ;; modify (set_totalWorlds (total + 32))) ;;
  if negb (malloc_succeeds World_size) then punt_candidate aWorld else
  l <- gets worlds ;; l <- of_option l ;;
  total <- gets totalWorlds ;;
  if negb (n <? total) then undefined else
  copy <- new_world ;;
  x <- world_at aWorld ;;
  assign copy (fun _ => own_entries copy x) ;;
  modify (set_worlds (Some (firstn (Z.to_nat n) l ++ [Some copy]))) ;;
  modify (set_nWorlds (n + 1)).

(* src/world_tools.c:965-1037 WorldP *)
Definition WorldP (d_name : Pathname) : Hst bool :=
  original <- gets originalWorld ;; original <- of_option original ;;
  fmt <- get_world format original ;;
  let suffix := if fmt =? VLMWorldFormat then VLMWorldSuffix else IvoryWorldSuffix in
  if (Nat.ltb (length suffix) (length d_name))
     && same_bytes (skipn (length d_name - length suffix) d_name) suffix
  then
    dir <- gets scanningDir ;;
    let candidatePathname := dir ++ [47] ++ d_name in
    if POSIX_PATH_MAX <? Z.of_nat (length candidatePathname) then undefined else
    aWorld <- new_world ;;
    assign aWorld (set_pathname candidatePathname) ;;
    opened <- OpenWorldFile aWorld false ;;
    if opened : bool then add_candidate aWorld ;; free_world aWorld ;; ret true
    else free_world aWorld ;; ret false
  else ret false.

Fixpoint scan_names (names : list Pathname) : Hst unit :=
  match names with [] => ret tt | n :: names' => WorldP n ;; scan_names names' end.
(* src/world_tools.c:936-958 ScanOneDirectory *)
Definition ScanOneDirectory (w : Z) : Hst unit :=
  dir <- gets scanningDir ;;
  match scan_directory dir with
  | Entries names => scan_names names
  | NoSuchDirectory => ret tt
  | ScanFails => CloseExtraWorlds ;; PuntWorld w
  end.

(** strchr and strrchr: what comes before the first, or the last, of a character. *)
Fixpoint before_first (c : Z) (l : list Z) : option (list Z * list Z) :=
  match l with
  | [] => None
  | x :: l' => if x =? c then Some ([], l') else
      match before_first c l' with Some (a, b) => Some (x :: a, b) | None => None end
  end.
Definition before_last (c : Z) (l : list Z) : option (list Z) :=
  match before_first c (rev l) with Some (_, b) => Some (rev b) | None => None end.

Definition search_turn (w : Z) (path : Pathname) : Hst (Pathname + Pathname) :=
  match before_first 58 path with
  | Some (dir, rest) => modify (set_scanningDir dir) ;; ScanOneDirectory w ;; ret (inl rest)
  | None => ret (inr path)
  end.

(** A world found is the parent of a child one generation younger that names its timestamps. *)
(* src/world_tools.c:909-911 sysoutGeneration *)
Definition is_parent (y x : World) : bool :=
  (sysoutGeneration y =? u32 (sysoutGeneration x - 1))
  && (sysoutTimestamp1 y =? sysoutParentTimestamp1 x) && (sysoutTimestamp2 y =? sysoutParentTimestamp2 x).

Fixpoint find_parent (x : World) (l : list (option Z)) (i : Z) : Hst (option (Z * Z)) :=
  match l with
  | [] => ret None
  | None :: l' => find_parent x l' (i + 1)
  | Some v :: l' => y <- world_at v ;; if is_parent y x then ret (Some (i, v)) else find_parent x l' (i + 1)
  end.

(* src/world_tools.c:904-927 childWorld *)
Definition parent_turn (w child : Z) : Hst (Z + unit) :=
  x <- world_at child ;;
  if sysoutGeneration x =? 0 then ret (inr tt) else
  l <- gets worlds ;; n <- gets nWorlds ;;
  found <- find_parent x (firstn (Z.to_nat n) (default [] l)) 0 ;;
  match found with
  | Some (i, v) =>
      assign child (set_parentWorld (Some v)) ;;
      modify (set_worlds (Some (upd_Z (default [] l) i None))) ;;
      ret (inl v)
  | None =>
      match parentWorld x with
      | Some p => ret (inl p)
      | None => CloseExtraWorlds ;; PuntWorld w
      end
  end.

(* src/world_tools.c:866-930 FindParentWorlds *)
Definition FindParentWorlds (w : Z) (worldSearchPath : Pathname) : Hst unit :=
  modify (set_nWorlds 0) ;; modify (set_totalWorlds 0) ;; modify (set_worlds None) ;;
  path <- get_world pathname w ;;
  modify (set_scanningDir (default [46] (before_last 47 path))) ;;
  ScanOneDirectory w ;;
  rest <- loop (S (length worldSearchPath)) (search_turn w) worldSearchPath ;;
  when (negb (Nat.eqb (length rest) 0)) (modify (set_scanningDir rest) ;; ScanOneDirectory w) ;;
  n <- gets nWorlds ;;
  loop (S (S (Z.to_nat n))) (parent_turn w) w ;;
  CloseExtraWorlds.

(* src/world_tools.c:835-851 MergeLoadMaps *)
Definition MergeLoadMaps (fuel : nat) (w : Z) (worldSearchPath : Pathname) : Hst unit :=
  g <- get_world sysoutGeneration w ;;
  if 0 <? g then
    modify (set_originalWorld (Some w)) ;;
    FindParentWorlds w worldSearchPath ;;
    s <- gets world_store ;;
    MergeParentLoadMap fuel (S (size s)) w
  else assign w share_maps.
End host.
