(* ===== verification/WorldLoad.v ===== *)
(** Loading a world into the emulator's memory (src/world_tools.c, and MapWorldLoad of
    emulator/memory.c in the variant for macOS). *)

From S2P Require Export WorldMerge.
#[local] Open Scope vlm_scope.

(** ** Memory filled by the host *)

Fixpoint put_data (vma : Z) (l : list Z) (s : VMMemory) : VMMemory :=
  match l with [] => s | d :: l' => put_data (vma + 1) l' (with_data vma d s) end.
Fixpoint put_tags (vma : Z) (l : list Z) (s : VMMemory) : VMMemory :=
  match l with [] => s | t :: l' => put_tags (vma + 1) l' (with_tag vma t s) end.
Fixpoint words_of_bytes (n : nat) (l : list Z) : list Z :=
  match n with
  | O => []
  | S n' => default 0 (word_of_bytes (firstn 4 l)) :: words_of_bytes n' (skipn 4 l)
  end.
Fixpoint memory_writable (n : nat) (vma : Z) (s : VMMemory) : bool :=
  match n with O => true | S n' => allowed true true vma s && memory_writable n' (vma + 1) s end.

Section host.
Context {host : Host}.

Definition read_data (fd offset vma words : Z) : Hst unit :=
  arrived <- lseek fd offset ;;
  if negb arrived then vpunt else
  s <- gets memory ;;
  if negb (memory_writable (Z.to_nat words) vma s) then vpunt else
  bytes <- c_read fd (Z.to_nat (4 * words)) ;;
  match bytes with
  | None => vpunt
  | Some l => modify (fun h => set_memory (put_data vma (words_of_bytes (Z.to_nat words) l) (memory h)) h)
  end.
Definition read_tags (fd offset vma words : Z) : Hst unit :=
  arrived <- lseek fd offset ;;
  if negb arrived then vpunt else
  bytes <- c_read fd (Z.to_nat words) ;;
  match bytes with
  | None => vpunt
  | Some l => modify (fun h => set_memory (put_tags vma l (memory h)) h)
  end.

(** ** Mapping a world *)

(** Part of a page, or of a wad of which some page exists already, is copied. *)
(* emulator/memory.c:435-466 words *)
Definition copy_page_turn (fd : Z) (st : Z * Z * Z * Z) : Hst (Z * Z * Z * Z + Z * Z * Z * Z) :=
  let '(vma, length, dataoffset, tagoffset) := st in
  created <- in_memory (gets (Created vma)) ;;
  if (0 <? length) && (negb (MemoryWadOffset vma =? 0) || created || (length <? MemoryWad_Size)) then
    let words := Z.min (MemoryPage_Size - MemoryPageOffset vma) length in
    in_memory (EnsureVirtualAddress mmap_wad vma false) ;;
    read_data fd dataoffset vma words ;;
    read_tags fd tagoffset vma words ;;
    in_memory (SetCreated vma false true) ;;
    ret (inl (u32 (vma + words), length - words, dataoffset + 4 * words, tagoffset + words))
  else ret (inr st).

(** The wads of which no page exists yet, as far as whole wads go; their pages get [attr]. *)
(* emulator/memory.c:474-481 words *)
Fixpoint claim_wads (n : nat) (vma words limit attr : Z) : Mem Z :=
  match n with
  | O => out_of_fuel
  | S n' =>
      created <- gets (WadCreated (u32 (vma + words))) ;;
      if (words <? limit) && negb created then
        modify (fun s => set_VMAttributeTable
          (fold_left (fun t i => <[MemoryPageNumber (u32 (vma + words)) + Z.of_nat i := attr]> t) (seq 0 8)
             (VMAttributeTable s)) s) ;;
        claim_wads n' vma (words + MemoryWad_Size) limit attr
      else ret words
  end.

(** The wads of a run, mapped for reading and writing and filled with zeros. *)
Fixpoint map_wads (n : nat) (vma : Z) : Hst unit :=
  match n with
  | O => ret tt
  | S n' =>
      if mmap_wad (MemoryWadNumber vma) then
        modify (fun h => set_memory (set_wads
          (<[MemoryWadNumber vma := fresh_wad (Z.lor PROT_READ PROT_WRITE)]> (wads (memory h))) (memory h)) h) ;;
        map_wads n' (u32 (vma + MemoryWad_Size))
      else vpunt
  end.
Definition pread (fd offset n : Z) : Hst (option (list Z)) :=
  f <- file_of fd ;;
  if (0 <=? offset) && (offset + n <=? file_size f) && transfers fd offset n
  then ret (Some (file_read f offset (Z.to_nat n))) else ret None.
Fixpoint protect_wads (n : nat) (vma prot : Z) (s : VMMemory) : VMMemory :=
  match n with
  | O => s
  | S n' => protect_wads n' (u32 (vma + MemoryWad_Size)) prot
      (set_wads (alter (set_wad_protection (replicate 8 prot)) (MemoryWadNumber vma) (wads s)) s)
  end.

(** Data, then tags; data is protected afterwards. A mapping of no words fails. *)
(* emulator/memory.c:396-414 map_and_read_world *)
Definition map_and_read_world (fd vma words prot dataoffset tagoffset : Z) : Hst unit :=
  if words =? 0 then vpunt else
  let n := Z.to_nat (words / MemoryWad_Size) in
  map_wads n vma ;;
  data <- pread fd dataoffset (4 * words) ;;
  match data with
  | None => vpunt
  | Some l =>
      modify (fun h => set_memory (put_data vma (words_of_bytes (Z.to_nat words) l) (memory h)) h) ;;
      when (negb (prot =? Z.lor PROT_READ PROT_WRITE))
        (modify (fun h => set_memory (protect_wads n vma prot (memory h)) h)) ;;
      tags <- pread fd tagoffset words ;;
      match tags with
      | None => vpunt
      | Some l => modify (fun h => set_memory (put_tags vma l (memory h)) h)
      end
  end.

(* emulator/memory.c:431-517 limit *)
Definition map_world_turn (fuel : nat) (fd attr : Z) (st : Z * Z * Z * Z) : Hst (Z * Z * Z * Z + Z) :=
  let '(vma, length, dataoffset, tagoffset) := st in
  if negb (0 <? length) then ret (inr vma) else
  '(vma, length, dataoffset, tagoffset) <- loop fuel (copy_page_turn fd) st ;;
  if 0 <? length then
    let limit := length - MemoryWadOffset length in
    words <- in_memory (claim_wads (S (Z.to_nat (limit / MemoryWad_Size))) vma 0 limit attr) ;;
    map_and_read_world fd vma words (ComputeProtection attr) dataoffset tagoffset ;;
    ret (inl (u32 (vma + words), length - words, dataoffset + 4 * words, tagoffset + words))
  else ret (inl (vma, length, dataoffset, tagoffset)).
(* emulator/memory.c:417-519 MapWorldLoad *)
Definition MapWorldLoad (fuel : nat) (vma length worldfile dataoffset tagoffset : Z) : Hst Z :=
  attr <- in_memory (gets (DefaultAttributes false true)) ;;
  loop fuel (map_world_turn fuel worldfile attr) (vma, length, dataoffset, tagoffset).

(** ** Load map entries *)

Definition LoadMapChunkQs : Z := 256. (* src/world_tools.c:695 LoadMapChunkQs *)

(** Chunks never reach beyond the distance of the copy. *)
(* src/world_tools.c:701-715 LoadMapCopyQs *)
Definition copy_chunk_turn (count : Z) (st : Z * Z * Z) : Hst (Z * Z * Z + unit) :=
  let '(i, to, from) := st in
  if i <? count then
    let n := Z.min (count - i) LoadMapChunkQs in
    let distance := s32 (to - from) in
    let n := if (from <? to) && (distance <? n) then distance else n in
    chunk <- in_memory (VirtualMemoryReadBlock vm_extable host_pc from n) ;;
    in_memory (VirtualMemoryWriteBlock vm_extable host_pc to chunk n) ;;
    ret (inl (s32 (i + n), u32 (to + n), u32 (from + n)))
  else ret (inr tt).
(* src/world_tools.c:701-715 LoadMapCopyQs *)
Definition LoadMapCopyQs (to from count : Z) : Hst unit :=
  loop (S (Z.to_nat count)) (copy_chunk_turn count) (0, to, from).

Fixpoint read_chunk (next : Hst LispObjRecord) (n : nat) : Hst (list LispObjRecord) :=
  match n with O => ret [] | S n' => q <- next ;; l <- read_chunk next n' ;; ret (q :: l) end.
(** The words of an entry, from the words of the file in order. *)
(* src/world_tools.c:738-746 theAddress *)
Definition load_chunk_turn (next : Hst LispObjRecord) (count : Z) (st : Z * Z) : Hst (Z * Z + unit) :=
  let '(i, theAddress) := st in
  if i <? count then
    let n := Z.min (count - i) LoadMapChunkQs in
    chunk <- read_chunk next (Z.to_nat n) ;;
    in_memory (VirtualMemoryWriteBlock vm_extable host_pc theAddress chunk n) ;;
    ret (inl (i + n, u32 (theAddress + n)))
  else ret (inr tt).
Definition load_chunks (next : Hst LispObjRecord) (theAddress count : Z) : Hst unit :=
  loop (S (Z.to_nat count)) (load_chunk_turn next count) (0, theAddress).

Definition ensure_entry (e : LoadMapEntry) : Hst unit :=
  in_memory (EnsureVirtualAddressRange mmap_wad (address e) (op_count e) false) ;; ret tt.
Definition load_constant (e : LoadMapEntry) (increment : Z) : Hst unit :=
  in_memory (VirtualMemoryWriteBlockConstant vm_extable host_pc (address e) (entry_data e) (op_count e) increment).

(* src/world_tools.c:717-781 VLMLoadMapData *)
Definition VLMLoadMapData (fuel : nat) (w : Z) (e : LoadMapEntry) : Hst Z :=
  (if op_opcode e =? LoadMapDataPages then
     m <- world_at (entry_world e) ;;
     let pageNumber := LispObjData (entry_data e) in
     if byteSwapped m then
       ensure_entry e ;;
       ReadSwappedVLMWorldFilePage (entry_world e) (s32 pageNumber) ;;
       assign (entry_world e) (set_currentQNumber 0) ;;
       load_chunks (ReadSwappedVLMWorldFileNextQ (entry_world e)) (address e) (op_count e)
     else
       let dataOffset := u32 (VLMBlockSize * u32 (vlmDataPageBase m + u32 (pageNumber * VLMBlocksPerDataPage))) in
       let tagOffset := u32 (VLMBlockSize * u32 (vlmTagsPageBase m + u32 (pageNumber * VLMBlocksPerTagsPage))) in
       MapWorldLoad fuel (address e) (op_count e) (fd m) dataOffset tagOffset ;; ret tt
   else if op_opcode e =? LoadMapConstantIncremented then ensure_entry e ;; load_constant e 1
   else if op_opcode e =? LoadMapConstant then ensure_entry e ;; load_constant e 0
   else if op_opcode e =? LoadMapCopy then
     ensure_entry e ;; LoadMapCopyQs (address e) (LispObjData (entry_data e)) (op_count e)
   else PuntWorld w) ;;
  ret (op_count e).

(** The pages of an entry are read from the world that is loaded, whichever the entry is from. *)
(* src/world_tools.c:784-828 IvoryLoadMapData *)
Definition IvoryLoadMapData (w : Z) (e : LoadMapEntry) : Hst Z :=
  ensure_entry e ;;
  (if op_opcode e =? LoadMapDataPages then
     ReadIvoryWorldFilePage w (s32 (LispObjData (entry_data e))) ;;
     assign w (set_currentQNumber 0) ;;
     load_chunks (ReadIvoryWorldFileNextQ w) (address e) (op_count e)
   else if op_opcode e =? LoadMapConstantIncremented then load_constant e 1
   else if op_opcode e =? LoadMapConstant then load_constant e 0
   else if op_opcode e =? LoadMapCopy then
     LoadMapCopyQs (address e) (LispObjData (entry_data e)) (op_count e)
   else PuntWorld w) ;;
  ret (op_count e).

(* src/world_tools.c:673-687 LoadMapData *)
Definition LoadMapData (fuel : nat) (w : Z) (e : LoadMapEntry) : Hst Z :=
  fmt <- get_world format w ;;
  if fmt =? VLMWorldFormat then VLMLoadMapData fuel w e
  else if fmt =? IvoryWorldFormat then IvoryLoadMapData w e
  else PuntWorld w.

Fixpoint load_entries (fuel : nat) (w : Z) (l : list LoadMapEntry) (worldImageSize : Z) : Hst Z :=
  match l with
  | [] => ret worldImageSize
  | e :: l' => n <- LoadMapData fuel w e ;; load_entries fuel w l' (u32 (worldImageSize + n))
  end.

(* src/world_tools.c:45-61 LoadVLMDebugger *)
Definition LoadVLMDebugger (fuel : nat) (vlmDebuggerPath : Pathname) : Hst unit :=
  w <- new_world ;;
  assign w (set_pathname vlmDebuggerPath) ;;
  OpenWorldFile w true ;;
  x <- world_at w ;;
  if 0 <? nUnwiredMapEntries x then PuntWorld w else
  l <- of_option (first_entries (nWiredMapEntries x) (wiredMapEntries x)) ;;
  load_entries fuel w l 0 ;;
  CloseWorldFile w true.

(* src/world_tools.c:66-93 LoadWorld *)
Definition LoadWorld (fuel : nat) (worldPath worldSearchPath : Pathname) : Hst Z :=
  w <- new_world ;;
  assign w (set_pathname worldPath) ;;
  OpenWorldFile w true ;;
  MergeLoadMaps fuel w worldSearchPath ;;
  x <- world_at w ;;
  wired <- of_option (first_entries (nMergedWiredMapEntries x)
                        (merged_entries (wiredMapEntries x) (mergedWiredMapEntries x))) ;;
  size <- load_entries fuel w wired 0 ;;
  unwired <- of_option (first_entries (nMergedUnwiredMapEntries x)
                          (merged_entries (unwiredMapEntries x) (mergedUnwiredMapEntries x))) ;;
  size <- load_entries fuel w unwired size ;;
  CloseWorldFile w true ;;
  ret size.
End host.
