(* ===== verification/WorldSave.v ===== *)
(** Repaving the stack regions of a loaded world, saving a world, and swapping the bytes of world
    files (src/world_tools.c). *)

From S2P Require Export WorldLoad.
#[local] Open Scope vlm_scope.

(** ** Stack regions *)

Definition RegionOriginTableCell : Z := 0xF804110A. (* src/world_tools.c:118 RegionOriginTableCell *)
Definition RegionLengthTableCell : Z := 0xF804110B. (* src/world_tools.c:119 RegionLengthTableCell *)
Definition RegionFreePointerTableCell : Z := 0xF804110C. (* src/world_tools.c:120 RegionFreePointerTableCell *)
Definition RegionBitsTableCell : Z := 0xF804110E. (* src/world_tools.c:121 RegionBitsTableCell *)
Definition RegionQuantumAddressShift : Z := 16. (* src/world_tools.c:123 RegionQuantumAddressShift *)
Definition RegionTableCapacity : Z := 0x400. (* src/world_tools.c:124 RegionTableCapacity *)
Definition RegionBitsStack : Z := 0x20. (* src/world_tools.c:138 RegionBitsStack *)
Definition RegionMaxRepavePages : Z := 0x1000. (* src/world_tools.c:144 RegionMaxRepavePages *)

Section memory.
Context (mmap_wad : Z -> bool) (vm_extable : list (Z * Z)) (host_pc : Z).

(* src/world_tools.c:146-147 RegionPageExistsP *)
Definition RegionPageExistsP (vma : Z) : Mem bool :=
  a <- read_attribute (MemoryPageNumber vma) ;; ret (VMExists a).

(* src/world_tools.c:149-163 ReadRegionTableBase *)
Definition ReadRegionTableBase (cell : Z) : Mem (option Z) :=
  exists_ <- RegionPageExistsP cell ;;
  if negb exists_ then ret None else
  q <- VirtualMemoryReadUncached vm_extable host_pc cell ;;
  if negb (Z.land (LispObjTag q) 0x3F =? Type_Array) then ret None else
  let base := LispObjData q in
  exists_ <- RegionPageExistsP base ;;
  ret (if exists_ : bool then Some base else None).

(* src/world_tools.c:165-180 ReadRegionTableEntry *)
Definition ReadRegionTableEntry (base n : Z) : Mem (option Z) :=
  let vma := u32 (base + 1 + n) in
  exists_ <- RegionPageExistsP vma ;;
  if negb exists_ then ret None else
  q <- VirtualMemoryReadUncached vm_extable host_pc vma ;;
  if negb (Z.land (LispObjTag q) 0x3F =? Type_Fixnum) then ret None else ret (Some (LispObjData q)).

(** The pages below the free pointer, from page [page] on: an absent page of an absent wad is
    created and filled with ones. *)
(* src/world_tools.c:227-261 page *)
Fixpoint repave_pages (n : nat) (origin page : Z) : Mem unit :=
  match n with
  | O => ret tt
  | S n' =>
      let vma := u32 (origin + u32 (page * MemoryPage_Size)) in
      present <- RegionPageExistsP vma ;;
      if present : bool then repave_pages n' origin (page + 1) else
      mapped <- VirtualAddressWadMappedP vma ;;
      if mapped : bool then repave_pages n' origin (page + 1) else
      size <- EnsureVirtualAddress mmap_wad vma false ;;
      if size =? 0 then ret tt else
      fill_tags vm_extable host_pc (Z.to_nat MemoryPage_Size) vma 0xFF ;;
      fill_data vm_extable host_pc (Z.to_nat MemoryPage_Size) vma 0xFFFFFFFF 0 ;;
      repave_pages n' origin (page + 1)
  end.

(** How many pages lie below the free pointer of a region that is repaved. *)
(* src/world_tools.c:207-225 nPages *)
Definition stack_pages (length freePointer bits : Z) : option Z :=
  if (freePointer =? 0) || (length =? 0) || (length * 2 ^ RegionQuantumAddressShift <? freePointer) then None
  else if Z.land bits RegionBitsStack =? 0 then None
  else
    let nPages := (freePointer + MemoryPage_Size - 1) / MemoryPage_Size in
    if RegionMaxRepavePages <? nPages then None else Some nPages.
(* src/world_tools.c:214 origin *)
Definition region_origin (originQuantum : Z) : Z :=
  u32 (Z.shiftl (Z.land originQuantum 0xFFFF) RegionQuantumAddressShift).

(* src/world_tools.c:200-261 ReadRegionTableEntry *)
Definition repave_region (originBase lengthBase freePointerBase bitsBase n : Z) : Mem unit :=
  originQuantum <- ReadRegionTableEntry originBase n ;;
  match originQuantum with None => ret tt | Some originQuantum =>
  length <- ReadRegionTableEntry lengthBase n ;;
  match length with None => ret tt | Some length =>
  freePointer <- ReadRegionTableEntry freePointerBase n ;;
  match freePointer with None => ret tt | Some freePointer =>
  bits <- ReadRegionTableEntry bitsBase n ;;
  match bits with None => ret tt | Some bits =>
  match stack_pages length freePointer bits with
  | None => ret tt
  | Some nPages => repave_pages (Z.to_nat nPages) (region_origin originQuantum) 0
  end end end end end.

Fixpoint repave_regions (k : nat) (originBase lengthBase freePointerBase bitsBase n : Z) : Mem unit :=
  match k with
  | O => ret tt
  | S k' =>
      repave_region originBase lengthBase freePointerBase bitsBase n ;;
      repave_regions k' originBase lengthBase freePointerBase bitsBase (n + 1)
  end.

(* src/world_tools.c:182-268 RepaveStackRegions *)
Definition RepaveStackRegions : Mem unit :=
  originBase <- ReadRegionTableBase RegionOriginTableCell ;;
  match originBase with None => ret tt | Some originBase =>
  lengthBase <- ReadRegionTableBase RegionLengthTableCell ;;
  match lengthBase with None => ret tt | Some lengthBase =>
  freePointerBase <- ReadRegionTableBase RegionFreePointerTableCell ;;
  match freePointerBase with None => ret tt | Some freePointerBase =>
  bitsBase <- ReadRegionTableBase RegionBitsTableCell ;;
  match bitsBase with None => ret tt | Some bitsBase =>
  repave_regions (Z.to_nat RegionTableCapacity) originBase lengthBase freePointerBase bitsBase 0
  end end end end.
End memory.

(** ** Saving *)

Section host.
Context {host : Host}.

(** While a world is saved the default handler is installed, so a fault kills the program. *)
Definition killed {A} : Hst A := c_exit 139.
Definition direct_data (vma : Z) : Hst Z :=
  s <- gets memory ;; if allowed true false vma s then ret (data_at vma s) else killed.
Definition direct_tag (vma : Z) : Hst Z :=
  s <- gets memory ;; if allowed false false vma s then ret (tag_at vma s) else killed.
Fixpoint direct_bytes (n : nat) (vma : Z) : Hst (list Z) :=
  match n with
  | O => ret []
  | S n' => d <- direct_data vma ;; l <- direct_bytes n' (vma + 1) ;; ret (bytes_of_word d ++ l)
  end.

(** A C string ends at its first null character. *)
Definition c_string (l : list Z) : Pathname :=
  match before_first 0 l with Some (s, _) => s | None => l end.
Definition slashes (l : list Z) : list Z := map (fun c => if c =? 62 then 47 else c) l.

(* src/world_tools.c:345-350 loadMapEntry *)
Fixpoint save_entries (n : nat) (vma : Z) : Hst (list LoadMapEntry) :=
  match n with
  | O => ret []
  | S n' =>
      a <- direct_data vma ;; extent <- direct_data (vma + 1) ;;
      l <- save_entries n' (vma + 2) ;;
      ret (MkLoadMapEntry a (extent mod 16777216) LoadMapDataPages (MakeLispObj 0 0) 0 :: l)
  end.

(** The name of the file: a simple string of Lisp, with its hierarchy marks made slashes. *)
(* src/world_tools.c:299-330 pathnameHeader *)
Definition save_pathname (saveWorldDataVMA : Z) : Hst Pathname :=
  tag <- direct_tag saveWorldDataVMA ;;
  if negb (tag =? Type_String) then vpunt else
  pathname <- direct_data saveWorldDataVMA ;;
  header <- in_memory (VirtualMemoryRead vm_extable host_pc pathname) ;;
  if negb (Z.land (LispObjTag header) 0x3F =? Type_HeaderI) then vpunt else
  if negb (Z.land (LispObjData header) (u32 (Z.lnot Array_LengthMask)) =? 0x50000000) then vpunt else
  let pathnameSize := Z.land (LispObjData header) Array_LengthMask in
  if negb (malloc_succeeds (pathnameSize + 1)) then vpunt else
  bytes <- direct_bytes (Z.to_nat ((pathnameSize + 3) / 4)) (u32 (pathname + 1)) ;;
  ret (c_string (slashes (firstn (Z.to_nat pathnameSize) bytes))).

(* src/world_tools.c:273-360 SaveWorld *)
Definition SaveWorld (fuel : nat) (saveWorldDataVMA : Z) : Hst unit :=
  w <- new_world ;;
  assign w (set_format VLMWorldFormat) ;;
  path <- save_pathname saveWorldDataVMA ;;
  assign w (set_pathname path) ;;
  entryCount <- direct_data (saveWorldDataVMA + 1) ;;
  let n := s32 entryCount in
  assign w (set_nWiredMapEntries n) ;;
  assign w (set_nUnwiredMapEntries 0) ;;
  CreateWorldFile w ;;
  entries <- save_entries (Z.to_nat n) (saveWorldDataVMA + 2) ;;
  when (0 <? n) (assign w (set_wiredMapEntries (Some entries))) ;;
  CanonicalizeVLMLoadMapEntries fuel w ;;
  WriteVLMWorldFileHeader w ;;
  WriteVLMWorldFilePages w ;;
  CloseWorldFile w true.

(** ** Swapping bytes *)

Definition dot_swap : Pathname := [46; 115; 119; 97; 112].
Definition dot_bak : Pathname := [46; 98; 97; 107].

(** A string in an allocated block of so many bytes. *)
Record Block := MkBlock { capacity : Z; chars : Pathname }.
(** strndup allocates what the string needs; strncat writes behind it. *)
Definition strndup (s : Pathname) (n : Z) : Block :=
  MkBlock (Z.min (Z.of_nat (length s)) n + 1) (firstn (Z.to_nat n) s).
Definition strncat (b : Block) (s : Pathname) : option Block :=
  if Z.of_nat (length (chars b) + length s) + 1 <=? capacity b
  then Some (MkBlock (capacity b) (chars b ++ s)) else None.

Fixpoint swap_words (n : nat) (l : list Z) : list Z :=
  match n with
  | O => []
  | S n' => bytes_of_word (bswap_32 (default 0 (word_of_bytes (firstn 4 l)))) ++ swap_words n' (skipn 4 l)
  end.
(* include/swapbytes.h:63-68 bswap32_block *)
Definition bswap32_block (l : list Z) (n : Z) : list Z := swap_words (Z.to_nat ((n + 3) / 4)) l.

(* src/world_tools.c:1827-1842 block *)
Definition swap_block_turn (w newFD size dataStart dataEnd offset : Z) : Hst (Z + unit) :=
  if negb (offset <? size) then ret (inr tt) else
  f <- get_world fd w ;;
  bytes <- c_read f (Z.to_nat VLMBlockSize) ;;
  match bytes with
  | None => PuntWorld w
  | Some block =>
      let block := if offset =? 0 then bytes_of_word VLMWorldFileCookie ++ skipn 4 block else block in
      let block := if (dataStart <=? offset) && (offset + VLMBlockSize <=? dataEnd)
                   then bswap32_block block VLMBlockSize else block in
      written <- c_write newFD block ;;
      if negb written then PuntWorld w else ret (inl (offset + VLMBlockSize))
  end.

Definition c_rename (from to : Pathname) : Hst bool :=
  dir <- gets directory ;;
  match dir !! from with
  | Some i =>
      if renames from to then modify (set_directory (<[to := i]> (delete from dir))) ;; ret true else ret false
  | None => ret false
  end.

(* src/world_tools.c:1776-1862 ByteSwapOneWorld *)
Definition ByteSwapOneWorld (w : Z) : Hst unit :=
  path <- get_world pathname w ;;
  newPathname <- of_option (strncat (strndup path (POSIX_PATH_MAX + 1)) dot_swap) ;;
  fd <- get_world fd w ;;
  size <- (f <- file_of fd ;; ret (file_size f)) ;;
  newFD <- open_write (chars newPathname) ;;
  if newFD <? 0 then PuntWorld w else
  db <- get_world vlmDataPageBase w ;; tb <- get_world vlmTagsPageBase w ;;
  let dataStart := s32 (VLMBlockSize * db) in
  let dataEnd := if tb <? db then size else s32 (VLMBlockSize * tb) in
  arrived <- lseek fd 0 ;;
  if negb arrived then PuntWorld w else
  loop (S (Z.to_nat (size / VLMBlockSize + 1))) (swap_block_turn w newFD size dataStart dataEnd) 0 ;;
  CloseWorldFile w false ;;
  c_close newFD ;;
  bakPathname <- of_option (strncat (strndup path (POSIX_PATH_MAX + 1)) dot_bak) ;;
  renamed <- c_rename path (chars bakPathname) ;;
  if negb renamed then PuntWorld w else
  renamed <- c_rename (chars newPathname) path ;;
  if negb renamed then PuntWorld w else ret tt.

Definition swap_turn (aWorld : option Z) : Hst (option Z + unit) :=
  match aWorld with
  | None => ret (inr tt)
  | Some w =>
      x <- world_at w ;;
      (if (format x =? VLMWorldFormat) && byteSwapped x then ByteSwapOneWorld w else CloseWorldFile w false) ;;
      p <- get_world parentWorld w ;; ret (inl p)
  end.
(* src/world_tools.c:1757-1773 ByteSwapWorld *)
Definition ByteSwapWorld (worldPathname searchPath : Pathname) : Hst unit :=
  w <- new_world ;;
  assign w (set_pathname worldPathname) ;;
  OpenWorldFile w true ;;
  modify (set_originalWorld (Some w)) ;;
  FindParentWorlds w searchPath ;;
  s <- gets world_store ;;
  loop (S (size s)) swap_turn (Some w).
End host.
