(* ===== verification/WorldMergeSpec.v ===== *)
(** What a merged load map loads: at every address the child's entry where it has one, and the
    parent's elsewhere; and how much room the merge needs. *)

From S2P Require Export WorldMerge.
#[local] Open Scope vlm_scope.

(** ** What a map loads *)

Definition entry_limit (e : LoadMapEntry) : Z := address e + op_count e.
Definition covers (e : LoadMapEntry) (a : Z) : bool := (address e <=? a) && (a <? entry_limit e).

(** Where a word comes from: a word of the pages of a file, or a word that an entry makes. *)
Inductive Source :=
| FromFile (world word : Z)
| FromEntry (e : LoadMapEntry) (a : Z).

Section maps.
Context (pageSizeQs : Z).

Definition source (e : LoadMapEntry) (a : Z) : Source :=
  if op_opcode e =? LoadMapDataPages
  then FromFile (entry_world e) (LispObjData (entry_data e) * pageSizeQs + (a - address e))
  else FromEntry e a.

(** The entries of a map are loaded in order, so the last that covers an address decides. *)
Fixpoint loaded (m : list LoadMapEntry) (a : Z) : option Source :=
  match m with
  | [] => None
  | e :: m' =>
      match loaded m' a with
      | Some s => Some s
      | None => if covers e a then Some (source e a) else None
      end
  end.

(** An entry as a map of a world has it: not empty, below the end of memory, and a page of the
    file starts at a page of memory. *)
Record entry_ok (e : LoadMapEntry) : Prop := {
  ok_address : 0 <= address e;
  ok_count : 0 < op_count e < 2 ^ 24;
  ok_limit : entry_limit e < 2 ^ 32;
  ok_aligned : op_opcode e = LoadMapDataPages -> (pageSizeQs | address e);
  ok_page : 0 <= LispObjData (entry_data e) /\ LispObjData (entry_data e) + op_count e < 2 ^ 32
}.
Fixpoint ordered (from : Z) (m : list LoadMapEntry) : Prop :=
  match m with
  | [] => True
  | e :: m' => entry_ok e /\ from <= address e /\ ordered (entry_limit e) m'
  end.

(** What the merge relies on: the child's entries end on page boundaries inside the parent's
    pages, special entries of the parent are not touched by the child's, and above every data
    entry of the child the parent still has one. *)
Definition is_data (e : LoadMapEntry) : Prop := op_opcode e = LoadMapDataPages.
Record mergeable (fg bg : list LoadMapEntry) : Prop := {
  ends_on_page f b : f ∈ fg -> b ∈ bg -> is_data b ->
    address b < entry_limit f < entry_limit b -> (pageSizeQs | entry_limit f);
  specials_apart f b : f ∈ fg -> b ∈ bg -> ~ is_data b ->
    entry_limit b <= address f \/ entry_limit f <= address b;
  data_above f : f ∈ fg -> is_data f -> exists b, b ∈ bg /\ is_data b /\ address f < entry_limit b
}.

Lemma loaded_app m1 m2 a :
  loaded (m1 ++ m2) a = match loaded m2 a with Some s => Some s | None => loaded m1 a end.
Proof.
  induction m1 as [|e m1 IH]; simpl; [by destruct (loaded m2 a)|]. rewrite IH. by destruct (loaded m2 a).
Qed.

Lemma ordered_weaken lo lo' m : lo' <= lo -> ordered lo m -> ordered lo' m.
Proof. destruct m as [|e m]; [done|]. intros H (H1 & H2 & H3). split; [done|]. split; [lia|done]. Qed.
Lemma ordered_ok lo m e : ordered lo m -> e ∈ m -> entry_ok e /\ lo <= address e.
Proof.
  revert lo. induction m as [|e' m IH]; intros lo Ho Hi; [by apply elem_of_nil in Hi|].
  destruct Ho as (H1 & H2 & H3). apply elem_of_cons in Hi as [->|Hi]; [done|].
  destruct (IH _ H3 Hi). split; [done|]. pose proof (ok_count _ H1). unfold entry_limit in *. lia.
Qed.
Lemma loaded_below lo m a : ordered lo m -> a < lo -> loaded m a = None.
Proof.
  revert lo. induction m as [|e m IH]; intros lo Ho Ha; [done|]. destruct Ho as (H1 & H2 & H3).
  pose proof (ok_count _ H1). simpl. rewrite (IH (entry_limit e)) by (done || (unfold entry_limit; lia)).
  unfold covers. by destruct (Z.leb_spec (address e) a); [lia|].
Qed.
Lemma entry_end_limit e : entry_ok e -> entry_end e = entry_limit e.
Proof.
  intros []. unfold entry_end, entry_limit, u32 in *. apply Z.mod_small. lia.
Qed.
Lemma mergeable_tail f fg bg : mergeable (f :: fg) bg -> mergeable fg bg.
Proof. intros [E S A]. constructor; intros; [eapply E|eapply S|eapply A]; eauto; by right. Qed.
End maps.

(** ** The state of a merge as what is left of the two maps *)

Section merge.
Context {host : Host} (h : HostState).
Context (foreground : list LoadMapEntry) (nBackground pageSizeQs max : Z).

Record left_over (fs bs : list LoadMapEntry) (st : MergeState) : Prop := {
  left_foreground : exists pre, foreground = pre ++ fs /\ fIndex st = Z.of_nat (length pre);
  left_background : exists pre, background st = pre ++ bs /\ bIndex st = Z.of_nat (length pre);
  left_length : Z.of_nat (length (background st)) = nBackground
}.

Lemma nth_Z_app {A} (pre : list A) x l : nth_Z (pre ++ x :: l) (Z.of_nat (length pre)) = Some x.
Proof. unfold nth_Z. zcase; [|lia]. rewrite Nat2Z.id. by rewrite list_lookup_middle. Qed.
Lemma upd_Z_app {A} (pre : list A) x y l : upd_Z (pre ++ x :: l) (Z.of_nat (length pre)) y = pre ++ y :: l.
Proof. unfold upd_Z. zcase; [|lia]. rewrite Nat2Z.id. by rewrite insert_app_r_alt, Nat.sub_diag by done. Qed.

Lemma left_head fs b bs st : left_over fs (b :: bs) st -> nth_Z (background st) (bIndex st) = Some b.
Proof. intros [_ (pre & -> & ->) _]. apply nth_Z_app. Qed.
Lemma left_more fs bs st : left_over fs bs st ->
  (bIndex st <? nBackground) = match bs with [] => false | _ => true end.
Proof.
  intros [_ (pre & E & Ei) L]. rewrite E, length_app in L. rewrite Ei. destruct bs; simpl in *; zcase; (done || lia).
Qed.
Lemma left_foreground_head f fs bs st : left_over (f :: fs) bs st ->
  (fIndex st <? Z.of_nat (length foreground)) = true /\ nth_Z foreground (fIndex st) = Some f.
Proof.
  intros [(pre & -> & ->) _ _]. rewrite nth_Z_app, length_app. simpl. split; [zcase; lia|done].
Qed.
Lemma left_foreground_end bs st : left_over [] bs st -> (fIndex st <? Z.of_nat (length foreground)) = false.
Proof. intros [(pre & -> & ->) _ _]. rewrite app_nil_r. zcase; [lia|done]. Qed.

Lemma left_next_background fs b bs st : left_over fs (b :: bs) st -> left_over fs bs (next_background st).
Proof.
  intros [F (pre & E & Ei) L]. constructor; [done| |done]. exists (pre ++ [b]). simpl.
  by rewrite E, Ei, <- app_assoc, length_app, Nat2Z.inj_add.
Qed.
Lemma left_next_foreground f fs bs st : left_over (f :: fs) bs st -> left_over fs bs (next_foreground st).
Proof.
  intros [(pre & E & Ei) B L]. constructor; [|done|done]. exists (pre ++ [f]). simpl.
  by rewrite E, Ei, <- app_assoc, length_app, Nat2Z.inj_add.
Qed.
Lemma left_replace fs b b' bs st : left_over fs (b :: bs) st -> left_over fs (b' :: bs) (replace_background b' st).
Proof.
  intros [F (pre & E & Ei) L]. constructor; [done| |].
  - exists pre. simpl. by rewrite E, Ei, upd_Z_app.
  - simpl. rewrite E, Ei, upd_Z_app, length_app. by rewrite E, length_app in L.
Qed.

(** [new] with more entries. *)
Definition with_new (l : list LoadMapEntry) (st : MergeState) : MergeState :=
  MkMergeState (fIndex st) (bIndex st) (copiedForeground st) (background st) (new st ++ l).
Lemma left_with_new fs bs l st : left_over fs bs st -> left_over fs bs (with_new l st).
Proof. by intros []. Qed.
Lemma left_set_copied fs bs st : left_over fs bs st -> left_over fs bs (set_copied st).
Proof. by intros []. Qed.

Lemma run_append e st : Z.of_nat (length (new st)) < max -> append max e st h = (Ok (with_new [e] st), h).
Proof. intros H. unfold append. by destruct (Z.ltb_spec (Z.of_nat (length (new st))) max); [|lia]. Qed.
Lemma run_background fs b bs st : left_over fs (b :: bs) st -> background_entry st h = (Ok b, h).
Proof. intros L. unfold background_entry. by rewrite (left_head _ _ _ _ L). Qed.

(** ** Entries below *)

Definition below (b f : LoadMapEntry) : bool := (address b <? address f) && (entry_end b <? address f).
Definition passed (f b : LoadMapEntry) : bool := negb (op_opcode b =? LoadMapDataPages) || below b f.

Lemma run_copy_below f fs : forall bs fuel st, left_over fs bs st -> (length bs < fuel)%nat ->
  Z.of_nat (length (new st)) + Z.of_nat (length bs) <= max ->
  exists low bs1 st', bs = low ++ bs1 /\ loop fuel (copy_below_turn nBackground max f) st h = (Ok st', h) /\
    left_over fs bs1 st' /\ new st' = new st ++ low /\ copiedForeground st' = copiedForeground st /\
    Forall (fun b => passed f b = true) low /\ match bs1 with b :: _ => passed f b = false | [] => True end.
Proof.
  induction bs as [|b bs IH]; intros fuel st L Hf Hm; (destruct fuel as [|fuel]; [simpl in Hf; lia|]);
    cbn [loop]; unfold copy_below_turn at 1; rewrite (left_more _ _ _ L).
  - exists [], [], st. rewrite run_bind_ret. split_and!; by rewrite ?app_nil_r.
  - rewrite run_bind_assoc. erewrite bind_Ok by (eapply run_background; done). fold (below b f). fold (passed f b).
    destruct (passed f b) eqn:Ep.
    + simpl in Hm, Hf. rewrite run_bind_assoc. erewrite bind_Ok by (apply run_append; lia). rewrite run_bind_ret.
      destruct (IH fuel (next_background (with_new [b] st))) as (low & bs1 & st' & E & R & L' & N & C & F & Hd).
      { eapply left_next_background, left_with_new; done. }
      { lia. }
      { simpl. rewrite length_app. simpl. lia. }
      exists (b :: low), bs1, st'. split; [by rewrite E|]. split; [done|]. split; [done|].
      split; [rewrite N; simpl; by rewrite <- app_assoc|]. split; [done|]. split; [by constructor|done].
    + rewrite run_bind_ret. exists [], (b :: bs), st. split_and!; by rewrite ?app_nil_r.
Qed.

Lemma run_copy_rest : forall bs fuel st, left_over [] bs st -> (length bs < fuel)%nat ->
  Z.of_nat (length (new st)) + Z.of_nat (length bs) <= max ->
  exists st', loop fuel (copy_rest_turn nBackground max) st h = (Ok st', h) /\ new st' = new st ++ bs /\
    length (background st') = length (background st).
Proof.
  induction bs as [|b bs IH]; intros fuel st L Hf Hm; (destruct fuel as [|fuel]; [simpl in Hf; lia|]);
    cbn [loop]; unfold copy_rest_turn at 1; rewrite (left_more _ _ _ L).
  - exists st. rewrite run_bind_ret. split_and!; by rewrite ?app_nil_r.
  - rewrite run_bind_assoc. erewrite bind_Ok by (eapply run_background; done). simpl in Hm, Hf.
    rewrite run_bind_assoc. erewrite bind_Ok by (apply run_append; lia). rewrite run_bind_ret.
    destruct (IH fuel (next_background (with_new [b] st))) as (st' & R & N & B).
    { eapply left_next_background, left_with_new; done. }
    { lia. }
    { simpl. rewrite length_app. simpl. lia. }
    exists st'. split; [done|]. split; [rewrite N; simpl; by rewrite <- app_assoc|done].
Qed.
End merge.

(** ** One step of the merge *)

Section step.
Context {host : Host} (h : HostState).
Context (foreground : list LoadMapEntry) (nBackground pageSizeQs max k : Z).
Context (Hk : 0 <= k) (Hps : pageSizeQs = 2 ^ k).
#[local] Abbreviation entry_ok := (entry_ok pageSizeQs).
#[local] Abbreviation left_over := (left_over foreground nBackground).

Lemma page_aligned_bits a : (pageSizeQs | a) -> Z.land a (pageSizeQs - 1) = 0.
Proof.
  intros H. assert (pageSizeQs - 1 = Z.ones k) as -> by (rewrite Hps, Z.ones_equiv; lia).
  rewrite Z.land_ones by done. rewrite <- Hps. apply Z.mod_divide in H; [done|]. rewrite Hps. by apply Z.pow_nonzero.
Qed.

Definition lower_part (f b : LoadMapEntry) : list LoadMapEntry :=
  if address b <? address f then [set_op_count (address f - address b) b] else [].
Definition trimmed (f b : LoadMapEntry) : LoadMapEntry :=
  MkLoadMapEntry (entry_limit f) (entry_limit b - entry_limit f) (op_opcode b)
    (MakeLispObj (LispObjTag (entry_data b))
       (LispObjData (entry_data b) + (entry_limit f - address b) / pageSizeQs)) (entry_world b).
Definition remaining (f b : LoadMapEntry) (bs : list LoadMapEntry) : list LoadMapEntry :=
  if address b <? entry_limit f
  then if entry_limit f <? entry_limit b then trimmed f b :: bs else bs
  else b :: bs.

Lemma pages_below f b : entry_ok b -> address b < entry_limit f < entry_limit b ->
  0 <= (entry_limit f - address b) / pageSizeQs <= entry_limit f - address b.
Proof.
  intros [] H. assert (0 < pageSizeQs) by (rewrite Hps; by apply Z.pow_pos_nonneg).
  split; [apply Z.div_pos; lia|]. apply Z.div_le_upper_bound; nia.
Qed.

Lemma above_trimmed f b : entry_ok f -> entry_ok b -> address b < entry_limit f < entry_limit b ->
  (pageSizeQs | entry_limit f) -> above_foreground pageSizeQs f b = Some (trimmed f b).
Proof.
  intros Of Ob H Ha. pose proof (pages_below f b Ob H) as Hp. unfold above_foreground. cbv zeta.
  rewrite (entry_end_limit pageSizeQs f Of), page_aligned_bits by done. cbn [Z.eqb negb andb].
  destruct Ob, Of. unfold trimmed, entry_limit, u32 in *.
  rewrite !(Z.mod_small (address f + op_count f - address b)) by lia.
  rewrite !(Z.mod_small (op_count b - _)) by lia.
  rewrite (Z.mod_small (LispObjData _ + _)) by lia. do 2 f_equal. lia.
Qed.

Lemma run_overlap f fs b bs st : left_over (f :: fs) (b :: bs) st -> entry_ok f -> entry_ok b ->
  (address b < entry_limit f < entry_limit b -> (pageSizeQs | entry_limit f)) ->
  (address b < address f -> address f <= entry_limit b) ->
  Z.of_nat (length (new st)) + (if copiedForeground st then 1 else 2) <= max ->
  exists st', overlap pageSizeQs max f st h = (Ok st', h) /\ left_over (f :: fs) (remaining f b bs) st' /\
    new st' = new st ++ lower_part f b ++ (if copiedForeground st then [] else [f]) /\
    copiedForeground st' = true.
Proof.
  intros L Of Ob Ha Hb Hm. unfold overlap. erewrite bind_Ok by (eapply run_background; done).
  rewrite (entry_end_limit pageSizeQs f Of), (entry_end_limit pageSizeQs b Ob).
  set (st1 := with_new (lower_part f b) st).
  erewrite (bind_Ok _ _ _ st1).
  2: { unfold st1, lower_part. destruct (Z.ltb_spec (address b) (address f)) as [Hl|Hl].
       - assert (u32 (address f - address b) mod 16777216 = address f - address b) as ->.
         { destruct Ob, Of. unfold entry_limit, u32 in *. rewrite (Z.mod_small _ (2 ^ 32)) by lia.
           apply Z.mod_small. specialize (Hb Hl). lia. }
         apply run_append. destruct (copiedForeground st); lia.
       - unfold with_new. rewrite app_nil_r. by destruct st. }
  set (st2 := set_copied (with_new (if copiedForeground st then [] else [f]) st1)).
  erewrite (bind_Ok _ _ _ st2).
  2: { unfold st2. change (copiedForeground st1) with (copiedForeground st).
       destruct (copiedForeground st) eqn:Ec.
       - unfold with_new, set_copied, st1. simpl. by rewrite app_nil_r, <- Ec.
       - erewrite bind_Ok by (apply run_append; unfold st1; simpl; rewrite length_app;
           unfold lower_part; destruct (_ <? _); simpl; lia). done. }
  assert (left_over (f :: fs) (b :: bs) st2) as L2 by by apply left_set_copied, left_with_new, left_with_new.
  assert (new st2 = new st ++ lower_part f b ++ (if copiedForeground st then [] else [f])) as N2
    by (simpl; by rewrite <- app_assoc).
  unfold remaining. destruct (Z.ltb_spec (address b) (entry_limit f)) as [H1|H1].
  - destruct (Z.ltb_spec (entry_limit f) (entry_limit b)) as [H2|H2].
    + rewrite (above_trimmed f b) by auto. eexists. split; [done|]. split; [by eapply left_replace|done].
    + eexists. split; [done|]. split; [by eapply left_next_background|done].
  - exists st2. done.
Qed.
End step.

(** ** What a step leaves to be loaded *)

Definition first_of {A} (x y : option A) : option A := match x with Some a => Some a | None => y end.

Section expected.
Context (pageSizeQs k : Z) (Hk : 0 <= k) (Hps : pageSizeQs = 2 ^ k).
#[local] Abbreviation entry_ok := (entry_ok pageSizeQs).
#[local] Abbreviation ordered := (ordered pageSizeQs).
#[local] Abbreviation loaded := (loaded pageSizeQs).
#[local] Abbreviation source := (source pageSizeQs).

(** What is still to be loaded at an address, when the first foreground entry may have been
    emitted already. *)
Definition expected (copied : bool) (fs bs : list LoadMapEntry) (a : Z) : option Source :=
  match fs with
  | [] => loaded bs a
  | f :: fs' => first_of (loaded fs' a)
      (if covers f a then if copied then None else Some (source f a) else loaded bs a)
  end.

Lemma expected_fresh fs bs a : expected false fs bs a = first_of (loaded fs a) (loaded bs a).
Proof. destruct fs as [|f fs]; [done|]. simpl. destruct (loaded fs a); [done|]. by destruct (covers f a). Qed.
Lemma first_of_assoc {A} (x y z : option A) : first_of (first_of x y) z = first_of x (first_of y z).
Proof. by destruct x. Qed.
Lemma loaded_first m1 m2 a : loaded (m1 ++ m2) a = first_of (loaded m2 a) (loaded m1 a).
Proof. apply loaded_app. Qed.

Lemma covers_iff e a : covers e a = true <-> address e <= a < entry_limit e.
Proof. unfold covers. rewrite andb_true_iff, Z.leb_le, Z.ltb_lt. done. Qed.
Lemma covers_not e a : covers e a = false <-> ~ (address e <= a < entry_limit e).
Proof. rewrite <- covers_iff. by destruct (covers e a). Qed.

Lemma trimmed_source f b a : entry_ok b -> is_data b -> (pageSizeQs | entry_limit f) ->
  source (trimmed pageSizeQs f b) a = source b a.
Proof.
  intros Ob D Ha. unfold source. simpl. rewrite D. cbn [Z.eqb]. f_equal.
  destruct (ok_aligned _ _ Ob D) as [x Ex]. destruct Ha as [y Ey]. rewrite Ex, Ey.
  assert (0 < pageSizeQs) by (rewrite Hps; by apply Z.pow_pos_nonneg).
  replace (y * pageSizeQs - x * pageSizeQs) with ((y - x) * pageSizeQs) by lia.
  rewrite Z.div_mul by lia. lia.
Qed.

(** The parts of the parent's entry below and above the child's load what it loads there. *)
Lemma remaining_loads f b bs a : entry_ok f -> entry_ok b -> is_data b ->
  (address b < entry_limit f < entry_limit b -> (pageSizeQs | entry_limit f)) ->
  (address b < address f -> address f <= entry_limit b) -> covers f a = false ->
  first_of (loaded (remaining pageSizeQs f b bs) a) (loaded (lower_part f b) a) = loaded (b :: bs) a.
Proof.
  intros Of Ob D Ha Hb Hf. apply covers_not in Hf. pose proof (ok_count _ _ Of). pose proof (ok_count _ _ Ob).
  assert (loaded (lower_part f b) a = if covers b a && (a <? address f) then Some (source b a) else None) as ->.
  { unfold lower_part. destruct (Z.ltb_spec (address b) (address f)) as [H1|H1].
    - specialize (Hb H1). simpl. unfold covers, entry_limit in *. simpl.
      replace (address b + (address f - address b)) with (address f) by lia.
      destruct (Z.leb_spec (address b) a), (Z.ltb_spec a (address f)), (Z.ltb_spec a (address b + op_count b));
        simpl; try done; [|lia]. f_equal. unfold source. simpl. by rewrite D.
    - unfold covers. destruct (Z.leb_spec (address b) a), (Z.ltb_spec a (address f)); simpl;
        rewrite ?andb_false_r; try done. lia. }
  unfold remaining. destruct (Z.ltb_spec (address b) (entry_limit f)) as [H1|H1].
  - destruct (Z.ltb_spec (entry_limit f) (entry_limit b)) as [H2|H2].
    + cbn [loaded]. rewrite (trimmed_source f b a) by auto. destruct (loaded bs a); [done|]. simpl.
      unfold covers, trimmed, entry_limit in *. simpl in *.
      replace (address f + op_count f + (address b + op_count b - (address f + op_count f)))
        with (address b + op_count b) by lia.
      destruct (Z.leb_spec (address f + op_count f) a), (Z.ltb_spec a (address b + op_count b)),
        (Z.leb_spec (address b) a), (Z.ltb_spec a (address f)); simpl; try done; lia.
    + cbn [loaded]. destruct (loaded bs a); [done|]. simpl. unfold covers, entry_limit in *.
      destruct (Z.leb_spec (address b) a), (Z.ltb_spec a (address b + op_count b)), (Z.ltb_spec a (address f));
        simpl; try done; lia.
  - cbn [loaded]. destruct (loaded bs a); [done|]. simpl. destruct (covers b a) eqn:Ec; [done|]. done.
Qed.

(** A step over an overlap: what it emits, over what is left, loads what was to be loaded. *)
Lemma overlap_loads (copied : bool) f fs b bs a : entry_ok f -> entry_ok b -> is_data b ->
  (address b < entry_limit f < entry_limit b -> (pageSizeQs | entry_limit f)) ->
  (address b < address f -> address f <= entry_limit b) ->
  first_of (first_of (loaded fs a) (if covers f a then None else loaded (remaining pageSizeQs f b bs) a))
    (loaded (lower_part f b ++ (if copied then [] else [f])) a) =
  expected copied (f :: fs) (b :: bs) a.
Proof.
  intros Of Ob D Ha Hb. unfold expected. rewrite first_of_assoc. f_equal.
  destruct (covers f a) eqn:Ec.
  - rewrite loaded_first. simpl. apply covers_iff in Ec as Ec'.
    assert (loaded (lower_part f b) a = None) as El.
    { unfold lower_part. destruct (_ <? _); [|done]. simpl. unfold covers, entry_limit in *. simpl.
      destruct (Z.leb_spec (address b) a), (Z.ltb_spec a (address b + (address f - address b))); simpl; (done || lia). }
    rewrite El. destruct copied; [done|]. simpl. by rewrite Ec.
  - rewrite loaded_first. destruct copied; simpl; rewrite ?Ec; by apply remaining_loads.
Qed.
End expected.

(** ** The invariant of the merge *)

Section invariant.
Context (pageSizeQs : Z).
#[local] Abbreviation entry_ok := (entry_ok pageSizeQs).
#[local] Abbreviation ordered := (ordered pageSizeQs).
#[local] Abbreviation loaded := (loaded pageSizeQs).
#[local] Abbreviation remaining := (remaining pageSizeQs).
#[local] Abbreviation expected := (expected pageSizeQs).

(** The foreground entry emitted already still overlaps the background entry. *)
Definition overlapping (fs bs : list LoadMapEntry) : Prop :=
  match fs, bs with f :: _, b :: _ => passed f b = false /\ address b < entry_limit f | _, _ => False end.
Record merging (copied : bool) (fs bs : list LoadMapEntry) : Prop := {
  merging_fs : exists lo, ordered lo fs;
  merging_bs : exists lo, ordered lo bs;
  merging_ends f b : f ∈ fs -> b ∈ bs -> is_data b ->
    address b < entry_limit f < entry_limit b -> (pageSizeQs | entry_limit f);
  merging_specials f b : f ∈ fs -> b ∈ bs -> ~ is_data b ->
    entry_limit b <= address f \/ entry_limit f <= address b;
  merging_above f : f ∈ (if copied then tail fs else fs) -> is_data f ->
    exists b, b ∈ bs /\ is_data b /\ address f < entry_limit b;
  merging_copied : copied = true -> overlapping fs bs
}.

Lemma passed_false f b : entry_ok b -> passed f b = false ->
  is_data b /\ (address b < address f -> address f <= entry_limit b).
Proof.
  intros Ob H. apply orb_false_iff in H as [H1 H2]. apply negb_false_iff, Z.eqb_eq in H1. split; [done|].
  intros Hl. unfold below in H2. rewrite (entry_end_limit pageSizeQs b Ob) in H2.
  apply andb_false_iff in H2 as [H2|H2]; apply Z.ltb_ge in H2; lia.
Qed.
Lemma passed_true f b : entry_ok b -> passed f b = true -> is_data b -> entry_limit b < address f.
Proof.
  intros Ob H D. unfold passed in H. rewrite D in H. simpl in H. apply andb_true_iff in H as [_ H].
  rewrite (entry_end_limit pageSizeQs b Ob) in H. by apply Z.ltb_lt in H.
Qed.

Lemma ordered_heads lo f fs : ordered lo (f :: fs) ->
  entry_ok f /\ (forall f', f' ∈ fs -> entry_ok f' /\ entry_limit f <= address f').
Proof. intros (H1 & _ & H3). split; [done|]. intros f' Hf. by eapply ordered_ok. Qed.
Lemma ordered_app lo m1 m2 : ordered lo (m1 ++ m2) -> exists lo', ordered lo' m2.
Proof.
  revert lo. induction m1 as [|e m1 IH]; intros lo H; [by exists lo|]. destruct H as (_ & _ & H). by eapply IH.
Qed.
Lemma ordered_in lo m e : ordered lo m -> e ∈ m -> entry_ok e.
Proof. intros H Hi. by destruct (ordered_ok _ lo m e H Hi). Qed.

(** The entries passed leave the invariant to the rest; none is passed over an overlap. *)
Lemma merging_passed copied f fs low bs : merging copied (f :: fs) (low ++ bs) ->
  Forall (fun b => passed f b = true) low -> merging copied (f :: fs) bs /\ (copied = true -> low = []).
Proof.
  intros [[lf F] [lb B] E S A C] P.
  assert (copied = true -> low = []) as Hl.
  { intros ->. specialize (C eq_refl). destruct low as [|b low]; [done|]. simpl in C.
    apply Forall_cons in P as [P _]. by destruct C as [C _]; rewrite P in C. }
  split; [|done]. constructor.
  - by exists lf.
  - by eapply ordered_app.
  - intros f' b Hf Hb. apply E; [done|]. apply elem_of_app. by right.
  - intros f' b Hf Hb. apply S; [done|]. apply elem_of_app. by right.
  - intros f' Hf D. destruct (A f' Hf D) as (b & Hb & Db & Hlt). exists b. split; [|done].
    apply elem_of_app in Hb as [Hb|Hb]; [|done]. exfalso. rewrite Forall_forall in P.
    assert (entry_ok b) as Ob by (eapply ordered_in; [exact B|apply elem_of_app; by left]).
    pose proof (passed_true f b Ob (P b Hb) Db) as Hp. destruct (ordered_heads _ _ _ F) as [_ G].
    destruct copied; simpl in Hf.
    + destruct (G f' Hf) as [_ Hg]. pose proof (ok_count _ _ (proj1 F)). unfold entry_limit in *. lia.
    + apply elem_of_cons in Hf as [->|Hf]; [lia|]. destruct (G f' Hf) as [_ Hg].
      pose proof (ok_count _ _ (proj1 F)). unfold entry_limit in *. lia.
  - intros Ec. specialize (Hl Ec). subst low. by apply C.
Qed.

(** Where the next entry starts. *)
Definition next_starts (f : LoadMapEntry) (bs : list LoadMapEntry) : bool :=
  match bs with b :: _ => entry_limit f <=? address b | [] => true end.

(** A special entry that is emitted. *)
Lemma merging_special f fs bs : merging false (f :: fs) bs -> ~ is_data f ->
  match bs with b :: _ => passed f b = false | [] => True end ->
  merging (negb (next_starts f bs)) (if next_starts f bs then fs else f :: fs) bs.
Proof.
  intros [[lf F] [lb B] E S A C] D P. destruct F as (Of & _ & F).
  assert (forall f', f' ∈ fs -> is_data f' -> exists b', b' ∈ bs /\ is_data b' /\ address f' < entry_limit b') as A2
    by (intros f' Hf Df; apply A; [by right|done]).
  destruct (next_starts f bs) eqn:En; simpl.
  - constructor; [by eexists|by eexists| | |done|done].
    + intros f' b Hf. apply E. by right.
    + intros f' b Hf. apply S. by right.
  - constructor; simpl; [by exists (address f); split|by eexists|done|done|done|].
    intros _. destruct bs as [|b bs]; [done|]. simpl in En. apply Z.leb_gt in En. done.
Qed.
Context (k : Z) (Hk : 0 <= k) (Hps : pageSizeQs = 2 ^ k).

(** What remains after an overlap. *)

Lemma trimmed_ok f b : entry_ok f -> entry_ok b -> is_data b -> address b < entry_limit f < entry_limit b ->
  (pageSizeQs | entry_limit f) -> entry_ok (trimmed pageSizeQs f b).
Proof.
  intros Of Ob D H Ha. pose proof (pages_below pageSizeQs k Hk Hps f b Ob H). destruct Of, Ob.
  constructor; unfold trimmed, entry_limit in *; simpl; try lia. by intros _.
Qed.
Lemma trimmed_limit f b : entry_limit (trimmed pageSizeQs f b) = entry_limit b.
Proof. unfold trimmed, entry_limit. simpl. lia. Qed.

Lemma merging_overlap copied f fs b bs : merging copied (f :: fs) (b :: bs) -> passed f b = false ->
  let rem := remaining f b bs in
  merging (negb (next_starts f rem)) (if next_starts f rem then fs else f :: fs) rem /\
  (next_starts f rem = false -> rem = bs).
Proof.
  intros [[lf F] [lb B] E S A C] P. cbv zeta. destruct (ordered_heads _ _ _ F) as [Of G].
  destruct B as (Ob & _ & B). destruct (passed_false f b Ob P) as [D Hb].
  pose proof (ok_count _ _ Of) as Cf. pose proof (ok_count _ _ Ob) as Cb.
  assert (forall f', f' ∈ fs -> f' ∈ f :: fs) as Hin by (intros; by right).
  assert (forall b', b' ∈ bs -> b' ∈ b :: bs) as Hib by (intros; by right).
  assert (forall f', f' ∈ fs -> is_data f' -> exists b', b' ∈ b :: bs /\ is_data b' /\ address f' < entry_limit b')
    as A' by (intros f' Hf Df; apply A; [by destruct copied; [|right]|done]).
  destruct F as (_ & _ & F). unfold remaining.
  destruct (Z.ltb_spec (address b) (entry_limit f)) as [H1|H1].
  - destruct (Z.ltb_spec (entry_limit f) (entry_limit b)) as [H2|H2].
    + assert (pageSizeQs | entry_limit f) as Ha by (apply (E f b); [by left|by left|done|lia]).
      simpl. rewrite Z.leb_refl. split; [|done]. constructor; [by eexists| | | | |done].
      * exists 0. split; [by apply trimmed_ok|]. split; [unfold trimmed; simpl; destruct Of; unfold entry_limit in *; lia|].
        by rewrite trimmed_limit.
      * intros f' b' Hf Hb' Db' Hl. apply elem_of_cons in Hb' as [->|Hb'].
        -- apply (E f' b); [by right|by left|done|]. rewrite trimmed_limit in Hl. destruct (G f' Hf) as [Of' Hg].
           pose proof (ok_count _ _ Of'). unfold entry_limit in *. lia.
        -- by apply (E f' b'); auto.
      * intros f' b' Hf Hb' Db'. apply elem_of_cons in Hb' as [->|Hb']; [done|]. by apply S; auto.
      * intros f' Hf Df. destruct (A' f' Hf Df) as (b' & Hb' & Db' & Hl). apply elem_of_cons in Hb' as [->|Hb'].
        -- exists (trimmed pageSizeQs f b). rewrite trimmed_limit. split; [by left|done].
        -- exists b'. split; [by right|done].
    + assert (forall f', f' ∈ fs -> is_data f' -> exists b', b' ∈ bs /\ is_data b' /\ address f' < entry_limit b') as A2.
      { intros f' Hf Df. destruct (A' f' Hf Df) as (b' & Hb' & Db' & Hl). apply elem_of_cons in Hb' as [->|Hb']; [|by exists b'].
        destruct (G f' Hf). lia. }
      destruct (next_starts f bs) eqn:En; (split; [|done]).
      * constructor; simpl; [by eexists|by eexists| | |done|done];
          intros f' b' ? ? ?; [apply (E f' b')|apply (S f' b')]; auto.
      * constructor; simpl; [by exists (address f); split|by eexists| | |done|];
          [intros f' b' ? ? ?; apply (E f' b')|intros f' b' ? ? ?; apply (S f' b')|]; auto.
        intros _. destruct bs as [|b2 bs]; [done|]. simpl in En. apply Z.leb_gt in En. destruct B as (Ob2 & Hlo & _).
        split; [|done]. unfold passed, below. destruct (Z.eqb_spec (op_opcode b2) LoadMapDataPages) as [D2|D2].
        -- destruct (Z.ltb_spec (address b2) (address f)) as [Hx|Hx]; [|done]. unfold entry_limit in *. lia.
        -- destruct (S f b2); [by left|by right; left|done| |lia].
           pose proof (ok_count _ _ Ob2). unfold entry_limit in *. lia.
  - simpl. destruct (Z.leb_spec (entry_limit f) (address b)) as [H2|H2]; [|lia]. split; [|done].
    constructor; simpl; [by eexists| | | |done|done].
    + exists (address b). by split.
    + intros f' b' ? ? ?. apply (E f' b'); auto.
    + intros f' b' ? ? ?. apply (S f' b'); auto.
Qed.

End invariant.

(** ** The whole merge *)

Section merge_correct.
Context {host : Host} (h : HostState).
Context (foreground : list LoadMapEntry) (nBackground pageSizeQs max k : Z).
Context (Hk : 0 <= k) (Hps : pageSizeQs = 2 ^ k).
#[local] Abbreviation entry_ok := (entry_ok pageSizeQs).
#[local] Abbreviation ordered := (ordered pageSizeQs).
#[local] Abbreviation loaded := (loaded pageSizeQs).
#[local] Abbreviation remaining := (remaining pageSizeQs).
#[local] Abbreviation expected := (expected pageSizeQs).
#[local] Abbreviation merging := (merging pageSizeQs).
#[local] Abbreviation left_over := (left_over foreground nBackground).
#[local] Abbreviation turn := (merge_turn foreground (Z.of_nat (length foreground)) nBackground pageSizeQs max).

(** The merge has to go on with the foreground entry, or is done with it. *)
Definition after (f : LoadMapEntry) (bs : list LoadMapEntry) (st : MergeState) : MergeState :=
  if next_starts f bs then next_foreground st else st.

Lemma run_after f fs bs st : left_over (f :: fs) bs st -> entry_ok f ->
  (if nBackground <=? bIndex st then ret (inl (next_foreground st)) else
   b <- background_entry st ;; ret (inl (if entry_end f <=? address b then next_foreground st else st))) h
  = (Ok (inl (after f bs st) : MergeState + MergeState), h).
Proof.
  intros L Of. rewrite Z.leb_antisym, (left_more _ _ _ _ _ L). unfold after. destruct bs as [|b bs]; [done|].
  cbn [negb]. erewrite bind_Ok by (eapply run_background; done).
  by rewrite (entry_end_limit pageSizeQs f Of).
Qed.

Lemma left_after f fs bs st : left_over (f :: fs) bs st ->
  left_over (if next_starts f bs then fs else f :: fs) bs (after f bs st).
Proof. intros L. unfold after. destruct (next_starts f bs); [by eapply left_next_foreground|done]. Qed.
Lemma copied_after f bs st : copiedForeground st = true ->
  copiedForeground (after f bs st) = negb (next_starts f bs).
Proof. intros H. unfold after. by destruct (next_starts f bs). Qed.
Lemma new_after f bs st : new (after f bs st) = new st.
Proof. unfold after. by destruct (next_starts f bs). Qed.

Lemma expected_after f fs bs a : (exists lo, ordered lo bs) ->
  expected (negb (next_starts f bs)) (if next_starts f bs then fs else f :: fs) bs a =
  first_of (loaded fs a) (if covers f a then None else loaded bs a).
Proof.
  intros [lo B]. destruct (next_starts f bs) eqn:En; [|done]. cbn [negb]. rewrite expected_fresh. f_equal.
  destruct (covers f a) eqn:Ec; [|done]. apply covers_iff in Ec. destruct bs as [|b bs]; [done|].
  simpl in En. apply Z.leb_le in En. apply (loaded_below pageSizeQs (address b)); [|lia].
  destruct B as (? & ? & ?). by split.
Qed.

(** Room is left for what may still be emitted. *)
Definition room (copied : bool) (fs bs l : list LoadMapEntry) : Prop :=
  Z.of_nat (length l) + Z.of_nat (length bs) + 2 * Z.of_nat (length fs) - (if copied then 1 else 0) <= max.
Definition steps_left (copied : bool) (fs bs : list LoadMapEntry) : nat :=
  2 * length fs + length bs + (if copied then 0 else 1).

Lemma run_turn inner f fs bs st :
  left_over (f :: fs) bs st -> merging (copiedForeground st) (f :: fs) bs -> (length bs < inner)%nat ->
  room (copiedForeground st) (f :: fs) bs (new st) ->
  exists st' fs' bs' em, turn inner st h = (Ok (inl st'), h) /\ left_over fs' bs' st' /\
    merging (copiedForeground st') fs' bs' /\ new st' = new st ++ em /\
    (forall a, first_of (expected (copiedForeground st') fs' bs' a) (loaded em a) =
               expected (copiedForeground st) (f :: fs) bs a) /\
    (steps_left (copiedForeground st') fs' bs' < steps_left (copiedForeground st) (f :: fs) bs)%nat /\
    (length bs' <= length bs)%nat /\ room (copiedForeground st') fs' bs' (new st').
Proof.
  intros L G Hi Hr. unfold room in Hr. cbn [length] in Hr.
  destruct (merging_fs _ _ _ _ G) as [lf Of]. destruct Of as (Of & _ & _).
  unfold merge_turn. destruct (left_foreground_head _ _ _ _ _ _ L) as [-> ->].
  rewrite (run_bind_option f (Some f)) by done.
  destruct (run_copy_below h foreground nBackground max f (f :: fs) bs inner st L Hi) as
    (low & bs1 & st1 & -> & R & L1 & N1 & C1 & Plow & Phd); [destruct (copiedForeground st); lia|].
  erewrite bind_Ok by exact R. rewrite C1.
  destruct (merging_passed pageSizeQs _ f fs low bs1 G Plow) as [G1 Hlow].
  assert (Z.of_nat (length low) <= Z.of_nat (length (low ++ bs1))) as Hll by (rewrite length_app; lia).
  rewrite length_app in Hr, Hi. rewrite <- C1 in Hr, G1, Hlow |- *.
  destruct (negb (op_opcode f =? LoadMapDataPages) && negb (copiedForeground st1)) eqn:Es.
  - apply andb_true_iff in Es as [D Ec]. apply negb_true_iff, Z.eqb_neq in D. apply negb_true_iff in Ec.
    rewrite Ec in *. set (st2 := set_copied (with_new [f] st1)).
    erewrite (bind_Ok _ _ _ st2) by (erewrite bind_Ok by (apply run_append; rewrite N1, length_app; lia); done).
    assert (left_over (f :: fs) bs1 st2) as L2 by by apply left_set_copied, left_with_new.
    exists (after f bs1 st2), (if next_starts f bs1 then fs else f :: fs), bs1, (low ++ [f]).
    assert (copiedForeground (after f bs1 st2) = negb (next_starts f bs1)) as C2 by by apply copied_after.
    rewrite C2. split; [by eapply run_after|]. split; [by apply left_after|].
    split; [by apply merging_special|]. split; [rewrite new_after; simpl; by rewrite N1, <- app_assoc|].
    split; [|split; [|split]].
    + intros a. rewrite expected_after by apply (merging_bs _ _ _ _ G1). rewrite !loaded_first, first_of_assoc.
      simpl. rewrite loaded_first. destruct (loaded fs a); [done|]. simpl. by destruct (covers f a).
    + unfold steps_left. rewrite length_app. destruct (next_starts f bs1); simpl; lia.
    + rewrite length_app. lia.
    + unfold room. rewrite new_after. simpl. rewrite N1, !length_app. simpl. destruct (next_starts f bs1); simpl; lia.
  - assert (exists b bs2, bs1 = b :: bs2) as (b & bs2 & ->).
    { destruct bs1 as [|b bs2]; [|by eexists _, _]. exfalso. destruct (copiedForeground st1) eqn:Ec.
      - exact (merging_copied _ _ _ _ G1 eq_refl).
      - rewrite andb_true_r in Es. apply negb_false_iff, Z.eqb_eq in Es.
        destruct (merging_above _ _ _ _ G1 f) as (b & Hb & _); [by left|done|by apply elem_of_nil in Hb]. }
    destruct (merging_bs _ _ _ _ G1) as [lb (Ob & _ & _)]. destruct (passed_false pageSizeQs f b Ob Phd) as [D Hb].
    assert (address b < entry_limit f < entry_limit b -> (pageSizeQs | entry_limit f)) as Ha
      by (apply (merging_ends _ _ _ _ G1 f b); [by left|by left|done]).
    destruct (run_overlap h foreground nBackground pageSizeQs max k Hk Hps f fs b bs2 st1 L1 Of Ob Ha Hb)
      as (st2 & R2 & L2 & N2 & C2); [rewrite N1, length_app; simpl in Hr; destruct (copiedForeground st1); lia|].
    erewrite bind_Ok by exact R2. set (rem := remaining f b bs2) in *.
    destruct (merging_overlap pageSizeQs k Hk Hps _ f fs b bs2 G1 Phd) as [G2 Hrem]. fold rem in G2, Hrem.
    assert (copiedForeground (after f rem st2) = negb (next_starts f rem)) as C3 by by apply copied_after.
    eexists (after f rem st2), (if next_starts f rem then fs else f :: fs), rem, _. rewrite C3.
    split; [by eapply run_after|]. split; [by apply left_after|]. split; [exact G2|].
    split; [by rewrite new_after, N2, N1, <- app_assoc|].
    assert (length rem <= S (length bs2))%nat as Hlr
      by (unfold rem, WorldMergeSpec.remaining; destruct (_ <? _); [destruct (_ <? _)|]; simpl; lia).
    split; [|split; [|split]].
    + intros a. rewrite expected_after by apply (merging_bs _ _ _ _ G2).
      rewrite loaded_first, <- first_of_assoc. unfold rem.
      rewrite (overlap_loads pageSizeQs k Hk Hps _ f fs b bs2 a) by done.
      destruct (copiedForeground st1) eqn:Ec; [by rewrite (Hlow eq_refl), app_nil_l; destruct (expected _ _ _ _)|].
      rewrite !expected_fresh, loaded_first, first_of_assoc. done.
    + unfold steps_left. rewrite length_app. cbn [length] in *. destruct (next_starts f rem) eqn:En; cbn [negb length].
      * destruct (copiedForeground st1); lia.
      * rewrite (Hrem eq_refl). destruct (copiedForeground st1); lia.
    + rewrite length_app. simpl. lia.
    + unfold room. rewrite new_after, N2, N1, !length_app. cbn [length] in *.
      assert (length (lower_part f b) <= 1)%nat by (unfold lower_part; destruct (_ <? _); simpl; lia).
      destruct (next_starts f rem) eqn:En; cbn [negb length].
      * assert (length rem + length (lower_part f b) <= S (length bs2) + 1)%nat by lia.
        destruct (copiedForeground st1); cbn [length]; lia.
      * rewrite (Hrem eq_refl). destruct (copiedForeground st1); cbn [length]; lia.
Qed.

Lemma run_turns : forall fuel inner fs bs st,
  left_over fs bs st -> merging (copiedForeground st) fs bs -> (length bs < inner)%nat ->
  room (copiedForeground st) fs bs (new st) -> (steps_left (copiedForeground st) fs bs < fuel)%nat ->
  exists st' bs' em, loop fuel (turn inner) st h = (Ok st', h) /\ left_over [] bs' st' /\
    new st' = new st ++ em /\ (length bs' <= length bs)%nat /\ room false [] bs' (new st') /\
    forall a, first_of (loaded bs' a) (loaded em a) = expected (copiedForeground st) fs bs a.
Proof.
  induction fuel as [|fuel IH]; intros inner fs bs st L G Hi Hr Hf; [lia|]. cbn [loop].
  destruct fs as [|f fs].
  - exists st, bs, []. unfold merge_turn at 1. rewrite (left_foreground_end _ _ _ _ L), run_bind_ret, app_nil_r.
    destruct (copiedForeground st) eqn:Ec; [destruct (merging_copied _ _ _ _ G eq_refl)|].
    split_and!; try done. intros a. simpl. by destruct (loaded bs a).
  - destruct (run_turn inner f fs bs st L G Hi Hr) as (st1 & fs1 & bs1 & em1 & R & L1 & G1 & N1 & E1 & S1 & B1 & R1).
    erewrite bind_Ok by exact R. cbv beta iota.
    destruct (IH inner fs1 bs1 st1 L1 G1 ltac:(lia) R1 ltac:(lia)) as (st' & bs' & em & R' & L' & N' & B' & Rm & E').
    exists st', bs', (em1 ++ em). split_and!; [done|done|by rewrite N', N1, app_assoc|lia|done|].
    intros a. by rewrite loaded_first, <- first_of_assoc, E', E1.
Qed.
End merge_correct.

Section correct.
Context {host : Host}.

(** The sizes of pages are powers of two. *)
Definition page_size (fmt : Z) : Z := if fmt =? VLMWorldFormat then VLMPageSizeQs else IvoryPageSizeQs.
Lemma page_size_power fmt : exists k, 0 <= k /\ page_size fmt = 2 ^ k.
Proof. unfold page_size. destruct (_ =? _); [by exists 13|by exists 8]. Qed.

End correct.
