(* ===== verification/WorldRepaveSpec.v ===== *)
(** Repaving: after it every page of a stack region below the free pointer lies in a wad that is
    mapped; what the world had loaded has not changed, and what is new is filled with ones. *)

From S2P Require Export PageInvariant WorldSave.
#[local] Open Scope vlm_scope.

(** ** Reading a word of a page that exists *)

Definition present (vma : Z) (s : VMMemory) : bool := VMExists (attribute_at (MemoryPageNumber vma) s).

Lemma tag_at_protection vpn p a s : tag_at a (with_protection vpn p s) = tag_at a s.
Proof.
  unfold tag_at. simpl. destruct (decide (Z.shiftr vpn 3 = MemoryWadNumber a)) as [->|];
    [|by rewrite lookup_alter_ne]. rewrite lookup_alter_eq. by destruct (wads s !! _).
Qed.
Lemma data_at_protection vpn p a s : data_at a (with_protection vpn p s) = data_at a s.
Proof.
  unfold data_at. simpl. destruct (decide (Z.shiftr vpn 3 = MemoryWadNumber a)) as [->|];
    [|by rewrite lookup_alter_ne]. rewrite lookup_alter_eq. by destruct (wads s !! _).
Qed.
Lemma with_protection_twice vpn p q s : with_protection vpn p (with_protection vpn q s) = with_protection vpn p s.
Proof.
  unfold with_protection, set_wads. simpl. f_equal. apply map_eq. intros n.
  destruct (decide (n = Z.shiftr vpn 3)) as [->|]; [|by rewrite !lookup_alter_ne by done].
  rewrite !lookup_alter_eq. destruct (wads s !! Z.shiftr vpn 3) as [w|]; [|done]. simpl. f_equal.
  unfold set_wad_protection. simpl. f_equal. unfold upd_Z. by destruct (0 <=? _); [rewrite list_insert_insert_eq|].
Qed.

Section memory.
Context (mmap_wad : Z -> bool) (vm_extable : list (Z * Z)) (host_pc : Z).

Lemma run_load_tag vma s : hardware (MemoryPageNumber vma) s <> None ->
  load_tag vm_extable host_pc vma s = (Ok (tag_at vma s), s).
Proof. intros H. unfold load_tag. by erewrite bind_Ok by (by apply page_run_touch, allowed_tag). Qed.
Lemma run_load_word vma s p : hardware (MemoryPageNumber vma) s = Some p -> has p PROT_READ = true ->
  load_data vm_extable host_pc vma s = (Ok (data_at vma s), s).
Proof.
  intros H Hp. unfold load_data. erewrite bind_Ok by (apply page_run_touch; unfold allowed; by rewrite H, Hp). done.
Qed.

(** The word is read whatever the attributes of its page, and nothing changes. *)
Lemma run_VirtualMemoryReadUncached vma s : page_inv s -> is_u32 vma -> present vma s = true ->
  VirtualMemoryReadUncached vm_extable host_pc vma s = (Ok (MakeLispObj (tag_at vma s) (data_at vma s)), s).
Proof.
  intros I Hv E. unfold VirtualMemoryReadUncached. set (vpn := MemoryPageNumber vma) in *.
  erewrite bind_Ok by (by apply run_read_attribute, page_in_table). cbv zeta. fold vpn. set (a := attribute_at vpn s).
  pose proof (inv_protection s I vpn E) as H. fold a in H.
  destruct (has (ComputeProtection a) PROT_READ) eqn:Ep; cbn [negb when].
  - rewrite run_bind_ret. erewrite bind_Ok by (apply run_load_tag; fold vpn; by rewrite H).
    erewrite bind_Ok by (eapply run_load_word; [exact H|done]). by rewrite run_bind_ret.
  - assert (exists w, wads s !! Z.shiftr vpn 3 = Some w) as [w Ew]
      by (unfold hardware in H; destruct (wads s !! _) as [w|]; [by exists w|done]).
    erewrite bind_Ok by (by eapply run_mprotect). set (s1 := with_protection vpn PROT_READ s).
    assert (hardware vpn s1 = Some PROT_READ) as H1 by (eapply hardware_with_eq; [apply (inv_wads s I)|exact H]).
    erewrite bind_Ok by (apply run_load_tag; fold vpn; by rewrite H1).
    erewrite bind_Ok by (eapply run_load_word; [exact H1|done]).
    assert (exists w1, wads s1 !! Z.shiftr vpn 3 = Some w1) as [w1 Ew1]
      by (unfold hardware in H1; destruct (wads s1 !! _) as [w1|]; [by exists w1|done]).
    erewrite bind_Ok by (by eapply run_mprotect). unfold ret, s1.
    rewrite tag_at_protection, data_at_protection, with_protection_twice. by rewrite with_protection_same by exact H.
Qed.

(** ** The region tables *)

Definition table_base (cell : Z) (s : VMMemory) : option Z :=
  if present cell s && (Z.land (tag_at cell s) 0x3F =? Type_Array) && present (data_at cell s) s
  then Some (data_at cell s) else None.
Definition table_entry (base n : Z) (s : VMMemory) : option Z :=
  let vma := u32 (base + 1 + n) in
  if present vma s && (Z.land (tag_at vma s) 0x3F =? Type_Fixnum) then Some (data_at vma s) else None.

Lemma run_RegionPageExistsP vma s : is_u32 vma -> RegionPageExistsP vma s = (Ok (present vma s), s).
Proof. intros H. unfold RegionPageExistsP. by erewrite bind_Ok by (by apply run_read_attribute, page_in_table). Qed.

Lemma run_ReadRegionTableBase cell s : page_inv s -> is_u32 cell -> is_u32 (data_at cell s) ->
  ReadRegionTableBase vm_extable host_pc cell s = (Ok (table_base cell s), s).
Proof.
  intros I Hc Hd. unfold ReadRegionTableBase, table_base.
  erewrite bind_Ok by (by apply run_RegionPageExistsP). destruct (present cell s) eqn:Ep; [|done]. cbn [negb].
  erewrite bind_Ok by (by apply run_VirtualMemoryReadUncached). cbn [LispObjTag LispObjData].
  destruct (_ =? Type_Array); [|done]. cbn [negb andb]. erewrite bind_Ok by (by apply run_RegionPageExistsP).
  by destruct (present (data_at cell s) s).
Qed.
Lemma run_ReadRegionTableEntry base n s : page_inv s ->
  ReadRegionTableEntry vm_extable host_pc base n s = (Ok (table_entry base n s), s).
Proof.
  intros I. unfold ReadRegionTableEntry, table_entry. cbv zeta. pose proof (u32_range (base + 1 + n)) as Hu.
  erewrite bind_Ok by (by apply run_RegionPageExistsP). destruct (present _ s) eqn:Ep; [|done]. cbn [negb].
  erewrite bind_Ok by (by apply run_VirtualMemoryReadUncached). cbn [LispObjTag LispObjData].
  by destruct (_ =? Type_Fixnum).
Qed.

(** ** Growth *)

(** What was there stays as it was; what is new was in no wad that had a page, and is filled with
    ones. *)
Record grown (s s' : VMMemory) : Prop := {
  grown_inv : page_inv s';
  grown_attribute vpn : wad_created (Z.shiftr vpn 3) s = true -> attribute_at vpn s' = attribute_at vpn s;
  grown_tag vma : WadCreated vma s = true -> tag_at vma s' = tag_at vma s;
  grown_data vma : WadCreated vma s = true -> data_at vma s' = data_at vma s;
  grown_new vma : is_u32 vma -> present vma s' = true -> present vma s = false ->
    WadCreated vma s = false /\ tag_at vma s' = 0xFF /\ data_at vma s' = 0xFFFFFFFF
}.

Lemma present_wad vma s : present vma s = true -> WadCreated vma s = true.
Proof.
  intros H. destruct (WadCreated vma s) eqn:E; [done|].
  apply (WadCreated_false vma s (MemoryPageNumber vma)) in E; [by unfold present in H; rewrite E in H|].
  by rewrite wad_of_page.
Qed.
Lemma wad_created_page n s : wad_created n s = true <-> exists vpn, Z.shiftr vpn 3 = n /\ VMExists (attribute_at vpn s) = true.
Proof.
  unfold wad_created. rewrite existsb_exists. split.
  - intros (i & Hi & E). exists (8 * n + Z.of_nat i). split; [|done]. apply in_seq in Hi.
    rewrite Z.shiftr_div_pow2 by done. change (2 ^ 3) with 8. symmetry. apply Z.div_unique with (Z.of_nat i); lia.
  - intros (vpn & <- & E). exists (Z.to_nat (page_in_wad vpn)). pose proof (page_in_wad_range vpn).
    split; [apply in_seq; lia|]. rewrite Z2Nat.id by lia. by rewrite <- page_split.
Qed.
Lemma grown_created n s s' : grown s s' -> wad_created n s = true -> wad_created n s' = true.
Proof.
  intros G H. apply wad_created_page in H as (vpn & Hn & E). apply wad_created_page. exists vpn. split; [done|].
  rewrite (grown_attribute _ _ G); [done|]. rewrite Hn. apply wad_created_page. by exists vpn.
Qed.
Lemma grown_present vma s s' : grown s s' -> present vma s = true -> present vma s' = true.
Proof.
  intros G H. pose proof (present_wad _ _ H) as Hw. unfold present in *.
  rewrite (grown_attribute _ _ G); [done|]. unfold WadCreated in Hw. by rewrite wad_of_page in Hw.
Qed.
Lemma grown_refl s : page_inv s -> grown s s.
Proof. intros I. constructor; try done. intros vma _ H1 H2. by rewrite H1 in H2. Qed.
Lemma grown_trans s1 s2 s3 : grown s1 s2 -> grown s2 s3 -> grown s1 s3.
Proof.
  intros A B. constructor.
  - apply B.
  - intros v H. rewrite (grown_attribute _ _ B); [by apply A|by eapply grown_created].
  - intros v H. rewrite (grown_tag _ _ B); [by apply A|by eapply grown_created].
  - intros v H. rewrite (grown_data _ _ B); [by apply A|by eapply grown_created].
  - intros v Hv H3 H1. destruct (present v s2) eqn:H2.
    + destruct (grown_new _ _ A v Hv H2 H1) as (E1 & E2 & E3). split; [done|].
      pose proof (present_wad _ _ H2) as Hw. by rewrite (grown_tag _ _ B), (grown_data _ _ B).
    + destruct (grown_new _ _ B v Hv H3 H2) as (E1 & E2 & E3). split; [|done].
      destruct (WadCreated v s1) eqn:Ec; [|done]. by rewrite (grown_created _ _ _ A Ec : WadCreated v s2 = true) in E1.
Qed.

(** ** Filling a page *)

Lemma tag_with_tag a b v s : wads s !! MemoryWadNumber a <> None ->
  tag_at b (with_tag a v s) = if decide (a = b) then v else tag_at b s.
Proof.
  intros Hw. unfold tag_at. simpl. destruct (decide (MemoryWadNumber a = MemoryWadNumber b)) as [E|E].
  - rewrite <- E, lookup_alter_eq. destruct (wads s !! _) as [w|] eqn:Ew; [|done]. simpl.
    destruct (decide (a = b)) as [->|]; [by rewrite lookup_insert_eq|by rewrite lookup_insert_ne].
  - rewrite lookup_alter_ne by done. destruct (decide (a = b)) as [->|]; [done|done].
Qed.
Lemma data_with_tag a b v s : data_at b (with_tag a v s) = data_at b s.
Proof.
  unfold data_at. simpl. destruct (decide (MemoryWadNumber a = MemoryWadNumber b)) as [->|];
    [|by rewrite lookup_alter_ne]. rewrite lookup_alter_eq. by destruct (wads s !! _).
Qed.
Lemma data_with_data a b v s : wads s !! MemoryWadNumber a <> None ->
  data_at b (with_data a v s) = if decide (a = b) then v else data_at b s.
Proof.
  intros Hw. unfold data_at. simpl. destruct (decide (MemoryWadNumber a = MemoryWadNumber b)) as [E|E].
  - rewrite <- E, lookup_alter_eq. destruct (wads s !! _) as [w|] eqn:Ew; [|done]. simpl.
    destruct (decide (a = b)) as [->|]; [by rewrite lookup_insert_eq|by rewrite lookup_insert_ne].
  - rewrite lookup_alter_ne by done. destruct (decide (a = b)) as [->|]; [done|done].
Qed.
Lemma tag_with_data a b v s : tag_at b (with_data a v s) = tag_at b s.
Proof.
  unfold tag_at. simpl. destruct (decide (MemoryWadNumber a = MemoryWadNumber b)) as [->|];
    [|by rewrite lookup_alter_ne]. rewrite lookup_alter_eq. by destruct (wads s !! _).
Qed.
Lemma mapped_wad vma p s : hardware (MemoryPageNumber vma) s = Some p -> wads s !! MemoryWadNumber vma <> None.
Proof. unfold hardware. rewrite wad_of_page. by destruct (wads s !! _). Qed.

(** The words from [vma] on can be written. *)
Definition writable_words (n : nat) (vma : Z) (s : VMMemory) : Prop :=
  forall a, vma <= a < vma + Z.of_nat n -> hardware (MemoryPageNumber a) s = Some 3.

Lemma run_fill_tags v : is_u8 v -> forall n vma s, page_inv s -> writable_words n vma s ->
  exists s', fill_tags vm_extable host_pc n vma v s = (Ok tt, s') /\ page_inv s' /\
    VMAttributeTable s' = VMAttributeTable s /\ (forall p, hardware p s' = hardware p s) /\
    (forall a, data_at a s' = data_at a s) /\
    forall a, tag_at a s' = if decide (vma <= a < vma + Z.of_nat n) then v else tag_at a s.
Proof.
  intros Hv. induction n as [|n IH]; intros vma s I W.
  - exists s. split_and!; try done. intros a. by destruct (decide _); [lia|].
  - assert (hardware (MemoryPageNumber vma) s = Some 3) as H by (apply W; lia).
    cbn [fill_tags]. unfold store_tag. rewrite run_bind_assoc.
    erewrite bind_Ok by (apply page_run_touch, allowed_tag; by rewrite H). rewrite run_bind_modify.
    destruct (IH (vma + 1) (with_tag vma (u8 v) s)) as (s' & R & I' & A & Hh & D & T).
    + by apply page_inv_with_tag.
    + intros a Ha. rewrite hardware_with_tag. apply W. lia.
    + exists s'. split; [done|]. split; [done|]. split; [by rewrite A|].
      split; [intros p; by rewrite Hh, hardware_with_tag|]. split; [intros a; by rewrite D, data_with_tag|].
      intros a. rewrite T, tag_with_tag by by eapply mapped_wad. unfold u8. rewrite (Z.mod_small v) by exact Hv.
      repeat destruct (decide _); try lia; done.
Qed.
Lemma run_fill_data v : is_u32 v -> forall n vma s, page_inv s -> writable_words n vma s ->
  exists s', fill_data vm_extable host_pc n vma v 0 s = (Ok tt, s') /\ page_inv s' /\
    VMAttributeTable s' = VMAttributeTable s /\ (forall p, hardware p s' = hardware p s) /\
    (forall a, tag_at a s' = tag_at a s) /\
    forall a, data_at a s' = if decide (vma <= a < vma + Z.of_nat n) then v else data_at a s.
Proof.
  intros Hv. induction n as [|n IH]; intros vma s I W.
  - exists s. split_and!; try done. intros a. by destruct (decide _); [lia|].
  - assert (hardware (MemoryPageNumber vma) s = Some 3) as H by (apply W; lia).
    cbn [fill_data]. unfold store_data. rewrite run_bind_assoc.
    erewrite bind_Ok by (apply page_run_touch; unfold allowed; by rewrite H). rewrite run_bind_modify.
    replace (u32 (v + 0)) with v by (rewrite Z.add_0_r, u32_small; done).
    destruct (IH (vma + 1) (with_data vma (u32 v) s)) as (s' & R & I' & A & Hh & D & T).
    + by apply page_inv_with_data.
    + intros a Ha. rewrite hardware_with_data. apply W. lia.
    + exists s'. split; [done|]. split; [done|]. split; [by rewrite A|].
      split; [intros p; by rewrite Hh, hardware_with_data|]. split; [intros a; by rewrite D, tag_with_data|].
      intros a. rewrite T, data_with_data by by eapply mapped_wad. rewrite u32_small by done.
      repeat destruct (decide _); try lia; done.
Qed.

(** ** One page *)

Lemma page_words vma a : (MemoryPage_Size | vma) ->
  MemoryPageNumber a = MemoryPageNumber vma <-> vma <= a < vma + MemoryPage_Size.
Proof.
  intros [k ->]. unfold MemoryPage_Size. rewrite !page_number. change (2 ^ 13) with 8192.
  rewrite Z.div_mul by lia. split.
  - intros <-. pose proof (Z.div_mod a 8192 ltac:(lia)). pose proof (Z.mod_pos_bound a 8192 ltac:(lia)). lia.
  - intros H. symmetry. apply Z.div_unique with (a - k * 8192); lia.
Qed.

Definition fresh_page (vma : Z) (s : VMMemory) : VMMemory :=
  with_attribute (MemoryPageNumber vma) 112 (set_wads (<[MemoryWadNumber vma := fresh_wad 3]> (wads s)) s).
Lemma run_ensure_fresh vma s : is_u32 vma -> present vma s = false -> WadCreated vma s = false ->
  mmap_wad (MemoryWadNumber vma) = true ->
  EnsureVirtualAddress mmap_wad vma false s = (Ok MemoryPage_Size, fresh_page vma s).
Proof.
  intros Hv Hp Hw Hm. unfold EnsureVirtualAddress. pose proof (page_in_table vma Hv) as Ht.
  erewrite bind_Ok by (by apply run_read_attribute). unfold present in Hp. rewrite Hp. rewrite run_bind_gets, Hw.
  rewrite run_bind_gets, Hm.
  assert (DefaultAttributes false false s = 112) as -> by (unfold DefaultAttributes; by rewrite andb_false_r).
  change (ComputeProtection 112) with 3. rewrite run_bind_modify. by erewrite bind_Ok by (by apply run_write_attribute).
Qed.

Lemma fresh_page_lookup vma a s : MemoryWadNumber a <> MemoryWadNumber vma ->
  tag_at a (fresh_page vma s) = tag_at a s /\ data_at a (fresh_page vma s) = data_at a s.
Proof. intros H. unfold tag_at, data_at. simpl. by rewrite !lookup_insert_ne by done. Qed.

Lemma run_repave_page vma s : page_inv s -> is_u32 vma -> (MemoryPage_Size | vma) -> present vma s = false ->
  WadCreated vma s = false -> mmap_wad (MemoryWadNumber vma) = true ->
  exists s1 s2 s', EnsureVirtualAddress mmap_wad vma false s = (Ok MemoryPage_Size, s1) /\
    fill_tags vm_extable host_pc (Z.to_nat MemoryPage_Size) vma 0xFF s1 = (Ok tt, s2) /\
    fill_data vm_extable host_pc (Z.to_nat MemoryPage_Size) vma 0xFFFFFFFF 0 s2 = (Ok tt, s') /\
    grown s s' /\ present vma s' = true.
Proof.
  intros I Hv Al Hp Hw Hm. pose proof (run_ensure_fresh vma s Hv Hp Hw Hm) as R1. set (s1 := fresh_page vma s) in *.
  assert (page_inv s1) as I1.
  { destruct (page_ok_EnsureVirtualAddress mmap_wad vma false s I) as [I1 _]. by rewrite R1 in I1. }
  assert (hardware (MemoryPageNumber vma) s1 = Some 3) as H1
    by (unfold s1, fresh_page; rewrite hardware_with_attribute; apply hardware_fresh).
  assert (forall t, (forall p, hardware p t = hardware p s1) -> writable_words (Z.to_nat MemoryPage_Size) vma t) as W.
  { intros t Ht a Ha. rewrite Ht. rewrite (proj2 (page_words vma a Al)); [done|].
    rewrite Z2Nat.id in Ha by (by compute). done. }
  destruct (run_fill_tags 0xFF ltac:(by compute) (Z.to_nat MemoryPage_Size) vma s1 I1 (W s1 (fun _ => eq_refl)))
    as (s2 & R2 & I2 & A2 & Hh2 & D2 & T2).
  destruct (run_fill_data 0xFFFFFFFF ltac:(by compute) (Z.to_nat MemoryPage_Size) vma s2 I2 (W s2 Hh2))
    as (s' & R3 & I3 & A3 & Hh3 & T3 & D3).
  rewrite Z2Nat.id in T2, D3 by (by compute).
  assert (forall p, attribute_at p s' = attribute_at p s1) as At by (intros p; unfold attribute_at; by rewrite A3, A2).
  assert (forall a, MemoryPageNumber a = MemoryPageNumber vma -> MemoryWadNumber a = MemoryWadNumber vma) as Pw
    by (intros a E; by rewrite !wad_of_page, E).
  assert (forall a, WadCreated a s = true -> MemoryWadNumber a <> MemoryWadNumber vma) as Nw.
  { intros a Ha E. unfold WadCreated in *. by rewrite E, Hw in Ha. }
  exists s1, s2, s'. do 3 (split; [done|]). split.
  - constructor; [done| | | |].
    + intros p Hc. rewrite At. unfold s1, fresh_page. rewrite attribute_with_ne; [done|]. intros <-.
      rewrite <- wad_of_page in Hc. unfold WadCreated in Hw. by rewrite Hc in Hw.
    + intros a Ha. pose proof (Nw a Ha) as Hn. rewrite T3, T2.
      destruct (decide _) as [Hd|_]; [|by apply fresh_page_lookup]. by destruct (Hn (Pw a (proj2 (page_words vma a Al) Hd))).
    + intros a Ha. pose proof (Nw a Ha) as Hn. rewrite D3, D2.
      destruct (decide _) as [Hd|_]; [|by apply fresh_page_lookup]. by destruct (Hn (Pw a (proj2 (page_words vma a Al) Hd))).
    + intros a Ha Hp' Hq. unfold present in Hp', Hq. rewrite At in Hp'.
      destruct (decide (MemoryPageNumber a = MemoryPageNumber vma)) as [E|E].
      * apply (page_words vma a Al) in E as Hd. rewrite T3, T2, D3. destruct (decide _); [|done].
        split; [|done]. unfold WadCreated in *. by rewrite (Pw a E).
      * unfold s1, fresh_page in Hp'. rewrite attribute_with_ne in Hp' by done.
        change (VMExists (attribute_at (MemoryPageNumber a) s) = true) in Hp'. by rewrite Hq in Hp'.
  - unfold present. rewrite At. unfold s1, fresh_page. by rewrite attribute_with_eq.
Qed.

(** ** The pages of a region *)

Definition region_page (origin page : Z) : Z := u32 (origin + u32 (page * MemoryPage_Size)).

Lemma region_page_aligned originQuantum page : (MemoryPage_Size | region_page (region_origin originQuantum) page).
Proof.
  unfold region_page, region_origin. rewrite u32_add_l, u32_add_r. unfold u32, MemoryPage_Size.
  rewrite Z.shiftl_mul_pow2 by done. change (2 ^ RegionQuantumAddressShift) with 65536.
  set (q := Z.land _ _). apply Z.mod_divide; [done|]. change (2 ^ 32) with (8192 * 524288).
  replace (q * 65536 + page * 8192) with ((q * 8 + page) * 8192) by lia.
  rewrite (Z.mul_comm 8192 524288), Zmult_mod_distr_r. by rewrite Z.mod_mul.
Qed.

Hypothesis Hmap : forall n, mmap_wad n = true.

Lemma run_repave_pages originQuantum : forall n page s, page_inv s ->
  let origin := region_origin originQuantum in
  exists s', repave_pages mmap_wad vm_extable host_pc n origin page s = (Ok tt, s') /\ grown s s' /\
    forall i, page <= i < page + Z.of_nat n -> WadCreated (region_page origin i) s' = true.
Proof.
  induction n as [|n IH]; intros page s I origin.
  - exists s. split; [done|]. split; [by apply grown_refl|]. intros i Hi. lia.
  - cbn [repave_pages]. cbv zeta. fold (region_page origin page). set (vma := region_page origin page).
    assert (is_u32 vma) as Hv by apply u32_range.
    pose proof (region_page_aligned originQuantum page : (MemoryPage_Size | vma)) as Al.
    assert (forall s1, grown s s1 -> WadCreated vma s1 = true ->
      exists s', repave_pages mmap_wad vm_extable host_pc n origin (page + 1) s1 = (Ok tt, s') /\ grown s s' /\
        forall i, page <= i < page + Z.of_nat (S n) -> WadCreated (region_page origin i) s' = true) as Go.
    { intros s1 G1 C1. destruct (IH (page + 1) s1 (grown_inv _ _ G1)) as (s' & R & G & C).
      exists s'. split; [done|]. split; [by eapply grown_trans|]. intros i Hi.
      destruct (decide (i = page)) as [->|]; [|apply C; lia]. unfold WadCreated in *. by eapply grown_created. }
    erewrite bind_Ok by (by apply run_RegionPageExistsP). destruct (present vma s) eqn:Ep.
    + apply Go; [by apply grown_refl|by apply present_wad].
    + unfold VirtualAddressWadMappedP. rewrite run_bind_gets. destruct (WadCreated vma s) eqn:Ew.
      * apply Go; [by apply grown_refl|done].
      * destruct (run_repave_page vma s I Hv Al Ep Ew (Hmap _)) as (s1 & s2 & s3 & R1 & R2 & R3 & G & P).
        erewrite bind_Ok by exact R1. change (MemoryPage_Size =? 0) with false. cbv iota.
        erewrite bind_Ok by exact R2. erewrite bind_Ok by exact R3. apply Go; [done|by apply present_wad].
Qed.

(** ** The regions *)

(** The pages of region [n] that lie below its free pointer, as the tables give them. *)
Definition region_pages (ob lb fb bb n : Z) (s : VMMemory) : option (Z * Z) :=
  match table_entry ob n s, table_entry lb n s, table_entry fb n s, table_entry bb n s with
  | Some o, Some l, Some f, Some b =>
      match stack_pages l f b with Some p => Some (region_origin o, p) | None => None end
  | _, _, _, _ => None
  end.

Lemma grown_entry base n s s' v : grown s s' -> table_entry base n s = Some v -> table_entry base n s' = Some v.
Proof.
  intros G. unfold table_entry. cbv zeta. set (vma := u32 _). destruct (present vma s) eqn:Ep; [|done].
  pose proof (present_wad _ _ Ep). by rewrite (grown_present _ _ _ G Ep), (grown_tag _ _ G), (grown_data _ _ G).
Qed.
Lemma grown_region ob lb fb bb n s s' x : grown s s' ->
  region_pages ob lb fb bb n s = Some x -> region_pages ob lb fb bb n s' = Some x.
Proof.
  intros G. unfold region_pages. destruct (table_entry ob n s) eqn:E1; [|done].
  destruct (table_entry lb n s) eqn:E2; [|done]. destruct (table_entry fb n s) eqn:E3; [|done].
  destruct (table_entry bb n s) eqn:E4; [|done]. by rewrite (grown_entry _ _ _ _ _ G E1), (grown_entry _ _ _ _ _ G E2), (grown_entry _ _ _ _ _ G E3),
      (grown_entry _ _ _ _ _ G E4).
Qed.

(** Every page of the region is in a mapped wad. *)
Definition repaved (r : option (Z * Z)) (s : VMMemory) : Prop :=
  match r with Some (o, p) => forall i, 0 <= i < p -> WadCreated (region_page o i) s = true | None => True end.
Lemma grown_repaved r s s' : grown s s' -> repaved r s -> repaved r s'.
Proof. destruct r as [[o p]|]; [|done]. intros G H i Hi. unfold WadCreated in *. eapply grown_created; [done|by apply H]. Qed.

Lemma run_repave_region ob lb fb bb n s : page_inv s ->
  exists s', repave_region mmap_wad vm_extable host_pc ob lb fb bb n s = (Ok tt, s') /\ grown s s' /\
    repaved (region_pages ob lb fb bb n s) s'.
Proof.
  intros I. unfold repave_region, region_pages.
  assert (exists s', (Ok tt, s) = (Ok tt, s') /\ grown s s' /\ True) as Done
    by (exists s; split; [done|]; split; [by apply grown_refl|done]).
  erewrite bind_Ok by (by apply run_ReadRegionTableEntry). destruct (table_entry ob n s) as [o|]; [|done].
  erewrite bind_Ok by (by apply run_ReadRegionTableEntry). destruct (table_entry lb n s) as [l|]; [|done].
  erewrite bind_Ok by (by apply run_ReadRegionTableEntry). destruct (table_entry fb n s) as [f|]; [|done].
  erewrite bind_Ok by (by apply run_ReadRegionTableEntry). destruct (table_entry bb n s) as [b|]; [|done].
  destruct (stack_pages l f b) as [p|]; [|done].
  destruct (run_repave_pages o (Z.to_nat p) 0 s I) as (s' & R & G & C). exists s'. split; [exact R|].
  split; [done|]. intros i Hi. apply C. lia.
Qed.

Lemma run_repave_regions ob lb fb bb : forall k n s, page_inv s ->
  exists s', repave_regions mmap_wad vm_extable host_pc k ob lb fb bb n s = (Ok tt, s') /\ grown s s' /\
    forall m, n <= m < n + Z.of_nat k -> repaved (region_pages ob lb fb bb m s) s'.
Proof.
  induction k as [|k IH]; intros n s I.
  - exists s. split; [done|]. split; [by apply grown_refl|]. intros m Hm. lia.
  - cbn [repave_regions]. destruct (run_repave_region ob lb fb bb n s I) as (s1 & R1 & G1 & C1).
    erewrite bind_Ok by exact R1. destruct (IH (n + 1) s1 (grown_inv _ _ G1)) as (s' & R & G & C).
    exists s'. split; [done|]. split; [by eapply grown_trans|]. intros m Hm.
    destruct (decide (m = n)) as [->|]; [by eapply grown_repaved|].
    destruct (region_pages ob lb fb bb m s) as [x|] eqn:Ex; [|done].
    rewrite <- (grown_region _ _ _ _ _ _ _ _ G1 Ex). apply C. lia.
Qed.

End memory.

(** ** A memory with region tables *)

Fixpoint write_all (l : list (Z * LispObjRecord)) : Mem unit :=
  match l with [] => ret tt | (a, o) :: l' => VirtualMemoryWrite [] 0 a o ;; write_all l' end.
(** Region 0 is a stack of two pages at 20000, none of which is loaded. *)
Definition region_tables : list (Z * LispObjRecord) :=
  [(RegionOriginTableCell, MakeLispObj Type_Array 0xF8041200); (RegionLengthTableCell, MakeLispObj Type_Array 0xF8041210);
   (RegionFreePointerTableCell, MakeLispObj Type_Array 0xF8041220); (RegionBitsTableCell, MakeLispObj Type_Array 0xF8041230);
   (0xF8041201, MakeLispObj Type_Fixnum 2); (0xF8041211, MakeLispObj Type_Fixnum 1);
   (0xF8041221, MakeLispObj Type_Fixnum 0x2001); (0xF8041231, MakeLispObj Type_Fixnum 0x20)].
Definition region_memory : VMMemory :=
  ((EnsureVirtualAddress all_mapped RegionOriginTableCell false ;; write_all region_tables) empty_memory).2.

Lemma ok_write_all l : returns page_inv (write_all l) (fun _ => True).
Proof.
  induction l as [|[a o] l IH]; [by apply returns_ret|].
  eapply returns_bind; [apply page_ok_VirtualMemoryWrite|]. by intros.
Qed.
Lemma region_memory_inv : page_inv region_memory.
Proof.
  assert (returns page_inv (EnsureVirtualAddress all_mapped RegionOriginTableCell false ;; write_all region_tables)
    (fun _ => True)) as H by (eapply returns_bind; [apply page_ok_EnsureVirtualAddress|intros; apply ok_write_all]).
  apply H, page_inv_initial, empty_memory_initial.
Qed.
Lemma data_words s : map_Forall (fun _ w => map_Forall (fun _ d => 0 <= d < 2 ^ 32) (wad_data w)) (wads s) ->
  forall a, is_u32 (data_at a s).
Proof.
  intros H a. unfold data_at. destruct (wads s !! MemoryWadNumber a) as [w|] eqn:Ew; [|done].
  destruct (wad_data w !! a) as [d|] eqn:Ed; [|done]. exact (H _ _ Ew _ _ Ed).
Qed.

