(* ===== verification/WorldFileSpec.v ===== *)
(** The words of a world file: a page holds what was put in it, a file what was written, and a
    world that is opened has the load map and the ancestry of the world that was saved. Before
    that, a host on which everything succeeds and small worlds on it, for the theorems at
    concrete inputs. *)

From S2P Require Export PageInvariant WorldSave WorldMergeSpec.
From S2P Require Export WorldFile WorldRepaveSpec.
#[local] Open Scope vlm_scope.

#[export] Instance willing_host : Host := {
  malloc_succeeds _ := true;
  may_read_file _ := true;
  may_write_file _ := true;
  transfers _ _ _ := true;
  grows _ _ := true;
  scan_directory _ := NoSuchDirectory;
  renames _ _ := true;
  mmap_wad _ := true;
  reserve_wad _ := true;
  vm_extable := [];
  host_pc := 0
}.

Definition quiet_host : HostState :=
  MkHostState empty_memory ∅ ∅ 0 ∅ 3 {[ 0 := unset_world ]} 1 (Some 0) None 0 0 [].

(** ** Merging *)

(** Pages of a file at an address. *)
Definition pages (world vma count page : Z) : LoadMapEntry :=
  MkLoadMapEntry vma count LoadMapDataPages (MakeLispObj Type_Fixnum page) world.
(** A base world of four pages, and a child that replaces the second. *)
Definition base_map : list LoadMapEntry := [pages 1 0 32768 0].
Definition child_map : list LoadMapEntry := [pages 2 8192 8192 0].

Lemma base_map_ordered : ordered 8192 0 base_map.
Proof. split; [|done]. constructor; [done|done|done|by exists 0|done]. Qed.
Lemma child_map_ordered : ordered 8192 0 child_map.
Proof. split; [|done]. constructor; [done|done|done|by exists 1|done]. Qed.
Lemma child_mergeable : mergeable 8192 child_map base_map.
Proof.
  constructor.
  - intros f b Hf%list_elem_of_singleton _ _ _. subst f. by exists 2.
  - intros f b _ Hb%list_elem_of_singleton D. subst b. by destruct D.
  - intros f Hf%list_elem_of_singleton _. subst f. exists (pages 1 0 32768 0). split; [by left|done].
Qed.


(** Two concrete merges the code does not get right. A child with an entry above its parent's
    reads beyond the parent's map, and an entry of the child that ends inside a page makes the
    rest of the parent's entry longer than it was. *)
Example MergeAMap_reads_beyond :
  (MergeAMap 10 1 [pages 2 65536 8192 0] 1 base_map quiet_host).1 = Undefined.
Proof. by vm_compute. Qed.
Example MergeAMap_lengthens_entry : exists m bg',
  (MergeAMap 10 1 [pages 2 0 8292 0] 1 base_map quiet_host).1 = Ok (2, Some m, bg') /\
  loaded 8192 base_map 32768 = None /\ loaded 8192 m 32768 = Some (FromFile 1 32768).
Proof. by do 2 eexists; split; [vm_compute; reflexivity|vm_compute]. Qed.

(** * The words of a world file: a page holds what was put in it, a file what was written, and a
    world that is opened has the load map and the ancestry of the world that was saved. *)

(** ** Bytes *)

Lemma word_of_bytes_of_word w : word_of_bytes (bytes_of_word w) = Some (u32 w).
Proof.
  unfold word_of_bytes, bytes_of_word, u32. f_equal. change (2 ^ 32) with (256 * (256 * (256 * 256))).
  rewrite !Z.rem_mul_r by lia. rewrite !Z.div_div by lia. change (256 * 256) with 65536.
  change (65536 * 256) with 16777216. lia.
Qed.
Lemma bytes_of_word_length w : length (bytes_of_word w) = 4%nat.
Proof. done. Qed.

Lemma word_at_ext l l' o : (forall i, o <= i < o + 4 -> l !! Z.to_nat i = l' !! Z.to_nat i) ->
  word_at l o = word_at l' o.
Proof.
  intros H. unfold word_at. destruct (Z.leb_spec 0 o) as [Ho|]; [|done]. f_equal. apply list_eq. intros i.
  destruct (decide (i < 4)%nat) as [Hi|Hi].
  - rewrite !lookup_take_lt, !lookup_drop by done.
    specialize (H (o + Z.of_nat i) ltac:(lia)). by rewrite Z2Nat.inj_add, Nat2Z.id in H by lia.
  - by rewrite !lookup_take_ge by lia.
Qed.

Lemma put_bytes_spec l o bs : 0 <= o -> o + Z.of_nat (length bs) <= Z.of_nat (length l) ->
  exists l', put_bytes l o bs = Some l' /\ length l' = length l /\
    (forall i, ~ (o <= i < o + Z.of_nat (length bs)) -> 0 <= i -> l' !! Z.to_nat i = l !! Z.to_nat i) /\
    (forall i, (i < length bs)%nat -> l' !! (Z.to_nat o + i)%nat = bs !! i).
Proof.
  intros Ho Hl. unfold put_bytes. destruct (Z.leb_spec 0 o); [|lia].
  destruct (Z.leb_spec (o + Z.of_nat (length bs)) (Z.of_nat (length l))); [|lia]. eexists. split; [done|].
  assert (length (take (Z.to_nat o) l) = Z.to_nat o) as Et by (rewrite length_take; lia).
  split; [rewrite !length_app, Et, length_drop; lia|]. split.
  - intros i Hi Hz. destruct (Z.lt_ge_cases i o).
    + rewrite lookup_app_l by (rewrite Et; lia). by rewrite lookup_take_lt by lia.
    + rewrite lookup_app_r by (rewrite Et; lia). rewrite lookup_app_r by (rewrite Et; lia).
      rewrite lookup_drop. f_equal. rewrite Et. lia.
  - intros i Hi. rewrite lookup_app_r by (rewrite Et; lia). rewrite lookup_app_l by (rewrite Et; lia).
    f_equal. rewrite Et. lia.
Qed.

Lemma word_at_put l o w l' : put_bytes l o (bytes_of_word w) = Some l' -> word_at l' o = Some (u32 w).
Proof.
  intros E. assert (0 <= o /\ o + 4 <= Z.of_nat (length l)) as [Ho Hl].
  { unfold put_bytes in E. rewrite bytes_of_word_length in E. destruct (Z.leb_spec 0 o); [|done].
    by destruct (Z.leb_spec (o + Z.of_nat 4) (Z.of_nat (length l))); [lia|]. }
  destruct (put_bytes_spec l o (bytes_of_word w) Ho Hl) as (l2 & E2 & _ & _ & B). rewrite E in E2.
  injection E2 as <-. unfold word_at. destruct (Z.leb_spec 0 o); [|lia]. rewrite <- word_of_bytes_of_word. f_equal.
  apply list_eq. intros i. destruct (decide (i < 4)%nat) as [Hi|Hi].
  - rewrite lookup_take_lt, lookup_drop by done. by apply B.
  - rewrite lookup_take_ge by lia. symmetry. apply lookup_ge_None. rewrite bytes_of_word_length. lia.
Qed.

(** ** The words of a page *)

(** A word as a page keeps it. *)
Definition kept (q : LispObjRecord) : LispObjRecord := MakeLispObj (u8 (LispObjTag q)) (u32 (LispObjData q)).

Lemma q_offsets n : 0 <= n < 256 ->
  tagOffset n = 20 * (n / 4) + n mod 4 /\ 4 * pointerOffset n = 20 * (n / 4) + 4 * (n mod 4) + 4 /\
  0 <= n / 4 < 64 /\ 0 <= n mod 4 < 4 /\ n = 4 * (n / 4) + n mod 4.
Proof.
  intros H. unfold tagOffset, pointerOffset. change 3 with (Z.ones 2).
  rewrite Z.land_ones, Z.shiftr_div_pow2 by done. change (2 ^ 2) with 4.
  pose proof (Z.div_mod n 4 ltac:(lia)). pose proof (Z.mod_pos_bound n 4 ltac:(lia)). lia.
Qed.

Lemma q_of_page_ext p p' n : 0 <= n < 256 ->
  (forall i, i = tagOffset n \/ 4 * pointerOffset n <= i < 4 * pointerOffset n + 4 -> p !! Z.to_nat i = p' !! Z.to_nat i) ->
  q_of_page p n = q_of_page p' n.
Proof.
  intros Hn H. destruct (q_offsets n Hn) as (Et & Ep & Hd & Hm & _). unfold q_of_page, nth_Z.
  destruct (Z.leb_spec 0 (tagOffset n)); [|lia]. rewrite (H (tagOffset n)) by by left.
  rewrite (word_at_ext p p') by (intros; apply H; by right). done.
Qed.

Lemma put_q_spec page n q : length page = Z.to_nat IvoryPageSizeBytes -> 0 <= n < IvoryPageSizeQs ->
  exists page', put_q page n q = Some page' /\ length page' = Z.to_nat IvoryPageSizeBytes /\
    q_of_page page' n = Some (kept q) /\
    forall m, 0 <= m < IvoryPageSizeQs -> m <> n -> q_of_page page' m = q_of_page page m.
Proof.
  unfold IvoryPageSizeBytes, IvoryPageSizeQs. intros L Hn. destruct (q_offsets n Hn) as (Et & Ep & Hd & Hm & En).
  unfold put_q. destruct (put_bytes_spec page (tagOffset n) [u8 (LispObjTag q)]) as (p1 & E1 & L1 & O1 & B1);
    [lia|rewrite L; simpl; lia|]. rewrite E1.
  destruct (put_bytes_spec p1 (4 * pointerOffset n) (bytes_of_word (LispObjData q))) as (p2 & E2 & L2 & O2 & B2);
    [lia|rewrite L1, L, bytes_of_word_length; lia|]. rewrite E2. exists p2.
  rewrite bytes_of_word_length in O2. cbn [length] in O1.
  split; [done|]. split; [by rewrite L2, L1, L|]. split.
  - unfold q_of_page. rewrite (word_at_put _ _ _ _ E2). unfold nth_Z.
    destruct (Z.leb_spec 0 (tagOffset n)); [|lia]. rewrite O2 by lia.
    specialize (B1 0%nat ltac:(simpl; lia)). rewrite Nat.add_0_r in B1. by rewrite B1.
  - intros m Hm' Hne. destruct (q_offsets m Hm') as (Et' & Ep' & Hd' & Hmm & En').
    apply q_of_page_ext; [done|]. intros i Hi. rewrite O2, O1 by lia. done.
Qed.
Lemma q_of_empty_length : length empty_page = Z.to_nat IvoryPageSizeBytes.
Proof. apply length_replicate. Qed.

(** ** Files *)

Lemma write_bytes_lookup l : forall o m i,
  write_bytes o l m !! i = if decide (o <= i < o + Z.of_nat (length l)) then l !! Z.to_nat (i - o) else m !! i.
Proof.
  induction l as [|b l IH]; intros o m i; cbn [write_bytes length].
  - destruct (decide _); [lia|done].
  - rewrite IH. destruct (decide (o + 1 <= i < o + 1 + Z.of_nat (length l))).
    + destruct (decide _); [|lia]. replace (Z.to_nat (i - o)) with (S (Z.to_nat (i - (o + 1)))) by lia. done.
    + destruct (decide (o = i)) as [->|].
      * rewrite lookup_insert_eq. destruct (decide _); [|lia]. by rewrite Z.sub_diag.
      * rewrite lookup_insert_ne by done. destruct (decide _); [lia|done].
Qed.
Lemma file_write_byte f o l i :
  file_byte (file_write f o l) i =
  if decide (o <= i < o + Z.of_nat (length l)) then default 0 (l !! Z.to_nat (i - o)) else file_byte f i.
Proof.
  unfold file_write, file_byte. destruct l as [|b l]; [destruct (decide _); [simpl in *; lia|done]|].
  cbn [file_bytes]. rewrite write_bytes_lookup. by destruct (decide _).
Qed.
Lemma file_write_size f o l : l <> [] -> file_size (file_write f o l) = Z.max (file_size f) (o + Z.of_nat (length l)).
Proof. by destruct l. Qed.

Lemma file_read_length f o n : length (file_read f o n) = n.
Proof. unfold file_read. by rewrite length_map, length_seq. Qed.
Lemma file_read_lookup f o n i : (i < n)%nat -> file_read f o n !! i = Some (file_byte f (o + Z.of_nat i)).
Proof. intros H. unfold file_read. by rewrite list_lookup_fmap, lookup_seq_lt by done. Qed.
Lemma file_read_ext f f' o n : (forall i, o <= i < o + Z.of_nat n -> file_byte f i = file_byte f' i) ->
  file_read f o n = file_read f' o n.
Proof. intros H. apply map_ext_in. intros i Hi%in_seq. apply H. lia. Qed.
Lemma file_read_written f o l : file_read (file_write f o l) o (length l) = l.
Proof.
  apply list_eq. intros i. destruct (decide (i < length l)%nat) as [Hi|Hi].
  - rewrite file_read_lookup, file_write_byte by done. destruct (decide _); [|lia].
    replace (Z.to_nat (o + Z.of_nat i - o)) with i by lia. by destruct (lookup_lt_is_Some_2 l i Hi) as [b ->].
  - rewrite !(proj2 (lookup_ge_None _ _)); [done|lia|rewrite file_read_length; lia].
Qed.
Lemma file_read_apart f o l o' n : o' + Z.of_nat n <= o \/ o + Z.of_nat (length l) <= o' ->
  file_read (file_write f o l) o' n = file_read f o' n.
Proof. intros H. apply file_read_ext. intros i Hi. rewrite file_write_byte. destruct (decide _); [lia|done]. Qed.

(** Page [p] of a file, and word [n] of the words a file holds. *)
Definition file_page (f : File) (p : Z) : list Z := file_read f (p * IvoryPageSizeBytes) (Z.to_nat IvoryPageSizeBytes).
Definition file_q (f : File) (n : Z) : option LispObjRecord := q_of_page (file_page f (n / IvoryPageSizeQs)) (n mod IvoryPageSizeQs).
(** The file has whole pages with these words. *)
Definition file_holds (f : File) (qs : list LispObjRecord) : Prop :=
  (forall i q, qs !! i = Some q -> file_q f (Z.of_nat i) = Some (kept q)) /\
  forall i, (i < length qs)%nat -> (Z.of_nat i / IvoryPageSizeQs + 1) * IvoryPageSizeBytes <= file_size f.

(** ** Writing words in order *)

Section writer.
Context {host : Host} (w ino fdn : Z) (x0 : World) (h0 : HostState).
Context (Htransfers : forall f o n, transfers f o n = true) (Hfd : fd x0 = fdn).

(** The buffer of the world that is written, its place, and the file so far. *)
Record Writer := MkWriter { w_page : list Z; w_number : Z; w_q : Z; w_file : File; w_offset : Z }.
Definition writer_world (st : Writer) : World :=
  set_currentPageNumber (w_number st) (set_currentQNumber (w_q st) (set_ivoryDataPage (Some (w_page st)) x0)).
Definition writer_host (st : Writer) : HostState :=
  set_world_store (<[w := writer_world st]> (world_store h0))
    (set_inodes (<[ino := w_file st]> (inodes h0))
      (set_descriptors (<[fdn := MkDescriptor ino (w_offset st)]> (descriptors h0)) h0)).
Definition at_offset (o : Z) (st : Writer) : Writer := MkWriter (w_page st) (w_number st) (w_q st) (w_file st) o.
Definition with_file (f : File) (st : Writer) : Writer := MkWriter (w_page st) (w_number st) (w_q st) f (w_offset st).

Lemma run_get {A} (f : World -> A) st : get_world f w (writer_host st) = (Ok (f (writer_world st)), writer_host st).
Proof.
  unfold get_world, world_at. rewrite run_bind_assoc, run_bind_gets. by rewrite (run_bind_option (writer_world st)) by apply lookup_insert_eq.
Qed.
Lemma run_assign (g : World -> World) st st' : w_file st' = w_file st -> w_offset st' = w_offset st ->
  g (writer_world st) = writer_world st' -> assign w g (writer_host st) = (Ok tt, writer_host st').
Proof.
  intros Ef Eo E. unfold assign, world_at. rewrite run_bind_assoc, run_bind_gets.
  rewrite (run_bind_option (writer_world st)) by apply lookup_insert_eq. unfold modify, writer_host. simpl.
  rewrite E, Ef, Eo. unfold set_world_store. simpl. by rewrite insert_insert_eq.
Qed.
Lemma run_lseek o st : 0 <= o -> lseek fdn o (writer_host st) = (Ok true, writer_host (at_offset o st)).
Proof.
  intros Ho. unfold lseek, seek_to. destruct (Z.ltb_spec o 0); [lia|]. rewrite !run_bind_assoc, run_bind_gets, run_bind_assoc.
  erewrite run_bind_option by apply lookup_insert_eq. rewrite run_bind_modify. unfold writer_host, set_descriptors. simpl.
  by rewrite insert_insert_eq.
Qed.
Lemma run_file_of st : file_of fdn (writer_host st) = (Ok (w_file st), writer_host st).
Proof.
  unfold file_of. rewrite run_bind_gets. erewrite run_bind_option by apply lookup_insert_eq. rewrite run_bind_gets.
  simpl. by rewrite lookup_insert_eq.
Qed.
Lemma run_offset_of st : offset_of fdn (writer_host st) = (Ok (w_offset st), writer_host st).
Proof. unfold offset_of. rewrite run_bind_gets. by erewrite run_bind_option by apply lookup_insert_eq. Qed.
Lemma run_replace_file f st : replace_file fdn f (writer_host st) = (Ok tt, writer_host (with_file f st)).
Proof.
  unfold replace_file. rewrite run_bind_gets. erewrite run_bind_option by apply lookup_insert_eq.
  unfold modify, writer_host, set_inodes. simpl. by rewrite insert_insert_eq.
Qed.
Lemma run_seek_to o st : seek_to fdn o (writer_host st) = (Ok tt, writer_host (at_offset o st)).
Proof.
  unfold seek_to. rewrite run_bind_gets. erewrite run_bind_option by apply lookup_insert_eq.
  unfold modify, writer_host, set_descriptors. simpl. by rewrite insert_insert_eq.
Qed.
Lemma run_c_write l st : c_write fdn l (writer_host st) =
  (Ok true, writer_host (at_offset (w_offset st + Z.of_nat (length l)) (with_file (file_write (w_file st) (w_offset st) l) st))).
Proof.
  unfold c_write. erewrite bind_Ok by apply run_file_of. erewrite bind_Ok by apply run_offset_of. rewrite Htransfers.
  erewrite bind_Ok by apply run_replace_file. by erewrite bind_Ok by apply run_seek_to.
Qed.

Definition blank_page (p : Z) (st : Writer) : Writer := MkWriter empty_page p 0 (w_file st) (w_offset st).
Lemma run_Prepare p st : PrepareToWriteIvoryWorldFilePage w p (writer_host st) = (Ok tt, writer_host (blank_page p st)).
Proof.
  unfold PrepareToWriteIvoryWorldFilePage.
  erewrite bind_Ok by (by apply (run_assign _ st (MkWriter (w_page st) p (w_q st) (w_file st) (w_offset st)))).
  erewrite bind_Ok by (by apply (run_assign _ _ (MkWriter (w_page st) p 0 (w_file st) (w_offset st)))).
  by apply (run_assign _ _ (blank_page p st)).
Qed.

(** The page is written at its place and an empty one follows it. *)
Definition flushed (st : Writer) : Writer :=
  MkWriter empty_page (w_number st + 1) 0 (file_write (w_file st) (w_number st * IvoryPageSizeBytes) (w_page st))
    (w_number st * IvoryPageSizeBytes + Z.of_nat (length (w_page st))).
Lemma run_flush st : w_q st <> 0 -> 0 <= w_number st < 2 ^ 20 ->
  WriteIvoryWorldFilePage w (writer_host st) = (Ok tt, writer_host (flushed st)).
Proof.
  intros Hq Hn. unfold WriteIvoryWorldFilePage. erewrite bind_Ok by apply run_get.
  change (currentQNumber (writer_world st)) with (w_q st). destruct (Z.eqb_spec (w_q st) 0); [done|].
  erewrite bind_Ok by apply run_get. change (currentPageNumber (writer_world st)) with (w_number st). cbv zeta.
  rewrite s32_small by (unfold is_s32, IvoryPageSizeBytes; lia).
  erewrite bind_Ok by apply run_get. change (fd (writer_world st)) with (fd x0). rewrite Hfd.
  erewrite bind_Ok by (apply run_lseek; unfold IvoryPageSizeBytes; lia). cbn [negb].
  erewrite bind_Ok by apply run_get. change (ivoryDataPage (writer_world st)) with (Some (w_page st)).
  rewrite (run_bind_option (w_page st)) by done.
  erewrite bind_Ok by apply run_c_write. cbn [negb].
  erewrite bind_Ok.
  2: { set (s1 := at_offset _ _). apply (run_assign _ s1 (MkWriter (w_page st) (w_number st + 1) (w_q st) (w_file s1) (w_offset s1))); done. }
  erewrite bind_Ok by apply run_get. apply run_Prepare.
Qed.

(** ** The words so far *)

Record writing (st : Writer) (qs : list LispObjRecord) : Prop := {
  writing_page : length (w_page st) = Z.to_nat IvoryPageSizeBytes;
  writing_q : 0 <= w_q st <= IvoryPageSizeQs;
  writing_number : 0 <= w_number st;
  writing_length : Z.of_nat (length qs) = w_number st * IvoryPageSizeQs + w_q st;
  writing_buffer i q : 0 <= i < w_q st -> qs !! Z.to_nat (w_number st * IvoryPageSizeQs + i) = Some q ->
    q_of_page (w_page st) i = Some (kept q);
  writing_file i q : Z.of_nat i < w_number st * IvoryPageSizeQs -> qs !! i = Some q ->
    file_q (w_file st) (Z.of_nat i) = Some (kept q);
  writing_size : w_number st * IvoryPageSizeBytes <= file_size (w_file st)
}.

Lemma page_words_apart f p p' l : length l = Z.to_nat IvoryPageSizeBytes -> p <> p' ->
  file_page (file_write f (p * IvoryPageSizeBytes) l) p' = file_page f p'.
Proof. intros L H. apply file_read_apart. rewrite L. unfold IvoryPageSizeBytes in *. lia. Qed.
Lemma page_written f p l : length l = Z.to_nat IvoryPageSizeBytes ->
  file_page (file_write f (p * IvoryPageSizeBytes) l) p = l.
Proof. intros L. unfold file_page. rewrite <- L. apply file_read_written. Qed.

Lemma q_place i : i = i / IvoryPageSizeQs * IvoryPageSizeQs + i mod IvoryPageSizeQs /\ 0 <= i mod IvoryPageSizeQs < IvoryPageSizeQs.
Proof.
  unfold IvoryPageSizeQs. pose proof (Z.div_mod i 256 ltac:(lia)). pose proof (Z.mod_pos_bound i 256 ltac:(lia)). lia.
Qed.

(** Everything up to and with the page of the buffer is in the file once it is flushed. *)
Lemma flushed_file st qs : writing st qs -> forall i q, qs !! i = Some q ->
  file_q (w_file (flushed st)) (Z.of_nat i) = Some (kept q).
Proof.
  intros [L Q N Ln B F S] i q E. destruct (q_place (Z.of_nat i)) as [Ei Hm].
  assert (Z.of_nat i < Z.of_nat (length qs)) as Hi by (apply lookup_lt_Some in E; lia).
  unfold file_q. simpl. destruct (decide (Z.of_nat i / IvoryPageSizeQs = w_number st)) as [Ep|Ep].
  - rewrite Ep, page_written by done. apply B; [unfold IvoryPageSizeQs in *; lia|].
    rewrite <- Ep, <- Ei. by rewrite Nat2Z.id.
  - rewrite page_words_apart by (done || lia). apply F; [|done]. unfold IvoryPageSizeQs in *. lia.
Qed.

Lemma writing_flushed st qs : writing st qs -> w_q st = IvoryPageSizeQs -> writing (flushed st) qs.
Proof.
  intros W Eq. pose proof (flushed_file st qs W) as F. destruct W as [L Q N Ln B _ S].
  constructor; simpl; try (unfold IvoryPageSizeQs in *; lia).
  - apply q_of_empty_length.
  - intros i q _. apply F.
  - rewrite file_write_size by (intros E; by rewrite E in L). rewrite L. unfold IvoryPageSizeBytes in *. lia.
Qed.

Lemma writing_nothing st : w_page st = empty_page -> w_number st = 0 -> w_q st = 0 -> 0 <= file_size (w_file st) -> writing st [].
Proof.
  intros L N Q S. constructor; rewrite ?L, ?N, ?Q. all: match goal with |- forall _, _ => intros; lia | _ => idtac end. all: first [apply q_of_empty_length|unfold IvoryPageSizeQs; simpl; lia].
Qed.

Lemma run_WriteNextQ q st qs : writing st qs -> Z.of_nat (length qs) < 2 ^ 28 ->
  exists st', WriteIvoryWorldFileNextQ w q (writer_host st) = (Ok tt, writer_host st') /\
    writing st' (qs ++ [q]) /\ 0 < w_q st'.
Proof.
  intros W Hl. unfold WriteIvoryWorldFileNextQ. erewrite bind_Ok by apply run_get. change (currentQNumber (writer_world st)) with (w_q st).
  set (st1 := if IvoryPageSizeQs <=? w_q st then flushed st else st).
  assert (writing st1 qs /\ w_q st1 < IvoryPageSizeQs) as [W1 Hq].
  { unfold st1. pose proof (writing_q _ _ W). destruct (Z.leb_spec IvoryPageSizeQs (w_q st)); [|done].
    split; [apply writing_flushed; [done|lia]|done]. }
  erewrite (bind_Ok _ _ _ tt (writer_host st1)).
  2: { unfold st1, when. destruct (Z.leb_spec IvoryPageSizeQs (w_q st)); [|done]. pose proof (writing_number _ _ W).
       pose proof (writing_length _ _ W). apply run_flush; unfold IvoryPageSizeQs in *; lia. }
  clearbody st1. clear W st. destruct W1 as [L Q N Ln B F S].
  erewrite bind_Ok by apply run_get. change (currentQNumber (writer_world st1)) with (w_q st1).
  erewrite bind_Ok by apply run_get. change (ivoryDataPage (writer_world st1)) with (Some (w_page st1)).
  rewrite (run_bind_option (w_page st1)) by done.
  destruct (put_q_spec (w_page st1) (w_q st1) q L ltac:(lia)) as (page & E & L' & Pq & Po). rewrite (run_bind_option page) by done.
  erewrite bind_Ok by (by apply (run_assign _ st1 (MkWriter page (w_number st1) (w_q st1) (w_file st1) (w_offset st1)))).
  exists (MkWriter page (w_number st1) (w_q st1 + 1) (w_file st1) (w_offset st1)). split; [by apply run_assign|].
  split; [|simpl; lia]. constructor; simpl; try done; try lia.
  - rewrite length_app. simpl. lia.
  - intros i q' Hi. destruct (decide (i = w_q st1)) as [->|Hne].
    + rewrite <- Ln, Nat2Z.id, lookup_app_r, Nat.sub_diag by done. by intros [= <-].
    + intros E'. rewrite Po by lia. apply B; [lia|]. rewrite lookup_app_l in E' by (unfold IvoryPageSizeQs in *; lia). done.
  - intros i q' Hi E'. apply F; [done|]. rewrite lookup_app_l in E' by lia. done.
Qed.

(** The words of a list, in order. *)
Fixpoint write_qs (l : list LispObjRecord) : Hst unit :=
  match l with [] => ret tt | q :: l' => WriteIvoryWorldFileNextQ w q ;; write_qs l' end.
Lemma run_write_qs l : forall st qs, writing st qs -> Z.of_nat (length qs + length l) < 2 ^ 28 ->
  exists st', write_qs l (writer_host st) = (Ok tt, writer_host st') /\ writing st' (qs ++ l) /\
    (0 < w_q st \/ l <> [] -> 0 < w_q st').
Proof.
  induction l as [|q l IH]; intros st qs W Hl; cbn [write_qs length] in *.
  - exists st. split; [done|]. split; [by rewrite app_nil_r|]. by intros [?|?].
  - destruct (run_WriteNextQ q st qs W ltac:(lia)) as (st1 & R1 & W1 & Q1). erewrite bind_Ok by exact R1.
    destruct (IH st1 (qs ++ [q]) W1) as (st' & R & W' & Q'); [rewrite length_app; simpl; lia|].
    exists st'. split; [done|]. rewrite <- app_assoc in W'. split; [done|]. intros _. apply Q'. by left.
Qed.

(** The last page is flushed, and the file holds all the words. *)
Lemma run_finish st qs : writing st qs -> 0 < w_q st -> Z.of_nat (length qs) < 2 ^ 28 ->
  WriteIvoryWorldFilePage w (writer_host st) = (Ok tt, writer_host (flushed st)) /\ file_holds (w_file (flushed st)) qs.
Proof.
  intros W Hq Hl. pose proof (writing_number _ _ W). pose proof (writing_length _ _ W) as Ln.
  split; [apply run_flush; unfold IvoryPageSizeQs in *; lia|]. split; [by apply flushed_file|].
  intros i Hi. simpl. pose proof (writing_page _ _ W) as L. rewrite file_write_size by (intros E; by rewrite E in L).
  rewrite L. destruct (q_place (Z.of_nat i)) as [Ei Hm]. pose proof (writing_q _ _ W).
  unfold IvoryPageSizeQs, IvoryPageSizeBytes in *. nia.
Qed.
End writer.

(** ** Reading words in order *)

Section reader.
Context {host : Host} (v ino fdn : Z) (f : File).
Context (Htransfers : forall g o n, transfers g o n = true).

Lemma get_run {A} (g : World -> A) x h : world_store h !! v = Some x -> get_world g v h = (Ok (g x), h).
Proof.
  intros E. unfold get_world, world_at. rewrite run_bind_assoc, run_bind_gets. by rewrite (run_bind_option x).
Qed.
Definition put_world (x : World) (h : HostState) : HostState := set_world_store (<[v := x]> (world_store h)) h.
Lemma assign_run g x h : world_store h !! v = Some x -> assign v g h = (Ok tt, put_world (g x) h).
Proof. intros E. unfold assign, world_at. rewrite run_bind_assoc, run_bind_gets. by rewrite (run_bind_option x). Qed.

Definition seek (o : Z) (h : HostState) : HostState := set_descriptors (<[fdn := MkDescriptor ino o]> (descriptors h)) h.
Lemma lseek_run o d h : descriptors h !! fdn = Some (MkDescriptor ino d) -> 0 <= o -> lseek fdn o h = (Ok true, seek o h).
Proof.
  intros E Ho. unfold lseek, seek_to. destruct (Z.ltb_spec o 0); [lia|].
  rewrite run_bind_assoc, run_bind_gets, run_bind_assoc. by erewrite run_bind_option by exact E.
Qed.
Lemma c_read_run o n g h : descriptors h !! fdn = Some (MkDescriptor ino o) -> inodes h !! ino = Some g ->
  o + Z.of_nat n <= file_size g -> c_read fdn n h = (Ok (Some (file_read g o n)), seek (o + Z.of_nat n) h).
Proof.
  intros D F Hs. unfold c_read. erewrite (bind_Ok _ _ _ g h).
  2: { unfold file_of. rewrite run_bind_gets. erewrite run_bind_option by exact D. rewrite run_bind_gets. cbn [descriptor_file].
       by rewrite F. }
  erewrite (bind_Ok _ _ _ o h) by (unfold offset_of; rewrite run_bind_gets; by erewrite run_bind_option by exact D).
  rewrite Htransfers, andb_true_r. destruct (Z.leb_spec (o + Z.of_nat n) (file_size g)); [|lia].
  unfold seek_to. rewrite run_bind_assoc, run_bind_gets, run_bind_assoc. by erewrite run_bind_option by exact D.
Qed.

(** The world [x] reads the file; the next word is word [n]. *)
Record reading (n : Z) (x : World) (h : HostState) : Prop := {
  reading_world : world_store h !! v = Some x;
  reading_fd : fd x = fdn;
  reading_descriptor : exists o, descriptors h !! fdn = Some (MkDescriptor ino o);
  reading_file : inodes h !! ino = Some f;
  reading_page : ivoryDataPage x = Some (file_page f (currentPageNumber x));
  reading_number : 0 <= currentPageNumber x;
  reading_q : 0 <= currentQNumber x <= IvoryPageSizeQs;
  reading_next : n = currentPageNumber x * IvoryPageSizeQs + currentQNumber x
}.
(** Reading moves the buffer only. *)
Definition moved (page : option (list Z)) (p q : Z) (x : World) : World :=
  set_currentPageNumber p (set_currentQNumber q (set_ivoryDataPage page x)).

Lemma reading_assign n x h g : reading n x h -> fd (g x) = fd x -> ivoryDataPage (g x) = ivoryDataPage x ->
  currentPageNumber (g x) = currentPageNumber x -> currentQNumber (g x) = currentQNumber x ->
  exists h', assign v g h = (Ok tt, h') /\ reading n (g x) h'.
Proof.
  intros [W Fd D F P N Q Nx] E1 E2 E3 E4. exists (put_world (g x) h). split; [by apply assign_run|].
  constructor; rewrite ?E1, ?E2, ?E3, ?E4; try done. apply lookup_insert_eq.
Qed.
Lemma reading_seek n x h m : reading n x h -> n < IvoryPageSizeQs -> 0 <= m < IvoryPageSizeQs ->
  exists h', assign v (set_currentQNumber m) h = (Ok tt, h') /\ reading m (set_currentQNumber m x) h'.
Proof.
  intros [W Fd D F P N Q Nx] Hn Hm. exists (put_world (set_currentQNumber m x) h). split; [by apply assign_run|].
  constructor; try done; simpl; [apply lookup_insert_eq|lia|unfold IvoryPageSizeQs in *; lia].
Qed.

(** A page that exists is read. *)
Lemma run_read_page p x h : world_store h !! v = Some x -> fd x = fdn ->
  (exists o, descriptors h !! fdn = Some (MkDescriptor ino o)) -> inodes h !! ino = Some f ->
  0 <= p < 2 ^ 20 -> currentPageNumber x <> p -> (p + 1) * IvoryPageSizeBytes <= file_size f ->
  exists h', ReadIvoryWorldFilePage v p h = (Ok tt, h') /\
    world_store h' !! v = Some (set_currentPageNumber p (set_ivoryDataPage (Some (file_page f p)) x)) /\
    (exists o, descriptors h' !! fdn = Some (MkDescriptor ino o)) /\ inodes h' = inodes h.
Proof.
  intros W Fd [o D] F Hp Hne Hs. unfold ReadIvoryWorldFilePage. erewrite bind_Ok by (by apply get_run).
  destruct (Z.eqb_spec (currentPageNumber x) p); [done|]. cbv zeta.
  rewrite s32_small by (unfold is_s32, IvoryPageSizeBytes; lia).
  erewrite bind_Ok by (by apply get_run). rewrite Fd.
  erewrite bind_Ok by (eapply lseek_run; [exact D|unfold IvoryPageSizeBytes; lia]). cbn [negb].
  erewrite bind_Ok.
  2: { eapply c_read_run; [apply lookup_insert_eq|exact F|unfold IvoryPageSizeBytes in *; lia]. }
  cbv beta iota. fold (file_page f p). erewrite bind_Ok by (by apply assign_run). erewrite assign_run by apply lookup_insert_eq.
  eexists. split; [done|]. split; [apply lookup_insert_eq|]. split; [|done]. eexists. apply lookup_insert_eq.
Qed.

Context (qs : list LispObjRecord) (Hholds : file_holds f qs) (Hlen : Z.of_nat (length qs) < 2 ^ 28).

Lemma file_word n q : qs !! Z.to_nat n = Some q -> 0 <= n -> file_q f n = Some (kept q).
Proof. intros E Hn. destruct Hholds as [H _]. rewrite <- (Z2Nat.id n) by done. by apply H. Qed.

Lemma run_ReadQ x h i q n : reading n x h -> n < IvoryPageSizeQs -> 0 <= i < IvoryPageSizeQs ->
  qs !! Z.to_nat i = Some q -> ReadIvoryWorldFileQ v i h = (Ok (kept q), h).
Proof.
  intros [W Fd D F P N Q Nx] Hn Hi E. unfold ReadIvoryWorldFileQ.
  destruct (Z.ltb_spec i 0); [lia|]. destruct (Z.leb_spec IvoryPageSizeQs i); [lia|]. cbn [orb].
  erewrite bind_Ok by (by apply get_run). rewrite P. cbv beta.
  rewrite (run_bind_option (file_page f (currentPageNumber x))) by done.
  assert (currentPageNumber x = 0) as -> by (unfold IvoryPageSizeQs in *; lia).
  pose proof (file_word i q E ltac:(lia)) as Ef. unfold file_q in Ef.
  rewrite Z.div_small, Z.mod_small in Ef by done. by rewrite Ef.
Qed.

Lemma run_NextQ n x h q : reading n x h -> qs !! Z.to_nat n = Some q ->
  exists x' h' page a b, ReadIvoryWorldFileNextQ v h = (Ok (kept q), h') /\ reading (n + 1) x' h' /\ x' = moved page a b x.
Proof.
  intros R E. pose proof R as [W Fd D F P N Q Nx]. unfold ReadIvoryWorldFileNextQ.
  assert (0 <= n) as Hn by (unfold IvoryPageSizeQs in *; lia).
  assert (Z.to_nat n < length qs)%nat as Hl by by apply lookup_lt_Some in E.
  erewrite bind_Ok by (by apply get_run).
  assert (exists x1 h1 page a b, loop (S (Z.to_nat (currentQNumber x / IvoryPageSizeQs))) (next_page_turn v) tt h = (Ok tt, h1) /\
    reading n x1 h1 /\ currentQNumber x1 < IvoryPageSizeQs /\ x1 = moved page a b x) as
    (x1 & h1 & page & a & b & R1 & G1 & Hq & Ex).
  { destruct (Z.lt_ge_cases (currentQNumber x) IvoryPageSizeQs) as [Hlt|Hge].
    - exists x, h, (ivoryDataPage x), (currentPageNumber x), (currentQNumber x).
      split; [|split; [done|split; [done|by destruct x]]].
      cbn [loop]. unfold next_page_turn at 1. rewrite run_bind_assoc. erewrite bind_Ok by (by apply get_run).
      by destruct (Z.leb_spec IvoryPageSizeQs (currentQNumber x)); [lia|].
    - assert (currentQNumber x = IvoryPageSizeQs) as Eq by lia. rewrite Eq. change (S (Z.to_nat (IvoryPageSizeQs / IvoryPageSizeQs))) with 2%nat.
      cbn [loop]. unfold next_page_turn at 1. rewrite run_bind_assoc. erewrite bind_Ok by (by apply get_run). rewrite Eq.
      destruct (Z.leb_spec IvoryPageSizeQs IvoryPageSizeQs); [|lia]. rewrite run_bind_assoc.
      erewrite bind_Ok by (by apply get_run). set (p := currentPageNumber x + 1).
      destruct Hholds as [_ Hs]. specialize (Hs _ Hl). rewrite Z2Nat.id in Hs by done.
      assert (n / IvoryPageSizeQs = p) as En
        by (unfold p; rewrite Nx, Eq; unfold IvoryPageSizeQs; symmetry; apply Z.div_unique with 0; lia).
      rewrite En in Hs.
      destruct (run_read_page p x h W Fd D F) as (h1 & R1 & W1 & D1 & F1);
        [unfold p, IvoryPageSizeQs in *; lia|unfold p; lia|done|].
      rewrite run_bind_assoc. erewrite bind_Ok by exact R1. rewrite run_bind_assoc.
      erewrite bind_Ok by (by apply assign_run). rewrite run_bind_ret.
      unfold next_page_turn at 1. rewrite run_bind_assoc. erewrite bind_Ok by (apply get_run, lookup_insert_eq).
      cbn [currentQNumber set_currentQNumber set_currentPageNumber set_ivoryDataPage]. rewrite Eq.
      destruct (Z.leb_spec IvoryPageSizeQs (IvoryPageSizeQs - IvoryPageSizeQs)); [unfold IvoryPageSizeQs in *; lia|].
      eexists (moved (Some (file_page f p)) p (IvoryPageSizeQs - IvoryPageSizeQs) x), _, _, _, _.
      split; [done|]. split; [|split; [done|done]].
      constructor; simpl; try done; [|by rewrite F1|unfold p; lia|unfold p, IvoryPageSizeQs in *; lia].
      rewrite lookup_insert_eq. unfold moved. by rewrite ?Eq. }
  erewrite bind_Ok by exact R1. destruct G1 as [W1 Fd1 D1 F1 P1 N1 Q1 Nx1].
  erewrite bind_Ok by (by apply get_run).
  erewrite (bind_Ok _ _ _ (kept q) h1).
  2: { unfold ReadIvoryWorldFileQ. destruct (Z.ltb_spec (currentQNumber x1) 0); [lia|].
       destruct (Z.leb_spec IvoryPageSizeQs (currentQNumber x1)); [lia|]. cbn [orb].
       erewrite bind_Ok by (by apply get_run). rewrite P1. cbv beta. rewrite (run_bind_option (file_page f (currentPageNumber x1))) by done.
       pose proof (file_word n q E Hn) as Ef. unfold file_q in Ef.
       assert (n / IvoryPageSizeQs = currentPageNumber x1 /\ n mod IvoryPageSizeQs = currentQNumber x1) as [E1 E2]
         by (unfold IvoryPageSizeQs in *; split; symmetry; [apply Z.div_unique with (currentQNumber x1)|apply Z.mod_unique with (currentPageNumber x1)]; lia).
       rewrite E1, E2 in Ef. by rewrite Ef. }
  erewrite bind_Ok by (by apply assign_run).
  eexists (set_currentQNumber (currentQNumber x1 + 1) x1), _, page, a, (b + 1). split; [done|].
  split; [constructor; simpl; try done; [apply lookup_insert_eq|lia|lia]|]. by subst x1.
Qed.
End reader.

(** ** The header *)

Definition entry_words (e : LoadMapEntry) : list LispObjRecord :=
  [MakeLispObj Type_Locative (address e); MakeLispObj Type_Fixnum (op_word e); entry_data e].
Definition map_words (es : list LoadMapEntry) : list LispObjRecord := flat_map entry_words es.
(** The words of the header: the version, the count, the bases, what the slots of the
    communications area say about the ancestry, and the load map. *)
Definition header_words (n pageBases : Z) (slot : Z -> LispObjRecord) (es : list LoadMapEntry) : list LispObjRecord :=
  [MakeLispObj (normal Type_Fixnum) VLMVersion2AndArchitecture; MakeLispObj (normal Type_SmallRatio) (u32 n);
   MakeLispObj (normal Type_SingleFloat) pageBases;
   MakeLispObj (normal Type_Character) (LispObjData (slot sysoutGenerationNumber));
   slot sysoutTimestamp1_slot; slot sysoutTimestamp2_slot; slot sysoutParentTimestamp1_slot;
   slot sysoutParentTimestamp2_slot] ++ map_words es.

(** An entry whose fields have the widths of the structure. *)
Record entry_fits (e : LoadMapEntry) : Prop := {
  fits_address : is_u32 (address e);
  fits_count : 0 <= op_count e < 2 ^ 24;
  fits_opcode : 0 <= op_opcode e < 256;
  fits_tag : is_u8 (LispObjTag (entry_data e));
  fits_data : is_u32 (LispObjData (entry_data e))
}.

Section header.
Context {host : Host} (w ino fdn : Z) (x0 : World) (h0 : HostState).
Context (Htransfers : forall f o n, transfers f o n = true) (Hgrows : forall f n, grows f n = true) (Hfd : fd x0 = fdn).
#[local] Abbreviation writer_host := (writer_host w ino fdn x0 h0).

Lemma run_preallocate base es : forall st, 0 <= file_size (w_file st) ->
  exists f, preallocate w base es (writer_host st) = (Ok tt, writer_host (with_file f st)) /\ 0 <= file_size f.
Proof.
  induction es as [|e es IH]; intros st Hs; cbn [preallocate].
  - exists (w_file st). split; [by destruct st|done].
  - destruct (_ =? LoadMapDataPages); [|by apply IH]. cbv zeta. set (n := u32 (base + _)).
    assert (is_u32 n) as Hn by apply u32_range. unfold is_u32 in Hn.
    erewrite bind_Ok by apply run_get. change (fd (writer_world x0 st)) with (fd x0). rewrite Hfd.
    unfold ftruncate. rewrite run_bind_assoc. erewrite bind_Ok by apply run_file_of.
    destruct (Z.leb_spec 0 (n * VLMBlockSize)); [|unfold VLMBlockSize in *; lia]. rewrite Hgrows. cbn [andb].
    rewrite run_bind_assoc. erewrite bind_Ok by apply run_replace_file. rewrite run_bind_ret. cbn [negb].
    eexists. split; [done|]. simpl. lia.
Qed.

Context (slot : Z -> LispObjRecord).
Context (Hslot : forall i, sysoutGenerationNumber <= i <= sysoutParentTimestamp2_slot ->
  VirtualMemoryRead vm_extable host_pc (SystemCommAreaAddress + i) (memory h0) = (Ok (slot i), memory h0)).

Lemma run_slot i st : sysoutGenerationNumber <= i <= sysoutParentTimestamp2_slot ->
  ReadSystemCommSlot i (writer_host st) = (Ok (slot i), writer_host st).
Proof.
  intros Hi. unfold ReadSystemCommSlot, in_memory. change (memory (writer_host st)) with (memory h0).
  rewrite Hslot by done. unfold writer_host. by destruct h0.
Qed.

Lemma write_entries_words es h : write_entries w es h = write_qs w (map_words es) h.
Proof.
  revert h. induction es as [|e es IH]; intros h; [done|]. cbn [write_entries map_words flat_map app entry_words write_qs].
  unfold bind. do 3 (destruct (WriteIvoryWorldFileNextQ w _ _) as [[]?]; try done).
Qed.

Ltac next_word :=
  match goal with
  | W : writing ?s ?l |- context [bind (WriteIvoryWorldFileNextQ w ?q) _] =>
    let s' := fresh "s" in let R := fresh in let W' := fresh "W" in let Q := fresh "Q" in
    destruct (run_WriteNextQ w ino fdn x0 h0 Htransfers Hfd q s l W) as (s' & R & W' & Q); [simpl; lia|];
    erewrite bind_Ok by exact R; clear R W; try (erewrite bind_Ok by (by apply run_slot))
  end.

Lemma run_WriteHeader st es : 0 <= file_size (w_file st) ->
  first_entries (nWiredMapEntries x0) (wiredMapEntries x0) = Some es -> Z.of_nat (length es) < 2 ^ 24 ->
  let qs := header_words (nWiredMapEntries x0) (vlmDataPageBase x0 mod 2 ^ 28 + 2 ^ 28 * (vlmTagsPageBase x0 mod 16)) slot es in
  exists st', WriteVLMWorldFileHeader w (writer_host st) = (Ok tt, writer_host st') /\ file_holds (w_file st') qs.
Proof.
  intros Hs Ees Hl qs. unfold WriteVLMWorldFileHeader.
  do 2 (erewrite bind_Ok by apply run_get). change (first_entries _ _) with (first_entries (nWiredMapEntries x0) (wiredMapEntries x0)).
  rewrite (run_bind_option es) by done. do 2 (erewrite bind_Ok by apply run_get).
  destruct (run_preallocate (vlmDataPageBase (writer_world x0 st)) (rev es) st Hs) as (f & R & Hf). erewrite bind_Ok by exact R.
  erewrite bind_Ok by apply run_Prepare. cbv zeta. set (st0 := blank_page 0 (with_file f st)).
  assert (length (map_words es) = 3 * length es)%nat as Em.
  { clear. induction es as [|e es IH]; [done|]. simpl. rewrite IH. lia. }
  pose proof (writing_nothing st0 eq_refl eq_refl eq_refl Hf) as W0.
  do 8 next_word. match goal with W : writing ?s _, Q : 0 < w_q ?s |- _ => rename s into s8, W into W8, Q into Q8 end.
  cbn [app] in W8.
  destruct (run_write_qs w ino fdn x0 h0 Htransfers Hfd (map_words es) s8 _ W8) as (s9 & R9 & W9 & Q9); [rewrite Em; simpl; lia|].
  erewrite bind_Ok by (rewrite write_entries_words; exact R9).
  destruct (run_finish w ino fdn x0 h0 Htransfers Hfd s9 qs W9 (Q9 (or_introl Q8))) as [RF HF].
  { unfold qs, header_words. rewrite length_app, Em. simpl. lia. }
  exists (flushed s9). by split.
Qed.
End header.

(** ** Opening *)

Definition in_world (v : Z) (e : LoadMapEntry) : LoadMapEntry :=
  MkLoadMapEntry (address e) (op_count e) (op_opcode e) (entry_data e) v.

Lemma op_word_parts e : 0 <= op_count e < 2 ^ 24 -> 0 <= op_opcode e < 256 ->
  is_u32 (op_word e) /\ count_of (op_word e) = op_count e /\ opcode_of (op_word e) = op_opcode e.
Proof.
  intros Hc Ho. unfold op_word, count_of, opcode_of, is_u32. split; [lia|].
  rewrite (Z.mul_comm 16777216). rewrite Z.mod_add by lia. rewrite Z.div_add by lia.
  rewrite (Z.div_small (op_count e)), (Z.mod_small (op_count e)) by lia. rewrite Z.add_0_l, Z.mod_small; lia.
Qed.

Lemma kept_u32 q : is_u32 (LispObjData q) -> LispObjData (kept q) = LispObjData q.
Proof. intros H. by apply u32_small. Qed.
Lemma kept_entry v e : entry_fits e ->
  MkLoadMapEntry (LispObjData (kept (MakeLispObj Type_Locative (address e))))
    (count_of (LispObjData (kept (MakeLispObj Type_Fixnum (op_word e)))))
    (opcode_of (LispObjData (kept (MakeLispObj Type_Fixnum (op_word e))))) (kept (entry_data e)) v = in_world v e.
Proof.
  intros [Ha Hc Ho Ht Hd]. destruct (op_word_parts e Hc Ho) as (Hw & Ec & Eo).
  unfold in_world, kept. cbn [LispObjData LispObjTag]. rewrite (u32_small (address e)), (u32_small (op_word e)), Ec, Eo by done.
  rewrite u8_small, u32_small by done. by destruct (entry_data e).
Qed.

(** The cookie is the first four tags. *)
Lemma q_tag p n q : q_of_page p n = Some q -> p !! Z.to_nat (tagOffset n) = Some (LispObjTag q).
Proof.
  unfold q_of_page, nth_Z. destruct (Z.leb_spec 0 (tagOffset n)); [|done].
  destruct (p !! _); [|done]. destruct (word_at _ _); [|done]. by intros [= <-].
Qed.
Lemma file_tags f qs : file_holds f qs -> (4 <= length qs)%nat ->
  file_read f 0 4 = map (fun q => u8 (LispObjTag q)) (take 4 qs).
Proof.
  intros [H _] Hl. apply list_eq. intros i. rewrite list_lookup_fmap. destruct (decide (i < 4)%nat) as [Hi|Hi].
  2: { rewrite lookup_take_ge by lia. apply lookup_ge_None. rewrite file_read_length. lia. }
  rewrite file_read_lookup, lookup_take_lt by done.
  destruct (lookup_lt_is_Some_2 qs i ltac:(lia)) as [q E]. rewrite E. simpl. specialize (H _ _ E). unfold file_q in H.
  rewrite Z.div_small, Z.mod_small in H by (unfold IvoryPageSizeQs; lia). apply q_tag in H.
  assert (Z.to_nat (tagOffset (Z.of_nat i)) = i) as Et.
  { destruct (q_offsets (Z.of_nat i) ltac:(lia)) as (-> & _). rewrite Z.div_small, Z.mod_small by lia. lia. }
  rewrite Et in H. unfold file_page in H. rewrite file_read_lookup in H by (unfold IvoryPageSizeBytes; lia).
  injection H as E'. by f_equal.
Qed.

Section opening.
Context {host : Host} (v ino fdn : Z) (f : File) (Htransfers : forall g o n, transfers g o n = true).
Context (qs : list LispObjRecord) (Hholds : file_holds f qs) (Hlen : Z.of_nat (length qs) < 2 ^ 28).
#[local] Abbreviation reading := (reading v ino fdn f).


Lemma run_read_entries es : forall pre post n x h, qs = pre ++ map_words es ++ post -> n = Z.of_nat (length pre) ->
  reading n x h -> Forall entry_fits es ->
  exists x' h' page a b, read_entries v (length es) h = (Ok (map (in_world v) es), h') /\
    reading (n + Z.of_nat (length (map_words es))) x' h' /\ x' = moved page a b x.
Proof.
  induction es as [|e es IH]; intros pre post n x h E En R Fs.
  - exists x, h, (ivoryDataPage x), (currentPageNumber x), (currentQNumber x). simpl. rewrite Z.add_0_r. split; [done|].
    split; [done|by destruct x].
  - apply Forall_cons in Fs as [Fe Fs]. cbn [length read_entries map map_words flat_map] in *. fold (map_words es) in *.
    assert (forall i q, entry_words e !! i = Some q -> qs !! Z.to_nat (n + Z.of_nat i) = Some q) as Hq.
    { intros i q Ei. rewrite E, En, <- Nat2Z.inj_add, Nat2Z.id, lookup_app_r, Nat.add_comm, Nat.add_sub by lia.
      rewrite <- app_assoc. apply lookup_app_l_Some. done. }
    pose proof (Hq 0%nat _ eq_refl) as Q0. pose proof (Hq 1%nat _ eq_refl) as Q1. pose proof (Hq 2%nat _ eq_refl) as Q2.
    clear Hq. rewrite Z.add_0_r in Q0.
    destruct (run_NextQ v ino fdn f Htransfers qs Hholds Hlen n x h _ R Q0) as (x1 & h1 & p1 & a1 & b1 & R1 & G1 & E1).
    destruct (run_NextQ v ino fdn f Htransfers qs Hholds Hlen _ x1 h1 _ G1 Q1) as (x2 & h2 & p2 & a2 & b2 & R2 & G2 & E2).
    replace (n + 1 + 1) with (n + Z.of_nat 2) in G2 by lia.
    destruct (run_NextQ v ino fdn f Htransfers qs Hholds Hlen _ x2 h2 _ G2 Q2) as (x3 & h3 & p3 & a3 & b3 & R3 & G3 & E3).
    destruct (IH (pre ++ entry_words e) post (n + Z.of_nat 2 + 1) x3 h3) as (x' & h' & p & a & b & R' & G' & E'); try done.
    { by rewrite E, <- !app_assoc. }
    { rewrite En, length_app. simpl. lia. }
    exists x', h', p, a, b. erewrite bind_Ok by exact R1. erewrite bind_Ok by exact R2. erewrite bind_Ok by exact R3.
    erewrite bind_Ok by exact R'. rewrite kept_entry by done. split; [done|]. split.
    + rewrite length_app. simpl. by replace (n + _) with (n + 2 + 1 + Z.of_nat (length (map_words es))) by lia.
    + subst x' x3 x2 x1. done.
Qed.

(** A field read from the next word. *)
Definition keeps_buffer (g : World -> World) : Prop := forall x,
  fd (g x) = fd x /\ ivoryDataPage (g x) = ivoryDataPage x /\ currentPageNumber (g x) = currentPageNumber x /\
  currentQNumber (g x) = currentQNumber x.
Lemma run_set n x h g : reading n x h -> keeps_buffer g ->
  exists h', assign v g h = (Ok tt, h') /\ reading n (g x) h'.
Proof.
  intros R Hg. destruct (Hg x) as (E1 & E2 & E3 & E4). by apply (reading_assign v ino fdn f).
Qed.
Lemma run_field n x h q g : reading n x h -> qs !! Z.to_nat n = Some q -> is_u32 (LispObjData q) ->
  keeps_buffer (g (LispObjData q)) ->
  exists h' page a b, bind (ReadIvoryWorldFileNextQ v) (fun q => assign v (g (LispObjData q))) h = (Ok tt, h') /\
    reading (n + 1) (g (LispObjData q) (moved page a b x)) h'.
Proof.
  intros R E Hq Hg. destruct (run_NextQ v ino fdn f Htransfers qs Hholds Hlen n x h q R E) as (x1 & h1 & p & a & b & R1 & G1 & ->).
  destruct (Hg (moved p a b x)) as (E1 & E2 & E3 & E4).
  destruct (reading_assign v ino fdn f _ _ h1 _ G1 E1 E2 E3 E4) as (h2 & R2 & G2). exists h2, p, a, b. split; [|done].
  erewrite bind_Ok by exact R1. by rewrite kept_u32.
Qed.
Lemma field_then {A B} (m : Hst A) (k : A -> Hst unit) (k' : unit -> Hst B) h h' :
  bind m k h = (Ok tt, h') -> bind m (fun q => bind (k q) k') h = k' tt h'.
Proof. intros R. rewrite <- run_bind_assoc. by erewrite bind_Ok by exact R. Qed.

(** What the slots tell of a world and its parent. *)
Definition sysout_read (generation t1 t2 p1 p2 : Z) (x : World) : Prop :=
  sysoutGeneration x = generation /\ sysoutTimestamp1 x = t1 /\ sysoutTimestamp2 x = t2 /\
  sysoutParentTimestamp1 x = p1 /\ sysoutParentTimestamp2 x = p2.
(** The fields that reading the header sets before the ancestry. *)
Definition header_read (x : World) :=
  (pathname x, format x, byteSwapped x, vlmDataPageBase x, vlmTagsPageBase x, parentWorld x,
   (nWiredMapEntries x, wiredMapEntries x, nUnwiredMapEntries x, unwiredMapEntries x, mergedWiredMapEntries x, mergedUnwiredMapEntries x)).

Lemma run_read_sysout n x h q0 q1 q2 q3 q4 : reading n x h -> n < IvoryPageSizeQs ->
  take 5 (drop 3 qs) = [q0; q1; q2; q3; q4] -> Forall (fun q => is_u32 (LispObjData q)) [q0; q1; q2; q3; q4] ->
  exists x' h', read_sysout v 3 h = (Ok tt, h') /\ reading 8 x' h' /\ header_read x' = header_read x /\
    sysout_read (LispObjData q0) (LispObjData q1) (LispObjData q2) (LispObjData q3) (LispObjData q4) x'.
Proof.
  intros R Hn E Hq. assert (forall i q, [q0; q1; q2; q3; q4] !! i = Some q -> qs !! (3 + i)%nat = Some q) as Hl.
  { intros i q Ei. rewrite <- E in Ei. rewrite <- lookup_drop. apply lookup_take_Some in Ei. by destruct Ei. }
  repeat (apply Forall_cons in Hq as [? Hq]). clear E. unfold read_sysout. cbn [Z.eqb].
  destruct (reading_seek v ino fdn f n x h 3 R Hn) as (h0 & R0 & G0); [done|]. erewrite bind_Ok by exact R0. clear R0 R.
  destruct (run_field _ _ _ q0 set_sysoutGeneration G0) as (h1 & ? & ? & ? & R1 & G1); [by apply (Hl 0%nat)|done|done|].
  rewrite (field_then _ _ _ _ _ R1). clear R1.
  destruct (run_field _ _ _ q1 set_sysoutTimestamp1 G1) as (h2 & ? & ? & ? & R2 & G2); [by apply (Hl 1%nat)|done|done|].
  rewrite (field_then _ _ _ _ _ R2). clear R2.
  destruct (run_field _ _ _ q2 set_sysoutTimestamp2 G2) as (h3 & ? & ? & ? & R3 & G3); [by apply (Hl 2%nat)|done|done|].
  rewrite (field_then _ _ _ _ _ R3). clear R3.
  destruct (run_field _ _ _ q3 set_sysoutParentTimestamp1 G3) as (h4 & ? & ? & ? & R4 & G4); [by apply (Hl 3%nat)|done|done|].
  rewrite (field_then _ _ _ _ _ R4). clear R4.
  destruct (run_field _ _ _ q4 set_sysoutParentTimestamp2 G4) as (h5 & ? & ? & ? & R5 & G5); [by apply (Hl 4%nat)|done|done|].
  eexists _, h5. split; [exact R5|]. split; [exact G5|]. split; [done|]. unfold sysout_read. split_and!; done.
Qed.
End opening.

(** The world that opening the file of a header gives. *)
Record opened_as (v n db tb : Z) (slot : Z -> LispObjRecord) (es : list LoadMapEntry) (path : Pathname) (x : World) : Prop := {
  opened_format : (pathname x, format x, byteSwapped x) = (path, VLMWorldFormat, false);
  opened_bases : (vlmDataPageBase x, vlmTagsPageBase x) = (db, tb);
  opened_wired : nWiredMapEntries x = n /\ wiredMapEntries x = if n =? 0 then None else Some (map (in_world v) es);
  opened_unwired : nUnwiredMapEntries x = 0 /\ unwiredMapEntries x = None;
  opened_ancestry : sysout_read (LispObjData (slot sysoutGenerationNumber)) (LispObjData (slot sysoutTimestamp1_slot))
    (LispObjData (slot sysoutTimestamp2_slot)) (LispObjData (slot sysoutParentTimestamp1_slot))
    (LispObjData (slot sysoutParentTimestamp2_slot)) x;
  opened_alone : parentWorld x = None /\ mergedWiredMapEntries x = NoMap /\ mergedUnwiredMapEntries x = NoMap
}.

Section opened.
Context {host : Host} (v ino : Z) (f : File) (slot : Z -> LispObjRecord) (es : list LoadMapEntry) (db tb : Z).
Context (Htransfers : forall g o n, transfers g o n = true) (Hmalloc : forall n, malloc_succeeds n = true).
Context (Hn : Z.of_nat (length es) < 2 ^ 24) (Hes : Forall entry_fits es) (Hdb : 0 <= db < 2 ^ 28) (Htb : 0 <= tb < 16).
Context (Hslot : forall i, sysoutGenerationNumber <= i <= sysoutParentTimestamp2_slot -> is_u32 (LispObjData (slot i))).
Let n := Z.of_nat (length es).
Let qs := header_words n (db + 2 ^ 28 * tb) slot es.
Context (Hholds : file_holds f qs).

Lemma map_words_length l : length (map_words l) = (3 * length l)%nat.
Proof. induction l as [|e l IH]; [done|]. simpl. rewrite IH. lia. Qed.
Lemma header_length : Z.of_nat (length qs) < 2 ^ 28.
Proof. unfold qs, header_words. rewrite length_app, map_words_length. simpl. lia. Qed.

(** One assignment that leaves the buffer alone. *)
Ltac set_field :=
  match goal with
  | G : reading v ino ?d f ?m ?y ?h |- context [bind (assign v ?g) _ ?h] =>
    let h' := fresh "h" in let R := fresh in let G' := fresh "G" in
    destruct (run_set v ino d f m y h g G) as (h' & R & G'); [done|]; erewrite bind_Ok by exact R; clear R G
  end.

Lemma run_new_map x h fdn o k store : reading v ino fdn f o x h -> keeps_buffer (store (Some [])) ->
  exists h', new_map v k store h = (Ok true, h') /\ reading v ino fdn f o (if k =? 0 then x else store (Some []) x) h'.
Proof.
  intros R Hk. unfold new_map. destruct (k =? 0); [by exists h|]. unfold allocate_map. rewrite Hmalloc.
  destruct (run_set v ino fdn f o x h _ R Hk) as (h' & R' & G). exists h'. split; [by erewrite bind_Ok by exact R'|done].
Qed.

Lemma run_read_maps fdn x h nw : reading v ino fdn f 8 x h -> nw = n ->
  exists x' h' page a b,
    (wired <- ReadLoadMap v nw ;; when (negb (nw =? 0)) (assign v (set_wiredMapEntries (Some wired))) ;;
     unwired <- ReadLoadMap v 0 ;; when (negb (0 =? 0)) (assign v (set_unwiredMapEntries (Some unwired))) ;; ret true) h =
    (Ok true, h') /\ world_store h' !! v = Some x' /\
    x' = (if n =? 0 then moved page a b x else set_wiredMapEntries (Some (map (in_world v) es)) (moved page a b x)).
Proof.
  intros G ->. pose proof header_length as Hlen. unfold ReadLoadMap at 1. unfold n at 1. rewrite Nat2Z.id.
  destruct (run_read_entries v ino fdn f Htransfers qs Hholds Hlen es (take 8 qs) [] 8 x h) as (x1 & h1 & p & a & b & R1 & G1 & ->); try done.
  { by rewrite app_nil_r. }
  erewrite bind_Ok by exact R1. destruct (Z.eqb_spec n 0) as [E|E]; cbn [negb when].
  - exists (moved p a b x), h1, p, a, b. split; [done|]. split; [apply G1|done].
  - set_field. eexists _, _, p, a, b. split; [done|]. split; [by eapply reading_world|done].
Qed.

Lemma run_read_header fdn x h p : reading v ino fdn f 0 x h -> format x = VLMWorldFormat ->
  wiredMapEntries x = None -> unwiredMapEntries x = None -> byteSwapped x = false -> pathname x = p ->
  parentWorld x = None -> mergedWiredMapEntries x = NoMap -> mergedUnwiredMapEntries x = NoMap ->
  exists x' h', read_header v true (MkLayout 1 0 2 3 8) h = (Ok true, h') /\ world_store h' !! v = Some x' /\
    opened_as v n db tb slot es p x'.
Proof.
  intros R Hf Hw Hu Hb Hp Hpw Hm1 Hm2. unfold read_header. cbn [wiredCountQ unwiredCountQ pagesBaseQ firstSysoutQ firstMapQ].
  pose proof header_length as Hlen.
  erewrite bind_Ok by (eapply (run_ReadQ v ino fdn f qs Hholds); [exact R|done|done|done]).
  assert (s32 (LispObjData (kept (MakeLispObj (normal Type_SmallRatio) (u32 n)))) = n) as ->.
  { unfold kept. cbn [LispObjData]. rewrite !(u32_small n) by (unfold is_u32, n; lia). apply s32_small. unfold is_s32, n. lia. }
  cbv zeta. set_field.
  destruct (run_new_map _ _ fdn 0 n set_wiredMapEntries G) as (h2 & R2 & G2); [done|]. clear G.
  erewrite bind_Ok by exact R2. clear R2. cbn [negb Z.eqb].
  erewrite (bind_Ok (ret 0) _ _ 0 _) by done.
  set_field. erewrite (bind_Ok (new_map v 0 set_unwiredMapEntries) _ _ true) by done. cbn [negb].
  erewrite bind_Ok by (by eapply get_run, reading_world).
  match type of G with reading _ _ _ _ _ ?y _ => set (x3 := y) in * end.
  assert (format x3 = VLMWorldFormat) as -> by (unfold x3; by destruct (n =? 0)). cbn [Z.eqb when].
  change (VLMWorldFormat =? VLMWorldFormat) with true. cbn [when]. rewrite run_bind_assoc.
  erewrite bind_Ok by (eapply (run_ReadQ v ino fdn f qs Hholds); [exact G|done|done|done]).
  rewrite kept_u32 by (unfold is_u32; cbn [LispObjData]; lia). cbn [LispObjData].
  assert (dataPageBase (db + 2 ^ 28 * tb) = db /\ tagsPageBase (db + 2 ^ 28 * tb) = tb) as [-> ->].
  { unfold dataPageBase, tagsPageBase. rewrite (Z.mul_comm (2 ^ 28)), Z.mod_add, Z.div_add, Z.mod_small, Z.div_small by lia. lia. }
  rewrite run_bind_assoc. set_field. set_field.
  destruct (run_read_sysout v ino fdn f Htransfers qs Hholds Hlen 0 _ h4 (MakeLispObj (normal Type_Character) (LispObjData (slot sysoutGenerationNumber)))
    (slot sysoutTimestamp1_slot) (slot sysoutTimestamp2_slot) (slot sysoutParentTimestamp1_slot) (slot sysoutParentTimestamp2_slot) G)
    as (x4 & h5 & R4 & G4 & E4 & S4); [done|done| |].
  { repeat apply Forall_cons_2; try (apply Hslot; done). apply Forall_nil_2. }
  erewrite bind_Ok by exact R4. clear R4 G.
  destruct (reading_seek v ino fdn f 8 x4 h5 8 G4) as (h6 & R5 & G5); [done|done|]. erewrite bind_Ok by exact R5. clear R5 G4.
  destruct (run_read_maps fdn _ h6 n G5 eq_refl) as (x' & h' & p' & a & b & R' & W' & E').
  exists x', h'. split; [exact R'|]. split; [exact W'|]. clear -E' E4 S4 Hf Hw Hu Hb Hp Hpw Hm1 Hm2.
  assert (header_read (set_vlmTagsPageBase tb (set_vlmDataPageBase db x3)) =
    (p, VLMWorldFormat, false, db, tb, None, (n, if n =? 0 then None else Some [], 0, None, NoMap, NoMap))) as E3.
  { unfold x3, header_read. destruct (n =? 0); simpl; congruence. }
  rewrite E3 in E4. unfold header_read in E4. injection E4 as ? ? ? ? ? ? ? ? ? ? ? ?.
  assert (sysout_read (LispObjData (slot sysoutGenerationNumber)) (LispObjData (slot sysoutTimestamp1_slot))
    (LispObjData (slot sysoutTimestamp2_slot)) (LispObjData (slot sysoutParentTimestamp1_slot))
    (LispObjData (slot sysoutParentTimestamp2_slot)) x') as S' by (subst x'; by destruct (n =? 0)).
  constructor; try exact S'; subst x'; destruct (n =? 0); simpl; split_and?; congruence.
Qed.

(** The world [y] is opened in a host where its file is readable. *)
Lemma run_OpenWorldFile y h : world_store h !! v = Some y -> directory h !! pathname y = Some ino ->
  may_read_file (pathname y) = true -> inodes h !! ino = Some f -> 0 <= next_fd h -> currentQNumber y = 0 ->
  exists x' h', OpenWorldFile v true h = (Ok true, h') /\ world_store h' !! v = Some x' /\
    opened_as v n db tb slot es (pathname y) x'.
Proof.
  intros W D M I Fd Q. unfold OpenWorldFile. erewrite bind_Ok by (by apply assign_run).
  erewrite bind_Ok by (apply get_run, lookup_insert_eq).
  erewrite (bind_Ok _ _ _ (next_fd h)).
  2: { unfold open_read. rewrite run_bind_gets. change (directory (put_world v (reset_world y) h)) with (directory h).
       change (pathname (reset_world y)) with (pathname y). rewrite D, M. unfold open_descriptor. rewrite run_bind_gets, run_bind_modify. done. }
  set (fdn := next_fd h). erewrite bind_Ok by (apply assign_run, lookup_insert_eq).
  destruct (Z.ltb_spec fdn 0); [lia|]. pose proof header_length as Hlen.
  assert ((4 <= length qs)%nat /\ 0 + Z.of_nat 4 <= (0 + 1) * IvoryPageSizeBytes <= file_size f) as [Hl Hs].
  { assert (8 <= length qs)%nat by (unfold qs, header_words; rewrite length_app; simpl; lia). split; [lia|].
    destruct Hholds as [_ Hs]. specialize (Hs 0%nat ltac:(lia)). change (Z.of_nat 0 / IvoryPageSizeQs + 1) with 1 in Hs. unfold IvoryPageSizeBytes in *. lia. }
  erewrite bind_Ok by (eapply c_read_run; [exact Htransfers|apply lookup_insert_eq|exact I|lia]).
  rewrite (file_tags f qs Hholds Hl).
  change (map _ (take 4 qs)) with (bytes_of_word VLMWorldFileCookie). rewrite word_of_bytes_of_word.
  erewrite (run_bind_option (u32 VLMWorldFileCookie)) by done.
  change (format_of_cookie (u32 VLMWorldFileCookie)) with (Some (VLMWorldFormat, false, @None Layout)). cbv iota beta.
  erewrite bind_Ok by (apply assign_run, lookup_insert_eq). change (VLMWorldFormat =? VLMWorldFormat) with true. cbn [when].
  erewrite bind_Ok by (apply assign_run, lookup_insert_eq). rewrite Hmalloc. cbn [negb].
  do 2 (erewrite bind_Ok by (apply assign_run, lookup_insert_eq)).
  match goal with |- context [bind (ReadIvoryWorldFilePage v 0) _ (put_world v ?x ?g)] =>
    destruct (run_read_page v ino fdn f Htransfers 0 x (put_world v x g)) as (h1 & R1 & W1 & D1 & I1) end.
  all: try done; try apply lookup_insert_eq; try apply Hs. { eexists. apply lookup_insert_eq. }
  erewrite bind_Ok by exact R1. clear R1. rewrite run_bind_assoc.
  match type of W1 with _ = Some ?x => assert (reading v ino fdn f 0 x h1) as G by (constructor; simpl; rewrite ?I1, ?Q; done) end.
  erewrite bind_Ok by (eapply (run_ReadQ v ino fdn f qs Hholds); [exact G|done|done|done]).
  erewrite (run_bind_option (MkLayout 1 0 2 3 8)) by done.
  edestruct (run_read_header fdn _ h1 (pathname y) G) as (x' & h' & R & W' & O); [done..|].
  exists x', h'. by split_and!.
Qed.
End opened.

(** ** The round trip *)

(** The world [w] is being created: its file is open and its load map is complete. *)
Record creating (w ino : Z) (es : list LoadMapEntry) (h : HostState) (x : World) : Prop := {
  creating_world : world_store h !! w = Some x;
  creating_descriptor : exists o, descriptors h !! fd x = Some (MkDescriptor ino o);
  creating_file : exists f, inodes h !! ino = Some f /\ 0 <= file_size f;
  creating_buffer : exists page, ivoryDataPage x = Some page;
  creating_map : wiredMapEntries x = Some es /\ nWiredMapEntries x = Z.of_nat (length es) /\ Z.of_nat (length es) < 2 ^ 24;
  creating_entries : Forall entry_fits es;
  creating_bases : 0 <= vlmDataPageBase x < 2 ^ 28 /\ 0 <= vlmTagsPageBase x < 16
}.
(** What the memory says of the ancestry, in the slots of the communications area. *)
Definition slots_are {host : Host} (slot : Z -> LispObjRecord) (h : HostState) : Prop :=
  forall i, sysoutGenerationNumber <= i <= sysoutParentTimestamp2_slot ->
    VirtualMemoryRead vm_extable host_pc (SystemCommAreaAddress + i) (memory h) = (Ok (slot i), memory h) /\
    is_u32 (LispObjData (slot i)).
Record willing {host : Host} : Prop := {
  willing_transfers : forall f o n, transfers f o n = true;
  willing_grows : forall f n, grows f n = true;
  willing_malloc : forall n, malloc_succeeds n = true
}.
(** The world structure [v] names the file and has not been used. *)
Record openable {host : Host} (v ino : Z) (h : HostState) (y : World) : Prop := {
  openable_world : world_store h !! v = Some y;
  openable_path : directory h !! pathname y = Some ino /\ may_read_file (pathname y) = true;
  openable_fd : 0 <= next_fd h;
  openable_q : currentQNumber y = 0
}.

Lemma creating_writer w ino es h x : creating w ino es h x ->
  exists st, h = writer_host w ino (fd x) x h st /\ 0 <= file_size (w_file st).
Proof.
  intros [W [o D] (f & F & Sz) [page P] _ _ _]. exists (MkWriter page (currentPageNumber x) (currentQNumber x) f o).
  split; [|done]. unfold writer_host, writer_world. cbn [w_page w_number w_q w_file w_offset].
  rewrite (insert_id (descriptors h)), (insert_id (inodes h)) by done. rewrite insert_id; [by destruct h|].
  rewrite W. f_equal. rewrite <- P. by destruct x.
Qed.

(** C5. The header of a world file is read back as it was written: the world that
    OpenWorldFile makes of a file whose header WriteVLMWorldFileHeader wrote is a VLM world in
    the host's byte order, with the same load map (its entries now belong to the opened world),
    the same page bases, no unwired map, and the generation and the time stamps of itself and
    its parent that the system communications area held; the cookie is recognised because it is
    made of the tags of the first four words. *)
Theorem WriteHeader_OpenWorld {host : Host} w v ino es slot h x y :
  willing -> creating w ino es h x -> openable v ino h y -> v <> w -> slots_are slot h ->
  exists h1 h2 y', WriteVLMWorldFileHeader w h = (Ok tt, h1) /\ OpenWorldFile v true h1 = (Ok true, h2) /\
    world_store h2 !! v = Some y' /\
    opened_as v (nWiredMapEntries x) (vlmDataPageBase x) (vlmTagsPageBase x) slot es (pathname y) y'.
Proof.
  intros [Ht Hg Hm] C [Wy [Dy My] Fy Qy] Hne Hs. destruct (creating_writer _ _ _ _ _ C) as (st & Eh & Hf).
  destruct C as [_ _ _ _ (Em & En & Hl) Hes [Hdb Htb]].
  destruct (run_WriteHeader w ino (fd x) x h Ht Hg eq_refl slot (fun i Hi => proj1 (Hs i Hi)) st es Hf) as (st' & R & HH); [|done|].
  { unfold first_entries. rewrite En, Em. destruct (Z.leb_spec (Z.of_nat (length es)) 0).
    - by destruct es.
    - destruct (Z.leb_spec (Z.of_nat (length es)) (Z.of_nat (length es))); [|lia]. by rewrite Nat2Z.id, firstn_all. }
  rewrite <- Eh in R. rewrite (Z.mod_small _ _ Hdb), (Z.mod_small _ 16 Htb), En in HH.
  destruct (run_OpenWorldFile v ino (w_file st') slot es (vlmDataPageBase x) (vlmTagsPageBase x) Ht Hm Hl Hes Hdb Htb
    (fun i Hi => proj2 (Hs i Hi)) HH y (writer_host w ino (fd x) x h st')) as (y' & h2 & R2 & W2 & O); try done.
  { cbn. by rewrite lookup_insert_ne. }
  { cbn. by rewrite lookup_insert_eq. }
  exists (writer_host w ino (fd x) x h st'), h2, y'. rewrite En. by split_and!.
Qed.

(** ** A world of two entries, saved and opened again *)

Definition saved_map : list LoadMapEntry :=
  [MkLoadMapEntry 0 32768 LoadMapDataPages (MakeLispObj Type_Fixnum 0) 0;
   MkLoadMapEntry 0xF8041000 32 LoadMapConstant (MakeLispObj Type_Fixnum 17) 0].
Definition saved_world : World :=
  set_pathname [1] (set_fd 3 (set_ivoryDataPage (Some []) (set_vlmDataPageBase 2 (set_vlmTagsPageBase 1
    (set_wiredMapEntries (Some saved_map) (set_nWiredMapEntries 2 unset_world)))))).
Definition opened_world : World := set_pathname [1] unset_world.
(** The ancestry in the communications area: generation 3, its time stamps and its parent's. *)
Definition saved_slot (i : Z) : LispObjRecord :=
  MakeLispObj (normal Type_Fixnum) (if i =? sysoutGenerationNumber then 3 else 1000 + i).
Definition saving_memory : VMMemory :=
  (write_all (map (fun i => (SystemCommAreaAddress + i, saved_slot i)) [43; 44; 45; 46; 47]) region_memory).2.
Definition saving_host : HostState :=
  MkHostState saving_memory {[ [1] := 5 ]} {[ 5 := MkFile 0 ∅ ]} 6 {[ 3 := MkDescriptor 5 0 ]} 4
    {[ 0 := saved_world; 1 := opened_world ]} 2 (Some 0) None 0 0 [].

Lemma saved_slots : slots_are saved_slot saving_host.
Proof.
  intros i Hi. unfold sysoutGenerationNumber, sysoutParentTimestamp2_slot in Hi.
  assert (i = 43 \/ i = 44 \/ i = 45 \/ i = 46 \/ i = 47) as H by lia. clear Hi.
  destruct H as [->|[->|[->|[->| ->]]]]; split; by vm_compute.
Qed.
Lemma saved_creating : creating 0 5 saved_map saving_host saved_world.
Proof.
  constructor; try done.
  - by exists 0.
  - by exists (MkFile 0 ∅).
  - by exists [].
  - repeat apply Forall_cons_2; [by constructor..|apply Forall_nil_2].
Qed.

Lemma WriteHeader_OpenWorld_witness : exists h1 h2 y,
  WriteVLMWorldFileHeader 0 saving_host = (Ok tt, h1) /\ OpenWorldFile 1 true h1 = (Ok true, h2) /\
  world_store h2 !! 1 = Some y /\ wiredMapEntries y = Some (map (in_world 1) saved_map) /\
  sysoutGeneration y = 3 /\ sysoutParentTimestamp2 y = 1047.
Proof.
  destruct (WriteHeader_OpenWorld 0 1 5 saved_map saved_slot saving_host saved_world opened_world)
    as (h1 & h2 & y & R1 & R2 & W & O).
  - by constructor.
  - apply saved_creating.
  - by constructor.
  - lia.
  - apply saved_slots.
  - exists h1, h2, y. split; [exact R1|]. split; [exact R2|]. split; [exact W|].
    destruct O as [_ _ [_ M] _ (G & _ & _ & _ & P) _]. split; [exact M|]. split; [exact G|exact P].
Defined.
