(* ===== verification/ChaosState.v ===== *)
(** The Chaosnet daemon (src/chaosd): the data of chaos-core.h. Frames are lists of bytes; the
    arrays of the C structures are lists of their lengths; a pointer to a connection is its
    place in the table. What the core hands to its emit callback is kept in order in
    [emitted]; the tracing of frames on stderr is left out. *)

From S2P Require Export Effect Word.
#[local] Open Scope vlm_scope.

(** ** Constants *)

Definition CHAOS_ETHERTYPE : Z := 0x0804. (* chaosd/chaos-core.h:40 CHAOS_ETHERTYPE *)
Definition ARP_ETHERTYPE : Z := 0x0806. (* chaosd/chaos-core.h:41 ARP_ETHERTYPE *)
Definition CHAOS_ETH_HEADER : Z := 14. (* chaosd/chaos-core.h:43 CHAOS_ETH_HEADER *)
Definition CHAOS_HEADER : Z := 16. (* chaosd/chaos-core.h:44 CHAOS_HEADER *)
Definition CHAOS_MAX_DATA : Z := 488. (* chaosd/chaos-core.h:45 CHAOS_MAX_DATA *)
Definition CHAOS_MAX_FRAME : Z := CHAOS_ETH_HEADER + CHAOS_HEADER + CHAOS_MAX_DATA. (* chaosd/chaos-core.h:46 CHAOS_MAX_FRAME *)
Definition CHAOS_ARP_FRAME : Z := CHAOS_ETH_HEADER + 8 + 6 + 2 + 6 + 2. (* chaosd/chaos-core.h:47 CHAOS_ARP_FRAME *)
Definition CHOP_RFC : Z := 1. (* chaosd/chaos-core.h:50 CHOP_RFC *)
Definition CHOP_OPN : Z := 2. (* chaosd/chaos-core.h:51 CHOP_OPN *)
Definition CHOP_CLS : Z := 3. (* chaosd/chaos-core.h:52 CHOP_CLS *)
Definition CHOP_FWD : Z := 4. (* chaosd/chaos-core.h:53 CHOP_FWD *)
Definition CHOP_ANS : Z := 5. (* chaosd/chaos-core.h:54 CHOP_ANS *)
Definition CHOP_SNS : Z := 6. (* chaosd/chaos-core.h:55 CHOP_SNS *)
Definition CHOP_STS : Z := 7. (* chaosd/chaos-core.h:56 CHOP_STS *)
Definition CHOP_RUT : Z := 8. (* chaosd/chaos-core.h:57 CHOP_RUT *)
Definition CHOP_LOS : Z := 9. (* chaosd/chaos-core.h:58 CHOP_LOS *)
Definition CHOP_LSN : Z := 10. (* chaosd/chaos-core.h:59 CHOP_LSN *)
Definition CHOP_MNT : Z := 11. (* chaosd/chaos-core.h:60 CHOP_MNT *)
Definition CHOP_EOF : Z := 12. (* chaosd/chaos-core.h:61 CHOP_EOF *)
Definition CHOP_UNC : Z := 13. (* chaosd/chaos-core.h:62 CHOP_UNC *)
Definition CHOP_BRD : Z := 14. (* chaosd/chaos-core.h:63 CHOP_BRD *)
Definition CHOP_DAT : Z := 128. (* chaosd/chaos-core.h:64 CHOP_DAT *)
Definition CHAOS_MAX_CONNS : Z := 32. (* chaosd/chaos-core.h:67 CHAOS_MAX_CONNS *)
Definition CHAOS_RING : Z := 64. (* chaosd/chaos-core.h:68 CHAOS_RING *)
Definition CHAOS_MAX_WINDOW : Z := 50. (* chaosd/chaos-core.h:69 CHAOS_MAX_WINDOW *)
Definition CHAOS_DEFAULT_WINDOW : Z := 13. (* chaosd/chaos-core.h:70 CHAOS_DEFAULT_WINDOW *)
Definition CHAOS_ARP_ENTRIES : Z := 64. (* chaosd/chaos-core.h:71 CHAOS_ARP_ENTRIES *)
Definition CHAOS_RETRANSMIT_MS : Z := 500. (* chaosd/chaos-core.h:73 CHAOS_RETRANSMIT_MS *)
Definition CHAOS_STS_RETRANSMIT_MS : Z := 100. (* chaosd/chaos-core.h:74 CHAOS_STS_RETRANSMIT_MS *)
Definition CHAOS_ACK_DELAY_MS : Z := 30. (* chaosd/chaos-core.h:75 CHAOS_ACK_DELAY_MS *)
Definition CHAOS_PROBE_MS : Z := 5000. (* chaosd/chaos-core.h:76 CHAOS_PROBE_MS *)
Definition CHAOS_LONELY_MS : Z := 60000. (* chaosd/chaos-core.h:77 CHAOS_LONELY_MS *)
Definition CHAOS_HOST_DOWN_MS : Z := 90000. (* chaosd/chaos-core.h:78 CHAOS_HOST_DOWN_MS *)
Definition CHAOS_RFC_TIMEOUT_MS : Z := 20000. (* chaosd/chaos-core.h:79 CHAOS_RFC_TIMEOUT_MS *)
Definition CHAOS_FINISH_TIMEOUT_MS : Z := 10000. (* chaosd/chaos-core.h:80 CHAOS_FINISH_TIMEOUT_MS *)
Definition CHAOS_ARP_RETRY_MS : Z := 500. (* chaosd/chaos-core.h:81 CHAOS_ARP_RETRY_MS *)
Definition CHAOS_ARP_REFRESH_MS : Z := 300000. (* chaosd/chaos-core.h:82 CHAOS_ARP_REFRESH_MS *)

(** ** Structures *)

(* chaosd/chaos-core.h:86-92 ChaosConnState *)
Inductive ChaosConnState := CONN_FREE | CONN_RFC_SENT | CONN_OPEN | CONN_CLOSED.
#[export] Instance ChaosConnState_eq_dec : EqDecision ChaosConnState.
Proof. solve_decision. Defined.
(* chaosd/chaos-core.h:95-103 ChaosCloseKind *)
Inductive ChaosCloseKind := CLOSE_NONE | CLOSE_CLS | CLOSE_LOS | CLOSE_ANS | CLOSE_TIMEOUT | CLOSE_DONE.

(* chaosd/chaos-core.h:105-114 ChaosPkt *)
Record ChaosPkt := MkPkt {
  present : bool;
  opcode : Z;
  num : Z;
  nBytes : Z;
  offset : Z;
  sentAtMs : Z;
  data : list Z
}.

Definition set_present (v : bool) (p : ChaosPkt) : ChaosPkt :=
  MkPkt v (opcode p) (num p) (nBytes p) (offset p) (sentAtMs p) (data p).
Definition set_opcode (v : Z) (p : ChaosPkt) : ChaosPkt :=
  MkPkt (present p) v (num p) (nBytes p) (offset p) (sentAtMs p) (data p).
Definition set_num (v : Z) (p : ChaosPkt) : ChaosPkt :=
  MkPkt (present p) (opcode p) v (nBytes p) (offset p) (sentAtMs p) (data p).
Definition set_nBytes (v : Z) (p : ChaosPkt) : ChaosPkt :=
  MkPkt (present p) (opcode p) (num p) v (offset p) (sentAtMs p) (data p).
Definition set_offset (v : Z) (p : ChaosPkt) : ChaosPkt :=
  MkPkt (present p) (opcode p) (num p) (nBytes p) v (sentAtMs p) (data p).
Definition set_sentAtMs (v : Z) (p : ChaosPkt) : ChaosPkt :=
  MkPkt (present p) (opcode p) (num p) (nBytes p) (offset p) v (data p).
Definition set_data (v : list Z) (p : ChaosPkt) : ChaosPkt :=
  MkPkt (present p) (opcode p) (num p) (nBytes p) (offset p) (sentAtMs p) v.

(* chaosd/chaos-core.h:116-150 ChaosConn *)
Record ChaosConn := MkConn {
  state : ChaosConnState;
  closeKind : ChaosCloseKind;
  localIndex : Z;
  remoteAddr : Z;
  remoteIndex : Z;
  reason : list Z;
  reasonBytes : Z;
  sentNum : Z;
  ackedNum : Z;
  receiptNum : Z;
  remoteWindow : Z;
  sendq : list ChaosPkt;
  eofWanted : bool;
  eofSent : bool;
  eofNum : Z;
  finishStartMs : Z;
  readNum : Z;
  receivedNum : Z;
  lastAckSent : Z;
  localWindow : Z;
  rcvq : list ChaosPkt;
  eofReceived : bool;
  ackDueMs : Z;
  openedMs : Z;
  lastHeardMs : Z;
  lastProbeMs : Z
}.

Definition set_state (v : ChaosConnState) (k : ChaosConn) : ChaosConn :=
  MkConn v (closeKind k) (localIndex k) (remoteAddr k) (remoteIndex k) (reason k) (reasonBytes k)
    (sentNum k) (ackedNum k) (receiptNum k) (remoteWindow k) (sendq k) (eofWanted k) (eofSent k) (eofNum k)
    (finishStartMs k) (readNum k) (receivedNum k) (lastAckSent k) (localWindow k) (rcvq k) (eofReceived k)
    (ackDueMs k) (openedMs k) (lastHeardMs k) (lastProbeMs k).
Definition set_closeKind (v : ChaosCloseKind) (k : ChaosConn) : ChaosConn :=
  MkConn (state k) v (localIndex k) (remoteAddr k) (remoteIndex k) (reason k) (reasonBytes k) (sentNum k)
    (ackedNum k) (receiptNum k) (remoteWindow k) (sendq k) (eofWanted k) (eofSent k) (eofNum k)
    (finishStartMs k) (readNum k) (receivedNum k) (lastAckSent k) (localWindow k) (rcvq k) (eofReceived k)
    (ackDueMs k) (openedMs k) (lastHeardMs k) (lastProbeMs k).
Definition set_localIndex (v : Z) (k : ChaosConn) : ChaosConn :=
  MkConn (state k) (closeKind k) v (remoteAddr k) (remoteIndex k) (reason k) (reasonBytes k) (sentNum k)
    (ackedNum k) (receiptNum k) (remoteWindow k) (sendq k) (eofWanted k) (eofSent k) (eofNum k)
    (finishStartMs k) (readNum k) (receivedNum k) (lastAckSent k) (localWindow k) (rcvq k) (eofReceived k)
    (ackDueMs k) (openedMs k) (lastHeardMs k) (lastProbeMs k).
Definition set_remoteAddr (v : Z) (k : ChaosConn) : ChaosConn :=
  MkConn (state k) (closeKind k) (localIndex k) v (remoteIndex k) (reason k) (reasonBytes k) (sentNum k)
    (ackedNum k) (receiptNum k) (remoteWindow k) (sendq k) (eofWanted k) (eofSent k) (eofNum k)
    (finishStartMs k) (readNum k) (receivedNum k) (lastAckSent k) (localWindow k) (rcvq k) (eofReceived k)
    (ackDueMs k) (openedMs k) (lastHeardMs k) (lastProbeMs k).
Definition set_remoteIndex (v : Z) (k : ChaosConn) : ChaosConn :=
  MkConn (state k) (closeKind k) (localIndex k) (remoteAddr k) v (reason k) (reasonBytes k) (sentNum k)
    (ackedNum k) (receiptNum k) (remoteWindow k) (sendq k) (eofWanted k) (eofSent k) (eofNum k)
    (finishStartMs k) (readNum k) (receivedNum k) (lastAckSent k) (localWindow k) (rcvq k) (eofReceived k)
    (ackDueMs k) (openedMs k) (lastHeardMs k) (lastProbeMs k).
Definition set_reason (v : list Z) (k : ChaosConn) : ChaosConn :=
  MkConn (state k) (closeKind k) (localIndex k) (remoteAddr k) (remoteIndex k) v (reasonBytes k) (sentNum k)
    (ackedNum k) (receiptNum k) (remoteWindow k) (sendq k) (eofWanted k) (eofSent k) (eofNum k)
    (finishStartMs k) (readNum k) (receivedNum k) (lastAckSent k) (localWindow k) (rcvq k) (eofReceived k)
    (ackDueMs k) (openedMs k) (lastHeardMs k) (lastProbeMs k).
Definition set_reasonBytes (v : Z) (k : ChaosConn) : ChaosConn :=
  MkConn (state k) (closeKind k) (localIndex k) (remoteAddr k) (remoteIndex k) (reason k) v (sentNum k)
    (ackedNum k) (receiptNum k) (remoteWindow k) (sendq k) (eofWanted k) (eofSent k) (eofNum k)
    (finishStartMs k) (readNum k) (receivedNum k) (lastAckSent k) (localWindow k) (rcvq k) (eofReceived k)
    (ackDueMs k) (openedMs k) (lastHeardMs k) (lastProbeMs k).
Definition set_sentNum (v : Z) (k : ChaosConn) : ChaosConn :=
  MkConn (state k) (closeKind k) (localIndex k) (remoteAddr k) (remoteIndex k) (reason k) (reasonBytes k) v
    (ackedNum k) (receiptNum k) (remoteWindow k) (sendq k) (eofWanted k) (eofSent k) (eofNum k)
    (finishStartMs k) (readNum k) (receivedNum k) (lastAckSent k) (localWindow k) (rcvq k) (eofReceived k)
    (ackDueMs k) (openedMs k) (lastHeardMs k) (lastProbeMs k).
Definition set_ackedNum (v : Z) (k : ChaosConn) : ChaosConn :=
  MkConn (state k) (closeKind k) (localIndex k) (remoteAddr k) (remoteIndex k) (reason k) (reasonBytes k)
    (sentNum k) v (receiptNum k) (remoteWindow k) (sendq k) (eofWanted k) (eofSent k) (eofNum k)
    (finishStartMs k) (readNum k) (receivedNum k) (lastAckSent k) (localWindow k) (rcvq k) (eofReceived k)
    (ackDueMs k) (openedMs k) (lastHeardMs k) (lastProbeMs k).
Definition set_receiptNum (v : Z) (k : ChaosConn) : ChaosConn :=
  MkConn (state k) (closeKind k) (localIndex k) (remoteAddr k) (remoteIndex k) (reason k) (reasonBytes k)
    (sentNum k) (ackedNum k) v (remoteWindow k) (sendq k) (eofWanted k) (eofSent k) (eofNum k)
    (finishStartMs k) (readNum k) (receivedNum k) (lastAckSent k) (localWindow k) (rcvq k) (eofReceived k)
    (ackDueMs k) (openedMs k) (lastHeardMs k) (lastProbeMs k).
Definition set_remoteWindow (v : Z) (k : ChaosConn) : ChaosConn :=
  MkConn (state k) (closeKind k) (localIndex k) (remoteAddr k) (remoteIndex k) (reason k) (reasonBytes k)
    (sentNum k) (ackedNum k) (receiptNum k) v (sendq k) (eofWanted k) (eofSent k) (eofNum k)
    (finishStartMs k) (readNum k) (receivedNum k) (lastAckSent k) (localWindow k) (rcvq k) (eofReceived k)
    (ackDueMs k) (openedMs k) (lastHeardMs k) (lastProbeMs k).
Definition set_sendq (v : list ChaosPkt) (k : ChaosConn) : ChaosConn :=
  MkConn (state k) (closeKind k) (localIndex k) (remoteAddr k) (remoteIndex k) (reason k) (reasonBytes k)
    (sentNum k) (ackedNum k) (receiptNum k) (remoteWindow k) v (eofWanted k) (eofSent k) (eofNum k)
    (finishStartMs k) (readNum k) (receivedNum k) (lastAckSent k) (localWindow k) (rcvq k) (eofReceived k)
    (ackDueMs k) (openedMs k) (lastHeardMs k) (lastProbeMs k).
Definition set_eofWanted (v : bool) (k : ChaosConn) : ChaosConn :=
  MkConn (state k) (closeKind k) (localIndex k) (remoteAddr k) (remoteIndex k) (reason k) (reasonBytes k)
    (sentNum k) (ackedNum k) (receiptNum k) (remoteWindow k) (sendq k) v (eofSent k) (eofNum k)
    (finishStartMs k) (readNum k) (receivedNum k) (lastAckSent k) (localWindow k) (rcvq k) (eofReceived k)
    (ackDueMs k) (openedMs k) (lastHeardMs k) (lastProbeMs k).
Definition set_eofSent (v : bool) (k : ChaosConn) : ChaosConn :=
  MkConn (state k) (closeKind k) (localIndex k) (remoteAddr k) (remoteIndex k) (reason k) (reasonBytes k)
    (sentNum k) (ackedNum k) (receiptNum k) (remoteWindow k) (sendq k) (eofWanted k) v (eofNum k)
    (finishStartMs k) (readNum k) (receivedNum k) (lastAckSent k) (localWindow k) (rcvq k) (eofReceived k)
    (ackDueMs k) (openedMs k) (lastHeardMs k) (lastProbeMs k).
Definition set_eofNum (v : Z) (k : ChaosConn) : ChaosConn :=
  MkConn (state k) (closeKind k) (localIndex k) (remoteAddr k) (remoteIndex k) (reason k) (reasonBytes k)
    (sentNum k) (ackedNum k) (receiptNum k) (remoteWindow k) (sendq k) (eofWanted k) (eofSent k) v
    (finishStartMs k) (readNum k) (receivedNum k) (lastAckSent k) (localWindow k) (rcvq k) (eofReceived k)
    (ackDueMs k) (openedMs k) (lastHeardMs k) (lastProbeMs k).
Definition set_finishStartMs (v : Z) (k : ChaosConn) : ChaosConn :=
  MkConn (state k) (closeKind k) (localIndex k) (remoteAddr k) (remoteIndex k) (reason k) (reasonBytes k)
    (sentNum k) (ackedNum k) (receiptNum k) (remoteWindow k) (sendq k) (eofWanted k) (eofSent k) (eofNum k)
    v (readNum k) (receivedNum k) (lastAckSent k) (localWindow k) (rcvq k) (eofReceived k) (ackDueMs k)
    (openedMs k) (lastHeardMs k) (lastProbeMs k).
Definition set_readNum (v : Z) (k : ChaosConn) : ChaosConn :=
  MkConn (state k) (closeKind k) (localIndex k) (remoteAddr k) (remoteIndex k) (reason k) (reasonBytes k)
    (sentNum k) (ackedNum k) (receiptNum k) (remoteWindow k) (sendq k) (eofWanted k) (eofSent k) (eofNum k)
    (finishStartMs k) v (receivedNum k) (lastAckSent k) (localWindow k) (rcvq k) (eofReceived k)
    (ackDueMs k) (openedMs k) (lastHeardMs k) (lastProbeMs k).
Definition set_receivedNum (v : Z) (k : ChaosConn) : ChaosConn :=
  MkConn (state k) (closeKind k) (localIndex k) (remoteAddr k) (remoteIndex k) (reason k) (reasonBytes k)
    (sentNum k) (ackedNum k) (receiptNum k) (remoteWindow k) (sendq k) (eofWanted k) (eofSent k) (eofNum k)
    (finishStartMs k) (readNum k) v (lastAckSent k) (localWindow k) (rcvq k) (eofReceived k) (ackDueMs k)
    (openedMs k) (lastHeardMs k) (lastProbeMs k).
Definition set_lastAckSent (v : Z) (k : ChaosConn) : ChaosConn :=
  MkConn (state k) (closeKind k) (localIndex k) (remoteAddr k) (remoteIndex k) (reason k) (reasonBytes k)
    (sentNum k) (ackedNum k) (receiptNum k) (remoteWindow k) (sendq k) (eofWanted k) (eofSent k) (eofNum k)
    (finishStartMs k) (readNum k) (receivedNum k) v (localWindow k) (rcvq k) (eofReceived k) (ackDueMs k)
    (openedMs k) (lastHeardMs k) (lastProbeMs k).
Definition set_localWindow (v : Z) (k : ChaosConn) : ChaosConn :=
  MkConn (state k) (closeKind k) (localIndex k) (remoteAddr k) (remoteIndex k) (reason k) (reasonBytes k)
    (sentNum k) (ackedNum k) (receiptNum k) (remoteWindow k) (sendq k) (eofWanted k) (eofSent k) (eofNum k)
    (finishStartMs k) (readNum k) (receivedNum k) (lastAckSent k) v (rcvq k) (eofReceived k) (ackDueMs k)
    (openedMs k) (lastHeardMs k) (lastProbeMs k).
Definition set_rcvq (v : list ChaosPkt) (k : ChaosConn) : ChaosConn :=
  MkConn (state k) (closeKind k) (localIndex k) (remoteAddr k) (remoteIndex k) (reason k) (reasonBytes k)
    (sentNum k) (ackedNum k) (receiptNum k) (remoteWindow k) (sendq k) (eofWanted k) (eofSent k) (eofNum k)
    (finishStartMs k) (readNum k) (receivedNum k) (lastAckSent k) (localWindow k) v (eofReceived k)
    (ackDueMs k) (openedMs k) (lastHeardMs k) (lastProbeMs k).
Definition set_eofReceived (v : bool) (k : ChaosConn) : ChaosConn :=
  MkConn (state k) (closeKind k) (localIndex k) (remoteAddr k) (remoteIndex k) (reason k) (reasonBytes k)
    (sentNum k) (ackedNum k) (receiptNum k) (remoteWindow k) (sendq k) (eofWanted k) (eofSent k) (eofNum k)
    (finishStartMs k) (readNum k) (receivedNum k) (lastAckSent k) (localWindow k) (rcvq k) v (ackDueMs k)
    (openedMs k) (lastHeardMs k) (lastProbeMs k).
Definition set_ackDueMs (v : Z) (k : ChaosConn) : ChaosConn :=
  MkConn (state k) (closeKind k) (localIndex k) (remoteAddr k) (remoteIndex k) (reason k) (reasonBytes k)
    (sentNum k) (ackedNum k) (receiptNum k) (remoteWindow k) (sendq k) (eofWanted k) (eofSent k) (eofNum k)
    (finishStartMs k) (readNum k) (receivedNum k) (lastAckSent k) (localWindow k) (rcvq k) (eofReceived k) v
    (openedMs k) (lastHeardMs k) (lastProbeMs k).
Definition set_openedMs (v : Z) (k : ChaosConn) : ChaosConn :=
  MkConn (state k) (closeKind k) (localIndex k) (remoteAddr k) (remoteIndex k) (reason k) (reasonBytes k)
    (sentNum k) (ackedNum k) (receiptNum k) (remoteWindow k) (sendq k) (eofWanted k) (eofSent k) (eofNum k)
    (finishStartMs k) (readNum k) (receivedNum k) (lastAckSent k) (localWindow k) (rcvq k) (eofReceived k)
    (ackDueMs k) v (lastHeardMs k) (lastProbeMs k).
Definition set_lastHeardMs (v : Z) (k : ChaosConn) : ChaosConn :=
  MkConn (state k) (closeKind k) (localIndex k) (remoteAddr k) (remoteIndex k) (reason k) (reasonBytes k)
    (sentNum k) (ackedNum k) (receiptNum k) (remoteWindow k) (sendq k) (eofWanted k) (eofSent k) (eofNum k)
    (finishStartMs k) (readNum k) (receivedNum k) (lastAckSent k) (localWindow k) (rcvq k) (eofReceived k)
    (ackDueMs k) (openedMs k) v (lastProbeMs k).
Definition set_lastProbeMs (v : Z) (k : ChaosConn) : ChaosConn :=
  MkConn (state k) (closeKind k) (localIndex k) (remoteAddr k) (remoteIndex k) (reason k) (reasonBytes k)
    (sentNum k) (ackedNum k) (receiptNum k) (remoteWindow k) (sendq k) (eofWanted k) (eofSent k) (eofNum k)
    (finishStartMs k) (readNum k) (receivedNum k) (lastAckSent k) (localWindow k) (rcvq k) (eofReceived k)
    (ackDueMs k) (openedMs k) (lastHeardMs k) v.

(* chaosd/chaos-core.h:152-160 ChaosArpEntry *)
Record ChaosArpEntry := MkArpEntry {
  valid : bool;
  addr : Z;
  mac : list Z;
  learnedMs : Z;
  requestedMs : Z;
  requested : bool
}.

Definition set_valid (v : bool) (e : ChaosArpEntry) : ChaosArpEntry :=
  MkArpEntry v (addr e) (mac e) (learnedMs e) (requestedMs e) (requested e).
Definition set_addr (v : Z) (e : ChaosArpEntry) : ChaosArpEntry :=
  MkArpEntry (valid e) v (mac e) (learnedMs e) (requestedMs e) (requested e).
Definition set_mac (v : list Z) (e : ChaosArpEntry) : ChaosArpEntry :=
  MkArpEntry (valid e) (addr e) v (learnedMs e) (requestedMs e) (requested e).
Definition set_learnedMs (v : Z) (e : ChaosArpEntry) : ChaosArpEntry :=
  MkArpEntry (valid e) (addr e) (mac e) v (requestedMs e) (requested e).
Definition set_requestedMs (v : Z) (e : ChaosArpEntry) : ChaosArpEntry :=
  MkArpEntry (valid e) (addr e) (mac e) (learnedMs e) v (requested e).
Definition set_requested (v : bool) (e : ChaosArpEntry) : ChaosArpEntry :=
  MkArpEntry (valid e) (addr e) (mac e) (learnedMs e) (requestedMs e) v.

(* chaosd/chaos-core.h:162-181 ChaosCore *)
Record ChaosCore := MkCore {
  myAddr : Z;
  myMac : list Z;
  hostName : list Z;
  core_localWindow : Z;
  initialPktNum : Z;
  conns : list ChaosConn;
  uniquizer : Z;
  arp : list ChaosArpEntry;
  nFramesIn : Z;
  nFramesOut : Z;
  nRetransmits : Z;
  nDuplicates : Z;
  nOverWindow : Z;
  nStatusAnswered : Z;
  nRfcRefused : Z;
  nLosSent : Z;
  emitted : list (list Z)
}.

Definition set_myAddr (v : Z) (c : ChaosCore) : ChaosCore :=
  MkCore v (myMac c) (hostName c) (core_localWindow c) (initialPktNum c) (conns c) (uniquizer c) (arp c)
    (nFramesIn c) (nFramesOut c) (nRetransmits c) (nDuplicates c) (nOverWindow c) (nStatusAnswered c)
    (nRfcRefused c) (nLosSent c) (emitted c).
Definition set_myMac (v : list Z) (c : ChaosCore) : ChaosCore :=
  MkCore (myAddr c) v (hostName c) (core_localWindow c) (initialPktNum c) (conns c) (uniquizer c) (arp c)
    (nFramesIn c) (nFramesOut c) (nRetransmits c) (nDuplicates c) (nOverWindow c) (nStatusAnswered c)
    (nRfcRefused c) (nLosSent c) (emitted c).
Definition set_hostName (v : list Z) (c : ChaosCore) : ChaosCore :=
  MkCore (myAddr c) (myMac c) v (core_localWindow c) (initialPktNum c) (conns c) (uniquizer c) (arp c)
    (nFramesIn c) (nFramesOut c) (nRetransmits c) (nDuplicates c) (nOverWindow c) (nStatusAnswered c)
    (nRfcRefused c) (nLosSent c) (emitted c).
Definition set_core_localWindow (v : Z) (c : ChaosCore) : ChaosCore :=
  MkCore (myAddr c) (myMac c) (hostName c) v (initialPktNum c) (conns c) (uniquizer c) (arp c) (nFramesIn c)
    (nFramesOut c) (nRetransmits c) (nDuplicates c) (nOverWindow c) (nStatusAnswered c) (nRfcRefused c)
    (nLosSent c) (emitted c).
Definition set_initialPktNum (v : Z) (c : ChaosCore) : ChaosCore :=
  MkCore (myAddr c) (myMac c) (hostName c) (core_localWindow c) v (conns c) (uniquizer c) (arp c)
    (nFramesIn c) (nFramesOut c) (nRetransmits c) (nDuplicates c) (nOverWindow c) (nStatusAnswered c)
    (nRfcRefused c) (nLosSent c) (emitted c).
Definition set_conns (v : list ChaosConn) (c : ChaosCore) : ChaosCore :=
  MkCore (myAddr c) (myMac c) (hostName c) (core_localWindow c) (initialPktNum c) v (uniquizer c) (arp c)
    (nFramesIn c) (nFramesOut c) (nRetransmits c) (nDuplicates c) (nOverWindow c) (nStatusAnswered c)
    (nRfcRefused c) (nLosSent c) (emitted c).
Definition set_uniquizer (v : Z) (c : ChaosCore) : ChaosCore :=
  MkCore (myAddr c) (myMac c) (hostName c) (core_localWindow c) (initialPktNum c) (conns c) v (arp c)
    (nFramesIn c) (nFramesOut c) (nRetransmits c) (nDuplicates c) (nOverWindow c) (nStatusAnswered c)
    (nRfcRefused c) (nLosSent c) (emitted c).
Definition set_arp (v : list ChaosArpEntry) (c : ChaosCore) : ChaosCore :=
  MkCore (myAddr c) (myMac c) (hostName c) (core_localWindow c) (initialPktNum c) (conns c) (uniquizer c) v
    (nFramesIn c) (nFramesOut c) (nRetransmits c) (nDuplicates c) (nOverWindow c) (nStatusAnswered c)
    (nRfcRefused c) (nLosSent c) (emitted c).
Definition set_nFramesIn (v : Z) (c : ChaosCore) : ChaosCore :=
  MkCore (myAddr c) (myMac c) (hostName c) (core_localWindow c) (initialPktNum c) (conns c) (uniquizer c)
    (arp c) v (nFramesOut c) (nRetransmits c) (nDuplicates c) (nOverWindow c) (nStatusAnswered c)
    (nRfcRefused c) (nLosSent c) (emitted c).
Definition set_nFramesOut (v : Z) (c : ChaosCore) : ChaosCore :=
  MkCore (myAddr c) (myMac c) (hostName c) (core_localWindow c) (initialPktNum c) (conns c) (uniquizer c)
    (arp c) (nFramesIn c) v (nRetransmits c) (nDuplicates c) (nOverWindow c) (nStatusAnswered c)
    (nRfcRefused c) (nLosSent c) (emitted c).
Definition set_nRetransmits (v : Z) (c : ChaosCore) : ChaosCore :=
  MkCore (myAddr c) (myMac c) (hostName c) (core_localWindow c) (initialPktNum c) (conns c) (uniquizer c)
    (arp c) (nFramesIn c) (nFramesOut c) v (nDuplicates c) (nOverWindow c) (nStatusAnswered c)
    (nRfcRefused c) (nLosSent c) (emitted c).
Definition set_nDuplicates (v : Z) (c : ChaosCore) : ChaosCore :=
  MkCore (myAddr c) (myMac c) (hostName c) (core_localWindow c) (initialPktNum c) (conns c) (uniquizer c)
    (arp c) (nFramesIn c) (nFramesOut c) (nRetransmits c) v (nOverWindow c) (nStatusAnswered c)
    (nRfcRefused c) (nLosSent c) (emitted c).
Definition set_nOverWindow (v : Z) (c : ChaosCore) : ChaosCore :=
  MkCore (myAddr c) (myMac c) (hostName c) (core_localWindow c) (initialPktNum c) (conns c) (uniquizer c)
    (arp c) (nFramesIn c) (nFramesOut c) (nRetransmits c) (nDuplicates c) v (nStatusAnswered c)
    (nRfcRefused c) (nLosSent c) (emitted c).
Definition set_nStatusAnswered (v : Z) (c : ChaosCore) : ChaosCore :=
  MkCore (myAddr c) (myMac c) (hostName c) (core_localWindow c) (initialPktNum c) (conns c) (uniquizer c)
    (arp c) (nFramesIn c) (nFramesOut c) (nRetransmits c) (nDuplicates c) (nOverWindow c) v (nRfcRefused c)
    (nLosSent c) (emitted c).
Definition set_nRfcRefused (v : Z) (c : ChaosCore) : ChaosCore :=
  MkCore (myAddr c) (myMac c) (hostName c) (core_localWindow c) (initialPktNum c) (conns c) (uniquizer c)
    (arp c) (nFramesIn c) (nFramesOut c) (nRetransmits c) (nDuplicates c) (nOverWindow c)
    (nStatusAnswered c) v (nLosSent c) (emitted c).
Definition set_nLosSent (v : Z) (c : ChaosCore) : ChaosCore :=
  MkCore (myAddr c) (myMac c) (hostName c) (core_localWindow c) (initialPktNum c) (conns c) (uniquizer c)
    (arp c) (nFramesIn c) (nFramesOut c) (nRetransmits c) (nDuplicates c) (nOverWindow c)
    (nStatusAnswered c) (nRfcRefused c) v (emitted c).
Definition set_emitted (v : list (list Z)) (c : ChaosCore) : ChaosCore :=
  MkCore (myAddr c) (myMac c) (hostName c) (core_localWindow c) (initialPktNum c) (conns c) (uniquizer c)
    (arp c) (nFramesIn c) (nFramesOut c) (nRetransmits c) (nDuplicates c) (nOverWindow c)
    (nStatusAnswered c) (nRfcRefused c) (nLosSent c) v.

(** Structures after memset. *)
Definition zero_pkt : ChaosPkt := MkPkt false 0 0 0 0 0 (replicate (Z.to_nat CHAOS_MAX_DATA) 0).
Definition zero_ring : list ChaosPkt := replicate (Z.to_nat CHAOS_RING) zero_pkt.
Definition zero_conn : ChaosConn :=
  MkConn CONN_FREE CLOSE_NONE 0 0 0 (replicate (S (Z.to_nat CHAOS_MAX_DATA)) 0) 0 0 0 0 0 zero_ring false false 0 0
    0 0 0 0 zero_ring false 0 0 0 0.
Definition zero_arp_entry : ChaosArpEntry := MkArpEntry false 0 (replicate 6 0) 0 0 false.

(** An unsigned short. *)
Definition u16 (z : Z) : Z := z mod 2 ^ 16.
Definition is_u16 (z : Z) : Prop := 0 <= z < 2 ^ 16.
