(* ===== verification/ChaosCore.v ===== *)
(** The Chaosnet daemon: the protocol core of chaosd/chaos-core.c. ARP for Chaos addresses,
    packets and their retransmission, the acknowledgements and the receive ring of a connection,
    what a frame from the network does, and the timers. *)

From S2P Require Export ChaosState.
From Stdlib Require String Ascii.
Import String.StringSyntax.
#[local] Open Scope vlm_scope.
#[local] Open Scope list_scope.

Abbreviation Core := (M ChaosCore).

Definition u64 (z : Z) : Z := z mod 2 ^ 64.

(** ** Bytes *)

(* chaosd/chaos-core.c:34-37 chaos_get16 *)
Definition chaos_get16 (p : list Z) (offset : Z) : option Z :=
  match nth_Z p offset, nth_Z p (offset + 1) with
  | Some a, Some b => Some (u16 (Z.lor a (Z.shiftl b 8)))
  | _, _ => None
  end.
(* chaosd/chaos-core.c:39-43 chaos_put16 *)
Definition chaos_put16 (v : Z) : list Z := [Z.land v 0xFF; u8 (Z.shiftr v 8)].
(* chaosd/chaos-core.c:46-49 chaos_seq_lt *)
Definition chaos_seq_lt (a b : Z) : bool := negb (Z.land (u16 (a - b)) 0x8000 =? 0).
(* chaosd/chaos-core.c:51-54 seq_diff *)
Definition seq_diff (a b : Z) : Z := u16 (a - b).
(* chaosd/chaos-core.c:56-59 seq_inc *)
Definition seq_inc (a : Z) : Z := u16 (a + 1).

(** [n] bytes of an array from [offset]; undefined when they are not all in it. *)
Definition slice (l : list Z) (offset n : Z) : option (list Z) :=
  if (0 <=? offset) && (0 <=? n) && (offset + n <=? Z.of_nat (length l))
  then Some (take (Z.to_nat n) (drop (Z.to_nat offset) l)) else None.
(** memcpy to the start of an array. *)
Definition put_prefix (src dst : list Z) : option (list Z) :=
  if (length src <=? length dst)%nat then Some (src ++ drop (length src) dst) else None.
Definition bytes_of_string (s : String.string) : list Z :=
  map (fun c => Z.of_nat (Ascii.nat_of_ascii c)) (String.list_ascii_of_string s).
#[global] Arguments bytes_of_string s%_string_scope.
(** The bytes of a C string: those before the first NUL. *)
Fixpoint c_string (l : list Z) : list Z :=
  match l with [] => [] | b :: l' => if b =? 0 then [] else b :: c_string l' end.
Fixpoint bytes_eqb (a b : list Z) : bool :=
  match a, b with
  | [], [] => true
  | x :: a', y :: b' => (x =? y) && bytes_eqb a' b'
  | _, _ => false
  end.
(** Equality of strings without regard to case, in the C locale. *)
Definition tolower (b : Z) : Z := if (65 <=? b) && (b <=? 90) then b + 32 else b.
Definition strcasecmp_eq (a b : list Z) : bool := bytes_eqb (map tolower (c_string a)) (map tolower (c_string b)).
(** An unsigned number as %o prints it. *)
Fixpoint octal_digits (fuel : nat) (n : Z) : list Z :=
  match fuel with
  | O => []
  | S fuel' => (if n <? 8 then [] else octal_digits fuel' (n / 8)) ++ [48 + n mod 8]
  end.
Definition octal (n : Z) : list Z := octal_digits 22 n.

(** ** Access to the core *)

Definition get_conn (h : Z) : Core ChaosConn := l <- gets conns ;; of_option (nth_Z l h).
Definition set_conn (h : Z) (k : ChaosConn) : Core unit := modify (fun c => set_conns (upd_Z (conns c) h k) c).
Definition on_conn (h : Z) (f : ChaosConn -> ChaosConn) : Core unit := k <- get_conn h ;; set_conn h (f k).
Definition get_arp (i : Z) : Core ChaosArpEntry := l <- gets arp ;; of_option (nth_Z l i).
Definition set_arp_entry (i : Z) (e : ChaosArpEntry) : Core unit := modify (fun c => set_arp (upd_Z (arp c) i e) c).
(** The slot of a ring for a packet number. *)
Definition ring_slot (n : Z) : Z := Z.land n (CHAOS_RING - 1).
Definition get_sendq (k : ChaosConn) (n : Z) : Core ChaosPkt := of_option (nth_Z (sendq k) (ring_slot n)).
Definition get_rcvq (k : ChaosConn) (n : Z) : Core ChaosPkt := of_option (nth_Z (rcvq k) (ring_slot n)).
Definition put_sendq (n : Z) (p : ChaosPkt) (k : ChaosConn) : ChaosConn := set_sendq (upd_Z (sendq k) (ring_slot n) p) k.
Definition put_rcvq (n : Z) (p : ChaosPkt) (k : ChaosConn) : ChaosConn := set_rcvq (upd_Z (rcvq k) (ring_slot n) p) k.

(* chaosd/chaos-core.c:128-134 emit_frame *)
Definition emit_frame (frame : list Z) : Core unit :=
  modify (fun c => set_nFramesOut (u64 (nFramesOut c + 1)) c) ;;
  modify (fun c => set_emitted (emitted c ++ [frame]) c).

(** ** ARP *)

(* chaosd/chaos-core.c:145-145 requested *)
Definition arp_used (a : Z) (e : ChaosArpEntry) : bool := (valid e || requested e) && (addr e =? a).
(* chaosd/chaos-core.c:144-146 CHAOS_ARP_ENTRIES *)
Fixpoint arp_index (a i : Z) (l : list ChaosArpEntry) : option Z :=
  match l with [] => None | e :: l' => if arp_used a e then Some i else arp_index a (i + 1) l' end.
(** An entry that is not in use, or else the one learned longest ago. *)
(* chaosd/chaos-core.c:149-161 victim *)
Fixpoint arp_victim (i victim oldest : Z) (l : list ChaosArpEntry) : Z :=
  match l with
  | [] => victim
  | e :: l' =>
      if negb (valid e) && negb (requested e) then i
      else if learnedMs e <? oldest then arp_victim (i + 1) i (learnedMs e) l'
      else arp_victim (i + 1) victim oldest l'
  end.
(* chaosd/chaos-core.c:139-165 arp_find *)
Definition arp_find (a : Z) (create : bool) : Core (option Z) :=
  l <- gets arp ;;
  match arp_index a 0 l with
  | Some i => ret (Some i)
  | None =>
      if create then
        let victim := arp_victim 0 0 (2 ^ 64 - 1) l in
        set_arp_entry victim (set_addr a zero_arp_entry) ;; ret (Some victim)
      else ret None
  end.

(* chaosd/chaos-core.c:167-187 arp_send_request *)
Definition arp_send_request (i nowMs : Z) : Core unit :=
  mine <- gets myMac ;; me <- gets myAddr ;; e <- get_arp i ;;
  let f := replicate 6 0xFF ++ mine ++ [Z.shiftr ARP_ETHERTYPE 8; Z.land ARP_ETHERTYPE 0xFF] ++
           [0; 1; 0x08; 0x04; 6; 2; 0; 1] ++ mine ++ chaos_put16 me ++ replicate 6 0 ++ chaos_put16 (addr e) in
  set_arp_entry i (set_requestedMs nowMs (set_requested true e)) ;;
  emit_frame f.

(* chaosd/chaos-core.c:222-230 chaos_arp_lookup *)
Definition chaos_arp_lookup (a : Z) : Core (option (list Z)) :=
  i <- arp_find a false ;;
  match i with
  | None => ret None
  | Some i => e <- get_arp i ;; ret (if valid e then Some (mac e) else None)
  end.

(** The MAC address, when it is known. *)
(* chaosd/chaos-core.c:235-251 arp_resolve *)
Definition arp_resolve (a nowMs : Z) : Core (option (list Z)) :=
  i <- arp_find a true ;;
  i <- of_option i ;;
  e <- get_arp i ;;
  if valid e then
    when ((CHAOS_ARP_REFRESH_MS <? u64 (nowMs - learnedMs e)) &&
          (negb (requested e) || (CHAOS_ARP_RETRY_MS * 20 <=? u64 (nowMs - requestedMs e))))
      (arp_send_request i nowMs) ;;
    ret (Some (mac e))
  else
    when (negb (requested e) || (CHAOS_ARP_RETRY_MS <=? u64 (nowMs - requestedMs e))) (arp_send_request i nowMs) ;;
    ret None.

(** ** Transmission *)

(** A packet of opcode [op] for [destAddr]/[destIndex]. *)
(* chaosd/chaos-core.c:301-315 CHAOS_ETHERTYPE *)
Definition chaos_frame (dmac smac : list Z) (op destAddr destIndex srcAddr srcIndex n ack : Z) (bytes : list Z) : list Z :=
  dmac ++ smac ++ [Z.shiftr CHAOS_ETHERTYPE 8; Z.land CHAOS_ETHERTYPE 0xFF] ++
  [0; op] ++ chaos_put16 (Z.land (Z.of_nat (length bytes)) 0xFFF) ++ chaos_put16 destAddr ++ chaos_put16 destIndex ++
  chaos_put16 srcAddr ++ chaos_put16 srcIndex ++ chaos_put16 n ++ chaos_put16 ack ++ bytes.

(* chaosd/chaos-core.c:289-317 send_raw *)
Definition send_raw (op destAddr destIndex srcIndex n ack : Z) (bytes : list Z) (nowMs : Z) : Core bool :=
  let bytes := take (Z.to_nat CHAOS_MAX_DATA) bytes in
  dmac <- arp_resolve destAddr nowMs ;;
  match dmac with
  | None => ret false
  | Some dmac =>
      mine <- gets myMac ;; me <- gets myAddr ;;
      emit_frame (chaos_frame dmac mine op destAddr destIndex me srcIndex n ack bytes) ;;
      ret true
  end.

(** Every packet carries what the user has read. *)
(* chaosd/chaos-core.c:324-325 lastAckSent *)
Definition acked_now (k : ChaosConn) : ChaosConn := set_ackDueMs 0 (set_lastAckSent (readNum k) k).
(* chaosd/chaos-core.c:320-328 conn_send_unc *)
Definition conn_send_unc (h op n : Z) (bytes : list Z) (nowMs : Z) : Core unit :=
  on_conn h acked_now ;;
  k <- get_conn h ;;
  send_raw op (remoteAddr k) (remoteIndex k) (localIndex k) n (readNum k) bytes nowMs ;;
  ret tt.

(* chaosd/chaos-core.c:330-337 conn_send_sts *)
Definition conn_send_sts (h nowMs : Z) : Core unit :=
  k <- get_conn h ;;
  conn_send_unc h CHOP_STS 0 (chaos_put16 (receivedNum k) ++ chaos_put16 (localWindow k)) nowMs.

(** The packet is the one in the send ring at [slot]. *)
(* chaosd/chaos-core.c:339-349 conn_transmit *)
Definition conn_transmit (h slot nowMs : Z) : Core unit :=
  k <- get_conn h ;;
  p <- get_sendq k slot ;;
  on_conn h (put_sendq slot (set_sentAtMs nowMs p)) ;;
  on_conn h acked_now ;;
  bytes <- of_option (slice (data p) 0 (nBytes p)) ;;
  send_raw (opcode p) (remoteAddr k) (if opcode p =? CHOP_RFC then 0 else remoteIndex k) (localIndex k) (num p)
    (if opcode p =? CHOP_RFC then 0 else readNum k) bytes nowMs ;;
  ret tt.

(* chaosd/chaos-core.c:351-366 conn_send_controlled *)
Definition conn_send_controlled (h op : Z) (bytes : list Z) (nowMs : Z) : Core unit :=
  on_conn h (fun k => set_sentNum (seq_inc (sentNum k)) k) ;;
  k <- get_conn h ;;
  p <- get_sendq k (sentNum k) ;;
  d <- of_option (put_prefix bytes (data p)) ;;
  on_conn h (put_sendq (sentNum k) (MkPkt true op (sentNum k) (u16 (Z.of_nat (length bytes))) 0 (sentAtMs p) d)) ;;
  conn_transmit h (sentNum k) nowMs.

(** Numbers are followed at most once around half of the number space. *)
Definition seq_fuel : nat := Z.to_nat (2 ^ 15 + 1).
(* chaosd/chaos-core.c:372-381 sentNum *)
Definition retransmit_turn (h nowMs minAgeMs n : Z) : Core (Z + unit) :=
  k <- get_conn h ;;
  if chaos_seq_lt (sentNum k) n then ret (inr tt) else
  p <- get_sendq k n ;;
  if negb (present p) || negb (num p =? n) then ret (inl (seq_inc n)) else
  if u64 (nowMs - sentAtMs p) <? minAgeMs then ret (inl (seq_inc n)) else
  modify (fun c => set_nRetransmits (u64 (nRetransmits c + 1)) c) ;;
  conn_transmit h n nowMs ;;
  ret (inl (seq_inc n)).
(* chaosd/chaos-core.c:368-382 conn_retransmit *)
Definition conn_retransmit (h nowMs minAgeMs : Z) : Core unit :=
  k <- get_conn h ;;
  loop seq_fuel (retransmit_turn h nowMs minAgeMs) (seq_inc (receiptNum k)).

(** ** Learning addresses *)

(* chaosd/chaos-core.c:214-218 conn_retransmit *)
Fixpoint retransmit_to (i : Z) (n : nat) (a nowMs : Z) : Core unit :=
  match n with
  | O => ret tt
  | S n' =>
      k <- get_conn i ;;
      when ((bool_decide (state k = CONN_RFC_SENT) || bool_decide (state k = CONN_OPEN)) && (remoteAddr k =? a))
        (conn_retransmit i nowMs 0) ;;
      retransmit_to (i + 1) n' a nowMs
  end.
(* chaosd/chaos-core.c:192-220 arp_learn *)
Definition arp_learn (a : Z) (m : list Z) (nowMs : Z) : Core unit :=
  me <- gets myAddr ;;
  if (a =? 0) || (a =? me) then ret tt else
  i <- arp_find a true ;;
  i <- of_option i ;;
  e <- get_arp i ;;
  let wasValid := valid e && bytes_eqb (mac e) m in
  set_arp_entry i (MkArpEntry true (addr e) m nowMs (requestedMs e) false) ;;
  if wasValid then ret tt else
  retransmit_to 0 (Z.to_nat CHAOS_MAX_CONNS) a nowMs.

(* chaosd/chaos-core.c:253-282 handle_arp *)
Definition handle_arp (frame : list Z) (nowMs : Z) : Core unit :=
  if Z.of_nat (length frame) <? CHAOS_ARP_FRAME then ret tt else
  let a := drop (Z.to_nat CHAOS_ETH_HEADER) frame in
  head <- of_option (slice a 0 6) ;;
  if negb (bytes_eqb head [0; 1; 0x08; 0x04; 6; 2]) then ret tt else
  spa <- of_option (chaos_get16 a 14) ;;
  tpa <- of_option (chaos_get16 a 22) ;;
  sha <- of_option (slice a 8 6) ;;
  arp_learn spa sha nowMs ;;
  op <- of_option (slice a 6 2) ;;
  me <- gets myAddr ;;
  if negb (bytes_eqb op [0; 1]) || negb (tpa =? me) then ret tt else
  mine <- gets myMac ;;
  emit_frame (sha ++ mine ++ [Z.shiftr ARP_ETHERTYPE 8; Z.land ARP_ETHERTYPE 0xFF] ++
              head ++ [0; 2] ++ mine ++ chaos_put16 me ++ sha ++ chaos_put16 spa).
