(* ===== verification/ChaosNcp.v ===== *)
(** The Chaosnet daemon: the network control program of chaosd/chaos-core.c. Closing and
    acknowledging, the table of connections and its user side, what a frame does to them, and
    the timers. *)

From S2P Require Export ChaosCore.
From Stdlib Require String Ascii.
Import String.StringSyntax.
#[local] Open Scope vlm_scope.

(** ** Closing and acknowledging *)

(* chaosd/chaos-core.c:384-400 conn_set_closed *)
Definition conn_set_closed (h : Z) (kind : ChaosCloseKind) (text : list Z) : Core unit :=
  k <- get_conn h ;;
  let text := take (Z.to_nat CHAOS_MAX_DATA) text in
  r <- of_option (put_prefix (text ++ [0]) (reason k)) ;;
  set_conn h (set_ackDueMs 0 (set_receiptNum (sentNum k) (set_ackedNum (sentNum k)
    (set_sendq (map (set_present false) (sendq k)) (set_reasonBytes (Z.of_nat (length text)) (set_reason r
      (set_closeKind kind (set_state CONN_CLOSED k)))))))).

(* chaosd/chaos-core.c:403-408 conn_close_cls *)
Definition conn_close_cls (h : Z) (why : list Z) (kind : ChaosCloseKind) (nowMs : Z) : Core unit :=
  conn_send_unc h CHOP_CLS 0 why nowMs ;;
  conn_set_closed h kind why.

(* chaosd/chaos-core.c:410-413 conn_window_available *)
Definition conn_window_available (k : ChaosConn) : Z := remoteWindow k - seq_diff (sentNum k) (ackedNum k).

(* chaosd/chaos-core.c:416-425 conn_maybe_send_eof *)
Definition conn_maybe_send_eof (h nowMs : Z) : Core unit :=
  k <- get_conn h ;;
  when (bool_decide (state k = CONN_OPEN) && eofWanted k && negb (eofSent k) && (0 <? conn_window_available k))
    (conn_send_controlled h CHOP_EOF [] nowMs ;;
     on_conn h (fun k => set_eofNum (sentNum k) (set_eofSent true k))).

(* chaosd/chaos-core.c:439-440 sendq *)
Definition receipt_turn (h receipt n : Z) : Core (Z + unit) :=
  if chaos_seq_lt receipt n then ret (inr tt) else
  k <- get_conn h ;;
  p <- get_sendq k n ;;
  set_conn h (put_sendq n (set_present false p) k) ;;
  ret (inl (seq_inc n)).
(* chaosd/chaos-core.c:428-450 conn_process_ack *)
Definition conn_process_ack (h ack receipt nowMs : Z) : Core unit :=
  k <- get_conn h ;;
  if chaos_seq_lt (sentNum k) ack || chaos_seq_lt (sentNum k) receipt then ret tt else
  let receipt := if chaos_seq_lt receipt ack then ack else receipt in
  when (chaos_seq_lt (receiptNum k) receipt)
    (loop seq_fuel (receipt_turn h receipt) (seq_inc (receiptNum k)) ;;
     on_conn h (set_receiptNum receipt)) ;;
  k <- get_conn h ;;
  when (chaos_seq_lt (ackedNum k) ack) (on_conn h (set_ackedNum ack)) ;;
  k <- get_conn h ;;
  if eofSent k && negb (chaos_seq_lt (ackedNum k) (eofNum k)) && bool_decide (state k = CONN_OPEN)
  then conn_close_cls h (bytes_of_string "Finished") CLOSE_DONE nowMs
  else conn_maybe_send_eof h nowMs.

(** ** The table of connections *)

(** The connection with handle [h], if there is one. *)
(* chaosd/chaos-core.c:455-460 conn_for_handle *)
Definition conn_for_handle (h : Z) : Core (option ChaosConn) :=
  if (h <? 0) || (CHAOS_MAX_CONNS <=? h) then ret None else
  k <- get_conn h ;;
  ret (if bool_decide (state k = CONN_FREE) then None else Some k).
(* chaosd/chaos-core.c:467-472 chaos_state *)
Definition chaos_state (h : Z) : Core ChaosConnState :=
  k <- conn_for_handle h ;; ret (match k with None => CONN_FREE | Some k => state k end).

(* chaosd/chaos-core.c:474-486 chaos_core_init *)
Definition chaos_core_init (me : Z) (mine name : list Z) : ChaosCore :=
  MkCore me mine (take 33 (take 32 (c_string name) ++ replicate 33 0)) CHAOS_DEFAULT_WINDOW 0x0100
    (replicate (Z.to_nat CHAOS_MAX_CONNS) zero_conn) 1 (replicate (Z.to_nat CHAOS_ARP_ENTRIES) zero_arp_entry)
    0 0 0 0 0 0 0 0 [].

(* chaosd/chaos-core.c:496-500 CONN_FREE *)
Fixpoint free_index (i : Z) (l : list ChaosConn) : option Z :=
  match l with
  | [] => None
  | k :: l' => if bool_decide (state k = CONN_FREE) then Some i else free_index (i + 1) l'
  end.
(* chaosd/chaos-core.c:488-521 chaos_open *)
Definition chaos_open (a : Z) (contact : list Z) (nowMs : Z) : Core Z :=
  if (Z.of_nat (length contact) =? 0) || (CHAOS_MAX_DATA <? Z.of_nat (length contact)) then ret (-1) else
  l <- gets conns ;;
  match free_index 0 l with
  | None => ret (-1)
  | Some h =>
      c <- gets (fun c => c) ;;
      let u := Z.land (uniquizer c + 1) 0x7FF in
      let first := u16 (initialPktNum c - 1) in
      set_conn h (set_localIndex (u16 (Z.lor (Z.shiftl (uniquizer c) 5) h)) (set_state CONN_RFC_SENT (set_remoteAddr a
        (set_remoteIndex 0 (set_localWindow (core_localWindow c) (set_remoteWindow 1 (set_sentNum first
          (set_ackedNum first (set_receiptNum first (set_openedMs nowMs (set_lastHeardMs nowMs
            (set_lastProbeMs nowMs zero_conn)))))))))))) ;;
      modify (set_uniquizer (if u =? 0 then 1 else u)) ;;
      modify (set_initialPktNum (u16 (initialPktNum c + 0x0100))) ;;
      conn_send_controlled h CHOP_RFC contact nowMs ;;
      ret h
  end.

(** Whether the user may send on the connection. *)
(* chaosd/chaos-core.c:557-557 eofWanted *)
Definition may_send (k : option ChaosConn) : bool :=
  match k with Some k => bool_decide (state k = CONN_OPEN) && negb (eofWanted k) | None => false end.
(* chaosd/chaos-core.c:523-532 chaos_send_room *)
Definition chaos_send_room (h : Z) : Core Z :=
  k <- conn_for_handle h ;;
  ret (match k with
       | Some k' => if may_send k && (0 <? conn_window_available k') then conn_window_available k' * CHAOS_MAX_DATA else 0
       | None => 0
       end).

(* chaosd/chaos-core.c:542-549 conn_window_available *)
Definition send_turn (h nowMs : Z) (l : list Z * Z) : Core ((list Z * Z) + Z) :=
  let '(bytes, sent) := l in
  k <- get_conn h ;;
  match bytes with
  | [] => ret (inr sent)
  | _ =>
      if 0 <? conn_window_available k then
        let chunk := take (Z.to_nat CHAOS_MAX_DATA) bytes in
        conn_send_controlled h CHOP_DAT chunk nowMs ;;
        ret (inl (drop (Z.to_nat CHAOS_MAX_DATA) bytes, sent + Z.of_nat (length chunk)))
      else ret (inr sent)
  end.
(** How many bytes were sent: the window may stop it. *)
(* chaosd/chaos-core.c:534-551 chaos_send *)
Definition chaos_send (h : Z) (bytes : list Z) (nowMs : Z) : Core Z :=
  k <- conn_for_handle h ;;
  if may_send k then loop (S (length bytes)) (send_turn h nowMs) (bytes, 0) else ret 0.

(* chaosd/chaos-core.c:553-562 chaos_finish *)
Definition chaos_finish (h nowMs : Z) : Core unit :=
  k <- conn_for_handle h ;;
  if may_send k then
    on_conn h (fun k => set_finishStartMs nowMs (set_eofWanted true k)) ;;
    conn_maybe_send_eof h nowMs
  else ret tt.

(** Whether something can be read. *)
(* chaosd/chaos-core.c:568-568 readNum *)
Definition readable (k : ChaosConn) : bool := negb (readNum k =? receivedNum k) && negb (eofReceived k).
(* chaosd/chaos-core.c:564-569 chaos_recv_ready *)
Definition chaos_recv_ready (h : Z) : Core bool :=
  k <- conn_for_handle h ;; ret (match k with Some k => readable k | None => false end).
(* chaosd/chaos-core.c:571-576 chaos_recv_eof *)
Definition chaos_recv_eof (h : Z) : Core bool :=
  k <- conn_for_handle h ;; ret (match k with Some k => eofReceived k | None => false end).

(** The bytes got so far, and whether a packet has been used up. *)
(* chaosd/chaos-core.c:586-606 readNum *)
Definition recv_turn (h max : Z) (l : list Z * bool) : Core ((list Z * bool) + (list Z * bool)) :=
  let '(got, advanced) := l in
  k <- get_conn h ;;
  if negb ((Z.of_nat (length got) <? max) && readable k) then ret (inr (got, advanced)) else
  let n := seq_inc (readNum k) in
  p <- get_rcvq k n ;;
  if opcode p =? CHOP_EOF then
    set_conn h (set_readNum n (put_rcvq n (set_present false p) (set_eofReceived true k))) ;;
    ret (inl (got, true))
  else
    let room := max - Z.of_nat (length got) in
    let avail := u64 (nBytes p - offset p) in
    let n_take := if room <? avail then room else avail in
    bytes <- of_option (slice (data p) (offset p) n_take) ;;
    let p := set_offset (u16 (offset p + n_take)) p in
    if offset p <? nBytes p then
      set_conn h (put_rcvq n p k) ;;
      ret (inr (got ++ bytes, advanced))
    else
      set_conn h (set_readNum n (put_rcvq n (set_present false p) k)) ;;
      ret (inl (got ++ bytes, true)).
(** At most as many packets as there are numbers. *)
Definition recv_fuel : nat := Z.to_nat (2 ^ 16 + 1).
(** What the user reads, at most [max] bytes. *)
(* chaosd/chaos-core.c:578-619 chaos_recv *)
Definition chaos_recv (h max nowMs : Z) : Core (list Z) :=
  k <- conn_for_handle h ;;
  match k with
  | None => ret []
  | Some _ =>
      '(got, advanced) <- loop recv_fuel (recv_turn h max) ([], false) ;;
      k <- get_conn h ;;
      when (advanced && bool_decide (state k = CONN_OPEN))
        (if (Z.quot (localWindow k + 1) 2 <=? seq_diff (readNum k) (lastAckSent k)) || eofReceived k
         then conn_send_sts h nowMs
         else when (ackDueMs k =? 0) (on_conn h (set_ackDueMs (u64 (nowMs + CHAOS_ACK_DELAY_MS))))) ;;
      ret got
  end.

(* chaosd/chaos-core.c:621-632 chaos_release *)
Definition chaos_release (h : Z) (why : list Z) (nowMs : Z) : Core unit :=
  k <- conn_for_handle h ;;
  match k with
  | None => ret tt
  | Some k =>
      when (bool_decide (state k = CONN_OPEN)) (conn_send_unc h CHOP_CLS 0 (c_string why) nowMs) ;;
      set_conn h zero_conn
  end.

(** ** Input *)

(** Count a packet that is not wanted, and say what is. *)
(* chaosd/chaos-core.c:657-662 conn_send_sts *)
Definition unwanted (count : ChaosCore -> ChaosCore) (h nowMs : Z) : Core unit :=
  modify count ;; conn_send_sts h nowMs.
(* chaosd/chaos-core.c:646-646 nDuplicates *)
Definition count_duplicate (c : ChaosCore) : ChaosCore := set_nDuplicates (u64 (nDuplicates c + 1)) c.
(* chaosd/chaos-core.c:652-652 nOverWindow *)
Definition count_over_window (c : ChaosCore) : ChaosCore := set_nOverWindow (u64 (nOverWindow c + 1)) c.

(* chaosd/chaos-core.c:671-680 receivedNum *)
Definition advance_turn (h : Z) (_ : unit) : Core (unit + unit) :=
  k <- get_conn h ;;
  let next := seq_inc (receivedNum k) in
  q <- get_rcvq k next ;;
  if negb (present q) || negb (num q =? next) then ret (inr tt) else
  set_conn h (set_receivedNum next k) ;;
  ret (if opcode q =? CHOP_EOF then inr tt else inl tt).
(* chaosd/chaos-core.c:638-684 conn_queue_input *)
Definition conn_queue_input (h : Z) (ch : list Z) (dataBytes nowMs : Z) : Core unit :=
  n <- of_option (chaos_get16 ch 12) ;;
  k <- get_conn h ;;
  if negb (chaos_seq_lt (receivedNum k) n) then unwanted count_duplicate h nowMs else
  if localWindow k <? seq_diff n (readNum k) then unwanted count_over_window h nowMs else
  p <- get_rcvq k n ;;
  if present p && (num p =? n) then unwanted count_duplicate h nowMs else
  op <- of_option (nth_Z ch 1) ;;
  bytes <- of_option (slice ch CHAOS_HEADER dataBytes) ;;
  d <- of_option (put_prefix bytes (data p)) ;;
  set_conn h (put_rcvq n (MkPkt true op n dataBytes 0 (sentAtMs p) d) k) ;;
  loop seq_fuel (advance_turn h) tt ;;
  k <- get_conn h ;;
  when (negb (n =? receivedNum k) && chaos_seq_lt (receivedNum k) n) (conn_send_sts h nowMs).

(* chaosd/chaos-core.c:696-699 contactBytes *)
Fixpoint contact_name (l : list Z) : list Z :=
  match l with [] => [] | b :: l' => if b =? 32 then [] else b :: contact_name l' end.
(* chaosd/chaos-core.c:686-719 handle_rfc *)
Definition handle_rfc (ch : list Z) (dataBytes nowMs : Z) : Core unit :=
  srcAddr <- of_option (chaos_get16 ch 8) ;;
  srcIndex <- of_option (chaos_get16 ch 10) ;;
  n <- of_option (chaos_get16 ch 12) ;;
  bytes <- of_option (slice ch CHAOS_HEADER dataBytes) ;;
  let contact := contact_name bytes in
  if strcasecmp_eq contact (bytes_of_string "STATUS") then
    name <- gets hostName ;;
    modify (fun c => set_nStatusAnswered (u64 (nStatusAnswered c + 1)) c) ;;
    send_raw CHOP_ANS srcAddr srcIndex 0 0 n (take 32 (take 32 (c_string name) ++ replicate 32 0)) nowMs ;;
    ret tt
  else
    modify (fun c => set_nRfcRefused (u64 (nRfcRefused c + 1)) c) ;;
    send_raw CHOP_CLS srcAddr srcIndex 0 0 n (bytes_of_string "No server for contact name " ++ c_string contact) nowMs ;;
    ret tt.

(* chaosd/chaos-core.c:721-728 send_los_reply *)
Definition send_los_reply (ch : list Z) (why : list Z) (nowMs : Z) : Core unit :=
  modify (fun c => set_nLosSent (u64 (nLosSent c + 1)) c) ;;
  srcAddr <- of_option (chaos_get16 ch 8) ;;
  srcIndex <- of_option (chaos_get16 ch 10) ;;
  destIndex <- of_option (chaos_get16 ch 6) ;;
  send_raw CHOP_LOS srcAddr srcIndex destIndex 0 0 why nowMs ;;
  ret tt.

(** Replies get no reply. *)
(* chaosd/chaos-core.c:774-775 CHOP_FWD *)
Definition is_reply (op : Z) : bool := (op =? CHOP_ANS) || (op =? CHOP_CLS) || (op =? CHOP_FWD) || (op =? CHOP_LOS).
(* chaosd/chaos-core.c:792-793 CHAOS_MAX_WINDOW *)
Definition window_limit (w : Z) : Z := if CHAOS_MAX_WINDOW <? w then CHAOS_MAX_WINDOW else w.

(* chaosd/chaos-core.c:782-818 CONN_RFC_SENT *)
Definition input_rfc_sent (h : Z) (ch : list Z) (op dataBytes srcIndex n ack nowMs : Z) : Core unit :=
  if op =? CHOP_OPN then
    if dataBytes <? 4 then ret tt else
    w <- of_option (chaos_get16 ch (CHAOS_HEADER + 2)) ;;
    on_conn h (fun k => set_state CONN_OPEN (set_remoteWindow (window_limit w) (set_lastAckSent n (set_receivedNum n
      (set_readNum n (set_remoteIndex srcIndex k)))))) ;;
    receipt <- of_option (chaos_get16 ch CHAOS_HEADER) ;;
    conn_process_ack h ack receipt nowMs ;;
    conn_send_sts h nowMs
  else if (op =? CHOP_CLS) || (op =? CHOP_LOS) || (op =? CHOP_ANS) then
    text <- of_option (slice ch CHAOS_HEADER dataBytes) ;;
    conn_set_closed h (if op =? CHOP_CLS then CLOSE_CLS else if op =? CHOP_LOS then CLOSE_LOS else CLOSE_ANS) text
  else if op =? CHOP_FWD then
    conn_set_closed h CLOSE_LOS
      (bytes_of_string "Forwarded to host " ++ octal ack ++ bytes_of_string " (forwarding is not supported)")
  else ret tt.

(* chaosd/chaos-core.c:829-869 CONN_OPEN *)
Definition input_open (h : Z) (ch : list Z) (op dataBytes ack nowMs : Z) : Core unit :=
  let if_open (m : Core unit) : Core unit := k <- get_conn h ;; when (bool_decide (state k = CONN_OPEN)) m in
  if (CHOP_DAT <=? op) || (op =? CHOP_EOF) then
    conn_process_ack h ack ack nowMs ;; if_open (conn_queue_input h ch dataBytes nowMs)
  else if op =? CHOP_STS then
    if dataBytes <? 4 then ret tt else
    w <- of_option (chaos_get16 ch (CHAOS_HEADER + 2)) ;;
    on_conn h (set_remoteWindow (window_limit w)) ;;
    receipt <- of_option (chaos_get16 ch CHAOS_HEADER) ;;
    conn_process_ack h ack receipt nowMs ;;
    if_open (conn_retransmit h nowMs CHAOS_STS_RETRANSMIT_MS)
  else if op =? CHOP_SNS then
    conn_process_ack h ack ack nowMs ;; if_open (conn_send_sts h nowMs)
  else if op =? CHOP_OPN then conn_send_sts h nowMs
  else if (op =? CHOP_CLS) || (op =? CHOP_LOS) then
    text <- of_option (slice ch CHAOS_HEADER dataBytes) ;;
    conn_set_closed h (if op =? CHOP_CLS then CLOSE_CLS else CLOSE_LOS) text
  else ret tt.

(** A packet for a connection: which one, and whether it is the peer's. *)
(* chaosd/chaos-core.c:770-827 destIndex *)
Definition input_conn (ch : list Z) (op dataBytes destIndex srcAddr srcIndex n ack nowMs : Z) : Core unit :=
  let h := Z.land destIndex (CHAOS_MAX_CONNS - 1) in
  k <- get_conn h ;;
  if bool_decide (state k = CONN_FREE) || negb (localIndex k =? destIndex) || negb (remoteAddr k =? srcAddr) ||
     (negb (bool_decide (state k = CONN_RFC_SENT)) && negb (remoteIndex k =? srcIndex)) then
    if is_reply op then ret tt else send_los_reply ch (bytes_of_string "No such connection") nowMs
  else
    on_conn h (set_lastHeardMs nowMs) ;;
    match state k with
    | CONN_RFC_SENT => input_rfc_sent h ch op dataBytes srcIndex n ack nowMs
    | CONN_CLOSED =>
        if is_reply op || (op =? CHOP_STS) then ret tt
        else send_los_reply ch (bytes_of_string "Connection in invalid state") nowMs
    | _ => input_open h ch op dataBytes ack nowMs
    end.

(* chaosd/chaos-core.c:730-870 handle_chaos *)
Definition handle_chaos (frame : list Z) (nowMs : Z) : Core unit :=
  if Z.of_nat (length frame) <? CHAOS_ETH_HEADER + CHAOS_HEADER then ret tt else
  let ch := drop (Z.to_nat CHAOS_ETH_HEADER) frame in
  op <- of_option (nth_Z ch 1) ;;
  counts <- of_option (chaos_get16 ch 2) ;;
  let dataBytes := Z.land counts 0xFFF in
  destAddr <- of_option (chaos_get16 ch 4) ;;
  destIndex <- of_option (chaos_get16 ch 6) ;;
  srcAddr <- of_option (chaos_get16 ch 8) ;;
  srcIndex <- of_option (chaos_get16 ch 10) ;;
  n <- of_option (chaos_get16 ch 12) ;;
  ack <- of_option (chaos_get16 ch 14) ;;
  if (CHAOS_MAX_DATA <? dataBytes) || (Z.of_nat (length frame) - CHAOS_ETH_HEADER - CHAOS_HEADER <? dataBytes)
  then ret tt else
  me <- gets myAddr ;;
  smac <- of_option (slice frame 6 6) ;;
  first <- of_option (nth_Z frame 6) ;;
  when ((Z.shiftr srcAddr 8 =? Z.shiftr me 8) && (Z.land first 1 =? 0)) (arp_learn srcAddr smac nowMs) ;;
  if negb (destAddr =? me) then ret tt else
  if op =? CHOP_RFC then handle_rfc ch dataBytes nowMs else
  if (op =? CHOP_BRD) || (op =? CHOP_RUT) || (op =? CHOP_MNT) || (op =? CHOP_LSN) then ret tt else
  input_conn ch op dataBytes destIndex srcAddr srcIndex n ack nowMs.

(* chaosd/chaos-core.c:872-891 chaos_core_input *)
Definition chaos_core_input (frame : list Z) (nowMs : Z) : Core unit :=
  if Z.of_nat (length frame) <? CHAOS_ETH_HEADER then ret tt else
  hi <- of_option (nth_Z frame 12) ;;
  lo <- of_option (nth_Z frame 13) ;;
  let etherType := u16 (Z.lor (Z.shiftl hi 8) lo) in
  if negb (etherType =? CHAOS_ETHERTYPE) && negb (etherType =? ARP_ETHERTYPE) then ret tt else
  smac <- of_option (slice frame 6 6) ;;
  mine <- gets myMac ;;
  if bytes_eqb smac mine then ret tt else
  modify (fun c => set_nFramesIn (u64 (nFramesIn c + 1)) c) ;;
  if etherType =? ARP_ETHERTYPE then handle_arp frame nowMs else handle_chaos frame nowMs.

(** ** Timers *)

(* chaosd/chaos-core.c:902-945 lastHeardMs *)
Definition tick_conn (h nowMs : Z) : Core unit :=
  k <- get_conn h ;;
  match state k with
  | CONN_RFC_SENT =>
      if CHAOS_RFC_TIMEOUT_MS <=? u64 (nowMs - openedMs k)
      then conn_set_closed h CLOSE_TIMEOUT (bytes_of_string "Host not responding")
      else conn_retransmit h nowMs CHAOS_RETRANSMIT_MS
  | CONN_OPEN =>
      let heard := u64 (nowMs - lastHeardMs k) in
      if CHAOS_HOST_DOWN_MS <=? heard
      then conn_set_closed h CLOSE_TIMEOUT (bytes_of_string "Host stopped responding")
      else if eofWanted k && (CHAOS_FINISH_TIMEOUT_MS <=? u64 (nowMs - finishStartMs k))
      then conn_close_cls h (bytes_of_string "Finished (EOF not acknowledged)") CLOSE_DONE nowMs
      else
        conn_retransmit h nowMs CHAOS_RETRANSMIT_MS ;;
        k <- get_conn h ;;
        when (negb (ackDueMs k =? 0) && (ackDueMs k <=? nowMs)) (conn_send_sts h nowMs) ;;
        k <- get_conn h ;;
        when (CHAOS_PROBE_MS <=? u64 (nowMs - lastProbeMs k))
          (on_conn h (set_lastProbeMs nowMs) ;;
           when (negb (ackedNum k =? sentNum k) || (remoteWindow k =? 0) || (CHAOS_LONELY_MS <=? heard))
             (conn_send_unc h CHOP_SNS 0 [] nowMs))
  | _ => ret tt
  end.
(* chaosd/chaos-core.c:900-902 CHAOS_MAX_CONNS *)
Fixpoint tick_conns (h : Z) (n : nat) (nowMs : Z) : Core unit :=
  match n with O => ret tt | S n' => tick_conn h nowMs ;; tick_conns (h + 1) n' nowMs end.
(* chaosd/chaos-core.c:896-947 chaos_core_tick *)
Definition chaos_core_tick (nowMs : Z) : Core unit := tick_conns 0 (Z.to_nat CHAOS_MAX_CONNS) nowMs.

(* chaosd/chaos-core.c:954-963 ackDueMs *)
Fixpoint next_timeout (l : list ChaosConn) (nowMs best : Z) : Z :=
  match l with
  | [] => best
  | k :: l' =>
      next_timeout l' nowMs
        (if bool_decide (state k = CONN_OPEN) && negb (ackDueMs k =? 0) then
           let t := if nowMs <? ackDueMs k then s32 (ackDueMs k - nowMs) else 0 in
           if t <? best then t else best
         else best)
  end.
(* chaosd/chaos-core.c:949-965 chaos_core_next_timeout *)
Definition chaos_core_next_timeout (nowMs maxMs : Z) : Core Z := l <- gets conns ;; ret (next_timeout l nowMs maxMs).
