(* ===== verification/ChaosSeq.v ===== *)
(** Packet numbers: comparison and difference modulo 2^16, the slots of a ring of 64, and the
    core's accesses to its tables. Then what the core's transmissions leave alone: a view of a
    connection that does not look at the times of packets and acknowledgements survives
    whatever is sent. *)

From S2P Require Export ChaosNcp.
#[local] Open Scope vlm_scope.

(** ** Packet numbers *)

Lemma u16_range z : is_u16 (u16 z).
Proof. apply Z.mod_pos_bound. lia. Qed.
Lemma u16_small z : is_u16 z -> u16 z = z.
Proof. apply Z.mod_small. Qed.
Lemma u16_spec z : exists q, u16 z = z - 2 ^ 16 * q.
Proof. exists (z / 2 ^ 16). unfold u16. rewrite Z.mod_eq; lia. Qed.
Lemma u16_idem z : u16 (u16 z) = u16 z.
Proof. apply u16_small, u16_range. Qed.
Lemma u16_add_l a b : u16 (u16 a + b) = u16 (a + b).
Proof. apply Zplus_mod_idemp_l. Qed.
Lemma u16_sub_l a b : u16 (u16 a - b) = u16 (a - b).
Proof. apply Zminus_mod_idemp_l. Qed.
Lemma u16_sub_r a b : u16 (a - u16 b) = u16 (a - b).
Proof. apply Zminus_mod_idemp_r. Qed.
Lemma u16_eq a b : u16 a = u16 b -> exists q, a = b + 2 ^ 16 * q.
Proof. destruct (u16_spec a) as [p Ha], (u16_spec b) as [q Hb]. exists (p - q). lia. Qed.
Lemma u16_add_period a q : u16 (a + 2 ^ 16 * q) = u16 a.
Proof. unfold u16. by rewrite Z.mul_comm, Z.mod_add by lia. Qed.
#[export] Hint Resolve u16_range : vlm_range.

(** Numbers taken modulo 2^16, and differences of less than half of them. *)
Lemma seq_inc_u16 a : seq_inc (u16 a) = u16 (a + 1).
Proof. apply u16_add_l. Qed.
Lemma seq_diff_u16 a b : seq_diff (u16 a) (u16 b) = u16 (a - b).
Proof. unfold seq_diff. by rewrite u16_sub_l, u16_sub_r. Qed.
Lemma seq_diff_small a b : 0 <= a - b < 2 ^ 16 -> seq_diff (u16 a) (u16 b) = a - b.
Proof. intros H. rewrite seq_diff_u16. by apply u16_small. Qed.
Lemma seq_diff_range a b : is_u16 (seq_diff a b).
Proof. apply u16_range. Qed.
Lemma seq_diff_refl a : seq_diff a a = 0.
Proof. unfold seq_diff. by rewrite Z.sub_diag. Qed.

Lemma land_half d : is_u16 d -> Z.land d 0x8000 = 32768 * (d / 32768).
Proof.
  intros R. assert (d / 32768 = 0 \/ d / 32768 = 1) as H.
  { pose proof (Z.div_mod d 32768 ltac:(lia)). pose proof (Z.mod_pos_bound d 32768 ltac:(lia)). unfold is_u16 in R. lia. }
  bits_ext i Hi.
  replace (32768 * (d / 32768)) with (Z.shiftl (Z.shiftr d 15) 15)
    by (rewrite Z.shiftl_mul_pow2, Z.shiftr_div_pow2 by lia; apply Z.mul_comm).
  rewrite Z.land_spec. change 0x8000 with (2 ^ 15). rewrite Z.pow2_bits_eqb by lia.
  rewrite Z.shiftl_spec by lia. destruct (Z.eqb_spec 15 i) as [<-|Hne].
  - by rewrite andb_true_r, Z.shiftr_spec by lia.
  - rewrite andb_false_r. destruct (Z.lt_ge_cases i 15); [by rewrite Z.testbit_neg_r by lia|].
    rewrite Z.shiftr_spec by lia. by rewrite (testbit_above d 16) by (done || lia).
Qed.
Lemma chaos_seq_lt_spec a b : chaos_seq_lt a b = (2 ^ 15 <=? seq_diff a b).
Proof.
  unfold chaos_seq_lt, seq_diff. pose proof (u16_range (a - b)) as R. rewrite land_half by done.
  set (d := u16 (a - b)) in *. unfold is_u16 in R. change (2 ^ 15) with 32768.
  destruct (Z.leb_spec 32768 d), (Z.eqb_spec (32768 * (d / 32768)) 0); try done;
    pose proof (Z.div_mod d 32768 ltac:(lia)); pose proof (Z.mod_pos_bound d 32768 ltac:(lia)); lia.
Qed.
(** Within half of the numbers the comparison is the one of the numbers counted without end. *)
Lemma chaos_seq_lt_u16 a b : - 2 ^ 15 <= a - b < 2 ^ 15 -> chaos_seq_lt (u16 a) (u16 b) = (a <? b).
Proof.
  intros H. rewrite chaos_seq_lt_spec, seq_diff_u16. destruct (Z.ltb_spec a b).
  - rewrite <- (u16_add_period (a - b) 1), u16_small by (unfold is_u16; lia). by destruct (Z.leb_spec (2 ^ 15) (a - b + 2 ^ 16 * 1)); [|lia].
  - rewrite u16_small by (unfold is_u16; lia). by destruct (Z.leb_spec (2 ^ 15) (a - b)); [lia|].
Qed.

(** ** Slots *)

Lemma ring_slot_mod n : ring_slot n = n mod 64.
Proof. unfold ring_slot. change (CHAOS_RING - 1) with (Z.ones 6). by rewrite Z.land_ones. Qed.
Lemma ring_slot_range n : 0 <= ring_slot n < CHAOS_RING.
Proof. rewrite ring_slot_mod. unfold CHAOS_RING. by apply Z.mod_pos_bound. Qed.
Lemma ring_slot_u16 n : ring_slot (u16 n) = ring_slot n.
Proof.
  rewrite !ring_slot_mod. unfold u16. destruct (u16_spec n) as [q E]. unfold u16 in E. rewrite E.
  replace (n - 2 ^ 16 * q) with (n + (- 1024 * q) * 64) by lia. by rewrite Z.mod_add by lia.
Qed.
(** Numbers less than 64 apart have slots of their own. *)
Lemma ring_slot_inj a b : ring_slot a = ring_slot b -> - 64 < a - b < 64 -> a = b.
Proof. rewrite !ring_slot_mod. intros E H. pose proof (Z.div_mod a 64 ltac:(lia)). pose proof (Z.div_mod b 64 ltac:(lia)). lia. Qed.

(** ** Accesses *)

Section access.
Implicit Types (c : ChaosCore) (k : ChaosConn).

Definition conn_at (h : Z) c : option ChaosConn := nth_Z (conns c) h.
Definition with_conn (h : Z) (k : ChaosConn) c : ChaosCore := set_conns (upd_Z (conns c) h k) c.

Lemma run_get_conn {B} h k c (f : ChaosConn -> Core B) : conn_at h c = Some k -> bind (get_conn h) f c = f k c.
Proof. intros E. unfold get_conn. rewrite run_bind_assoc, run_bind_gets. by apply run_bind_option. Qed.
Lemma run_set_conn h k c : set_conn h k c = (Ok tt, with_conn h k c).
Proof. done. Qed.
Lemma run_on_conn h f k c : conn_at h c = Some k -> on_conn h f c = (Ok tt, with_conn h (f k) c).
Proof. intros E. unfold on_conn. by rewrite (run_get_conn h k). Qed.
Lemma conn_at_with h k c : is_Some (conn_at h c) -> conn_at h (with_conn h k c) = Some k.
Proof.
  intros [x E]. unfold conn_at, with_conn in *. cbn [conns set_conns]. apply nth_upd_eq. by eapply nth_Z_bounds.
Qed.
Lemma conn_at_with_eq h k k' c : conn_at h c = Some k' -> conn_at h (with_conn h k c) = Some k.
Proof. intros E. apply conn_at_with. by exists k'. Qed.
Lemma conn_at_with_ne h i k c : h <> i -> conn_at i (with_conn h k c) = conn_at i c.
Proof. intros H. by apply nth_upd_ne. Qed.
Lemma with_conn_same h k c : conn_at h c = Some k -> with_conn h k c = c.
Proof.
  unfold conn_at, with_conn, upd_Z, nth_Z. intros E. destruct (0 <=? h); [|done]. rewrite list_insert_id by done. by destruct c.
Qed.
Lemma with_conn_twice h k k' c : with_conn h k (with_conn h k' c) = with_conn h k c.
Proof. unfold with_conn, upd_Z. cbn [conns set_conns]. destruct (0 <=? h); [|done]. unfold set_conns. cbn. by rewrite list_insert_insert_eq. Qed.
End access.

(** * What the Chaosnet core's transmissions leave alone: a view of a connection that does not
    look at the times of packets and acknowledgements survives whatever is sent. *)

Section keep.
Context {X : Type} (view : ChaosConn -> X) (h : Z).

Definition view_at (c : ChaosCore) : option X := view <$> conn_at h c.
(** However [m] ends, the view of connection [h] is what it was. *)
Definition keeps {A} (m : Core A) : Prop := forall c, view_at (m c).2 = view_at c.

Lemma keeps_ret {A} (a : A) : keeps (ret a).
Proof. done. Qed.
Lemma keeps_bind {A B} (m : Core A) (f : A -> Core B) : keeps m -> (forall a, keeps (f a)) -> keeps (bind m f).
Proof.
  intros Hm Hf c. specialize (Hm c). unfold bind. destruct (m c) as [[a| | | |] c1]; try done.
  cbn [snd] in Hm. rewrite Hf. done.
Qed.
Lemma keeps_if {A} (b : bool) (m1 m2 : Core A) : keeps m1 -> keeps m2 -> keeps (if b then m1 else m2).
Proof. by destruct b. Qed.
Lemma keeps_when b (m : Core unit) : keeps m -> keeps (when b m).
Proof. by destruct b. Qed.
Lemma keeps_option {A} (o : option A) : keeps (of_option o).
Proof. by destruct o. Qed.
Lemma keeps_gets {A} (f : ChaosCore -> A) : keeps (gets f).
Proof. done. Qed.
Lemma keeps_get_conn i : keeps (get_conn i).
Proof. apply keeps_bind; [apply keeps_gets|intros; apply keeps_option]. Qed.
Lemma keeps_modify f : (forall c, conns (f c) = conns c) -> keeps (modify f).
Proof. intros H c. unfold view_at, conn_at. cbn [snd modify]. by rewrite H. Qed.
Lemma keeps_loop {A B} fuel (body : A -> Core (A + B)) : (forall a, keeps (body a)) -> forall a, keeps (loop fuel body a).
Proof.
  intros Hb. induction fuel as [|n IH]; intros a; [done|]. cbn [loop]. apply keeps_bind; [apply Hb|].
  intros [a'|b]; [apply IH|apply keeps_ret].
Qed.
Lemma view_with_conn i k c : (i = h -> forall k0, conn_at h c = Some k0 -> view k = view k0) ->
  view_at (with_conn i k c) = view_at c.
Proof.
  intros H. unfold view_at. destruct (decide (i = h)) as [->|Hne]; [|by rewrite conn_at_with_ne].
  destruct (conn_at h c) as [k0|] eqn:E.
  - rewrite (conn_at_with_eq _ _ _ _ E). simpl. f_equal. by apply H.
  - unfold conn_at, with_conn in *. cbn [conns set_conns]. apply nth_Z_None in E.
    assert (nth_Z (upd_Z (conns c) h k) h = None) as -> by (apply nth_Z_None; by rewrite in_bounds_upd). done.
Qed.
Lemma keeps_on_conn i f : (forall k, view (f k) = view k) -> keeps (on_conn i f).
Proof.
  intros Hf c. unfold on_conn, get_conn. rewrite run_bind_assoc, run_bind_gets.
  destruct (nth_Z (conns c) i) as [k|] eqn:E; [|done]. change (view_at (with_conn i (f k) c) = view_at c).
  apply view_with_conn. intros -> k0 E0. unfold conn_at in E0. rewrite E in E0. injection E0 as <-. apply Hf.
Qed.
(** A connection that is read and written back. *)
Lemma keeps_update {A} i (m : ChaosConn -> Core A) : (forall k c, conn_at i c = Some k -> view_at (m k c).2 = view_at c) ->
  keeps (bind (get_conn i) m).
Proof.
  intros Hm c. unfold get_conn. rewrite run_bind_assoc, run_bind_gets.
  destruct (nth_Z (conns c) i) as [k|] eqn:E; [|done]. by apply Hm.
Qed.

Lemma keeps_set_arp_entry i e : keeps (set_arp_entry i e).
Proof. by apply keeps_modify. Qed.
Lemma keeps_get_arp i : keeps (get_arp i).
Proof. apply keeps_bind; [apply keeps_gets|intros; apply keeps_option]. Qed.
Lemma keeps_emit_frame f : keeps (emit_frame f).
Proof. apply keeps_bind; [by apply keeps_modify|intros; by apply keeps_modify]. Qed.

Lemma keeps_get_sendq k n : keeps (get_sendq k n).
Proof. apply keeps_option. Qed.
Lemma keeps_get_rcvq k n : keeps (get_rcvq k n).
Proof. apply keeps_option. Qed.

End keep.

(** One step of a [keeps] goal. *)
Ltac keep :=
  repeat first
    [ simple apply keeps_ret | simple apply keeps_gets | simple apply keeps_option | simple apply keeps_get_conn | simple apply keeps_get_arp | simple apply keeps_get_sendq
    | simple apply keeps_get_rcvq
    | simple apply keeps_set_arp_entry | simple apply keeps_emit_frame | simple apply keeps_bind; [|intros ?] | simple apply keeps_if | simple apply keeps_when
    | match goal with |- keeps _ _ (match ?o with _ => _ end) => destruct o end | by apply keeps_modify ].

Section sending.
Context {X : Type} (view : ChaosConn -> X) (h : Z).
#[local] Abbreviation keeps := (keeps view h).
#[local] Abbreviation view_at := (view_at view h).

Lemma keeps_arp_find a create : keeps (arp_find a create).
Proof. unfold arp_find. keep. Qed.
Lemma keeps_arp_send_request i nowMs : keeps (arp_send_request i nowMs).
Proof. unfold arp_send_request. keep. Qed.
Lemma keeps_arp_resolve a nowMs : keeps (arp_resolve a nowMs).
Proof. unfold arp_resolve. apply keeps_bind; [apply keeps_arp_find|intros ?]. keep; apply keeps_arp_send_request. Qed.
Lemma keeps_send_raw op da di si n ack bytes nowMs : keeps (send_raw op da di si n ack bytes nowMs).
Proof. unfold send_raw. apply keeps_bind; [apply keeps_arp_resolve|intros ?]. keep. Qed.

(** A view that does not look at the times. *)
Context (Hacked : forall k, view (acked_now k) = view k).
Context (Htimes : forall k n p t, nth_Z (sendq k) (ring_slot n) = Some p -> view (put_sendq n (set_sentAtMs t p) k) = view k).

Lemma keeps_conn_send_unc i op n bytes nowMs : keeps (conn_send_unc i op n bytes nowMs).
Proof. unfold conn_send_unc. apply keeps_bind; [by apply keeps_on_conn|intros ?]. keep. apply keeps_send_raw. Qed.
Lemma keeps_conn_send_sts i nowMs : keeps (conn_send_sts i nowMs).
Proof. unfold conn_send_sts. keep. apply keeps_conn_send_unc. Qed.
Lemma keeps_conn_transmit i n nowMs : keeps (conn_transmit i n nowMs).
Proof.
  unfold conn_transmit. apply keeps_update. intros k c E. unfold get_sendq.
  destruct (nth_Z (sendq k) (ring_slot n)) as [p|] eqn:Ep; [|done]. cbn [of_option]. rewrite run_bind_ret.
  erewrite bind_Ok by (by apply (run_on_conn i _ k)). cbv beta. set (c1 := with_conn _ _ c).
  assert (view_at c1 = view_at c) as <-.
  { apply view_with_conn. intros -> k0 E0. rewrite E in E0. injection E0 as <-. by apply Htimes. }
  match goal with |- view_at (?m c1).2 = _ => assert (keeps m) as H; [|apply H] end.
  apply keeps_bind; [by apply keeps_on_conn|intros ?]. keep. apply keeps_send_raw.
Qed.
Lemma keeps_conn_retransmit i nowMs age : keeps (conn_retransmit i nowMs age).
Proof.
  unfold conn_retransmit. apply keeps_bind; [apply keeps_get_conn|intros ?]. apply keeps_loop. intros n.
  unfold retransmit_turn. keep. apply keeps_conn_transmit.
Qed.
Lemma keeps_retransmit_to n : forall i a nowMs, keeps (retransmit_to i n a nowMs).
Proof.
  induction n as [|n IH]; intros i a nowMs; cbn [retransmit_to]; [apply keeps_ret|]. keep; [apply keeps_conn_retransmit|apply IH].
Qed.
Lemma keeps_arp_learn a m nowMs : keeps (arp_learn a m nowMs).
Proof.
  unfold arp_learn. apply keeps_bind; [apply keeps_gets|intros ?]. apply keeps_if; [apply keeps_ret|].
  apply keeps_bind; [apply keeps_arp_find|intros ?]. keep. apply keeps_retransmit_to.
Qed.
Lemma keeps_handle_arp frame nowMs : keeps (handle_arp frame nowMs).
Proof. unfold handle_arp. keep. apply keeps_arp_learn. Qed.
Lemma keeps_handle_rfc ch n nowMs : keeps (handle_rfc ch n nowMs).
Proof. unfold handle_rfc. keep; apply keeps_send_raw. Qed.
Lemma keeps_send_los_reply ch why nowMs : keeps (send_los_reply ch why nowMs).
Proof. unfold send_los_reply. keep; apply keeps_send_raw. Qed.
End sending.
