(* ===== verification/ChaosInv.v ===== *)
(** The invariant of the Chaosnet core: every operation, on every input, returns without leaving
    an array, and keeps the rings and the packet numbers of all connections consistent. Here
    are sending, learning addresses, closing, acknowledging, and the receive ring; ChaosOps has
    the rest. *)

From S2P Require Export ChaosSeq.
From Stdlib Require String Ascii.
Import String.StringSyntax.
#[local] Open Scope vlm_scope.

(** ** The invariant *)

Record pkt_inv (p : ChaosPkt) : Prop := {
  pkt_offset : 0 <= offset p <= nBytes p;
  pkt_bytes : nBytes p <= CHAOS_MAX_DATA;
  pkt_data : length (data p) = Z.to_nat CHAOS_MAX_DATA
}.
(** The send ring holds what is sent and not receipted, and at most a window is not
    acknowledged; the receive ring holds numbers of the window beyond what is read, and all of
    those up to the in-order mark. *)
Record conn_inv (k : ChaosConn) : Prop := {
  ci_lengths : length (sendq k) = Z.to_nat CHAOS_RING /\ length (rcvq k) = Z.to_nat CHAOS_RING /\
    length (reason k) = S (Z.to_nat CHAOS_MAX_DATA);
  ci_sendq : Forall pkt_inv (sendq k);
  ci_rcvq : Forall pkt_inv (rcvq k);
  ci_words : is_u16 (sentNum k) /\ is_u16 (ackedNum k) /\ is_u16 (receiptNum k) /\ is_u16 (readNum k) /\ is_u16 (receivedNum k);
  ci_windows : 0 <= remoteWindow k <= CHAOS_MAX_WINDOW /\ 0 <= localWindow k < CHAOS_RING;
  ci_sent : seq_diff (sentNum k) (receiptNum k) <= seq_diff (sentNum k) (ackedNum k) <= CHAOS_MAX_WINDOW;
  ci_queued i : 0 <= i < seq_diff (sentNum k) (receiptNum k) ->
    exists p, nth_Z (sendq k) (ring_slot (sentNum k - i)) = Some p /\ present p = true /\ num p = u16 (sentNum k - i);
  ci_only s p : nth_Z (sendq k) s = Some p -> present p = true ->
    s = ring_slot (num p) /\ is_u16 (num p) /\ seq_diff (sentNum k) (num p) < seq_diff (sentNum k) (receiptNum k);
  ci_read : seq_diff (receivedNum k) (readNum k) <= localWindow k;
  ci_ready i : 0 <= i < seq_diff (receivedNum k) (readNum k) ->
    exists p, nth_Z (rcvq k) (ring_slot (receivedNum k - i)) = Some p /\ present p = true /\ num p = u16 (receivedNum k - i);
  ci_held s p : nth_Z (rcvq k) s = Some p -> present p = true ->
    s = ring_slot (num p) /\ is_u16 (num p) /\ 1 <= seq_diff (num p) (readNum k) <= localWindow k;
  ci_rfc : state k = CONN_RFC_SENT -> forall s p, nth_Z (rcvq k) s = Some p -> present p = false
}.
Record core_inv (c : ChaosCore) : Prop := {
  core_conns : length (conns c) = Z.to_nat CHAOS_MAX_CONNS /\ Forall conn_inv (conns c);
  core_arp : length (arp c) = Z.to_nat CHAOS_ARP_ENTRIES /\ Forall (fun e => length (mac e) = 6%nat) (arp c);
  core_mac : length (myMac c) = 6%nat;
  core_window : 0 <= core_localWindow c < CHAOS_RING;
  core_frames : Forall (fun f => Z.of_nat (length f) <= CHAOS_MAX_FRAME) (emitted c)
}.

(** ** Operations that return *)

(** [safe m Q]: from a good core [m] returns a value with [Q], and the core is good again. *)
Definition safe {A} (m : Core A) (Q : A -> Prop) : Prop :=
  forall c, core_inv c -> exists a c', m c = (Ok a, c') /\ core_inv c' /\ Q a.

Lemma safe_ret {A} (a : A) (Q : A -> Prop) : Q a -> safe (ret a) Q.
Proof. intros H c I. by exists a, c. Qed.
Lemma safe_bind {A B} (m : Core A) (f : A -> Core B) Q R : safe m Q -> (forall a, Q a -> safe (f a) R) -> safe (bind m f) R.
Proof.
  intros Hm Hf c I. destruct (Hm c I) as (a & c1 & E & I1 & Ha). destruct (Hf a Ha c1 I1) as (b & c2 & E2 & H2).
  exists b, c2. split; [|done]. by erewrite bind_Ok by exact E.
Qed.
Lemma safe_weaken {A} (m : Core A) (Q R : A -> Prop) : safe m Q -> (forall a, Q a -> R a) -> safe m R.
Proof. intros H HQ c I. destruct (H c I) as (a & c' & E & I' & Ha). exists a, c'. auto. Qed.
Lemma safe_true {A} (m : Core A) (Q : A -> Prop) : safe m Q -> safe m (fun _ => True).
Proof. intros H. by eapply safe_weaken. Qed.
Lemma safe_if {A} (b : bool) (m1 m2 : Core A) Q : (b = true -> safe m1 Q) -> (b = false -> safe m2 Q) -> safe (if b then m1 else m2) Q.
Proof. destruct b; auto. Qed.
Lemma safe_when (b : bool) (m : Core unit) : (b = true -> safe m (fun _ => True)) -> safe (when b m) (fun _ => True).
Proof. destruct b; [auto|]. intros _. by apply safe_ret. Qed.
Lemma safe_option {A} (o : option A) (Q : A -> Prop) : (exists a, o = Some a /\ Q a) -> safe (of_option o) Q.
Proof. intros (a & -> & H). by apply safe_ret. Qed.
Lemma safe_gets {A} (f : ChaosCore -> A) (Q : A -> Prop) : (forall c, core_inv c -> Q (f c)) -> safe (gets f) Q.
Proof. intros H c I. exists (f c), c. auto. Qed.
Lemma safe_modify f : (forall c, core_inv c -> core_inv (f c)) -> safe (modify f) (fun _ => True).
Proof. intros H c I. exists tt, (f c). auto. Qed.

(** ** Accesses *)

Definition handle (h : Z) : Prop := 0 <= h < CHAOS_MAX_CONNS.
Lemma Forall_upd {A} (P : A -> Prop) l i x : Forall P l -> P x -> Forall P (upd_Z l i x).
Proof. intros Hl Hx. unfold upd_Z. destruct (0 <=? i); [|done]. by apply Forall_insert. Qed.
Lemma nth_Z_some {A} (l : list A) i : 0 <= i < Z.of_nat (length l) -> exists x, nth_Z l i = Some x.
Proof. intros H. apply nth_Z_is_Some. by apply in_bounds_spec. Qed.

Lemma handle_conn h c : handle h -> core_inv c -> exists k, conn_at h c = Some k /\ conn_inv k.
Proof.
  intros Hh [[L F] _ _ _ _]. destruct (nth_Z_some (conns c) h) as [k E]; [by rewrite L, Z2Nat.id|].
  exists k. split; [done|]. by eapply Forall_nth_Z.
Qed.
Lemma inv_conn_at h k c : core_inv c -> conn_at h c = Some k -> conn_inv k.
Proof. intros [[_ F] _ _ _ _] E. by eapply Forall_nth_Z. Qed.
Lemma inv_with_conn h k c : core_inv c -> conn_inv k -> core_inv (with_conn h k c).
Proof. intros [[L F] A M W E] K. constructor; try done. simpl. split; [by rewrite upd_Z_length|by apply Forall_upd]. Qed.
Lemma inv_counters c f : core_inv c -> conns (f c) = conns c -> arp (f c) = arp c -> myMac (f c) = myMac c ->
  core_localWindow (f c) = core_localWindow c -> emitted (f c) = emitted c -> core_inv (f c).
Proof. intros [C A M W E] E1 E2 E3 E4 E5. constructor; by rewrite ?E1, ?E2, ?E3, ?E4, ?E5. Qed.

Lemma safe_get_conn h : handle h -> safe (get_conn h) conn_inv.
Proof.
  intros Hh c I. destruct (handle_conn h c Hh I) as (k & E & K). exists k, c. split; [|done].
  unfold get_conn. rewrite run_bind_gets. unfold conn_at in E. by rewrite E.
Qed.
Lemma safe_set_conn h k : conn_inv k -> safe (set_conn h k) (fun _ => True).
Proof. intros K c I. exists tt, (with_conn h k c). split; [done|]. split; [by apply inv_with_conn|done]. Qed.
Lemma safe_on_conn h f : handle h -> (forall k, conn_inv k -> conn_inv (f k)) -> safe (on_conn h f) (fun _ => True).
Proof.
  intros Hh Hf. unfold on_conn. eapply safe_bind; [by apply safe_get_conn|]. intros k K. apply safe_set_conn. auto.
Qed.
Lemma safe_get_arp i : 0 <= i < CHAOS_ARP_ENTRIES -> safe (get_arp i) (fun e => length (mac e) = 6%nat).
Proof.
  intros Hi c I. pose proof I as [_ [L F] _ _ _]. destruct (nth_Z_some (arp c) i) as [e E]; [by rewrite L, Z2Nat.id|].
  exists e, c. split; [|split; [done|exact (Forall_nth_Z _ _ _ _ F E)]]. unfold get_arp. rewrite run_bind_gets. by rewrite E.
Qed.
Lemma safe_set_arp_entry i e : length (mac e) = 6%nat -> safe (set_arp_entry i e) (fun _ => True).
Proof.
  intros H. apply safe_modify. intros c [C [L F] M W E]. constructor; try done. simpl.
  split; [by rewrite upd_Z_length|by apply Forall_upd].
Qed.
Lemma safe_emit_frame f : Z.of_nat (length f) <= CHAOS_MAX_FRAME -> safe (emit_frame f) (fun _ => True).
Proof.
  intros H. unfold emit_frame. eapply safe_bind; [apply safe_modify; intros c I; by apply inv_counters|].
  intros _ _. apply safe_modify. intros c [C A M W E]. constructor; try done. simpl. apply Forall_app. split; [done|].
  by apply Forall_singleton.
Qed.
Lemma safe_myMac : safe (gets myMac) (fun m => length m = 6%nat).
Proof. apply safe_gets. by intros c []. Qed.

(** One step of a [safe] goal. *)
Ltac safe_step :=
  first [ apply safe_ret; done | eapply safe_bind | apply safe_when; intros ? | apply safe_if; intros ?
        | by apply safe_get_conn | by apply safe_get_arp | apply safe_myMac | by apply safe_gets ].

(** ** Addresses and transmission *)

Lemma arp_index_range a l : forall i j, arp_index a i l = Some j -> i <= j < i + Z.of_nat (length l).
Proof.
  induction l as [|e l IH]; intros i j; cbn [arp_index length]; [done|]. destruct (arp_used a e).
  - intros [= ->]. lia.
  - intros H%IH. lia.
Qed.
Lemma arp_victim_range l : forall i victim oldest, 0 <= i -> 0 <= victim < Z.max i 1 -> 1 <= i + Z.of_nat (length l) ->
  0 <= arp_victim i victim oldest l < i + Z.of_nat (length l).
Proof.
  induction l as [|e l IH]; intros i victim oldest Hi Hv Hl; cbn [arp_victim length] in *; [lia|].
  destruct (_ && _); [lia|]. replace (i + Z.of_nat (S (length l))) with ((i + 1) + Z.of_nat (length l)) by lia.
  destruct (_ <? _); apply IH; lia.
Qed.
Lemma safe_arp_find a create : safe (arp_find a create) (fun i => match i with
  | Some i => 0 <= i < CHAOS_ARP_ENTRIES | None => create = false end).
Proof.
  unfold arp_find. eapply safe_bind; [apply (safe_gets _ (fun l => length l = Z.to_nat CHAOS_ARP_ENTRIES)); by intros c [? []]|].
  intros l L. destruct (arp_index a 0 l) as [i|] eqn:E.
  - apply safe_ret. apply arp_index_range in E. rewrite L, Z2Nat.id in E by done. lia.
  - destruct create; [|by apply safe_ret]. eapply safe_bind; [by apply safe_set_arp_entry|]. intros _ _. apply safe_ret.
    pose proof (arp_victim_range l 0 0 (2 ^ 64 - 1) ltac:(lia) ltac:(lia)) as H. rewrite L in H. apply H. by compute.
Qed.
Lemma safe_arp_send_request i nowMs : 0 <= i < CHAOS_ARP_ENTRIES -> safe (arp_send_request i nowMs) (fun _ => True).
Proof.
  intros Hi. unfold arp_send_request. eapply safe_bind; [apply safe_myMac|]. intros m Hm.
  eapply safe_bind; [by apply (safe_gets _ (fun _ => True))|]. intros me _.
  eapply safe_bind; [by apply safe_get_arp|]. intros e He.
  eapply safe_bind; [by apply safe_set_arp_entry|]. intros _ _. apply safe_emit_frame.
  rewrite !length_app, !length_replicate, Hm. by vm_compute.
Qed.
Lemma safe_arp_resolve a nowMs : safe (arp_resolve a nowMs)
  (fun o => match o with Some m => length m = 6%nat | None => True end).
Proof.
  unfold arp_resolve. eapply safe_bind; [apply safe_arp_find|]. intros o Ho.
  eapply (safe_bind _ _ (fun i => 0 <= i < CHAOS_ARP_ENTRIES)); [apply safe_option; destruct o; [by eexists|done]|]. intros i Hi.
  eapply safe_bind; [by apply safe_get_arp|]. intros e He. apply safe_if; intros _.
  - eapply safe_bind; [apply safe_when; intros _; by apply safe_arp_send_request|]. intros _ _. by apply safe_ret.
  - eapply safe_bind; [apply safe_when; intros _; by apply safe_arp_send_request|]. intros _ _. by apply safe_ret.
Qed.
Lemma chaos_frame_length dmac smac op da di sa si n ack bytes :
  length (chaos_frame dmac smac op da di sa si n ack bytes) = (length dmac + length smac + 18 + length bytes)%nat.
Proof. unfold chaos_frame. rewrite !length_app. simpl. lia. Qed.
Lemma safe_send_raw op da di si n ack bytes nowMs : safe (send_raw op da di si n ack bytes nowMs) (fun _ => True).
Proof.
  unfold send_raw. eapply safe_bind; [apply safe_arp_resolve|]. intros [m|] Hm; [|by apply safe_ret].
  eapply safe_bind; [apply safe_myMac|]. intros mine Hmine.
  eapply safe_bind; [by apply (safe_gets _ (fun _ => True))|]. intros me _.
  eapply safe_bind; [apply safe_emit_frame|by intros; apply safe_ret].
  rewrite chaos_frame_length, Hm, Hmine, length_take. unfold CHAOS_MAX_FRAME, CHAOS_ETH_HEADER, CHAOS_HEADER, CHAOS_MAX_DATA. lia.
Qed.

(** ** Changes to a connection *)

Definition ring_fields (k : ChaosConn) :=
  (sendq k, rcvq k, reason k, (sentNum k, ackedNum k, receiptNum k, readNum k, receivedNum k), remoteWindow k, localWindow k).
Lemma conn_inv_frame k k' : conn_inv k -> ring_fields k' = ring_fields k ->
  (state k' = CONN_RFC_SENT -> state k = CONN_RFC_SENT) -> conn_inv k'.
Proof.
  intros [] [= E1 E2 E3 E4 E5 E6 E7 E8 E9 E10] Hs.
  constructor; rewrite ?E1, ?E2, ?E3, ?E4, ?E5, ?E6, ?E7, ?E8, ?E9, ?E10; eauto.
Qed.
(** A window announced by the peer. *)
Lemma conn_inv_window k w : conn_inv k -> 0 <= w <= CHAOS_MAX_WINDOW -> conn_inv (set_remoteWindow w k).
Proof. intros [] Hw. constructor; try done. simpl. split; [done|apply ci_windows0]. Qed.

Lemma conn_inv_touch k n p p' : conn_inv k -> nth_Z (sendq k) (ring_slot n) = Some p -> pkt_inv p' ->
  present p' = present p -> num p' = num p -> conn_inv (put_sendq n p' k).
Proof.
  intros [] E P Ep En. constructor; try done; simpl.
  - by rewrite upd_Z_length.
  - by apply Forall_upd.
  - intros i Hi. destruct (ci_queued0 i Hi) as (q & Eq & Hq). destruct (decide (ring_slot n = ring_slot (sentNum k - i))) as [Es|Es].
    + exists p'. rewrite <- Es in *. rewrite nth_upd_eq by (by eapply nth_Z_bounds). rewrite Ep, En. split; [done|]. congruence.
    + exists q. by rewrite nth_upd_ne.
  - intros s q Eq Hp. destruct (decide (ring_slot n = s)) as [<-|Hne].
    + rewrite nth_upd_eq in Eq by (by eapply nth_Z_bounds). injection Eq as <-. rewrite En. rewrite Ep in Hp. by apply ci_only0.
    + rewrite nth_upd_ne in Eq by done. by apply ci_only0.
Qed.

Lemma get_sendq_some k n : conn_inv k -> exists p, nth_Z (sendq k) (ring_slot n) = Some p /\ pkt_inv p.
Proof.
  intros []. destruct ci_lengths0 as (L & _ & _). pose proof (ring_slot_range n).
  destruct (nth_Z_some (sendq k) (ring_slot n)) as [p E]; [rewrite L, Z2Nat.id; done|]. exists p.
  split; [done|exact (Forall_nth_Z _ _ _ _ ci_sendq0 E)].
Qed.
Lemma get_rcvq_some k n : conn_inv k -> exists p, nth_Z (rcvq k) (ring_slot n) = Some p /\ pkt_inv p.
Proof.
  intros []. destruct ci_lengths0 as (_ & L & _). pose proof (ring_slot_range n).
  destruct (nth_Z_some (rcvq k) (ring_slot n)) as [p E]; [rewrite L, Z2Nat.id; done|]. exists p.
  split; [done|exact (Forall_nth_Z _ _ _ _ ci_rcvq0 E)].
Qed.

(** ** Sending on a connection *)

Lemma safe_conn_send_unc h op n bytes nowMs : handle h -> safe (conn_send_unc h op n bytes nowMs) (fun _ => True).
Proof.
  intros Hh. unfold conn_send_unc. eapply safe_bind.
  { apply safe_on_conn; [done|]. intros k K. by apply (conn_inv_frame k). }
  intros _ _. eapply safe_bind; [by apply safe_get_conn|]. intros k _.
  eapply safe_bind; [apply safe_send_raw|]. intros _ _. by apply safe_ret.
Qed.
Lemma safe_conn_send_sts h nowMs : handle h -> safe (conn_send_sts h nowMs) (fun _ => True).
Proof.
  intros Hh. unfold conn_send_sts. eapply safe_bind; [by apply safe_get_conn|]. intros k _. by apply safe_conn_send_unc.
Qed.
Lemma slice_some l o n : 0 <= o -> 0 <= n -> o + n <= Z.of_nat (length l) -> exists b, slice l o n = Some b /\ length b = Z.to_nat n.
Proof.
  intros Ho Hn Hl. unfold slice. destruct (Z.leb_spec 0 o); [|lia]. destruct (Z.leb_spec 0 n); [|lia].
  destruct (Z.leb_spec (o + n) (Z.of_nat (length l))); [|lia]. eexists. split; [done|].
  rewrite length_take, length_drop. lia.
Qed.
Lemma put_prefix_some src dst : (length src <= length dst)%nat -> exists d, put_prefix src dst = Some d /\ length d = length dst.
Proof.
  intros H. unfold put_prefix. destruct (Nat.leb_spec (length src) (length dst)); [|lia]. eexists. split; [done|].
  rewrite length_app, length_drop. lia.
Qed.
Lemma safe_conn_transmit h n nowMs : handle h -> safe (conn_transmit h n nowMs) (fun _ => True).
Proof.
  intros Hh c I. destruct (handle_conn h c Hh I) as (k & E & K). destruct (get_sendq_some k n K) as (p & Ep & P).
  unfold conn_transmit. rewrite (run_get_conn h k) by done. unfold get_sendq. rewrite (run_bind_option p) by done.
  erewrite bind_Ok by (by apply (run_on_conn h _ k)).
  assert (core_inv (with_conn h (put_sendq n (set_sentAtMs nowMs p) k) c)) as I1.
  { apply inv_with_conn; [done|]. apply (conn_inv_touch k n p); try done. destruct P. by constructor. }
  set (c1 := with_conn _ _ c) in *. clearbody c1. revert c1 I1.
  change (safe (on_conn h acked_now ;; bytes <- of_option (slice (data p) 0 (nBytes p)) ;;
    send_raw (opcode p) (remoteAddr k) (if opcode p =? CHOP_RFC then 0 else remoteIndex k) (localIndex k) (num p)
      (if opcode p =? CHOP_RFC then 0 else readNum k) bytes nowMs ;; ret tt) (fun _ => True)).
  eapply safe_bind. { apply safe_on_conn; [done|]. intros k1 K1. by apply (conn_inv_frame k1). }
  intros _ _. eapply (safe_bind _ _ (fun _ => True)).
  { apply safe_option. destruct P as [? ? L]. destruct (slice_some (data p) 0 (nBytes p)) as (b & Eb & _); [lia|lia| |by exists b].
    rewrite L, Z2Nat.id by done. lia. }
  intros bytes _. eapply safe_bind; [apply safe_send_raw|]. intros _ _. by apply safe_ret.
Qed.

(** The numbers of a connection, counted back from the last one sent. *)
Lemma seq_back a b : is_u16 b -> b = u16 (a - seq_diff a b).
Proof.
  intros Hb. unfold seq_diff. rewrite u16_sub_r. replace (a - (a - b)) with b by lia. by rewrite u16_small.
Qed.
Lemma seq_ahead a b : is_u16 a -> a = u16 (b + seq_diff a b).
Proof.
  intros Ha. unfold seq_diff. rewrite Z.add_comm, u16_add_l. replace (a - b + b) with a by lia. by rewrite u16_small.
Qed.
Lemma seq_diff_back a i : is_u16 a -> 0 <= i < 2 ^ 16 -> seq_diff a (u16 (a - i)) = i.
Proof. intros Ha Hi. unfold seq_diff. rewrite u16_sub_r. replace (a - (a - i)) with i by lia. by apply u16_small. Qed.
Lemma seq_diff_inc a b : is_u16 a -> is_u16 b -> seq_diff a b < 2 ^ 16 - 1 -> seq_diff (seq_inc a) b = seq_diff a b + 1.
Proof.
  intros Ha Hb H. pose proof (seq_diff_range a b) as R. unfold seq_inc, seq_diff in *. rewrite u16_sub_l.
  replace (a + 1 - b) with ((a - b) + 1) by lia. rewrite <- u16_add_l. apply u16_small. unfold is_u16 in *. lia.
Qed.

(** A packet is queued under the next number. *)
Definition next_sent (op : Z) (bytes : list Z) (k : ChaosConn) (p : ChaosPkt) (d : list Z) : ChaosConn :=
  put_sendq (seq_inc (sentNum k)) (MkPkt true op (seq_inc (sentNum k)) (u16 (Z.of_nat (length bytes))) 0 (sentAtMs p) d)
    (set_sentNum (seq_inc (sentNum k)) k).
Lemma conn_inv_next_sent op bytes k p d : conn_inv k -> seq_diff (sentNum k) (ackedNum k) < CHAOS_MAX_WINDOW ->
  Z.of_nat (length bytes) <= CHAOS_MAX_DATA -> length d = Z.to_nat CHAOS_MAX_DATA -> conn_inv (next_sent op bytes k p d).
Proof.
  intros [] Hw Hb Hd. destruct ci_words0 as (Ws & Wa & Wr & Wd & Wv).
  assert (seq_diff (sentNum k) (receiptNum k) < 50) as Hr by (unfold CHAOS_MAX_WINDOW in *; lia).
  pose proof (seq_diff_range (sentNum k) (receiptNum k)) as Rr. unfold is_u16 in Rr.
  assert (seq_inc (sentNum k) = u16 (sentNum k + 1)) as Es by done.
  assert (seq_diff (seq_inc (sentNum k)) (receiptNum k) = seq_diff (sentNum k) (receiptNum k) + 1) as E1
    by (apply seq_diff_inc; [done|done|lia]).
  assert (seq_diff (seq_inc (sentNum k)) (ackedNum k) = seq_diff (sentNum k) (ackedNum k) + 1) as E2
    by (apply seq_diff_inc; [done|done|unfold CHAOS_MAX_WINDOW in *; lia]).
  constructor; try done; cbn [next_sent put_sendq set_sendq sendq set_sentNum sentNum rcvq reason ackedNum receiptNum readNum receivedNum]; rewrite ?E1, ?E2.
  - by rewrite upd_Z_length.
  - apply Forall_upd; [done|]. constructor; cbn [offset nBytes data]; try done;
    rewrite u16_small; unfold is_u16, CHAOS_MAX_DATA in *; lia.
  - split_and!; try done. apply u16_range.
  - unfold CHAOS_MAX_WINDOW in *. lia.
  - intros i Hi. destruct (decide (i = 0)) as [->|Hne].
    + rewrite Z.sub_0_r. eexists. split; [apply nth_upd_eq|].
      { destruct ci_lengths0 as (-> & _). rewrite Z2Nat.id by done. apply ring_slot_range. }
      cbn [present num]. split; [done|]. by rewrite Es, u16_idem.
    + destruct (ci_queued0 (i - 1) ltac:(lia)) as (q & Eq & Hq1 & Hq2). exists q.
      replace (ring_slot (seq_inc (sentNum k) - i)) with (ring_slot (sentNum k - (i - 1))).
      2: { rewrite Es. rewrite <- (ring_slot_u16 (u16 _ - i)), u16_sub_l, ring_slot_u16. f_equal. lia. }
      rewrite nth_upd_ne; [split; [done|]; split; [done|]; rewrite Hq2, Es, u16_sub_l; f_equal; lia|].
      rewrite Es, ring_slot_u16. intros Hs. apply ring_slot_inj in Hs; lia.
  - intros s q Eq Hp. destruct (decide (ring_slot (seq_inc (sentNum k)) = s)) as [<-|Hne].
    + rewrite nth_upd_eq in Eq. 2: { destruct ci_lengths0 as (-> & _). rewrite Z2Nat.id by done. apply ring_slot_range. }
      injection Eq as <-. cbn [num]. rewrite seq_diff_refl. split; [done|]. split; [apply u16_range|lia].
    + rewrite nth_upd_ne in Eq by done. destruct (ci_only0 s q Eq Hp) as (Hs & Wq & Hdiff). split; [done|]. split; [done|].
      rewrite seq_diff_inc by (done || lia). lia.
Qed.

Lemma put_prefix_spec src dst d : put_prefix src dst = Some d -> length d = length dst /\ take (length src) d = src.
Proof.
  unfold put_prefix. destruct (Nat.leb_spec (length src) (length dst)); [|done]. intros [= <-].
  rewrite length_app, length_drop, take_app_length. split; [lia|done].
Qed.
Lemma run_conn_send_controlled h op bytes nowMs c k : conn_at h c = Some k -> conn_inv k ->
  Z.of_nat (length bytes) <= CHAOS_MAX_DATA ->
  exists p d, conn_send_controlled h op bytes nowMs c =
      conn_transmit h (seq_inc (sentNum k)) nowMs (with_conn h (next_sent op bytes k p d) c) /\
    length d = Z.to_nat CHAOS_MAX_DATA /\ take (length bytes) d = bytes.
Proof.
  intros E K Hb. destruct (get_sendq_some k (seq_inc (sentNum k)) K) as (p & Ep & P). destruct P as [_ _ Pd].
  destruct (put_prefix_some bytes (data p)) as (d & Ed & _); [rewrite Pd; lia|].
  destruct (put_prefix_spec _ _ _ Ed) as [Ld Hd]. rewrite Pd in Ld. exists p, d. split; [|done].
  unfold conn_send_controlled. erewrite bind_Ok by (by apply (run_on_conn h _ k)). cbv beta. set (k1 := set_sentNum (seq_inc (sentNum k)) k).
  rewrite (run_get_conn h k1) by (by eapply conn_at_with_eq). unfold get_sendq. rewrite (run_bind_option p) by done.
  rewrite (run_bind_option d) by done. erewrite bind_Ok by (eapply (run_on_conn h _ k1), conn_at_with_eq; exact E).
  by rewrite with_conn_twice.
Qed.
Lemma safe_conn_send_controlled h op bytes nowMs c k : handle h -> core_inv c -> conn_at h c = Some k ->
  seq_diff (sentNum k) (ackedNum k) < CHAOS_MAX_WINDOW -> Z.of_nat (length bytes) <= CHAOS_MAX_DATA ->
  exists c', conn_send_controlled h op bytes nowMs c = (Ok tt, c') /\ core_inv c'.
Proof.
  intros Hh I E Hw Hb. pose proof (inv_conn_at _ _ _ I E) as K.
  destruct (run_conn_send_controlled h op bytes nowMs c k E K Hb) as (p & d & -> & Ld & _).
  destruct (safe_conn_transmit h (seq_inc (sentNum k)) nowMs Hh (with_conn h (next_sent op bytes k p d) c)) as ([] & c' & R & I' & _).
  { apply inv_with_conn; [done|by apply conn_inv_next_sent]. }
  by exists c'.
Qed.

(** ** Loops over packet numbers *)

(** A loop over numbers ends when each turn moves on to the next or stops, and it must stop
    before half of them are passed. *)
Lemma run_seq_loop (J : ChaosCore -> Prop) (body : Z -> Core (Z + unit)) n m : (m < seq_fuel)%nat ->
  (forall j c, (j <= m)%nat -> J c -> exists r c', body (u16 (n + Z.of_nat j)) c = (Ok r, c') /\ J c' /\
    (r = inr tt \/ r = inl (seq_inc (u16 (n + Z.of_nat j))) /\ (j < m)%nat)) ->
  forall c, J c -> exists c', loop seq_fuel body (u16 n) c = (Ok tt, c') /\ J c'.
Proof.
  intros Hm Hb. assert (forall fuel j c, (j <= m)%nat -> (m - j < fuel)%nat -> J c ->
    exists c', loop fuel body (u16 (n + Z.of_nat j)) c = (Ok tt, c') /\ J c') as H.
  { induction fuel as [|fuel IH]; intros j c Hj Hf Hc; [lia|]. cbn [loop].
    destruct (Hb j c Hj Hc) as (r & c1 & R & J1 & [->|[-> Hlt]]); erewrite bind_Ok by exact R; [by exists c1|].
    rewrite seq_inc_u16. replace (n + Z.of_nat j + 1) with (n + Z.of_nat (S j)) by lia. apply IH; [lia|lia|done]. }
  intros c Hc. specialize (H seq_fuel 0%nat c). rewrite Z.add_0_r in H. apply H; [lia|lia|done].
Qed.

Lemma safe_keeps {A X} (view : ChaosConn -> X) h (m : Core A) Q x : safe m Q -> keeps view h m ->
  forall c, core_inv c /\ view_at view h c = x -> exists a c', m c = (Ok a, c') /\ (core_inv c' /\ view_at view h c' = x) /\ Q a.
Proof.
  intros Hm Hk c [I <-]. destruct (Hm c I) as (a & c' & E & I' & Ha). exists a, c'. split; [done|]. split; [|done].
  split; [done|]. specialize (Hk c). by rewrite E in Hk.
Qed.

Definition sent_view (k : ChaosConn) : Z * Z := (sentNum k, receiptNum k).
Lemma safe_retransmit_turn h nowMs age n : handle h ->
  safe (retransmit_turn h nowMs age n) (fun r => r = inr tt \/ r = inl (seq_inc n)).
Proof.
  intros Hh. unfold retransmit_turn. eapply safe_bind; [by apply safe_get_conn|]. intros k K.
  apply safe_if; intros _; [apply safe_ret; by left|]. eapply (safe_bind _ _ (fun _ => True)).
  { apply safe_option. destruct (get_sendq_some k n K) as (p & E & _). by exists p. }
  intros p _. apply safe_if; intros _; [apply safe_ret; by right|]. apply safe_if; intros _; [apply safe_ret; by right|].
  eapply safe_bind; [apply safe_modify; intros c I; by apply inv_counters|]. intros _ _.
  eapply safe_bind; [by apply safe_conn_transmit|]. intros _ _. apply safe_ret. by right.
Qed.
Lemma keeps_retransmit_turn {X} (view : ChaosConn -> X) h i nowMs age n : (forall k, view (acked_now k) = view k) ->
  (forall k n p t, nth_Z (sendq k) (ring_slot n) = Some p -> view (put_sendq n (set_sentAtMs t p) k) = view k) ->
  keeps view h (retransmit_turn i nowMs age n).
Proof. intros H1 H2. unfold retransmit_turn. keep. by apply keeps_conn_transmit. Qed.

Lemma safe_conn_retransmit h nowMs age : handle h -> safe (conn_retransmit h nowMs age) (fun _ => True).
Proof.
  intros Hh c I. destruct (handle_conn h c Hh I) as (k & E & K). unfold conn_retransmit. rewrite (run_get_conn h k) by done.
  destruct K as [_ _ _ (Ws & _ & Wr & _) _ [Hr Ha] _ _ _ _ _ _]. set (d := seq_diff (sentNum k) (receiptNum k)) in *.
  pose proof (seq_diff_range (sentNum k) (receiptNum k)) as Rd. fold d in Rd. unfold is_u16, CHAOS_MAX_WINDOW in *.
  assert (view_at sent_view h c = Some (sentNum k, receiptNum k)) as V by (unfold view_at; by rewrite E).
  destruct (run_seq_loop (fun c => core_inv c /\ view_at sent_view h c = Some (sentNum k, receiptNum k))
    (retransmit_turn h nowMs age) (receiptNum k + 1) (Z.to_nat d)) with (c := c) as (c' & R & I' & _); [|  |done|].
  - apply Nat.lt_le_trans with 51%nat; [lia|]. unfold seq_fuel. change 51%nat with (Z.to_nat 51). apply Z2Nat.inj_le; by compute.
  - intros j c1 Hj [I1 V1]. destruct (safe_keeps sent_view h _ _ (Some (sentNum k, receiptNum k)) (safe_retransmit_turn h nowMs age (u16 (receiptNum k + 1 + Z.of_nat j)) Hh)
      (keeps_retransmit_turn sent_view h h _ _ _ (fun _ => eq_refl) (fun _ _ _ _ _ => eq_refl)) c1 (conj I1 V1)) as (r & c2 & R & J2 & Hr2).
    exists r, c2. split; [done|]. split; [done|]. destruct Hr2 as [->| ->]; [by left|]. right. split; [done|].
    destruct (decide (j < Z.to_nat d)%nat) as [|Hge]; [done|exfalso]. unfold view_at in V1. destruct (conn_at h c1) as [k1|] eqn:E1; [|done].
    injection V1 as Es Er. unfold retransmit_turn in R. rewrite (run_get_conn h k1) in R by done. rewrite Es in R.
    rewrite (seq_ahead (sentNum k) (receiptNum k) Ws), chaos_seq_lt_u16 in R by lia. fold d in R.
    destruct (Z.ltb_spec (receiptNum k + d) (receiptNum k + 1 + Z.of_nat j)); [done|lia].
  - by exists tt, c'.
Qed.

Lemma safe_retransmit_to a nowMs n : forall i, 0 <= i -> i + Z.of_nat n <= CHAOS_MAX_CONNS ->
  safe (retransmit_to i n a nowMs) (fun _ => True).
Proof.
  induction n as [|n IH]; intros i Hi Hn; cbn [retransmit_to]; [by apply safe_ret|].
  assert (handle i) as Hh by (unfold handle; lia).
  eapply safe_bind; [by apply safe_get_conn|]. intros k _.
  eapply safe_bind; [apply safe_when; intros _; by apply safe_conn_retransmit|]. intros _ _. apply IH; lia.
Qed.
Lemma safe_arp_learn a m nowMs : length m = 6%nat -> safe (arp_learn a m nowMs) (fun _ => True).
Proof.
  intros Hm. unfold arp_learn. eapply safe_bind; [by apply (safe_gets _ (fun _ => True))|]. intros me _.
  apply safe_if; intros _; [by apply safe_ret|].
  eapply safe_bind; [apply safe_arp_find|]. intros o Ho.
  eapply (safe_bind _ _ (fun i => 0 <= i < CHAOS_ARP_ENTRIES)); [apply safe_option; destruct o; [by eexists|done]|]. intros i Hi.
  eapply safe_bind; [by apply safe_get_arp|]. intros e He. cbv zeta.
  eapply safe_bind; [by apply safe_set_arp_entry|]. intros _ _. apply safe_if; intros _; [by apply safe_ret|].
  by apply safe_retransmit_to.
Qed.
Lemma slice_length l o n b : slice l o n = Some b -> length b = Z.to_nat n.
Proof.
  unfold slice. destruct (Z.leb_spec 0 o); [|done]. destruct (Z.leb_spec 0 n); [|done].
  destruct (Z.leb_spec (o + n) (Z.of_nat (length l))); [|done]. intros [= <-]. rewrite length_take, length_drop. lia.
Qed.
Lemma safe_slice l o n : 0 <= o -> 0 <= n -> o + n <= Z.of_nat (length l) -> safe (of_option (slice l o n)) (fun b => length b = Z.to_nat n).
Proof. intros Ho Hn Hl. apply safe_option. by apply slice_some. Qed.
Lemma safe_get16 l o : 0 <= o -> o + 2 <= Z.of_nat (length l) -> safe (of_option (chaos_get16 l o)) is_u16.
Proof.
  intros Ho Hl. apply safe_option. unfold chaos_get16. destruct (nth_Z_some l o) as [a ->]; [lia|].
  destruct (nth_Z_some l (o + 1)) as [b ->]; [lia|]. eexists. split; [done|apply u16_range].
Qed.
Lemma safe_byte l o : 0 <= o < Z.of_nat (length l) -> safe (A:=Z) (of_option (nth_Z l o)) (fun _ => True).
Proof. intros H. apply safe_option. destruct (nth_Z_some l o) as [a ->]; [lia|]. by exists a. Qed.

Lemma safe_handle_arp frame nowMs : safe (handle_arp frame nowMs) (fun _ => True).
Proof.
  unfold handle_arp. apply safe_if; [by intros; apply safe_ret|]. intros Hl%Z.ltb_ge. unfold CHAOS_ARP_FRAME, CHAOS_ETH_HEADER in *.
  set (a := drop _ frame). assert (24 <= Z.of_nat (length a)) as La by (unfold a; rewrite length_drop; lia).
  eapply safe_bind; [apply safe_slice; lia|]. intros head Hhead. apply safe_if; intros _; [by apply safe_ret|].
  eapply safe_bind; [apply safe_get16; lia|]. intros spa _. eapply safe_bind; [apply safe_get16; lia|]. intros tpa _.
  eapply safe_bind; [apply safe_slice; lia|]. intros sha Hsha.
  eapply safe_bind; [by apply safe_arp_learn|]. intros _ _. eapply safe_bind; [apply safe_slice; lia|]. intros op _.
  eapply safe_bind; [by apply (safe_gets _ (fun _ => True))|]. intros me _.
  apply safe_if; intros _; [by apply safe_ret|]. eapply safe_bind; [apply safe_myMac|]. intros mine Hmine.
  apply safe_emit_frame. rewrite !length_app, Hsha, Hmine, Hhead. by vm_compute.
Qed.

(** * Closing and acknowledging keep the invariant of the Chaosnet core; then the receive ring of
    a connection: what reading and queueing do to it, and that the invariant survives. *)

(** ** Closing *)

Lemma safe_conn_set_closed h kind text : handle h -> safe (conn_set_closed h kind text) (fun _ => True).
Proof.
  intros Hh. unfold conn_set_closed. eapply safe_bind; [by apply safe_get_conn|]. intros k K. cbv zeta. set (t := take _ text).
  assert (length t <= Z.to_nat CHAOS_MAX_DATA)%nat as Lt by (unfold t; rewrite length_take; lia).
  eapply (safe_bind _ _ (fun r => length r = S (Z.to_nat CHAOS_MAX_DATA))).
  { apply safe_option. destruct K as [(_ & _ & Lr) _ _ _ _ _ _ _ _ _ _ _]. rewrite <- Lr. apply put_prefix_some.
    rewrite length_app, Lr. cbn [length]. lia. }
  intros r Lr. apply safe_set_conn. destruct K as [(L1 & L2 & _) F1 F2 (W1 & W2 & W3 & W4 & W5) Wn _ _ _ Rd Ry Rh _].
  assert (forall s p, nth_Z (map (set_present false) (sendq k)) s = Some p -> present p = false) as Hab.
  { intros s p. unfold nth_Z. destruct (0 <=? s); [|done]. rewrite list_lookup_fmap. by intros (q & _ & ->)%fmap_Some. }
  constructor; cbn [sendq rcvq reason sentNum ackedNum receiptNum readNum receivedNum remoteWindow localWindow state
    set_ackDueMs set_receiptNum set_ackedNum set_sendq set_reasonBytes set_reason set_closeKind set_state]; try done.
  - by rewrite length_map.
  - apply Forall_map. eapply Forall_impl; [exact F1|]. by intros p [].
  - rewrite !seq_diff_refl. done.
  - intros i Hi. rewrite seq_diff_refl in Hi. lia.
  - intros s p Hp E. by rewrite (Hab s p Hp) in E.
Qed.
Lemma safe_conn_close_cls h why kind nowMs : handle h -> safe (conn_close_cls h why kind nowMs) (fun _ => True).
Proof.
  intros Hh. unfold conn_close_cls. eapply safe_bind; [by apply safe_conn_send_unc|]. intros _ _. by apply safe_conn_set_closed.
Qed.
Lemma safe_conn_maybe_send_eof h nowMs : handle h -> safe (conn_maybe_send_eof h nowMs) (fun _ => True).
Proof.
  intros Hh c I. destruct (handle_conn h c Hh I) as (k & E & K). unfold conn_maybe_send_eof.
  rewrite (run_get_conn h k) by done. destruct (_ && (0 <? conn_window_available k)) eqn:B; cbn [when]; [|by exists tt, c].
  apply andb_prop in B as [_ B%Z.ltb_lt]. unfold conn_window_available in B. destruct (ci_windows _ K) as [[_ Hw] _].
  destruct (safe_conn_send_controlled h CHOP_EOF [] nowMs c k Hh I E) as (c1 & R & I1); [lia|done|].
  erewrite bind_Ok by exact R. apply (safe_on_conn h); [done| |done]. intros k1 K1. by apply (conn_inv_frame k1).
Qed.

(** ** Acknowledgements *)

(** Clearing the send slots of [m] numbers from [n]. *)
Fixpoint clear_slots (m : nat) (n : Z) (q : list ChaosPkt) : list ChaosPkt :=
  match m with
  | O => q
  | S m' => clear_slots m' (n + 1)
      (match nth_Z q (ring_slot n) with Some p => upd_Z q (ring_slot n) (set_present false p) | None => q end)
  end.
Lemma clear_slots_length m : forall n q, length (clear_slots m n q) = length q.
Proof.
  induction m as [|m IH]; intros n q; [done|]. cbn [clear_slots]. rewrite IH. destruct (nth_Z _ _); [apply upd_Z_length|done].
Qed.
Lemma clear_slots_inv m : forall n q, Forall pkt_inv q -> Forall pkt_inv (clear_slots m n q).
Proof.
  induction m as [|m IH]; intros n q F; [done|]. cbn [clear_slots]. apply IH. destruct (nth_Z _ _) as [p|] eqn:E; [|done].
  apply Forall_upd; [done|]. pose proof (Forall_nth_Z _ _ _ _ F E) as P. by destruct P.
Qed.
Lemma clear_slots_other m : forall n q s, (forall j, 0 <= j < Z.of_nat m -> ring_slot (n + j) <> s) ->
  nth_Z (clear_slots m n q) s = nth_Z q s.
Proof.
  induction m as [|m IH]; intros n q s H; [done|]. cbn [clear_slots]. rewrite IH.
  - destruct (nth_Z q (ring_slot n)); [|done]. rewrite nth_upd_ne; [done|]. specialize (H 0 ltac:(lia)). by rewrite Z.add_0_r in H.
  - intros j Hj. specialize (H (j + 1) ltac:(lia)). by replace (n + 1 + j) with (n + (j + 1)) by lia.
Qed.
(** What is present afterwards was present before, in a slot that was not cleared. *)
Lemma clear_slots_present m : forall n q s p, nth_Z (clear_slots m n q) s = Some p -> present p = true ->
  nth_Z q s = Some p /\ forall j, 0 <= j < Z.of_nat m -> ring_slot (n + j) <> s.
Proof.
  induction m as [|m IH]; intros n q s p E Hp; [split; [done|lia]|]. cbn [clear_slots] in E. apply IH in E as [E H]; [|done].
  assert (ring_slot n <> s) as Hn.
  { intros Hs. rewrite Hs in E. destruct (nth_Z q s) as [p0|] eqn:E0; [|congruence].
    rewrite nth_upd_eq in E by (by eapply nth_Z_bounds). injection E as <-. done. }
  split.
  - destruct (nth_Z q (ring_slot n)); [|done]. by rewrite nth_upd_ne in E.
  - intros j Hj. destruct (decide (j = 0)) as [->|]; [by rewrite Z.add_0_r|].
    specialize (H (j - 1) ltac:(lia)). by replace (n + 1 + (j - 1)) with (n + j) in H by lia.
Qed.

Lemma run_receipt_loop h m : forall fuel n k c, conn_at h c = Some k -> length (sendq k) = Z.to_nat CHAOS_RING ->
  (m < fuel)%nat -> (m < Z.to_nat (2 ^ 15))%nat ->
  loop fuel (receipt_turn h (u16 (n + Z.of_nat m - 1))) (u16 n) c =
  (Ok tt, with_conn h (set_sendq (clear_slots m n (sendq k)) k) c).
Proof.
  assert (0 < Z.of_nat (Z.to_nat (2 ^ 15)) <= 2 ^ 15) as H15 by (rewrite Z2Nat.id; lia).
  induction m as [|m IH]; intros fuel n k c E L Hf Hm; (destruct fuel as [|fuel]; [lia|]); cbn [loop clear_slots].
  - unfold receipt_turn. rewrite chaos_seq_lt_u16 by lia. destruct (Z.ltb_spec (n + Z.of_nat 0 - 1) n); [|lia].
    rewrite run_bind_ret, with_conn_same; [done|]. rewrite E. f_equal. by destruct k.
  - unfold receipt_turn at 1. rewrite chaos_seq_lt_u16 by lia. destruct (Z.ltb_spec (n + Z.of_nat (S m) - 1) n); [lia|].
    rewrite run_bind_assoc, (run_get_conn h k) by done. unfold get_sendq. rewrite ring_slot_u16.
    destruct (nth_Z_some (sendq k) (ring_slot n)) as [p Ep]; [rewrite L; apply ring_slot_range|]. rewrite Ep. cbn [of_option].
    rewrite run_bind_assoc, run_bind_ret, run_bind_assoc. erewrite bind_Ok by apply run_set_conn. rewrite run_bind_ret.
    rewrite seq_inc_u16. replace (n + Z.of_nat (S m) - 1) with (n + 1 + Z.of_nat m - 1) by lia.
    set (k1 := put_sendq (u16 n) _ k). rewrite (IH fuel (n + 1) k1).
    + rewrite with_conn_twice. f_equal. f_equal. unfold k1, put_sendq. rewrite ring_slot_u16. done.
    + by eapply conn_at_with_eq.
    + unfold k1. simpl. by rewrite upd_Z_length.
    + lia.
    + lia.
Qed.

(** [r'] is receipted: the slots up to it are cleared. *)
Definition receipted (r' : Z) (k : ChaosConn) : ChaosConn :=
  set_receiptNum r' (set_sendq (clear_slots (Z.to_nat (seq_diff r' (receiptNum k))) (receiptNum k + 1) (sendq k)) k).
Lemma seq_diff_trans a b c : is_u16 a -> is_u16 b -> is_u16 c -> seq_diff a b <= seq_diff a c ->
  seq_diff b c = seq_diff a c - seq_diff a b.
Proof.
  intros Ha Hb Hc H. pose proof (seq_diff_range a b) as R1. pose proof (seq_diff_range a c) as R2.
  rewrite (seq_back a b Hb), (seq_back a c Hc) at 1. rewrite seq_diff_u16.
  replace (a - seq_diff a b - (a - seq_diff a c)) with (seq_diff a c - seq_diff a b) by lia.
  apply u16_small. unfold is_u16 in *. lia.
Qed.
Lemma conn_inv_receipted k r' : conn_inv k -> is_u16 r' ->
  seq_diff (sentNum k) r' <= seq_diff (sentNum k) (receiptNum k) -> conn_inv (receipted r' k).
Proof.
  intros [L F1 F2 W Wn Sn Qd On Rd Ry Hl Rf] Wr' Hr. destruct W as (Ws & Wa & Wr & Wd & Wv).
  assert (seq_diff r' (receiptNum k) = seq_diff (sentNum k) (receiptNum k) - seq_diff (sentNum k) r') as Ed by (by apply seq_diff_trans).
  set (d := seq_diff (sentNum k) (receiptNum k)) in *. set (d' := seq_diff (sentNum k) r') in *.
  pose proof (seq_diff_range (sentNum k) r') as R'. pose proof (seq_diff_range (sentNum k) (receiptNum k)) as R. fold d d' in R, R'.
  unfold is_u16, CHAOS_MAX_WINDOW in *.
  assert (forall i, ring_slot (sentNum k - i) = ring_slot (receiptNum k + d - i)) as Hslot.
  { intros i. rewrite (seq_ahead (sentNum k) (receiptNum k) Ws) at 1. rewrite <- ring_slot_u16, u16_sub_l, ring_slot_u16. done. }
  constructor; try done; cbn [receipted set_receiptNum set_sendq sendq rcvq sentNum ackedNum receiptNum]; fold d'; rewrite ?Ed.
  - by rewrite clear_slots_length.
  - by apply clear_slots_inv.
  - unfold CHAOS_MAX_WINDOW. lia.
  - intros i Hi. destruct (Qd i ltac:(lia)) as (p & Ep & Hp). exists p. split; [|done].
    rewrite clear_slots_other; [done|]. intros j Hj. rewrite Z2Nat.id in Hj by lia. rewrite Hslot. intros E.
    apply ring_slot_inj in E; lia.
  - intros s p Ep Hp. apply clear_slots_present in Ep as [Ep Hc]; [|done]. destruct (On s p Ep Hp) as (Es & Wp & Hd).
    split; [done|]. split; [done|]. destruct (Z.lt_ge_cases (seq_diff (sentNum k) (num p)) d') as [|Hge]; [done|exfalso].
    pose proof (seq_diff_range (sentNum k) (num p)) as Rp. unfold is_u16 in Rp.
    apply (Hc (d - 1 - seq_diff (sentNum k) (num p))); [rewrite Z2Nat.id; lia|]. rewrite Es.
    rewrite (seq_back (sentNum k) (num p) Wp) at 2. rewrite ring_slot_u16, Hslot. f_equal. lia.
Qed.
Lemma conn_inv_acked k a : conn_inv k -> is_u16 a -> seq_diff (sentNum k) a <= seq_diff (sentNum k) (ackedNum k) ->
  seq_diff (sentNum k) (receiptNum k) <= seq_diff (sentNum k) a -> conn_inv (set_ackedNum a k).
Proof.
  intros [L F1 F2 W Wn Sn Qd On Rd Ry Hl Rf] Wa H1 H2. constructor; try done; cbn [set_ackedNum ackedNum sentNum receiptNum readNum receivedNum].
  - destruct W as (? & ? & ? & ? & ?). by split_and!.
  - lia.
Qed.

(** The connection after an acknowledgement. *)
Definition acknowledged (ack receipt : Z) (k : ChaosConn) : ChaosConn :=
  let receipt := if chaos_seq_lt receipt ack then ack else receipt in
  let k := if chaos_seq_lt (receiptNum k) receipt then receipted receipt k else k in
  if chaos_seq_lt (ackedNum k) ack then set_ackedNum ack k else k.
Lemma seq_lt_back s a b : is_u16 a -> is_u16 b -> seq_diff s a < 2 ^ 15 -> seq_diff s b < 2 ^ 15 ->
  chaos_seq_lt a b = (seq_diff s b <? seq_diff s a).
Proof.
  intros Ha Hb H1 H2. pose proof (seq_diff_range s a) as R1. pose proof (seq_diff_range s b) as R2. unfold is_u16 in *.
  rewrite (seq_back s a Ha), (seq_back s b Hb) at 1. rewrite chaos_seq_lt_u16 by lia.
  destruct (Z.ltb_spec (s - seq_diff s a) (s - seq_diff s b)), (Z.ltb_spec (seq_diff s b) (seq_diff s a)); lia.
Qed.
Lemma conn_inv_acknowledged ack receipt k : conn_inv k -> is_u16 ack -> is_u16 receipt ->
  chaos_seq_lt (sentNum k) ack = false -> chaos_seq_lt (sentNum k) receipt = false -> conn_inv (acknowledged ack receipt k).
Proof.
  intros K Wa Wr. rewrite !chaos_seq_lt_spec. intros Ha%Z.leb_gt Hr%Z.leb_gt.
  destruct (ci_words _ K) as (Ws & Wk & Wt & _). pose proof (ci_sent _ K) as [S1 S2]. unfold CHAOS_MAX_WINDOW in S2.
  unfold acknowledged. set (r := if chaos_seq_lt receipt ack then ack else receipt).
  assert (is_u16 r /\ seq_diff (sentNum k) r < 2 ^ 15 /\ seq_diff (sentNum k) r <= seq_diff (sentNum k) ack) as (Wr' & Hr1 & Hr2).
  { unfold r. rewrite (seq_lt_back (sentNum k)) by done. destruct (Z.ltb_spec (seq_diff (sentNum k) ack) (seq_diff (sentNum k) receipt));
      split_and!; try done; lia. }
  clearbody r. rewrite (seq_lt_back (sentNum k) (receiptNum k) r) by (done || lia).
  set (k1 := if seq_diff (sentNum k) r <? seq_diff (sentNum k) (receiptNum k) then receipted r k else k).
  assert (conn_inv k1 /\ seq_diff (sentNum k1) (receiptNum k1) <= seq_diff (sentNum k) r /\ sentNum k1 = sentNum k /\ ackedNum k1 = ackedNum k)
    as (K1 & H1 & E1 & E2).
  { unfold k1. destruct (Z.ltb_spec (seq_diff (sentNum k) r) (seq_diff (sentNum k) (receiptNum k))).
    - split; [apply conn_inv_receipted; (done || lia)|]. split; [|done]. simpl. lia.
    - split; [done|]. split; [lia|done]. }
  clearbody k1. rewrite (seq_lt_back (sentNum k)) by (rewrite ?E2; done || lia). rewrite E2.
  destruct (Z.ltb_spec (seq_diff (sentNum k) ack) (seq_diff (sentNum k) (ackedNum k))); [|done].
  apply conn_inv_acked; [done|done| |]; rewrite E1 in *; rewrite ?E2; lia.
Qed.

Lemma run_receipts h r k c : conn_at h c = Some k -> conn_inv k -> is_u16 r -> seq_diff (sentNum k) r < 2 ^ 15 ->
  chaos_seq_lt (receiptNum k) r = true ->
  (loop seq_fuel (receipt_turn h r) (seq_inc (receiptNum k)) ;; on_conn h (set_receiptNum r)) c =
  (Ok tt, with_conn h (receipted r k) c).
Proof.
  intros E K Wr Hr Hlt. destruct K as [(L & _) _ _ (Ws & Wk & Wt & _) _ [S1 S2] _ _ _ _ _ _]. unfold CHAOS_MAX_WINDOW in S2.
  rewrite (seq_lt_back (sentNum k)) in Hlt by (done || lia). apply Z.ltb_lt in Hlt.
  pose proof (seq_diff_trans (sentNum k) r (receiptNum k) Ws Wr Wt ltac:(lia)) as Ed. pose proof (seq_diff_range (sentNum k) r) as R.
  unfold is_u16 in R. set (d := seq_diff r (receiptNum k)) in *.
  assert (r = u16 (receiptNum k + 1 + Z.of_nat (Z.to_nat d) - 1)) as Er.
  { rewrite Z2Nat.id by lia. rewrite (seq_ahead r (receiptNum k) Wr). f_equal. unfold d. lia. }
  rewrite Er at 1. change (seq_inc (receiptNum k)) with (u16 (receiptNum k + 1)).
  erewrite bind_Ok.
  2: { apply run_receipt_loop; [exact E|done| |apply Z2Nat.inj_lt; lia]. unfold seq_fuel. apply Z2Nat.inj_lt; lia. }
  erewrite run_on_conn by (by eapply conn_at_with_eq). by rewrite with_conn_twice.
Qed.
Lemma acknowledged_fields ack receipt k : (eofSent (acknowledged ack receipt k), eofNum (acknowledged ack receipt k),
  state (acknowledged ack receipt k)) = (eofSent k, eofNum k, state k).
Proof. unfold acknowledged. by repeat destruct (chaos_seq_lt _ _). Qed.
Lemma run_conn_process_ack h ack receipt nowMs k c : conn_at h c = Some k -> conn_inv k -> is_u16 ack -> is_u16 receipt ->
  conn_process_ack h ack receipt nowMs c =
  if chaos_seq_lt (sentNum k) ack || chaos_seq_lt (sentNum k) receipt then (Ok tt, c) else
  let k1 := acknowledged ack receipt k in
  if eofSent k1 && negb (chaos_seq_lt (ackedNum k1) (eofNum k1)) && bool_decide (state k1 = CONN_OPEN)
  then conn_close_cls h (bytes_of_string "Finished") CLOSE_DONE nowMs (with_conn h k1 c)
  else conn_maybe_send_eof h nowMs (with_conn h k1 c).
Proof.
  intros E K Wa Wr. unfold conn_process_ack. rewrite (run_get_conn h k) by done.
  destruct (chaos_seq_lt (sentNum k) ack) eqn:Ha; [done|]. destruct (chaos_seq_lt (sentNum k) receipt) eqn:Hr; [done|]. cbn [orb].
  rewrite chaos_seq_lt_spec in Ha, Hr. apply Z.leb_gt in Ha, Hr. unfold acknowledged.
  set (r := if chaos_seq_lt receipt ack then ack else receipt).
  assert (is_u16 r /\ seq_diff (sentNum k) r < 2 ^ 15) as [Wr' Hr'] by (unfold r; by destruct (chaos_seq_lt receipt ack)). clearbody r.
  cbv zeta. set (k1 := if chaos_seq_lt (receiptNum k) r then receipted r k else k).
  erewrite (bind_Ok _ _ c tt (with_conn h k1 c)).
  2: { unfold k1. destruct (chaos_seq_lt (receiptNum k) r) eqn:Hlt; cbn [when]; [by apply run_receipts|by rewrite with_conn_same]. }
  assert (conn_at h (with_conn h k1 c) = Some k1) as E1 by (by eapply conn_at_with_eq). clearbody k1.
  rewrite (run_get_conn h k1) by done. set (k2 := if chaos_seq_lt (ackedNum k1) ack then set_ackedNum ack k1 else k1).
  erewrite (bind_Ok _ _ _ tt (with_conn h k2 c)).
  2: { unfold k2. destruct (chaos_seq_lt (ackedNum k1) ack); cbn [when]; [|done]. erewrite run_on_conn by exact E1. by rewrite with_conn_twice. }
  rewrite (run_get_conn h k2) by (by eapply conn_at_with_eq).
  by destruct (eofSent k2 && negb (chaos_seq_lt (ackedNum k2) (eofNum k2)) && bool_decide (state k2 = CONN_OPEN)).
Qed.
Lemma safe_conn_process_ack h ack receipt nowMs : handle h -> is_u16 ack -> is_u16 receipt ->
  safe (conn_process_ack h ack receipt nowMs) (fun _ => True).
Proof.
  intros Hh Wa Wr c I. destruct (handle_conn h c Hh I) as (k & E & K). rewrite (run_conn_process_ack h ack receipt nowMs k) by done.
  destruct (chaos_seq_lt (sentNum k) ack) eqn:Ha; [by exists tt, c|]. destruct (chaos_seq_lt (sentNum k) receipt) eqn:Hr; [by exists tt, c|].
  cbn [orb]. cbv zeta. assert (core_inv (with_conn h (acknowledged ack receipt k) c)) as I1
    by (apply inv_with_conn; [done|by apply conn_inv_acknowledged]).
  destruct (eofSent _ && _ && _); [by apply safe_conn_close_cls|by apply safe_conn_maybe_send_eof].
Qed.

(** * The receive ring of a Chaosnet connection: what reading and queueing do to it, and that the
    invariant survives. *)

(** ** Reading *)

(** Packet [n], in its slot, has been read. *)
Definition consumed (n : Z) (p : ChaosPkt) (k : ChaosConn) : ChaosConn := set_readNum n (put_rcvq n (set_present false p) k).
Lemma readable_diff k : conn_inv k -> readable k = true -> 1 <= seq_diff (receivedNum k) (readNum k) < 64.
Proof.
  intros [_ _ _ (_ & _ & _ & Wr & Wv) [_ Ww] _ _ _ Rd _ _ _]. unfold readable. intros [H _]%andb_prop.
  apply negb_true_iff, Z.eqb_neq in H. pose proof (seq_diff_range (receivedNum k) (readNum k)) as R. unfold is_u16, CHAOS_RING in *.
  destruct (decide (seq_diff (receivedNum k) (readNum k) = 0)) as [E|]; [|lia].
  exfalso. apply H. rewrite (seq_ahead (receivedNum k) (readNum k)), E by done. by rewrite Z.add_0_r, u16_small.
Qed.
(** The next packet to read is in its slot. *)
Lemma next_packet k : conn_inv k -> 1 <= seq_diff (receivedNum k) (readNum k) ->
  exists p, nth_Z (rcvq k) (ring_slot (seq_inc (readNum k))) = Some p /\ present p = true /\ num p = seq_inc (readNum k) /\ pkt_inv p.
Proof.
  intros [_ _ F2 (_ & _ & _ & Wr & Wv) _ _ _ _ _ Ry _ _] H.
  destruct (Ry (seq_diff (receivedNum k) (readNum k) - 1)) as (p & E & Hp & Hn); [lia|]. exists p.
  assert (u16 (receivedNum k - (seq_diff (receivedNum k) (readNum k) - 1)) = seq_inc (readNum k)) as Eq.
  { unfold seq_inc. rewrite (seq_back (receivedNum k) (readNum k) Wr) at 2. rewrite u16_add_l. f_equal. lia. }
  rewrite <- ring_slot_u16, Eq in E. rewrite Eq in Hn. split_and!; try done. exact (Forall_nth_Z _ _ _ _ F2 E).
Qed.
Lemma seq_diff_next a b : is_u16 a -> is_u16 b -> 1 <= seq_diff a b -> seq_diff a (seq_inc b) = seq_diff a b - 1.
Proof.
  intros Ha Hb H. pose proof (seq_diff_range a b) as R. unfold seq_diff, seq_inc in *. rewrite u16_sub_r.
  replace (a - (b + 1)) with ((a - b) - 1) by lia. rewrite <- u16_sub_l. apply u16_small. unfold is_u16 in *. lia.
Qed.
Lemma conn_inv_consumed k p : conn_inv k -> 1 <= seq_diff (receivedNum k) (readNum k) ->
  nth_Z (rcvq k) (ring_slot (seq_inc (readNum k))) = Some p -> conn_inv (consumed (seq_inc (readNum k)) p k).
Proof.
  intros [L F1 F2 W Wn Sn Qd On Rd Ry Hl Rf] Hd Ep. destruct W as (Ws & Wa & Wr & Wd & Wv). destruct Wn as [Wn1 Wn2]. unfold CHAOS_RING in *.
  constructor; try done; cbn [consumed put_rcvq set_rcvq set_readNum rcvq sendq reason readNum receivedNum localWindow sentNum ackedNum receiptNum state];
    rewrite ?(seq_diff_next (receivedNum k) (readNum k)) by done.
  - by rewrite upd_Z_length.
  - apply Forall_upd; [done|]. pose proof (Forall_nth_Z _ _ _ _ F2 Ep) as P. by destruct P.
  - split_and!; try done. apply u16_range.
  - lia.
  - intros i Hi. destruct (Ry i ltac:(lia)) as (q & Eq & Hq). exists q. rewrite nth_upd_ne; [done|].
    unfold seq_inc. rewrite ring_slot_u16. rewrite (seq_ahead (receivedNum k) (readNum k) Wv), <- (ring_slot_u16 (u16 _ - i)), u16_sub_l, ring_slot_u16.
    intros E. apply ring_slot_inj in E; lia.
  - intros s q Eq Hp. destruct (decide (ring_slot (seq_inc (readNum k)) = s)) as [<-|Hne].
    { rewrite nth_upd_eq in Eq by (by eapply nth_Z_bounds). by injection Eq as <-. }
    rewrite nth_upd_ne in Eq by done. destruct (Hl s q Eq Hp) as (Es & Wq & Hw). split; [done|]. split; [done|].
    rewrite seq_diff_next by (done || lia). destruct (decide (seq_diff (num q) (readNum k) = 1)) as [E1|]; [|lia].
    exfalso. apply Hne. rewrite Es. f_equal. rewrite (seq_ahead (num q) (readNum k) Wq), E1. done.
  - intros Hs s q Eq. destruct (decide (ring_slot (seq_inc (readNum k)) = s)) as [<-|Hne].
    { rewrite nth_upd_eq in Eq by (by eapply nth_Z_bounds). by injection Eq as <-. }
    rewrite nth_upd_ne in Eq by done. by eapply Rf.
Qed.
Lemma conn_inv_rtouch k n p p' : conn_inv k -> nth_Z (rcvq k) (ring_slot n) = Some p -> pkt_inv p' ->
  present p' = present p -> num p' = num p -> conn_inv (put_rcvq n p' k).
Proof.
  intros [L F1 F2 W Wn Sn Qd On Rd Ry Hl Rf] E P Ep En. constructor; try done; simpl.
  - by rewrite upd_Z_length.
  - by apply Forall_upd.
  - intros i Hi. destruct (Ry i Hi) as (q & Eq & Hq). destruct (decide (ring_slot n = ring_slot (receivedNum k - i))) as [Es|Es].
    + exists p'. rewrite <- Es in *. rewrite nth_upd_eq by (by eapply nth_Z_bounds). rewrite Ep, En. split; [done|]. congruence.
    + exists q. by rewrite nth_upd_ne.
  - intros s q Eq Hp. destruct (decide (ring_slot n = s)) as [<-|Hne].
    + rewrite nth_upd_eq in Eq by (by eapply nth_Z_bounds). injection Eq as <-. rewrite En. rewrite Ep in Hp. by apply Hl.
    + rewrite nth_upd_ne in Eq by done. by apply Hl.
  - intros Hs s q Eq. destruct (decide (ring_slot n = s)) as [<-|Hne].
    + rewrite nth_upd_eq in Eq by (by eapply nth_Z_bounds). injection Eq as <-. rewrite Ep. by eapply Rf.
    + rewrite nth_upd_ne in Eq by done. by eapply Rf.
Qed.

(** ** Queueing *)

(** A packet of the window is put in its slot. *)
Lemma conn_inv_queued k n p : conn_inv k -> state k <> CONN_RFC_SENT -> is_u16 n -> chaos_seq_lt (receivedNum k) n = true ->
  seq_diff n (readNum k) <= localWindow k -> pkt_inv p -> num p = n -> conn_inv (put_rcvq n p k).
Proof.
  intros [L F1 F2 W Wn Sn Qd On Rd Ry Hl Rf] Hst Wn' Hlt Hw P Hn. destruct W as (Ws & Wa & Wr & Wd & Wv). destruct Wn as [Wn1 Wn2].
  unfold CHAOS_RING in *. rewrite chaos_seq_lt_spec in Hlt. apply Z.leb_le in Hlt.
  pose proof (seq_diff_range n (readNum k)) as R1. pose proof (seq_diff_range (receivedNum k) (readNum k)) as R2. unfold is_u16 in R1, R2.
  assert (seq_diff (receivedNum k) (readNum k) < seq_diff n (readNum k)) as Hgt.
  { destruct (Z.lt_ge_cases (seq_diff (receivedNum k) (readNum k)) (seq_diff n (readNum k))) as [|Hge]; [done|exfalso].
    rewrite (seq_ahead n (readNum k) Wn'), (seq_ahead (receivedNum k) (readNum k) Wv) in Hlt. rewrite seq_diff_u16 in Hlt.
    rewrite u16_small in Hlt; unfold is_u16; lia. }
  constructor; try done; simpl.
  - by rewrite upd_Z_length.
  - by apply Forall_upd.
  - intros i Hi. destruct (Ry i Hi) as (q & Eq & Hq). exists q. rewrite nth_upd_ne; [done|].
    rewrite (seq_ahead n (readNum k) Wn'), ring_slot_u16.
    rewrite (seq_ahead (receivedNum k) (readNum k) Wv), <- (ring_slot_u16 (u16 _ - i)), u16_sub_l, ring_slot_u16.
    intros E. apply ring_slot_inj in E; lia.
  - intros s q Eq Hp. destruct (decide (ring_slot n = s)) as [<-|Hne].
    + rewrite nth_upd_eq in Eq. 2: { destruct L as (_ & -> & _). rewrite Z2Nat.id by done. apply ring_slot_range. }
      injection Eq as <-. rewrite Hn. split; [done|]. split; [done|lia].
    + rewrite nth_upd_ne in Eq by done. by apply Hl.
Qed.
(** The in-order mark moves over a packet that is there. *)
Lemma conn_inv_advanced k p : conn_inv k -> nth_Z (rcvq k) (ring_slot (seq_inc (receivedNum k))) = Some p ->
  present p = true -> num p = seq_inc (receivedNum k) -> conn_inv (set_receivedNum (seq_inc (receivedNum k)) k) /\
  seq_diff (seq_inc (receivedNum k)) (readNum k) = seq_diff (receivedNum k) (readNum k) + 1.
Proof.
  intros [L F1 F2 W Wn Sn Qd On Rd Ry Hl Rf] Ep Hp Hn. destruct W as (Ws & Wa & Wr & Wd & Wv). destruct Wn as [Wn1 Wn2].
  assert (seq_diff (seq_inc (receivedNum k)) (readNum k) = seq_diff (receivedNum k) (readNum k) + 1) as Ed
    by (apply seq_diff_inc; [done|done|unfold CHAOS_RING in *; lia]).
  split; [|done]. constructor; try done; cbn [set_receivedNum rcvq sendq reason readNum receivedNum localWindow sentNum ackedNum receiptNum state].
  - split_and!; try done. apply u16_range.
  - rewrite <- Hn. by apply (Hl (ring_slot (seq_inc (receivedNum k)))).
  - rewrite Ed. intros i Hi. destruct (decide (i = 0)) as [->|].
    + exists p. rewrite Z.sub_0_r. split; [done|]. split; [done|]. rewrite Hn. symmetry. apply u16_small, u16_range.
    + destruct (Ry (i - 1) ltac:(lia)) as (q & Eq & Hq1 & Hq2). exists q. unfold seq_inc.
      rewrite <- ring_slot_u16, u16_sub_l. replace (receivedNum k + 1 - i) with (receivedNum k - (i - 1)) by lia. by rewrite ring_slot_u16.
Qed.
