(* ===== verification/ChaosOps.v ===== *)
(** Every operation of the Chaosnet core, on every input, returns and keeps the invariant. *)

From S2P Require Export ChaosInv.
From Stdlib Require String Ascii.
Import String.StringSyntax.
#[local] Open Scope vlm_scope.

(** ** The user side *)

Lemma safe_conn_for_handle h : safe (conn_for_handle h) (fun o => match o with
  | Some k => handle h /\ conn_inv k /\ state k <> CONN_FREE | None => True end).
Proof.
  unfold conn_for_handle. apply safe_if; [by intros; apply safe_ret|]. intros [H1%Z.ltb_ge H2%Z.leb_gt]%orb_false_elim.
  eapply safe_bind; [by apply safe_get_conn|]. intros k K. apply safe_ret. case_bool_decide; [done|]. by split.
Qed.
Lemma zero_pkt_inv : pkt_inv zero_pkt.
Proof. constructor; [done|done|apply length_replicate]. Qed.
Lemma zero_ring_absent s p : nth_Z zero_ring s = Some p -> present p = false.
Proof. unfold nth_Z. destruct (0 <=? s); [|done]. intros E. by apply lookup_replicate in E as [-> _]. Qed.
(** A connection on which nothing is outstanding. *)
Lemma conn_inv_fresh k n : sendq k = zero_ring -> rcvq k = zero_ring -> length (reason k) = S (Z.to_nat CHAOS_MAX_DATA) ->
  sentNum k = n -> ackedNum k = n -> receiptNum k = n -> is_u16 n -> readNum k = 0 -> receivedNum k = 0 ->
  0 <= remoteWindow k <= CHAOS_MAX_WINDOW -> 0 <= localWindow k < CHAOS_RING -> conn_inv k.
Proof.
  intros E1 E2 L <- Ea Er Wn Ed Ev H1 H2. constructor; rewrite ?E1, ?E2, ?Ea, ?Er, ?Ed, ?Ev, ?seq_diff_refl; try done; try (intros; lia).
  - apply Forall_replicate, zero_pkt_inv.
  - apply Forall_replicate, zero_pkt_inv.
  - intros s p Ep Hp. apply zero_ring_absent in Ep. congruence.
  - intros s p Ep Hp. apply zero_ring_absent in Ep. congruence.
  - intros _ s p. apply zero_ring_absent.
Qed.
Lemma zero_conn_inv : conn_inv zero_conn.
Proof. by apply (conn_inv_fresh _ 0). Qed.

Lemma free_index_range l : forall i h, free_index i l = Some h -> i <= h < i + Z.of_nat (length l).
Proof.
  induction l as [|k l IH]; intros i h; cbn [free_index length]; [done|]. case_bool_decide; [intros [= ->]; lia|].
  intros Hr%IH. lia.
Qed.
Lemma safe_chaos_open a contact nowMs : safe (chaos_open a contact nowMs) (fun _ => True).
Proof.
  unfold chaos_open. apply safe_if; [by intros; apply safe_ret|]. intros [_ Hc%Z.ltb_ge]%orb_false_elim. intros c I.
  rewrite run_bind_gets. destruct (free_index 0 (conns c)) as [h|] eqn:Eh; [|by exists (-1), c].
  apply free_index_range in Eh. pose proof I as [[L _] _ _ Wc _]. rewrite L, Z2Nat.id in Eh by done.
  assert (handle h) as Hh by (unfold handle; lia). destruct (handle_conn h c Hh I) as (k0 & E0 & _).
  rewrite run_bind_gets. cbv zeta. erewrite bind_Ok by apply run_set_conn. set (k := set_localIndex _ _). rewrite !run_bind_modify.
  set (c1 := set_initialPktNum _ _). assert (core_inv c1 /\ conn_at h c1 = Some k) as [I1 E1].
  { unfold c1. split; [|by apply conn_at_with_eq with k0].
    apply (inv_counters (set_uniquizer _ _) (set_initialPktNum _)); try done. apply (inv_counters (with_conn h k c) (set_uniquizer _)); try done.
    apply inv_with_conn; [done|]. apply (conn_inv_fresh _ (u16 (initialPktNum c - 1))); try done. apply u16_range. }
  destruct (safe_conn_send_controlled h CHOP_RFC contact nowMs c1 k Hh I1 E1) as (c2 & R & I2); [|done|].
  { change (seq_diff (u16 (initialPktNum c - 1)) (u16 (initialPktNum c - 1)) < CHAOS_MAX_WINDOW). by rewrite seq_diff_refl. }
  erewrite bind_Ok by exact R. by exists h, c2.
Qed.

(** A loop that gets nearer to its end. *)
Lemma safe_loop {A B} (body : A -> Core (A + B)) (measure : A -> nat) P Q :
  (forall a, P a -> safe (body a) (fun r => match r with inl a' => P a' /\ (measure a' < measure a)%nat | inr b => Q b end)) ->
  forall fuel a, P a -> (measure a < fuel)%nat -> safe (loop fuel body a) Q.
Proof.
  intros Hb. induction fuel as [|fuel IH]; intros a Ha Hf; [lia|]. cbn [loop]. eapply safe_bind; [by apply Hb|].
  intros [a'|b] Hr; [|by apply safe_ret]. destruct Hr. apply IH; [done|lia].
Qed.
Lemma safe_send_turn h nowMs l : handle h -> safe (send_turn h nowMs l)
  (fun r => match r with inl l' => True /\ (length l'.1 < length l.1)%nat | inr _ => True end).
Proof.
  intros Hh c I. destruct l as [bytes sent]. destruct (handle_conn h c Hh I) as (k & E & K). unfold send_turn. rewrite (run_get_conn h k) by done.
  destruct bytes as [|b bytes]; [by exists (inr sent), c|]. destruct (Z.ltb_spec 0 (conn_window_available k)) as [Hw|]; [|by exists (inr sent), c].
  unfold conn_window_available in Hw. destruct (ci_windows _ K) as [[_ Hr] _]. cbv zeta. set (chunk := take _ _).
  destruct (safe_conn_send_controlled h CHOP_DAT chunk nowMs c k Hh I E) as (c1 & R & I1); [lia|unfold chunk; rewrite length_take; change (Z.to_nat CHAOS_MAX_DATA) with 488%nat; unfold CHAOS_MAX_DATA; lia|].
  erewrite bind_Ok by exact R. eexists _, c1. split; [done|]. split; [done|]. split; [done|]. cbn [fst]. rewrite length_drop.
  change (Z.to_nat CHAOS_MAX_DATA) with 488%nat. cbn [length]. lia.
Qed.
Lemma safe_chaos_send h bytes nowMs : safe (chaos_send h bytes nowMs) (fun _ => True).
Proof.
  unfold chaos_send. eapply safe_bind; [apply safe_conn_for_handle|]. intros [k|] Hk; [|by apply safe_ret].
  apply safe_if; intros _; [|by apply safe_ret]. destruct Hk as [Hh _].
  apply (safe_loop (send_turn h nowMs) (fun l => length l.1) (fun _ => True)); [|done|simpl; lia]. intros l _. by apply safe_send_turn.
Qed.
Lemma safe_chaos_finish h nowMs : safe (chaos_finish h nowMs) (fun _ => True).
Proof.
  unfold chaos_finish. eapply safe_bind; [apply safe_conn_for_handle|]. intros [k|] Hk; [|by apply safe_ret].
  destruct Hk as [Hh _]. apply safe_if; intros _; [|by apply safe_ret].
  eapply safe_bind; [apply safe_on_conn; [done|]; intros k1 K1; by apply (conn_inv_frame k1)|]. intros _ _.
  by apply safe_conn_maybe_send_eof.
Qed.
Lemma safe_chaos_release h why nowMs : safe (chaos_release h why nowMs) (fun _ => True).
Proof.
  unfold chaos_release. eapply safe_bind; [apply safe_conn_for_handle|]. intros [k|] Hk; [|by apply safe_ret].
  destruct Hk as [Hh _]. eapply safe_bind; [apply safe_when; intros _; by apply safe_conn_send_unc|]. intros _ _.
  apply safe_set_conn, zero_conn_inv.
Qed.

(** ** Reading *)

(** One turn of reading: it stops, or a packet has been consumed. *)
Lemma run_recv_turn h max got advanced c k : core_inv c -> conn_at h c = Some k ->
  (exists r c', recv_turn h max (got, advanced) c = (Ok (inr r), c') /\ core_inv c') \/
  (exists l k', recv_turn h max (got, advanced) c = (Ok (inl l), with_conn h k' c) /\ conn_inv k' /\
     readable k = true /\ seq_diff (receivedNum k') (readNum k') = seq_diff (receivedNum k) (readNum k) - 1).
Proof.
  intros I E. pose proof (inv_conn_at _ _ _ I E) as K. unfold recv_turn. rewrite (run_get_conn h k) by done.
  destruct (negb _) eqn:B; [left; by exists (got, advanced), c|]. apply negb_false_iff, andb_prop in B as [Hm%Z.ltb_lt Hr].
  pose proof (readable_diff k K Hr) as Hd. destruct (next_packet k K ltac:(lia)) as (p & Ep & Hp & Hn & P). cbv zeta.
  destruct (ci_words _ K) as (_ & _ & _ & Wr & Wv).
  assert (conn_inv (consumed (seq_inc (readNum k)) p k) /\
    seq_diff (receivedNum k) (seq_inc (readNum k)) = seq_diff (receivedNum k) (readNum k) - 1) as [K1 Hd1]
    by (split; [apply conn_inv_consumed; (done || lia)|apply seq_diff_next; (done || lia)]).
  unfold get_rcvq. rewrite (run_bind_option p) by done. destruct (opcode p =? CHOP_EOF).
  - right. erewrite bind_Ok by apply run_set_conn. eexists _, _. split; [done|]. split; [|done].
    by apply (conn_inv_frame (consumed (seq_inc (readNum k)) p k)).
  - set (room := max - Z.of_nat (length got)). destruct P as [Po Pb Pd]. unfold CHAOS_MAX_DATA in *.
    assert (u64 (nBytes p - offset p) = nBytes p - offset p) as -> by (apply Z.mod_small; lia).
    set (n_take := if room <? nBytes p - offset p then room else nBytes p - offset p).
    assert (0 <= n_take <= nBytes p - offset p) as Ht by (unfold n_take, room; destruct (Z.ltb_spec (max - Z.of_nat (length got)) (nBytes p - offset p)); lia).
    destruct (slice_some (data p) (offset p) n_take) as (bytes & Eb & _); [lia|lia|rewrite Pd; lia|].
    rewrite (run_bind_option bytes) by done. cbv zeta. cbn [set_offset offset nBytes].
    assert (u16 (offset p + n_take) = offset p + n_take) as -> by (apply u16_small; unfold is_u16; lia).
    assert (conn_inv (put_rcvq (seq_inc (readNum k)) (set_offset (offset p + n_take) p) k)) as K2.
    { apply (conn_inv_rtouch k _ p); try done. constructor; cbn; unfold CHAOS_MAX_DATA; lia. }
    destruct (Z.ltb_spec (offset p + n_take) (nBytes p)).
    + left. erewrite bind_Ok by apply run_set_conn. eexists _, _. split; [done|]. by apply inv_with_conn.
    + right. erewrite bind_Ok by apply run_set_conn. eexists _, _. split; [done|]. split; [|done].
      set (p' := set_offset (offset p + n_take) p) in *.
      replace (set_readNum _ _) with (consumed (seq_inc (readNum k)) p' (put_rcvq (seq_inc (readNum k)) p' k))
        by (unfold consumed, put_rcvq; cbn; by rewrite upd_Z_twice).
      apply (conn_inv_consumed (put_rcvq (seq_inc (readNum k)) p' k)); [done|simpl; lia|]. simpl. apply nth_upd_eq. by eapply nth_Z_bounds.
Qed.
Lemma safe_recv_loop h max : forall fuel m l c k, core_inv c -> conn_at h c = Some k ->
  (Z.to_nat (seq_diff (receivedNum k) (readNum k)) <= m)%nat -> (m < fuel)%nat ->
  exists r c', loop fuel (recv_turn h max) l c = (Ok r, c') /\ core_inv c'.
Proof.
  induction fuel as [|fuel IH]; intros m [got advanced] c k I E Hm Hf; [lia|]. cbn [loop].
  destruct (run_recv_turn h max got advanced c k I E) as [(r & c1 & R & I1)|(l & k1 & R & K1 & Hr & Hd)].
  - erewrite bind_Ok by exact R. by exists r, c1.
  - erewrite bind_Ok by exact R. pose proof (readable_diff k (inv_conn_at _ _ _ I E) Hr).
    apply (IH (m - 1)%nat l (with_conn h k1 c) k1); [by apply inv_with_conn|by eapply conn_at_with_eq|lia|lia].
Qed.
Lemma safe_chaos_recv h max nowMs : safe (chaos_recv h max nowMs) (fun _ => True).
Proof.
  unfold chaos_recv. eapply safe_bind; [apply safe_conn_for_handle|]. intros [k|] Hk; [|by apply safe_ret].
  destruct Hk as [Hh _]. eapply (safe_bind _ _ (fun _ => True)).
  - intros c I. destruct (handle_conn h c Hh I) as (k1 & E & K).
    destruct (safe_recv_loop h max recv_fuel (Z.to_nat (seq_diff (receivedNum k1) (readNum k1))) ([], false) c k1 I E) as (r & c1 & R & I1); [done| |by exists r, c1].
    pose proof (seq_diff_range (receivedNum k1) (readNum k1)) as Hr. unfold is_u16 in Hr. unfold recv_fuel. apply Z2Nat.inj_lt; lia.
  - intros [got advanced] _. eapply safe_bind; [by apply safe_get_conn|]. intros k1 _.
    eapply safe_bind; [|intros _ _; by apply safe_ret]. apply safe_when. intros _. apply safe_if; intros _; [by apply safe_conn_send_sts|].
    apply safe_when. intros _. apply safe_on_conn; [done|]. intros k2 K2. by apply (conn_inv_frame k2).
Qed.

(** ** Input *)

Lemma safe_unwanted count h nowMs : handle h -> (forall c, core_inv c -> core_inv (count c)) -> safe (unwanted count h nowMs) (fun _ => True).
Proof.
  intros Hh Hc. unfold unwanted. eapply safe_bind; [by apply safe_modify|]. intros _ _. by apply safe_conn_send_sts.
Qed.
Lemma safe_advance_loop h : handle h -> forall fuel m c k, core_inv c -> conn_at h c = Some k ->
  (Z.to_nat (localWindow k - seq_diff (receivedNum k) (readNum k)) <= m)%nat -> (m < fuel)%nat ->
  exists c', loop fuel (advance_turn h) tt c = (Ok tt, c') /\ core_inv c'.
Proof.
  intros Hh. induction fuel as [|fuel IH]; intros m c k I E Hm Hf; [lia|]. pose proof (inv_conn_at _ _ _ I E) as K.
  cbn [loop]. unfold advance_turn at 1. rewrite run_bind_assoc, (run_get_conn h k) by done. cbv zeta.
  destruct (get_rcvq_some k (seq_inc (receivedNum k)) K) as (q & Eq & _). unfold get_rcvq. rewrite run_bind_assoc, (run_bind_option q) by done.
  destruct (negb (present q) || negb (num q =? seq_inc (receivedNum k))) eqn:B; [by exists c|].
  apply orb_false_elim in B as [Hp%negb_false_iff Hn%negb_false_iff%Z.eqb_eq].
  destruct (conn_inv_advanced k q K Eq Hp Hn) as [K1 Hd]. rewrite run_bind_assoc. erewrite bind_Ok by apply run_set_conn.
  set (k1 := set_receivedNum _ k) in *. rewrite run_bind_ret. assert (core_inv (with_conn h k1 c)) as I1 by (by apply inv_with_conn).
  destruct (opcode q =? CHOP_EOF); [by eexists|].
  pose proof (ci_read _ K1) as Hr. change (localWindow k1) with (localWindow k) in Hr. change (readNum k1) with (readNum k) in Hr.
  change (receivedNum k1) with (seq_inc (receivedNum k)) in Hr.
  apply (IH (m - 1)%nat (with_conn h k1 c) k1); [done|by eapply conn_at_with_eq| |lia].
  change (localWindow k1) with (localWindow k). change (readNum k1) with (readNum k). change (receivedNum k1) with (seq_inc (receivedNum k)).
  lia.
Qed.
Lemma safe_conn_queue_input h ch n nowMs : handle h -> 0 <= n <= CHAOS_MAX_DATA -> 16 + n <= Z.of_nat (length ch) ->
  forall c k, core_inv c -> conn_at h c = Some k -> state k = CONN_OPEN ->
  exists c', conn_queue_input h ch n nowMs c = (Ok tt, c') /\ core_inv c'.
Proof.
  intros Hh Hn Hl c k I E Hst. pose proof (inv_conn_at _ _ _ I E) as K. unfold conn_queue_input.
  destruct (safe_get16 ch 12 ltac:(lia) ltac:(lia) c I) as (pn & c0 & R & _ & Wn).
  destruct (chaos_get16 ch 12) as [pn'|]; [|done]. injection R as -> <-. rewrite (run_bind_option pn) by done.
  rewrite (run_get_conn h k) by done. assert (forall f, (forall c, core_inv c -> core_inv (f c)) ->
    exists c', unwanted f h nowMs c = (Ok tt, c') /\ core_inv c') as Hun.
  { intros f Hf. destruct (safe_unwanted f h nowMs Hh Hf c I) as ([] & c' & R & I' & _). by exists c'. }
  destruct (chaos_seq_lt (receivedNum k) pn) eqn:Hlt; cbn [negb]; [|apply Hun; intros; by apply inv_counters].
  destruct (Z.ltb_spec (localWindow k) (seq_diff pn (readNum k))) as [|Hw]; [apply Hun; intros; by apply inv_counters|].
  destruct (get_rcvq_some k pn K) as (p & Ep & P). unfold get_rcvq. rewrite (run_bind_option p) by done.
  destruct (present p && (num p =? pn)); [apply Hun; intros; by apply inv_counters|].
  destruct (nth_Z_some ch 1) as [op ->]; [lia|]. erewrite (run_bind_option op) by done.
  destruct (slice_some ch CHAOS_HEADER n) as (bytes & Eb & Lb); [done|lia|unfold CHAOS_HEADER; lia|]. rewrite (run_bind_option bytes) by done.
  destruct P as [Po Pb Pd]. destruct (put_prefix_some bytes (data p)) as (d & Ed & Ld); [rewrite Lb, Pd; apply Z2Nat.inj_le; lia|].
  rewrite (run_bind_option d) by done. erewrite bind_Ok by apply run_set_conn. set (k1 := put_rcvq pn _ k).
  assert (conn_inv k1) as K1.
  { apply conn_inv_queued; try done; [by rewrite Hst|]. constructor; cbn [offset nBytes data]; [lia|lia|congruence]. }
  destruct (safe_advance_loop h Hh seq_fuel (Z.to_nat (localWindow k1 - seq_diff (receivedNum k1) (readNum k1))) (with_conn h k1 c) k1)
    as (c1 & R & I1); [by apply inv_with_conn|by eapply conn_at_with_eq|done| |].
  { pose proof (seq_diff_range (receivedNum k1) (readNum k1)) as Hr. unfold is_u16 in Hr. destruct (ci_windows _ K1) as [_ Hw1].
    unfold CHAOS_RING in Hw1. pose proof (ci_read _ K1). unfold seq_fuel. apply Z2Nat.inj_lt; lia. }
  erewrite bind_Ok by exact R. destruct (safe_get_conn h Hh c1 I1) as (k2 & c2 & R2 & I2 & _). erewrite bind_Ok by exact R2.
  destruct (_ && _); cbn [when]; [|by exists c2]. destruct (safe_conn_send_sts h nowMs Hh c2 I2) as ([] & c3 & R3 & I3 & _). by exists c3.
Qed.

Lemma safe_handle_rfc ch n nowMs : 0 <= n -> 16 + n <= Z.of_nat (length ch) -> safe (handle_rfc ch n nowMs) (fun _ => True).
Proof.
  intros Hn Hl. unfold handle_rfc. do 3 (eapply safe_bind; [apply safe_get16; lia|]; intros ? _).
  eapply safe_bind; [apply safe_slice; unfold CHAOS_HEADER; lia|]. intros bytes _. cbv zeta. apply safe_if; intros _.
  - eapply safe_bind; [by apply (safe_gets _ (fun _ => True))|]. intros name _.
    eapply safe_bind; [apply safe_modify; intros; by apply inv_counters|]. intros _ _.
    eapply safe_bind; [apply safe_send_raw|]. intros _ _. by apply safe_ret.
  - eapply safe_bind; [apply safe_modify; intros; by apply inv_counters|]. intros _ _.
    eapply safe_bind; [apply safe_send_raw|]. intros _ _. by apply safe_ret.
Qed.
Lemma safe_send_los_reply ch why nowMs : 16 <= Z.of_nat (length ch) -> safe (send_los_reply ch why nowMs) (fun _ => True).
Proof.
  intros Hl. unfold send_los_reply. eapply safe_bind; [apply safe_modify; intros; by apply inv_counters|]. intros _ _.
  do 3 (eapply safe_bind; [apply safe_get16; lia|]; intros ? _). eapply safe_bind; [apply safe_send_raw|]. intros _ _. by apply safe_ret.
Qed.
Lemma window_limit_range w : is_u16 w -> 0 <= window_limit w <= CHAOS_MAX_WINDOW.
Proof. unfold window_limit, is_u16. destruct (Z.ltb_spec CHAOS_MAX_WINDOW w); unfold CHAOS_MAX_WINDOW in *; lia. Qed.

(** A connection opens: the peer's packet number is where reading starts. *)
Lemma conn_inv_opened k n w i : conn_inv k -> state k = CONN_RFC_SENT -> is_u16 n -> 0 <= w <= CHAOS_MAX_WINDOW ->
  conn_inv (set_state CONN_OPEN (set_remoteWindow w (set_lastAckSent n (set_receivedNum n (set_readNum n (set_remoteIndex i k)))))).
Proof.
  intros [L F1 F2 W Wn Sn Qd On Rd Ry Hl Rf] Hs Hn Hw. destruct W as (Ws & Wa & Wr & Wd & Wv). destruct Wn as [Wn1 Wn2].
  constructor; cbn [sendq rcvq reason sentNum ackedNum receiptNum readNum receivedNum remoteWindow localWindow state
    set_state set_remoteWindow set_lastAckSent set_receivedNum set_readNum set_remoteIndex]; rewrite ?seq_diff_refl; try done.
  - lia.
  - intros j Hj. lia.
  - intros s p Ep Hp. by rewrite (Rf Hs s p Ep) in Hp.
Qed.

Lemma safe_input_rfc_sent h ch op dataBytes srcIndex n ack nowMs c k : handle h -> 0 <= dataBytes ->
  16 + dataBytes <= Z.of_nat (length ch) -> is_u16 n -> is_u16 ack -> core_inv c -> conn_at h c = Some k -> state k = CONN_RFC_SENT ->
  exists c', input_rfc_sent h ch op dataBytes srcIndex n ack nowMs c = (Ok tt, c') /\ core_inv c'.
Proof.
  intros Hh Hd Hl Wn Wa I E Hs. pose proof (inv_conn_at _ _ _ I E) as K.
  assert (forall m : Core unit, safe m (fun _ => True) -> exists c', m c = (Ok tt, c') /\ core_inv c') as Hm.
  { intros m H. destruct (H c I) as ([] & c' & R & I' & _). by exists c'. }
  unfold input_rfc_sent. destruct (op =? CHOP_OPN).
  - destruct (Z.ltb_spec dataBytes 4); [by exists c|]. unfold CHAOS_HEADER.
    destruct (safe_get16 ch (16 + 2) ltac:(lia) ltac:(lia) c I) as (w & c0 & R & _ & Ww). erewrite bind_Ok by exact R.
    assert (c0 = c) as -> by (by destruct (chaos_get16 ch (16 + 2)); injection R). clear R.
    erewrite bind_Ok by (by apply (run_on_conn h _ k)). cbv beta. set (k1 := set_state CONN_OPEN _).
    destruct (safe_get16 ch 16 ltac:(lia) ltac:(lia) (with_conn h k1 c)) as (rc & c0 & R & I1 & Wr).
    { apply inv_with_conn; [done|]. apply conn_inv_opened; try done. by apply window_limit_range. }
    erewrite bind_Ok by exact R. destruct (safe_conn_process_ack h ack rc nowMs Hh Wa Wr c0 I1) as ([] & c1 & R1 & I2 & _).
    erewrite bind_Ok by exact R1. destruct (safe_conn_send_sts h nowMs Hh c1 I2) as ([] & c2 & R2 & I3 & _). by exists c2.
  - apply Hm. apply safe_if; intros _.
    + eapply safe_bind; [apply safe_slice; unfold CHAOS_HEADER; lia|]. intros text _. by apply safe_conn_set_closed.
    + apply safe_if; intros _; [by apply safe_conn_set_closed|by apply safe_ret].
Qed.
Lemma safe_input_open h ch op dataBytes ack nowMs : handle h -> 0 <= dataBytes <= CHAOS_MAX_DATA ->
  16 + dataBytes <= Z.of_nat (length ch) -> is_u16 ack -> safe (input_open h ch op dataBytes ack nowMs) (fun _ => True).
Proof.
  intros Hh Hd Hl Wa. unfold input_open.
  assert (forall m : Core unit, (forall c k, core_inv c -> conn_at h c = Some k -> state k = CONN_OPEN ->
      exists c', m c = (Ok tt, c') /\ core_inv c') ->
    safe (k <- get_conn h ;; when (bool_decide (state k = CONN_OPEN)) m) (fun _ => True)) as Hopen.
  { intros m Hm c I. destruct (handle_conn h c Hh I) as (k & E & K). rewrite (run_get_conn h k) by done.
    case_bool_decide; cbn [when]; [|by exists tt, c]. destruct (Hm c k I E) as (c' & R & I'); [done|]. by exists tt, c'. }
  assert (forall m : Core unit, safe m (fun _ => True) -> forall c (k : ChaosConn), core_inv c -> conn_at h c = Some k ->
    state k = CONN_OPEN -> exists c', m c = (Ok tt, c') /\ core_inv c') as Hany.
  { intros m Hm c k I _ _. destruct (Hm c I) as ([] & c' & R & I' & _). by exists c'. }
  apply safe_if; intros _.
  { eapply safe_bind; [by apply safe_conn_process_ack|]. intros _ _. apply Hopen. intros c k I E Hs.
    by apply (safe_conn_queue_input h ch dataBytes nowMs Hh Hd Hl c k). }
  apply safe_if; intros _.
  { apply safe_if; [by intros; apply safe_ret|]. intros Hd4%Z.ltb_ge. eapply safe_bind; [apply safe_get16; unfold CHAOS_HEADER; lia|].
    intros w Ww. eapply safe_bind.
    { apply safe_on_conn; [done|]. intros k K. apply conn_inv_window; [done|by apply window_limit_range]. }
    intros _ _. eapply safe_bind; [apply safe_get16; unfold CHAOS_HEADER; lia|]. intros rc Wr.
    eapply safe_bind; [by apply safe_conn_process_ack|]. intros _ _. apply Hopen, Hany. by apply safe_conn_retransmit. }
  apply safe_if; intros _.
  { eapply safe_bind; [by apply safe_conn_process_ack|]. intros _ _. apply Hopen, Hany. by apply safe_conn_send_sts. }
  apply safe_if; intros _; [by apply safe_conn_send_sts|]. apply safe_if; intros _; [|by apply safe_ret].
  eapply safe_bind; [apply safe_slice; unfold CHAOS_HEADER; lia|]. intros text _. by apply safe_conn_set_closed.
Qed.
Lemma handle_of_index i : handle (Z.land i (CHAOS_MAX_CONNS - 1)).
Proof. unfold handle. change (CHAOS_MAX_CONNS - 1) with (Z.ones 5). rewrite Z.land_ones by done. by apply Z.mod_pos_bound. Qed.
Lemma safe_input_conn ch op dataBytes destIndex srcAddr srcIndex n ack nowMs : 0 <= dataBytes <= CHAOS_MAX_DATA ->
  16 + dataBytes <= Z.of_nat (length ch) -> is_u16 n -> is_u16 ack ->
  safe (input_conn ch op dataBytes destIndex srcAddr srcIndex n ack nowMs) (fun _ => True).
Proof.
  intros Hd Hl Wn Wa. unfold input_conn. cbv zeta. set (h := Z.land destIndex (CHAOS_MAX_CONNS - 1)).
  assert (handle h) as Hh by apply handle_of_index. intros c I. destruct (handle_conn h c Hh I) as (k & E & K).
  rewrite (run_get_conn h k) by done.
  assert (forall m : Core unit, safe m (fun _ => True) -> forall c, core_inv c -> exists u c', m c = (Ok u, c') /\ core_inv c' /\ True) as Hm by done.
  destruct (_ || _ || _ || _).
  { apply Hm; [|done]. apply safe_if; intros _; [by apply safe_ret|]. apply safe_send_los_reply. lia. }
  erewrite bind_Ok by (by apply (run_on_conn h _ k)). cbv beta. set (k1 := set_lastHeardMs nowMs k).
  assert (core_inv (with_conn h k1 c)) as I1 by (apply inv_with_conn; [done|by apply (conn_inv_frame k)]).
  destruct (state k) eqn:Es.
  - apply Hm; [by apply safe_input_open|done].
  - destruct (safe_input_rfc_sent h ch op dataBytes srcIndex n ack nowMs (with_conn h k1 c) k1 Hh ltac:(lia) Hl Wn Wa I1) as (c' & R & I').
    + by eapply conn_at_with_eq.
    + done.
    + by exists tt, c'.
  - apply Hm; [by apply safe_input_open|done].
  - apply Hm; [|done]. apply safe_if; intros _; [by apply safe_ret|]. apply safe_send_los_reply. lia.
Qed.
Lemma land_range a n : 0 <= n -> 0 <= a -> 0 <= Z.land a (Z.ones n) < 2 ^ n.
Proof. intros Hn Ha. rewrite Z.land_ones by done. apply Z.mod_pos_bound. lia. Qed.
Lemma safe_handle_chaos frame nowMs : safe (handle_chaos frame nowMs) (fun _ => True).
Proof.
  unfold handle_chaos. apply safe_if; [by intros; apply safe_ret|]. intros Hl%Z.ltb_ge. unfold CHAOS_ETH_HEADER, CHAOS_HEADER in *.
  cbv zeta. set (ch := drop _ frame). assert (Z.of_nat (length ch) = Z.of_nat (length frame) - 14) as Lc.
  { unfold ch. rewrite length_drop. change (Z.to_nat 14) with 14%nat. lia. }
  eapply safe_bind; [apply safe_byte; lia|]. intros op _.
  eapply safe_bind; [apply safe_get16; lia|]. intros counts Wc. do 4 (eapply safe_bind; [apply safe_get16; lia|]; intros ? _).
  eapply safe_bind; [apply safe_get16; lia|]. intros n Wn. eapply safe_bind; [apply safe_get16; lia|]. intros ack Wa.
  apply safe_if; [by intros; apply safe_ret|]. intros [H1%Z.ltb_ge H2%Z.ltb_ge]%orb_false_elim.
  change 0xFFF with (Z.ones 12) in *. pose proof (land_range counts 12 ltac:(lia) ltac:(unfold is_u16 in Wc; lia)) as Rd.
  eapply safe_bind; [by apply (safe_gets _ (fun _ => True))|]. intros me _. eapply safe_bind; [apply safe_slice; lia|]. intros smac Lm.
  eapply safe_bind; [apply safe_byte; lia|]. intros first _. eapply safe_bind; [apply safe_when; intros _; by apply safe_arp_learn|]. intros _ _.
  apply safe_if; intros _; [by apply safe_ret|]. apply safe_if; intros _; [apply safe_handle_rfc; lia|].
  apply safe_if; intros _; [by apply safe_ret|]. apply safe_input_conn; (done || lia).
Qed.
Lemma safe_chaos_core_input frame nowMs : safe (chaos_core_input frame nowMs) (fun _ => True).
Proof.
  unfold chaos_core_input. apply safe_if; [by intros; apply safe_ret|]. intros Hl%Z.ltb_ge. unfold CHAOS_ETH_HEADER in *.
  do 2 (eapply safe_bind; [apply safe_byte; lia|]; intros ? _). cbv zeta. apply safe_if; intros _; [by apply safe_ret|].
  eapply safe_bind; [apply safe_slice; lia|]. intros smac _. eapply safe_bind; [apply safe_myMac|]. intros mine _.
  apply safe_if; intros _; [by apply safe_ret|]. eapply safe_bind; [apply safe_modify; intros; by apply inv_counters|]. intros _ _.
  apply safe_if; intros _; [apply safe_handle_arp|apply safe_handle_chaos].
Qed.

(** ** Timers *)

Lemma safe_tick_conn h nowMs : handle h -> safe (tick_conn h nowMs) (fun _ => True).
Proof.
  intros Hh. unfold tick_conn. eapply safe_bind; [by apply safe_get_conn|]. intros k _.
  destruct (state k); try by apply safe_ret.
  - apply safe_if; intros _; [by apply safe_conn_set_closed|by apply safe_conn_retransmit].
  - cbv zeta. apply safe_if; intros _; [by apply safe_conn_set_closed|]. apply safe_if; intros _; [by apply safe_conn_close_cls|].
    eapply safe_bind; [by apply safe_conn_retransmit|]. intros _ _. eapply safe_bind; [by apply safe_get_conn|]. intros k1 _.
    eapply safe_bind; [apply safe_when; intros _; by apply safe_conn_send_sts|]. intros _ _.
    eapply safe_bind; [by apply safe_get_conn|]. intros k2 _. apply safe_when. intros _.
    eapply safe_bind; [apply safe_on_conn; [done|]; intros k3 K3; by apply (conn_inv_frame k3)|]. intros _ _.
    apply safe_when. intros _. by apply safe_conn_send_unc.
Qed.
Lemma safe_tick_conns nowMs n : forall h, 0 <= h -> h + Z.of_nat n <= CHAOS_MAX_CONNS -> safe (tick_conns h n nowMs) (fun _ => True).
Proof.
  induction n as [|n IH]; intros h Hh Hn; cbn [tick_conns]; [by apply safe_ret|].
  eapply safe_bind; [apply safe_tick_conn; unfold handle; lia|]. intros _ _. apply IH; lia.
Qed.
Lemma safe_chaos_core_tick nowMs : safe (chaos_core_tick nowMs) (fun _ => True).
Proof. unfold chaos_core_tick. by apply safe_tick_conns. Qed.

(** ** The operations together *)

(** What is done to the core: frames that arrive, the timer, and the user's calls. *)
Inductive operation :=
| Input (frame : list Z) (nowMs : Z)
| Tick (nowMs : Z)
| OpenConn (a : Z) (contact : list Z) (nowMs : Z)
| Send (h : Z) (bytes : list Z) (nowMs : Z)
| Finish (h nowMs : Z)
| Recv (h max nowMs : Z)
| Release (h : Z) (why : list Z) (nowMs : Z).
Definition perform (o : operation) : Core unit :=
  match o with
  | Input frame nowMs => chaos_core_input frame nowMs
  | Tick nowMs => chaos_core_tick nowMs
  | OpenConn a contact nowMs => chaos_open a contact nowMs ;; ret tt
  | Send h bytes nowMs => chaos_send h bytes nowMs ;; ret tt
  | Finish h nowMs => chaos_finish h nowMs
  | Recv h max nowMs => chaos_recv h max nowMs ;; ret tt
  | Release h why nowMs => chaos_release h why nowMs
  end.
Fixpoint perform_all (l : list operation) : Core unit :=
  match l with [] => ret tt | o :: l' => perform o ;; perform_all l' end.
Lemma safe_perform o : safe (perform o) (fun _ => True).
Proof.
  destruct o; cbn [perform].
  - apply safe_chaos_core_input.
  - apply safe_chaos_core_tick.
  - eapply safe_bind; [apply safe_chaos_open|by intros; apply safe_ret].
  - eapply safe_bind; [apply safe_chaos_send|by intros; apply safe_ret].
  - apply safe_chaos_finish.
  - eapply safe_bind; [apply safe_chaos_recv|by intros; apply safe_ret].
  - apply safe_chaos_release.
Qed.
Lemma core_init_inv me mine name : length mine = 6%nat -> core_inv (chaos_core_init me mine name).
Proof.
  intros Hm. constructor; cbn [chaos_core_init conns arp myMac core_localWindow emitted]; try done.
  - split; [apply length_replicate|apply Forall_replicate, zero_conn_inv].
  - split; [apply length_replicate|by apply Forall_replicate].
Qed.

Lemma safe_perform_all l : safe (perform_all l) (fun _ => True).
Proof.
  induction l as [|o l IH]; cbn [perform_all]; [by apply safe_ret|]. eapply safe_bind; [apply safe_perform|]. by intros _ _.
Qed.

(** The core as the daemon's main program sets it up, with the receive window of its command
    line and the first packet number from its clock. *)
(* chaosd/chaosd.c:175-177 core *)
Definition chaosd_core (me : Z) (mine name : list Z) (window now : Z) : ChaosCore :=
  set_initialPktNum (u16 (Z.land now 0xFF00)) (set_core_localWindow (u16 window) (chaos_core_init me mine name)).
Lemma chaosd_core_inv me mine name window now : length mine = 6%nat -> 1 <= window <= CHAOS_RING / 2 ->
  core_inv (chaosd_core me mine name window now).
Proof.
  intros Hm Hw. destruct (core_init_inv me mine name Hm) as [I1 I2 I3 I4 I5]. change (CHAOS_RING / 2) with 32 in Hw.
  constructor; try done. cbn [chaosd_core core_localWindow set_initialPktNum set_core_localWindow]. unfold CHAOS_RING.
  rewrite u16_small by (unfold is_u16; lia). lia.
Qed.

(** C11. The Chaosnet core never leaves its arrays and never hangs: from the daemon's set-up, any
    sequence of frames (of any bytes and length), timer ticks and user calls runs to its end,
    and the state it reaches is good. In it every connection's send ring holds exactly the
    packets sent and not yet receipted, each in the slot of its number; at most a window of
    them is unacknowledged; the receive ring holds only numbers of the window beyond what the
    user has read, all up to the in-order mark among them; and no frame that was emitted is
    longer than the buffer it was built in. *)
Theorem chaos_core_safe me mine name window now l : length mine = 6%nat -> 1 <= window <= CHAOS_RING / 2 ->
  exists c, perform_all l (chaosd_core me mine name window now) = (Ok tt, c) /\ core_inv c.
Proof.
  intros Hm Hw. destruct (safe_perform_all l _ (chaosd_core_inv me mine name window now Hm Hw)) as ([] & c & R & I & _). by exists c.
Qed.
(** A host is asked for its status, and a connection is opened, with an answer too short for its
    own count. *)
Lemma chaos_core_safe_witness :
  let l := [Input (chaos_frame [1; 2; 3; 4; 5; 6] [9; 9; 9; 9; 9; 9] CHOP_RFC 0x0101 0 0x0102 7 1 0 (bytes_of_string "STATUS")) 1;
            OpenConn 0x0102 (bytes_of_string "TELNET") 2; Send 0 [1; 2; 3] 3; Tick 1000; Input [1; 2; 3] 4;
            Input (chaos_frame [1; 2; 3; 4; 5; 6] [9; 9; 9; 9; 9; 9] CHOP_OPN 0x0101 1 0x0102 7 1 0xFFFF [1]) 5;
            Recv 0 10 6; Release 0 [] 7; Release 99 [] 8] in
  (length [1; 2; 3; 4; 5; 6] = 6%nat /\ 1 <= 13 <= CHAOS_RING / 2) /\
  exists c, perform_all l (chaosd_core 0x0101 [1; 2; 3; 4; 5; 6] (bytes_of_string "HOST") 13 0x12345) = (Ok tt, c) /\ core_inv c.
Proof. cbv zeta. split; [done|]. by apply chaos_core_safe. Defined.
