(* ===== verification/ChaosStream.v ===== *)
(** Reliable, ordered delivery over a Chaosnet connection. First, that its receive side changes
    only by its own reads and by data for it; then, how queueing and reading move the bytes the
    user has got along the stream of what the peer sent. *)

From S2P Require Export ChaosOps.
From Stdlib Require String Ascii.
Import String.StringSyntax.
#[local] Open Scope vlm_scope.

(** Open, or closed with data left to read. *)
Definition opened (k : ChaosConn) : bool := bool_decide (state k = CONN_OPEN) || bool_decide (state k = CONN_CLOSED).
Definition receive_view (k : ChaosConn) := (readNum k, receivedNum k, rcvq k, eofReceived k, localWindow k).

Section spare.
Context (h : Z).

(** From a state where [h] is opened, [m] leaves it opened with the same receive side. *)
Definition spares {A} (m : Core A) : Prop := forall c k, conn_at h c = Some k -> opened k = true ->
  exists k', conn_at h (m c).2 = Some k' /\ receive_view k' = receive_view k /\ opened k' = true.

Lemma spares_ret {A} (a : A) : spares (ret a).
Proof. intros c k E O. by exists k. Qed.
Lemma spares_bind {A B} (m : Core A) (f : A -> Core B) : spares m -> (forall a, spares (f a)) -> spares (bind m f).
Proof.
  intros Hm Hf c k E O. destruct (Hm c k E O) as (k1 & E1 & V1 & O1). unfold bind.
  destruct (m c) as [[a| | | |] c1]; try by exists k1. destruct (Hf a c1 k1 E1 O1) as (k2 & E2 & V2 & O2).
  exists k2. split; [done|]. split; [congruence|done].
Qed.
Lemma spares_if {A} (b : bool) (m1 m2 : Core A) : spares m1 -> spares m2 -> spares (if b then m1 else m2).
Proof. by destruct b. Qed.
Lemma spares_when b (m : Core unit) : spares m -> spares (when b m).
Proof. destruct b; [done|]. intros _. apply spares_ret. Qed.
Lemma spares_loop {A B} fuel (body : A -> Core (A + B)) : (forall a, spares (body a)) -> forall a, spares (loop fuel body a).
Proof.
  intros Hb. induction fuel as [|n IH]; intros a; [intros c k E O; by exists k|]. cbn [loop].
  apply spares_bind; [apply Hb|]. intros [a'|b]; [apply IH|apply spares_ret].
Qed.
Lemma keeps_spares {A} (m : Core A) : keeps (fun k => (receive_view k, opened k)) h m -> spares m.
Proof.
  intros H c k E O. specialize (H c). unfold view_at in H. rewrite E in H. destruct (conn_at h (m c).2) as [k'|]; [|done].
  injection H as H1 H2 H3 H4 H5 H6. exists k'. split; [done|]. unfold receive_view. split; congruence.
Qed.
Lemma spares_on_conn i f : (forall k, receive_view (f k) = receive_view k /\ (opened k = true -> opened (f k) = true)) ->
  spares (on_conn i f).
Proof.
  intros Hf c k E O. unfold on_conn, get_conn. rewrite run_bind_assoc, run_bind_gets.
  destruct (nth_Z (conns c) i) as [k0|] eqn:E0; [|by exists k]. cbn [of_option]. rewrite run_bind_ret. change (set_conn i (f k0) c) with (Ok tt, with_conn i (f k0) c). cbn [snd].
  destruct (decide (i = h)) as [->|Hne].
  - assert (k0 = k) as -> by (unfold conn_at in E; congruence). exists (f k). destruct (Hf k) as [H1 H2].
    split; [by eapply conn_at_with_eq|]. auto.
  - exists k. by rewrite conn_at_with_ne.
Qed.
(** A connection that is read and written back, perhaps only when it is another one. *)
Lemma spares_update {A} i (m : ChaosConn -> Core A) :
  (forall c k k0, conn_at h c = Some k -> opened k = true -> conn_at i c = Some k0 ->
     exists k', conn_at h (m k0 c).2 = Some k' /\ receive_view k' = receive_view k /\ opened k' = true) ->
  spares (bind (get_conn i) m).
Proof.
  intros Hm c k E O. unfold get_conn. rewrite run_bind_assoc, run_bind_gets.
  destruct (nth_Z (conns c) i) as [k0|] eqn:E0; [|by exists k]. by apply Hm.
Qed.
(** Whatever is done to another connection. *)
Lemma spares_set_other i k0 : i <> h -> spares (set_conn i k0).
Proof. intros Hne c k E O. exists k. rewrite run_set_conn. cbn [snd]. by rewrite conn_at_with_ne. Qed.

Lemma spares_get_conn i : spares (get_conn i).
Proof. apply keeps_spares, keeps_get_conn. Qed.
Lemma spares_modify f : (forall c, conns (f c) = conns c) -> spares (modify f).
Proof. intros H. by apply keeps_spares, keeps_modify. Qed.
Lemma spares_option {A} (o : option A) : spares (of_option o).
Proof. apply keeps_spares, keeps_option. Qed.
Lemma spares_gets {A} (f : ChaosCore -> A) : spares (gets f).
Proof. apply keeps_spares, keeps_gets. Qed.
Lemma spares_get_rcvq k n : spares (get_rcvq k n).
Proof. apply spares_option. Qed.
Lemma spares_get_sendq k n : spares (get_sendq k n).
Proof. apply spares_option. Qed.
Lemma spares_send_raw op da di si n ack bytes nowMs : spares (send_raw op da di si n ack bytes nowMs).
Proof. apply keeps_spares, keeps_send_raw. Qed.
Lemma spares_conn_send_unc i op n bytes nowMs : spares (conn_send_unc i op n bytes nowMs).
Proof. by apply keeps_spares, keeps_conn_send_unc. Qed.
Lemma spares_conn_send_sts i nowMs : spares (conn_send_sts i nowMs).
Proof. by apply keeps_spares, keeps_conn_send_sts. Qed.
Lemma spares_conn_transmit i n nowMs : spares (conn_transmit i n nowMs).
Proof. by apply keeps_spares, keeps_conn_transmit. Qed.
Lemma spares_conn_retransmit i nowMs age : spares (conn_retransmit i nowMs age).
Proof. by apply keeps_spares, keeps_conn_retransmit. Qed.
Lemma spares_arp_learn a m nowMs : spares (arp_learn a m nowMs).
Proof. by apply keeps_spares, keeps_arp_learn. Qed.
Lemma spares_handle_arp frame nowMs : spares (handle_arp frame nowMs).
Proof. by apply keeps_spares, keeps_handle_arp. Qed.
Lemma spares_handle_rfc ch n nowMs : spares (handle_rfc ch n nowMs).
Proof. by apply keeps_spares, keeps_handle_rfc. Qed.
Lemma spares_send_los_reply ch why nowMs : spares (send_los_reply ch why nowMs).
Proof. by apply keeps_spares, keeps_send_los_reply. Qed.
End spare.

(** One step of a [spares] goal. *)
Ltac spare :=
  repeat first
    [ simple apply spares_ret | simple apply spares_gets | simple apply spares_option | simple apply spares_get_conn
    | simple apply spares_get_sendq | simple apply spares_get_rcvq | simple apply spares_send_raw
    | simple apply spares_conn_send_unc | simple apply spares_conn_send_sts | simple apply spares_conn_transmit
    | simple apply spares_conn_retransmit | simple apply spares_arp_learn | simple apply spares_handle_arp
    | simple apply spares_handle_rfc | simple apply spares_send_los_reply
    | simple apply spares_on_conn; done
    | simple apply spares_bind; [|intros ?] | simple apply spares_if | simple apply spares_when
    | simple apply spares_modify; done
    | match goal with |- spares _ (match ?o with _ => _ end) => destruct o end ].

Section others.
Context (h : Z).
#[local] Abbreviation spares := (spares h).

Lemma spares_conn_set_closed i kind text : spares (conn_set_closed i kind text).
Proof.
  unfold conn_set_closed. apply spares_update. intros c k k0 E O E0. cbv zeta.
  destruct (put_prefix _ _) as [r|]; [|by exists k]. cbn [of_option]. rewrite run_bind_ret, run_set_conn. cbn [snd].
  destruct (decide (i = h)) as [->|Hne]; [|exists k; by rewrite conn_at_with_ne]. assert (k0 = k) as -> by congruence.
  eexists. split; [by eapply conn_at_with_eq|]. done.
Qed.
Lemma spares_conn_close_cls i why kind nowMs : spares (conn_close_cls i why kind nowMs).
Proof. unfold conn_close_cls. spare. apply spares_conn_set_closed. Qed.
Lemma spares_conn_send_controlled i op bytes nowMs : spares (conn_send_controlled i op bytes nowMs).
Proof. unfold conn_send_controlled. spare. Qed.
Lemma spares_conn_maybe_send_eof i nowMs : spares (conn_maybe_send_eof i nowMs).
Proof. unfold conn_maybe_send_eof. spare; apply spares_conn_send_controlled. Qed.
Lemma spares_receipt_turn i r n : spares (receipt_turn i r n).
Proof.
  unfold receipt_turn. apply spares_if; [spare|]. apply spares_update. intros c k k0 E O E0. unfold get_sendq.
  destruct (nth_Z (sendq k0) (ring_slot n)) as [p|]; [|by exists k]. cbn [of_option]. rewrite run_bind_ret.
  erewrite bind_Ok by apply run_set_conn. cbn [snd ret].
  destruct (decide (i = h)) as [->|Hne]; [|exists k; by rewrite conn_at_with_ne]. assert (k0 = k) as -> by congruence.
  eexists. split; [by eapply conn_at_with_eq|]. done.
Qed.
Lemma spares_conn_process_ack i ack receipt nowMs : spares (conn_process_ack i ack receipt nowMs).
Proof.
  unfold conn_process_ack. spare; try (apply spares_loop; intros ?); try apply spares_receipt_turn;
    try apply spares_conn_close_cls; apply spares_conn_maybe_send_eof.
Qed.
Lemma spares_conn_for_handle i : spares (conn_for_handle i).
Proof. unfold conn_for_handle. spare. Qed.
Lemma spares_chaos_send i bytes nowMs : spares (chaos_send i bytes nowMs).
Proof.
  unfold chaos_send. apply spares_bind; [apply spares_conn_for_handle|intros ?]. spare. apply spares_loop. intros [l sent].
  unfold send_turn. spare. apply spares_conn_send_controlled.
Qed.
Lemma spares_chaos_finish i nowMs : spares (chaos_finish i nowMs).
Proof.
  unfold chaos_finish. apply spares_bind; [apply spares_conn_for_handle|intros ?]. spare. apply spares_conn_maybe_send_eof.
Qed.
Lemma spares_tick_conn i nowMs : spares (tick_conn i nowMs).
Proof. unfold tick_conn. spare; try apply spares_conn_set_closed; apply spares_conn_close_cls. Qed.
Lemma spares_chaos_core_tick nowMs : spares (chaos_core_tick nowMs).
Proof.
  unfold chaos_core_tick. generalize 0 as i. induction (Z.to_nat CHAOS_MAX_CONNS) as [|n IH]; intros i; cbn [tick_conns]; [apply spares_ret|].
  apply spares_bind; [apply spares_tick_conn|intros ?; apply IH].
Qed.
End others.

(** * Reliable, ordered delivery over a Chaosnet connection: whatever the network loses, repeats
    or reorders, what the user reads is a prefix of what the peer sent, and all of it up to the
    end of file when that has been read. *)

(** ** What the peer sends *)

(** The peer's packets in order, with their opcodes and bytes; an EOF ends the stream. *)
Definition payload (x : Z * list Z) : list Z := if x.1 =? CHOP_EOF then [] else x.2.
Fixpoint until_eof (L : list (Z * list Z)) : list (Z * list Z) :=
  match L with [] => [] | x :: L' => if x.1 =? CHOP_EOF then [] else x :: until_eof L' end.
Definition stream (L : list (Z * list Z)) : list Z := concat (map payload (until_eof L)).
(** The bytes of the first [d] packets and [off] bytes of the next. *)
Definition delivered (L : list (Z * list Z)) (d off : nat) : list Z :=
  concat (map payload (take d L)) ++ take off (default [] (payload <$> L !! d)).

Definition no_eof (L : list (Z * list Z)) : Prop := Forall (fun x => x.1 <> CHOP_EOF) L.
Lemma until_eof_app L1 L2 : no_eof L1 -> until_eof (L1 ++ L2) = L1 ++ until_eof L2.
Proof.
  induction 1 as [|x L1 Hx _ IH]; [done|]. cbn [until_eof app]. destruct (Z.eqb_spec x.1 CHOP_EOF); [done|]. by rewrite IH.
Qed.
Lemma delivered_prefix L d off : no_eof (take d L) -> delivered L d off `prefix_of` stream L.
Proof.
  intros H. unfold delivered, stream. rewrite <- (take_drop d L) at 3. rewrite until_eof_app by done.
  rewrite map_app, concat_app. apply prefix_app.
  assert (L !! d = drop d L !! 0%nat) as -> by (rewrite lookup_drop; f_equal; lia). destruct (drop d L) as [|x L'].
  { cbn. rewrite take_nil. apply prefix_nil. }
  change (take off (payload x) `prefix_of` concat (map payload (until_eof (x :: L')))). cbn [until_eof].
  destruct (x.1 =? CHOP_EOF) eqn:E; cbn [map concat]; unfold payload at 1; rewrite E; [rewrite take_nil; apply prefix_nil|].
  unfold payload at 1. rewrite E. apply prefix_app_r. exists (drop off x.2). by rewrite take_drop.
Qed.
Lemma until_eof_at L d x : no_eof (take d L) -> L !! d = Some x -> x.1 = CHOP_EOF -> until_eof L = take d L.
Proof.
  intros H E Ex. rewrite <- (take_drop_middle L d x E) at 1. rewrite until_eof_app by done. cbn [until_eof].
  destruct (Z.eqb_spec x.1 CHOP_EOF); [by rewrite app_nil_r|done].
Qed.
Lemma delivered_all L d x : no_eof (take d L) -> L !! d = Some x -> x.1 = CHOP_EOF -> delivered L (S d) 0 = stream L.
Proof.
  intros H E Ex. unfold delivered, stream.
  rewrite (until_eof_at L d x H E Ex).
  rewrite (take_S_r _ _ _ E), map_app, concat_app. cbn [map concat take]. unfold payload at 2.
  destruct (Z.eqb_spec x.1 CHOP_EOF); [|done]. by rewrite !app_nil_r.
Qed.

(** ** What the connection has of it *)

Section receiver.
Context (L : list (Z * list Z)) (base : Z).

(** The packet with index [i], in its slot. *)
Definition slot_holds (d off i : nat) (p : ChaosPkt) : Prop :=
  exists x, L !! i = Some x /\ (d <= i)%nat /\ Z.of_nat i < Z.of_nat d + CHAOS_RING /\ num p = u16 (base + 1 + Z.of_nat i) /\
    opcode p = x.1 /\ nBytes p = Z.of_nat (length x.2) /\ take (length x.2) (data p) = x.2 /\
    offset p = if decide (i = d) then Z.of_nat off else 0.
(** [d] packets are read, and [off] bytes of the next; [m] have come in order. *)
Record receiving (d off m : nat) (k : ChaosConn) : Prop := {
  rv_read : readNum k = u16 (base + Z.of_nat d);
  rv_received : receivedNum k = u16 (base + Z.of_nat m);
  rv_order : (d <= m <= length L)%nat /\ Z.of_nat m - Z.of_nat d < CHAOS_RING /\ (m = d -> off = 0%nat);
  rv_slots s p : nth_Z (rcvq k) s = Some p -> present p = true -> exists i, slot_holds d off i p;
  rv_eof : if eofReceived k then exists e, d = S e /\ off = 0%nat /\ no_eof (take e L) /\ exists x, L !! e = Some x /\ x.1 = CHOP_EOF
           else no_eof (take d L)
}.
Lemma receiving_view d off m k k' : receiving d off m k -> receive_view k' = receive_view k -> receiving d off m k'.
Proof. intros [] [= E1 E2 E3 E4 E5]. constructor; rewrite ?E1, ?E2, ?E3, ?E4; done. Qed.

(** The stream so far is a prefix of the peer's. *)
Lemma receiving_prefix d off m k : receiving d off m k -> delivered L d off `prefix_of` stream L.
Proof.
  intros [_ _ _ _ H]. destruct (eofReceived k); [|by apply delivered_prefix].
  destruct H as (e & -> & -> & He & x & Ex & Hx). by erewrite delivered_all.
Qed.
Lemma receiving_eof d off m k : receiving d off m k -> eofReceived k = true -> delivered L d off = stream L.
Proof. intros [_ _ _ _ H] E. rewrite E in H. destruct H as (e & -> & -> & He & x & Ex & Hx). by eapply delivered_all. Qed.

(** When nothing is left to read, all that came in order has been read. *)
Lemma receiving_drained d off m k : receiving d off m k -> readable k = false -> delivered L d off = stream (take m L).
Proof.
  intros [R1 R2 (O1 & O2 & O3) _ H] Hr. unfold readable in Hr. destruct (eofReceived k).
  - destruct H as (e & -> & -> & He & x & Ex & Hx). rewrite (delivered_all L e x) by done. unfold stream. do 2 f_equal.
    rewrite (until_eof_at L e x) by done. rewrite (until_eof_at (take m L) e x); rewrite ?take_take, ?lookup_take by lia;
      rewrite ?Nat.min_l by lia; rewrite ?decide_True by lia; done.
  - rewrite andb_true_r in Hr. apply negb_false_iff, Z.eqb_eq in Hr. rewrite R1, R2 in Hr. apply u16_eq in Hr as [q Hq].
    unfold CHAOS_RING in *. assert (d = m) as -> by lia. rewrite O3 by done. unfold delivered, stream. rewrite take_0, app_nil_r.
    rewrite <- (app_nil_r (take m L)) at 2. rewrite until_eof_app by done. by rewrite app_nil_r.
Qed.

(** The packet that a slot of the window holds is the one with that number. *)
Lemma slot_index d off i j p : slot_holds d off i p -> num p = u16 (base + 1 + Z.of_nat j) -> (d <= j)%nat ->
  Z.of_nat j < Z.of_nat d + CHAOS_RING -> i = j.
Proof.
  intros (x & _ & Hd & Hi & Hn & _) Hj H1 H2. rewrite Hn in Hj. apply u16_eq in Hj as [q Hq]. unfold CHAOS_RING in *. lia.
Qed.

(** ** Queueing *)

Lemma slice_bound l o n b : slice l o n = Some b -> 0 <= n /\ length b = Z.to_nat n.
Proof. intros E. split; [|by eapply slice_length]. unfold slice in E. destruct (Z.leb_spec 0 o); [|done]. by destruct (Z.leb_spec 0 n). Qed.
Lemma receiving_queued d off m k i x pt d' : conn_inv k -> receiving d off m k -> L !! i = Some x -> (m <= i)%nat ->
  Z.of_nat i < Z.of_nat d + CHAOS_RING -> take (length x.2) d' = x.2 ->
  receiving d off m (put_rcvq (u16 (base + 1 + Z.of_nat i)) (MkPkt true x.1 (u16 (base + 1 + Z.of_nat i)) (Z.of_nat (length x.2)) 0 pt d') k).
Proof.
  intros K [R1 R2 (O1 & O2 & O3) Sl E] Hx Hm Hi Hd. constructor; try done. simpl. intros s p Ep Hp.
  set (n := u16 (base + 1 + Z.of_nat i)) in *.
  destruct (decide (ring_slot n = s)) as [<-|Hne]; [|rewrite nth_upd_ne in Ep by done; exact (Sl s p Ep Hp)].
  rewrite nth_upd_eq in Ep. 2: { destruct (ci_lengths _ K) as (_ & -> & _). rewrite Z2Nat.id by done. apply ring_slot_range. }
  injection Ep as <-. exists i, x. cbn [opcode nBytes data offset num]. split_and!; try done; [lia|].
  destruct (decide (i = d)) as [->|]; [|done]. by rewrite O3 by lia.
Qed.
Lemma receiving_advance h d off : forall fuel c c' m k, core_inv c -> conn_at h c = Some k -> receiving d off m k ->
  loop fuel (advance_turn h) tt c = (Ok tt, c') ->
  exists k' m', conn_at h c' = Some k' /\ receiving d off m' k' /\ state k' = state k /\ (m <= m')%nat.
Proof.
  induction fuel as [|fuel IH]; intros c c' m k I E R Run; [done|]. pose proof (inv_conn_at _ _ _ I E) as K.
  cbn [loop] in Run. unfold advance_turn at 1 in Run. rewrite run_bind_assoc, (run_get_conn h k) in Run by done. cbv zeta in Run.
  destruct (get_rcvq_some k (seq_inc (receivedNum k)) K) as (q & Eq & _). unfold get_rcvq in Run.
  rewrite run_bind_assoc, (run_bind_option q) in Run by done.
  destruct (negb (present q) || negb (num q =? seq_inc (receivedNum k))) eqn:B; [injection Run as <-; by exists k, m|].
  apply orb_false_elim in B as [Hp%negb_false_iff Hn%negb_false_iff%Z.eqb_eq].
  destruct (conn_inv_advanced k q K Eq Hp Hn) as [K1 Hd]. rewrite run_bind_assoc in Run. erewrite bind_Ok in Run by apply run_set_conn.
  set (k1 := set_receivedNum _ k) in *. rewrite run_bind_ret in Run.
  assert (receiving d off (S m) k1) as R1.
  { destruct R as [R1 R2 (O1 & O2 & O3) Sl Ef]. pose proof (ci_read _ K1) as Hr. destruct (ci_windows _ K1) as [_ [_ Hw]].
    change (receivedNum k1) with (seq_inc (receivedNum k)) in Hr. change (readNum k1) with (readNum k) in Hr. rewrite Hd, R1, R2 in Hr.
    unfold CHAOS_RING in *. rewrite seq_diff_small in Hr by lia. rewrite R2, seq_inc_u16 in Hn.
    destruct (Sl _ _ Eq Hp) as (i & Hi). assert (num q = u16 (base + 1 + Z.of_nat m)) as Hn' by (rewrite Hn; f_equal; lia).
    apply (slot_index d off i m q Hi) in Hn' as ->; [|lia|unfold CHAOS_RING; lia]. destruct Hi as (x & Ex & _). apply lookup_lt_Some in Ex.
    constructor; try done.
    - change (receivedNum k1) with (seq_inc (receivedNum k)). rewrite R2, seq_inc_u16. f_equal. lia.
    - unfold CHAOS_RING. lia. }
  assert (core_inv (with_conn h k1 c)) as I1 by (by apply inv_with_conn).
  assert (conn_at h (with_conn h k1 c) = Some k1) as E1 by (by eapply conn_at_with_eq).
  destruct (opcode q =? CHOP_EOF).
  - injection Run as <-. exists k1, (S m). split_and!; try done. lia.
  - destruct (IH _ _ _ _ I1 E1 R1 Run) as (k' & m' & E' & R' & S' & Hm). exists k', m'. split_and!; try done. lia.
Qed.

(** A packet of the peer's, however old, repeated or early. *)
Lemma receiving_input h ch n nowMs d off m c c' k i x : core_inv c -> conn_at h c = Some k -> state k = CONN_OPEN ->
  receiving d off m k -> L !! i = Some x -> chaos_get16 ch 12 = Some (u16 (base + 1 + Z.of_nat i)) ->
  nth_Z ch 1 = Some x.1 -> slice ch CHAOS_HEADER n = Some x.2 -> - 2 ^ 15 <= Z.of_nat m - Z.of_nat (S i) < 2 ^ 15 ->
  conn_queue_input h ch n nowMs c = (Ok tt, c') ->
  exists k' m', conn_at h c' = Some k' /\ receiving d off m' k' /\ opened k' = true /\ (m <= m')%nat.
Proof.
  intros I E Hst R Hx Hnum Hop Hsl Hage Run. pose proof (inv_conn_at _ _ _ I E) as K. pose proof R as [R1 R2 (O1 & O2 & O3) _ _].
  assert (opened k = true) as Ok0 by (unfold opened; by rewrite Hst).
  assert (forall m0 : Core unit, spares h m0 -> m0 c = (Ok tt, c') ->
    exists k' m', conn_at h c' = Some k' /\ receiving d off m' k' /\ opened k' = true /\ (m <= m')%nat) as Hsp.
  { intros m0 H0 H1. destruct (H0 c k E Ok0) as (k' & E' & V & O'). rewrite H1 in E'. exists k', m. split_and!; try done.
    by eapply receiving_view. }
  unfold conn_queue_input in Run. rewrite Hnum in Run. cbn [of_option] in Run. rewrite run_bind_ret in Run.
  rewrite (run_get_conn h k) in Run by done. set (pn := u16 (base + 1 + Z.of_nat i)) in *.
  assert (forall f, (forall c, conns (f c) = conns c) -> spares h (unwanted f h nowMs)) as Hun by (intros f Hf; unfold unwanted; spare).
  destruct (chaos_seq_lt (receivedNum k) pn) eqn:Hlt; cbn [negb] in Run; [|by eapply Hsp; [|exact Run]; apply Hun].
  destruct (Z.ltb_spec (localWindow k) (seq_diff pn (readNum k))) as [|Hw]; [by eapply Hsp; [|exact Run]; apply Hun|].
  unfold pn in Hlt, Hw. rewrite R2, chaos_seq_lt_u16 in Hlt by lia. apply Z.ltb_lt in Hlt. unfold CHAOS_RING in *.
  rewrite R1, seq_diff_small in Hw by lia. destruct (ci_windows _ K) as [_ [_ Hlw]]. unfold CHAOS_RING in Hlw.
  destruct (get_rcvq_some k pn K) as (p & Ep & P). unfold get_rcvq in Run. rewrite (run_bind_option p) in Run by done.
  destruct (present p && (num p =? pn)); [by eapply Hsp; [|exact Run]; apply Hun|].
  rewrite Hop, Hsl in Run. cbn [of_option] in Run. rewrite !run_bind_ret in Run. destruct P as [Po Pb Pd].
  destruct (put_prefix x.2 (data p)) as [d'|] eqn:Ed; [|done]. cbn [of_option] in Run. rewrite run_bind_ret in Run.
  destruct (put_prefix_spec _ _ _ Ed) as [Ld Hd']. erewrite bind_Ok in Run by apply run_set_conn.
  destruct (slice_bound _ _ _ _ Hsl) as [Ln Lx]. assert (n = Z.of_nat (length x.2)) as -> by lia.
  set (k1 := put_rcvq pn _ k) in *. assert (receiving d off m k1) as R3 by (apply receiving_queued; try done; unfold CHAOS_RING; lia).
  assert (core_inv (with_conn h k1 c)) as I1.
  { apply inv_with_conn; [done|]. apply conn_inv_queued; try done.
    - by rewrite Hst.
    - apply u16_range.
    - rewrite R2. unfold pn. rewrite chaos_seq_lt_u16 by lia. by apply Z.ltb_lt.
    - rewrite R1. unfold pn. rewrite seq_diff_small by lia. lia.
    - constructor; cbn [offset nBytes data]; [lia| |congruence]. unfold put_prefix in Ed.
      destruct (Nat.leb_spec (length x.2) (length (data p))) as [Hle|]; [|done]. rewrite Pd in Hle. apply Nat2Z.inj_le in Hle.
      by rewrite Z2Nat.id in Hle. }
  apply bind_inv_Ok in Run as ([] & c1 & Run1 & Run2).
  destruct (receiving_advance h d off seq_fuel _ c1 m k1 I1 ltac:(by eapply conn_at_with_eq) R3 Run1) as (k2 & m2 & E2 & R4 & S2 & Hm2).
  assert (opened k2 = true) as O2' by (unfold opened; rewrite S2; change (state k1) with (state k); by rewrite Hst).
  match type of Run2 with ?m0 _ = _ => assert (spares h m0) as Hsp2 by spare; destruct (Hsp2 c1 k2 E2 O2') as (k3 & E3 & V3 & O3') end.
  rewrite Run2 in E3. exists k3, m2. split_and!; try done. by eapply receiving_view.
Qed.

(** ** Reading *)

Lemma slice_part (l : list Z) o n x : take (length x) l = x -> 0 <= o -> 0 <= n -> o + n <= Z.of_nat (length x) ->
  forall b, slice l o n = Some b -> b = take (Z.to_nat n) (drop (Z.to_nat o) x).
Proof.
  intros Hx Ho Hn Hl b. unfold slice. destruct (_ && _ && _); [|done]. intros [= <-].
  rewrite <- Hx. rewrite <- (take_drop (length x) l) at 1. rewrite Hx.
  assert (Z.to_nat o + Z.to_nat n <= length x)%nat by lia.
  rewrite drop_app_le by lia. rewrite take_app_le; [done|]. rewrite length_drop. lia.
Qed.
Lemma payload_data x : x.1 <> CHOP_EOF -> payload x = x.2.
Proof. unfold payload. by destruct (Z.eqb_spec x.1 CHOP_EOF). Qed.
Lemma delivered_at d off x : L !! d = Some x -> x.1 <> CHOP_EOF ->
  delivered L d off = concat (map payload (take d L)) ++ take off x.2.
Proof. intros E Hx. unfold delivered. rewrite E. simpl. by rewrite payload_data. Qed.
Lemma delivered_more d off x n : L !! d = Some x -> x.1 <> CHOP_EOF ->
  delivered L d (off + n) = delivered L d off ++ take n (drop off x.2).
Proof. intros E Hx. rewrite !(delivered_at d _ x) by done. by rewrite <- app_assoc, take_take_drop. Qed.
Lemma delivered_next d x : L !! d = Some x -> x.1 <> CHOP_EOF -> delivered L (S d) 0 = delivered L d (length x.2).
Proof.
  intros E Hx. rewrite (delivered_at d _ x), firstn_all by done. unfold delivered.
  rewrite (take_S_r _ _ _ E), map_app, concat_app, take_0, app_nil_r. cbn [map concat]. by rewrite app_nil_r, payload_data.
Qed.

(** Packet [d] leaves its slot. *)
Lemma receiving_consumed d off m k p p' : conn_inv k -> receiving d off m k ->
  nth_Z (rcvq k) (ring_slot (seq_inc (readNum k))) = Some p -> num p' = num p ->
  forall s q, nth_Z (rcvq (consumed (seq_inc (readNum k)) p' k)) s = Some q -> present q = true ->
  exists i, slot_holds (S d) 0 i q.
Proof.
  intros K [R1 R2 (O1 & O2 & O3) Sl E] Ep En s q Eq Hq. cbn [consumed set_readNum put_rcvq set_rcvq rcvq] in Eq.
  destruct (decide (ring_slot (seq_inc (readNum k)) = s)) as [<-|Hne].
  { rewrite nth_upd_eq in Eq by (by eapply nth_Z_bounds). by injection Eq as <-. }
  rewrite nth_upd_ne in Eq by done. destruct (Sl s q Eq Hq) as (i & x & Ex & Hd & Hi & Hn & Ho & Hb & Ht & Hoff).
  exists i, x. destruct (ci_held _ K s q Eq Hq) as (Hs & _ & _).
  assert (i <> d) as Hid.
  { intros ->. apply Hne. rewrite Hs, Hn, R1, seq_inc_u16. f_equal. f_equal. lia. }
  destruct (decide (i = d)); [done|]. split_and!; try done; [lia|lia|]. by destruct (decide (i = S d)).
Qed.

(** One turn of reading gives the next bytes of the stream. *)
Lemma receiving_recv_turn h max d off m got advanced c c' k r : core_inv c -> conn_at h c = Some k -> receiving d off m k ->
  recv_turn h max (got, advanced) c = (Ok r, c') ->
  exists k' d' off', conn_at h c' = Some k' /\ receiving d' off' m k' /\ state k' = state k /\ core_inv c' /\
    let got' := match r with inl l => l.1 | inr l => l.1 end in
    exists bytes, got' = got ++ bytes /\ delivered L d' off' = delivered L d off ++ bytes.
Proof.
  intros I E R Run. pose proof (inv_conn_at _ _ _ I E) as K. pose proof R as [R1 R2 (O1 & O2 & O3) Sl Ef].
  assert (core_inv c') as I'.
  { destruct (run_recv_turn h max got advanced c k I E) as [(r0 & c0 & R0 & I0)|(l & k1 & R0 & K1 & _)]; rewrite R0 in Run; injection Run as _ <-; [done|].
    by apply inv_with_conn. }
  unfold recv_turn in Run. rewrite (run_get_conn h k) in Run by done.
  destruct (negb _) eqn:B; [injection Run as <- <-; exists k, d, off; split_and!; try done; exists []; by rewrite !app_nil_r|].
  apply negb_false_iff, andb_prop in B as [Hm Hr]. pose proof (readable_diff k K Hr) as Hd.
  apply andb_prop in Hr as [_ Heof%negb_true_iff]. rewrite Heof in Ef.
  destruct (next_packet k K ltac:(lia)) as (p & Ep & Hp & Hn & P). cbv zeta in Run. unfold get_rcvq in Run.
  rewrite (run_bind_option p) in Run by done. rewrite R1, R2 in Hd. unfold CHAOS_RING in *. rewrite seq_diff_small in Hd by lia.
  destruct (Sl _ _ Ep Hp) as (i & Hi). pose proof Hi as (x & Ex & _ & _ & _ & Ho & Hb & Ht & Hoff).
  assert (i = d) as ->.
  { apply (slot_index d off i d p Hi); [|lia|unfold CHAOS_RING; lia]. rewrite Hn, R1, seq_inc_u16. f_equal. lia. }
  destruct (decide (d = d)); [|done]. rewrite Ho in Run. assert (seq_inc (readNum k) = u16 (base + Z.of_nat (S d))) as Enext
    by (rewrite R1, seq_inc_u16; f_equal; lia).
  destruct (Z.eqb_spec x.1 CHOP_EOF) as [Hx|Hx].
  - erewrite bind_Ok in Run by apply run_set_conn. injection Run as <- <-. set (k1 := set_readNum _ _).
    exists k1, (S d), 0%nat. split; [by eapply conn_at_with_eq|]. split; [|split; [done|split; [done|]]].
    + constructor; try done.
      * unfold CHAOS_RING. lia.
      * by apply (receiving_consumed d off m k p p K R Ep).
      * simpl. exists d. split_and!; try done. by exists x.
    + exists []. cbn [fst]. rewrite !app_nil_r. split; [done|]. unfold delivered. rewrite (take_S_r _ _ _ Ex), map_app, concat_app, Ex.
      cbn. unfold payload. destruct (Z.eqb_spec x.1 CHOP_EOF); [|done]. rewrite take_nil, !app_nil_r. done.
  - destruct P as [Po Pb Pd]. unfold CHAOS_MAX_DATA in *.
    assert (u64 (nBytes p - offset p) = nBytes p - offset p) as Eu by (apply Z.mod_small; lia). rewrite Eu in Run. clear Eu.
    set (n_take := if _ <? nBytes p - offset p then _ else nBytes p - offset p) in Run.
    assert (0 <= n_take <= nBytes p - offset p) as Hnt.
    { unfold n_take. apply Z.ltb_lt in Hm. destruct (Z.ltb_spec (max - Z.of_nat (length got)) (nBytes p - offset p)); lia. }
    clearbody n_take. destruct (slice (data p) (offset p) n_take) as [bytes|] eqn:Esl; [|done]. rewrite (run_bind_option bytes) in Run by done.
    assert (bytes = take (Z.to_nat n_take) (drop off x.2)) as Eb.
    { assert (offset p + n_take <= Z.of_nat (length x.2)) as Hle by lia.
      pose proof (slice_part _ _ _ x.2 Ht (proj1 Po) (proj1 Hnt) Hle _ Esl) as Eb. by rewrite Hoff, Nat2Z.id in Eb. }
    assert (u16 (offset p + n_take) = offset p + n_take) as Eo by (apply u16_small; unfold is_u16; lia).
    cbn [set_offset offset nBytes] in Run. rewrite Eo in Run. set (p' := set_offset (offset p + n_take) p) in *.
    pose proof (delivered_more d off x (Z.to_nat n_take) Ex Hx) as Hmore. rewrite <- Eb in Hmore.
    destruct (Z.ltb_spec (offset p + n_take) (nBytes p)).
    + erewrite bind_Ok in Run by apply run_set_conn. injection Run as <- <-. eexists _, d, (off + Z.to_nat n_take)%nat.
      split; [by eapply conn_at_with_eq|]. split; [|split; [done|split; [done|by exists bytes]]].
      constructor; try done; cbn [put_rcvq set_rcvq rcvq readNum receivedNum eofReceived]; [unfold CHAOS_RING; split_and!; intros; lia| |by rewrite Heof].
      intros s q Eq Hq. destruct (decide (ring_slot (seq_inc (readNum k)) = s)) as [<-|Hne].
      * rewrite nth_upd_eq in Eq by (by eapply nth_Z_bounds). injection Eq as <-. exists d, x.
        cbn [p' set_offset num opcode nBytes data offset]. destruct (decide (d = d)); [|done].
        destruct Hi as (x' & Ex' & ? & ? & Hn' & _). split_and!; try done. lia.
      * rewrite nth_upd_ne in Eq by done. destruct (Sl s q Eq Hq) as (i & y & Ey & Hd' & Hi' & Hn' & Ho' & Hb' & Ht' & Hoff').
        exists i, y. destruct (ci_held _ K s q Eq Hq) as (Hs & _ & _).
        assert (i <> d) as Hid by (intros ->; apply Hne; rewrite Hs, Hn', R1, seq_inc_u16; f_equal; f_equal; lia).
        split_and!; try done. by destruct (decide (i = d)).
    + erewrite bind_Ok in Run by apply run_set_conn. injection Run as <- <-. exists (consumed (seq_inc (readNum k)) p' k), (S d), 0%nat.
      split; [by eapply conn_at_with_eq|]. split; [|split; [done|split; [done|]]].
      * constructor; try done; cbn [consumed set_readNum put_rcvq set_rcvq rcvq readNum receivedNum eofReceived]; [unfold CHAOS_RING; split_and!; intros; lia| |].
        { by apply (receiving_consumed d off m k p p' K R Ep). }
        rewrite Heof. rewrite (take_S_r _ _ _ Ex). apply Forall_app. split; [done|]. by apply Forall_singleton.
      * exists bytes. split; [done|]. rewrite <- Hmore, (delivered_next d x Ex Hx). f_equal. lia.
Qed.
End receiver.
