(* ===== verification/ChaosDeliver.v ===== *)
(** Sessions on a Chaosnet connection: any interleaving of frames from the network, timer ticks
    and user calls, on this connection and all others. What the user gets is the peer's bytes,
    in order, each once, and all of them before the end of file, whatever the network loses,
    repeats, delays or reorders. *)

From S2P Require Export ChaosStream.
From Stdlib Require String Ascii.
Import String.StringSyntax.
#[local] Open Scope vlm_scope.

(** ** The other connections *)

Section others.
Context (h : Z).
#[local] Abbreviation spares := (spares h).

Lemma spares_recv_turn i max l : i <> h -> spares (recv_turn i max l).
Proof. intros Hne. unfold recv_turn. spare; by apply spares_set_other. Qed.
Lemma spares_chaos_recv i max nowMs : i <> h -> spares (chaos_recv i max nowMs).
Proof.
  intros Hne. unfold chaos_recv. apply spares_bind; [apply spares_conn_for_handle|]. intros [k|]; [|apply spares_ret].
  apply spares_bind; [apply spares_loop; intros; by apply spares_recv_turn|]. intros [got advanced]. spare.
Qed.
Lemma spares_conn_queue_input i ch n nowMs : i <> h -> spares (conn_queue_input i ch n nowMs).
Proof.
  intros Hne. assert (forall f, (forall c, conns (f c) = conns c) -> spares (unwanted f i nowMs)) as Hun by (intros f Hf; unfold unwanted; spare).
  unfold conn_queue_input. spare; try (by apply Hun); try (by apply spares_set_other).
  apply spares_loop. intros u. unfold advance_turn. spare. by apply spares_set_other.
Qed.
Lemma free_index_free l : forall j i, free_index j l = Some i -> exists k, nth_Z l (i - j) = Some k /\ state k = CONN_FREE.
Proof.
  induction l as [|k0 l IH]; intros j i; cbn [free_index]; [done|]. case_bool_decide; [intros [= ->]; rewrite Z.sub_diag; by exists k0|].
  intros Hj. destruct (free_index_range _ _ _ Hj) as [Hlt _]. destruct (IH _ _ Hj) as (k1 & E1 & S1). exists k1. split; [|done].
  rewrite <- E1. unfold nth_Z. destruct (Z.leb_spec 0 (i - j)); [|lia]. destruct (Z.leb_spec 0 (i - (j + 1))); [|lia].
  by replace (Z.to_nat (i - j)) with (S (Z.to_nat (i - (j + 1)))) by lia.
Qed.
(** A free place is not that of an opened connection. *)
Lemma free_index_ne c k i : conn_at h c = Some k -> opened k = true -> free_index 0 (conns c) = Some i -> i <> h.
Proof.
  intros E O Ei ->. destruct (free_index_free _ _ _ Ei) as (k1 & E1 & S1). rewrite Z.sub_0_r in E1. unfold conn_at in E.
  rewrite E in E1. injection E1 as <-. unfold opened in O. by rewrite S1 in O.
Qed.
Lemma spares_chaos_open a contact nowMs : spares (chaos_open a contact nowMs).
Proof.
  unfold chaos_open. apply spares_if; [apply spares_ret|]. intros c k E O. rewrite run_bind_gets.
  destruct (free_index 0 (conns c)) as [i|] eqn:Ei; [|by exists k]. assert (i <> h) as Hne by (by eapply free_index_ne).
  match goal with |- context [snd (?m c)] => assert (spares m) as H; [|exact (H c k E O)] end.
  apply spares_bind; [apply keeps_spares, keeps_gets|intros c0]. cbv zeta.
  apply spares_bind; [by apply spares_set_other|intros []]. spare. apply spares_conn_send_controlled.
Qed.
Lemma chaos_open_other a contact nowMs c k i c' : 0 <= h -> conn_at h c = Some k -> opened k = true ->
  chaos_open a contact nowMs c = (Ok i, c') -> i <> h.
Proof.
  intros Hh E O Run. unfold chaos_open in Run. destruct (_ || _); [injection Run as <- _; lia|]. rewrite run_bind_gets in Run.
  destruct (free_index 0 (conns c)) as [j|] eqn:Ej; [|injection Run as <- _; lia]. rewrite run_bind_gets in Run. cbv zeta in Run.
  apply bind_inv_Ok in Run as (? & ? & _ & Run). apply bind_inv_Ok in Run as (? & ? & _ & Run). apply bind_inv_Ok in Run as (? & ? & _ & Run).
  apply bind_inv_Ok in Run as (? & ? & _ & Run). injection Run as <- _. by eapply free_index_ne.
Qed.
Lemma spares_chaos_release i why nowMs : i <> h -> spares (chaos_release i why nowMs).
Proof.
  intros Hne. unfold chaos_release. apply spares_bind; [apply spares_conn_for_handle|intros ?]. spare. by apply spares_set_other.
Qed.

(** A packet for the connection that is not data. *)
Definition is_data (op : Z) : bool := (CHOP_DAT <=? op) || (op =? CHOP_EOF).
Lemma spares_input_open i ch op n ack nowMs : i <> h \/ is_data op = false -> spares (input_open i ch op n ack nowMs).
Proof.
  intros Hor. unfold input_open. unfold is_data in Hor. destruct ((CHOP_DAT <=? op) || (op =? CHOP_EOF)).
  - destruct Hor as [Hne|]; [|done]. apply spares_bind; [apply spares_conn_process_ack|intros ?]. spare. by apply spares_conn_queue_input.
  - spare; try apply spares_conn_process_ack; apply spares_conn_set_closed.
Qed.
Lemma spares_input_rfc_sent i ch op n srcIndex pn ack nowMs : i <> h -> spares (input_rfc_sent i ch op n srcIndex pn ack nowMs).
Proof.
  intros Hne. unfold input_rfc_sent. spare; try apply spares_conn_process_ack; try apply spares_conn_set_closed.
  apply spares_update. intros c k k0 E O E0. rewrite run_set_conn. exists k. cbn [snd]. by rewrite conn_at_with_ne.
Qed.
End others.

(** ** What arrives for the connection *)

Section session.
Context (L : list (Z * list Z)) (base h : Z).
#[local] Abbreviation receiving := (receiving L base).
#[local] Abbreviation spares := (spares h).

(** A data packet that names both ends of the connection is one the peer has sent, and not older
    or newer than half of the packet numbers, counted from the [m] packets received in order. *)
Definition genuine (m : nat) (frame : list Z) (c : ChaosCore) : Prop :=
  forall k op counts n, let ch := drop (Z.to_nat CHAOS_ETH_HEADER) frame in
  conn_at h c = Some k -> nth_Z ch 1 = Some op -> is_data op = true -> chaos_get16 ch 2 = Some counts ->
  chaos_get16 ch 6 = Some (localIndex k) -> chaos_get16 ch 8 = Some (remoteAddr k) -> chaos_get16 ch 10 = Some (remoteIndex k) ->
  chaos_get16 ch 12 = Some n ->
  exists i x, L !! i = Some x /\ x.1 = op /\ n = u16 (base + 1 + Z.of_nat i) /\
    slice ch CHAOS_HEADER (Z.land counts 0xFFF) = Some x.2 /\ - 2 ^ 15 <= Z.of_nat m - Z.of_nat (S i) < 2 ^ 15.

(** The connection has received more, or as much as before. *)
Definition received_more (d off m : nat) (c' : ChaosCore) : Prop :=
  exists k' m', conn_at h c' = Some k' /\ receiving d off m' k' /\ opened k' = true /\ (m <= m')%nat.
Lemma spared {A} (mo : Core A) r d off m c c' k : spares mo -> conn_at h c = Some k -> opened k = true -> receiving d off m k ->
  mo c = (r, c') -> received_more d off m c'.
Proof.
  intros H E O R Run. destruct (H c k E O) as (k' & E' & V & O'). rewrite Run in E'. exists k', m. split_and!; try done.
  by eapply receiving_view.
Qed.
Lemma receiving_input_open ch op dataBytes ack nowMs d off m c c' k i x n : core_inv c -> conn_at h c = Some k -> state k = CONN_OPEN ->
  receiving d off m k -> handle h -> is_u16 ack ->
  (is_data op = true -> L !! i = Some x /\ x.1 = op /\ n = u16 (base + 1 + Z.of_nat i) /\ slice ch CHAOS_HEADER dataBytes = Some x.2 /\
     - 2 ^ 15 <= Z.of_nat m - Z.of_nat (S i) < 2 ^ 15) ->
  nth_Z ch 1 = Some op -> chaos_get16 ch 12 = Some n ->
  input_open h ch op dataBytes ack nowMs c = (Ok tt, c') -> received_more d off m c'.
Proof.
  intros I E Hst R Hh Wa Hg Hop Hn Run. assert (opened k = true) as O by (unfold opened; by rewrite Hst).
  destruct (is_data op) eqn:Hdata; [|by eapply spared; [apply spares_input_open; by right| | | |]].
  destruct (Hg eq_refl) as (Ex & Eop & -> & Esl & Hage). unfold input_open in Run. unfold is_data in Hdata. rewrite Hdata in Run.
  destruct (safe_conn_process_ack h ack ack nowMs Hh Wa Wa c I) as ([] & c1 & Rack & I1 & _). erewrite bind_Ok in Run by exact Rack.
  destruct (spares_conn_process_ack h h ack ack nowMs c k E O) as (k1 & E1 & V1 & O1). rewrite Rack in E1. cbn [snd] in E1.
  assert (receiving d off m k1) as R1 by (by eapply receiving_view). rewrite (run_get_conn h k1) in Run by done.
  case_bool_decide as Hs1; cbn [when] in Run; [|injection Run as <-; by exists k1, m].
  eapply (receiving_input L base h ch dataBytes nowMs d off m c1 c' k1 i x); try done. by rewrite Eop.
Qed.

Definition ends_view (k : ChaosConn) := (receive_view k, opened k, (localIndex k, remoteAddr k, remoteIndex k)).
Lemma receiving_input_conn ch op counts destIndex srcAddr srcIndex n ack nowMs d off m c c' k :
  core_inv c -> conn_at h c = Some k -> opened k = true -> receiving d off m k -> handle h -> is_u16 ack ->
  (is_data op = true -> destIndex = localIndex k -> srcAddr = remoteAddr k -> srcIndex = remoteIndex k ->
     exists i x, L !! i = Some x /\ x.1 = op /\ n = u16 (base + 1 + Z.of_nat i) /\
       slice ch CHAOS_HEADER (Z.land counts 0xFFF) = Some x.2 /\ - 2 ^ 15 <= Z.of_nat m - Z.of_nat (S i) < 2 ^ 15) ->
  nth_Z ch 1 = Some op -> chaos_get16 ch 12 = Some n ->
  input_conn ch op (Z.land counts 0xFFF) destIndex srcAddr srcIndex n ack nowMs c = (Ok tt, c') -> received_more d off m c'.
Proof.
  intros I E O R Hh Wa Hg Hop Hn Run. unfold input_conn in Run. cbv zeta in Run. set (i := Z.land destIndex (CHAOS_MAX_CONNS - 1)) in *.
  destruct (handle_conn i c (handle_of_index destIndex) I) as (k0 & E0 & K0). rewrite (run_get_conn i k0) in Run by done.
  destruct (_ || _ || _ || _) eqn:B in Run.
  { eapply (spared (if is_reply op then ret tt else send_los_reply ch (bytes_of_string "No such connection") nowMs)); [spare|done..]. }
  apply orb_false_elim in B as [[[_ B1%negb_false_iff%Z.eqb_eq]%orb_false_elim B2%negb_false_iff%Z.eqb_eq]%orb_false_elim B3].
  destruct (decide (i = h)) as [->|Hne].
  - assert (k0 = k) as -> by congruence. erewrite bind_Ok in Run by (by apply (run_on_conn h _ k)). cbv beta in Run.
    set (k1 := set_lastHeardMs nowMs k) in *. assert (core_inv (with_conn h k1 c)) as I1.
    { apply inv_with_conn; [done|]. apply (conn_inv_frame k); try done. }
    assert (conn_at h (with_conn h k1 c) = Some k1) as E1 by (by eapply conn_at_with_eq).
    assert (receiving d off m k1) as R1 by (by apply (receiving_view L base d off m k)).
    destruct (state k) eqn:Hst; try (unfold opened in O; by rewrite Hst in O).
    + rewrite bool_decide_eq_false_2 in B3 by done. cbn [negb andb] in B3. apply negb_false_iff, Z.eqb_eq in B3.
      destruct (is_data op) eqn:Hdata.
      * destruct (Hg eq_refl) as (j & x & Hx); [done..|].
        by eapply (receiving_input_open ch op (Z.land counts 0xFFF) ack nowMs d off m _ _ k1 j x n).
      * eapply (receiving_input_open ch op (Z.land counts 0xFFF) ack nowMs d off m _ _ k1 0 (0, []) n); try done. by rewrite Hdata.
    + eapply (spared (if is_reply op || (op =? CHOP_STS) then ret tt else send_los_reply ch (bytes_of_string "Connection in invalid state") nowMs));
        [spare| |  | |exact Run]; done.
  - eapply (spared (on_conn i (set_lastHeardMs nowMs) ;; _)); [|exact E|exact O|exact R|exact Run].
    apply spares_bind; [apply spares_on_conn; done|intros ?]. destruct (state k0).
    + apply spares_input_open. by left.
    + by apply spares_input_rfc_sent.
    + apply spares_input_open. by left.
    + spare.
Qed.

(** ** Frames *)

Lemma bind_option_inv {A B} (o : option A) (f : A -> Core B) c b c' : bind (of_option o) f c = (Ok b, c') ->
  exists a, o = Some a /\ f a c = (Ok b, c').
Proof. destruct o as [a|]; [|done]. by exists a. Qed.
Lemma chaos_get16_range l o n : chaos_get16 l o = Some n -> is_u16 n.
Proof. unfold chaos_get16. destruct (nth_Z l o), (nth_Z l (o + 1)); try done. intros [= <-]. apply u16_range. Qed.

Lemma learned (b : bool) a mac nowMs c : core_inv c -> length mac = 6%nat -> exists c1,
  when b (arp_learn a mac nowMs) c = (Ok tt, c1) /\ core_inv c1 /\ view_at ends_view h c1 = view_at ends_view h c.
Proof.
  intros I Hm. destruct b; cbn [when]; [|by exists c]. destruct (safe_arp_learn a mac nowMs Hm c I) as ([] & c1 & R & I1 & _).
  exists c1. split_and!; try done. assert (keeps ends_view h (arp_learn a mac nowMs)) as H by (by apply keeps_arp_learn).
  specialize (H c). by rewrite R in H.
Qed.
Lemma view_ends c c1 k : view_at ends_view h c1 = view_at ends_view h c -> conn_at h c = Some k -> exists k1,
  conn_at h c1 = Some k1 /\ receive_view k1 = receive_view k /\ opened k1 = opened k /\
  localIndex k1 = localIndex k /\ remoteAddr k1 = remoteAddr k /\ remoteIndex k1 = remoteIndex k.
Proof.
  unfold view_at. intros V E. rewrite E in V. destruct (conn_at h c1) as [k1|]; [|done]. simpl in V. unfold ends_view, receive_view in V. injection V as V1 V2 V3 V4 V5 V6 V7 V8 V9.
  exists k1. unfold receive_view. split_and!; congruence.
Qed.
Lemma receiving_handle_chaos frame nowMs d off m c c' k : core_inv c -> conn_at h c = Some k -> opened k = true -> receiving d off m k ->
  handle h -> genuine m frame c -> handle_chaos frame nowMs c = (Ok tt, c') -> received_more d off m c'.
Proof.
  intros I E O R Hh G Run. assert (forall c1 : ChaosCore, view_at ends_view h c1 = view_at ends_view h c -> forall mo, spares mo -> mo c1 = (Ok tt, c') -> received_more d off m c') as Hsp.
  { intros c1 V mo H1 H2. destruct (view_ends _ _ _ V E) as (k1 & E1 & V1 & O1 & _). eapply (spared mo); try done; [congruence|by eapply receiving_view]. }
  unfold handle_chaos in Run. destruct (_ <? _); [by apply (Hsp c eq_refl (ret tt)); [apply spares_ret|]|]. cbv zeta in Run.
  unfold genuine in G. cbv zeta in G. set (ch := drop _ frame) in *.
  apply bind_option_inv in Run as (op & Hop & Run). apply bind_option_inv in Run as (counts & Hcounts & Run).
  apply bind_option_inv in Run as (da & _ & Run). apply bind_option_inv in Run as (di & Hdi & Run).
  apply bind_option_inv in Run as (sa & Hsa & Run). apply bind_option_inv in Run as (si & Hsi & Run).
  apply bind_option_inv in Run as (n & Hn & Run). apply bind_option_inv in Run as (ack & Hack & Run).
  destruct (_ || _) in Run; [by apply (Hsp c eq_refl (ret tt)); [apply spares_ret|]|]. rewrite run_bind_gets in Run.
  apply bind_option_inv in Run as (smac & Hsmac & Run). apply bind_option_inv in Run as (first & _ & Run).
  destruct (learned ((Z.shiftr sa 8 =? Z.shiftr (myAddr c) 8) && (Z.land first 1 =? 0)) sa smac nowMs c I) as (c1 & R1 & I1 & V).
  { by apply slice_length in Hsmac. }
  erewrite bind_Ok in Run by exact R1. cbv beta in Run.
  destruct (negb _) in Run; [by apply (Hsp c1 V (ret tt)); [apply spares_ret|]|].
  destruct (op =? CHOP_RFC) in Run; [by eapply (Hsp c1 V); [apply spares_handle_rfc|exact Run]|].
  destruct (_ || _ || _ || _) in Run; [by apply (Hsp c1 V (ret tt)); [apply spares_ret|]|].
  destruct (view_ends _ _ _ V E) as (k1 & E1 & V1 & O1 & L1 & A1 & X1).
  eapply (receiving_input_conn ch op counts di sa si n ack nowMs d off m c1 c' k1); try done.
  - congruence.
  - by eapply receiving_view.
  - by eapply chaos_get16_range.
  - intros Hdata -> -> ->. apply (G k op counts n); try done; congruence.
Qed.
Lemma receiving_chaos_core_input frame nowMs d off m c c' k : core_inv c -> conn_at h c = Some k -> opened k = true -> receiving d off m k ->
  handle h -> genuine m frame c -> chaos_core_input frame nowMs c = (Ok tt, c') -> received_more d off m c'.
Proof.
  intros I E O R Hh G Run. assert (forall mo, spares mo -> mo c = (Ok tt, c') -> received_more d off m c') as Hsp by (intros; by eapply spared).
  unfold chaos_core_input in Run. destruct (_ <? _); [by apply (Hsp (ret tt)); [apply spares_ret|]|].
  apply bind_option_inv in Run as (hi & _ & Run). apply bind_option_inv in Run as (lo & _ & Run). cbv zeta in Run.
  destruct (_ && _) in Run; [by apply (Hsp (ret tt)); [apply spares_ret|]|].
  apply bind_option_inv in Run as (smac & _ & Run). rewrite run_bind_gets in Run.
  destruct (bytes_eqb _ _); [by apply (Hsp (ret tt)); [apply spares_ret|]|].
  destruct (_ =? ARP_ETHERTYPE) in Run.
  - eapply (Hsp (modify _ ;; handle_arp frame nowMs)); [|exact Run]. spare.
  - rewrite run_bind_modify in Run. eapply receiving_handle_chaos; [| | | | | |exact Run]; try done. by apply inv_counters.
Qed.

(** ** Reading *)

(** Reading stops early only when there is nothing left. *)
Lemma recv_turn_stops max got advanced c c' k r : core_inv c -> conn_at h c = Some k ->
  recv_turn h max (got, advanced) c = (Ok (inr r), c') -> Z.of_nat (length r.1) < max -> c' = c /\ readable k = false.
Proof.
  intros I E Run Hr. pose proof (inv_conn_at _ _ _ I E) as K. unfold recv_turn in Run. rewrite (run_get_conn h k) in Run by done.
  destruct (_ && _) eqn:B; cbn [negb] in Run.
  2: { injection Run as <- <-. split; [done|]. cbn [fst] in Hr. by rewrite (proj2 (Z.ltb_lt _ _) Hr) in B. }
  apply andb_prop in B as [Hm%Z.ltb_lt Hk]. cbv zeta in Run. pose proof (readable_diff k K Hk) as Hd.
  destruct (next_packet k K ltac:(lia)) as (p & Ep & _ & _ & [Po Pb Pd]). unfold get_rcvq in Run. rewrite (run_bind_option p) in Run by done.
  destruct (opcode p =? CHOP_EOF); [by erewrite bind_Ok in Run by apply run_set_conn|]. unfold CHAOS_MAX_DATA in *.
  assert (u64 (nBytes p - offset p) = nBytes p - offset p) as Eu by (apply Z.mod_small; lia). rewrite Eu in Run. clear Eu.
  set (room := max - Z.of_nat (length got)) in *. set (n_take := if room <? nBytes p - offset p then room else nBytes p - offset p) in *.
  assert (0 <= n_take <= nBytes p - offset p /\ (n_take = room \/ n_take = nBytes p - offset p)) as [Ht Hor].
  { unfold n_take, room. destruct (Z.ltb_spec (max - Z.of_nat (length got)) (nBytes p - offset p)); lia. }
  apply bind_option_inv in Run as (bytes & Eb & Run). cbn [set_offset offset nBytes] in Run.
  assert (u16 (offset p + n_take) = offset p + n_take) as Eo by (apply u16_small; unfold is_u16; lia). rewrite Eo in Run.
  destruct (Z.ltb_spec (offset p + n_take) (nBytes p)); erewrite bind_Ok in Run by apply run_set_conn; injection Run as Hr' _; [|done].
  subst r. cbn [fst] in Hr. rewrite length_app, (slice_length _ _ _ _ Eb) in Hr. unfold room in *. lia.
Qed.
Lemma receiving_recv_loop max : forall fuel d off m got advanced c c' k r, core_inv c -> conn_at h c = Some k -> receiving d off m k ->
  loop fuel (recv_turn h max) (got, advanced) c = (Ok r, c') ->
  exists k' d' off' bytes, conn_at h c' = Some k' /\ receiving d' off' m k' /\ state k' = state k /\
    r.1 = got ++ bytes /\ delivered L d' off' = delivered L d off ++ bytes /\ (Z.of_nat (length r.1) < max -> readable k' = false).
Proof.
  induction fuel as [|fuel IH]; intros d off m got advanced c c' k r I E R Run; [done|]. cbn [loop] in Run.
  apply bind_inv_Ok in Run as (t & c1 & Run1 & Run2).
  destruct (receiving_recv_turn L base h max d off m got advanced c c1 k t I E R Run1) as (k1 & d1 & off1 & E1 & R1 & S1 & I1 & bytes & G1 & D1).
  destruct t as [[got1 adv1]|r1]; cbn [fst] in G1.
  - destruct (IH d1 off1 m got1 adv1 c1 c' k1 r I1 E1 R1 Run2) as (k2 & d2 & off2 & more & E2 & R2 & S2 & G2 & D2 & X2).
    exists k2, d2, off2, (bytes ++ more). split_and!; try done; [congruence| |].
    + by rewrite G2, G1, app_assoc.
    + by rewrite D2, D1, app_assoc.
  - injection Run2 as <- <-. exists k1, d1, off1, bytes. split_and!; try done. intros Hr.
    destruct (recv_turn_stops max got advanced c c1 k r1 I E Run1 Hr) as [-> Hk]. by assert (k1 = k) as -> by congruence.
Qed.
Lemma receiving_chaos_recv max nowMs d off m got c c' k : core_inv c -> conn_at h c = Some k -> opened k = true -> receiving d off m k ->
  chaos_recv h max nowMs c = (Ok got, c') ->
  exists k' d' off', conn_at h c' = Some k' /\ opened k' = true /\ receiving d' off' m k' /\
    delivered L d' off' = delivered L d off ++ got /\ (handle h -> Z.of_nat (length got) < max -> readable k' = false).
Proof.
  intros I E O R Run. unfold chaos_recv in Run. apply bind_inv_Ok in Run as (o & c0 & Run0 & Run).
  assert (c0 = c /\ (o = None /\ ~ handle h \/ o = Some k)) as [-> Ho].
  { unfold conn_for_handle in Run0. destruct (_ || _) eqn:B; [injection Run0 as <- <-; split; [done|left; split; [done|unfold handle; lia]]|].
    rewrite (run_get_conn h k) in Run0 by done. rewrite bool_decide_eq_false_2 in Run0 by (intros Hf; unfold opened in O; by rewrite Hf in O).
    injection Run0 as <- <-. split; [done|by right]. }
  destruct o as [k0|]; [|injection Run as <- <-; exists k, d, off; split_and!; try done; [by rewrite app_nil_r|by destruct Ho as [[_ ?]|?]]].
  apply bind_inv_Ok in Run as ([got1 advanced] & c1 & Run1 & Run2).
  destruct (receiving_recv_loop max recv_fuel d off m [] false c c1 k _ I E R Run1) as (k1 & d1 & off1 & bytes & E1 & R1 & S1 & G1 & D1 & X1).
  cbn [fst app] in G1. subst got1. cbv beta iota in Run2.
  match type of Run2 with ?mo _ = _ => assert (spares mo) as Hs by spare; destruct (Hs c1 k1 E1) as (k2 & E2 & V2 & O2) end.
  { unfold opened. rewrite S1. exact O. }
  rewrite Run2 in E2. cbn [snd] in E2. assert (got = bytes) as ->.
  { rewrite (run_get_conn h k1) in Run2 by done. by apply bind_inv_Ok in Run2 as (? & ? & _ & [= <- _]). }
  exists k2, d1, off1. split_and!; try done; [by eapply receiving_view|]. intros _ Hlen. unfold receive_view in V2. injection V2 as V2 V3 _ V4 _.
  unfold readable. rewrite V2, V3, V4. by apply X1.
Qed.
End session.

(** * What a user of a Chaosnet connection gets: the peer's bytes, in order, each once, and all of
    them before the end of file, whatever else the daemon is doing and whatever the network
    loses, repeats, delays or reorders. *)

Section deliver.
Context (L : list (Z * list Z)) (base h : Z).

(** A connection that has just been opened by the peer's OPN with packet number [base]. *)
Definition just_opened (k : ChaosConn) : Prop :=
  state k = CONN_OPEN /\ readNum k = u16 base /\ receivedNum k = u16 base /\ eofReceived k = false /\
  forall s p, nth_Z (rcvq k) s = Some p -> present p = false.

(** How many more packets have come in order. *)
Definition in_order (c : ChaosCore) : Z := match conn_at h c with Some k => receivedNum k | None => 0 end.
Definition advanced_to (m : nat) (c c' : ChaosCore) : nat := (m + Z.to_nat (seq_diff (in_order c') (in_order c)))%nat.

(** Operations that are not the user's on this connection, or only send on it. *)
Definition elsewhere (m : nat) (o : operation) (c : ChaosCore) : Prop :=
  match o with
  | Input frame _ => genuine L base h m frame c
  | Recv i _ _ | Release i _ _ => i <> h
  | _ => True
  end.

(** [session c got m]: the core is at [c], the user has read [got] and [m] packets have come in
    order since the connection was opened. *)
Inductive session : ChaosCore -> list Z -> nat -> Prop :=
| session_opened c k : core_inv c -> conn_at h c = Some k -> just_opened k -> session c [] 0
| session_other c c' got m o : session c got m -> elsewhere m o c -> perform o c = (Ok tt, c') ->
    session c' got (advanced_to m c c')
| session_recv c c' got m bytes max nowMs : session c got m -> chaos_recv h max nowMs c = (Ok bytes, c') ->
    session c' (got ++ bytes) m.

(** What holds throughout a session. *)
Definition in_session (c : ChaosCore) (got : list Z) (m : nat) : Prop :=
  core_inv c /\ exists k d off, conn_at h c = Some k /\ opened k = true /\ receiving L base d off m k /\ got = delivered L d off.

Lemma receiving_opened k : just_opened k -> receiving L base 0 0 0 k.
Proof.
  intros (_ & R1 & R2 & R3 & Sl). constructor; rewrite ?Z.add_0_r, ?R3; try done; [split_and!; (done || lia)| |by apply Forall_nil].
  intros s p E Hp. specialize (Sl s p E). congruence.
Qed.
Lemma spares_elsewhere m o c : elsewhere m o c -> (forall frame nowMs, o <> Input frame nowMs) -> spares h (perform o).
Proof.
  intros He Hi. destruct o as [frame nowMs|nowMs|a contact nowMs|i bytes nowMs|i nowMs|i max nowMs|i why nowMs]; cbn [perform elsewhere] in *; try by destruct (Hi frame nowMs).
  - apply spares_chaos_core_tick.
  - apply spares_bind; [apply spares_chaos_open|intros; apply spares_ret].
  - apply spares_bind; [apply spares_chaos_send|intros; apply spares_ret].
  - apply spares_chaos_finish.
  - apply spares_bind; [by apply spares_chaos_recv|intros; apply spares_ret].
  - by apply spares_chaos_release.
Qed.
Lemma receiving_perform o c c' d off m k : handle h -> core_inv c -> conn_at h c = Some k -> opened k = true ->
  receiving L base d off m k -> elsewhere m o c -> perform o c = (Ok tt, c') -> received_more L base h d off m c'.
Proof.
  intros Hh I E O R He Run. assert ((exists frame nowMs, o = Input frame nowMs) \/ forall frame nowMs, o <> Input frame nowMs) as [(frame & nowMs & ->)|Hi]
    by (destruct o; (by left; eexists _, _) || by right).
  - exact (receiving_chaos_core_input L base h frame nowMs d off m c c' k I E O R Hh He Run).
  - exact (spared L base h (perform o) (Ok tt) d off m c c' k (spares_elsewhere m o c He Hi) E O R Run).
Qed.
(** The mark moves by less than the window, so the packet numbers show how far. *)
Lemma receiving_advanced d off m m' c c' k k' : conn_at h c = Some k -> conn_at h c' = Some k' ->
  receiving L base d off m k -> receiving L base d off m' k' -> (m <= m')%nat -> advanced_to m c c' = m'.
Proof.
  intros E E' [_ R1 (O1 & O2 & _) _ _] [_ R2 (P1 & P2 & _) _ _] Hm. unfold advanced_to, in_order. rewrite E, E', R1, R2.
  unfold CHAOS_RING in *. rewrite seq_diff_small by lia. lia.
Qed.
Lemma session_in c got m : handle h -> session c got m -> in_session c got m.
Proof.
  intros Hh. induction 1 as [c k I E J|c c' got m o _ (I & k & d & off & E & O & R & ->) He Run|c c' got m bytes max nowMs _ (I & k & d & off & E & O & R & ->) Run].
  - split; [done|]. exists k, 0%nat, 0%nat. split_and!; try done; [|by apply receiving_opened].
    destruct J as [J _]. unfold opened. by rewrite J.
  - destruct (receiving_perform o c c' d off m k Hh I E O R He Run) as (k' & m' & E' & R' & O' & Hm).
    split; [by destruct (safe_perform o c I) as ([] & c0 & Run0 & I0 & _); congruence|].
    exists k', d, off. split_and!; try done. by rewrite (receiving_advanced d off m m' c c' k k').
  - destruct (receiving_chaos_recv L base h max nowMs d off m bytes c c' k I E O R Run) as (k' & d' & off' & E' & O' & R' & D & _).
    split; [|by exists k', d', off'].
    destruct (safe_chaos_recv h max nowMs c I) as (b0 & c0 & Run0 & I0 & _). congruence.
Qed.

(** C7. Whatever the network loses, repeats, delays or reorders, and whatever else the daemon
    does meanwhile, what a user has read from a connection is a prefix of what the peer has
    sent on it, and all of it once the end of file has been read; the connection is open, or
    closed with what it still holds, until the user releases it. *)
Theorem chaos_ordered_delivery c got m : handle h -> session c got m ->
  got `prefix_of` stream L /\
  exists k, conn_at h c = Some k /\ (state k = CONN_OPEN \/ state k = CONN_CLOSED) /\ (eofReceived k = true -> got = stream L).
Proof.
  intros Hh S. destruct (session_in c got m Hh S) as (I & k & d & off & E & O & R & ->).
  split; [by eapply receiving_prefix|]. exists k. split; [done|]. split; [|by intros; eapply receiving_eof].
  unfold opened in O. apply orb_prop in O as [O%bool_decide_eq_true|O%bool_decide_eq_true]; [by left|by right].
Qed.
(** C12. A read gets all there is: when it returns less than was asked for, the user has read
    everything that has come in order, up to the end of file. *)
Theorem chaos_recv_complete c c' got m bytes max nowMs : handle h -> session c got m ->
  chaos_recv h max nowMs c = (Ok bytes, c') -> Z.of_nat (length bytes) < max -> got ++ bytes = stream (take m L).
Proof.
  intros Hh S Run Hlen. destruct (session_in c got m Hh S) as (I & k & d & off & E & O & R & ->).
  destruct (receiving_chaos_recv L base h max nowMs d off m bytes c c' k I E O R Run) as (k' & d' & off' & E' & O' & R' & D & X).
  rewrite <- D. by eapply receiving_drained; [|apply X].
Qed.
End deliver.

(** ** A session *)

(** The peer sends two packets and the end of file, across the wrap of the packet numbers; the
    second comes first, and the first comes twice. *)
Definition sent_by_peer : list (Z * list Z) := [(CHOP_DAT, bytes_of_string "Hello, "); (0x81, bytes_of_string "world"); (CHOP_EOF, [])].
Definition peer_frame (op n : Z) (bytes : list Z) : list Z :=
  chaos_frame [2; 0; 0; 0; 0; 1] [2; 0; 0; 0; 0; 2] op 0x0101 0x20 0x0102 7 n 0 bytes.
Definition opened_core : ChaosCore :=
  snd (perform_all [OpenConn 0x0102 (bytes_of_string "ECHO") 1; Input (peer_frame CHOP_OPN 0xFFFE (chaos_put16 0 ++ chaos_put16 13)) 2]
    (chaosd_core 0x0101 [2; 0; 0; 0; 0; 1] (bytes_of_string "HOST") 13 0)).
Definition after (o : operation) (c : ChaosCore) : ChaosCore := snd (perform o c).
Definition first_in : operation := Input (peer_frame 0x81 0 (bytes_of_string "world")) 3.
Definition second_in : operation := Input (peer_frame CHOP_DAT 0xFFFF (bytes_of_string "Hello, ")) 4.
Definition third_in : operation := Input (peer_frame CHOP_EOF 1 []) 6.
Definition read_core : ChaosCore := snd (chaos_recv 0 9 5 (after second_in (after second_in (after first_in opened_core)))).
Definition ended_core : ChaosCore := snd (chaos_recv 0 100 7 (after third_in read_core)).

Lemma opened_core_inv : core_inv opened_core.
Proof.
  destruct (safe_perform_all [OpenConn 0x0102 (bytes_of_string "ECHO") 1; Input (peer_frame CHOP_OPN 0xFFFE (chaos_put16 0 ++ chaos_put16 13)) 2] _
    (chaosd_core_inv 0x0101 [2; 0; 0; 0; 0; 1] (bytes_of_string "HOST") 13 0 eq_refl ltac:(done))) as ([] & c & R & I & _).
  unfold opened_core. by rewrite R.
Qed.
Lemma all_absent l : forallb (fun p => negb (present p)) l = true -> forall s p, nth_Z l s = Some p -> present p = false.
Proof.
  unfold nth_Z. intros H s p. destruct (0 <=? s); [|done]. intros E%list_elem_of_lookup_2%list_elem_of_In.
  rewrite forallb_forall in H. apply negb_true_iff. by apply H.
Qed.
Lemma opened_session : session sent_by_peer 0xFFFE 0 opened_core [] 0.
Proof.
  assert (exists k, conn_at 0 opened_core = Some k /\ (state k, readNum k, receivedNum k, eofReceived k,
    forallb (fun p => negb (present p)) (rcvq k)) = (CONN_OPEN, 0xFFFE, 0xFFFE, false, true)) as (k & E & H).
  { destruct (conn_at 0 opened_core) as [k|] eqn:E.
    - exists k. split; [done|].
      assert (option_map (fun k => (state k, readNum k, receivedNum k, eofReceived k, forallb (fun p => negb (present p)) (rcvq k))) (conn_at 0 opened_core)
        = Some (CONN_OPEN, 0xFFFE, 0xFFFE, false, true)) as H by (vm_compute; reflexivity). rewrite E in H. exact (inj Some _ _ H).
    - assert (match conn_at 0 opened_core with Some _ => true | None => false end = true) as H by (vm_compute; reflexivity). by rewrite E in H. }
  injection H as H1 H2 H3 H4 H5. apply (session_opened _ _ _ _ k); [apply opened_core_inv|done|]. split_and!; try done. by apply all_absent.
Qed.
Lemma session_after L base h c got m o m' : session L base h c got m -> handle h -> elsewhere L base h m o c ->
  advanced_to h m c (after o c) = m' -> session L base h (after o c) got m'.
Proof.
  intros S Hh He <-. eapply session_other; try done. destruct (session_in _ _ _ _ _ _ Hh S) as [I _].
  destruct (safe_perform o c I) as ([] & c' & R & _). unfold after. by rewrite R.
Qed.
Lemma run_result {A} (m : Core A) c a : (m c).1 = Ok a -> m c = (Ok a, (m c).2).
Proof. intros <-. apply surjective_pairing. Qed.
Lemma session_read L base h c got m max nowMs bytes : session L base h c got m -> (chaos_recv h max nowMs c).1 = Ok bytes ->
  session L base h (chaos_recv h max nowMs c).2 (got ++ bytes) m.
Proof. intros S R. eapply session_recv; [done|]. by apply run_result. Qed.
(** The frames are the peer's. *)
Lemma genuine_frame op n bytes m c i nowMs :
  sent_by_peer !! i = Some (op, bytes) -> n = u16 (0xFFFE + 1 + Z.of_nat i) -> - 2 ^ 15 <= Z.of_nat m - Z.of_nat (S i) < 2 ^ 15 ->
  (let ch := drop (Z.to_nat CHAOS_ETH_HEADER) (peer_frame op n bytes) in nth_Z ch 1 = Some op /\
    chaos_get16 ch 2 = Some (Z.of_nat (length bytes)) /\ chaos_get16 ch 12 = Some n /\ slice ch CHAOS_HEADER (Z.land (Z.of_nat (length bytes)) 0xFFF) = Some bytes) ->
  elsewhere sent_by_peer 0xFFFE 0 m (Input (peer_frame op n bytes) nowMs) c.
Proof.
  cbv zeta. intros Hi Hn Hm (E1 & E2 & E3 & E4) k op' counts n' ch. subst ch. intros _ Hop _ Hcounts _ _ _ Hn'.
  exists i, (op, bytes). rewrite E1 in Hop. injection Hop as <-. rewrite E2 in Hcounts. injection Hcounts as <-.
  rewrite E3 in Hn'. injection Hn' as <-. done.
Qed.
Lemma peer_turn c got m op n bytes nowMs i m' : session sent_by_peer 0xFFFE 0 c got m -> sent_by_peer !! i = Some (op, bytes) ->
  n = u16 (0xFFFE + 1 + Z.of_nat i) -> - 2 ^ 15 <= Z.of_nat m - Z.of_nat (S i) < 2 ^ 15 ->
  (let ch := drop (Z.to_nat CHAOS_ETH_HEADER) (peer_frame op n bytes) in nth_Z ch 1 = Some op /\
    chaos_get16 ch 2 = Some (Z.of_nat (length bytes)) /\ chaos_get16 ch 12 = Some n /\ slice ch CHAOS_HEADER (Z.land (Z.of_nat (length bytes)) 0xFFF) = Some bytes) ->
  advanced_to 0 m c (after (Input (peer_frame op n bytes) nowMs) c) = m' ->
  session sent_by_peer 0xFFFE 0 (after (Input (peer_frame op n bytes) nowMs) c) got m'.
Proof. intros S Hi Hn Hm Hf Hm'. eapply session_after; [exact S|done|by apply (genuine_frame _ _ _ _ _ i)|exact Hm']. Qed.
Lemma read_session : session sent_by_peer 0xFFFE 0 read_core (bytes_of_string "Hello, wo") 2.
Proof.
  apply (session_read _ _ _ _ [] 2 9 5 (bytes_of_string "Hello, wo")); [|vm_compute; reflexivity].
  apply (peer_turn _ [] 2 _ _ _ _ 0); [apply (peer_turn _ [] 0 _ _ _ _ 0); [apply (peer_turn _ [] 0 _ _ _ _ 1); [apply opened_session|..]|..]|..];
    try (vm_compute; done).
Qed.
Lemma ended_session : session sent_by_peer 0xFFFE 0 ended_core (bytes_of_string "Hello, wo" ++ bytes_of_string "rld") 3.
Proof.
  apply (session_read _ _ _ _ (bytes_of_string "Hello, wo") 3 100 7 (bytes_of_string "rld")); [|vm_compute; reflexivity].
  apply (peer_turn _ _ 2 _ _ _ _ 2); [exact read_session|vm_compute; done..].
Qed.
Lemma chaos_ordered_delivery_witness :
  (handle 0 /\ session sent_by_peer 0xFFFE 0 ended_core (bytes_of_string "Hello, world") 3) /\
  bytes_of_string "Hello, world" `prefix_of` stream sent_by_peer /\
  exists k, conn_at 0 ended_core = Some k /\ (state k = CONN_OPEN \/ state k = CONN_CLOSED) /\
    (eofReceived k = true -> bytes_of_string "Hello, world" = stream sent_by_peer).
Proof.
  assert (session sent_by_peer 0xFFFE 0 ended_core (bytes_of_string "Hello, world") 3) as S.
  { change (bytes_of_string "Hello, world") with (bytes_of_string "Hello, wo" ++ bytes_of_string "rld"). exact ended_session. }
  split; [by split|]. by apply (chaos_ordered_delivery sent_by_peer 0xFFFE 0 ended_core (bytes_of_string "Hello, world") 3).
Defined.
Lemma read_rest : (chaos_recv 0 9 6 read_core).1 = Ok (bytes_of_string "rld").
Proof. vm_compute. reflexivity. Qed.
Lemma chaos_recv_complete_witness :
  (handle 0 /\ session sent_by_peer 0xFFFE 0 read_core (bytes_of_string "Hello, wo") 2 /\
   (chaos_recv 0 9 6 read_core).1 = Ok (bytes_of_string "rld") /\ Z.of_nat (length (bytes_of_string "rld")) < 9) /\
  bytes_of_string "Hello, wo" ++ bytes_of_string "rld" = stream (take 2 sent_by_peer).
Proof.
  assert (handle 0) as H0 by done. assert (Z.of_nat (length (bytes_of_string "rld")) < 9) as Hl by done.
  split; [exact (conj H0 (conj read_session (conj read_rest Hl)))|].
  exact (chaos_recv_complete sent_by_peer 0xFFFE 0 read_core _ _ 2 _ 9 6 H0 read_session (run_result _ _ _ read_rest) Hl).
Defined.
