(* ===== verification/ChaosSender.v ===== *)
(** What the Chaosnet core sends on a connection: the opening request, the user's bytes in
    packets numbered in order and the end of file after the last of them, each packet the same
    every time it is transmitted, whatever else the core does. *)

From S2P Require Export ChaosDeliver.
From Stdlib Require String Ascii.
Import String.StringSyntax.
#[local] Open Scope vlm_scope.

(** ** What every operation preserves *)

(** A family of properties that [m] preserves when it returns. *)
Definition preserves {I A} (P : I -> ChaosCore -> Prop) (m : Core A) : Prop :=
  forall i c r c', P i c -> m c = (Ok r, c') -> P i c'.

Section preserve.
Context {I : Type} (P : I -> ChaosCore -> Prop).

Lemma preserves_ret {A} (a : A) : preserves P (ret a).
Proof. by intros i c r c' H [= _ <-]. Qed.
Lemma preserves_gets {A} (f : ChaosCore -> A) : preserves P (gets f).
Proof. by intros i c r c' H [= _ <-]. Qed.
Lemma preserves_option {A} (o : option A) : preserves P (of_option o).
Proof. destruct o; [apply preserves_ret|by intros i c r c' _]. Qed.
Lemma preserves_bind {A B} (m : Core A) (f : A -> Core B) : preserves P m -> (forall a, preserves P (f a)) -> preserves P (bind m f).
Proof. intros Hm Hf i c r c' H Run. apply bind_inv_Ok in Run as (a & c1 & R1 & R2). eapply Hf; [|exact R2]. by eapply Hm. Qed.
Lemma preserves_if {A} (b : bool) (m1 m2 : Core A) : preserves P m1 -> preserves P m2 -> preserves P (if b then m1 else m2).
Proof. by destruct b. Qed.
Lemma preserves_when b (m : Core unit) : preserves P m -> preserves P (when b m).
Proof. destruct b; [done|]. intros _. apply preserves_ret. Qed.
Lemma preserves_loop {A B} fuel (body : A -> Core (A + B)) : (forall a, preserves P (body a)) -> forall a, preserves P (loop fuel body a).
Proof.
  intros Hb. induction fuel as [|n IH]; intros a; [by intros i c r c' _|]. cbn [loop].
  apply preserves_bind; [apply Hb|]. intros [a'|b]; [apply IH|apply preserves_ret].
Qed.
Lemma preserves_get_conn i : preserves P (get_conn i).
Proof. apply preserves_bind; [apply preserves_gets|intros; apply preserves_option]. Qed.
Lemma preserves_get_arp i : preserves P (get_arp i).
Proof. apply preserves_bind; [apply preserves_gets|intros; apply preserves_option]. Qed.
Lemma preserves_get_sendq k n : preserves P (get_sendq k n).
Proof. apply preserves_option. Qed.
Lemma preserves_get_rcvq k n : preserves P (get_rcvq k n).
Proof. apply preserves_option. Qed.
Lemma preserves_conn_for_handle i : preserves P (conn_for_handle i).
Proof. apply preserves_if; [apply preserves_ret|]. apply preserves_bind; [apply preserves_get_conn|intros; apply preserves_ret]. Qed.
(** A connection that is read, and what is done with it. *)
Lemma run_get_conn_inv {B} i (f : ChaosConn -> Core B) c r c' : bind (get_conn i) f c = (Ok r, c') ->
  exists k, conn_at i c = Some k /\ f k c = (Ok r, c').
Proof.
  unfold get_conn. rewrite run_bind_assoc, run_bind_gets. unfold conn_at. destruct (nth_Z (conns c) i) as [k|]; [|done]. by exists k.
Qed.
Lemma preserves_update {A} i (m : ChaosConn -> Core A) :
  (forall x c k r c', P x c -> conn_at i c = Some k -> m k c = (Ok r, c') -> P x c') -> preserves P (bind (get_conn i) m).
Proof. intros Hm x c r c' H Run. apply run_get_conn_inv in Run as (k & E & Run). by eapply Hm. Qed.
End preserve.

(** One step of a [preserves] goal. *)
Ltac preserve :=
  first
    [ simple apply preserves_ret | simple apply preserves_gets | simple apply preserves_option | simple apply preserves_get_conn
    | simple apply preserves_get_arp | simple apply preserves_get_sendq | simple apply preserves_get_rcvq
    | simple apply preserves_conn_for_handle
    | simple apply preserves_bind; [|intros ?] | simple apply preserves_if | simple apply preserves_when
    | match goal with |- preserves _ (match ?o with _ => _ end) => destruct o end ].

(** ** The sending side of a connection *)

(** Packets that are kept until they are acknowledged. *)
Definition controlled (op : Z) : bool := (op =? CHOP_RFC) || is_data op.

Section sender.
Context (h lx base : Z) (e0 : list (list Z)).
Context (index_place : Z.land lx 31 = h) (index_used : lx <> 0).

(** Packet [n] with these bytes is one of [S], whose first has the number after [base]. *)
Definition numbered (S : list (Z * list Z)) (op : Z) (bytes : list Z) (n : Z) : Prop :=
  exists i, S !! i = Some (op, bytes) /\ n = u16 (base + 1 + Z.of_nat i).
(** A frame that is a packet of [S] if it is a controlled packet of the connection: it is an ARP
    frame, or a packet of another connection, or not a controlled one, or one of [S]. *)
Definition accounted (S : list (Z * list Z)) (f : list Z) : Prop :=
  slice f 12 2 = Some [Z.shiftr ARP_ETHERTYPE 8; Z.land ARP_ETHERTYPE 0xFF] \/
  exists dmac smac op da di sa si n ack bytes, f = chaos_frame dmac smac op da di sa si n ack bytes /\
    length dmac = 6%nat /\ length smac = 6%nat /\ (controlled op = true -> si = lx -> numbered S op bytes n).

(** The connection has sent [S]; its ring holds only packets of it. *)
Record sender_conn (S : list (Z * list Z)) (k : ChaosConn) : Prop := {
  sc_used : state k <> CONN_FREE;
  sc_index : localIndex k = lx;
  sc_sent : sentNum k = u16 (base + Z.of_nat (length S));
  sc_ring s p : nth_Z (sendq k) s = Some p -> present p = true ->
    exists bytes, slice (data p) 0 (nBytes p) = Some bytes /\ (length bytes <= Z.to_nat CHAOS_MAX_DATA)%nat /\ numbered S (opcode p) bytes (num p)
}.
(** No other connection has the index, and addresses are six bytes long. *)
Record formed (c : ChaosCore) : Prop := {
  fm_others i k : i <> h -> conn_at i c = Some k -> localIndex k <> lx;
  fm_conns : length (conns c) = Z.to_nat CHAOS_MAX_CONNS;
  fm_mac : length (myMac c) = 6%nat;
  fm_arp : Forall (fun e => length (mac e) = 6%nat) (arp c)
}.
(** [S] has been sent, and all frames emitted since [e0] are accounted for. *)
Definition sends (w : list (Z * list Z) * (bool * bool)) (c : ChaosCore) : Prop := exists k new,
  conn_at h c = Some k /\ sender_conn w.1 k /\ (eofSent k, eofWanted k) = w.2 /\ emitted c = e0 ++ new /\ Forall (accounted w.1) new /\ formed c.

Lemma sends_modify f : (forall c, conns (f c) = conns c /\ arp (f c) = arp c /\ myMac (f c) = myMac c /\ emitted (f c) = emitted c) ->
  preserves sends (modify f).
Proof.
  intros Hf w c r c' (k & new & E & K & W & Em & Hn & [F1 F2 F3 F4]) [= _ <-]. destruct (Hf c) as (H1 & H2 & H3 & H4).
  exists k, new. unfold conn_at in *. rewrite H1, H4. split_and!; try done. constructor; unfold conn_at; rewrite ?H1, ?H2, ?H3; done.
Qed.
Lemma formed_with c i k : formed c -> (i <> h -> localIndex k <> lx) -> formed (with_conn i k c).
Proof.
  intros [F1 F2 F3 F4] Hk. constructor; try done; [|cbn; by rewrite upd_Z_length].
  intros j k1 Hne E. destruct (decide (i = j)) as [<-|Hij]; [|rewrite conn_at_with_ne in E by done; by apply (F1 j)].
  unfold conn_at, with_conn in E. cbn [conns set_conns] in E. rewrite nth_upd_eq in E; [injection E as <-; by apply Hk|].
  apply nth_Z_bounds in E. by rewrite upd_Z_length in E.
Qed.
(** Another connection that keeps, or gets, an index of its own. *)
Lemma sends_other w c i k0 : i <> h -> localIndex k0 <> lx -> sends w c -> sends w (with_conn i k0 c).
Proof.
  intros Hne Hk (k & new & E & K & W & Em & Hn & F). exists k, new. rewrite conn_at_with_ne by done. split_and!; try done. by apply formed_with.
Qed.
Lemma sends_own w c k k1 : sends w c -> conn_at h c = Some k -> (sender_conn w.1 k -> sender_conn w.1 k1) ->
  (eofSent k1, eofWanted k1) = (eofSent k, eofWanted k) -> sends w (with_conn h k1 c).
Proof.
  intros (k' & new & E & K & W & Em & Hn & F) Ek H1 H2. assert (k' = k) as -> by congruence. exists k1, new. split_and!; try done.
  - by eapply conn_at_with_eq.
  - by apply H1.
  - by rewrite H2.
  - by apply formed_with.
Qed.
Lemma other_index w c i k : sends w c -> i <> h -> conn_at i c = Some k -> localIndex k <> lx.
Proof. intros (_ & _ & _ & _ & _ & _ & _ & F). by apply (fm_others _ F i). Qed.
(** What a connection may change without changing what it has sent. *)
Definition send_view (k : ChaosConn) := (localIndex k, sentNum k, sendq k, eofSent k, eofWanted k).
Definition same_sent (k k' : ChaosConn) : Prop := send_view k' = send_view k /\ (state k <> CONN_FREE -> state k' <> CONN_FREE).
Lemma sends_view w c i k k' : conn_at i c = Some k -> same_sent k k' -> sends w c -> sends w (with_conn i k' c).
Proof.
  intros E [V Hs] H. unfold send_view in V. injection V as V1 V2 V3 V4 V5. destruct (decide (i = h)) as [->|Hne].
  - apply (sends_own w c k k' H E); [|by rewrite V4, V5]. intros [K1 K2 K3 K4]. constructor; rewrite ?V1, ?V2, ?V3; auto.
  - apply sends_other; [done| |done]. rewrite V1. by eapply (other_index w c i k).
Qed.
Lemma sends_on_conn i f : (forall k, same_sent k (f k)) -> preserves sends (on_conn i f).
Proof.
  intros Hf w c r c' H Run. unfold on_conn in Run. apply run_get_conn_inv in Run as (k & E & Run). rewrite run_set_conn in Run.
  injection Run as _ <-. by apply (sends_view w c i k).
Qed.
Lemma sends_on_other i f : i <> h -> (forall k, localIndex (f k) = localIndex k) -> preserves sends (on_conn i f).
Proof.
  intros Hne Hf w c r c' H Run. unfold on_conn in Run. apply run_get_conn_inv in Run as (k & E & Run). rewrite run_set_conn in Run.
  injection Run as _ <-. apply sends_other; [done| |done]. rewrite Hf. by eapply (other_index w c i k).
Qed.
Lemma sends_set_other i k : i <> h -> localIndex k <> lx -> preserves sends (set_conn i k).
Proof. intros Hne Hk w c r c' H [= _ <-]. by apply sends_other. Qed.
Lemma same_sent_trans k1 k2 k3 : same_sent k1 k2 -> same_sent k2 k3 -> same_sent k1 k3.
Proof. intros [V1 H1] [V2 H2]. split; [congruence|auto]. Qed.

(** ** Transmission *)

Lemma sends_set_arp_entry i e : length (mac e) = 6%nat -> preserves sends (set_arp_entry i e).
Proof.
  intros He w c r c' (k & new & E & K & W & Em & Hn & [F1 F2 F3 F4]) [= _ <-]. exists k, new. split_and!; try done.
  constructor; try done. cbn [arp set_arp]. by apply Forall_upd.
Qed.
Lemma sends_emit w c f r c' : sends w c -> accounted w.1 f -> emit_frame f c = (Ok r, c') -> sends w c'.
Proof.
  intros (k & new & E & K & W & Em & Hn & [F1 F2 F3 F4]) Hf [= _ <-]. exists k, (new ++ [f]). split_and!; try done.
  - cbn. by rewrite Em, app_assoc.
  - apply Forall_app. split; [done|]. by apply Forall_singleton.
Qed.
Lemma slice_app_length (l1 l2 : list Z) o n : o = Z.of_nat (length l1) -> 0 <= n <= Z.of_nat (length l2) ->
  slice (l1 ++ l2) o n = Some (take (Z.to_nat n) l2).
Proof.
  intros -> Hn. unfold slice. rewrite length_app. destruct (Z.leb_spec 0 (Z.of_nat (length l1))); [|lia]. destruct (Z.leb_spec 0 n); [|lia].
  destruct (Z.leb_spec (Z.of_nat (length l1) + n) (Z.of_nat (length l1 + length l2))); [|lia]. cbn [andb]. by rewrite Nat2Z.id, drop_app_length.
Qed.
Lemma accounted_arp S (dmac smac rest : list Z) : length dmac = 6%nat -> length smac = 6%nat ->
  accounted S (dmac ++ smac ++ [Z.shiftr ARP_ETHERTYPE 8; Z.land ARP_ETHERTYPE 0xFF] ++ rest).
Proof.
  intros Hd Hs. left. rewrite app_assoc, slice_app_length; [done|by rewrite length_app, Hd, Hs|].
  split; [done|]. rewrite length_app. cbn [length]. lia.
Qed.
Lemma get_arp_mac w c i e c' : sends w c -> get_arp i c = (Ok e, c') -> c' = c /\ length (mac e) = 6%nat.
Proof.
  intros (k & new & _ & _ & _ & _ & _ & [_ _ _ F4]) Run. unfold get_arp in Run. rewrite run_bind_gets in Run.
  destruct (nth_Z (arp c) i) as [e1|] eqn:Ee; [|done]. injection Run as <- <-. split; [done|]. by eapply (Forall_nth_Z (fun e => length (mac e) = 6%nat)).
Qed.
Lemma sends_mac w c : sends w c -> length (myMac c) = 6%nat.
Proof. intros (_ & _ & _ & _ & _ & _ & _ & F). by destruct F. Qed.
Lemma sends_arp_send_request i nowMs : preserves sends (arp_send_request i nowMs).
Proof.
  intros w c r c' H Run. unfold arp_send_request in Run. rewrite !run_bind_gets in Run. apply bind_inv_Ok in Run as (e & c1 & R1 & Run).
  destruct (get_arp_mac w c i e c1 H R1) as [-> He]. cbv zeta in Run. apply bind_inv_Ok in Run as ([] & c2 & R2 & R3).
  eapply sends_emit; [| |exact R3]; [by eapply sends_set_arp_entry; [|exact H|exact R2]|].
  apply (accounted_arp _ (replicate 6 0xFF)); [done|by eapply sends_mac].
Qed.
Lemma sends_arp_find a create : preserves sends (arp_find a create).
Proof. unfold arp_find. repeat preserve. by apply sends_set_arp_entry. Qed.
Lemma sends_arp_resolve w c a nowMs o c' : sends w c -> arp_resolve a nowMs c = (Ok o, c') ->
  sends w c' /\ forall d, o = Some d -> length d = 6%nat.
Proof.
  intros H Run. unfold arp_resolve in Run. apply bind_inv_Ok in Run as (i & c1 & R1 & Run).
  assert (sends w c1) as H1 by (by eapply sends_arp_find). apply bind_option_inv in Run as (j & _ & Run).
  apply bind_inv_Ok in Run as (e & c2 & R2 & Run). destruct (get_arp_mac w c1 j e c2 H1 R2) as [-> He].
  assert (forall b, preserves sends (when b (arp_send_request j nowMs))) as Hreq by (intros b; apply preserves_when, sends_arp_send_request).
  destruct (valid e); apply bind_inv_Ok in Run as ([] & c3 & R3 & [= <- <-]); (split; [by eapply Hreq|]); [by intros d [= <-]|done].
Qed.
Lemma sends_send_raw w c op da di si n ack bytes nowMs r c' : sends w c ->
  (controlled op = true -> si = lx -> numbered w.1 op (take (Z.to_nat CHAOS_MAX_DATA) bytes) n) ->
  send_raw op da di si n ack bytes nowMs c = (Ok r, c') -> sends w c'.
Proof.
  intros H Hn Run. unfold send_raw in Run. cbv zeta in Run. apply bind_inv_Ok in Run as (o & c1 & R1 & Run).
  destruct (sends_arp_resolve w c da nowMs o c1 H R1) as [H1 Hd]. destruct o as [dmac|]; [|by injection Run as _ <-].
  rewrite !run_bind_gets in Run. apply bind_inv_Ok in Run as ([] & c2 & R2 & [= _ <-]). eapply sends_emit; [exact H1| |exact R2].
  right. do 10 eexists. split; [reflexivity|]. split_and!; [by apply Hd|by eapply sends_mac|done].
Qed.
Lemma sends_uncontrolled op da di si n ack bytes nowMs : controlled op = false -> preserves sends (send_raw op da di si n ack bytes nowMs).
Proof. intros Hop w c r c' H Run. eapply sends_send_raw; [exact H| |exact Run]. congruence. Qed.
Lemma same_acked k : same_sent k (acked_now k).
Proof. done. Qed.
Lemma sends_conn_send_unc i op n bytes nowMs : controlled op = false -> preserves sends (conn_send_unc i op n bytes nowMs).
Proof. intros Hop. unfold conn_send_unc. repeat preserve; [by apply sends_on_conn|by apply sends_uncontrolled]. Qed.
Lemma sends_conn_send_sts i nowMs : preserves sends (conn_send_sts i nowMs).
Proof. unfold conn_send_sts. repeat preserve. by apply sends_conn_send_unc. Qed.

(** A packet of the ring that changes only in its times, or goes. *)
Lemma sends_touch w c i k n p p' : sends w c -> conn_at i c = Some k -> nth_Z (sendq k) (ring_slot n) = Some p ->
  (present p' = true -> present p = true /\ opcode p' = opcode p /\ num p' = num p /\ nBytes p' = nBytes p /\ data p' = data p) ->
  sends w (with_conn i (put_sendq n p' k) c).
Proof.
  intros H E Ep Hp. destruct (decide (i = h)) as [->|Hne].
  - apply (sends_own w c k); try done. intros [K1 K2 K3 K4]. constructor; try done. intros s q Eq Hq.
    cbn [sendq put_sendq set_sendq] in Eq. destruct (decide (ring_slot n = s)) as [<-|Hs]; [|rewrite nth_upd_ne in Eq by done; by apply (K4 s)].
    rewrite nth_upd_eq in Eq by (by eapply nth_Z_bounds). injection Eq as ->. destruct (Hp Hq) as (P1 & P2 & P3 & P4 & P5).
    rewrite P2, P3, P4, P5. by apply (K4 (ring_slot n)).
  - apply sends_other; [done| |done]. by eapply (other_index w c i k).
Qed.
Lemma sends_conn_transmit w c i n nowMs r c' : sends w c ->
  (forall k p, conn_at i c = Some k -> nth_Z (sendq k) (ring_slot n) = Some p -> present p = true) ->
  conn_transmit i n nowMs c = (Ok r, c') -> sends w c'.
Proof.
  intros H Hp Run. unfold conn_transmit in Run. apply run_get_conn_inv in Run as (k & E & Run). apply bind_option_inv in Run as (p & Ep & Run).
  specialize (Hp k p E Ep). erewrite bind_Ok in Run by (by apply (run_on_conn i _ k)). cbv beta in Run.
  assert (sends w (with_conn i (put_sendq n (set_sentAtMs nowMs p) k) c)) as H1 by (by eapply sends_touch).
  apply bind_inv_Ok in Run as ([] & c2 & R2 & Run). assert (sends w c2) as H2 by (eapply sends_on_conn; [|exact H1|exact R2]; by apply same_acked).
  apply bind_option_inv in Run as (bytes & Eb & Run). apply bind_inv_Ok in Run as (b & c3 & R3 & [= _ <-]).
  eapply sends_send_raw; [exact H2| |exact R3]. intros _ Hl. destruct (decide (i = h)) as [->|Hne].
  - destruct H as (k' & _ & E' & K & _). assert (k' = k) as -> by congruence. destruct (sc_ring _ _ K _ _ Ep Hp) as (b' & Eb' & Lb & Hnum).
    assert (b' = bytes) as -> by congruence. by rewrite take_ge.
  - by destruct (other_index w c i k H Hne E).
Qed.
Lemma sends_conn_retransmit i nowMs age : preserves sends (conn_retransmit i nowMs age).
Proof.
  unfold conn_retransmit. repeat preserve. apply preserves_loop. intros n. apply preserves_update. intros w c k r c' H E Run.
  destruct (chaos_seq_lt _ _); [by injection Run as _ <-|]. apply bind_option_inv in Run as (p & Ep & Run).
  destruct (negb (present p)) eqn:Hp; cbn [orb] in Run; [by injection Run as _ <-|]. apply negb_false_iff in Hp.
  destruct (negb _); [by injection Run as _ <-|]. destruct (_ <? _); [by injection Run as _ <-|].
  rewrite run_bind_modify in Run. apply bind_inv_Ok in Run as ([] & c2 & R2 & [= _ <-]).
  eapply sends_conn_transmit; [| |exact R2]; [by apply (sends_modify (fun c => set_nRetransmits (u64 (nRetransmits c + 1)) c) ltac:(done) w c tt)|].
  intros k1 p1 E1 Ep1. unfold conn_at in E1. cbn [conns set_nRetransmits] in E1. unfold conn_at in E. congruence.
Qed.
Lemma sends_retransmit_to n : forall i a nowMs, preserves sends (retransmit_to i n a nowMs).
Proof. induction n as [|n IH]; intros i a nowMs; cbn [retransmit_to]; repeat preserve; [apply sends_conn_retransmit|apply IH]. Qed.
Lemma sends_arp_learn a m nowMs : length m = 6%nat -> preserves sends (arp_learn a m nowMs).
Proof. intros Hm. unfold arp_learn. cbv zeta. repeat preserve; [apply sends_arp_find|by apply sends_set_arp_entry|apply sends_retransmit_to]. Qed.
Lemma sends_handle_arp frame nowMs : preserves sends (handle_arp frame nowMs).
Proof.
  intros w c r c' H Run. unfold handle_arp in Run. destruct (_ <? _); [by injection Run as _ <-|]. cbv zeta in Run.
  apply bind_option_inv in Run as (head & _ & Run). destruct (negb _); [by injection Run as _ <-|].
  apply bind_option_inv in Run as (spa & _ & Run). apply bind_option_inv in Run as (tpa & _ & Run). apply bind_option_inv in Run as (sha & Esha & Run).
  apply slice_length in Esha. apply bind_inv_Ok in Run as ([] & c1 & R1 & Run). assert (sends w c1) as H1 by (by eapply sends_arp_learn).
  apply bind_option_inv in Run as (op & _ & Run). rewrite run_bind_gets in Run. destruct (_ || _); [by injection Run as _ <-|].
  rewrite run_bind_gets in Run. eapply sends_emit; [exact H1| |exact Run]. apply accounted_arp; [done|by eapply sends_mac].
Qed.

(** ** Sending in order *)

Lemma numbered_app S x op bytes n : numbered S op bytes n -> numbered (S ++ [x]) op bytes n.
Proof. intros (i & E & ->). exists i. split; [|done]. by apply lookup_app_l_Some. Qed.
Lemma accounted_app S x f : accounted S f -> accounted (S ++ [x]) f.
Proof.
  intros [H|(dmac & smac & op & da & di & sa & si & n & ack & bytes & -> & H1 & H2 & H3)]; [by left|]. right.
  do 10 eexists. split; [reflexivity|]. split_and!; [done..|]. intros Hop Hsi. by apply numbered_app, H3.
Qed.
Lemma slice_prefix (l x : list Z) : take (length x) l = x -> slice l 0 (Z.of_nat (length x)) = Some x.
Proof.
  intros Hx. assert (length x <= length l)%nat as Hl by (rewrite <- Hx, length_take; lia).
  rewrite <- (take_drop (length x) l), Hx. rewrite <- (app_nil_l (x ++ _)). rewrite slice_app_length; [|done|rewrite length_app; lia].
  by rewrite Nat2Z.id, take_app_length.
Qed.
(** The packet that is put in the ring, before it is transmitted. *)
Definition sent_next (op : Z) (bytes : list Z) (k : ChaosConn) (p : ChaosPkt) (d : list Z) : ChaosConn :=
  let k1 := set_sentNum (seq_inc (sentNum k)) k in
  put_sendq (sentNum k1) (MkPkt true op (sentNum k1) (u16 (Z.of_nat (length bytes))) 0 (sentAtMs p) d) k1.
Lemma conn_send_controlled_inv i op bytes nowMs c r c' : conn_send_controlled i op bytes nowMs c = (Ok r, c') ->
  exists k p d, conn_at i c = Some k /\ nth_Z (sendq k) (ring_slot (seq_inc (sentNum k))) = Some p /\ take (length bytes) d = bytes /\
    conn_transmit i (seq_inc (sentNum k)) nowMs (with_conn i (sent_next op bytes k p d) c) = (Ok r, c').
Proof.
  intros Run. unfold conn_send_controlled, on_conn in Run. rewrite run_bind_assoc in Run. apply run_get_conn_inv in Run as (k & E & Run).
  erewrite bind_Ok in Run by apply run_set_conn. set (k1 := set_sentNum (seq_inc (sentNum k)) k) in *.
  rewrite (run_get_conn i k1) in Run by (by eapply conn_at_with_eq). apply bind_option_inv in Run as (p & Ep & Run).
  apply bind_option_inv in Run as (d & Ed & Run). destruct (put_prefix_spec _ _ _ Ed) as [_ Hd]. rewrite run_bind_assoc in Run.
  rewrite (run_get_conn i k1) in Run by (by eapply conn_at_with_eq). erewrite bind_Ok in Run by apply run_set_conn.
  rewrite with_conn_twice in Run. by exists k, p, d.
Qed.
Lemma transmit_next w i op bytes k p d c r c' nowMs : conn_at i c = Some k ->
  nth_Z (sendq k) (ring_slot (seq_inc (sentNum k))) = Some p -> sends w (with_conn i (sent_next op bytes k p d) c) ->
  conn_transmit i (seq_inc (sentNum k)) nowMs (with_conn i (sent_next op bytes k p d) c) = (Ok r, c') -> sends w c'.
Proof.
  intros E Ep H Run. eapply sends_conn_transmit; [exact H| |exact Run]. intros k' q Ek' Eq.
  rewrite (conn_at_with_eq i _ k) in Ek' by done. injection Ek' as <-. cbn [sendq sent_next put_sendq set_sendq sentNum set_sentNum] in Eq.
  rewrite nth_upd_eq in Eq by (by eapply nth_Z_bounds). by injection Eq as <-.
Qed.
Lemma sends_controlled_other i op bytes nowMs : i <> h -> preserves sends (conn_send_controlled i op bytes nowMs).
Proof.
  intros Hne w c r c' H Run. apply conn_send_controlled_inv in Run as (k & p & d & E & Ep & _ & Run).
  eapply transmit_next; [exact E|exact Ep| |exact Run]. apply sends_other; [done| |done].
  by eapply (other_index w c i k).
Qed.
Lemma sends_controlled S v c op bytes nowMs r c' : sends (S, v) c -> (length bytes <= Z.to_nat CHAOS_MAX_DATA)%nat ->
  conn_send_controlled h op bytes nowMs c = (Ok r, c') -> sends (S ++ [(op, bytes)], v) c'.
Proof.
  intros (k & new & E & [K1 K2 K3 K4] & W & Em & Hn & F) Hb Run. apply conn_send_controlled_inv in Run as (k' & p & d & E' & Ep & Hd & Run).
  assert (k' = k) as -> by congruence. eapply transmit_next; [exact E|exact Ep| |exact Run].
  cbn [fst snd] in *. assert (u16 (Z.of_nat (length bytes)) = Z.of_nat (length bytes)) as Lb.
  { apply u16_small. change (Z.to_nat CHAOS_MAX_DATA) with 488%nat in Hb. unfold is_u16. lia. }
  exists (sent_next op bytes k p d), new. split_and!; [by eapply conn_at_with_eq| |done|done| |by apply formed_with].
  - constructor; [done|done| |].
    + cbn. rewrite K3, seq_inc_u16, length_app. cbn [length]. f_equal. lia.
    + intros s q Eq Hq. cbn [fst sendq sent_next put_sendq set_sendq sentNum set_sentNum] in Eq |- *.
      destruct (decide (ring_slot (seq_inc (sentNum k)) = s)) as [<-|Hs].
      * rewrite nth_upd_eq in Eq by (by eapply nth_Z_bounds). injection Eq as <-. exists bytes. cbn [data nBytes opcode num].
        split_and!; [rewrite Lb; by apply slice_prefix|done|]. exists (length S). rewrite lookup_app_r, Nat.sub_diag by done.
        split; [done|]. rewrite K3, seq_inc_u16. f_equal. lia.
      * rewrite nth_upd_ne in Eq by done. destruct (K4 s q Eq Hq) as (b & B1 & B2 & B3). exists b. split_and!; [done..|]. by apply numbered_app.
  - eapply Forall_impl; [exact Hn|]. intros f. apply accounted_app.
Qed.

(** ** What does not send in order *)

Lemma sends_conn_set_closed i kind text : preserves sends (conn_set_closed i kind text).
Proof.
  apply preserves_update. intros w c k r c' H E Run. cbv zeta in Run. apply bind_option_inv in Run as (d & _ & Run).
  rewrite run_set_conn in Run. injection Run as _ <-. destruct (decide (i = h)) as [->|Hne].
  - apply (sends_own w c k); try done. intros [K1 K2 K3 K4]. constructor; try done. intros s p Ep Hp. exfalso. cbn in Ep.
    unfold nth_Z in Ep. destruct (0 <=? s); [|done]. rewrite list_lookup_fmap in Ep. destruct (sendq k !! Z.to_nat s); [|done].
    by injection Ep as <-.
  - apply sends_other; [done| |done]. by eapply (other_index w c i k).
Qed.
Lemma sends_conn_close_cls i why kind nowMs : preserves sends (conn_close_cls i why kind nowMs).
Proof. unfold conn_close_cls. repeat preserve; [by apply sends_conn_send_unc|apply sends_conn_set_closed]. Qed.
Lemma sends_receipt_turn i r n : preserves sends (receipt_turn i r n).
Proof.
  unfold receipt_turn. preserve; [preserve|]. apply preserves_update. intros w c k x c' H E Run. apply bind_option_inv in Run as (p & Ep & Run).
  erewrite bind_Ok in Run by apply run_set_conn. injection Run as _ <-. by eapply sends_touch.
Qed.
(** A connection read and written back with the same sending side. *)
Lemma sends_set_conn w c i k k' r c' : sends w c -> conn_at i c = Some k -> set_conn i k' c = (Ok r, c') -> same_sent k k' -> sends w c'.
Proof. intros H E. rewrite run_set_conn. intros [= _ <-] V. by eapply sends_view. Qed.
Lemma sends_recv_turn i max l : preserves sends (recv_turn i max l).
Proof.
  destruct l as [got advanced]. apply preserves_update. intros w c k r c' H E Run. destruct (negb _); [by injection Run as _ <-|]. cbv zeta in Run.
  apply bind_option_inv in Run as (p & _ & Run). destruct (opcode p =? CHOP_EOF).
  - apply bind_inv_Ok in Run as ([] & c1 & R1 & [= _ <-]). by eapply sends_set_conn.
  - apply bind_option_inv in Run as (b & _ & Run). destruct (_ <? _); apply bind_inv_Ok in Run as ([] & c1 & R1 & [= _ <-]); by eapply sends_set_conn.
Qed.
Lemma sends_chaos_recv i max nowMs : preserves sends (chaos_recv i max nowMs).
Proof.
  unfold chaos_recv. preserve; [preserve|]. preserve; [|preserve]. preserve; [apply preserves_loop, sends_recv_turn|].
  repeat preserve; [apply sends_conn_send_sts|by apply sends_on_conn].
Qed.
Lemma sends_advance_turn i u : preserves sends (advance_turn i u).
Proof.
  apply preserves_update. intros w c k r c' H E Run. cbv zeta in Run. apply bind_option_inv in Run as (p & _ & Run).
  destruct (_ || _); [by injection Run as _ <-|]. apply bind_inv_Ok in Run as ([] & c1 & R1 & [= _ <-]). by eapply sends_set_conn.
Qed.
Lemma sends_unwanted f i nowMs : (forall c, conns (f c) = conns c /\ arp (f c) = arp c /\ myMac (f c) = myMac c /\ emitted (f c) = emitted c) ->
  preserves sends (unwanted f i nowMs).
Proof. intros Hf. unfold unwanted. preserve; [by apply sends_modify|apply sends_conn_send_sts]. Qed.
Lemma sends_conn_queue_input i ch n nowMs : preserves sends (conn_queue_input i ch n nowMs).
Proof.
  unfold conn_queue_input. preserve; [preserve|]. apply preserves_update. intros w c k r c' H E Run.
  destruct (negb _); [by eapply (sends_unwanted count_duplicate)|]. destruct (_ <? _); [by eapply (sends_unwanted count_over_window)|].
  apply bind_option_inv in Run as (p & _ & Run). destruct (_ && _); [by eapply (sends_unwanted count_duplicate)|].
  apply bind_option_inv in Run as (op & _ & Run). apply bind_option_inv in Run as (b & _ & Run). apply bind_option_inv in Run as (d & _ & Run).
  apply bind_inv_Ok in Run as ([] & c1 & R1 & Run). assert (sends w c1) as H1 by (by eapply sends_set_conn).
  revert H1 Run. apply (preserves_bind sends (loop seq_fuel (advance_turn i) tt)); [apply preserves_loop, sends_advance_turn|].
  intros []. repeat preserve. apply sends_conn_send_sts.
Qed.
Lemma sends_handle_rfc ch n nowMs : preserves sends (handle_rfc ch n nowMs).
Proof. unfold handle_rfc. cbv zeta. repeat preserve; (by apply sends_modify) || by apply sends_uncontrolled. Qed.
Lemma sends_send_los_reply ch why nowMs : preserves sends (send_los_reply ch why nowMs).
Proof. unfold send_los_reply. repeat preserve; (by apply sends_modify) || by apply sends_uncontrolled. Qed.
Lemma sends_tick_conn i nowMs : preserves sends (tick_conn i nowMs).
Proof.
  unfold tick_conn. cbv zeta. repeat preserve; (apply sends_conn_set_closed || apply sends_conn_retransmit || apply sends_conn_close_cls ||
    apply sends_conn_send_sts || (by apply sends_on_conn) || by apply sends_conn_send_unc).
Qed.
Lemma sends_tick_conns nowMs n : forall i, preserves sends (tick_conns i n nowMs).
Proof. induction n as [|n IH]; intros i; cbn [tick_conns]; repeat preserve; [apply sends_tick_conn|apply IH]. Qed.

(** ** The stream of a connection *)

Context (contact : list Z).

(** After the opening request [D] has been sent, which carries the bytes [T]: data, and at most
    one end of file, after all data. *)
Definition user_packet (x : Z * list Z) : Prop := x.1 = CHOP_DAT \/ x = (CHOP_EOF, []).
Definition carries (x y : bool) (D : list (Z * list Z)) : Prop :=
  Forall user_packet D /\ if x then y = true /\ exists D', D = D' ++ [(CHOP_EOF, [])] /\ no_eof D' else no_eof D.
Definition sender (T : list Z) (c : ChaosCore) : Prop := exists D x y,
  sends ((CHOP_RFC, contact) :: D, (x, y)) c /\ carries x y D /\ stream D = T.

Lemma sends_sender {A} (m : Core A) : preserves sends m -> preserves sender m.
Proof. intros Hm T c r c' (D & x & y & H & HD) Run. exists D, x, y. split; [|done]. by eapply Hm. Qed.
Lemma stream_data D bytes : no_eof D -> stream (D ++ [(CHOP_DAT, bytes)]) = stream D ++ bytes.
Proof.
  intros H. unfold stream. rewrite until_eof_app by done. rewrite <- (app_nil_r D) at 2. rewrite until_eof_app by done. cbn [until_eof fst].
  change (CHOP_DAT =? CHOP_EOF) with false. cbv iota. rewrite app_nil_r, map_app, concat_app. cbn. by rewrite app_nil_r.
Qed.
Lemma stream_eof D : no_eof D -> stream (D ++ [(CHOP_EOF, [])]) = stream D.
Proof. intros H. unfold stream. rewrite until_eof_app by done. rewrite <- (app_nil_r D) at 2. by rewrite until_eof_app. Qed.
(** The user's bytes go out after those before them. *)
Lemma sender_data D y c bytes nowMs r c' : sends ((CHOP_RFC, contact) :: D, (false, y)) c -> carries false y D ->
  (length bytes <= Z.to_nat CHAOS_MAX_DATA)%nat -> conn_send_controlled h CHOP_DAT bytes nowMs c = (Ok r, c') ->
  sends ((CHOP_RFC, contact) :: (D ++ [(CHOP_DAT, bytes)]), (false, y)) c' /\ carries false y (D ++ [(CHOP_DAT, bytes)]) /\
  stream (D ++ [(CHOP_DAT, bytes)]) = stream D ++ bytes.
Proof.
  intros H [HD Hn] Hb Run. split; [exact (sends_controlled _ _ _ _ _ _ _ _ H Hb Run)|]. split; [|by apply stream_data].
  split; apply Forall_app; (split; [done|]); apply Forall_singleton; [by left|done].
Qed.
Lemma sender_conn_maybe_send_eof i nowMs : preserves sender (conn_maybe_send_eof i nowMs).
Proof.
  destruct (decide (i = h)) as [->|Hne].
  2: { apply sends_sender. unfold conn_maybe_send_eof. repeat preserve; [by apply sends_controlled_other|]. by apply sends_on_other. }
  intros T c r c' (D & x & y & H & [HD Hx] & HT) Run. unfold conn_maybe_send_eof in Run. apply run_get_conn_inv in Run as (k & E & Run).
  destruct (_ && _) eqn:B in Run; cbn [when] in Run; [|injection Run as _ <-; by exists D, x, y].
  apply andb_prop in B as [[[_ B1]%andb_prop B2%negb_true_iff]%andb_prop _].
  assert (x = false /\ y = true) as [-> ->].
  { destruct H as (k' & _ & E' & _ & W & _). assert (k' = k) as -> by congruence. cbn [snd] in W. injection W as <- <-. done. }
  apply bind_inv_Ok in Run as ([] & c1 & R1 & Run). pose proof (sends_controlled _ _ _ _ [] _ _ _ H ltac:(cbn; lia) R1) as H1. clear H R1.
  unfold on_conn in Run. apply run_get_conn_inv in Run as (k1 & E1 & Run). rewrite run_set_conn in Run. injection Run as _ <-.
  exists (D ++ [(CHOP_EOF, [])]), true, true. split; [|split; [|by rewrite stream_eof]].
  - destruct H1 as (k' & new & E' & K & W & Em & Hn & F). assert (k' = k1) as -> by congruence. cbn [snd] in W. injection W as W1 W2.
    eexists _, new. split; [by eapply conn_at_with_eq|]. split_and!; try done; [|cbn; by rewrite W2|by apply formed_with]. by destruct K.
  - split; [apply Forall_app; split; [done|]; apply Forall_singleton; by right|]. split; [done|]. by exists D.
Qed.
Lemma sender_conn_process_ack i ack receipt nowMs : preserves sender (conn_process_ack i ack receipt nowMs).
Proof.
  unfold conn_process_ack. cbv zeta. repeat preserve; try apply sender_conn_maybe_send_eof; apply sends_sender.
  - apply preserves_loop. intros n. apply sends_receipt_turn.
  - by apply sends_on_conn.
  - by apply sends_on_conn.
  - apply sends_conn_close_cls.
Qed.

(** ** Frames *)

Lemma sender_input_rfc_sent i ch op n srcIndex pn ack nowMs : preserves sender (input_rfc_sent i ch op n srcIndex pn ack nowMs).
Proof.
  unfold input_rfc_sent. repeat preserve; try apply sender_conn_process_ack; apply sends_sender;
    (apply sends_conn_send_sts || apply sends_conn_set_closed || by apply sends_on_conn).
Qed.
Lemma sender_input_open i ch op n ack nowMs : preserves sender (input_open i ch op n ack nowMs).
Proof.
  unfold input_open. cbv zeta. repeat preserve; try apply sender_conn_process_ack; apply sends_sender;
    (apply sends_conn_queue_input || apply sends_conn_retransmit || apply sends_conn_send_sts || apply sends_conn_set_closed || by apply sends_on_conn).
Qed.
Lemma sender_input_conn ch op n destIndex srcAddr srcIndex pn ack nowMs : preserves sender (input_conn ch op n destIndex srcAddr srcIndex pn ack nowMs).
Proof.
  unfold input_conn. cbv zeta. repeat preserve; try apply sender_input_rfc_sent; try apply sender_input_open; apply sends_sender;
    (apply sends_send_los_reply || by apply sends_on_conn).
Qed.
Lemma sender_handle_chaos frame nowMs : preserves sender (handle_chaos frame nowMs).
Proof.
  unfold handle_chaos. preserve; [preserve|]. cbv zeta. do 8 (preserve; [preserve|]). preserve; [preserve|]. preserve; [preserve|].
  intros T c r c' H Run. apply bind_option_inv in Run as (smac & Esmac & Run). apply slice_length in Esmac. revert H Run.
  apply (preserves_bind sender (of_option _)); [preserve|]. intros first. repeat preserve; try apply sender_input_conn; apply sends_sender;
    (apply sends_handle_rfc || by apply sends_arp_learn).
Qed.
Lemma sender_chaos_core_input frame nowMs : preserves sender (chaos_core_input frame nowMs).
Proof.
  unfold chaos_core_input. cbv zeta. repeat preserve; try apply sender_handle_chaos; apply sends_sender; [by apply sends_modify|apply sends_handle_arp].
Qed.

(** ** The user's calls *)

(** The index of a new connection names its place. *)
Lemma new_index_place u i : 0 <= i < CHAOS_MAX_CONNS -> Z.land (u16 (Z.lor (Z.shiftl u 5) i)) 31 = i.
Proof.
  intros Hi. unfold u16, CHAOS_MAX_CONNS in *. change 31 with (Z.ones 5). rewrite <- Z.land_ones, <- Z.land_assoc by done.
  change (Z.land (Z.ones 16) (Z.ones 5)) with (Z.ones 5). rewrite Z.land_lor_distr_l.
  rewrite (Z.land_ones _ 5), Z.shiftl_mul_pow2, Z.mod_mul by done. by rewrite Z.lor_0_l, Z.land_ones, Z.mod_small by done.
Qed.
Lemma sends_chaos_open a name nowMs : preserves sends (chaos_open a name nowMs).
Proof.
  unfold chaos_open. preserve; [preserve|]. intros w c r c' H Run. rewrite run_bind_gets in Run.
  destruct (free_index 0 (conns c)) as [i|] eqn:Ei; [|by injection Run as _ <-]. rewrite run_bind_gets in Run. cbv zeta in Run.
  pose proof (free_index_range _ _ _ Ei) as Hi. destruct (free_index_free _ _ _ Ei) as (k1 & E1 & S1). rewrite Z.sub_0_r in E1.
  assert (i <> h) as Hne. { intros ->. destruct H as (k & new & E & K & _). unfold conn_at in E. destruct K as [K _ _ _]. congruence. }
  assert (Z.of_nat (length (conns c)) = CHAOS_MAX_CONNS) as Lc by (destruct H as (_ & _ & _ & _ & _ & _ & _ & [_ -> _ _]); done).
  revert H Run. apply (preserves_bind sends (set_conn i _)).
  { apply sends_set_other; [done|]. cbn [localIndex set_localIndex]. intros Hl. apply Hne. rewrite <- index_place, <- Hl. symmetry. apply new_index_place. lia. }
  intros []. repeat preserve; (by apply sends_modify) || by apply sends_controlled_other.
Qed.
Lemma sends_chaos_release i why nowMs : i <> h -> preserves sends (chaos_release i why nowMs).
Proof.
  intros Hne. unfold chaos_release. repeat preserve; [by apply sends_conn_send_unc|]. apply sends_set_other; [done|]. cbn. congruence.
Qed.
Lemma sender_chaos_finish i nowMs : preserves sender (chaos_finish i nowMs).
Proof.
  unfold chaos_finish. destruct (decide (i = h)) as [->|Hne].
  2: { repeat preserve; [by apply sends_sender, sends_on_other|apply sender_conn_maybe_send_eof]. }
  intros T c r c' H Run. apply bind_inv_Ok in Run as (o & c0 & R0 & Run). unfold conn_for_handle in R0.
  destruct (_ || _) in R0; [injection R0 as <- <-; by injection Run as _ <-|]. apply run_get_conn_inv in R0 as (k & E & [= <- <-]).
  case_bool_decide; [by injection Run as _ <-|]. destruct (may_send (Some k)) eqn:M in Run; [|by injection Run as _ <-].
  apply andb_prop in M as [_ M%negb_true_iff]. apply bind_inv_Ok in Run as ([] & c1 & R1 & Run).
  rewrite (run_on_conn h _ k) in R1 by done. injection R1 as <-. revert Run. refine (sender_conn_maybe_send_eof h nowMs T _ r c' _).
  destruct H as (D & x & y & (k' & new & E' & K & W & Em & Hn & F) & [HD Hx] & HT). assert (k' = k) as -> by congruence.
  cbn [snd] in W. injection W as W1 W2. assert (x = false) as ->. { destruct x; [|done]. destruct Hx as [-> _]. congruence. }
  exists D, false, true. split; [|done]. eexists _, new. split; [by eapply conn_at_with_eq|]. split_and!; try done; [|cbn; by rewrite W1|by apply formed_with].
  by destruct K.
Qed.
Lemma take_chunk {A} a m (l : list A) : take (length (take a l) + m) l = take a l ++ take m (drop a l).
Proof.
  rewrite length_take. destruct (Nat.le_gt_cases a (length l)).
  - rewrite Nat.min_l by done. symmetry. apply take_take_drop.
  - rewrite Nat.min_r by lia. rewrite (drop_ge l a), take_nil, app_nil_r by lia. rewrite !take_ge by lia. done.
Qed.
(** The user's bytes that are sent: as many as the result says. *)
Lemma sender_send_loop y nowMs : forall fuel D rest sent c n c',
  sends ((CHOP_RFC, contact) :: D, (false, y)) c -> carries false y D ->
  loop fuel (send_turn h nowMs) (rest, sent) c = (Ok n, c') ->
  exists D', sends ((CHOP_RFC, contact) :: D', (false, y)) c' /\ carries false y D' /\
    sent <= n /\ stream D' = stream D ++ take (Z.to_nat (n - sent)) rest.
Proof.
  induction fuel as [|fuel IH]; intros D rest sent c n c' H HD Run; [done|]. cbn [loop] in Run.
  apply bind_inv_Ok in Run as (o & c1 & R1 & Run). unfold send_turn in R1. apply run_get_conn_inv in R1 as (k & E & R1).
  assert (forall s, (Ok (inr s), c) = (Ok o, c1) -> s = sent -> exists D', sends ((CHOP_RFC, contact) :: D', (false, y)) c' /\ carries false y D' /\
    sent <= n /\ stream D' = stream D ++ take (Z.to_nat (n - sent)) rest) as Hstop.
  { intros s [= <- <-] ->. injection Run as <- <-. exists D. rewrite Z.sub_diag, take_0, app_nil_r. do 2 (split; [done|]). by split. }
  destruct rest as [|b rest]; [by apply (Hstop sent)|]. destruct (0 <? _) in R1; [|by apply (Hstop sent)]. clear Hstop. cbv zeta in R1.
  apply bind_inv_Ok in R1 as ([] & c2 & R2 & [= <- <-]). set (l := b :: rest) in *. set (chunk := take (Z.to_nat CHAOS_MAX_DATA) l) in *.
  change (loop fuel (send_turn h nowMs) (drop (Z.to_nat CHAOS_MAX_DATA) l, sent + Z.of_nat (length chunk)) c2 = (Ok n, c')) in Run.
  assert (length chunk <= Z.to_nat CHAOS_MAX_DATA)%nat as Lc by (unfold chunk; rewrite length_take; lia).
  destruct (sender_data _ _ _ _ _ _ _ H HD Lc R2) as (H2 & HD2 & S2). destruct (IH _ _ _ _ _ _ H2 HD2 Run) as (D' & H3 & HD3 & Hn & S3).
  exists D'. do 2 (split; [done|]). split; [lia|]. rewrite S3, S2, <- app_assoc. f_equal.
  replace (Z.to_nat (n - sent)) with (length chunk + Z.to_nat (n - (sent + Z.of_nat (length chunk))))%nat by lia. symmetry. apply take_chunk.
Qed.
Lemma sender_chaos_send T c bytes nowMs n c' : sender T c -> chaos_send h bytes nowMs c = (Ok n, c') -> sender (T ++ take (Z.to_nat n) bytes) c'.
Proof.
  intros H Run. unfold chaos_send in Run. apply bind_inv_Ok in Run as (o & c0 & R0 & Run). unfold conn_for_handle in R0.
  assert (forall c1, (Ok 0, c0) = (Ok n, c1) -> c1 = c' -> c0 = c -> sender (T ++ take (Z.to_nat n) bytes) c') as Hstop.
  { intros c1 [= <- <-] <- ->. by rewrite take_0, app_nil_r. }
  destruct (_ || _) in R0; [injection R0 as <- <-; by apply (Hstop c')|]. apply run_get_conn_inv in R0 as (k & E & [= <- <-]).
  case_bool_decide; [by apply (Hstop c')|]. destruct (may_send (Some k)) eqn:M in Run; [|by apply (Hstop c')].
  apply andb_prop in M as [_ M%negb_true_iff]. destruct H as (D & x & y & H & HD & <-).
  assert (x = false) as ->.
  { destruct H as (k' & new & E' & K & W & _). assert (k' = k) as -> by congruence. cbn [snd] in W. injection W as W1 W2.
    destruct x; [|done]. destruct HD as [_ [-> _]]. congruence. }
  destruct (sender_send_loop y nowMs _ D bytes 0 c n c' H HD Run) as (D' & H' & HD' & _ & S'). rewrite Z.sub_0_r in S'.
  by exists D', false, y.
Qed.
Lemma sends_chaos_send i bytes nowMs : i <> h -> preserves sends (chaos_send i bytes nowMs).
Proof.
  intros Hne. unfold chaos_send. repeat preserve. apply preserves_loop. intros [rest sent]. unfold send_turn. cbv zeta.
  repeat preserve; by apply sends_controlled_other.
Qed.

(** What is not the user's sending on this connection, nor its release. *)
Definition apart (o : operation) : Prop := match o with Send i _ _ | Release i _ _ => i <> h | _ => True end.
Lemma sender_perform o : apart o -> preserves sender (perform o).
Proof.
  intros Ho. destruct o as [frame nowMs|nowMs|a name nowMs|i bytes nowMs|i nowMs|i max nowMs|i why nowMs]; cbn [perform apart] in *.
  - apply sender_chaos_core_input.
  - apply sends_sender, sends_tick_conns.
  - apply sends_sender. repeat preserve. apply sends_chaos_open.
  - apply sends_sender. repeat preserve. by apply sends_chaos_send.
  - apply sender_chaos_finish.
  - apply sends_sender. repeat preserve. apply sends_chaos_recv.
  - by apply sends_sender, sends_chaos_release.
Qed.
End sender.

(** ** Indexes *)

(** A connection's index names its place in the table, and the next is not zero. *)
Record indexed (c : ChaosCore) : Prop := {
  ix_count : length (conns c) = Z.to_nat CHAOS_MAX_CONNS;
  ix_next : 1 <= uniquizer c <= 0x7FF;
  ix_place i k : conn_at i c = Some k -> localIndex k = 0 \/ Z.land (localIndex k) 31 = i
}.
#[local] Abbreviation indexing := (preserves (fun _ : unit => indexed)).

Lemma indexing_modify f : (forall c, conns (f c) = conns c /\ uniquizer (f c) = uniquizer c) -> indexing (modify f).
Proof. intros Hf [] c r c' [I0 I1 I2] [= _ <-]. destruct (Hf c) as [E1 E2]. constructor; unfold conn_at; rewrite ?E1, ?E2; done. Qed.
Lemma indexed_with c i k : indexed c -> localIndex k = 0 \/ Z.land (localIndex k) 31 = i -> indexed (with_conn i k c).
Proof.
  intros [I0 I1 I2] Hk. constructor; [cbn; by rewrite upd_Z_length|done|]. intros j k' E. destruct (decide (i = j)) as [<-|Hne]; [|rewrite conn_at_with_ne in E by done; by apply I2].
  unfold conn_at, with_conn in E. cbn [conns set_conns] in E. rewrite nth_upd_eq in E; [by injection E as <-|].
  apply nth_Z_bounds in E. by rewrite upd_Z_length in E.
Qed.
Lemma indexing_set_conn c i k k' r c' : indexed c -> conn_at i c = Some k -> set_conn i k' c = (Ok r, c') -> localIndex k' = localIndex k -> indexed c'.
Proof. intros I E [= _ <-] Hk. apply indexed_with; [done|]. rewrite Hk. by apply (ix_place _ I). Qed.
Lemma indexing_on_conn i f : (forall k, localIndex (f k) = localIndex k) -> indexing (on_conn i f).
Proof. intros Hf. apply preserves_update. intros [] c k r c' I E Run. by eapply indexing_set_conn. Qed.
Lemma indexing_emit f : indexing (emit_frame f).
Proof. unfold emit_frame. repeat preserve; by apply indexing_modify. Qed.
Lemma indexing_set_arp_entry i e : indexing (set_arp_entry i e).
Proof. by apply indexing_modify. Qed.
(** One step of an [indexing] goal. *)
#[local] Ltac index := first [ preserve | simple apply indexing_emit | simple apply indexing_set_arp_entry
  | simple apply indexing_on_conn; done | simple apply indexing_modify; done | simple apply preserves_loop; intros ? ].
Lemma indexing_arp_resolve a nowMs : indexing (arp_resolve a nowMs).
Proof. unfold arp_resolve, arp_find, arp_send_request. cbv zeta. repeat index. Qed.
Lemma indexing_send_raw op da di si n ack bytes nowMs : indexing (send_raw op da di si n ack bytes nowMs).
Proof. unfold send_raw. cbv zeta. repeat index. apply indexing_arp_resolve. Qed.
Lemma indexing_conn_send_unc i op n bytes nowMs : indexing (conn_send_unc i op n bytes nowMs).
Proof. unfold conn_send_unc. repeat index. apply indexing_send_raw. Qed.
Lemma indexing_conn_transmit i n nowMs : indexing (conn_transmit i n nowMs).
Proof. unfold conn_transmit. repeat index. apply indexing_send_raw. Qed.
Lemma indexing_conn_retransmit i nowMs age : indexing (conn_retransmit i nowMs age).
Proof. unfold conn_retransmit, retransmit_turn. repeat index. apply indexing_conn_transmit. Qed.
Lemma indexing_conn_send_controlled i op bytes nowMs : indexing (conn_send_controlled i op bytes nowMs).
Proof. unfold conn_send_controlled. repeat index. apply indexing_conn_transmit. Qed.
Lemma indexing_arp_learn a m nowMs : indexing (arp_learn a m nowMs).
Proof.
  unfold arp_learn, arp_find. cbv zeta. repeat index. assert (forall n i, indexing (retransmit_to i n a nowMs)) as H; [|apply H].
  induction n as [|n IH]; intros i; cbn [retransmit_to]; repeat index; [apply indexing_conn_retransmit|apply IH].
Qed.
Lemma indexing_conn_set_closed i kind text : indexing (conn_set_closed i kind text).
Proof.
  apply preserves_update. intros [] c k r c' I E Run. cbv zeta in Run. apply bind_option_inv in Run as (d & _ & Run). by eapply indexing_set_conn.
Qed.
Lemma indexing_conn_process_ack i ack receipt nowMs : indexing (conn_process_ack i ack receipt nowMs).
Proof.
  unfold conn_process_ack, conn_close_cls, conn_maybe_send_eof. cbv zeta. repeat index; try apply indexing_conn_set_closed;
    try apply indexing_conn_send_unc; try apply indexing_conn_send_controlled.
  unfold receipt_turn. index; [index|]. apply preserves_update. intros [] c k x c' I E Run. apply bind_option_inv in Run as (p & _ & Run).
  apply bind_inv_Ok in Run as ([] & c1 & R1 & [= _ <-]). by eapply indexing_set_conn.
Qed.
Lemma indexing_conn_queue_input i ch n nowMs : indexing (conn_queue_input i ch n nowMs).
Proof.
  assert (forall f, (forall c, conns (f c) = conns c /\ uniquizer (f c) = uniquizer c) -> indexing (unwanted f i nowMs)) as Hun
    by (intros f Hf; unfold unwanted, conn_send_sts; repeat index; apply indexing_conn_send_unc).
  unfold conn_queue_input. preserve; [preserve|]. apply preserves_update. intros [] c k r c' I E Run.
  destruct (negb _); [exact (Hun count_duplicate ltac:(done) tt c r c' I Run)|]. destruct (_ <? _); [exact (Hun count_over_window ltac:(done) tt c r c' I Run)|].
  apply bind_option_inv in Run as (p & _ & Run). destruct (_ && _); [exact (Hun count_duplicate ltac:(done) tt c r c' I Run)|].
  apply bind_option_inv in Run as (op & _ & Run). apply bind_option_inv in Run as (b & _ & Run). apply bind_option_inv in Run as (d & _ & Run).
  apply bind_inv_Ok in Run as ([] & c1 & R1 & Run). assert (indexed c1) as I1 by (by eapply indexing_set_conn). clear R1.
  enough (indexing (loop seq_fuel (advance_turn i) tt ;; k <- get_conn i ;;
    when (negb (a =? receivedNum k) && chaos_seq_lt (receivedNum k) a) (conn_send_sts i nowMs))) as H by exact (H tt c1 r c' I1 Run). clear Run.
  unfold conn_send_sts. repeat index; [|apply indexing_conn_send_unc]. apply preserves_update. intros [] c2 k2 x c3 I2 E2 Run. cbv zeta in Run.
  apply bind_option_inv in Run as (q & _ & Run). destruct (_ || _); [by injection Run as _ <-|].
  apply bind_inv_Ok in Run as ([] & c4 & R4 & [= _ <-]). by eapply indexing_set_conn.
Qed.
Lemma indexing_chaos_core_input frame nowMs : indexing (chaos_core_input frame nowMs).
Proof.
  unfold chaos_core_input, handle_arp, handle_chaos, handle_rfc, input_conn, input_rfc_sent, input_open, send_los_reply, conn_send_sts. cbv zeta.
  repeat index; (apply indexing_arp_learn || apply indexing_send_raw || apply indexing_conn_send_unc || apply indexing_conn_set_closed ||
    apply indexing_conn_process_ack || apply indexing_conn_queue_input || apply indexing_conn_retransmit).
Qed.
Lemma indexing_tick_conns nowMs n : forall i, indexing (tick_conns i n nowMs).
Proof.
  induction n as [|n IH]; intros i; cbn [tick_conns]; repeat index; [|apply IH]. unfold tick_conn, conn_close_cls, conn_send_sts. cbv zeta.
  repeat index; (apply indexing_conn_send_unc || apply indexing_conn_set_closed || apply indexing_conn_retransmit).
Qed.
(** The connection that [chaos_open] makes, before its request is sent, and the core then. *)
Definition new_conn (a nowMs : Z) (c : ChaosCore) (i : Z) : ChaosConn :=
  let first := u16 (initialPktNum c - 1) in
  set_localIndex (u16 (Z.lor (Z.shiftl (uniquizer c) 5) i)) (set_state CONN_RFC_SENT (set_remoteAddr a
    (set_remoteIndex 0 (set_localWindow (core_localWindow c) (set_remoteWindow 1 (set_sentNum first
      (set_ackedNum first (set_receiptNum first (set_openedMs nowMs (set_lastHeardMs nowMs (set_lastProbeMs nowMs zero_conn))))))))))).
Definition opening (a nowMs i : Z) (c : ChaosCore) : ChaosCore :=
  let u := Z.land (uniquizer c + 1) 0x7FF in
  set_initialPktNum (u16 (initialPktNum c + 0x0100)) (set_uniquizer (if u =? 0 then 1 else u) (with_conn i (new_conn a nowMs c i) c)).
Lemma chaos_open_inv a name nowMs c i c' : chaos_open a name nowMs c = (Ok i, c') -> (i = -1 /\ c' = c) \/
  (0 <= i < Z.of_nat (length (conns c)) /\ Z.of_nat (length name) <= CHAOS_MAX_DATA /\ conn_send_controlled i CHOP_RFC name nowMs (opening a nowMs i c) = (Ok tt, c')).
Proof.
  intros Run. unfold chaos_open in Run. destruct (_ || _) eqn:B in Run; [injection Run as <- <-; by left|].
  apply orb_false_elim in B as [_ B%Z.ltb_ge]. rewrite run_bind_gets in Run.
  destruct (free_index 0 (conns c)) as [j|] eqn:Ej; [|injection Run as <- <-; by left]. rewrite run_bind_gets in Run. cbv zeta in Run.
  erewrite bind_Ok in Run by apply run_set_conn. rewrite !run_bind_modify in Run. apply bind_inv_Ok in Run as ([] & c1 & R1 & [= <- <-]).
  right. split; [by apply (free_index_range _ 0 j)|done].
Qed.
Lemma indexed_opening a nowMs i c : indexed c -> 0 <= i < CHAOS_MAX_CONNS -> indexed (opening a nowMs i c).
Proof.
  intros I Hi. destruct (indexed_with c i (new_conn a nowMs c i) I) as [J0 J1 J2]; [right; by apply new_index_place|]. constructor; [done| |done].
  cbn [uniquizer opening set_initialPktNum set_uniquizer]. pose proof (Z.mod_pos_bound (uniquizer c + 1) (2 ^ 11) ltac:(done)) as Hu.
  change 0x7FF with (Z.ones 11). rewrite Z.land_ones by done. change (Z.ones 11) with 2047. destruct (Z.eqb_spec ((uniquizer c + 1) mod 2 ^ 11) 0); lia.
Qed.
Lemma indexing_recv_turn i max l : indexing (recv_turn i max l).
Proof.
  destruct l as [got advanced]. apply preserves_update. intros [] c k r c' I E Run.
  destruct (negb _); [by injection Run as _ <-|]. cbv zeta in Run.
  apply bind_option_inv in Run as (p & _ & Run). destruct (opcode p =? CHOP_EOF); [|apply bind_option_inv in Run as (b & _ & Run); destruct (_ <? _)];
  apply bind_inv_Ok in Run as ([] & c1 & R1 & [= _ <-]); by eapply indexing_set_conn.
Qed.
Lemma indexing_perform o : indexing (perform o).
Proof.
  destruct o as [frame nowMs|nowMs|a name nowMs|i bytes nowMs|i nowMs|i max nowMs|i why nowMs]; cbn [perform].
  - apply indexing_chaos_core_input.
  - apply indexing_tick_conns.
  - preserve; [|preserve]. intros [] c i c' I Run. destruct (chaos_open_inv _ _ _ _ _ _ Run) as [[_ ->]|(Hi & _ & R)]; [done|].
    rewrite (ix_count _ I) in Hi. exact (indexing_conn_send_controlled _ _ _ _ tt _ _ _ (indexed_opening _ _ _ _ I Hi) R).
  - unfold chaos_send, send_turn. cbv zeta. repeat index; try apply indexing_conn_send_controlled.
  - unfold chaos_finish, conn_maybe_send_eof. repeat index. apply indexing_conn_send_controlled.
  - unfold chaos_recv, conn_send_sts. repeat index; (apply indexing_conn_send_unc || apply indexing_recv_turn).
  - unfold chaos_release. repeat index; [apply indexing_conn_send_unc|]. intros [] c0 r c' I [= _ <-]. apply indexed_with; [done|by left].
Qed.
Lemma indexed_start me mine name window now : indexed (chaosd_core me mine name window now).
Proof.
  constructor; [apply length_replicate|done|]. intros i k E. left. unfold conn_at in E. cbn [conns chaosd_core set_initialPktNum set_core_localWindow chaos_core_init] in E.
  by apply (Forall_nth_Z (fun k => localIndex k = 0)) in E; [|apply Forall_replicate].
Qed.
Lemma indexed_perform_all l : forall c c', indexed c -> perform_all l c = (Ok tt, c') -> indexed c'.
Proof.
  induction l as [|o l IH]; intros c c' I Run; cbn [perform_all] in Run; [by injection Run as <-|].
  apply bind_inv_Ok in Run as ([] & c1 & R1 & R2). eapply IH; [|exact R2]. exact (indexing_perform o tt c tt c1 I R1).
Qed.

(** ** What a connection sends *)

(** A core that the daemon can have: any operations since its set-up. *)
Definition reached (c : ChaosCore) : Prop := exists me mine name window now l, length mine = 6%nat /\ 1 <= window <= CHAOS_RING / 2 /\
  perform_all l (chaosd_core me mine name window now) = (Ok tt, c).
Lemma reached_good c : reached c -> core_inv c /\ indexed c.
Proof.
  intros (me & mine & name & window & now & l & Hm & Hw & Run). split; [|by eapply indexed_perform_all; [apply indexed_start|exact Run]].
  destruct (safe_perform_all l _ (chaosd_core_inv me mine name window now Hm Hw)) as ([] & c1 & R & I & _). congruence.
Qed.
Lemma new_index_used u i : 1 <= u <= 0x7FF -> 0 <= i < CHAOS_MAX_CONNS -> u16 (Z.lor (Z.shiftl u 5) i) <> 0.
Proof.
  intros Hu Hi H. pose proof (new_index_place u i Hi) as Hp. rewrite H in Hp. cbn in Hp. subst i.
  rewrite Z.lor_0_r, Z.shiftl_mul_pow2, u16_small in H by (done || (unfold is_u16; lia)). lia.
Qed.

Section sending.
Context (c0 : ChaosCore) (a h : Z) (contact : list Z).

(** [sending c T]: connection [h] was opened in core [c0], the core is now at [c], and of what
    the user asked to send since, [T] was taken. *)
Inductive sending : ChaosCore -> list Z -> Prop :=
| sending_opened nowMs c : chaos_open a contact nowMs c0 = (Ok h, c) -> sending c []
| sending_other c c' T o : sending c T -> apart h o -> perform o c = (Ok tt, c') -> sending c' T
| sending_send c c' T bytes nowMs n : sending c T -> chaos_send h bytes nowMs c = (Ok n, c') ->
    sending c' (T ++ take (Z.to_nat n) bytes).

#[local] Abbreviation index := (u16 (Z.lor (Z.shiftl (uniquizer c0) 5) h)).
#[local] Abbreviation first := (u16 (initialPktNum c0 - 1)).
Lemma sends_opening nowMs : core_inv c0 -> indexed c0 -> 0 <= h < CHAOS_MAX_CONNS ->
  sends h index first (emitted c0) ([], (false, false)) (opening a nowMs h c0).
Proof.
  intros I J Hh. exists (new_conn a nowMs c0 h), []. split; [|split; [|split; [done|split; [by rewrite app_nil_r|split; [done|]]]]].
  - apply conn_at_with. apply nth_Z_some. by rewrite (ix_count _ J), Z2Nat.id.
  - constructor; try done; [cbn; by rewrite Z.add_0_r, u16_idem|]. intros s p Ep Hp. by rewrite (zero_ring_absent s p Ep) in Hp.
  - constructor; [|cbn; rewrite upd_Z_length; apply J|apply I|apply I]. intros i k Hne E.
    assert (conn_at i c0 = Some k) as E0 by (rewrite <- E; symmetry; apply (conn_at_with_ne h i _ c0); congruence).
    destruct (ix_place _ J i k E0) as [->|Hi]; [apply not_eq_sym, new_index_used; [apply J|done]|].
    intros Hl. rewrite Hl, new_index_place in Hi by done. congruence.
Qed.
Lemma sending_sender c T : reached c0 -> 0 <= h -> sending c T ->
  0 <= h < CHAOS_MAX_CONNS /\ sender h index first (emitted c0) contact T c.
Proof.
  intros [I J]%reached_good Hh. induction 1 as [nowMs c Run|c c' T o _ [Hh' IH] Ho Run|c c' T bytes nowMs n _ [Hh' IH] Run].
  - apply chaos_open_inv in Run as [[-> _]|(Hi & Hl & Run)]; [done|]. rewrite (ix_count _ J) in Hi. split; [done|].
    exists [], false, false. split; [|by split; [split; apply Forall_nil|]].
    apply (sends_controlled h index first (emitted c0) [] (false, false) (opening a nowMs h c0) CHOP_RFC contact nowMs tt c); [by apply sends_opening|lia|done].
  - split; [done|]. refine (sender_perform h index first _ _ _ contact o Ho T c tt c' IH Run); [by apply new_index_place|by apply new_index_used; [apply J|]].
  - split; [done|]. by apply (sender_chaos_send h index first _ contact T c bytes nowMs n c').
Qed.

(** C10. Whatever else the daemon does, a connection sends the request that opens it and then
    exactly the bytes that [chaos_send] took from its user, in order: there is one list of
    packets, data and at the end perhaps an end of file, that carries these bytes, and every
    frame emitted since that is a controlled packet of the connection is the packet of the list
    that its number says, however often it is transmitted. *)
Theorem chaos_sends_in_order c T : reached c0 -> 0 <= h -> sending c T ->
  exists k D new, conn_at h c = Some k /\ emitted c = emitted c0 ++ new /\ stream D = T /\
    Forall user_packet D /\ (if eofSent k then exists D', D = D' ++ [(CHOP_EOF, [])] /\ no_eof D' else no_eof D) /\
    Forall (accounted (localIndex k) (u16 (initialPktNum c0 - 1)) ((CHOP_RFC, contact) :: D)) new.
Proof.
  intros Hr Hh Hs. destruct (sending_sender c T Hr Hh Hs) as (_ & D & x & y & (k & new & E & K & W & Em & Hn & F) & [HD Hx] & <-).
  exists k, D, new. cbn [fst snd] in *. injection W as <- <-. rewrite (sc_index _ _ _ _ K). split_and!; try done.
  by destruct (eofSent k); [destruct Hx|].
Qed.
End sending.

(** A connection is opened to a host that has been heard, the user sends and finishes, and both
    packets are sent again. *)
Definition heard : list operation := [Input (peer_frame CHOP_BRD 0 []) 1].
Definition heard_core : ChaosCore := (perform_all heard (chaosd_core 0x0101 [2; 0; 0; 0; 0; 1] (bytes_of_string "HOST") 13 0)).2.
Definition asking_core : ChaosCore := (chaos_open 0x0102 (bytes_of_string "ECHO") 2 heard_core).2.
Definition answered_core : ChaosCore := after (Input (peer_frame CHOP_OPN 0xFFFE (chaos_put16 0 ++ chaos_put16 13)) 3) asking_core.
Definition sent_core : ChaosCore := (chaos_send 0 (bytes_of_string "Hello") 4 answered_core).2.
Definition resent_core : ChaosCore := after (Tick 1000) (after (Finish 0 5) sent_core).
(** The opcode, number and data of a frame. *)
Definition frame_shows (f : list Z) : option Z * option Z * list Z :=
  let ch := drop (Z.to_nat CHAOS_ETH_HEADER) f in (nth_Z ch 1, chaos_get16 ch 12, drop (Z.to_nat CHAOS_HEADER) ch).
Example resent_frames : map frame_shows (emitted resent_core) =
  [(Some CHOP_RFC, Some 0, bytes_of_string "ECHO"); (Some CHOP_STS, Some 0, [0xFE; 0xFF; 13; 0]);
   (Some CHOP_DAT, Some 1, bytes_of_string "Hello"); (Some CHOP_EOF, Some 2, []);
   (Some CHOP_DAT, Some 1, bytes_of_string "Hello"); (Some CHOP_EOF, Some 2, [])].
Proof. vm_compute. reflexivity. Qed.

Lemma heard_reached : reached heard_core.
Proof.
  exists 0x0101, [2; 0; 0; 0; 0; 1], (bytes_of_string "HOST"), 13, 0, heard. split; [done|]. split; [done|].
  apply run_result. vm_compute. reflexivity.
Qed.
Lemma sending_after c0 h contact a c T o : sending c0 a h contact c T -> apart h o -> (perform o c).1 = Ok tt ->
  sending c0 a h contact (after o c) T.
Proof. intros H Ho R. eapply sending_other; [exact H|exact Ho|]. by apply run_result. Qed.
Lemma sending_sent c0 a h contact c T bytes nowMs n T' : sending c0 a h contact c T -> (chaos_send h bytes nowMs c).1 = Ok n ->
  T ++ take (Z.to_nat n) bytes = T' -> sending c0 a h contact (chaos_send h bytes nowMs c).2 T'.
Proof. intros H R <-. eapply sending_send; [exact H|]. by apply run_result. Qed.
Lemma sending_open c0 a h contact nowMs : (chaos_open a contact nowMs c0).1 = Ok h -> sending c0 a h contact (chaos_open a contact nowMs c0).2 [].
Proof. intros R. eapply sending_opened. by apply run_result. Qed.
Lemma asking_sending : sending heard_core 0x0102 0 (bytes_of_string "ECHO") asking_core [].
Proof. apply (sending_open heard_core 0x0102 0 (bytes_of_string "ECHO") 2). vm_compute. reflexivity. Qed.
Lemma answered_sending : sending heard_core 0x0102 0 (bytes_of_string "ECHO") answered_core [].
Proof. apply (sending_after _ _ _ _ asking_core); [exact asking_sending|done|vm_compute; reflexivity]. Qed.
Lemma sent_sending : sending heard_core 0x0102 0 (bytes_of_string "ECHO") sent_core (bytes_of_string "Hello").
Proof. apply (sending_sent _ _ _ _ _ [] _ _ 5 _ answered_sending); vm_compute; reflexivity. Qed.
Lemma resent_sending : sending heard_core 0x0102 0 (bytes_of_string "ECHO") resent_core (bytes_of_string "Hello").
Proof.
  apply sending_after; [|done|vm_compute; reflexivity]. apply sending_after; [|done|vm_compute; reflexivity]. exact sent_sending.
Qed.
Lemma chaos_sends_in_order_witness :
  (reached heard_core /\ 0 <= 0 /\ sending heard_core 0x0102 0 (bytes_of_string "ECHO") resent_core (bytes_of_string "Hello")) /\
  exists k D new, conn_at 0 resent_core = Some k /\ emitted resent_core = emitted heard_core ++ new /\ stream D = bytes_of_string "Hello" /\
    Forall user_packet D /\ (if eofSent k then exists D', D = D' ++ [(CHOP_EOF, [])] /\ no_eof D' else no_eof D) /\
    Forall (accounted (localIndex k) (u16 (initialPktNum heard_core - 1)) ((CHOP_RFC, bytes_of_string "ECHO") :: D)) new.
Proof.
  assert (0 <= 0) as H0 by done. split; [exact (conj heard_reached (conj H0 resent_sending))|].
  exact (chaos_sends_in_order heard_core 0x0102 0 (bytes_of_string "ECHO") resent_core (bytes_of_string "Hello") heard_reached H0 resent_sending).
Defined.
