(* ===== verification/FrontEnd.v ===== *)
(** The stream front end of the Chaosnet daemon: chaos-stream.h and chaos-stream.c, Unix stream
    sockets bridged to connections of the core, and the turn of the daemon's main loop
    (chaosd.c).

    A buffer with its count of bytes is the list of the bytes in use, and a write beyond the
    size of its array is [Undefined]. The sockets are the host's: what a call returns is a
    function of the calls made so far, which are kept in order in [socket_calls]. What the
    daemon traces on stderr is left out, and so is the creation of the listening socket. *)

From S2P Require Export ChaosNcp.
From Stdlib Require String Ascii.
Import String.StringSyntax.
#[local] Open Scope vlm_scope.

(** ** Data *)

Definition STREAM_MAX_CLIENTS : Z := CHAOS_MAX_CONNS. (* chaosd/chaos-stream.h:20 STREAM_MAX_CLIENTS *)
Definition STREAM_MAX_HOSTS : Z := 32. (* chaosd/chaos-stream.h:21 STREAM_MAX_HOSTS *)
Definition STREAM_LINE_MAX : Z := 600. (* chaosd/chaos-stream.h:22 STREAM_LINE_MAX *)
Definition STREAM_OUTBUF : Z := 8192. (* chaosd/chaos-stream.h:23 STREAM_OUTBUF *)
Definition STREAM_INBUF : Z := 4096. (* chaosd/chaos-stream.h:24 STREAM_INBUF *)

(* chaosd/chaos-stream.h:26-33 ClientState *)
Inductive ClientState := CLIENT_FREE | CLIENT_LINE | CLIENT_WAIT_OPN | CLIENT_STREAM | CLIENT_DRAIN.
#[export] Instance ClientState_eq_dec : EqDecision ClientState.
Proof. solve_decision. Defined.

(** [line], [inb] and [out] hold the bytes below lineLen, inLen and outLen. *)
(* chaosd/chaos-stream.h:35-51 StreamClient *)
Record StreamClient := MkClient {
  client_state : ClientState;
  fd : Z;
  client_conn : Z;
  client_addr : Z;
  line : list Z;
  inb : list Z;
  out : list Z;
  outOff : Z;
  sockEof : bool;
  finished : bool;
  wrShut : bool;
  skipLf : bool
}.

Definition set_client_state (v : ClientState) (k : StreamClient) : StreamClient :=
  MkClient v (fd k) (client_conn k) (client_addr k) (line k) (inb k) (out k) (outOff k) (sockEof k)
    (finished k) (wrShut k) (skipLf k).
Definition set_fd (v : Z) (k : StreamClient) : StreamClient :=
  MkClient (client_state k) v (client_conn k) (client_addr k) (line k) (inb k) (out k) (outOff k)
    (sockEof k) (finished k) (wrShut k) (skipLf k).
Definition set_client_conn (v : Z) (k : StreamClient) : StreamClient :=
  MkClient (client_state k) (fd k) v (client_addr k) (line k) (inb k) (out k) (outOff k) (sockEof k)
    (finished k) (wrShut k) (skipLf k).
Definition set_client_addr (v : Z) (k : StreamClient) : StreamClient :=
  MkClient (client_state k) (fd k) (client_conn k) v (line k) (inb k) (out k) (outOff k) (sockEof k)
    (finished k) (wrShut k) (skipLf k).
Definition set_line (v : list Z) (k : StreamClient) : StreamClient :=
  MkClient (client_state k) (fd k) (client_conn k) (client_addr k) v (inb k) (out k) (outOff k) (sockEof k)
    (finished k) (wrShut k) (skipLf k).
Definition set_inb (v : list Z) (k : StreamClient) : StreamClient :=
  MkClient (client_state k) (fd k) (client_conn k) (client_addr k) (line k) v (out k) (outOff k) (sockEof k)
    (finished k) (wrShut k) (skipLf k).
Definition set_out (v : list Z) (k : StreamClient) : StreamClient :=
  MkClient (client_state k) (fd k) (client_conn k) (client_addr k) (line k) (inb k) v (outOff k) (sockEof k)
    (finished k) (wrShut k) (skipLf k).
Definition set_outOff (v : Z) (k : StreamClient) : StreamClient :=
  MkClient (client_state k) (fd k) (client_conn k) (client_addr k) (line k) (inb k) (out k) v (sockEof k)
    (finished k) (wrShut k) (skipLf k).
Definition set_sockEof (v : bool) (k : StreamClient) : StreamClient :=
  MkClient (client_state k) (fd k) (client_conn k) (client_addr k) (line k) (inb k) (out k) (outOff k) v
    (finished k) (wrShut k) (skipLf k).
Definition set_finished (v : bool) (k : StreamClient) : StreamClient :=
  MkClient (client_state k) (fd k) (client_conn k) (client_addr k) (line k) (inb k) (out k) (outOff k)
    (sockEof k) v (wrShut k) (skipLf k).
Definition set_wrShut (v : bool) (k : StreamClient) : StreamClient :=
  MkClient (client_state k) (fd k) (client_conn k) (client_addr k) (line k) (inb k) (out k) (outOff k)
    (sockEof k) (finished k) v (skipLf k).
Definition set_skipLf (v : bool) (k : StreamClient) : StreamClient :=
  MkClient (client_state k) (fd k) (client_conn k) (client_addr k) (line k) (inb k) (out k) (outOff k)
    (sockEof k) (finished k) (wrShut k) v.

(* chaosd/chaos-stream.h:53-57 StreamHost *)
Record StreamHost := MkHost { host_name : list Z; host_addr : Z }.

(** A call on a socket: what it was asked, and the bytes a write took. *)
Inductive SocketCall :=
| SockRead (fd want : Z)
| SockWrote (fd : Z) (bytes : list Z)
| SockShutdown (fd : Z)
| SockClose (fd : Z)
| SockPoll
| SockAccepted (fd : Z).

(** [hosts] holds the first nHosts entries of its array. *)
(* chaosd/chaos-stream.h:59-68 StreamServer *)
Record StreamServer := MkServer {
  core : ChaosCore;
  listenFd : Z;
  clients : list StreamClient;
  hosts : list StreamHost;
  socket_calls : list SocketCall
}.

Definition set_core (v : ChaosCore) (s : StreamServer) : StreamServer :=
  MkServer v (listenFd s) (clients s) (hosts s) (socket_calls s).
Definition set_listenFd (v : Z) (s : StreamServer) : StreamServer :=
  MkServer (core s) v (clients s) (hosts s) (socket_calls s).
Definition set_clients (v : list StreamClient) (s : StreamServer) : StreamServer :=
  MkServer (core s) (listenFd s) v (hosts s) (socket_calls s).
Definition set_hosts (v : list StreamHost) (s : StreamServer) : StreamServer :=
  MkServer (core s) (listenFd s) (clients s) v (socket_calls s).
Definition set_socket_calls (v : list SocketCall) (s : StreamServer) : StreamServer :=
  MkServer (core s) (listenFd s) (clients s) (hosts s) v.

(** A client after memset, with the descriptor and connection that mean none. *)
Definition free_client : StreamClient := MkClient CLIENT_FREE (-1) (-1) 0 [] [] [] 0 false false false false.

(** ** The host's sockets *)

Inductive ReadResult := ReadBytes (bytes : list Z) | ReadEnd | ReadAgain | ReadFailed.
Inductive WriteResult := Wrote (n : Z) | WriteAgain | WriteFailed.
(** An entry of a pollfd array: what is asked for, and what is the case. *)
Record PollFd := MkPollFd { poll_fd : Z; poll_in : bool; poll_out : bool }.
Record PollEvents := MkPollEvents { ready_in : bool; ready_out : bool; ready_hup : bool; ready_err : bool }.

(** The descriptors that accept has returned and that are not closed. *)
Definition is_open (calls : list SocketCall) (d : Z) : bool :=
  fold_left (fun b c => match c with SockAccepted e => b || (e =? d) | SockClose e => b && negb (e =? d) | _ => b end) calls false.

(** What the host answers after the calls made so far; [waiting] is how many calls of accept
    will succeed, and [frames_waiting] what the network interface has. *)
Class Sockets := {
  read_result : list SocketCall -> Z -> Z -> ReadResult;
  write_result : list SocketCall -> Z -> list Z -> WriteResult;
  poll_result : list SocketCall -> list PollFd -> option (list PollEvents);
  waiting : list SocketCall -> nat;
  accept_fd : list SocketCall -> Z;
  clock : list SocketCall -> Z;
  frames_waiting : list SocketCall -> list (list Z)
}.
(** What is documented of them: read and write move at least a byte and no more than asked for,
    poll answers for each entry, and accept returns a descriptor that is not in use. *)
Class SocketLaws `{Sockets} := {
  read_some calls d want bytes : read_result calls d want = ReadBytes bytes -> 0 < Z.of_nat (length bytes) <= want;
  write_some calls d bytes n : write_result calls d bytes = Wrote n -> 0 < n <= Z.of_nat (length bytes);
  poll_all calls l events : poll_result calls l = Some events -> length events = length l;
  accept_new calls : 0 <= accept_fd calls /\ is_open calls (accept_fd calls) = false
}.

(** ** Operations *)

Abbreviation Front := (M StreamServer).

Section front.
Context `{Sockets}.

(** ** Access *)

Definition on_core {A} (m : Core A) : Front A := fun s => let '(r, c) := m (core s) in (r, set_core c s).
Definition get_client (i : Z) : Front StreamClient := l <- gets clients ;; of_option (nth_Z l i).
Definition set_client (i : Z) (k : StreamClient) : Front unit := modify (fun s => set_clients (upd_Z (clients s) i k) s).
Definition on_client (i : Z) (f : StreamClient -> StreamClient) : Front unit := k <- get_client i ;; set_client i (f k).
Definition call (c : SocketCall) : Front unit := modify (fun s => set_socket_calls (socket_calls s ++ [c]) s).
Definition free (k : StreamClient) : bool := bool_decide (client_state k = CLIENT_FREE).

(* chaosd/chaos-stream.c:41-54 stream_init *)
Definition stream_init (c : ChaosCore) : StreamServer :=
  MkServer c (-1) (replicate (Z.to_nat STREAM_MAX_CLIENTS) free_client) [] [].

(** ** Numbers and names *)

Definition is_octal_digit (b : Z) : bool := (48 <=? b) && (b <=? 55).
Fixpoint octal_prefix (l : list Z) : list Z :=
  match l with b :: l' => if is_octal_digit b then b :: octal_prefix l' else [] | [] => [] end.
(** The value of a string of octal digits, at most ULONG_MAX. *)
Definition ULONG_MAX : Z := 2 ^ 64 - 1.
Definition octal_value (l : list Z) : Z := fold_left (fun v b => Z.min ULONG_MAX (8 * v + (b - 48))) l 0.
Definition is_space (b : Z) : bool := (b =? 32) || ((9 <=? b) && (b <=? 13)).
Fixpoint drop_while (p : Z -> bool) (l : list Z) : list Z :=
  match l with b :: l' => if p b then drop_while p l' else l | [] => [] end.
(** strtoul in base 8: the value, and what follows the number; all of the string when there is
    no number. *)
Definition strtoul8 (l : list Z) : Z * list Z :=
  let body := drop_while is_space l in
  let '(neg, digits) := match body with 45 :: l' => (true, l') | 43 :: l' => (false, l') | _ => (false, body) end in
  let d := octal_prefix digits in
  match d with
  | [] => (0, l)
  | _ => let v := octal_value d in
         let exact := fold_left (fun v b => 8 * v + (b - 48)) d 0 in
         (if ULONG_MAX <? exact then ULONG_MAX else if neg then u64 (- v) else v, drop (length d) digits)
  end.

Fixpoint before_char (ch : Z) (l : list Z) : option (list Z * list Z) :=
  match l with
  | [] => None
  | b :: l' => if b =? ch then Some ([], l') else '(x, y) ← before_char ch l'; Some (b :: x, y)
  end.
(* chaosd/chaos-stream.c:98-116 stream_add_host *)
Definition stream_add_host (spec : list Z) : Front bool :=
  let spec := c_string spec in
  n <- gets (fun s => Z.of_nat (length (hosts s))) ;;
  match before_char 61 spec with
  | None => ret false
  | Some (name, value) =>
      if (Z.of_nat (length name) =? 0) || (64 <=? Z.of_nat (length name)) || (STREAM_MAX_HOSTS <=? n) then ret false else
      let '(a, rest) := strtoul8 value in
      if negb (bool_decide (rest = [])) || bool_decide (rest = value) || (a =? 0) || (0xFFFF <? a) then ret false else
      modify (fun s => set_hosts (hosts s ++ [MkHost name a]) s) ;;
      ret true
  end.

(* chaosd/chaos-stream.c:122-123 CLIENT_FREE *)
Fixpoint free_client_index (i : Z) (l : list StreamClient) : option Z :=
  match l with [] => None | k :: l' => if free k then Some i else free_client_index (i + 1) l' end.
(* chaosd/chaos-stream.c:118-134 stream_adopt *)
Definition stream_adopt (d : Z) : Front Z :=
  l <- gets clients ;;
  match free_client_index 0 l with
  | None => ret (-1)
  | Some i => set_client i (set_fd d (set_client_state CLIENT_LINE free_client)) ;; ret i
  end.
(* chaosd/chaos-stream.c:136-144 stream_active_clients *)
Definition stream_active_clients : Front Z :=
  l <- gets clients ;; ret (Z.of_nat (length (List.filter (fun k => negb (free k)) l))).

(** ** Clients *)

(* chaosd/chaos-stream.c:149-162 client_close *)
Definition client_close (i : Z) (why : list Z) (nowMs : Z) : Front unit :=
  k <- get_client i ;;
  when (0 <=? client_conn k) (on_core (chaos_release (client_conn k) why nowMs)) ;;
  when (0 <=? fd k) (call (SockClose (fd k))) ;;
  set_client i free_client.

(* chaosd/chaos-stream.c:164-172 out_compact *)
Definition out_compact (k : StreamClient) : StreamClient := set_outOff 0 (set_out (drop (Z.to_nat (outOff k)) (out k)) k).
Definition outLen (k : StreamClient) : Z := Z.of_nat (length (out k)).
(* chaosd/chaos-stream.c:174-181 out_append *)
Definition out_append (i : Z) (bytes : list Z) : Front unit :=
  on_client i out_compact ;;
  k <- get_client i ;;
  let room := u64 (STREAM_OUTBUF - outLen k) in
  let n := if room <? Z.of_nat (length bytes) then room else Z.of_nat (length bytes) in
  if STREAM_OUTBUF <? outLen k + n then undefined else
  set_client i (set_out (out k ++ take (Z.to_nat n) bytes) k).

(* chaosd/chaos-stream.c:194-195 0x7F *)
Definition printable (b : Z) : Z := if (32 <=? b) && (b <? 127) then b else 32.
Fixpoint strip_spaces (l : list Z) : list Z :=
  match l with
  | [] => []
  | b :: l' => match strip_spaces l' with [] => if b =? 32 then [] else [b] | l'' => b :: l'' end
  end.
(** A status line without what does not fit its buffer. *)
(* chaosd/chaos-stream.c:188-199 snprintf *)
Definition status_line (verb text : list Z) : list Z :=
  let head := verb ++ [32] in
  strip_spaces (head ++ map printable (take (Z.to_nat (CHAOS_MAX_DATA + 32 - 3) - length head) text)) ++ [13; 10].
(* chaosd/chaos-stream.c:185-201 out_line *)
Definition out_line (i : Z) (verb text : list Z) : Front unit := out_append i (status_line verb text).
(* chaosd/chaos-stream.c:203-207 fail_client *)
Definition fail_client (i : Z) (verb text : list Z) : Front unit :=
  out_line i verb (c_string text) ;;
  on_client i (set_client_state CLIENT_DRAIN).

(* chaosd/chaos-stream.c:209-231 resolve_host *)
Definition resolve_host (l : list StreamHost) (name : list Z) : option Z :=
  if bool_decide (octal_prefix name = name) && negb (bool_decide (name = [])) then
    let a := octal_value name in if (a =? 0) || (0xFFFF <? a) then None else Some a
  else host_addr <$> List.find (fun x => strcasecmp_eq (host_name x) name) l.

Definition is_blank (b : Z) : bool := (b =? 32) || (b =? 9).
Fixpoint take_while (p : Z -> bool) (l : list Z) : list Z :=
  match l with b :: l' => if p b then b :: take_while p l' else [] | [] => [] end.
Definition strip_blanks_end (l : list Z) : list Z := reverse (drop_while is_blank (reverse l)).
(** The host and the contact of a request line, [None] when it is not an RFC. *)
(* chaosd/chaos-stream.c:243-259 strncasecmp *)
Definition parse_request (l : list Z) : option (list Z * list Z) :=
  let p := drop_while is_blank l in
  if bytes_eqb (map tolower (take 3 p)) (bytes_of_string "rfc") && (match drop 3 p with b :: _ => is_blank b | [] => false end) then
    let p := drop_while is_blank (drop 3 p) in
    let host := take_while (fun b => negb (is_blank b)) p in
    let contact := strip_blanks_end (drop_while is_blank (drop (length host) p)) in
    Some (host, contact)
  else None.
(** The NULs that are written into the line to end its parts are not read again. *)
(* chaosd/chaos-stream.c:234-287 handle_request *)
Definition handle_request (i nowMs : Z) : Front unit :=
  k <- get_client i ;;
  match parse_request (c_string (line k)) with
  | None => fail_client i (bytes_of_string "LOS") (bytes_of_string "Only RFC <host> <contact> [args] is supported")
  | Some (host, contact) =>
      if bool_decide (host = []) || bool_decide (contact = []) then
        fail_client i (bytes_of_string "LOS") (bytes_of_string "Usage: RFC <host> <contact> [args]") else
      l <- gets hosts ;;
      match resolve_host l host with
      | None => fail_client i (bytes_of_string "LOS") (take 127 (bytes_of_string "Unknown host " ++ host))
      | Some a =>
          me <- on_core (gets myAddr) ;;
          if a =? me then fail_client i (bytes_of_string "LOS") (bytes_of_string "That is chaosd's own address") else
          on_client i (set_client_addr a) ;;
          h <- on_core (chaos_open a contact nowMs) ;;
          on_client i (set_client_conn h) ;;
          if h <? 0 then fail_client i (bytes_of_string "LOS") (bytes_of_string "Too many connections, or contact too long") else
          on_client i (set_client_state CLIENT_WAIT_OPN)
      end
  end.

(** Bytes of the request line, up to its end. *)
(* chaosd/chaos-stream.c:290-327 line_input *)
Fixpoint line_input (i nowMs : Z) (buf : list Z) : Front unit :=
  match buf with
  | [] => ret tt
  | b :: rest =>
      k <- get_client i ;;
      if (b =? 13) || (b =? 10) then
        let cr := b =? 13 in
        let crlf := match rest with c :: _ => cr && (c =? 10) | [] => false end in
        let rest := if crlf then drop 1 rest else rest in
        if STREAM_LINE_MAX <=? Z.of_nat (length (line k)) then undefined else
        on_client i (set_skipLf (cr && negb crlf)) ;;
        when (0 <? Z.of_nat (length rest))
          (on_client i (fun k => set_skipLf false (set_inb (take (Z.to_nat STREAM_INBUF) rest) k))) ;;
        handle_request i nowMs
      else if STREAM_LINE_MAX - 1 <=? Z.of_nat (length (line k)) then
        fail_client i (bytes_of_string "LOS") (bytes_of_string "Request line too long")
      else
        on_client i (set_line (line k ++ [b])) ;;
        line_input i nowMs rest
  end.

(** What a read returns. *)
Definition sock_read (d want : Z) : Front ReadResult :=
  log <- gets socket_calls ;; call (SockRead d want) ;; ret (read_result log d want).
(* chaosd/chaos-stream.c:330-374 client_read *)
Definition client_read (i nowMs : Z) : Front unit :=
  k <- get_client i ;;
  let waiting := bool_decide (client_state k = CLIENT_LINE) in
  let want := if waiting then 256 else STREAM_INBUF - Z.of_nat (length (inb k)) in
  if want =? 0 then ret tt else
  if STREAM_INBUF <? want then undefined else
  r <- sock_read (fd k) want ;;
  match r with
  | ReadAgain => ret tt
  | ReadFailed => client_close i (bytes_of_string "Connection aborted by user") nowMs
  | ReadEnd =>
      if waiting || bool_decide (client_state k = CLIENT_WAIT_OPN)
      then client_close i (bytes_of_string "Connection aborted by user") nowMs
      else on_client i (set_sockEof true)
  | ReadBytes buf =>
      if waiting then line_input i nowMs buf else
      let buf := if skipLf k then (match buf with 10 :: buf' => buf' | _ => buf end) else buf in
      when (skipLf k) (on_client i (set_skipLf false)) ;;
      if STREAM_INBUF <? Z.of_nat (length (inb k ++ buf)) then undefined else
      on_client i (set_inb (inb k ++ buf))
  end.

(** The next bytes to write, until there are none; [inr] says whether the client lives. *)
(* chaosd/chaos-stream.c:379-392 write *)
Definition write_turn (i nowMs : Z) (_ : unit) : Front (unit + bool) :=
  k <- get_client i ;;
  if outOff k <? outLen k then
    let bytes := drop (Z.to_nat (outOff k)) (out k) in
    log <- gets socket_calls ;;
    match write_result log (fd k) bytes with
    | WriteAgain => call (SockWrote (fd k) []) ;; ret (inr true)
    | WriteFailed => call (SockWrote (fd k) []) ;; client_close i (bytes_of_string "Connection closed by user") nowMs ;; ret (inr false)
    | Wrote n =>
        call (SockWrote (fd k) (take (Z.to_nat n) bytes)) ;;
        set_client i (set_outOff (outOff k + n) k) ;;
        ret (inl tt)
    end
  else
    set_client i (set_outOff 0 (set_out [] k)) ;;
    ret (inr true).
(** A turn per byte. *)
Definition write_fuel : nat := S (Z.to_nat STREAM_OUTBUF).
(* chaosd/chaos-stream.c:377-393 client_write *)
Definition client_write (i nowMs : Z) : Front bool := loop write_fuel (write_turn i nowMs) tt.

Fixpoint decimal_digits (fuel : nat) (n : Z) : list Z :=
  match fuel with
  | O => []
  | S fuel' => (if n <? 10 then [] else decimal_digits fuel' (n / 10)) ++ [48 + n mod 10]
  end.
(** What a client is told of a connection that did not open; the length and the bytes of an
    answer are appended one after the other. *)
(* chaosd/chaos-stream.c:418-441 closeKind *)
Definition refusal (k : ChaosConn) : list Z :=
  let text := take (Z.to_nat (reasonBytes k)) (reason k) in
  match closeKind k with
  | CLOSE_CLS => status_line (bytes_of_string "CLS") text
  | CLOSE_ANS => bytes_of_string "ANS " ++ decimal_digits 20 (reasonBytes k) ++ [13; 10] ++ text
  | CLOSE_TIMEOUT => status_line (bytes_of_string "LOS") (take (Z.to_nat (CHAOS_MAX_DATA + 32 - 1)) (bytes_of_string "Timed out: " ++ c_string (reason k)))
  | _ => status_line (bytes_of_string "LOS") text
  end.
(* chaosd/chaos-stream.c:412-412 Connection *)
Definition opened_line (a : Z) : list Z := bytes_of_string "OPN Connection to host " ++ octal a ++ [13; 10].

(** A client that waits for its connection to open; whether it has opened. *)
(* chaosd/chaos-stream.c:402-450 CLIENT_WAIT_OPN *)
Definition service_waiting (i nowMs : Z) : Front bool :=
  k <- get_client i ;;
  conn <- on_core (conn_for_handle (client_conn k)) ;;
  match conn with
  | None => fail_client i (bytes_of_string "LOS") (bytes_of_string "Connection vanished") ;; ret false
  | Some conn =>
      match state conn with
      | CONN_OPEN =>
          out_append i (opened_line (client_addr k)) ;;
          on_client i (set_client_state CLIENT_STREAM) ;;
          ret true
      | CONN_CLOSED =>
          out_append i (refusal conn) ;;
          on_core (chaos_release (client_conn k) [] nowMs) ;;
          on_client i (set_client_conn (-1)) ;;
          on_client i (set_client_state CLIENT_DRAIN) ;;
          ret false
      | _ => ret false
      end
  end.
(** What the client has sent goes to the connection. *)
(* chaosd/chaos-stream.c:459-473 chaos_send *)
Definition service_send (i h nowMs : Z) : Front unit :=
  k <- get_client i ;;
  conn <- on_core (get_conn h) ;;
  when ((0 <? Z.of_nat (length (inb k))) && bool_decide (state conn = CONN_OPEN))
    (n <- on_core (chaos_send (client_conn k) (inb k) nowMs) ;;
     when (0 <? n) (on_client i (fun k => set_inb (drop (Z.to_nat n) (inb k)) k))) ;;
  k <- get_client i ;;
  conn <- on_core (get_conn h) ;;
  when (sockEof k && bool_decide (inb k = []) && negb (finished k) && bool_decide (state conn = CONN_OPEN))
    (on_core (chaos_finish (client_conn k) nowMs) ;; on_client i (set_finished true)).
(** What the connection has received goes to the client; whether the client lives. *)
(* chaosd/chaos-stream.c:474-494 chaos_recv *)
Definition service_recv (i h nowMs : Z) : Front bool :=
  on_client i out_compact ;;
  k <- get_client i ;;
  when (outLen k <? STREAM_OUTBUF)
    (bytes <- on_core (chaos_recv (client_conn k) (STREAM_OUTBUF - outLen k) nowMs) ;;
     set_client i (set_out (out k ++ bytes) k)) ;;
  alive <- client_write i nowMs ;;
  if negb (alive : bool) then ret false else
  k <- get_client i ;;
  eof <- on_core (chaos_recv_eof (client_conn k)) ;;
  when (eof && (outLen k =? 0) && negb (wrShut k)) (call (SockShutdown (fd k)) ;; on_client i (set_wrShut true)) ;;
  conn <- on_core (get_conn h) ;;
  ready <- on_core (chaos_recv_ready (client_conn k)) ;;
  if bool_decide (state conn = CONN_CLOSED) && negb ready && (outLen k =? 0) then
    client_close i (bytes_of_string "Connection closed") nowMs ;; ret false
  else ret true.
(** [h] is the place of the connection that the pointer [conn] points to. *)
(* chaosd/chaos-stream.c:452-495 CLIENT_STREAM *)
Definition service_stream (i nowMs : Z) : Front bool :=
  k <- get_client i ;;
  let h := client_conn k in
  conn <- on_core (conn_for_handle h) ;;
  match conn with
  | None => on_client i (set_client_state CLIENT_DRAIN) ;; ret true
  | Some _ => service_send i h nowMs ;; service_recv i h nowMs
  end.
(* chaosd/chaos-stream.c:501-507 CLIENT_DRAIN *)
Definition service_drain (i nowMs : Z) : Front unit :=
  k <- get_client i ;;
  when (bool_decide (client_state k = CLIENT_DRAIN))
    (alive <- client_write i nowMs ;;
     when alive
       (k <- get_client i ;;
        when (outLen k =? 0) (client_close i (bytes_of_string "Request failed") nowMs))).
(* chaosd/chaos-stream.c:396-508 client_service *)
Definition client_service (i nowMs : Z) : Front unit :=
  k <- get_client i ;;
  streams <- (match client_state k with
              | CLIENT_WAIT_OPN => service_waiting i nowMs
              | CLIENT_STREAM => ret true
              | _ => ret false
              end) ;;
  alive <- (if streams : bool then service_stream i nowMs else ret true) ;;
  when alive (service_drain i nowMs).

(* chaosd/chaos-stream.c:514-516 client_service *)
Fixpoint service_clients (i : Z) (n : nat) (nowMs : Z) : Front unit :=
  match n with
  | O => ret tt
  | S n' =>
      k <- get_client i ;;
      when (negb (free k)) (client_service i nowMs) ;;
      service_clients (i + 1) n' nowMs
  end.
(* chaosd/chaos-stream.c:510-517 stream_service *)
Definition stream_service (nowMs : Z) : Front unit := service_clients 0 (Z.to_nat STREAM_MAX_CLIENTS) nowMs.

(** ** The loop *)

(** What an entry of the pollfd array is for. *)
Inductive PollRole := RoleListen | RoleExtra | RoleClient (i : Z).
(* chaosd/chaos-stream.c:544-566 events *)
Definition client_events (k : StreamClient) : Front (bool * bool) :=
  wants <- (match client_state k with
            | CLIENT_LINE => ret true
            | CLIENT_WAIT_OPN => ret (Z.of_nat (length (inb k)) <? STREAM_INBUF)
            | CLIENT_STREAM =>
                room <- on_core (chaos_send_room (client_conn k)) ;;
                ret (negb (sockEof k) && bool_decide (inb k = []) && (0 <? room))
            | _ => ret false
            end) ;;
  ret (wants, outOff k <? outLen k).
(* chaosd/chaos-stream.c:542-570 events *)
Fixpoint poll_clients (i : Z) (n : nat) : Front (list (PollFd * PollRole)) :=
  match n with
  | O => ret []
  | S n' =>
      k <- get_client i ;;
      if free k then poll_clients (i + 1) n' else
      '(r, w) <- client_events k ;;
      l <- poll_clients (i + 1) n' ;;
      ret ((MkPollFd (if r || w then fd k else -1) r w, RoleClient i) :: l)
  end.
(* chaosd/chaos-stream.c:580-598 revents *)
Definition serve_event (e : PollFd * PollRole * PollEvents) (nowMs : Z) : Front unit :=
  let '(p, role, r) := e in
  match role with
  | RoleClient i =>
      if negb (ready_in r || ready_out r || ready_hup r || ready_err r) || (poll_fd p <? 0) then ret tt else
      k <- get_client i ;;
      if free k then ret tt else
      alive <- (if poll_out p && (ready_out r || ready_hup r || ready_err r) then client_write i nowMs else ret true) ;;
      when (alive && (ready_in r || ready_hup r || ready_err r))
        (if poll_in p then client_read i nowMs
         else when (negb (poll_out p) || ready_err r) (client_close i (bytes_of_string "Connection aborted by user") nowMs))
  | _ => ret tt
  end.
(* chaosd/chaos-stream.c:580-587 revents *)
Fixpoint serve_events (l : list (PollFd * PollRole * PollEvents)) (nowMs : Z) : Front unit :=
  match l with [] => ret tt | e :: l' => serve_event e nowMs ;; serve_events l' nowMs end.
(** The connections that wait, one after the other. *)
(* chaosd/chaos-stream.c:600-614 accept *)
Fixpoint accept_clients (n : nat) : Front unit :=
  match n with
  | O => ret tt
  | S n' =>
      log <- gets socket_calls ;;
      let d := accept_fd log in
      call (SockAccepted d) ;;
      i <- stream_adopt d ;;
      when (i <? 0)
        (log <- gets socket_calls ;;
         let busy := bytes_of_string "LOS Too many clients" ++ [13; 10] in
         call (SockWrote d (match write_result log d busy with Wrote n => take (Z.to_nat n) busy | _ => [] end)) ;;
         call (SockClose d)) ;;
      accept_clients n'
  end.
Definition role_ready (role : PollRole) (l : list (PollFd * PollRole * PollEvents)) (ready : PollEvents -> bool) : bool :=
  existsb (fun '(_, r, e) => match r, role with RoleListen, RoleListen | RoleExtra, RoleExtra => ready e | _, _ => false end) l.
(* chaosd/chaos-stream.c:519-618 stream_step *)
Definition stream_step (extraFd timeoutMs : Z) : Front bool :=
  listen <- gets listenFd ;;
  own <- poll_clients 0 (Z.to_nat STREAM_MAX_CLIENTS) ;;
  let entry d role := if 0 <=? d then [(MkPollFd d true false, role)] else [] in
  let entries := entry listen RoleListen ++ entry extraFd RoleExtra ++ own in
  log <- gets socket_calls ;;
  call SockPoll ;;
  match poll_result log (map fst entries) with
  | None => ret false
  | Some events =>
      log <- gets socket_calls ;;
      let nowMs := clock log in
      let l := zip entries events in
      let extraReady := role_ready RoleExtra l (fun e => ready_in e || ready_hup e || ready_err e) in
      serve_events l nowMs ;;
      when (role_ready RoleListen l ready_in) (log <- gets socket_calls ;; accept_clients (waiting log)) ;;
      stream_service nowMs ;;
      ret extraReady
  end.

(* chaosd/chaos-stream.c:624-626 client_close *)
Fixpoint close_clients (i : Z) (n : nat) (nowMs : Z) : Front unit :=
  match n with
  | O => ret tt
  | S n' =>
      k <- get_client i ;;
      when (negb (free k)) (client_close i (bytes_of_string "chaosd shutting down") nowMs) ;;
      close_clients (i + 1) n' nowMs
  end.
(* chaosd/chaos-stream.c:620-632 stream_shutdown *)
Definition stream_shutdown (nowMs : Z) : Front unit :=
  close_clients 0 (Z.to_nat STREAM_MAX_CLIENTS) nowMs ;;
  listen <- gets listenFd ;;
  when (0 <=? listen) (call (SockClose listen) ;; modify (set_listenFd (-1))).

(* chaosd/chaosd.c:238-239 chaos_core_input *)
Fixpoint input_frames (l : list (list Z)) (nowMs : Z) : Front unit :=
  match l with [] => ret tt | frame :: l' => on_core (chaos_core_input frame nowMs) ;; input_frames l' nowMs end.
(** A turn of the daemon's loop; [notifyFd] tells that the network interface has frames. *)
(* chaosd/chaosd.c:224-243 stream_step *)
Definition daemon_turn (notifyFd : Z) : Front unit :=
  log <- gets socket_calls ;;
  timeout <- on_core (chaos_core_next_timeout (clock log) 50) ;;
  frames <- stream_step notifyFd timeout ;;
  log <- gets socket_calls ;;
  let now := clock log in
  when frames (input_frames (frames_waiting log) now) ;;
  on_core (chaos_core_tick now) ;;
  stream_service now.
End front.
