(* ===== verification/FrontSafe.v ===== *)
(** The stream front end leaves none of its buffers, and every turn of the daemon ends. What an
    operation on one client does is proved once, for any property of the server that such
    operations keep. *)

From S2P Require Export FrontEnd ChaosDeliver.
From Stdlib Require String Ascii.
Import String.StringSyntax.
#[local] Open Scope vlm_scope.

(** ** Operations that return *)

Section does.
Context (P : StreamServer -> Prop).

(** From a state with [P], [m] returns a value with [Q] and keeps [P]. *)
Definition does {A} (m : Front A) (Q : A -> Prop) : Prop :=
  forall s, P s -> exists a s', m s = (Ok a, s') /\ P s' /\ Q a.

Lemma does_ret {A} (a : A) (Q : A -> Prop) : Q a -> does (ret a) Q.
Proof. intros H s Hs. by exists a, s. Qed.
Lemma does_bind {A B} (m : Front A) (f : A -> Front B) Q R : does m Q -> (forall a, Q a -> does (f a) R) -> does (bind m f) R.
Proof.
  intros Hm Hf s Hs. destruct (Hm s Hs) as (a & s1 & E & H1 & Ha). destruct (Hf a Ha s1 H1) as (b & s2 & E2 & H2).
  exists b, s2. split; [|done]. by erewrite bind_Ok by exact E.
Qed.
Lemma does_if {A} (b : bool) (m1 m2 : Front A) Q : (b = true -> does m1 Q) -> (b = false -> does m2 Q) -> does (if b then m1 else m2) Q.
Proof. destruct b; auto. Qed.
Lemma does_when b (m : Front unit) : (b = true -> does m (fun _ => True)) -> does (when b m) (fun _ => True).
Proof. destruct b; [auto|]. intros _. by apply does_ret. Qed.
Lemma does_gets {A} (f : StreamServer -> A) : does (gets f) (fun _ => True).
Proof. intros s Hs. by exists (f s), s. Qed.
Lemma does_weaken {A} (m : Front A) (Q R : A -> Prop) : does m Q -> (forall a, Q a -> R a) -> does m R.
Proof. intros H HQ s Hs. destruct (H s Hs) as (a & s' & E & H' & Ha). exists a, s'. auto. Qed.
Lemma does_true {A} (m : Front A) (Q : A -> Prop) : does m Q -> does m (fun _ => True).
Proof. intros H s Hs. destruct (H s Hs) as (a & s' & E & H' & _). by exists a, s'. Qed.
End does.

(** ** Sizes *)

Record client_inv (k : StreamClient) : Prop := {
  client_line : Z.of_nat (length (line k)) < STREAM_LINE_MAX;
  client_in : Z.of_nat (length (inb k)) <= STREAM_INBUF;
  client_out : 0 <= outOff k <= outLen k /\ outLen k <= STREAM_OUTBUF
}.
Lemma free_client_inv : client_inv free_client.
Proof. by constructor. Qed.
Lemma client_inv_frame k k' : client_inv k -> line k' = line k -> inb k' = inb k -> out k' = out k -> outOff k' = outOff k -> client_inv k'.
Proof. intros [H1 H2 H3] E1 E2 E3 E4. unfold outLen in *. constructor; unfold outLen; by rewrite ?E1, ?E2, ?E3, ?E4. Qed.

(** What a read returns is no more than was asked for. *)
Lemma recv_turn_bound h max got advanced c r c' : Z.of_nat (length got) <= max -> recv_turn h max (got, advanced) c = (Ok r, c') ->
  Z.of_nat (length (match r with inl l => l.1 | inr l => l.1 end)) <= max.
Proof.
  intros Hg Run. unfold recv_turn in Run. apply bind_inv_Ok in Run as (k & c1 & _ & Run).
  destruct (negb _); [by injection Run as <- _|]. apply bind_inv_Ok in Run as (p & c2 & _ & Run).
  destruct (opcode p =? CHOP_EOF); [apply bind_inv_Ok in Run as (? & ? & _ & Run); by injection Run as <- _|].
  cbv zeta in Run. set (n_take := if max - _ <? _ then _ else _) in Run. apply bind_inv_Ok in Run as (bytes & c3 & Eb & Run).
  destruct (slice (data p) (offset p) n_take) as [b|] eqn:Esl; [|done]. injection Eb as -> _.
  apply slice_length in Esl. assert (Z.of_nat (length (got ++ bytes)) <= max) as Hb.
  { rewrite length_app, Esl. unfold n_take. destruct (Z.ltb_spec (max - Z.of_nat (length got)) (u64 (nBytes p - offset p))); [lia|].
    assert (0 <= u64 (nBytes p - offset p)) by (apply Z.mod_pos_bound; lia). lia. }
  clearbody n_take. destruct (_ <? _) in Run; apply bind_inv_Ok in Run as (? & ? & _ & Run); by injection Run as <- _.
Qed.
Lemma recv_loop_bound h max : forall fuel got advanced c r c', Z.of_nat (length got) <= max ->
  loop fuel (recv_turn h max) (got, advanced) c = (Ok r, c') -> Z.of_nat (length r.1) <= max.
Proof.
  induction fuel as [|fuel IH]; intros got advanced c r c' Hg Run; [done|]. cbn [loop] in Run.
  apply bind_inv_Ok in Run as (t & c1 & Run1 & Run2). pose proof (recv_turn_bound h max got advanced c t c1 Hg Run1) as Hb.
  destruct t as [[got1 adv1]|r1]; [by eapply IH|by injection Run2 as <- _].
Qed.
Lemma chaos_recv_bound h max nowMs c got c' : 0 <= max -> chaos_recv h max nowMs c = (Ok got, c') -> Z.of_nat (length got) <= max.
Proof.
  intros Hm Run. unfold chaos_recv in Run. apply bind_inv_Ok in Run as ([k|] & c1 & _ & Run); [|injection Run as <- _; simpl; lia].
  apply bind_inv_Ok in Run as ([got1 adv] & c2 & Run1 & Run). apply recv_loop_bound in Run1; [|simpl; lia].
  apply bind_inv_Ok in Run as (k1 & c3 & _ & Run). by apply bind_inv_Ok in Run as (? & ? & _ & [= <- _]).
Qed.
Lemma safe_chaos_recv_bound h max nowMs : 0 <= max -> safe (chaos_recv h max nowMs) (fun got => Z.of_nat (length got) <= max).
Proof.
  intros Hm c I. destruct (safe_chaos_recv h max nowMs c I) as (got & c' & Run & I' & _). exists got, c'. split_and!; try done.
  by eapply chaos_recv_bound.
Qed.

(** ** One client *)

(** What operations on client [j] may do to a server with [P]: use the descriptors and the
    connections that are [own_fd] and [own_conn]. *)
Section frame.
Context `{SocketLaws} (P : StreamServer -> Prop) (own_fd own_conn : Z -> Prop).
#[local] Abbreviation does := (does P).

Definition good (k : StreamClient) : Prop := client_inv k /\ own_fd (fd k) /\ own_conn (client_conn k).
Definition own_call (c : SocketCall) : Prop :=
  match c with SockRead e _ | SockWrote e _ | SockShutdown e | SockClose e => own_fd e | SockPoll => True | SockAccepted _ => False end.
Record frame (j : Z) : Prop := {
  frame_get s : P s -> exists k, nth_Z (clients s) j = Some k /\ good k;
  frame_set s k : P s -> good k -> P (set_clients (upd_Z (clients s) j k) s);
  frame_call s c : P s -> own_call c -> P (set_socket_calls (socket_calls s ++ [c]) s);
  frame_core {A} (m : Core A) Q : safe m Q -> (forall x, ~ own_conn x -> spares x m) -> does (on_core m) Q;
  frame_open a contact nowMs : does (on_core (chaos_open a contact nowMs)) own_conn;
  frame_none : own_fd (-1) /\ own_conn (-1)
}.

Context (j : Z) (F : frame j).
Lemma does_get_client : does (get_client j) good.
Proof. intros s Hs. destruct (frame_get _ F s Hs) as (k & E & G). exists k, s. split; [|done]. unfold get_client. rewrite run_bind_gets. by rewrite E. Qed.
Lemma does_set_client k : good k -> does (set_client j k) (fun _ => True).
Proof. intros G s Hs. eexists _, _. split; [done|]. split; [by apply (frame_set _ F)|done]. Qed.
Lemma does_on_client f : (forall k, good k -> good (f k)) -> does (on_client j f) (fun _ => True).
Proof. intros Hf. eapply does_bind; [apply does_get_client|]. intros k G. apply does_set_client. auto. Qed.
Lemma does_call c : own_call c -> does (call c) (fun _ => True).
Proof. intros Hc s Hs. eexists _, _. split; [done|]. split; [by apply (frame_call _ F)|done]. Qed.
Lemma good_frame k k' : good k -> client_inv k' -> fd k' = fd k -> client_conn k' = client_conn k -> good k'.
Proof. intros (_ & G2 & G3) H1 H2 H3. unfold good. by rewrite H2, H3. Qed.
(** What does not change the sizes. *)
Lemma does_flag f : (forall k, line (f k) = line k /\ inb (f k) = inb k /\ out (f k) = out k /\ outOff (f k) = outOff k /\
  fd (f k) = fd k /\ client_conn (f k) = client_conn k) -> does (on_client j f) (fun _ => True).
Proof.
  intros Hf. apply does_on_client. intros k G. destruct (Hf k) as (E1 & E2 & E3 & E4 & E5 & E6). apply (good_frame k); try done.
  destruct G as [G _]. by apply (client_inv_frame k).
Qed.

Lemma does_client_close why nowMs : does (client_close j why nowMs) (fun _ => True).
Proof.
  unfold client_close. eapply does_bind; [apply does_get_client|]. intros k (G1 & G2 & G3). eapply does_bind.
  { apply does_when. intros _. apply (frame_core _ F); [apply safe_chaos_release|]. intros x Hx. apply spares_chaos_release. by intros <-. }
  intros _ _. eapply does_bind; [apply does_when; intros _; by apply does_call|]. intros _ _. apply does_set_client.
  destruct (frame_none _ F). by repeat split; try apply free_client_inv.
Qed.
Lemma client_inv_compact k : client_inv k -> client_inv (out_compact k).
Proof.
  intros [H1 H2 [H3 H4]]. unfold outLen in *. constructor; [done|done|]. unfold out_compact, outLen, set_outOff, set_out.
  cbn [out outOff]. rewrite length_drop. lia.
Qed.
Lemma does_out_append bytes : does (out_append j bytes) (fun _ => True).
Proof.
  unfold out_append. eapply does_bind.
  { apply does_on_client. intros k G. apply (good_frame k); try done. destruct G as [G _]. by apply client_inv_compact. }
  intros _ _. eapply does_bind; [apply does_get_client|]. intros k G. destruct G as ([G1 G2 [G3 G4]] & Gf & Gc).
  assert (u64 (STREAM_OUTBUF - outLen k) = STREAM_OUTBUF - outLen k) as -> by (apply Z.mod_small; unfold STREAM_OUTBUF, outLen in *; lia).
  cbv zeta. set (n := if STREAM_OUTBUF - outLen k <? _ then _ else _). assert (0 <= n <= STREAM_OUTBUF - outLen k /\ n <= Z.of_nat (length bytes)) as [Hn Hl]
    by (unfold n, outLen in *; destruct (Z.ltb_spec (STREAM_OUTBUF - Z.of_nat (length (out k))) (Z.of_nat (length bytes))); lia).
  clearbody n. destruct (Z.ltb_spec STREAM_OUTBUF (outLen k + n)); [lia|]. apply does_set_client. split; [|done].
  unfold outLen in *. constructor; cbn [line inb out outOff set_out]; try done. unfold outLen. cbn [out set_out]. rewrite length_app, length_take. lia.
Qed.
Lemma does_fail_client verb text : does (fail_client j verb text) (fun _ => True).
Proof. unfold fail_client. eapply does_bind; [apply does_out_append|]. intros _ _. by apply does_flag. Qed.

Lemma safe_gets_any {A} (f : ChaosCore -> A) : safe (gets f) (fun _ => True).
Proof. by apply (safe_gets f (fun _ => True)). Qed.
Lemma does_handle_request nowMs : does (handle_request j nowMs) (fun _ => True).
Proof.
  unfold handle_request. eapply does_bind; [apply does_get_client|]. intros k _.
  destruct (parse_request _) as [[host contact]|]; [|apply does_fail_client].
  apply does_if; intros _; [apply does_fail_client|]. eapply does_bind; [apply does_gets|]. intros l _.
  destruct (resolve_host l host) as [a|]; [|apply does_fail_client].
  eapply does_bind; [apply (frame_core _ F); [apply safe_gets_any|intros; apply spares_gets]|]. intros me _.
  apply does_if; intros _; [apply does_fail_client|]. eapply does_bind; [by apply does_flag|]. intros _ _.
  eapply does_bind; [apply (frame_open _ F)|]. intros h Hh. eapply does_bind.
  { apply does_on_client. intros k1 (G & Gf & _). split; [|done]. by apply (client_inv_frame k1). }
  intros _ _. apply does_if; intros _; [apply does_fail_client|]. by apply does_flag.
Qed.
Lemma does_line_input nowMs buf : does (line_input j nowMs buf) (fun _ => True).
Proof.
  induction buf as [|b rest IH]; cbn [line_input]; [by apply does_ret|]. eapply does_bind; [apply does_get_client|]. intros k G.
  pose proof G as ([G1 G2 G3] & _). apply does_if; intros _.
  - cbv zeta. destruct (Z.leb_spec STREAM_LINE_MAX (Z.of_nat (length (line k)))); [lia|].
    eapply does_bind; [by apply does_flag|]. intros _ _. eapply does_bind; [|intros _ _; apply does_handle_request].
    apply does_when. intros _. apply does_on_client. intros k1 G'. apply (good_frame k1); try done. destruct G' as ([C1 C2 C3] & _).
    constructor; try done. cbn [inb set_skipLf set_inb]. rewrite length_take. unfold STREAM_INBUF. change (Z.to_nat 4096) with 4096%nat. lia.
  - destruct (Z.leb_spec (STREAM_LINE_MAX - 1) (Z.of_nat (length (line k)))) as [|Hl]; [apply does_fail_client|].
    eapply does_bind; [|intros _ _; exact IH]. apply does_on_client. intros k1 G'. apply (good_frame k1); try done. destruct G' as ([C1 C2 C3] & _).
    constructor; try done. cbn [line set_line]. rewrite length_app. cbn [length]. lia.
Qed.
Lemma does_client_read nowMs : does (client_read j nowMs) (fun _ => True).
Proof.
  unfold client_read. eapply does_bind; [apply does_get_client|]. intros k G. pose proof G as ([G1 G2 G3] & Gf & _). cbv zeta.
  set (want := if bool_decide _ then 256 else _). assert (0 <= want <= STREAM_INBUF /\ (client_state k <> CLIENT_LINE -> want = STREAM_INBUF - Z.of_nat (length (inb k)))) as [Hw Hw'].
  { unfold want, STREAM_INBUF in *. case_bool_decide; [done|]. lia. }
  clearbody want. destruct (Z.eqb_spec want 0); [by apply does_ret|]. destruct (Z.ltb_spec STREAM_INBUF want); [lia|].
  intros s Hs. unfold sock_read. rewrite run_bind_assoc, run_bind_gets, run_bind_assoc. unfold call at 1. rewrite run_bind_modify, run_bind_ret.
  set (s1 := set_socket_calls _ s). assert (P s1) as P1 by (by apply (frame_call _ F)). destruct (read_result _ _ _) as [buf| | |] eqn:Er.
  - apply read_some in Er. case_bool_decide as Hst; [by apply does_line_input|]. specialize (Hw' Hst).
    set (buf' := if skipLf k then _ else _). assert (length buf' <= length buf)%nat as Hb.
    { unfold buf'. destruct (skipLf k); [|done]. destruct buf as [|b buf0]; [done|]. simpl.
      repeat match goal with |- context [match ?x with _ => _ end] => destruct x; cbn [length]; try lia end. }
    clearbody buf'. refine (does_bind _ _ _ _ _ _ _ s1 P1); [apply does_when; intros _; by apply does_flag|]. intros _ _.
    rewrite length_app. destruct (Z.ltb_spec STREAM_INBUF (Z.of_nat (length (inb k) + length buf'))); [lia|].
    apply does_on_client. intros k1 G'. apply (good_frame k1); try done. destruct G' as ([C1 C2 C3] & _). constructor; try done.
    cbn [inb set_inb]. rewrite length_app. lia.
  - apply does_if; [| |exact P1]; intros _; [apply does_client_close|by apply does_flag].
  - by apply does_ret.
  - by apply does_client_close.
Qed.

Lemma does_write_loop nowMs : forall fuel s k, P s -> nth_Z (clients s) j = Some k -> good k ->
  (Z.to_nat (outLen k - outOff k) < fuel)%nat ->
  exists b s', loop fuel (write_turn j nowMs) tt s = (Ok b, s') /\ P s'.
Proof.
  induction fuel as [|fuel IH]; intros s k Hs E G Hf; [lia|]. pose proof G as ([C1 C2 [C3 C4]] & Gf & Gc). cbn [loop]. unfold write_turn at 1.
  unfold get_client. rewrite !run_bind_assoc, run_bind_gets, (run_bind_option k) by done.
  destruct (Z.ltb_spec (outOff k) (outLen k)) as [Hlt|Hge].
  - cbv zeta. rewrite run_bind_assoc, run_bind_gets. set (bytes := drop _ (out k)). destruct (write_result _ _ _) as [n| |] eqn:Ew.
    + apply write_some in Ew. assert (Z.of_nat (length bytes) = outLen k - outOff k) as Lb
        by (unfold bytes, outLen in *; rewrite length_drop; lia).
      unfold call. rewrite !run_bind_assoc, run_bind_modify. set (s1 := set_socket_calls _ s).
      assert (P s1) as P1 by (by apply (frame_call _ F)). set (k1 := set_outOff (outOff k + n) k).
      assert (good k1) as G1.
      { apply (good_frame k); try done. constructor; try done. change (outLen k1) with (outLen k). change (outOff k1) with (outOff k + n). lia. }
      unfold set_client. rewrite run_bind_assoc, run_bind_modify, run_bind_ret. apply (IH _ k1); [by apply (frame_set _ F)| |done|].
      * cbn [clients set_clients]. apply nth_upd_eq. apply nth_Z_bounds in E. exact E.
      * change (outLen k1) with (outLen k). change (outOff k1) with (outOff k + n). lia.
    + unfold call. rewrite run_bind_assoc, run_bind_modify, run_bind_ret. eexists _, _. split; [done|]. by apply (frame_call _ F).
    + unfold call. rewrite !run_bind_assoc, run_bind_modify. set (s1 := set_socket_calls _ s).
      assert (P s1) as P1 by (by apply (frame_call _ F)).
      destruct (does_client_close (bytes_of_string "Connection closed by user") nowMs s1 P1) as ([] & s2 & R & P2 & _).
      rewrite run_bind_assoc. erewrite bind_Ok by exact R. by eexists _, _.
  - unfold set_client. rewrite run_bind_assoc, run_bind_modify, run_bind_ret. eexists _, _. split; [done|]. apply (frame_set _ F); [done|].
    apply (good_frame k); try done.
Qed.
Lemma does_client_write nowMs : does (client_write j nowMs) (fun _ => True).
Proof.
  intros s Hs. destruct (frame_get _ F s Hs) as (k & E & G). pose proof G as ([_ _ [C3 C4]] & _).
  destruct (does_write_loop nowMs write_fuel s k Hs E G) as (b & s' & R & P'); [|by exists b, s'].
  unfold write_fuel. apply Nat.lt_succ_r, Z2Nat.inj_le; lia.
Qed.

(** ** Service *)

Lemma does_view {A} (m : Core A) Q : safe m Q -> (forall x, spares x m) -> does (on_core m) Q.
Proof. intros H1 H2. apply (frame_core _ F); auto. Qed.
Lemma does_get_conn h : handle h -> does (on_core (get_conn h)) conn_inv.
Proof. intros Hh. apply does_view; [by apply safe_get_conn|intros; apply spares_get_conn]. Qed.
Lemma does_conn_for_handle h : does (on_core (conn_for_handle h)) (fun o => match o with Some _ => handle h | None => True end).
Proof.
  apply does_view; [|intros; apply spares_conn_for_handle]. eapply safe_weaken; [apply safe_conn_for_handle|]. intros [k|]; [|done]. by intros [? _].
Qed.
Lemma does_service_waiting nowMs : does (service_waiting j nowMs) (fun _ => True).
Proof.
  unfold service_waiting. eapply does_bind; [apply does_get_client|]. intros k (_ & Gf & Gc).
  eapply does_bind; [apply does_conn_for_handle|]. intros [conn|] Hh.
  - destruct (state conn); try by apply does_ret.
    + eapply does_bind; [apply does_out_append|]. intros _ _. eapply does_bind; [by apply does_flag|]. intros _ _. by apply does_ret.
    + eapply does_bind; [apply does_out_append|]. intros _ _. eapply does_bind.
      { apply (frame_core _ F); [apply safe_chaos_release|]. intros x Hx. apply spares_chaos_release. by intros <-. }
      intros _ _. eapply does_bind.
      { apply does_on_client. intros k1 (G & G2 & _). split; [by apply (client_inv_frame k1)|]. split; [done|]. by destruct (frame_none _ F). }
      intros _ _. eapply does_bind; [by apply does_flag|]. intros _ _. by apply does_ret.
  - eapply does_bind; [apply does_fail_client|]. intros _ _. by apply does_ret.
Qed.
Lemma does_service_send h nowMs : handle h -> does (service_send j h nowMs) (fun _ => True).
Proof.
  intros Hh. unfold service_send. eapply does_bind; [apply does_get_client|]. intros k _.
  eapply does_bind; [by apply does_get_conn|]. intros conn _. eapply does_bind.
  { apply does_when. intros _. eapply does_bind; [apply does_view; [apply safe_chaos_send|intros; apply spares_chaos_send]|]. intros n _.
    apply does_when. intros _. apply does_on_client. intros k1 G. apply (good_frame k1); try done. destruct G as ([C1 C2 C3] & _).
    constructor; try done. cbn [inb set_inb]. rewrite length_drop. lia. }
  intros _ _. eapply does_bind; [apply does_get_client|]. intros k1 _. eapply does_bind; [by apply does_get_conn|]. intros conn1 _.
  apply does_when. intros _. eapply does_bind; [apply does_view; [apply safe_chaos_finish|intros; apply spares_chaos_finish]|].
  intros _ _. by apply does_flag.
Qed.
Lemma safe_chaos_recv_eof h : safe (chaos_recv_eof h) (fun _ => True).
Proof. unfold chaos_recv_eof. eapply safe_bind; [apply safe_conn_for_handle|]. intros ? _. by apply safe_ret. Qed.
Lemma safe_chaos_recv_ready h : safe (chaos_recv_ready h) (fun _ => True).
Proof. unfold chaos_recv_ready. eapply safe_bind; [apply safe_conn_for_handle|]. intros ? _. by apply safe_ret. Qed.
Lemma spares_chaos_recv_eof x h : spares x (chaos_recv_eof h).
Proof. unfold chaos_recv_eof. apply spares_bind; [apply spares_conn_for_handle|intros; apply spares_ret]. Qed.
Lemma spares_chaos_recv_ready x h : spares x (chaos_recv_ready h).
Proof. unfold chaos_recv_ready. apply spares_bind; [apply spares_conn_for_handle|intros; apply spares_ret]. Qed.
Lemma does_service_recv h nowMs : handle h -> does (service_recv j h nowMs) (fun _ => True).
Proof.
  intros Hh. unfold service_recv. eapply does_bind.
  { apply does_on_client. intros k G. apply (good_frame k); try done. destruct G as [G _]. by apply client_inv_compact. }
  intros _ _. eapply does_bind; [apply does_get_client|]. intros k G. pose proof G as ([C1 C2 [C3 C4]] & Gf & Gc). eapply does_bind.
  { apply does_when. intros Hlt%Z.ltb_lt. eapply does_bind.
    { apply (frame_core _ F); [apply (safe_chaos_recv_bound _ (STREAM_OUTBUF - outLen k)); lia|]. intros x Hx. apply spares_chaos_recv. by intros <-. }
    intros bytes Hb. apply does_set_client. apply (good_frame k); try done. constructor; try done.
    unfold outLen in *. cbn [out outOff set_out]. rewrite length_app. lia. }
  intros _ _. eapply does_bind; [apply does_client_write|]. intros alive _. apply does_if; intros _; [by apply does_ret|].
  eapply does_bind; [apply does_get_client|]. intros k1 (_ & Gf1 & _).
  eapply does_bind; [apply does_view; [apply safe_chaos_recv_eof|intros; apply spares_chaos_recv_eof]|]. intros eof _. eapply does_bind.
  { apply does_when. intros _. eapply does_bind; [by apply does_call|]. intros _ _. by apply does_flag. }
  intros _ _. eapply does_bind; [by apply does_get_conn|]. intros conn _.
  eapply does_bind; [apply does_view; [apply safe_chaos_recv_ready|intros; apply spares_chaos_recv_ready]|]. intros ready _.
  apply does_if; intros _; [|by apply does_ret]. eapply does_bind; [apply does_client_close|]. intros _ _. by apply does_ret.
Qed.
Lemma does_service_stream nowMs : does (service_stream j nowMs) (fun _ => True).
Proof.
  unfold service_stream. eapply does_bind; [apply does_get_client|]. intros k _. eapply does_bind; [apply does_conn_for_handle|]. intros [conn|] Hh.
  - eapply does_bind; [by apply does_service_send|]. intros _ _. by apply does_service_recv.
  - eapply does_bind; [by apply does_flag|]. intros _ _. by apply does_ret.
Qed.
Lemma does_service_drain nowMs : does (service_drain j nowMs) (fun _ => True).
Proof.
  unfold service_drain. eapply does_bind; [apply does_get_client|]. intros k _. apply does_when. intros _.
  eapply does_bind; [apply does_client_write|]. intros alive _. apply does_when. intros _.
  eapply does_bind; [apply does_get_client|]. intros k1 _. apply does_when. intros _. apply does_client_close.
Qed.
Lemma does_client_service nowMs : does (client_service j nowMs) (fun _ => True).
Proof.
  unfold client_service. eapply does_bind; [apply does_get_client|]. intros k _. eapply (does_bind _ _ _ (fun _ => True)).
  { destruct (client_state k); try by apply does_ret. apply does_service_waiting. }
  intros streams _. eapply (does_bind _ _ _ (fun _ => True)); [apply does_if; intros _; [apply does_service_stream|by apply does_ret]|].
  intros alive _. apply does_when. intros _. apply does_service_drain.
Qed.
Lemma safe_chaos_send_room h : safe (chaos_send_room h) (fun _ => True).
Proof. unfold chaos_send_room. eapply safe_bind; [apply safe_conn_for_handle|]. intros ? _. by apply safe_ret. Qed.
Lemma does_client_events k : does (client_events k) (fun _ => True).
Proof.
  unfold client_events. eapply (does_bind _ _ _ (fun _ => True)); [|intros ? _; by apply does_ret].
  destruct (client_state k); try by apply does_ret. eapply does_bind; [apply does_view; [apply safe_chaos_send_room|]|intros ? _; by apply does_ret].
  intros x. unfold chaos_send_room. apply spares_bind; [apply spares_conn_for_handle|intros; apply spares_ret].
Qed.
End frame.

(** ** The whole server *)

Section server.
Context `{SocketLaws} (P : StreamServer -> Prop).
#[local] Abbreviation does := (does P).

(** What it takes of [P]: operations on each client, and on what is not a client's. *)
Record served : Prop := {
  served_get j : handle j -> does (get_client j) (fun _ => True);
  served_events k : does (client_events k) (fun _ => True);
  served_read j nowMs : handle j -> does (client_read j nowMs) (fun _ => True);
  served_write j nowMs : handle j -> does (client_write j nowMs) (fun _ => True);
  served_close j why nowMs : handle j -> does (client_close j why nowMs) (fun _ => True);
  served_service j nowMs : handle j -> does (client_service j nowMs) (fun _ => True);
  served_accept n : does (accept_clients n) (fun _ => True);
  served_poll : does (call SockPoll) (fun _ => True)
}.
Context (V : served).

Lemma does_service_clients nowMs n : forall j, 0 <= j -> j + Z.of_nat n <= CHAOS_MAX_CONNS -> does (service_clients j n nowMs) (fun _ => True).
Proof.
  induction n as [|n IH]; intros j Hj Hn; cbn [service_clients]; [by apply does_ret|].
  assert (handle j) as Hh by (unfold handle; lia).
  eapply does_bind; [by apply (served_get V)|]. intros k _.
  eapply does_bind; [apply does_when; intros _; by apply (served_service V)|]. intros _ _. apply IH; lia.
Qed.
Lemma does_stream_service nowMs : does (stream_service nowMs) (fun _ => True).
Proof. unfold stream_service. by apply does_service_clients. Qed.
Lemma does_close_clients nowMs n : forall j, 0 <= j -> j + Z.of_nat n <= CHAOS_MAX_CONNS -> does (close_clients j n nowMs) (fun _ => True).
Proof.
  induction n as [|n IH]; intros j Hj Hn; cbn [close_clients]; [by apply does_ret|].
  assert (handle j) as Hh by (unfold handle; lia).
  eapply does_bind; [by apply (served_get V)|]. intros k _.
  eapply does_bind; [apply does_when; intros _; by apply (served_close V)|]. intros _ _. apply IH; lia.
Qed.
(** The entries name clients. *)
Definition names_clients (l : list (PollFd * PollRole)) : Prop :=
  Forall (fun e => match e.2 with RoleClient j => handle j | _ => True end) l.
Lemma does_poll_clients n : forall j, 0 <= j -> j + Z.of_nat n <= CHAOS_MAX_CONNS -> does (poll_clients j n) names_clients.
Proof.
  induction n as [|n IH]; intros j Hj Hn; cbn [poll_clients]; [by apply does_ret, Forall_nil|].
  assert (handle j) as Hh by (unfold handle; lia). eapply does_bind; [by apply (served_get V)|]. intros k _.
  apply does_if; intros _; [apply IH; lia|]. eapply does_bind; [by apply (served_events V)|]. intros [r w] _.
  eapply does_bind; [apply IH; lia|]. intros l Hl. apply does_ret. by apply Forall_cons.
Qed.
Lemma does_serve_event e nowMs : (match e.1.2 with RoleClient j => handle j | _ => True end) -> does (serve_event e nowMs) (fun _ => True).
Proof.
  destruct e as [[p role] r]. cbn [fst snd]. intros Hh. unfold serve_event. destruct role as [| |j]; try by apply does_ret.
  apply does_if; intros _; [by apply does_ret|]. eapply does_bind; [by apply (served_get V)|]. intros k _.
  apply does_if; intros _; [by apply does_ret|]. eapply (does_bind _ _ _ (fun _ => True)).
  { apply does_if; intros _; [by apply (served_write V)|by apply does_ret]. }
  intros alive _. apply does_when. intros _. apply does_if; intros _; [by apply (served_read V)|]. apply does_when. intros _. by apply (served_close V).
Qed.
Lemma does_serve_events nowMs l : Forall (fun e => match e.1.2 with RoleClient j => handle j | _ => True end) l ->
  does (serve_events l nowMs) (fun _ => True).
Proof.
  induction 1 as [|e l He _ IH]; cbn [serve_events]; [by apply does_ret|]. eapply does_bind; [by apply does_serve_event|]. by intros _ _.
Qed.
Lemma Forall_zip_fst {A B} (Q : A -> Prop) (l : list A) (m : list B) : Forall Q l -> Forall (fun e => Q e.1) (zip l m).
Proof. intros Hl. revert m. induction Hl as [|x l Hx _ IH]; intros [|y m]; try by apply Forall_nil. cbn. apply Forall_cons. auto. Qed.
Lemma does_stream_step extraFd timeoutMs : does (stream_step extraFd timeoutMs) (fun _ => True).
Proof.
  unfold stream_step. eapply does_bind; [apply does_gets|]. intros listen _.
  eapply does_bind; [by apply does_poll_clients|]. intros own Hown. cbv zeta. eapply does_bind; [apply does_gets|]. intros log _.
  eapply does_bind; [apply (served_poll V)|]. intros _ _. set (entries := _ ++ _ ++ own).
  assert (names_clients entries) as He.
  { assert (forall d role, (match role with RoleClient _ => False | _ => True end) -> names_clients (if 0 <=? d then [(MkPollFd d true false, role)] else [])) as Hone
      by (intros d role Hr; unfold names_clients; destruct (0 <=? d); [apply Forall_singleton; by destruct role|by apply Forall_nil]).
    apply Forall_app. split; [by apply Hone|]. apply Forall_app. split; [by apply Hone|done]. }
  destruct (poll_result _ _) as [events|]; [|by apply does_ret]. eapply does_bind; [apply does_gets|]. intros log1 _.
  eapply does_bind; [apply does_serve_events; exact (Forall_zip_fst _ _ events He)|]. intros _ _. eapply does_bind.
  { apply does_when. intros _. eapply does_bind; [apply does_gets|]. intros log2 _. apply (served_accept V). }
  intros _ _. eapply does_bind; [apply does_stream_service|]. intros _ _. by apply does_ret.
Qed.
End server.

(** ** The invariant of the server *)

Record server_inv (s : StreamServer) : Prop := {
  server_core : core_inv (core s);
  server_clients : length (clients s) = Z.to_nat CHAOS_MAX_CONNS /\ Forall client_inv (clients s);
  server_hosts : Z.of_nat (length (hosts s)) <= STREAM_MAX_HOSTS
}.
Section invariant.
Context `{SocketLaws}.

Lemma server_client s j : server_inv s -> handle j -> exists k, nth_Z (clients s) j = Some k /\ client_inv k.
Proof.
  intros [_ [L Fc] _] Hj. destruct (nth_Z_some (clients s) j) as [k E]; [rewrite L, Z2Nat.id by done; exact Hj|].
  exists k. split; [done|]. by eapply Forall_nth_Z.
Qed.
Lemma server_set s j k : server_inv s -> client_inv k -> server_inv (set_clients (upd_Z (clients s) j k) s).
Proof. intros [I [L Fc] Hh] G. constructor; try done. simpl. split; [by rewrite upd_Z_length|by apply Forall_upd]. Qed.
Lemma server_call s c : server_inv s -> server_inv (set_socket_calls c s).
Proof. intros [I C Hh]. by constructor. Qed.
Lemma server_set_core s c : server_inv s -> core_inv c -> server_inv (set_core c s).
Proof. intros [I C Hh] I'. by constructor. Qed.
Lemma run_on_core {A} (m : Core A) s a c : m (core s) = (Ok a, c) -> on_core m s = (Ok a, set_core c s).
Proof. intros E. unfold on_core. by rewrite E. Qed.
Lemma server_frame j : handle j -> frame server_inv (fun _ => True) (fun _ => True) j.
Proof.
  intros Hj. assert (forall A (m : Core A) Q, safe m Q -> does server_inv (on_core m) Q) as Hcore.
  { intros A m Q Hm s Hs. destruct (Hm _ (server_core _ Hs)) as (a & c & R & I & Ha). exists a, (set_core c s).
    split; [by apply run_on_core|]. split; [by apply server_set_core|done]. }
  constructor; try done.
  - intros s Hs. destruct (server_client s j Hs Hj) as (k & E & G). by exists k.
  - intros s k Hs (G & _). by apply server_set.
  - intros s c Hs _. by apply server_call.
  - intros A m Q Hm _. by apply Hcore.
  - intros a contact nowMs. apply Hcore, safe_chaos_open.
Qed.

(** A client is adopted in a free place. *)
Lemma free_client_index_range l : forall j i, free_client_index j l = Some i -> j <= i < j + Z.of_nat (length l) /\
  exists k, nth_Z l (i - j) = Some k /\ free k = true.
Proof.
  induction l as [|k l IH]; intros j i; cbn [free_client_index length]; [done|]. destruct (free k) eqn:Ek.
  - intros [= <-]. split; [lia|]. exists k. by rewrite Z.sub_diag.
  - intros Hr. destruct (IH _ _ Hr) as (Hi & k0 & E0 & F0). split; [lia|]. exists k0. split; [|done]. rewrite <- E0. unfold nth_Z.
    destruct (Z.leb_spec 0 (i - j)); [|lia]. destruct (Z.leb_spec 0 (i - (j + 1))); [|lia].
    by replace (Z.to_nat (i - j)) with (S (Z.to_nat (i - (j + 1)))) by lia.
Qed.
Lemma does_accept_clients n : does server_inv (accept_clients n) (fun _ => True).
Proof.
  assert (forall c, does server_inv (call c) (fun _ => True)) as Hcall by (intros c s Hs; eexists _, _; split; [done|]; split; [by apply server_call|done]).
  induction n as [|n IH]; cbn [accept_clients]; [by apply does_ret|]. eapply does_bind; [apply does_gets|]. intros log _.
  eapply does_bind; [apply Hcall|]. intros _ _. eapply (does_bind _ _ _ (fun _ => True)).
  { intros s Hs. unfold stream_adopt. rewrite run_bind_gets. destruct (free_client_index 0 (clients s)) as [i|]; [|by eexists _, _].
    eexists _, _. split; [done|]. split; [|done]. by apply server_set. }
  intros i _. eapply does_bind; [|intros _ _; exact IH]. apply does_when. intros _. eapply does_bind; [apply does_gets|]. intros log1 _. cbv zeta.
  eapply does_bind; [apply Hcall|]. intros _ _. apply Hcall.
Qed.
Lemma server_served : served server_inv.
Proof.
  constructor.
  - intros j Hj. eapply does_true, does_get_client. by apply server_frame.
  - intros k. apply (does_client_events server_inv (fun _ => True) (fun _ => True) 0). by apply server_frame.
  - intros j nowMs Hj. eapply does_client_read. by apply server_frame.
  - intros j nowMs Hj. eapply does_client_write. by apply server_frame.
  - intros j why nowMs Hj. eapply does_client_close. by apply server_frame.
  - intros j nowMs Hj. eapply does_client_service. by apply server_frame.
  - apply does_accept_clients.
  - intros s Hs. eexists _, _. split; [done|]. split; [by apply server_call|done].
Qed.

(** ** Everything together *)

(** What the daemon does: turns of its loop, a configured host, and the end. *)
Inductive front_operation :=
| FrontInput (frame : list Z) (nowMs : Z)
| FrontTick (nowMs : Z)
| FrontStep (extraFd timeoutMs : Z)
| FrontService (nowMs : Z)
| FrontTurn (notifyFd : Z)
| FrontAddHost (spec : list Z)
| FrontShutdown (nowMs : Z).
Definition perform_front (o : front_operation) : Front unit :=
  match o with
  | FrontInput frame nowMs => on_core (chaos_core_input frame nowMs)
  | FrontTick nowMs => on_core (chaos_core_tick nowMs)
  | FrontStep extraFd timeoutMs => stream_step extraFd timeoutMs ;; ret tt
  | FrontService nowMs => stream_service nowMs
  | FrontTurn notifyFd => daemon_turn notifyFd
  | FrontAddHost spec => stream_add_host spec ;; ret tt
  | FrontShutdown nowMs => stream_shutdown nowMs
  end.
Fixpoint perform_fronts (l : list front_operation) : Front unit :=
  match l with [] => ret tt | o :: l' => perform_front o ;; perform_fronts l' end.

Lemma does_on_core {A} (m : Core A) Q : safe m Q -> does server_inv (on_core m) Q.
Proof.
  intros Hm s Hs. destruct (Hm _ (server_core _ Hs)) as (a & c & R & I & Ha). exists a, (set_core c s).
  split; [by apply run_on_core|]. split; [by apply server_set_core|done].
Qed.
Lemma does_input_frames l nowMs : does server_inv (input_frames l nowMs) (fun _ => True).
Proof.
  induction l as [|frame l IH]; cbn [input_frames]; [by apply does_ret|].
  eapply does_bind; [apply does_on_core, safe_chaos_core_input|]. by intros _ _.
Qed.
Lemma does_stream_add_host spec : does server_inv (stream_add_host spec) (fun _ => True).
Proof.
  unfold stream_add_host. cbv zeta. intros s Hs. rewrite run_bind_gets. destruct (before_char _ _) as [[name value]|]; [|by eexists _, _].
  destruct (_ || _ || _) eqn:B; [by eexists _, _|]. destruct (strtoul8 value) as [a rest]. destruct (_ || _ || _ || _); [by eexists _, _|].
  eexists _, _. split; [done|]. split; [|done]. destruct Hs as [I C Hl]. constructor; try done. cbn [hosts set_hosts].
  apply orb_false_elim in B as [_ B%Z.leb_gt]. rewrite length_app. cbn [length]. lia.
Qed.
Lemma safe_next_timeout nowMs maxMs : safe (chaos_core_next_timeout nowMs maxMs) (fun _ => True).
Proof. unfold chaos_core_next_timeout. eapply safe_bind; [by apply (safe_gets _ (fun _ => True))|]. intros l _. by apply safe_ret. Qed.
Lemma does_perform_front o : does server_inv (perform_front o) (fun _ => True).
Proof.
  destruct o as [frame nowMs|nowMs|extraFd timeoutMs|nowMs|notifyFd|spec|nowMs]; cbn [perform_front].
  - apply does_on_core, safe_chaos_core_input.
  - apply does_on_core, safe_chaos_core_tick.
  - eapply does_bind; [apply does_stream_step, server_served|]. intros _ _. by apply does_ret.
  - apply does_stream_service, server_served.
  - unfold daemon_turn. eapply does_bind; [apply does_gets|]. intros log _.
    eapply does_bind; [apply does_on_core, safe_next_timeout|]. intros timeout _.
    eapply does_bind; [apply does_stream_step, server_served|]. intros frames _. eapply does_bind; [apply does_gets|]. intros log1 _. cbv zeta.
    eapply does_bind; [apply does_when; intros _; apply does_input_frames|]. intros _ _.
    eapply does_bind; [apply does_on_core, safe_chaos_core_tick|]. intros _ _. apply does_stream_service, server_served.
  - eapply does_bind; [apply does_stream_add_host|]. intros _ _. by apply does_ret.
  - unfold stream_shutdown. eapply does_bind; [by apply does_close_clients; [apply server_served|..]|]. intros _ _.
    eapply does_bind; [apply does_gets|]. intros listen _. apply does_when. intros _. eapply (does_bind _ _ _ (fun _ => True)).
    + intros s Hs. eexists _, _. split; [done|]. split; [by apply server_call|done].
    + intros _ _ s Hs. eexists _, _. split; [done|]. split; [|done]. by destruct Hs; constructor.
Qed.
Lemma stream_init_inv c : core_inv c -> server_inv (stream_init c).
Proof. intros I. constructor; [done| |done]. split; [apply length_replicate|apply Forall_replicate, free_client_inv]. Qed.

(** C9. The daemon never leaves a buffer of a client or an array of the core, and each of its
    turns ends, whatever its clients and the network do: from its set-up, with any descriptor
    to listen on, any sequence of operations runs to its end, and every client's request line,
    input and output are within their sizes. *)
Theorem stream_front_safe me mine name window now listen l : length mine = 6%nat -> 1 <= window <= CHAOS_RING / 2 ->
  exists s, perform_fronts l (set_listenFd listen (stream_init (chaosd_core me mine name window now))) = (Ok tt, s) /\ server_inv s.
Proof.
  intros Hm Hw. assert (server_inv (set_listenFd listen (stream_init (chaosd_core me mine name window now)))) as I.
  { destruct (stream_init_inv _ (chaosd_core_inv me mine name window now Hm Hw)) as [I1 I2 I3]. by constructor. }
  assert (does server_inv (perform_fronts l) (fun _ => True)) as Hd.
  { clear I Hm Hw. induction l as [|o l IH]; cbn [perform_fronts]; [by apply does_ret|]. eapply does_bind; [apply does_perform_front|]. by intros _ _. }
  destruct (Hd _ I) as ([] & s & R & Is & _). by exists s.
Qed.
End invariant.
