(* ===== verification/FrontDeliver.v ===== *)
(** What a client of the stream front end gets on its socket: the line that its connection has
    opened and then the peer's bytes, in order, each once, and all of them before its socket is
    shut; or, when the connection has closed before it was seen to be open, why. At the end, a
    host with one client and a peer across an unreliable network. *)

From S2P Require Export FrontSafe.
From Stdlib Require String Ascii.
Import String.StringSyntax.
#[local] Open Scope vlm_scope.

(** ** What has happened on a descriptor *)

Section log.
Context (d : Z).

Definition closes (c : SocketCall) : bool := match c with SockClose e => e =? d | _ => false end.
Definition closed (l : list SocketCall) : bool := existsb closes l.
Definition written (l : list SocketCall) : list Z :=
  concat (map (fun c => match c with SockWrote e bytes => if e =? d then bytes else [] | _ => [] end) l).
Fixpoint before_close (l : list SocketCall) : list SocketCall :=
  match l with [] => [] | c :: l' => if closes c then [] else c :: before_close l' end.

Lemma closed_app l1 l2 : closed (l1 ++ l2) = closed l1 || closed l2.
Proof. apply existsb_app. Qed.
Lemma written_app l1 l2 : written (l1 ++ l2) = written l1 ++ written l2.
Proof. unfold written. by rewrite map_app, concat_app. Qed.
Lemma before_close_open l : closed l = false -> before_close l = l.
Proof.
  induction l as [|c l IH]; [done|]. cbn [closed existsb before_close]. intros [-> Hl]%orb_false_elim. by rewrite IH.
Qed.
Lemma before_close_closed l1 l2 : closed l1 = true -> before_close (l1 ++ l2) = before_close l1.
Proof.
  induction l1 as [|c l1 IH]; [done|]. cbn [closed existsb before_close app]. destruct (closes c); [done|]. intros Hl. by rewrite IH.
Qed.
Lemma before_close_now l c : closed l = false -> closes c = true -> before_close (l ++ [c]) = l.
Proof.
  induction l as [|x l IH]; cbn [closed existsb before_close app]; [by intros _ ->|]. intros [-> Hl]%orb_false_elim Hc. by rewrite IH.
Qed.
Lemma is_open_app l1 l2 : is_open l1 d = true -> closed l2 = false -> is_open (l1 ++ l2) d = true.
Proof.
  unfold is_open. rewrite fold_left_app. intros ->. induction l2 as [|c l2 IH]; [done|]. cbn [closed existsb fold_left].
  intros [Hc Hl]%orb_false_elim. assert (match c with SockAccepted e => true || (e =? d) | SockClose e => true && negb (e =? d) | _ => true end = true) as ->.
  { destruct c; cbn [closes] in Hc; try done. simpl. by rewrite Hc. }
  by apply IH.
Qed.
(** A call on another descriptor. *)
Definition other_call (c : SocketCall) : Prop :=
  match c with SockRead e _ | SockWrote e _ | SockShutdown e | SockClose e => e <> d | _ => True end.
Lemma other_call_closes c : other_call c -> closes c = false.
Proof. destruct c; try done. cbn. by intros ?%Z.eqb_neq. Qed.
Lemma other_call_written c : other_call c -> written [c] = [].
Proof. destruct c as [|e bytes| | | |]; try done. cbn. intros ->%Z.eqb_neq. done. Qed.
End log.

(** ** The promise *)

Section deliver.
Context `{SocketLaws} (L : list (Z * list Z)) (base h i d a : Z) (log0 : list SocketCall).
Context (Hh : handle h) (Hi : handle i) (Hd : 0 <= d) (Hopen : is_open log0 d = true).

(** All that the socket may have got when it is shut. *)
Definition whole : list Z := opened_line a ++ stream L.
Definition shut_whole (l : list SocketCall) : Prop := forall l1 l2, l = l1 ++ SockShutdown d :: l2 -> written d l1 = whole.
Definition told (l : list SocketCall) : Prop :=
  (written d l `prefix_of` whole \/ exists k, state k = CONN_CLOSED /\ written d l `prefix_of` refusal k) /\ shut_whole l.

(** What is written and what is to be. *)
Definition pending (k : StreamClient) : list Z := drop (Z.to_nat (outOff k)) (out k).
Definition text (l : list SocketCall) (k : StreamClient) : list Z := written d l ++ pending k.

(** The client waits for its connection, or streams what the connection gives. *)
Inductive bridging (c : ChaosCore) (m : nat) (k : StreamClient) (t : list Z) : Prop :=
| bridging_waiting : client_state k = CLIENT_WAIT_OPN -> t = [] -> in_session L base h c [] m -> bridging c m k t
| bridging_stream got : client_state k = CLIENT_STREAM -> t = opened_line a ++ got -> in_session L base h c got m -> bridging c m k t.

Definition apart (others : StreamClient -> Prop) (s : StreamServer) : Prop :=
  forall j k, j <> i -> nth_Z (clients s) j = Some k -> fd k <> d /\ others k.
Record open_now (l : list SocketCall) (s : StreamServer) : Prop := {
  on_inv : server_inv s;
  on_log : socket_calls s = log0 ++ l;
  on_open : closed d l = false;
  on_shut : shut_whole l;
  on_listen : listenFd s <> d
}.
(** The client is at its place, and [R] holds of what its socket gets. *)
Definition serving (others : StreamClient -> Prop) (R : ChaosCore -> StreamClient -> list Z -> Prop) l k s : Prop :=
  open_now l s /\ apart others s /\ nth_Z (clients s) i = Some k /\ fd k = d /\ R (core s) k (text l k).
Definition at_bridge (m : nat) : list SocketCall -> StreamClient -> StreamServer -> Prop :=
  serving (fun k => client_conn k <> h) (fun c k t => client_conn k = h /\ client_addr k = a /\ bridging c m k t).
Definition at_refusal : list SocketCall -> StreamClient -> StreamServer -> Prop :=
  serving (fun _ => True) (fun c k t => client_conn k = -1 /\ client_state k = CLIENT_DRAIN /\
    exists kc, state kc = CONN_CLOSED /\ t `prefix_of` refusal kc).
Definition bridged_now (m : nat) (s : StreamServer) : Prop := exists l k, at_bridge m l k s.
Definition refused_now (s : StreamServer) : Prop := exists l k, at_refusal l k s.
Definition done_now (s : StreamServer) : Prop :=
  server_inv s /\ exists l, socket_calls s = log0 ++ l /\ closed d l = true /\ told (before_close d l).
Definition promise (m : nat) (s : StreamServer) : Prop := bridged_now m s \/ refused_now s \/ done_now s.

(** ** Other clients *)

Lemma shut_whole_app l c : (forall e, c = SockShutdown e -> e <> d) -> shut_whole l -> shut_whole (l ++ [c]).
Proof.
  intros Hc Hs l1 l2 E. destruct l2 as [|x l2 _] using rev_ind.
  - apply app_inj_tail in E as [-> ->]. by destruct (Hc d eq_refl).
  - rewrite app_comm_cons, app_assoc in E. apply app_inj_tail in E as [E _]. by apply (Hs l1 l2).
Qed.
Lemma open_call l s c : open_now l s -> closes d c = false -> (forall e, c = SockShutdown e -> e <> d) ->
  open_now (l ++ [c]) (set_socket_calls (socket_calls s ++ [c]) s).
Proof.
  intros [O1 O2 O3 O4 O5] Hc He. constructor; try done.
  - by apply server_call.
  - cbn [socket_calls set_socket_calls]. by rewrite O2, app_assoc.
  - rewrite closed_app, O3. cbn. by rewrite Hc.
  - by apply shut_whole_app.
Qed.
Lemma text_other l k c : other_call d c -> text (l ++ [c]) k = text l k.
Proof. intros Hc. unfold text. by rewrite written_app, other_call_written, app_nil_r. Qed.
Lemma other_shutdown c : other_call d c -> forall e, c = SockShutdown e -> e <> d.
Proof. by intros Hc e ->. Qed.
Lemma open_set l s j k : open_now l s -> client_inv k -> open_now l (set_clients (upd_Z (clients s) j k) s).
Proof. intros [O1 O2 O3 O4 O5] Hk. constructor; try done. by apply server_set. Qed.
Lemma open_core l s c : open_now l s -> core_inv c -> open_now l (set_core c s).
Proof. intros [O1 O2 O3 O4 O5] Hc. constructor; try done. by apply server_set_core. Qed.
Lemma apart_set (others : StreamClient -> Prop) s j k : apart others s -> (j <> i -> fd k <> d /\ others k) ->
  apart others (set_clients (upd_Z (clients s) j k) s).
Proof.
  intros Ha Hk j' k' Hj E. cbn [clients set_clients] in E. destruct (decide (j = j')) as [<-|Hne].
  - rewrite nth_upd_eq in E; [injection E as <-; by apply Hk|]. apply nth_Z_bounds in E. by rewrite upd_Z_length in E.
  - rewrite nth_upd_ne in E by done. by apply (Ha j').
Qed.

Lemma in_session_spares {A} (m0 : Core A) c got m r c' : spares h m0 -> core_inv c' -> in_session L base h c got m ->
  m0 c = (r, c') -> in_session L base h c' got m.
Proof.
  intros Hs I' (I & k & n & off & E & O & R & ->) Run. destruct (Hs c k E O) as (k' & E' & V & O'). rewrite Run in E'.
  split; [done|]. exists k', n, off. split_and!; try done. by eapply receiving_view.
Qed.
Lemma bridging_core {A} (m0 : Core A) c m k t r c' : spares h m0 -> core_inv c' -> bridging c m k t -> m0 c = (r, c') -> bridging c' m k t.
Proof.
  intros Hs I' [Hk Ht Hc|got Hk Ht Hc] Run; [apply bridging_waiting|apply (bridging_stream _ _ _ _ got)]; try done; by eapply in_session_spares.
Qed.
Lemma bridging_opened c m k t : bridging c m k t -> exists kc, conn_at h c = Some kc /\ opened kc = true.
Proof. intros [_ _ (_ & kc & _ & _ & E & O & _)|got _ _ (_ & kc & _ & _ & E & O & _)]; by exists kc. Qed.
Lemma at_bridge_core {A} (m0 : Core A) m l k s Q : safe m0 Q -> spares h m0 -> at_bridge m l k s ->
  exists r c', m0 (core s) = (Ok r, c') /\ Q r /\ at_bridge m l k (set_core c' s).
Proof.
  intros Hm Hs (O & Ap & E & Ed & Ec & Ea & Hb). destruct (Hm _ (server_core _ (on_inv _ _ O))) as (r & c' & Run & I' & Hr).
  exists r, c'. split; [done|]. split; [done|]. split; [by apply open_core|]. split_and!; try done. by eapply bridging_core.
Qed.

Lemma bridged_frame m j : handle j -> j <> i -> frame (bridged_now m) (fun e => e <> d) (fun x => x <> h) j.
Proof.
  intros Hj Hne. constructor.
  - intros s (l & k & O & Ap & _). destruct (server_client s j (on_inv _ _ O) Hj) as (k' & E & G). exists k'. split; [done|].
    destruct (Ap j k' Hne E). done.
  - intros s k' (l & k & O & Ap & E & Hk) (G & Gf & Gc). exists l, k. split; [by apply open_set|]. split; [by apply apart_set|].
    split; [|exact Hk]. cbn [clients set_clients]. by rewrite nth_upd_ne.
  - intros s c (l & k & O & Ap & E & Ed & Ec & Ea & Hb) Hc. assert (other_call d c) as Ho by (destruct c; done).
    exists (l ++ [c]), k. split; [apply open_call; [done|by apply other_call_closes|by apply other_shutdown]|].
    split_and!; try done. by rewrite text_other.
  - intros A m0 Q Hm Hs s (l & k & Hb). destruct (at_bridge_core m0 m l k s Q Hm) as (r & c' & Run & Hr & Hb'); [apply Hs; lia|done|].
    exists r, (set_core c' s). split; [by apply run_on_core|]. split; [by exists l, k|done].
  - intros a0 contact nowMs s (l & k & Hb). destruct (at_bridge_core (chaos_open a0 contact nowMs) m l k s _ (safe_chaos_open a0 contact nowMs) (spares_chaos_open h a0 contact nowMs) Hb) as (r & c' & Run & _ & Hb').
    exists r, (set_core c' s). split; [by apply run_on_core|]. split; [by exists l, k|].
    destruct Hb as (_ & _ & _ & _ & _ & _ & Hb). destruct (bridging_opened _ _ _ _ Hb) as (kc & E & O).
    eapply chaos_open_other; [|exact E|exact O|exact Run]. unfold handle in Hh. lia.
  - unfold handle in Hh. lia.
Qed.
Lemma refused_frame j : handle j -> j <> i -> frame refused_now (fun e => e <> d) (fun _ => True) j.
Proof.
  intros Hj Hne. assert (forall A (m0 : Core A) Q, safe m0 Q -> does refused_now (on_core m0) Q) as Hcore.
  { intros A m0 Q Hm s (l & k & O & Hk). destruct (Hm _ (server_core _ (on_inv _ _ O))) as (r & c' & Run & I' & Hr).
    exists r, (set_core c' s). split; [by apply run_on_core|]. split; [|done]. exists l, k. split; [by apply open_core|exact Hk]. }
  constructor.
  - intros s (l & k & O & Ap & _). destruct (server_client s j (on_inv _ _ O) Hj) as (k' & E & G). exists k'. split; [done|].
    destruct (Ap j k' Hne E). done.
  - intros s k' (l & k & O & Ap & E & Hk) (G & Gf & Gc). exists l, k. split; [by apply open_set|]. split; [by apply apart_set|].
    split; [|exact Hk]. cbn [clients set_clients]. by rewrite nth_upd_ne.
  - intros s c (l & k & O & Ap & E & Ed & Ec & Es & Hr) Hc. assert (other_call d c) as Ho by (destruct c; done).
    exists (l ++ [c]), k. split; [apply open_call; [done|by apply other_call_closes|by apply other_shutdown]|].
    split_and!; try done. by rewrite text_other.
  - intros A m0 Q Hm _. by apply Hcore.
  - intros a0 contact nowMs. eapply does_weaken; [apply Hcore, safe_chaos_open|done].
  - split; [lia|done].
Qed.
Lemma done_frame j : handle j -> frame done_now (fun _ => True) (fun _ => True) j.
Proof.
  intros Hj. assert (forall A (m0 : Core A) Q, safe m0 Q -> does done_now (on_core m0) Q) as Hcore.
  { intros A m0 Q Hm s (I & Hl). destruct (Hm _ (server_core _ I)) as (r & c' & Run & I' & Hr).
    exists r, (set_core c' s). split; [by apply run_on_core|]. split; [|done]. split; [by apply server_set_core|exact Hl]. }
  constructor; try done.
  - intros s (I & _). destruct (server_client s j I Hj) as (k' & E & G). by exists k'.
  - intros s k' (I & Hl) (G & _). split; [by apply server_set|exact Hl].
  - intros s c (I & l & El & Hc & Ht) _. split; [by apply server_call|]. exists (l ++ [c]). cbn [socket_calls set_socket_calls].
    split_and!; [by rewrite El, app_assoc|by rewrite closed_app, Hc|by rewrite before_close_closed].
  - intros A m0 Q Hm _. by apply Hcore.
  - intros a0 contact nowMs. apply Hcore, safe_chaos_open.
Qed.

(** ** The client itself *)

Section own.
Context (others : StreamClient -> Prop) (R : ChaosCore -> StreamClient -> list Z -> Prop).
Context (Rstable : forall c k k' t, R c k t -> client_state k' = client_state k -> client_conn k' = client_conn k ->
  client_addr k' = client_addr k -> R c k' t).
Context (Rtold : forall c k l t, R c k t -> written d l `prefix_of` t -> shut_whole l -> told l).
#[local] Abbreviation serving := (serving others R).

Lemma nth_own s k k' : nth_Z (clients s) i = Some k -> nth_Z (clients (set_clients (upd_Z (clients s) i k') s)) i = Some k'.
Proof. intros E. apply nth_upd_eq. by eapply nth_Z_bounds. Qed.
Lemma serving_set l k k' s : serving l k s -> client_inv k' -> fd k' = fd k -> client_state k' = client_state k ->
  client_conn k' = client_conn k -> client_addr k' = client_addr k -> pending k' = pending k ->
  serving l k' (set_clients (upd_Z (clients s) i k') s).
Proof.
  intros (O & Ap & E & Ed & HR) Hk E1 E2 E3 E4 E5. split; [by apply open_set|]. split; [by apply apart_set|].
  split; [by eapply nth_own|]. split; [congruence|]. unfold text. rewrite E5. by apply (Rstable _ k).
Qed.
Lemma serving_call l k s c : serving l k s -> closes d c = false -> (forall e, c <> SockShutdown e) -> written d [c] = [] ->
  serving (l ++ [c]) k (set_socket_calls (socket_calls s ++ [c]) s).
Proof.
  intros (O & Ap & E & Ed & HR) Hc Hs Hw. split; [apply open_call; [done|done|intros e He; by destruct (Hs e)]|]. split_and!; try done.
  unfold text. by rewrite written_app, Hw, app_nil_r.
Qed.
Lemma serving_told l k s : serving l k s -> told l.
Proof. intros (O & Ap & E & Ed & HR). eapply Rtold; [exact HR| |exact (on_shut _ _ O)]. by exists (pending k). Qed.
Lemma close_done l k s why nowMs : serving l k s -> exists s', client_close i why nowMs s = (Ok tt, s') /\ done_now s'.
Proof.
  intros Hs. pose proof (serving_told _ _ _ Hs) as Ht. destruct Hs as ([O1 O2 O3 O4 O5] & _ & E & Ed & _).
  unfold client_close, get_client. rewrite run_bind_assoc, run_bind_gets, (run_bind_option k) by done.
  assert (exists s1, when (0 <=? client_conn k) (on_core (chaos_release (client_conn k) why nowMs)) s = (Ok tt, s1) /\ server_inv s1 /\ socket_calls s1 = socket_calls s)
    as (s1 & R1 & I1 & L1).
  { destruct (0 <=? client_conn k); cbn [when]; [|by exists s].
    destruct (safe_chaos_release (client_conn k) why nowMs _ (server_core _ O1)) as ([] & c' & Run & I' & _). eexists.
    split; [by apply run_on_core|]. split; [by apply server_set_core|done]. }
  erewrite bind_Ok by exact R1. rewrite Ed. destruct (Z.leb_spec 0 d); [|lia]. cbn [when]. unfold call. rewrite run_bind_modify.
  eexists. split; [done|]. split; [apply server_set; [by apply server_call|apply free_client_inv]|].
  exists (l ++ [SockClose d]). cbn [socket_calls set_socket_calls set_clients]. rewrite L1, O2, app_assoc. split; [done|].
  assert (closes d (SockClose d) = true) as Hc by (simpl; by rewrite Z.eqb_refl).
  split; [rewrite closed_app, O3; cbn [closed existsb]; by rewrite Hc|]. by rewrite before_close_now.
Qed.

(** Writing: what is written was pending. *)
Lemma serving_write_loop nowMs : forall fuel l k s, serving l k s -> (Z.to_nat (outLen k - outOff k) < fuel)%nat ->
  exists b s', loop fuel (write_turn i nowMs) tt s = (Ok b, s') /\
    if b : bool then exists l' k', serving l' k' s' /\ core s' = core s /\ client_state k' = client_state k /\ client_conn k' = client_conn k
    else done_now s'.
Proof.
  induction fuel as [|fuel IH]; intros l k s Hs Hf; [lia|]. pose proof Hs as (O & Ap & E & Ed & HR).
  destruct (server_client s i (on_inv _ _ O) Hi) as (k0 & E0 & G). assert (k0 = k) as -> by congruence. clear E0. pose proof G as [C1 C2 [C3 C4]].
  cbn [loop]. unfold write_turn at 1, get_client. rewrite !run_bind_assoc, run_bind_gets, (run_bind_option k) by done.
  destruct (Z.ltb_spec (outOff k) (outLen k)) as [Hlt|Hge].
  - cbv zeta. rewrite run_bind_assoc, run_bind_gets. change (drop _ (out k)) with (pending k).
    assert (serving (l ++ [SockWrote (fd k) []]) k (set_socket_calls (socket_calls s ++ [SockWrote (fd k) []]) s)) as Hno.
    { apply serving_call; try done. cbn. by destruct (fd k =? d). }
    destruct (write_result _ _ _) as [n| |] eqn:Ew.
    + apply write_some in Ew. assert (Z.of_nat (length (pending k)) = outLen k - outOff k) as Lb
        by (unfold pending, outLen in *; rewrite length_drop; lia).
      unfold call, set_client. rewrite !run_bind_assoc, run_bind_modify, run_bind_assoc, run_bind_modify, run_bind_ret.
      set (bytes := take (Z.to_nat n) (pending k)). set (k1 := set_outOff (outOff k + n) k).
      set (s1 := set_socket_calls (socket_calls s ++ [SockWrote (fd k) bytes]) s). set (s2 := set_clients _ s1).
      assert (pending k = bytes ++ pending k1) as Hp.
      { unfold bytes, pending at 3. cbn [k1 set_outOff outOff out]. rewrite <- (take_drop (Z.to_nat n) (pending k)) at 1. f_equal.
        unfold pending. rewrite drop_drop. f_equal. lia. }
      assert (written d [SockWrote (fd k) bytes] = bytes) as Hw by (cbn; by rewrite Ed, Z.eqb_refl, app_nil_r).
      assert (serving (l ++ [SockWrote (fd k) bytes]) k1 s2) as H2.
      { split; [apply open_set; [by apply open_call|]|].
        - constructor; try done. change (outLen k1) with (outLen k). change (outOff k1) with (outOff k + n). lia.
        - split; [apply apart_set; [exact Ap|done]|]. split; [by eapply (nth_own s1)|]. split; [done|].
          unfold text. rewrite written_app, Hw, <- app_assoc, <- Hp. by apply (Rstable _ k). }
      destruct (IH _ _ _ H2) as (b & s' & Run & Hb).
      { change (outLen k1) with (outLen k). change (outOff k1) with (outOff k + n). lia. }
      exists b, s'. split; [done|]. by destruct b.
    + unfold call. rewrite run_bind_assoc, run_bind_modify, run_bind_ret. eexists true, _. split; [done|]. exists (l ++ [SockWrote (fd k) []]), k.
      split; [exact Hno|done].
    + unfold call. rewrite !run_bind_assoc, run_bind_modify, run_bind_assoc.
      destruct (close_done _ _ _ (bytes_of_string "Connection closed by user") nowMs Hno) as (s' & Run & Hd').
      erewrite bind_Ok by exact Run. by eexists false, _.
  - unfold set_client. rewrite run_bind_assoc, run_bind_modify, run_bind_ret. eexists true, _. split; [done|].
    exists l, (set_outOff 0 (set_out [] k)). split; [|done]. apply (serving_set l k); try done.
    unfold pending. cbn [outOff out set_outOff set_out]. rewrite drop_nil. symmetry. apply drop_ge. unfold outLen in *. lia.
Qed.
Lemma serving_write nowMs l k s : serving l k s -> exists b s', client_write i nowMs s = (Ok b, s') /\
  if b : bool then exists l' k', serving l' k' s' /\ core s' = core s /\ client_state k' = client_state k /\ client_conn k' = client_conn k
  else done_now s'.
Proof.
  intros Hs. apply (serving_write_loop nowMs write_fuel l k); [done|]. destruct Hs as (O & _ & E & _).
  destruct (server_client s i (on_inv _ _ O) Hi) as (k0 & E0 & [_ _ [C3 C4]]). assert (k0 = k) as -> by congruence.
  unfold write_fuel. apply Nat.lt_succ_r, Z2Nat.inj_le; lia.
Qed.

(** Reading changes only what comes from the client. *)
Lemma run_get_client {B} s k (f : StreamClient -> Front B) : nth_Z (clients s) i = Some k -> bind (get_client i) f s = f k s.
Proof. intros E. unfold get_client. rewrite run_bind_assoc, run_bind_gets. by apply run_bind_option. Qed.
Lemma run_on_client s k f : nth_Z (clients s) i = Some k -> on_client i f s = (Ok tt, set_clients (upd_Z (clients s) i (f k)) s).
Proof. intros E. unfold on_client. by rewrite (run_get_client s k). Qed.
Lemma serving_client l k s : serving l k s -> client_inv k.
Proof.
  intros (O & _ & E & _). destruct (server_client s i (on_inv _ _ O) Hi) as (k0 & E0 & G). by assert (k0 = k) as <- by congruence.
Qed.
Lemma serving_flag l k s f : serving l k s -> (forall k, inb (f k) = inb k /\ line (f k) = line k /\ out (f k) = out k /\ outOff (f k) = outOff k /\
    fd (f k) = fd k /\ client_state (f k) = client_state k /\ client_conn (f k) = client_conn k /\ client_addr (f k) = client_addr k) ->
  exists s', on_client i f s = (Ok tt, s') /\ serving l (f k) s' /\ core s' = core s.
Proof.
  intros Hs Hf. destruct (Hf k) as (E1 & E2 & E3 & E4 & E5 & E6 & E7 & E8). pose proof Hs as (_ & _ & E & _). eexists.
  split; [by apply run_on_client|]. split; [|done]. apply (serving_set l k); try done.
  - apply (client_inv_frame k); [by eapply serving_client|done..].
  - unfold pending. by rewrite E3, E4.
Qed.
Lemma serving_read nowMs l k s : serving l k s -> client_state k <> CLIENT_LINE -> exists s', client_read i nowMs s = (Ok tt, s') /\
  ((exists l' k', serving l' k' s' /\ core s' = core s) \/ done_now s').
Proof.
  intros Hs Hst. pose proof Hs as (O & Ap & E & Ed & HR). pose proof (serving_client _ _ _ Hs) as G. pose proof G as [C1 C2 C3].
  assert (forall l k s0, serving l k s0 -> core s0 = core s -> forall s1, (Ok tt, s0) = (Ok tt, s1) ->
    (exists l' k', serving l' k' s1 /\ core s1 = core s) \/ done_now s1) as Hin by (intros l1 k1 s0 S1 S2 s1 [= <-]; left; by exists l1, k1).
  unfold client_read. rewrite (run_get_client s k) by done. rewrite bool_decide_eq_false_2 by done. cbv zeta.
  set (want := STREAM_INBUF - _). assert (0 <= want <= STREAM_INBUF) as Hw by (unfold want, STREAM_INBUF in *; lia).
  destruct (want =? 0); [exists s; split; [done|]; by eapply Hin|]. destruct (Z.ltb_spec STREAM_INBUF want); [lia|].
  unfold sock_read. rewrite run_bind_assoc, run_bind_gets, run_bind_assoc. unfold call at 1. rewrite run_bind_modify, run_bind_ret.
  set (s1 := set_socket_calls _ s). assert (serving (l ++ [SockRead (fd k) want]) k s1) as S1 by (by apply serving_call).
  destruct (read_result _ _ _) as [buf| | |] eqn:Er.
  - apply read_some in Er. set (buf' := if skipLf k then _ else _). assert (length buf' <= length buf)%nat as Hb.
    { unfold buf'. destruct (skipLf k); [|done]. destruct buf as [|b buf0]; [done|]. simpl.
      repeat match goal with |- context [match ?x with _ => _ end] => destruct x; cbn [length]; try lia end. }
    clearbody buf'. assert (exists k2 s2, when (skipLf k) (on_client i (set_skipLf false)) s1 = (Ok tt, s2) /\
      serving (l ++ [SockRead (fd k) want]) k2 s2 /\ core s2 = core s /\ inb k2 = inb k) as (k2 & s2 & R2 & S2 & C & Ei).
    { destruct (skipLf k); cbn [when]; [|by exists k, s1].
      destruct (serving_flag _ k s1 (set_skipLf false) S1) as (s2 & R2 & S2 & Ec); [done|]. by exists (set_skipLf false k), s2. }
    erewrite bind_Ok by exact R2. rewrite length_app. destruct (Z.ltb_spec STREAM_INBUF (Z.of_nat (length (inb k) + length buf'))).
    { unfold want in *. lia. }
    pose proof (serving_client _ _ _ S2) as [D1 D2 D3]. pose proof S2 as (_ & _ & E2 & _).
    eexists. split; [by apply run_on_client|]. left. eexists _, _. split; [|exact C]. apply (serving_set _ k2); try done.
    constructor; try done. cbn [inb set_inb]. rewrite length_app. lia.
  - destruct (false || _).
    + destruct (close_done _ _ _ (bytes_of_string "Connection aborted by user") nowMs S1) as (s' & Run & Hd'). exists s'. auto.
    + destruct (serving_flag _ k s1 (set_sockEof true) S1) as (s2 & R2 & S2 & Ec); [done|]. exists s2. split; [done|]. by eapply Hin.
  - exists s1. split; [done|]. by eapply Hin.
  - destruct (close_done _ _ _ (bytes_of_string "Connection aborted by user") nowMs S1) as (s' & Run & Hd'). exists s'. auto.
Qed.
End own.

(** ** Its connection *)

Lemma bridging_same c m k k' t : bridging c m k t -> client_state k' = client_state k -> bridging c m k' t.
Proof. intros [H1 H2 H3|got H1 H2 H3] E; [apply bridging_waiting|apply (bridging_stream _ _ _ _ got)]; congruence. Qed.
Lemma bridge_stable m : forall (c : ChaosCore) (k k' : StreamClient) t, client_conn k = h /\ client_addr k = a /\ bridging c m k t ->
  client_state k' = client_state k -> client_conn k' = client_conn k -> client_addr k' = client_addr k ->
  client_conn k' = h /\ client_addr k' = a /\ bridging c m k' t.
Proof. intros c k k' t (E1 & E2 & Hb) F1 F2 F3. split_and!; [congruence..|]. by eapply bridging_same. Qed.
Lemma bridge_told m : forall (c : ChaosCore) (k : StreamClient) l t, client_conn k = h /\ client_addr k = a /\ bridging c m k t ->
  written d l `prefix_of` t -> shut_whole l -> told l.
Proof.
  intros c k l t (_ & _ & Hb) Hp Hs. split; [|done]. left. etrans; [exact Hp|].
  destruct Hb as [_ -> _|got _ -> (I & k0 & n & off & E & O & R & ->)]; [apply prefix_nil|]. apply prefix_app. by eapply receiving_prefix.
Qed.
Lemma refusal_stable : forall (c : ChaosCore) (k k' : StreamClient) t, client_conn k = -1 /\ client_state k = CLIENT_DRAIN /\
    (exists kc, state kc = CONN_CLOSED /\ t `prefix_of` refusal kc) ->
  client_state k' = client_state k -> client_conn k' = client_conn k -> client_addr k' = client_addr k ->
  client_conn k' = -1 /\ client_state k' = CLIENT_DRAIN /\ exists kc, state kc = CONN_CLOSED /\ t `prefix_of` refusal kc.
Proof. intros c k k' t (E1 & E2 & Hb) F1 F2 F3. split_and!; [congruence..|done]. Qed.
Lemma refusal_told : forall (c : ChaosCore) (k : StreamClient) l t, client_conn k = -1 /\ client_state k = CLIENT_DRAIN /\
    (exists kc, state kc = CONN_CLOSED /\ t `prefix_of` refusal kc) -> written d l `prefix_of` t -> shut_whole l -> told l.
Proof. intros c k l t (_ & _ & kc & Hk & Ht) Hp Hs. split; [|done]. right. exists kc. split; [done|]. by etrans. Qed.

Lemma run_conn_for_handle c kc : conn_at h c = Some kc -> opened kc = true -> conn_for_handle h c = (Ok (Some kc), c).
Proof.
  intros E O. unfold conn_for_handle. unfold handle in Hh. destruct (Z.ltb_spec h 0); [lia|]. destruct (Z.leb_spec CHAOS_MAX_CONNS h); [lia|]. cbn [orb].
  rewrite (run_get_conn h kc) by done. rewrite bool_decide_eq_false_2; [done|]. intros Hf. unfold opened in O. by rewrite Hf in O.
Qed.
Lemma set_core_same s : set_core (core s) s = s.
Proof. by destruct s. Qed.
Lemma run_out_append s k bytes : server_inv s -> nth_Z (clients s) i = Some k -> exists n,
  (n = length bytes \/ STREAM_OUTBUF < outLen k - outOff k + Z.of_nat (length bytes)) /\
  let k' := set_out (pending k ++ take n bytes) (out_compact k) in
  client_inv k' /\ out_append i bytes s = (Ok tt, set_clients (upd_Z (clients s) i k') s).
Proof.
  intros I E. destruct (server_client s i I Hi) as (k0 & E0 & G). assert (k0 = k) as -> by congruence. clear E0.
  pose proof (client_inv_compact k G) as Gc. pose proof G as [C1 C2 [C3 C4]].
  assert (Z.of_nat (length (pending k)) = outLen k - outOff k) as Lp by (unfold pending, outLen in *; rewrite length_drop; lia).
  unfold out_append. erewrite bind_Ok by (by apply run_on_client). set (s1 := set_clients _ s).
  rewrite (run_get_client s1 (out_compact k)) by (by eapply nth_own). change (outLen (out_compact k)) with (Z.of_nat (length (pending k))). rewrite Lp.
  assert (u64 (STREAM_OUTBUF - (outLen k - outOff k)) = STREAM_OUTBUF - (outLen k - outOff k)) as -> by (apply Z.mod_small; unfold STREAM_OUTBUF, outLen in *; lia).
  cbv zeta. set (n := if STREAM_OUTBUF - (outLen k - outOff k) <? _ then _ else _).
  assert (0 <= n <= STREAM_OUTBUF - (outLen k - outOff k) /\ (n = Z.of_nat (length bytes) \/ STREAM_OUTBUF < outLen k - outOff k + Z.of_nat (length bytes))) as [Hn Hor].
  { unfold n, outLen in *. destruct (Z.ltb_spec (STREAM_OUTBUF - (Z.of_nat (length (out k)) - outOff k)) (Z.of_nat (length bytes))); lia. }
  clearbody n. destruct (Z.ltb_spec STREAM_OUTBUF (outLen k - outOff k + n)); [lia|]. exists (Z.to_nat n). split; [lia|]. split.
  - constructor; try done. unfold outLen. cbn [outOff out set_out out_compact set_outOff]. rewrite length_app, length_take. lia.
  - unfold set_client, modify, s1. cbn [clients set_clients]. by rewrite upd_Z_twice.
Qed.
Lemma octal_digits_length n : forall v, (length (octal_digits n v) <= n)%nat.
Proof. induction n as [|n IH]; intros v; cbn [octal_digits]; [done|]. rewrite length_app. cbn [length]. destruct (v <? 8); [cbn; lia|]. specialize (IH (v / 8)). lia. Qed.
Lemma opened_line_length v : Z.of_nat (length (opened_line v)) <= STREAM_OUTBUF.
Proof.
  unfold opened_line. rewrite !length_app. pose proof (octal_digits_length 22 v). fold (octal v) in *.
  change (length (bytes_of_string "OPN Connection to host ")) with 23%nat. change (length [13; 10]) with 2%nat. unfold STREAM_OUTBUF. lia.
Qed.

(** The connection has opened, or closed before that was seen. *)
Lemma bridge_waiting m l k s nowMs : at_bridge m l k s -> client_state k = CLIENT_WAIT_OPN -> exists b s',
  service_waiting i nowMs s = (Ok b, s') /\
  if b : bool then exists k', at_bridge m l k' s' /\ client_state k' = CLIENT_STREAM else exists k', at_refusal l k' s'.
Proof.
  intros Hb Hst. pose proof Hb as (O & Ap & E & Ed & Ec & Ea & Hp).
  destruct Hp as [_ Ht Hc|got Hst' _ _]; [|congruence]. pose proof Hc as (I & kc & n0 & off & Ek & Ok0 & R & Hgot).
  assert (pending k = [] /\ written d l = []) as [Hp Hw] by (unfold text in Ht; by apply app_eq_nil in Ht as [-> ->]).
  unfold service_waiting. rewrite (run_get_client s k) by done. rewrite Ec.
  erewrite bind_Ok by (apply run_on_core; by apply run_conn_for_handle). rewrite set_core_same.
  destruct (state kc) eqn:Es; try (unfold opened in Ok0; by rewrite Es in Ok0).
  - destruct (run_out_append s k (opened_line (client_addr k)) (on_inv _ _ O) E) as (n & Hn & G & Ra). cbv zeta in G, Ra.
    erewrite bind_Ok by exact Ra. set (k1 := set_out _ _) in *. set (s1 := set_clients _ s).
    erewrite bind_Ok by (apply (run_on_client s1 k1); by eapply nth_own). eexists true, _. split; [done|].
    exists (set_client_state CLIENT_STREAM k1). split; [|done].
    split; [apply open_set; [by apply open_set|by apply (client_inv_frame k1)]|]. split; [by do 2 (apply apart_set; [|done])|]. split; [by eapply (nth_own s1), nth_own|].
    split; [done|]. split; [done|]. split; [done|]. apply (bridging_stream _ _ _ _ []); [done| |done].
    unfold text. rewrite Hw, app_nil_r. unfold pending. cbn [set_client_state k1 set_out out outOff out_compact set_outOff]. rewrite drop_0, Hp.
    destruct Hn as [->|Hn]; [by rewrite firstn_all, Ea|]. pose proof (opened_line_length (client_addr k)).
    destruct (server_client s i (on_inv _ _ O) Hi) as (k0 & E0 & [_ _ [C3 C4]]). assert (k0 = k) as -> by congruence.
    assert (Z.of_nat (length (pending k)) = outLen k - outOff k) as Lp by (unfold pending, outLen in *; rewrite length_drop; lia).
    rewrite Hp in Lp. cbn [length] in Lp. lia.
  - destruct (run_out_append s k (refusal kc) (on_inv _ _ O) E) as (n & Hn & G & Ra). cbv zeta in G, Ra.
    erewrite bind_Ok by exact Ra. set (k1 := set_out _ _) in *. set (s1 := set_clients _ s).
    destruct (safe_chaos_release h [] nowMs (core s) (server_core _ (on_inv _ _ O))) as ([] & c' & Run & I' & _).
    erewrite bind_Ok by (by apply run_on_core). set (s2 := set_core c' s1).
    erewrite bind_Ok by (apply (run_on_client s2 k1); by eapply nth_own). set (s3 := set_clients _ s2).
    erewrite bind_Ok by (apply (run_on_client s3 (set_client_conn (-1) k1)); by eapply (nth_own s2), nth_own). eexists false, _. split; [done|].
    exists (set_client_state CLIENT_DRAIN (set_client_conn (-1) k1)). assert (apart (fun _ => True) s) as Ap0 by (intros j k' Hj Ej; by destruct (Ap j k' Hj Ej)).
    split; [apply open_set; [apply open_set; [apply open_core; [by apply open_set|done]|]|]; by apply (client_inv_frame k1)|].
    split; [by do 3 (apply apart_set; [|done])|]. split; [by eapply (nth_own s3), (nth_own s2), nth_own|].
    split; [done|]. split; [done|]. split; [done|]. exists kc. split; [done|]. unfold text. rewrite Hw. unfold pending.
    cbn [set_client_state set_client_conn k1 set_out out outOff out_compact set_outOff app]. rewrite drop_0, Hp. apply prefix_take.
Qed.

(** The client's bytes go out; nothing else changes. *)
Lemma at_bridge_on {A B} m l k s (m0 : Core A) Q (f : A -> Front B) : safe m0 Q -> spares h m0 -> at_bridge m l k s ->
  exists r s', bind (on_core m0) f s = f r s' /\ Q r /\ at_bridge m l k s'.
Proof.
  intros Hm Hs Hb. destruct (at_bridge_core m0 m l k s Q Hm Hs Hb) as (r & c' & Run & Hr & Hb'). exists r, (set_core c' s).
  split; [|done]. by erewrite bind_Ok by (by apply run_on_core).
Qed.
Lemma bridge_send m l k s nowMs : at_bridge m l k s -> exists k' s', service_send i h nowMs s = (Ok tt, s') /\ at_bridge m l k' s' /\ client_state k' = client_state k.
Proof.
  intros Hb. unfold service_send. pose proof Hb as (_ & _ & E & _). rewrite (run_get_client s k) by done.
  destruct (at_bridge_on m l k s (get_conn h) conn_inv (fun conn =>
    when ((0 <? Z.of_nat (length (inb k))) && bool_decide (state conn = CONN_OPEN))
      (n <- on_core (chaos_send (client_conn k) (inb k) nowMs) ;;
       when (0 <? n) (on_client i (fun k => set_inb (drop (Z.to_nat n) (inb k)) k))) ;;
    k <- get_client i ;; conn <- on_core (get_conn h) ;;
    when (sockEof k && bool_decide (inb k = []) && negb (finished k) && bool_decide (state conn = CONN_OPEN))
      (on_core (chaos_finish (client_conn k) nowMs) ;; on_client i (set_finished true)))) as (conn & s1 & -> & _ & B1);
    [by apply safe_get_conn|apply spares_get_conn|done|].
  assert (exists k2 s2, when ((0 <? Z.of_nat (length (inb k))) && bool_decide (state conn = CONN_OPEN))
      (n <- on_core (chaos_send (client_conn k) (inb k) nowMs) ;;
       when (0 <? n) (on_client i (fun k => set_inb (drop (Z.to_nat n) (inb k)) k))) s1 = (Ok tt, s2) /\
    at_bridge m l k2 s2 /\ client_state k2 = client_state k) as (k2 & s2 & R2 & B2 & S2).
  { destruct (_ && _); cbn [when]; [|by exists k, s1].
    destruct (at_bridge_on m l k s1 (chaos_send (client_conn k) (inb k) nowMs) (fun _ => True) (fun n =>
      when (0 <? n) (on_client i (fun k => set_inb (drop (Z.to_nat n) (inb k)) k)))) as (n & s2 & -> & _ & B2);
      [apply safe_chaos_send|apply spares_chaos_send|done|].
    destruct (0 <? n); cbn [when]; [|by exists k, s2]. pose proof B2 as (_ & _ & E2 & _).
    exists (set_inb (drop (Z.to_nat n) (inb k)) k), (set_clients (upd_Z (clients s2) i (set_inb (drop (Z.to_nat n) (inb k)) k)) s2).
    split; [exact (run_on_client s2 k (fun k => set_inb (drop (Z.to_nat n) (inb k)) k) E2)|]. split; [|done]. apply (serving_set (fun k => client_conn k <> h) _ (bridge_stable m) l k); try done.
    destruct (serving_client _ _ l k s2 B2) as [C1 C2 C3]. constructor; try done. cbn [inb set_inb]. rewrite length_drop. lia. }
  erewrite bind_Ok by exact R2. pose proof B2 as (_ & _ & E2 & _). rewrite (run_get_client s2 k2) by done.
  destruct (at_bridge_on m l k2 s2 (get_conn h) conn_inv (fun conn =>
    when (sockEof k2 && bool_decide (inb k2 = []) && negb (finished k2) && bool_decide (state conn = CONN_OPEN))
      (on_core (chaos_finish (client_conn k2) nowMs) ;; on_client i (set_finished true)))) as (conn3 & s3 & -> & _ & B3);
    [by apply safe_get_conn|apply spares_get_conn|done|].
  destruct (_ && _ && _ && _); cbn [when]; [|by exists k2, s3].
  destruct (at_bridge_on m l k2 s3 (chaos_finish (client_conn k2) nowMs) (fun _ => True) (fun _ => on_client i (set_finished true))) as ([] & s4 & -> & _ & B4);
    [apply safe_chaos_finish|apply spares_chaos_finish|done|].
  destruct (serving_flag _ _ (bridge_stable m) l k2 s4 (set_finished true) B4) as (s5 & R5 & B5 & _); [done|]. by exists (set_finished true k2), s5.
Qed.

(** A read appends what it returns to what is to be written. *)
Lemma bridge_recv_read m l k s nowMs : at_bridge m l k s -> client_state k = CLIENT_STREAM -> outOff k = 0 -> exists k' s',
  when (outLen k <? STREAM_OUTBUF)
    (bytes <- on_core (chaos_recv (client_conn k) (STREAM_OUTBUF - outLen k) nowMs) ;;
     set_client i (set_out (out k ++ bytes) k)) s = (Ok tt, s') /\ at_bridge m l k' s' /\ client_state k' = CLIENT_STREAM.
Proof.
  intros Hb Hst H0ff. destruct (Z.ltb_spec (outLen k) STREAM_OUTBUF) as [Hlt|]; cbn [when]; [|by exists k, s].
  pose proof (serving_client _ _ l k s Hb) as [C1 C2 [C3 C4]]. pose proof Hb as (O & Ap & E & Ed & Ec & Ea & Hp).
  destruct Hp as [Hst' _ _|got _ Ht (I & kc & n0 & off & Ek & Ok0 & R & ->)]; [congruence|]. rewrite Ec.
  destruct (safe_chaos_recv_bound h (STREAM_OUTBUF - outLen k) nowMs ltac:(lia) (core s) I) as (bytes & c' & Run & I' & Hlen).
  erewrite bind_Ok by (by apply run_on_core). exists (set_out (out k ++ bytes) k). eexists. split; [done|]. split; [|done].
  destruct (receiving_chaos_recv L base h (STREAM_OUTBUF - outLen k) nowMs n0 off m bytes _ c' kc I Ek Ok0 R Run) as (k' & d' & off' & E' & O' & R' & D & _).
  split.
  { apply open_set; [by apply open_core|]. constructor; try done. unfold outLen in *. cbn [out outOff set_out]. rewrite length_app. lia. }
  split; [by apply apart_set|]. split; [by eapply (nth_own (set_core c' s))|]. split; [done|]. split; [done|]. split; [done|].
  apply (bridging_stream _ _ _ _ (delivered L n0 off ++ bytes)); [done| |].
  - unfold text, pending in *. cbn [set_out out outOff] in *. rewrite H0ff in *. rewrite drop_0 in *. by rewrite app_assoc, Ht, app_assoc.
  - split; [done|]. exists k', d', off'. by rewrite D.
Qed.
Lemma run_chaos_recv_eof c kc : conn_at h c = Some kc -> opened kc = true -> chaos_recv_eof h c = (Ok (eofReceived kc), c).
Proof. intros E O. unfold chaos_recv_eof. by erewrite bind_Ok by (by apply run_conn_for_handle). Qed.
(** The socket is shut only when all has been written. *)
Lemma bridge_shut m l k s kc : at_bridge m l k s -> client_state k = CLIENT_STREAM -> conn_at h (core s) = Some kc -> eofReceived kc = true ->
  outLen k = 0 -> exists l' k' s', (call (SockShutdown (fd k)) ;; on_client i (set_wrShut true)) s = (Ok tt, s') /\ at_bridge m l' k' s' /\
    client_state k' = CLIENT_STREAM.
Proof.
  intros Hb Hst Ek Heof Hout. pose proof (serving_client _ _ l k s Hb) as [C1 C2 [C3 C4]]. pose proof Hb as (O & Ap & E & Ed & Ec & Ea & Hp).
  assert (pending k = []) as Hpe by (unfold pending, outLen in *; apply drop_ge; lia).
  assert (written d l = whole) as Hw.
  { destruct Hp as [Hst' _ _|got _ Ht (I & kc' & n0 & off & Ek' & Ok0 & R & ->)]; [congruence|]. assert (kc' = kc) as -> by congruence.
    unfold text in Ht. rewrite Hpe, app_nil_r in Ht. rewrite Ht. unfold whole. f_equal. by eapply receiving_eof. }
  unfold call. rewrite run_bind_modify. set (s1 := set_socket_calls _ s).
  assert (at_bridge m (l ++ [SockShutdown (fd k)]) k s1) as B1.
  { split; [|split_and!; try done].
    - pose proof O as [O1 O2 O3 O4 O5]. constructor; try done.
      + by apply server_call.
      + cbn [socket_calls set_socket_calls s1]. by rewrite O2, app_assoc.
      + rewrite closed_app, O3. done.
      + intros l1 l2 El. destruct l2 as [|x l2 _] using rev_ind; [by apply app_inj_tail in El as [<- _]|].
        rewrite app_comm_cons, app_assoc in El. apply app_inj_tail in El as [El _]. by apply (O4 l1 l2).
    - unfold text. by rewrite written_app, app_nil_r. }
  destruct (serving_flag _ _ (bridge_stable m) _ k s1 (set_wrShut true) B1) as (s2 & R2 & B2 & _); [done|].
  by exists (l ++ [SockShutdown (fd k)]), (set_wrShut true k), s2.
Qed.

(** However the service of the client ends: it goes on, or its socket is closed. *)
Definition goes_on (m : nat) (b : bool) (s : StreamServer) : Prop :=
  if b then exists l k, at_bridge m l k s /\ client_state k = CLIENT_STREAM else done_now s.
Lemma bridge_after_write m l k s nowMs : at_bridge m l k s -> client_state k = CLIENT_STREAM -> exists b s',
  (eof <- on_core (chaos_recv_eof (client_conn k)) ;;
   when (eof && (outLen k =? 0) && negb (wrShut k)) (call (SockShutdown (fd k)) ;; on_client i (set_wrShut true)) ;;
   conn <- on_core (get_conn h) ;;
   ready <- on_core (chaos_recv_ready (client_conn k)) ;;
   if bool_decide (state conn = CONN_CLOSED) && negb ready && (outLen k =? 0) then
     client_close i (bytes_of_string "Connection closed") nowMs ;; ret false
   else ret true) s = (Ok b, s') /\ goes_on m b s'.
Proof.
  intros Hb Hst. pose proof Hb as (O & Ap & E & Ed & Ec & Ea & Hp). destruct (bridging_opened _ _ _ _ Hp) as (kc & Ek & Ok0).
  rewrite Ec. erewrite bind_Ok by (apply run_on_core; by apply run_chaos_recv_eof). rewrite set_core_same.
  assert (exists l1 k1 s1, when (eofReceived kc && (outLen k =? 0) && negb (wrShut k)) (call (SockShutdown (fd k)) ;; on_client i (set_wrShut true)) s = (Ok tt, s1) /\
    at_bridge m l1 k1 s1 /\ client_state k1 = CLIENT_STREAM) as (l1 & k1 & s1 & R1 & B1 & S1).
  { destruct (eofReceived kc) eqn:Heof; cbn [andb when]; [|by exists l, k, s]. destruct (Z.eqb_spec (outLen k) 0); cbn [andb when]; [|by exists l, k, s].
    destruct (wrShut k); cbn [negb when]; [by exists l, k, s|]. by eapply bridge_shut. }
  erewrite bind_Ok by exact R1.
  destruct (at_bridge_on m l1 k1 s1 (get_conn h) conn_inv (fun conn => ready <- on_core (chaos_recv_ready h) ;;
    if bool_decide (state conn = CONN_CLOSED) && negb ready && (outLen k =? 0) then
      client_close i (bytes_of_string "Connection closed") nowMs ;; ret false else ret true)) as (conn & s2 & -> & _ & B2);
    [by apply safe_get_conn|apply spares_get_conn|done|].
  destruct (at_bridge_on m l1 k1 s2 (chaos_recv_ready h) (fun _ => True) (fun ready =>
    if bool_decide (state conn = CONN_CLOSED) && negb ready && (outLen k =? 0) then
      client_close i (bytes_of_string "Connection closed") nowMs ;; ret false else ret true)) as (ready & s3 & -> & _ & B3);
    [apply safe_chaos_recv_ready|apply spares_chaos_recv_ready|done|].
  cbv beta. destruct (bool_decide _ && _ && _); [|exists true, s3; split; [done|exists l1, k1; by split]].
  destruct (close_done _ _ (bridge_told m) l1 k1 s3 (bytes_of_string "Connection closed") nowMs B3) as (s4 & R4 & D4).
  erewrite bind_Ok by exact R4. by exists false, s4.
Qed.
Lemma bridge_recv m l k s nowMs : at_bridge m l k s -> client_state k = CLIENT_STREAM -> exists b s',
  service_recv i h nowMs s = (Ok b, s') /\ goes_on m b s'.
Proof.
  intros Hb Hst. pose proof Hb as (_ & _ & E & _). unfold service_recv. erewrite bind_Ok by (by apply (run_on_client s k)).
  set (s1 := set_clients _ s). assert (at_bridge m l (out_compact k) s1) as B1.
  { apply (serving_set _ _ (bridge_stable m) l k); try done. by eapply client_inv_compact, serving_client. }
  pose proof B1 as (_ & _ & E1 & _). rewrite (run_get_client s1 (out_compact k)) by done.
  destruct (bridge_recv_read m l (out_compact k) s1 nowMs B1 Hst eq_refl) as (k2 & s2 & R2 & B2 & S2). erewrite bind_Ok by exact R2.
  destruct (serving_write _ _ (bridge_stable m) (bridge_told m) nowMs l k2 s2 B2) as (b & s3 & R3 & W3). erewrite bind_Ok by exact R3.
  destruct b; cbn [negb]; [|by exists false, s3]. destruct W3 as (l3 & k3 & B3 & _ & S3 & _). pose proof B3 as (_ & _ & E3 & _).
  rewrite (run_get_client s3 k3) by done. apply (bridge_after_write m l3); [exact B3|congruence].
Qed.
Lemma bridge_stream m l k s nowMs : at_bridge m l k s -> client_state k = CLIENT_STREAM -> exists b s',
  service_stream i nowMs s = (Ok b, s') /\ goes_on m b s'.
Proof.
  intros Hb Hst. pose proof Hb as (O & Ap & E & Ed & Ec & Ea & Hp). destruct (bridging_opened _ _ _ _ Hp) as (kc & Ek & Ok0).
  unfold service_stream. rewrite (run_get_client s k) by done. cbv zeta. rewrite Ec.
  erewrite bind_Ok by (apply run_on_core; by apply run_conn_for_handle). rewrite set_core_same.
  destruct (bridge_send m l k s nowMs Hb) as (k1 & s1 & R1 & B1 & S1). erewrite bind_Ok by exact R1.
  apply (bridge_recv m l k1); [done|congruence].
Qed.
Lemma refusal_drain l k s nowMs : at_refusal l k s -> exists s', service_drain i nowMs s = (Ok tt, s') /\ (refused_now s' \/ done_now s').
Proof.
  intros Hb. pose proof Hb as (_ & _ & E & _ & _ & Hst & _). unfold service_drain. rewrite (run_get_client s k) by done.
  rewrite bool_decide_eq_true_2 by done. cbn [when].
  destruct (serving_write _ _ refusal_stable refusal_told nowMs l k s Hb) as (b & s1 & R1 & W1). erewrite bind_Ok by exact R1.
  destruct b; cbn [when]; [|exists s1; auto]. destruct W1 as (l1 & k1 & B1 & _). pose proof B1 as (_ & _ & E1 & _).
  rewrite (run_get_client s1 k1) by done. destruct (outLen k1 =? 0); cbn [when]; [|exists s1; split; [done|left; by exists l1, k1]].
  destruct (close_done _ _ refusal_told l1 k1 s1 (bytes_of_string "Request failed") nowMs B1) as (s2 & R2 & D2). exists s2. auto.
Qed.
Lemma drain_streaming m l k s nowMs : at_bridge m l k s -> client_state k = CLIENT_STREAM -> service_drain i nowMs s = (Ok tt, s).
Proof.
  intros Hb Hst. pose proof Hb as (_ & _ & E & _). unfold service_drain. rewrite (run_get_client s k) by done. by rewrite Hst.
Qed.
Lemma bridge_service m l k s nowMs : at_bridge m l k s -> exists s', client_service i nowMs s = (Ok tt, s') /\ promise m s'.
Proof.
  intros Hb. assert (forall l k s, at_bridge m l k s -> client_state k = CLIENT_STREAM -> exists s',
    (alive <- service_stream i nowMs ;; when alive (service_drain i nowMs)) s = (Ok tt, s') /\ promise m s') as Hstream.
  { intros l0 k0 s0 B0 S0. destruct (bridge_stream m l0 k0 s0 nowMs B0 S0) as (b & s1 & R1 & G1). erewrite bind_Ok by exact R1.
    destruct b; cbn [when]; [|exists s1; split; [done|right; by right]]. destruct G1 as (l1 & k1 & B1 & S1).
    rewrite (drain_streaming m l1 k1) by done. exists s1. split; [done|left; by exists l1, k1]. }
  pose proof Hb as (O & Ap & E & Ed & Ec & Ea & Hp). unfold client_service. rewrite (run_get_client s k) by done.
  destruct Hp as [Hst _ _|got Hst _ _]; rewrite Hst; [|rewrite run_bind_ret; by apply (Hstream l k)].
  destruct (bridge_waiting m l k s nowMs Hb Hst) as (b & s1 & R1 & W1). erewrite bind_Ok by exact R1.
  destruct b; destruct W1 as (k1 & W1); [destruct W1 as [B1 S1]; by apply (Hstream l k1)|]. rewrite run_bind_ret. cbn [when].
  destruct (refusal_drain l k1 s1 nowMs W1) as (s2 & R2 & D2). exists s2. split; [done|]. right. exact D2.
Qed.
Lemma refusal_service l k s nowMs : at_refusal l k s -> exists s', client_service i nowMs s = (Ok tt, s') /\ (refused_now s' \/ done_now s').
Proof.
  intros Hb. pose proof Hb as (_ & _ & E & _ & _ & Hst & _). unfold client_service. rewrite (run_get_client s k) by done. rewrite Hst, !run_bind_ret.
  cbn [when]. by eapply refusal_drain.
Qed.

(** ** All clients *)

Lemma free_client_index_handle s j : server_inv s -> free_client_index 0 (clients s) = Some j ->
  handle j /\ exists k, nth_Z (clients s) j = Some k /\ free k = true.
Proof.
  intros [_ [Lc _] _] Ej. destruct (free_client_index_range _ _ _ Ej) as (Hj & k & E & F). rewrite Z.sub_0_r in E.
  split; [unfold handle; rewrite Lc, Z2Nat.id in Hj by done; lia|]. by exists k.
Qed.
Lemma does_accept (P : StreamServer -> Prop) own_fd own_conn : (forall s, P s -> server_inv s) ->
  (exists j, frame P own_fd own_conn j) ->
  (forall s j k, P s -> nth_Z (clients s) j = Some k -> free k = true -> handle j -> frame P own_fd own_conn j) ->
  (forall s, P s -> own_fd (accept_fd (socket_calls s)) /\
     P (set_socket_calls (socket_calls s ++ [SockAccepted (accept_fd (socket_calls s))]) s)) ->
  forall n, does P (accept_clients n) (fun _ => True).
Proof.
  intros HP [j0 F0] HF Hacc. induction n as [|n IH]; cbn [accept_clients]; [by apply does_ret|].
  intros s Hs. rewrite run_bind_gets. cbv zeta. unfold call at 1. rewrite run_bind_modify.
  destruct (Hacc s Hs) as [Ho Hs1]. generalize dependent (accept_fd (socket_calls s)). intros e Ho Hs1. set (s1 := set_socket_calls _ s) in *. clearbody s1.
  refine (does_bind P (stream_adopt e) _ (fun _ => True) _ _ _ s1 Hs1).
  - clear s Hs s1 Hs1 n IH. intros s Hs. unfold stream_adopt. rewrite run_bind_gets.
    destruct (free_client_index 0 (clients s)) as [j|] eqn:Ej; [|by exists (-1), s].
    destruct (free_client_index_handle s j (HP s Hs) Ej) as (Hj & k & E & Fk). pose proof (HF s j k Hs E Fk Hj) as Fj.
    eexists _, _. split; [done|]. split; [|done]. apply (frame_set _ _ _ _ Fj); [done|]. split; [by constructor|]. split; [done|].
    by destruct (frame_none _ _ _ _ Fj).
  - intros j _. eapply does_bind; [|intros _ _; exact IH]. apply does_when. intros _. eapply does_bind; [apply does_gets|]. intros log _. cbv zeta.
    eapply does_bind; [apply (does_call P own_fd own_conn j0 F0); exact Ho|]. intros _ _. apply (does_call P own_fd own_conn j0 F0). exact Ho.
Qed.

Lemma promise_inv m s : promise m s -> server_inv s.
Proof. intros [(l & k & O & _)|[(l & k & O & _)|[I _]]]; [exact (on_inv _ _ O)|exact (on_inv _ _ O)|done]. Qed.
Lemma does_promise {A} m (m0 : Front A) : does (bridged_now m) m0 (fun _ => True) -> does refused_now m0 (fun _ => True) ->
  does done_now m0 (fun _ => True) -> does (promise m) m0 (fun _ => True).
Proof.
  intros H1 H2 H3 s [Hs|[Hs|Hs]]; [destruct (H1 s Hs) as (x & s' & Run & Hs' & _)|destruct (H2 s Hs) as (x & s' & Run & Hs' & _)|destruct (H3 s Hs) as (x & s' & Run & Hs' & _)];
    exists x, s'; (split; [done|]); (split; [|done]); [by left|right; by left|right; by right].
Qed.
(** The client's own operations may take the promise from one of its phases to the next. *)
Lemma does_own {A} m (m0 : Front A) :
  (forall l k s, at_bridge m l k s -> exists r s', m0 s = (Ok r, s') /\ promise m s') ->
  (forall l k s, at_refusal l k s -> exists r s', m0 s = (Ok r, s') /\ (refused_now s' \/ done_now s')) ->
  does done_now m0 (fun _ => True) -> does (promise m) m0 (fun _ => True).
Proof.
  intros H1 H2 H3 s [(l & k & Hs)|[(l & k & Hs)|Hs]].
  - destruct (H1 l k s Hs) as (r & s' & Run & Hp). by exists r, s'.
  - destruct (H2 l k s Hs) as (r & s' & Run & Hp). exists r, s'. split; [done|]. split; [by right|done].
  - destruct (H3 s Hs) as (r & s' & Run & Hp & _). exists r, s'. split; [done|]. split; [by right; right|done].
Qed.
Lemma elsewhere_client : exists j, handle j /\ j <> i.
Proof. destruct (decide (i = 0)) as [->|]; [by exists 1|]. exists 0. by split. Qed.
Lemma accepted_apart s l : open_now l s -> accept_fd (socket_calls s) <> d.
Proof.
  intros [_ O2 O3 _ _] Hd'. destruct (accept_new (socket_calls s)) as [_ Hn]. rewrite Hd', O2 in Hn. by rewrite is_open_app in Hn.
Qed.
Lemma open_accept s l e : open_now l s -> open_now (l ++ [SockAccepted e]) (set_socket_calls (socket_calls s ++ [SockAccepted e]) s).
Proof. intros O. by apply open_call. Qed.

Lemma bridge_read m l k s nowMs : at_bridge m l k s -> exists s', client_read i nowMs s = (Ok tt, s') /\ promise m s'.
Proof.
  intros Hb. pose proof Hb as (_ & _ & _ & _ & _ & _ & Hp).
  destruct (serving_read _ _ (bridge_stable m) (bridge_told m) nowMs l k s Hb) as (s' & Run & Hor); [by destruct Hp as [-> _ _|got -> _ _]|].
  exists s'. split; [done|]. destruct Hor as [(l' & k' & B' & _)|D]; [by left; exists l', k'|by right; right].
Qed.
Lemma refusal_read l k s nowMs : at_refusal l k s -> exists s', client_read i nowMs s = (Ok tt, s') /\ (refused_now s' \/ done_now s').
Proof.
  intros Hb. pose proof Hb as (_ & _ & _ & _ & _ & Hst & _).
  destruct (serving_read _ _ refusal_stable refusal_told nowMs l k s Hb) as (s' & Run & Hor); [congruence|].
  exists s'. split; [done|]. destruct Hor as [(l' & k' & B' & _)|D]; [by left; exists l', k'|by right].
Qed.
Lemma promise_served m : served (promise m).
Proof.
  destruct elsewhere_client as (j0 & Hj0 & Hne0).
  pose proof (bridged_frame m j0 Hj0 Hne0) as F1. pose proof (refused_frame j0 Hj0 Hne0) as F2. pose proof (done_frame j0 Hj0) as F3.
  constructor.
  - intros j Hj s Hs. destruct (server_client s j (promise_inv m s Hs) Hj) as (k & E & _). exists k, s. split; [|done].
    unfold get_client. rewrite run_bind_gets. by rewrite E.
  - intros k. apply does_promise; [eapply does_client_events, F1|eapply does_client_events, F2|eapply does_client_events, F3].
  - intros j nowMs Hj. destruct (decide (j = i)) as [->|Hne].
    + apply does_own; [|intros l k s Hs; exists tt; by eapply refusal_read|eapply does_client_read; by apply done_frame].
      intros l k s Hs. exists tt. by eapply bridge_read.
    + apply does_promise; eapply does_client_read; [by apply bridged_frame|by apply refused_frame|by apply done_frame].
  - intros j nowMs Hj. destruct (decide (j = i)) as [->|Hne].
    + apply does_own; [| |eapply does_client_write; by apply done_frame].
      * intros l k s Hs. destruct (serving_write _ _ (bridge_stable m) (bridge_told m) nowMs l k s Hs) as (b & s' & Run & W). exists b, s'.
        split; [done|]. destruct b; [|by right; right]. destruct W as (l' & k' & B' & _). by left; exists l', k'.
      * intros l k s Hs. destruct (serving_write _ _ refusal_stable refusal_told nowMs l k s Hs) as (b & s' & Run & W). exists b, s'.
        split; [done|]. destruct b; [|by right]. destruct W as (l' & k' & B' & _). by left; exists l', k'.
    + apply does_promise; eapply does_client_write; [by apply bridged_frame|by apply refused_frame|by apply done_frame].
  - intros j why nowMs Hj. destruct (decide (j = i)) as [->|Hne].
    + apply does_own; [| |eapply does_client_close; by apply done_frame]; intros l k s Hs; exists tt.
      * destruct (close_done _ _ (bridge_told m) l k s why nowMs Hs) as (s' & Run & D). exists s'. split; [done|by right; right].
      * destruct (close_done _ _ refusal_told l k s why nowMs Hs) as (s' & Run & D). exists s'. split; [done|by right].
    + apply does_promise; eapply does_client_close; [by apply bridged_frame|by apply refused_frame|by apply done_frame].
  - intros j nowMs Hj. destruct (decide (j = i)) as [->|Hne].
    + apply does_own; [| |eapply does_client_service; by apply done_frame]; intros l k s Hs; exists tt; [by eapply bridge_service|by eapply refusal_service].
    + apply does_promise; eapply does_client_service; [by apply bridged_frame|by apply refused_frame|by apply done_frame].
  - intros n. apply does_promise.
    + apply (does_accept _ (fun e => e <> d) (fun x => x <> h)); [by intros s (l & k & O & _); exact (on_inv _ _ O)|by exists j0| |].
      * intros s j k (l & ki & O & Ap & E & Ed & Ec & Ea & Hp) Ej Fk Hj. apply bridged_frame; [done|]. intros ->. assert (ki = k) as -> by congruence.
        unfold free in Fk. by destruct Hp as [Hst _ _|got Hst _ _]; rewrite Hst in Fk.
      * intros s (l & k & O & Ap & E & Ed & Ec & Ea & Hp). split; [by eapply accepted_apart|]. eexists _, k. split; [by apply open_accept|].
        split_and!; try done. by rewrite text_other.
    + apply (does_accept _ (fun e => e <> d) (fun _ => True)); [by intros s (l & k & O & _); exact (on_inv _ _ O)|by exists j0| |].
      * intros s j k (l & ki & O & Ap & E & Ed & Ec & Es & Hp) Ej Fk Hj. apply refused_frame; [done|]. intros ->. assert (ki = k) as -> by congruence.
        unfold free in Fk. by rewrite Es in Fk.
      * intros s (l & k & O & Ap & E & Ed & Ec & Es & Hp). split; [by eapply accepted_apart|]. eexists _, k. split; [by apply open_accept|].
        split_and!; try done. by rewrite text_other.
    + apply (does_accept _ (fun _ => True) (fun _ => True)); [by intros s [I _]|by exists j0|intros s j k _ _ _; apply done_frame|].
      intros s (I & l & El & Hc & Ht). split; [done|]. split; [by apply server_call|]. eexists (l ++ [_]). cbn [socket_calls set_socket_calls].
      split_and!; [by rewrite El, app_assoc|by rewrite closed_app, Hc|by rewrite before_close_closed].
  - apply does_promise; [eapply (does_call _ _ _ _ F1)|eapply (does_call _ _ _ _ F2)|eapply (does_call _ _ _ _ F3)]; done.
Qed.

(** ** A run of the daemon *)

(** A client that waits for its connection, which the peer has just opened. *)
Definition about_to_stream (s : StreamServer) : Prop :=
  server_inv s /\ socket_calls s = log0 /\ listenFd s <> d /\
  (exists k, nth_Z (clients s) i = Some k /\ client_state k = CLIENT_WAIT_OPN /\ fd k = d /\ client_conn k = h /\ client_addr k = a /\ out k = []) /\
  (exists k, conn_at h (core s) = Some k /\ just_opened base k) /\
  apart (fun k => client_conn k <> h) s.
Definition since (s : StreamServer) : list SocketCall := drop (length log0) (socket_calls s).

(** [bridge s m]: the daemon has come to [s] since then, and [m] packets have come in order. *)
Inductive bridge : StreamServer -> nat -> Prop :=
| bridge_start s : about_to_stream s -> bridge s 0
| bridge_input s m frame nowMs s' : bridge s m -> (closed d (since s) = false -> genuine L base h m frame (core s)) ->
    perform_front (FrontInput frame nowMs) s = (Ok tt, s') -> bridge s' (advanced_to h m (core s) (core s'))
| bridge_other s m o s' : bridge s m -> match o with FrontInput _ _ | FrontTurn _ => False | _ => True end ->
    perform_front o s = (Ok tt, s') -> bridge s' m.

Lemma since_log s l : socket_calls s = log0 ++ l -> since s = l.
Proof. unfold since. intros ->. apply drop_app_length. Qed.
Lemma promise_told m s : promise m s -> told (before_close d (since s)).
Proof.
  intros [(l & k & Hs)|[(l & k & Hs)|(I & l & El & Hc & Ht)]].
  - pose proof (serving_told _ _ (bridge_told m) l k s Hs) as Ht. destruct Hs as ([O1 O2 O3 O4 O5] & _).
    rewrite (since_log s l) by done. by rewrite before_close_open.
  - pose proof (serving_told _ _ refusal_told l k s Hs) as Ht. destruct Hs as ([O1 O2 O3 O4 O5] & _).
    rewrite (since_log s l) by done. by rewrite before_close_open.
  - by rewrite (since_log s l).
Qed.
Lemma about_promise s : about_to_stream s -> promise 0 s.
Proof.
  intros (I & El & Hl & (k & E & Hst & Ed & Ec & Ea & Eo) & (kc & Ek & J) & Ap). left. exists [], k.
  split. { constructor; try done; [by rewrite app_nil_r|]. intros l1 l2 E0. by destruct l1. }
  split_and!; try done. apply bridging_waiting; [done|unfold text, pending; by rewrite Eo, drop_nil|].
  apply session_in; [done|]. by eapply session_opened; [apply server_core| |].
Qed.
Lemma does_core_promise {A} m (m0 : Core A) Q : safe m0 Q -> spares h m0 -> does (promise m) (on_core m0) (fun _ => True).
Proof.
  intros Hm Hs. destruct elsewhere_client as (j0 & Hj0 & Hne0). apply does_promise.
  - eapply does_true. apply (frame_core _ _ _ _ (bridged_frame m j0 Hj0 Hne0)); [exact Hm|]. intros x Hx. by assert (x = h) as -> by lia.
  - eapply does_true. by apply (frame_core _ _ _ _ (refused_frame j0 Hj0 Hne0)).
  - eapply does_true. by apply (frame_core _ _ _ _ (done_frame j0 Hj0)).
Qed.
(** What changes neither clients, nor core, nor log. *)
Lemma promise_same m s s' : promise m s -> core s' = core s -> clients s' = clients s -> socket_calls s' = socket_calls s ->
  listenFd s' <> d -> server_inv s' -> promise m s'.
Proof.
  intros Hp E1 E2 E3 Hl I. assert (forall l, open_now l s -> open_now l s') as Ho by (intros l [O1 O2 O3 O4 O5]; constructor; [done|congruence|done..]).
  assert (forall others, apart others s -> apart others s') as Ha by (intros others Ha j k; rewrite E2; apply Ha).
  destruct Hp as [(l & k & O & Ap & E & Hs)|[(l & k & O & Ap & E & Hs)|(I0 & l & El & Hc)]].
  - left. exists l, k. split; [by apply Ho|]. split; [by apply Ha|]. rewrite E1, E2. done.
  - right; left. exists l, k. split; [by apply Ho|]. split; [by apply Ha|]. rewrite E2. done.
  - right; right. split; [done|]. exists l. by rewrite E3.
Qed.
Lemma promise_call m s e : promise m s -> e <> d \/ done_now s -> promise m (set_socket_calls (socket_calls s ++ [SockClose e]) s).
Proof.
  destruct elsewhere_client as (j0 & Hj0 & Hne0). intros Hs Hor.
  assert (done_now s -> promise m (set_socket_calls (socket_calls s ++ [SockClose e]) s)) as Hdone.
  { intros D. right; right. by apply (frame_call _ _ _ _ (done_frame j0 Hj0)). }
  destruct Hor as [He|]; [|auto]. destruct Hs as [Hs|[Hs|Hs]]; [| |auto].
  - left. by apply (frame_call _ _ _ _ (bridged_frame m j0 Hj0 Hne0)).
  - right; left. by apply (frame_call _ _ _ _ (refused_frame j0 Hj0 Hne0)).
Qed.
Lemma promise_listen m s : promise m s -> listenFd s <> d \/ done_now s.
Proof. intros [(l & k & O & _)|[(l & k & O & _)|D]]; [left; exact (on_listen _ _ O)|left; exact (on_listen _ _ O)|by right]. Qed.
Lemma promise_listenFd m s v : promise m s -> v <> d -> promise m (set_listenFd v s).
Proof. intros Hs Hv. apply (promise_same m s); try done. by destruct (promise_inv m s Hs); constructor. Qed.
Lemma does_promise_other m o : match o with FrontInput _ _ | FrontTurn _ => False | _ => True end -> does (promise m) (perform_front o) (fun _ => True).
Proof.
  destruct o as [frame nowMs|nowMs|extraFd timeoutMs|nowMs|notifyFd|spec|nowMs]; intros Ho; try done; cbn [perform_front].
  - eapply does_core_promise; [apply safe_chaos_core_tick|apply spares_chaos_core_tick].
  - eapply does_bind; [apply does_stream_step, promise_served|]. intros _ _. by apply does_ret.
  - apply does_stream_service, promise_served.
  - eapply (does_bind _ _ _ (fun _ => True)); [|intros _ _; by apply does_ret]. intros s Hs.
    destruct (does_stream_add_host spec s (promise_inv m s Hs)) as (r & s' & Run & I' & _). exists r, s'. split; [done|]. split; [|done].
    revert Run. unfold stream_add_host. cbv zeta. rewrite run_bind_gets. destruct (before_char _ _) as [[name value]|]; [|by intros [= _ <-]].
    destruct (_ || _ || _); [by intros [= _ <-]|]. destruct (strtoul8 value) as [v rest]. destruct (_ || _ || _ || _); [by intros [= _ <-]|].
    rewrite run_bind_modify. intros [= _ <-]. destruct (promise_listen m s Hs) as [Hl|D]; [by apply (promise_same m s)|].
    right; right. destruct D as [_ D]. by split.
  - unfold stream_shutdown. eapply does_bind; [by apply does_close_clients; [apply promise_served|..]|]. intros _ _ s Hs.
    rewrite run_bind_gets. destruct (0 <=? listenFd s); cbn [when]; [|by exists tt, s]. unfold call. rewrite run_bind_modify.
    eexists _, _. split; [done|]. split; [|done]. apply promise_listenFd; [|lia]. apply promise_call; [done|by eapply promise_listen].
Qed.
Lemma promise_input m frame nowMs s s' : promise m s -> (closed d (since s) = false -> genuine L base h m frame (core s)) ->
  perform_front (FrontInput frame nowMs) s = (Ok tt, s') -> promise (advanced_to h m (core s) (core s')) s'.
Proof.
  intros Hs G Run. cbn [perform_front] in Run. pose proof (promise_inv m s Hs) as I.
  destruct (safe_chaos_core_input frame nowMs _ (server_core _ I)) as ([] & c' & Rc & I' & _).
  rewrite (run_on_core _ _ _ _ Rc) in Run. injection Run as <-. change (core (set_core c' s)) with c'.
  destruct Hs as [(l & k & O & Ap & E & Ed & Ec & Ea & Hp)|[(l & k & O & Hk)|(_ & Hl)]].
  - left. exists l, k. split; [by apply open_core|]. split_and!; try done. change (core (set_core c' s)) with c'.
    rewrite (since_log s l) in G by exact (on_log _ _ O). specialize (G (on_open _ _ O)).
    assert (forall got, in_session L base h (core s) got m -> in_session L base h c' got (advanced_to h m (core s) c')) as Hin.
    { intros got (_ & kc & n & off & Ek & Ok0 & R & ->).
      destruct (receiving_chaos_core_input L base h frame nowMs n off m (core s) c' kc (server_core _ I) Ek Ok0 R Hh G Rc) as (k' & m' & E' & R' & O' & Hm).
      split; [done|]. exists k', n, off. split_and!; try done. by rewrite (receiving_advanced L base h n off m m' (core s) c' kc k'). }
    destruct Hp as [H1 H2 H3|got H1 H2 H3]; [apply bridging_waiting|apply (bridging_stream _ _ _ _ got)]; auto.
  - right; left. exists l, k. split; [by apply open_core|exact Hk].
  - right; right. split; [by apply server_set_core|exact Hl].
Qed.
Lemma bridge_promise s m : bridge s m -> promise m s.
Proof.
  induction 1 as [s Hs|s m frame nowMs s' _ IH G Run|s m o s' _ IH Ho Run]; [by apply about_promise|by eapply promise_input|].
  destruct (does_promise_other m o Ho s IH) as ([] & s1 & R1 & P1 & _). by rewrite Run in R1; injection R1 as <-.
Qed.

(** C8. From when the peer has opened the connection of a waiting client until the client's
    socket is closed, whatever the network, the other clients and the host do, what is written
    to the socket is a prefix of the line that the connection has opened followed by what the
    peer has sent on it; or, when the connection closed before the daemon saw it open, of the
    line that says why. The socket is shut only when all that the peer has sent has been
    written. *)
Theorem chaos_bridge_delivery s m : bridge s m ->
  let l := before_close d (since s) in
  (written d l `prefix_of` opened_line a ++ stream L \/ exists k, state k = CONN_CLOSED /\ written d l `prefix_of` refusal k) /\
  forall l1 l2, l = l1 ++ SockShutdown d :: l2 -> written d l1 = opened_line a ++ stream L.
Proof. intros Hb. exact (promise_told m s (bridge_promise s m Hb)). Qed.
End deliver.

(** ** A host *)

(** Descriptors go up; one client connects and asks for a connection; a write takes seven bytes
    at most; poll finds everything ready. *)
Definition newest (calls : list SocketCall) : Z :=
  fold_left (fun v c => match c with SockAccepted e => Z.max v e | _ => v end) calls 3.
Definition has_read (calls : list SocketCall) : bool := existsb (fun c => match c with SockRead _ _ => true | _ => false end) calls.
Definition has_accepted (calls : list SocketCall) : bool := existsb (fun c => match c with SockAccepted _ => true | _ => false end) calls.
Definition request : list Z := bytes_of_string "RFC 402 ECHO" ++ [13; 10].
#[export] Instance sample_sockets : Sockets := {
  read_result calls _ want := if has_read calls || (want <? 20) then ReadAgain else ReadBytes request;
  write_result _ _ bytes := match bytes with [] => WriteAgain | _ => Wrote (Z.min 7 (Z.of_nat (length bytes))) end;
  poll_result _ l := Some (map (fun p => MkPollEvents (poll_in p) (poll_out p) false false) l);
  waiting calls := if has_accepted calls then 0%nat else 1%nat;
  accept_fd calls := 1 + newest calls;
  clock calls := Z.of_nat (length calls);
  frames_waiting _ := []
}.
Lemma newest_open calls d : (is_open calls d = true -> d <= newest calls) /\ 3 <= newest calls.
Proof.
  unfold is_open, newest. induction calls as [|c calls [IH1 IH2]] using rev_ind; [done|]. rewrite !fold_left_app. cbn [fold_left].
  destruct c as [e w|e b|e|e| |e]; try done.
  - split; [|done]. intros [Hb _]%andb_prop. auto.
  - split; [|lia]. intros [Hb|Hb%Z.eqb_eq]%orb_prop; [|lia]. specialize (IH1 Hb). lia.
Qed.
#[export] Instance sample_laws : SocketLaws.
Proof.
  constructor.
  - intros calls d want bytes. cbn [read_result sample_sockets]. destruct (_ || _) eqn:B; [done|]. intros [= <-].
    apply orb_false_elim in B as [_ B%Z.ltb_ge]. change (Z.of_nat (length request)) with 14. lia.
  - intros calls d bytes n. cbn [write_result sample_sockets]. destruct bytes as [|b bytes]; [done|]. intros [= <-]. cbn [length]. lia.
  - intros calls l events. cbn [poll_result sample_sockets]. intros [= <-]. apply length_map.
  - intros calls. cbn [accept_fd sample_sockets]. destruct (newest_open calls (1 + newest calls)) as [H1 H2]. split; [lia|].
    destruct (is_open calls (1 + newest calls)); [specialize (H1 eq_refl); lia|done].
Qed.

(** ** A client is served *)

(** The client connects, its request is read, and the peer answers. *)
Definition front_start : StreamServer :=
  set_listenFd 3 (stream_init (chaosd_core 0x0101 [2; 0; 0; 0; 0; 1] (bytes_of_string "HOST") 13 0)).
Definition opn_in : front_operation := FrontInput (peer_frame CHOP_OPN 0xFFFE (chaos_put16 0 ++ chaos_put16 13)) 2.
Definition served_core : StreamServer := snd (perform_fronts [FrontStep (-1) 0; FrontStep (-1) 0; opn_in] front_start).
Definition after_front (o : front_operation) (s : StreamServer) : StreamServer := snd (perform_front o s).
Definition served_log : list SocketCall := socket_calls served_core.

Lemma front_start_inv : server_inv front_start.
Proof.
  destruct (stream_init_inv _ (chaosd_core_inv 0x0101 [2; 0; 0; 0; 0; 1] (bytes_of_string "HOST") 13 0 eq_refl ltac:(done))) as [I1 I2 I3].
  by constructor.
Qed.
Lemma does_perform_fronts l : does server_inv (perform_fronts l) (fun _ => True).
Proof.
  induction l as [|o l IH]; cbn [perform_fronts]; [by apply does_ret|]. eapply does_bind; [apply does_perform_front|]. by intros _ _.
Qed.
Lemma served_core_inv : server_inv served_core.
Proof. unfold served_core. by destruct (does_perform_fronts [FrontStep (-1) 0; FrontStep (-1) 0; opn_in] _ front_start_inv) as ([] & s & -> & I & _). Qed.

(** What can be told from the state by looking at it. *)
Definition about_to_stream_b (s : StreamServer) : bool :=
  match nth_Z (clients s) 0, conn_at 0 (core s) with
  | Some k, Some kc =>
      bool_decide (client_state k = CLIENT_WAIT_OPN) && (fd k =? 4) && (client_conn k =? 0) && (client_addr k =? 0x102) && bool_decide (out k = []) &&
      (bool_decide (state kc = CONN_OPEN) && (readNum kc =? 0xFFFE) && (receivedNum kc =? 0xFFFE) && negb (eofReceived kc) &&
       forallb (fun p => negb (present p)) (rcvq kc)) &&
      forallb (fun k => negb (fd k =? 4) && negb (client_conn k =? 0)) (drop 1 (clients s)) && negb (listenFd s =? 4)
  | _, _ => false
  end.
Lemma about_to_stream_reflects s : server_inv s -> about_to_stream_b s = true -> about_to_stream 0xFFFE 0 0 4 0x102 (socket_calls s) s.
Proof.
  intros I Hb. unfold about_to_stream_b in Hb. destruct (nth_Z (clients s) 0) as [k|] eqn:E; [|done]. destruct (conn_at 0 (core s)) as [kc|] eqn:Ek; [|done].
  rewrite !andb_true_iff, !bool_decide_eq_true, !negb_true_iff, !Z.eqb_eq, Z.eqb_neq in Hb.
  destruct Hb as [[[[[[[K1 K2] K3] K4] K5] [[[[J1 J2] J3] J4] J5]] Hf] Hl].
  split; [done|]. split; [done|]. split; [done|]. split; [by exists k|]. split; [|].
  - exists kc. split; [done|]. split_and!; try done. by apply all_absent.
  - intros j k' Hj E'. rewrite forallb_forall in Hf. assert (0 <= j) as Hj0 by (apply nth_Z_bounds in E'; lia).
    unfold nth_Z in E'. destruct (Z.leb_spec 0 j); [|lia].
    assert (In k' (drop 1 (clients s))) as Hin%Hf.
    { apply list_elem_of_In, (list_elem_of_lookup_2 _ (Z.to_nat j - 1)). rewrite lookup_drop. rewrite <- E'. f_equal. lia. }
    apply andb_prop in Hin as [F1%negb_true_iff%Z.eqb_neq F2%negb_true_iff%Z.eqb_neq]. done.
Qed.

(** ** The bytes of the peer *)

#[local] Abbreviation sample_bridge := (bridge sent_by_peer 0xFFFE 0 0 4 0x102 served_log).
Lemma served_bridge : sample_bridge served_core 0.
Proof. apply bridge_start, about_to_stream_reflects; [apply served_core_inv|vm_compute; reflexivity]. Qed.
Lemma bridge_service_next s m nowMs : sample_bridge s m -> server_inv s -> sample_bridge (after_front (FrontService nowMs) s) m.
Proof.
  intros B I. eapply (bridge_other _ _ _ _ _ _ _ s m (FrontService nowMs)); [done|done|].
  destruct (does_perform_front (FrontService nowMs) s I) as ([] & s' & R & _). unfold after_front. by rewrite R.
Qed.
Lemma after_front_inv o s : server_inv s -> server_inv (after_front o s).
Proof. intros I. destruct (does_perform_front o s I) as ([] & s' & R & I' & _). unfold after_front. by rewrite R. Qed.
Lemma bridge_frame_next s m op n bytes nowMs k m' : sample_bridge s m -> server_inv s -> sent_by_peer !! k = Some (op, bytes) ->
  n = u16 (0xFFFE + 1 + Z.of_nat k) -> - 2 ^ 15 <= Z.of_nat m - Z.of_nat (S k) < 2 ^ 15 ->
  (let ch := drop (Z.to_nat CHAOS_ETH_HEADER) (peer_frame op n bytes) in nth_Z ch 1 = Some op /\
    chaos_get16 ch 2 = Some (Z.of_nat (length bytes)) /\ chaos_get16 ch 12 = Some n /\ slice ch CHAOS_HEADER (Z.land (Z.of_nat (length bytes)) 0xFFF) = Some bytes) ->
  advanced_to 0 m (core s) (core (after_front (FrontInput (peer_frame op n bytes) nowMs) s)) = m' ->
  sample_bridge (after_front (FrontInput (peer_frame op n bytes) nowMs) s) m'.
Proof.
  intros B I Hk Hn Hm Hf <-. eapply (bridge_input _ _ _ _ _ _ _ s m (peer_frame op n bytes) nowMs); [done| |].
  - intros _. exact (genuine_frame op n bytes m (core s) k nowMs Hk Hn Hm Hf).
  - destruct (does_perform_front (FrontInput (peer_frame op n bytes) nowMs) s I) as ([] & s' & R & _). unfold after_front. by rewrite R.
Qed.
Definition front1 : StreamServer := after_front (FrontInput (peer_frame 0x81 0 (bytes_of_string "world")) 3) served_core.
Definition front2 : StreamServer := after_front (FrontService 4) front1.
Definition front3 : StreamServer := after_front (FrontInput (peer_frame CHOP_DAT 0xFFFF (bytes_of_string "Hello, ")) 5) front2.
Definition front4 : StreamServer := after_front (FrontInput (peer_frame CHOP_DAT 0xFFFF (bytes_of_string "Hello, ")) 6) front3.
Definition front5 : StreamServer := after_front (FrontService 7) front4.
Definition front6 : StreamServer := after_front (FrontInput (peer_frame CHOP_EOF 1 []) 8) front5.
Definition front7 : StreamServer := after_front (FrontService 9) front6.
Lemma front_bridge : sample_bridge front7 3.
Proof.
  pose proof served_core_inv as I0. assert (server_inv front1) as I1 by (by apply after_front_inv). assert (server_inv front2) as I2 by (by apply after_front_inv).
  assert (server_inv front3) as I3 by (by apply after_front_inv). assert (server_inv front4) as I4 by (by apply after_front_inv).
  assert (server_inv front5) as I5 by (by apply after_front_inv). assert (server_inv front6) as I6 by (by apply after_front_inv).
  assert (sample_bridge front1 0) as B1 by (apply (bridge_frame_next _ 0 _ _ _ _ 1 0 served_bridge I0); vm_compute; done).
  assert (sample_bridge front2 0) as B2 by exact (bridge_service_next _ _ _ B1 I1).
  assert (sample_bridge front3 2) as B3 by (apply (bridge_frame_next _ 0 _ _ _ _ 0 2 B2 I2); vm_compute; done).
  assert (sample_bridge front4 2) as B4 by (apply (bridge_frame_next _ 2 _ _ _ _ 0 2 B3 I3); vm_compute; done).
  assert (sample_bridge front5 2) as B5 by exact (bridge_service_next _ _ _ B4 I4).
  assert (sample_bridge front6 3) as B6 by (apply (bridge_frame_next _ 2 _ _ _ _ 2 3 B5 I5); vm_compute; done).
  exact (bridge_service_next _ _ _ B6 I6).
Qed.
Lemma chaos_bridge_delivery_witness :
  (handle 0 /\ handle 0 /\ 0 <= 4 /\ is_open served_log 4 = true /\ sample_bridge front7 3) /\
  let l := before_close 4 (since served_log front7) in
  (written 4 l `prefix_of` opened_line 0x102 ++ stream sent_by_peer \/ exists k, state k = CONN_CLOSED /\ written 4 l `prefix_of` refusal k) /\
  forall l1 l2, l = l1 ++ SockShutdown 4 :: l2 -> written 4 l1 = opened_line 0x102 ++ stream sent_by_peer.
Proof.
  assert (handle 0) as H0 by done. assert (0 <= 4) as H4 by done. assert (is_open served_log 4 = true) as Ho by (vm_compute; reflexivity).
  split; [exact (conj H0 (conj H0 (conj H4 (conj Ho front_bridge))))|].
  exact (chaos_bridge_delivery sent_by_peer 0xFFFE 0 0 4 0x102 served_log H0 H0 H4 Ho front7 3 front_bridge).
Defined.
(** The socket is shut, so all has been written. *)
Example front_all_written : existsb (fun c => match c with SockShutdown 4 => true | _ => false end) (since served_log front7) = true /\
  written 4 (since served_log front7) = bytes_of_string "OPN Connection to host 402" ++ [13; 10] ++ bytes_of_string "Hello, world".
Proof. vm_compute. done. Qed.
Lemma stream_front_safe_witness :
  (length [2; 0; 0; 0; 0; 1] = 6%nat /\ 1 <= 13 <= CHAOS_RING / 2) /\
  exists s, perform_fronts [FrontStep (-1) 0; FrontStep (-1) 0; opn_in; FrontAddHost (bytes_of_string "genera=402"); FrontTurn 5; FrontTick 1000; FrontShutdown 2000]
    (set_listenFd 3 (stream_init (chaosd_core 0x0101 [2; 0; 0; 0; 0; 1] (bytes_of_string "HOST") 13 0))) = (Ok tt, s) /\ server_inv s.
Proof. split; [done|]. by apply stream_front_safe. Defined.

(** When data and CLS come before the daemon has seen the connection open, the client gets the
    reason only: the data that the core holds for it is dropped. *)
Example early_close_loses_data :
  let data := FrontInput (peer_frame CHOP_DAT 0xFFFF (bytes_of_string "Hello, ")) 3 in
  let close := FrontInput (peer_frame CHOP_CLS 0 (bytes_of_string "Bye")) 4 in
  written 4 (socket_calls (after_front (FrontService 9) (after_front close (after_front data served_core)))) = bytes_of_string "CLS Bye" ++ [13; 10].
Proof. vm_compute. reflexivity. Qed.
